(* ===== verification/_CoqProject ===== *)
-Q . S2P
Prelude.v
FixedPoint.v
CFloat.v
DynamicFix.v
Packet.v
Parsing.v
Rewrite.v
BpfMap.v
Flows.v
InKernel.v
Window.v
UserKern.v
Params.v
BpfObject.v
XdpLink.v
LibXdp.v
PinLoad.v
Stats.v
Entropy.v
Lpm.v
Trie.v
Loader.v
Race.v
Hashmap.v
Nlattr.v
Netlink.v
NetlinkXdp.v
XskRing.v
FlowRace.v
BpfCalls.v
SectionNames.v
BpfLoad.v
LoadFds.v
LoadExamples.v
XskProg.v
XskSocket.v
XskFds.v
XskExamples.v
LineInfo.v
ProgInfo.v
Cpus.v
PerfRing.v
PerfBuffer.v
PerfFds.v
PerfLink.v
PerfExamples.v
Btf.v
BtfExt.v
BpfOpen.v
OpenFds.v
ObjectPin.v
BtfPass.v
BtfSanitize.v
BtfFinalize.v
BtfMaps.v
CoreSpec.v
CoreFields.v
CoreReloc.v
CoreSound.v
BtfObject.v
CoreObject.v
OpenExamples.v
BtfExamples.v
CoreExamples.v
