(* ===== verification/Prelude.v ===== *)
(** * FIDe: verification library (root file and prelude)

    FIDe detects traffic anomalies in the kernel's XDP hook from the entropy of
    the packet counts of each source address.  The repository holds two variants.

    - [src/fully_in-kernel]: the XDP program ([main/xdp_prog_kern.c]) counts and
      computes the entropies itself, in fixed point ([main/fixed-point.h], whose
      prototype is [main/dynamic-fix.c]), with callbacks run over its flow map;
      the loader helpers ([common/*.c]) stand on libxdp.
    - [src/user+ebpf/main]: the XDP program ([xdp_prog_kern.c]) only counts; the
      loader process ([xdp_loader.c]) attaches it through the helpers of [common/]
      and the vendored libbpf, then wakes up every second, reads the maps and
      computes the entropies in floating point.

    The two sides of a variant share BPF maps and nothing else.

    ** Files

    Language and data:
    - [Prelude] (this file): machine integers, undefined arithmetic as [None], the
      tactics [cinv], [cstep] and [crun] that run such computations.
    - [CFloat]: [float] and [double] of C, on the Standard Library's [SpecFloat].
    - [Packet]: packets as lists of bytes, byte order ([bpf_endian.h]).
    - [BpfMap]: the interface of a BPF hash map ([BpfHash], [BpfHashLaws]), the
      induction over [bpf_for_each_map_elem], totals over a map, and [Capped], an
      implementation on [gmap].  [Flows]: what both programs do to a flow, once.
    - [Lpm]: the interface of a longest-prefix-match trie ([LpmLaws]) and an
      implementation as a list of prefixes.

    In the kernel:
    - [FixedPoint]: [fixed-point.h].  [add_correct] gives the exact result of an
      addition, with the bits it keeps ([kept_bits]); [represents] is what a quotient
      or product is an approximation of ([divide_correct], [multiply_q16_correct]);
      [calc_log_correct], [calc_log_monotone], [operations_ok].
    - [DynamicFix]: [dynamic-fix.c], and how it differs from the header.
    - [Parsing], [Rewrite]: [parsing_helpers.h] and [rewrite_helpers.h]; every
      parser is shown to stay inside the packet, VLAN push and pop to be inverse.
    - [InKernel]: [xdp_filter_func] of the in-kernel variant with its callbacks,
      split at its comments ([count_interval], [count_flow], [claim_interval],
      [close_interval]); invariant, effect of a packet, effect of a closing, and
      the inputs on which the arithmetic is undefined.
    - [Window]: the same handler on several CPUs, as a step relation over the
      shared time stamp and the spin lock: mutual exclusion, no deadlock, and two
      closings never less than an interval apart.
    - [UserKern]: [xdp_filter_func] of the other variant.  [Stats]: the
      statistics record of [xdp_stats_kern.h].

    In user space:
    - [Params]: [common_params.c], both versions (modules [User] and [Kernel]);
      which configuration a command line gives, when the help stays in its buffer.
    - [BpfObject]: the operations of [libbpf.c] the program stands on, over the
      system calls of the class [BpfSys]: iteration, search, pinning with its
      rollback (all or nothing, inverse to unpinning), loading.
    - [XdpLink]: [common_user_bpf_xdp.c] over [LinkSys]; what attaching and
      detaching leave on the interface.  [LibXdp]: the other version, over libxdp.
    - [PinLoad]: [common_libbpf.c].
    - [Entropy]: [calculate_ent], the detector [main] calls; it closes an interval.
      [Trie]: the two older detectors and [check_trie], over tries.
    - [Loader]: loading, pinning, [main] and its loop; [reports_account] composes
      [UserKern] and [Entropy] over any number of seconds.  [Race]: the counters
      when packets come while [calculate_ent] runs; some are lost, none is counted
      twice.  [FlowRace]: the same for the flows, between any two calls on their map,
      turns that find the map empty included.

    Under the loader, in the vendored libbpf:
    - [Hashmap]: [hashmap.c]; a refinement of a map from keys to entries, through
      growing; insertion, look-up and deletion keep it well-formed, clearing does not.
    - [Nlattr]: [nlattr.c], attributes in a buffer of bytes: no access outside, and
      parsing undoes encoding.
    - [Netlink]: [netlink.c] over [NlSys]: the receive loop implements its meaning
      on messages, the request of [bpf_set_link_xdp_fd] decodes to its arguments,
      its answer is the kernel's, no socket stays open.  [NetlinkXdp]: the queries
      of the program of an interface.  These are the calls [XdpLink] takes as the
      class [LinkSys].
    - [XskRing]: the rings of [xsk.h]; under any interleaving with the kernel each is
      a bounded queue, through the wrap-around of its indices.
    - [XskProg]: the program of [xsk_load_xdp_prog] as its 21 instructions, run by an
      interpreter; it does what the C program in its comment says and delivers.
    - [XskSocket]: [xsk.c]: areas of user memory and sockets, over the system calls of
      [XskSys].  [XskFds]: the descriptors, mappings and memory they take and give
      back.  [XskExamples]: a kernel for them, and the calls that leave something.
    - [LineInfo]: [bpf_prog_linfo.c]; a look-up finds the last record not above the
      address when the records of the function rise, which they need not in the last.  [ProgInfo]: [bpf_program__get_prog_info_linear] of [libbpf.c]: all
      arrays of a program in one block, which is large enough, and its two conversions.
    - [Cpus]: [libbpf_num_possible_cpus] of [libbpf.c] and the function of
      [bpf_util.h], with the conversions of [scanf].
    - [PerfRing]: reading the ring of a perf event, a queue of records.  [PerfBuffer]:
      the perf buffers of [libbpf.c], a ring for each CPU.  [PerfLink]: programs attached
      to perf events, probes and tracepoints.  [PerfFds]: what buffers hold and give
      back, as in [XskFds].  [PerfExamples]: a kernel for them.

    How libbpf opens and loads an object:
    - [BpfCalls]: [bpf.c], each wrapper over the [bpf] system call, the class
      [BpfKern]; what [bpf_load_program_xattr] answers is the kernel's answer to the
      program asked for, and its loops end.
    - [SectionNames]: the table of section names of [libbpf.c]; the guess of a
      program's type is the longest prefix.
    - [BpfOpen]: [__bpf_object__open] and what it calls, from an [Elf] to an object;
      [opened_symbol]: a symbol of the maps section finds the map of its name.
      [OpenFds]: the descriptors on every path of it.
    - [ObjectPin]: pinning programs, with their instances, and whole objects; all or
      nothing when no map has a path before, and undone by unpinning.
    - [BpfLoad]: [bpf_object__load_xattr] and what it calls, and the collection of
      relocations; [symbols_resolved]: what a patched instruction holds.  [LoadFds]:
      no descriptor is left on failure (unless a pinned map is reused), all are there on
      success, and the defects found.  [erase] maps its objects to those of [BpfObject].
    - [LoadExamples], [OpenExamples]: a kernel that meets the laws of these files, an
      ELF file opened and loaded on it, the theorems on them.

    BTF, the types of an object (a [struct btf] keeps its bytes; a type is an offset):
    - [Btf]: [btf.c] on a section in memory: parsing undoes encoding and reads nothing
      outside, sizes, aliases, names.  [BtfExt]: line and function information.
    - [BtfPass]: passes that write into the types, and what they leave alone.
      [BtfFinalize]: [btf__finalize_data].  [BtfSanitize]: [bpf_object__sanitize_btf].
    - [BtfMaps]: the maps of section [.maps].
    - [BtfObject]: loading, reading from the kernel or a file; the model of BTF as an
      instance of the classes [BtfReader], [BtfOps] and [OpenLaws], so that the theorems
      on opening and loading hold of it; [btf_for_kernel] composes parsing, finalizing
      and sanitizing.  [BtfExamples]: an object with BTF opened and loaded.

    CO-RE relocations, which adapt a program to the types of the running kernel:
    - [CoreSpec]: an access string read along the types of the program, the candidate
      types of the kernel, and the search for the same path in one of them.  [reaches]
      is the specification: what a list of numbers leads to in a BTF.
    - [CoreFields]: the search is complete: a type it refuses does not have the field
      ([spec_match_decides]).
    - [CoreReloc]: the value a relocation asks for ([field_relo_extracts]: the loads and
      shifts of a field extract it from memory, for both byte orders), the instruction it
      is written to, the cache of candidates ([Hashmap]) and the loop over [.BTF.ext].
    - [CoreSound]: the relocations are those of the records of [.BTF.ext] in order, and
      every instruction relocated has the value of the field of the same path in a
      candidate, or the mark that no candidate has it ([reloc_all_sound]).  [CoreObject]: the search for the BTF of
      the kernel; the model as an instance of the class [CoreOps] that [BpfLoad] and
      [LoadFds] are proved against, with its laws.  [CoreExamples]: a program whose field
      became a bitfield, relocated and loaded.

    ** Conventions

    A C value is a [Z] in the range of its type, a pointer into a packet an
    offset, a pointer to a program or map of a libbpf object its index.  State is
    passed explicitly; a function that may leave defined behaviour (overflow, bad
    shift, access out of a buffer, read of freed memory) answers an [option].
    Code outside the repository (the kernel, libxdp, the ELF reader, [getopt_long],
    [log2]) is a class or a parameter; its documented behaviour is a class of laws,
    with an instance in the [Examples] module of the file, on which the theorems
    are applied to concrete values.  What [malloc] leaves in fresh memory is an
    input where the program reads it.

    ** Fuel

    The attribute parser takes the length of the attributes as fuel and the loop over
    the messages of a datagram its length: a round takes 4 bytes or 16.  The rounds
    of [bpf_netlink_recv] are datagrams; as many as come are enough.  Loading a program
    again while the kernel answers EAGAIN takes a bound on how often it does
    ([load_program_ends] says when it is enough).  The loops of the detectors have the
    bounds of the source ([FLOW_MAX], [TRIE_MAX], [CSV_MAX]).  The iterators of libbpf take the number of elements
    as fuel, which [for_each_map_all] and [for_each_program_all] show to be enough.
    The loop over the types of a BTF takes the length of their section as fuel, following
    typedefs the number of types ([skip_mods_complete]: a walk that ends is no longer).
    The search for a field takes the longest path and one more, since each level
    of nesting adds a number to the path; the comparison of two types the number of types of both; an
    access string its length; the size of a load doubles at most three times up to 8;
    the sections of relocations their length.
    Reading a perf ring takes the bytes of the ring, of which a record has at least one.
    The interpreter of [XskProg] takes the number of instructions, none of which is
    run twice.  The other recursions are structural.

    ** Not modelled

    The rest of the vendored libbpf: deduplication and printing of BTF, accessors of a
    field of an object without any further effect;
    [perf-sys.h] (one system call, which nothing uses), and messages, except the
    help, the reports of the detectors and the trace lines of the XDP programs.
    [Loader] runs the packets of a second and then the detector; [Race] and [FlowRace]
    interleave the two, each for one of the maps. *)

From stdpp Require Export base gmap list strings option.
From Stdlib Require Export ZArith Lia Bool.

Global Open Scope Z_scope.

(** ** Programs that may call [exit] *)

(** How a C function ends: it returns, or the process exits. *)
Inductive outcome (A : Type) := Ret (a : A) | Exit (code : Z).
Arguments Ret {A}.
Arguments Exit {A}.

(** ** Machine integers

    A C integer is a [Z] within the range of its type.  [u8] ... [u64] reduce
    modulo the width (conversion to an unsigned type), [i32] and [i64] are the
    two's complement conversions gcc and clang implement. *)

Definition u8 (z : Z) : Z := z mod 2 ^ 8.
Definition u16 (z : Z) : Z := z mod 2 ^ 16.
Definition u32 (z : Z) : Z := z mod 2 ^ 32.
Definition u64 (z : Z) : Z := z mod 2 ^ 64.
Definition i32 (z : Z) : Z := (z + 2 ^ 31) mod 2 ^ 32 - 2 ^ 31.
Definition i64 (z : Z) : Z := (z + 2 ^ 63) mod 2 ^ 64 - 2 ^ 63.

Definition in_i32 (z : Z) : bool := (- 2 ^ 31 <=? z) && (z <? 2 ^ 31).
Definition in_i64 (z : Z) : bool := (- 2 ^ 63 <=? z) && (z <? 2 ^ 63).

(** Arithmetic the C standard leaves undefined is [None]: signed overflow, a
    shift by a negative count or by at least the width, a division by zero. *)

Definition chk32 (z : Z) : option Z := if in_i32 z then Some z else None.
Definition chk64 (z : Z) : option Z := if in_i64 z then Some z else None.

Definition add32 (a b : Z) : option Z := chk32 (a + b).
Definition sub32 (a b : Z) : option Z := chk32 (a - b).
Definition mul32 (a b : Z) : option Z := chk32 (a * b).
Definition add64 (a b : Z) : option Z := chk64 (a + b).

Definition shift_ok (w n : Z) : bool := (0 <=? n) && (n <? w).

(** [int << n] and [int >> n]: gcc and clang define the left shift of a
    negative number as the two's complement one and the right shift as
    arithmetic, so only the count can make them undefined. *)
Definition shl32 (a n : Z) : option Z :=
  if shift_ok 32 n then Some (i32 (Z.shiftl a n)) else None.
Definition shr32 (a n : Z) : option Z :=
  if shift_ok 32 n then Some (Z.shiftr a n) else None.
Definition shlu64 (a n : Z) : option Z :=
  if shift_ok 64 n then Some (u64 (Z.shiftl a n)) else None.
Definition shr64 (a n : Z) : option Z :=
  if shift_ok 64 n then Some (Z.shiftr a n) else None.
Definition divu64 (a b : Z) : option Z :=
  if b =? 0 then None else Some (a / b).

#[global] Arguments u8 : simpl never.
#[global] Arguments u16 : simpl never.
#[global] Arguments u32 : simpl never.
#[global] Arguments u64 : simpl never.
#[global] Arguments i32 : simpl never.
#[global] Arguments i64 : simpl never.
#[global] Arguments chk32 : simpl never.
#[global] Arguments chk64 : simpl never.
#[global] Arguments shl32 : simpl never.
#[global] Arguments shr32 : simpl never.
#[global] Arguments shr64 : simpl never.
#[global] Arguments shlu64 : simpl never.
#[global] Arguments divu64 : simpl never.

(** *** Range and identity lemmas *)

Lemma i32_range z : - 2 ^ 31 <= i32 z < 2 ^ 31.
Proof. unfold i32. pose proof (Z.mod_pos_bound (z + 2 ^ 31) (2 ^ 32)). lia. Qed.

Lemma i64_range z : - 2 ^ 63 <= i64 z < 2 ^ 63.
Proof. unfold i64. pose proof (Z.mod_pos_bound (z + 2 ^ 63) (2 ^ 64)). lia. Qed.

Lemma u64_range z : 0 <= u64 z < 2 ^ 64.
Proof. apply Z.mod_pos_bound. lia. Qed.

Lemma i32_id z : - 2 ^ 31 <= z < 2 ^ 31 -> i32 z = z.
Proof. intros. unfold i32. rewrite Z.mod_small; lia. Qed.

Lemma i64_id z : - 2 ^ 63 <= z < 2 ^ 63 -> i64 z = z.
Proof. intros. unfold i64. rewrite Z.mod_small; lia. Qed.

Lemma u64_id z : 0 <= z < 2 ^ 64 -> u64 z = z.
Proof. intros. unfold u64. rewrite Z.mod_small; lia. Qed.

Lemma u32_id z : 0 <= z < 2 ^ 32 -> u32 z = z.
Proof. intros. unfold u32. rewrite Z.mod_small; lia. Qed.

Lemma u16_id z : 0 <= z < 2 ^ 16 -> u16 z = z.
Proof. intros. unfold u16. rewrite Z.mod_small; lia. Qed.

Lemma u8_id z : 0 <= z < 2 ^ 8 -> u8 z = z.
Proof. intros. unfold u8. rewrite Z.mod_small; lia. Qed.

(** The conversion [int64_t] of a [u_int64_t] that came from an [int]
    restores the [int]. *)
Lemma i64_u64 z : - 2 ^ 63 <= z < 2 ^ 63 -> i64 (u64 z) = z.
Proof.
  intros. unfold i64, u64.
  rewrite Zplus_mod_idemp_l, Z.mod_small; lia.
Qed.

(** Converting to [u_int64_t] and on to [int32_t] is converting to [int32_t]. *)
Lemma i32_u64 z : i32 (u64 z) = i32 z.
Proof.
  unfold i32, u64. f_equal.
  rewrite <- (Zplus_mod_idemp_l (z mod 2 ^ 64)), Z.mod_mod_divide by (by exists (2 ^ 32)).
  apply Zplus_mod_idemp_l.
Qed.

Lemma u64_add_l a b : u64 (u64 a + b) = u64 (a + b).
Proof. apply Zplus_mod_idemp_l. Qed.

(** The top byte of an [int], read through [(unsigned char)(x >> 24)]. *)
Lemma u8_top_byte z : u8 (Z.shiftr (i32 z) 24) = (z / 2 ^ 24) mod 2 ^ 8.
Proof.
  unfold u8, i32. rewrite Z.shiftr_div_pow2 by lia.
  pose proof (Z.div_mod (z + 2 ^ 31) (2 ^ 32) ltac:(lia)) as E.
  replace ((z + 2 ^ 31) mod 2 ^ 32 - 2 ^ 31)
    with (z + (- ((z + 2 ^ 31) / 2 ^ 32) * 2 ^ 8) * 2 ^ 24) by lia.
  rewrite Z.div_add by lia. apply Z_mod_plus_full.
Qed.

(** *** Inversion of the checked operations *)

Lemma in_i32_spec z : in_i32 z = true <-> - 2 ^ 31 <= z < 2 ^ 31.
Proof. unfold in_i32. rewrite andb_true_iff, Z.leb_le, Z.ltb_lt. done. Qed.

Lemma chk32_Some z r : chk32 z = Some r <-> r = z /\ - 2 ^ 31 <= z < 2 ^ 31.
Proof.
  unfold chk32. destruct (in_i32 z) eqn:E.
  - apply in_i32_spec in E. intuition congruence.
  - split; [done|]. intros [-> H]. apply in_i32_spec in H. congruence.
Qed.

Lemma chk64_Some z r : chk64 z = Some r <-> r = z /\ - 2 ^ 63 <= z < 2 ^ 63.
Proof.
  unfold chk64, in_i64.
  destruct (andb _ _) eqn:E; rewrite ?andb_true_iff, ?andb_false_iff in E; split;
    intros; simplify_eq; destruct_and?; try lia; try done.
  f_equal; lia.
Qed.

Lemma chk32_id z : - 2 ^ 31 <= z < 2 ^ 31 -> chk32 z = Some z.
Proof. intros. by apply chk32_Some. Qed.

Lemma chk64_id z : - 2 ^ 63 <= z < 2 ^ 63 -> chk64 z = Some z.
Proof. intros. by apply chk64_Some. Qed.

Lemma chk32_None z : ~ (- 2 ^ 31 <= z < 2 ^ 31) -> chk32 z = None.
Proof.
  intros H. destruct (chk32 z) eqn:E; [|done].
  apply chk32_Some in E as [-> E]. done.
Qed.

Lemma shift_ok_spec w n : shift_ok w n = true <-> 0 <= n < w.
Proof. unfold shift_ok. rewrite andb_true_iff, Z.leb_le, Z.ltb_lt. done. Qed.

Lemma shift_ok_false w n : shift_ok w n = false <-> ~ (0 <= n < w).
Proof. rewrite <- not_true_iff_false, shift_ok_spec. done. Qed.

Lemma shl32_Some a n r :
  shl32 a n = Some r <-> r = i32 (Z.shiftl a n) /\ 0 <= n < 32.
Proof.
  unfold shl32. destruct (shift_ok 32 n) eqn:E;
    [apply shift_ok_spec in E | apply shift_ok_false in E]; intuition congruence.
Qed.

Lemma shr32_Some a n r :
  shr32 a n = Some r <-> r = Z.shiftr a n /\ 0 <= n < 32.
Proof.
  unfold shr32. destruct (shift_ok 32 n) eqn:E;
    [apply shift_ok_spec in E | apply shift_ok_false in E]; intuition congruence.
Qed.

Lemma shr64_Some a n r :
  shr64 a n = Some r <-> r = Z.shiftr a n /\ 0 <= n < 64.
Proof.
  unfold shr64. destruct (shift_ok 64 n) eqn:E;
    [apply shift_ok_spec in E | apply shift_ok_false in E]; intuition congruence.
Qed.

Lemma shlu64_Some a n r :
  shlu64 a n = Some r <-> r = u64 (Z.shiftl a n) /\ 0 <= n < 64.
Proof.
  unfold shlu64. destruct (shift_ok 64 n) eqn:E;
    [apply shift_ok_spec in E | apply shift_ok_false in E]; intuition congruence.
Qed.

Lemma divu64_Some a b r : divu64 a b = Some r <-> r = a / b /\ b <> 0.
Proof. unfold divu64. destruct (Z.eqb_spec b 0); intuition congruence. Qed.

(** The checked operations where they are defined. *)
Lemma add32_eq a b : - 2 ^ 31 <= a + b < 2 ^ 31 -> add32 a b = Some (a + b).
Proof. apply chk32_id. Qed.
Lemma sub32_eq a b : - 2 ^ 31 <= a - b < 2 ^ 31 -> sub32 a b = Some (a - b).
Proof. apply chk32_id. Qed.
Lemma mul32_eq a b : - 2 ^ 31 <= a * b < 2 ^ 31 -> mul32 a b = Some (a * b).
Proof. apply chk32_id. Qed.
Lemma add64_eq a b : - 2 ^ 63 <= a + b < 2 ^ 63 -> add64 a b = Some (a + b).
Proof. apply chk64_id. Qed.
Lemma shl32_eq a n : 0 <= n < 32 -> shl32 a n = Some (i32 (Z.shiftl a n)).
Proof. by intros; apply shl32_Some. Qed.
Lemma shr32_eq a n : 0 <= n < 32 -> shr32 a n = Some (Z.shiftr a n).
Proof. by intros; apply shr32_Some. Qed.
Lemma shr64_eq a n : 0 <= n < 64 -> shr64 a n = Some (Z.shiftr a n).
Proof. by intros; apply shr64_Some. Qed.
Lemma shlu64_eq a n : 0 <= n < 64 -> shlu64 a n = Some (u64 (Z.shiftl a n)).
Proof. by intros; apply shlu64_Some. Qed.
Lemma divu64_eq a b : b <> 0 -> divu64 a b = Some (a / b).
Proof. by intros; apply divu64_Some. Qed.

(** Turn the checked operations of the context into their inversions. *)
Ltac cinv :=
  repeat match goal with
  | H : _ ≫= _ = Some _ |- _ => apply bind_Some in H as (? & ? & ?)
  | H : Some _ = Some _ |- _ => injection H as H; subst
  | H : add32 _ _ = Some _ |- _ => unfold add32 in H
  | H : sub32 _ _ = Some _ |- _ => unfold sub32 in H
  | H : mul32 _ _ = Some _ |- _ => unfold mul32 in H
  | H : add64 _ _ = Some _ |- _ => unfold add64 in H
  | H : chk32 _ = Some _ |- _ => apply chk32_Some in H as [-> ?]
  | H : chk64 _ = Some _ |- _ => apply chk64_Some in H as [-> ?]
  | H : shl32 _ _ = Some _ |- _ => apply shl32_Some in H as [-> ?]
  | H : shr32 _ _ = Some _ |- _ => apply shr32_Some in H as [-> ?]
  | H : shr64 _ _ = Some _ |- _ => apply shr64_Some in H as [-> ?]
  | H : shlu64 _ _ = Some _ |- _ => apply shlu64_Some in H as [-> ?]
  | H : divu64 _ _ = Some _ |- _ => apply divu64_Some in H as [-> ?]
  | H : (_, _) = (_, _) |- _ => injection H as ? ?; subst
  end.

Create HintDb cint.
Create Rewrite HintDb cint.
#[export] Hint Resolve i32_range i64_range u64_range : cint.
#[export] Hint Rewrite i32_id i64_id u64_id u32_id u16_id u8_id chk32_id chk64_id
  add32_eq sub32_eq mul32_eq add64_eq shl32_eq shr32_eq shr64_eq shlu64_eq divu64_eq
  using (first [lia | done]) : cint.

(** Run a bind chain: rewrite the checked operations whose side conditions
    [lia] proves and reduce the binds. *)
Ltac cstep :=
  first [ rewrite add32_eq by lia | rewrite sub32_eq by lia | rewrite mul32_eq by lia
        | rewrite shl32_eq by lia | rewrite shr32_eq by lia | rewrite shr64_eq by lia
        | rewrite shlu64_eq by lia | rewrite divu64_eq by lia | rewrite add64_eq by lia ].
Ltac crun := repeat (cstep; cbn [mbind option_bind]).
