(* ===== verification/FixedPoint.v ===== *)
(** * Dynamic fixed-point arithmetic

    Models [fully_in-kernel/main/fixed-point.h] (the file [fixed-point.h] at
    the root of the repository is the same text).  A value of
    [struct fixed_point] stands for [number / 2 ^ q].  The functions take
    pointers to their operands and [check_bit] writes through them, so every
    operation returns the two operands as it leaves them next to its result.
    Undefined C arithmetic is [None]. *)

From S2P Require Import Prelude.

(** ** Data *)

Record fixed_point := FixedPt { number : Z; q : Z }.

(** Both fields are [int32_t]. *)
Definition fp_ok (f : fixed_point) : Prop :=
  - 2 ^ 31 <= number f < 2 ^ 31 /\ - 2 ^ 31 <= q f < 2 ^ 31.

#[export] Instance fixed_point_eq_dec : EqDecision fixed_point.
Proof. solve_decision. Defined.

(** ** Operations *)

Definition low32 (f : fixed_point) : Z := Z.land (number f) 0xFFFF.

Definition high32 (f : fixed_point) : Z := Z.shiftr (number f) 16.

(** [to_fixed_point(fixed_point, q)]: the source names its first parameter
    [fixed_point], the number of fractional bits, and its second one [q]. *)
Definition to_fixed_point (fixed_point_p q_p : Z) : option fixed_point :=
  one ← shl32 1 fixed_point_p;
  n ← mul32 q_p one;
  Some (FixedPt n fixed_point_p).

(** One halving step of the leading-zero count: [y = x >> w; if (y != 0)
    { n = n - w; x = y; }] with [y] an [unsigned]. *)
Definition norm_step (w : Z) (nx : Z * Z) : Z * Z :=
  let '(n, x) := nx in
  let y := u32 (Z.shiftr x w) in
  if negb (y =? 0) then (n - w, y) else (n, x).

(** The common end of the two counts. *)
Definition norm_last (nx : Z * Z) : Z :=
  let '(n, x) := nx in
  let y := u32 (Z.shiftr x 1) in
  if negb (y =? 0) then n - 2 else n - x.

Definition count_zero_64 (x : Z) : Z :=
  if negb (Z.shiftr x 31 =? 0) then -1 else
  norm_last
    (norm_step 2 (norm_step 4 (norm_step 8 (norm_step 16 (norm_step 32 (64, x)))))).

Definition count_zero_32 (x : Z) : Z :=
  if negb (Z.shiftr x 31 =? 0) then -1 else
  norm_last (norm_step 2 (norm_step 4 (norm_step 8 (norm_step 16 (32, x))))).

(** [check_bit] assigns [q] first and reads it back in the shift count. *)
Definition check_bit (first second : fixed_point)
    : option (fixed_point * fixed_point) :=
  if q second <? q first then
    let second := FixedPt (number second) (q first) in
    sh ← sub32 (q first) (q second);
    n ← shl32 (number second) sh;
    Some (first, FixedPt n (q second))
  else if q first <? q second then
    let first := FixedPt (number first) (q second) in
    sh ← sub32 (q second) (q first);
    n ← shl32 (number first) sh;
    Some (FixedPt n (q first), second)
  else Some (first, second).

(** The block that ends [add], [subtract] and [divide]: keep [sum] at scale
    [fq] when its bit length allows, otherwise drop its low bits. *)
Definition fit_bits (sum fq : Z) : option fixed_point :=
  let allowed := 64 - count_zero_64 (i64 sum) in
  if allowed <? fq then
    sh ← sub32 fq allowed;
    n ← shr64 sum sh;
    Some (FixedPt (i32 n) allowed)
  else Some (FixedPt (i32 sum) fq).

Definition add (first second : fixed_point)
    : option (fixed_point * fixed_point * fixed_point) :=
  '(first, second) ← check_bit first second;
  s ← add32 (number first) (number second);
  r ← fit_bits (u64 s) (q first);
  Some (first, second, r).

Definition subtract (first second : fixed_point)
    : option (fixed_point * fixed_point * fixed_point) :=
  '(first, second) ← check_bit first second;
  s ← sub32 (number first) (number second);
  r ← fit_bits (u64 s) (q first);
  Some (first, second, r).

(** The four halves are read before [check_bit] runs; [temp] is the [int]
    product converted to [u_int64_t]. *)
Definition multiply (first second : fixed_point)
    : option (fixed_point * fixed_point * fixed_point) :=
  let high_f := high32 first in
  let low_f := low32 first in
  let high_s := high32 second in
  let low_s := low32 second in
  '(first, second) ← check_bit first second;
  hh ← mul32 high_f high_s;
  let temp := u64 hh in
  c ← sub32 32 (q first); c ← sub32 c 1;
  limit ← shlu64 1 c;
  let fixed_point_bits :=
    if limit <? temp then 31 - (64 - count_zero_64 (i64 temp)) else q first in
  let is_high := 16 <=? fixed_point_bits in
  qq ← (if is_high then sub32 fixed_point_bits 16 else sub32 16 fixed_point_bits);
  let sh a := if is_high then shr32 a qq else shl32 a qq in
  t1 ← shl32 (i32 temp) fixed_point_bits;
  lh ← mul32 low_f high_s; t2 ← sh lh;
  hl ← mul32 high_f low_s; t3 ← sh hl;
  ll ← mul32 low_f low_s;
  c ← sub32 32 fixed_point_bits; t4 ← shr32 ll c;
  p ← add32 t1 t2; p ← add32 p t3; p ← add32 p t4;
  Some (first, second, FixedPt p fixed_point_bits).

(** [((u_int64_t)first->number << 32) / second->number]: the division is
    unsigned, [second->number] is converted to [u_int64_t]. *)
Definition divide (first second : fixed_point)
    : option (fixed_point * fixed_point * fixed_point) :=
  '(first, second) ← check_bit first second;
  n ← shlu64 (u64 (number first)) 32;
  d ← divu64 n (u64 (number second));
  c ← sub32 32 (q first);
  sum ← shr64 d c;
  r ← fit_bits sum (q first);
  Some (first, second, r).

(** The table of [calc_log]: [2 ^ 24 * log2 (1 + i / 256)]. *)
Definition log_table : list Z :=
  [0; 94364; 188362; 281996; 375269; 468184; 560744; 652952; 744809; 836319;
   927485; 1018308; 1108792; 1198939; 1288751; 1378232; 1467382; 1556206;
   1644705; 1732881; 1820738; 1908276; 1995500; 2082410; 2169009; 2255299;
   2341283; 2426962; 2512339; 2597416; 2682195; 2766679; 2850868; 2934765;
   3018373; 3101693; 3184727; 3267477; 3349946; 3432134; 3514044; 3595678;
   3677037; 3758124; 3838940; 3919487; 3999767; 4079782; 4159533; 4239022;
   4318251; 4397221; 4475935; 4554393; 4632598; 4710551; 4788254; 4865708;
   4942915; 5019877; 5096595; 5173070; 5249304; 5325299; 5401057; 5476578;
   5551863; 5626916; 5701736; 5776326; 5850687; 5924820; 5998727; 6072408;
   6145866; 6219102; 6292117; 6364912; 6437489; 6509849; 6581994; 6653924;
   6725640; 6797145; 6868440; 6939525; 7010401; 7081071; 7151535; 7221795;
   7291851; 7361705; 7431358; 7500811; 7570066; 7639123; 7707983; 7776648;
   7845119; 7913396; 7981482; 8049377; 8117081; 8184597; 8251925; 8319066;
   8386022; 8452793; 8519380; 8585784; 8652007; 8718049; 8783912; 8849595;
   8915101; 8980430; 9045583; 9110562; 9175366; 9239997; 9304456; 9368744;
   9432862; 9496810; 9560590; 9624202; 9687648; 9750927; 9814042; 9876992;
   9939779; 10002404; 10064867; 10127169; 10189311; 10251295; 10313119;
   10374787; 10436297; 10497652; 10558851; 10619897; 10680788; 10741527;
   10802114; 10862549; 10922834; 10982970; 11042956; 11102794; 11162484;
   11222027; 11281425; 11340677; 11399784; 11458747; 11517567; 11576245;
   11634780; 11693174; 11751428; 11809542; 11867516; 11925353; 11983051;
   12040612; 12098036; 12155325; 12212478; 12269497; 12326381; 12383133;
   12439751; 12496238; 12552593; 12608817; 12664910; 12720874; 12776709;
   12832415; 12887994; 12943445; 12998769; 13053968; 13109040; 13163988;
   13218811; 13273510; 13328086; 13382539; 13436870; 13491079; 13545167;
   13599135; 13652982; 13706710; 13760319; 13813810; 13867182; 13920437;
   13973575; 14026597; 14079503; 14132293; 14184969; 14237530; 14289977;
   14342311; 14394532; 14446641; 14498637; 14550522; 14602296; 14653960;
   14705514; 14756958; 14808293; 14859519; 14910637; 14961647; 15012550;
   15063347; 15114037; 15164620; 15215099; 15265472; 15315741; 15365906;
   15415967; 15465924; 15515779; 15565531; 15615181; 15664729; 15714177;
   15763523; 15812769; 15861915; 15910961; 15959909; 16008757; 16057507;
   16106159; 16154714; 16203171; 16251532; 16299796; 16347964; 16396036;
   16444013; 16491895; 16539683; 16587376; 16634976; 16682482; 16729895].

Definition array (i : Z) : Z := nth (Z.to_nat i) log_table 0.

(** The addition is done on [unsigned long] and converted back to [int32_t]. *)
Definition calc_log (f : fixed_point) : option fixed_point :=
  let leading_zero := count_zero_32 (number f) in
  if (0 <=? leading_zero) && (leading_zero <? 32) then
    e ← sub32 31 (q f); e ← sub32 e leading_zero;
    hi ← shl32 e 24;
    c ← add32 leading_zero 1;
    m ← shl32 (number f) c;
    m ← shr32 m 24;
    c ← sub32 24 (q f);
    lo ← shr64 (array (u8 m)) c;
    Some (FixedPt (i32 (u64 (u64 hi + lo))) 8)
  else Some (FixedPt 0 8).

Definition abs_val (f : fixed_point) : option fixed_point :=
  mask ← shr32 (number f) 31;
  s ← add32 (number f) mask;
  Some (FixedPt (Z.lxor s mask) (q f)).

#[global] Arguments norm_step : simpl never.
#[global] Arguments count_zero_64 : simpl never.
#[global] Arguments count_zero_32 : simpl never.
#[global] Arguments fit_bits : simpl never.
#[global] Arguments check_bit : simpl never.
#[global] Arguments array : simpl never.

(** ** The leading-zero counts *)

(** Bit length: the abstract meaning of [64 - count_zero_64]. *)
Definition bitlen (x : Z) : Z := if x =? 0 then 0 else Z.log2 x + 1.

Lemma bitlen_nonneg x : 0 <= bitlen x.
Proof. unfold bitlen. pose proof (Z.log2_nonneg x). case_match; lia. Qed.

Lemma bitlen_shiftr x w :
  0 <= w -> 0 <= x -> Z.shiftr x w <> 0 -> bitlen (Z.shiftr x w) = bitlen x - w.
Proof.
  intros Hw Hx Hn. unfold bitlen.
  assert (x <> 0) by (intros ->; by rewrite Z.shiftr_0_l in Hn).
  destruct (Z.eqb_spec (Z.shiftr x w) 0); [done|]. destruct (Z.eqb_spec x 0); [done|].
  assert (w <= Z.log2 x).
  { destruct (Z.le_gt_cases w (Z.log2 x)); [done|].
    destruct Hn. apply Z.shiftr_eq_0; lia. }
  rewrite Z.log2_shiftr by lia. lia.
Qed.

Lemma bitlen_bound x : 0 <= x -> x < 2 ^ bitlen x.
Proof.
  intros. unfold bitlen. destruct (Z.eqb_spec x 0) as [->|]; [done|].
  apply Z.log2_spec. lia.
Qed.

Lemma bitlen_le x n : 0 <= n -> 0 <= x < 2 ^ n -> bitlen x <= n.
Proof.
  intros. unfold bitlen. destruct (Z.eqb_spec x 0); [lia|].
  assert (Z.log2 x < n); [apply Z.log2_lt_pow2; lia|lia].
Qed.

(** The invariant of the counting loop: [n - bitlen x] does not change and [x]
    drops below [2 ^ w]. *)
Lemma norm_step_inv w n x :
  0 <= w -> 0 <= x < 2 ^ (2 * w) -> x < 2 ^ 32 ->
  let '(n', x') := norm_step w (n, x) in
  0 <= x' < 2 ^ w /\ x' < 2 ^ 32 /\ n' - bitlen x' = n - bitlen x.
Proof.
  intros Hw Hx Hx32. unfold norm_step.
  assert (Hs : 0 <= Z.shiftr x w < 2 ^ w /\ Z.shiftr x w <= x).
  { rewrite Z.shiftr_div_pow2 by lia.
    assert (0 < 2 ^ w) by (apply Z.pow_pos_nonneg; lia).
    replace (2 * w) with (w + w) in Hx by lia. rewrite Z.pow_add_r in Hx by lia.
    repeat split.
    - apply Z.div_pos; lia.
    - apply Z.div_lt_upper_bound; lia.
    - apply Z.div_le_upper_bound; nia. }
  rewrite u32_id by lia.
  destruct (Z.eqb_spec (Z.shiftr x w) 0) as [E|E]; simpl.
  - apply Z.shiftr_eq_0_iff in E.
    destruct E as [->|[? ?]]; [|apply Z.log2_lt_pow2 in H0]; repeat split; try lia.
  - rewrite bitlen_shiftr by lia. lia.
Qed.

Lemma norm_last_inv n x : 0 <= x < 4 -> norm_last (n, x) = n - bitlen x.
Proof.
  intros. assert (x = 0 \/ x = 1 \/ x = 2 \/ x = 3) as [-> | [-> | [-> | ->]]] by lia; done.
Qed.

Lemma shiftr_31_zero x : Z.shiftr x 31 = 0 <-> 0 <= x < 2 ^ 31.
Proof. rewrite Z.shiftr_div_pow2 by lia. split; intros; Z.to_euclidean_division_equations; lia. Qed.

Ltac count_step w :=
  match goal with
  | |- context [norm_step w (?n, ?x)] =>
      let H := fresh in
      assert (H := norm_step_inv w n x ltac:(lia) ltac:(lia) ltac:(lia));
      destruct (norm_step w (n, x)) as [? ?]; destruct H as (? & ? & ?)
  end.

Lemma count_zero_64_spec x :
  count_zero_64 x = if (0 <=? x) && (x <? 2 ^ 31) then 64 - bitlen x else -1.
Proof.
  unfold count_zero_64.
  destruct (Z.eqb_spec (Z.shiftr x 31) 0) as [E|E]; rewrite shiftr_31_zero in E; cbn [negb].
  - replace ((0 <=? x) && (x <? 2 ^ 31)) with true by lia.
    count_step 32. count_step 16. count_step 8. count_step 4. count_step 2.
    rewrite norm_last_inv; lia.
  - replace ((0 <=? x) && (x <? 2 ^ 31)) with false by lia. done.
Qed.

Lemma count_zero_32_spec x :
  count_zero_32 x = if (0 <=? x) && (x <? 2 ^ 31) then 32 - bitlen x else -1.
Proof.
  unfold count_zero_32.
  destruct (Z.eqb_spec (Z.shiftr x 31) 0) as [E|E]; rewrite shiftr_31_zero in E; cbn [negb].
  - replace ((0 <=? x) && (x <? 2 ^ 31)) with true by lia.
    count_step 16. count_step 8. count_step 4. count_step 2.
    rewrite norm_last_inv; lia.
  - replace ((0 <=? x) && (x <? 2 ^ 31)) with false by lia. done.
Qed.

(** ** Scaling *)

(** Reduce binds and projections, and nothing else. *)
Ltac fsimpl := cbn [mbind option_bind fst snd number q andb negb] in *.


(** The abstract contract of the arithmetic: [r] is [s / 2 ^ fq] with its low
    bits dropped, at a scale of at most [fq] bits. *)
Definition represents (r : fixed_point) (s fq : Z) : Prop :=
  q r <= fq /\
  number r * 2 ^ (fq - q r) <= s < (number r + 1) * 2 ^ (fq - q r).

Lemma represents_exact n fq : represents (FixedPt n fq) n fq.
Proof. unfold represents; fsimpl. rewrite Z.sub_diag. lia. Qed.

Lemma represents_shiftr n fq k :
  0 <= k -> represents (FixedPt (Z.shiftr n k) (fq - k)) n fq.
Proof.
  intros Hk. unfold represents; fsimpl. replace (fq - (fq - k)) with k by lia.
  rewrite Z.shiftr_div_pow2 by done.
  assert (0 < 2 ^ k) by (apply Z.pow_pos_nonneg; lia).
  pose proof (Z.div_mod n (2 ^ k) ltac:(lia)).
  pose proof (Z.mod_pos_bound n (2 ^ k)). nia.
Qed.

(** What [fit_bits] does with an [int]: negative sums keep their scale,
    non-negative ones lose the fractional bits beyond their bit length. *)
Lemma fit_bits_int s fq :
  - 2 ^ 31 <= s < 2 ^ 31 -> - 2 ^ 31 <= fq <= 63 ->
  fit_bits (u64 s) fq =
    Some (if (0 <=? s) && (bitlen s <? fq)
          then FixedPt (Z.shiftr s (fq - bitlen s)) (bitlen s)
          else FixedPt s fq).
Proof.
  intros Hs Hq. unfold fit_bits. rewrite i64_u64 by lia. rewrite count_zero_64_spec.
  destruct (Z.leb_spec 0 s); fsimpl.
  - replace (s <? 2 ^ 31) with true by lia. rewrite u64_id by lia.
    replace (64 - (64 - bitlen s)) with (bitlen s) by lia.
    pose proof (bitlen_nonneg s).
    destruct (Z.ltb_spec (bitlen s) fq); [|by rewrite i32_id by lia].
    crun. do 2 f_equal. apply i32_id. rewrite Z.shiftr_div_pow2 by lia.
    assert (0 < 2 ^ (fq - bitlen s)) by (apply Z.pow_pos_nonneg; lia).
    split; [assert (0 <= s / 2 ^ (fq - bitlen s)) by (apply Z.div_pos; lia); lia|].
    apply Z.div_lt_upper_bound; nia.
  - replace (64 - -1 <? fq) with false by lia.
    by rewrite i32_u64, i32_id by lia.
Qed.

Lemma fit_bits_represents s fq :
  - 2 ^ 31 <= s < 2 ^ 31 -> - 2 ^ 31 <= fq <= 63 ->
  exists r, fit_bits (u64 s) fq = Some r /\ represents r s fq /\ fp_ok r.
Proof.
  intros Hs Hq. rewrite fit_bits_int by done. eexists; split; [done|].
  destruct (Z.leb_spec 0 s), (Z.ltb_spec (bitlen s) fq); fsimpl;
    try (split; [apply represents_exact | unfold fp_ok; fsimpl; lia]).
  pose proof (bitlen_nonneg s).
  split.
  - pose proof (represents_shiftr s fq (fq - bitlen s) ltac:(lia)) as R.
    by replace (fq - (fq - bitlen s)) with (bitlen s) in R by lia.
  - unfold fp_ok; fsimpl. rewrite Z.shiftr_div_pow2 by lia.
    assert (0 < 2 ^ (fq - bitlen s)) by (apply Z.pow_pos_nonneg; lia).
    assert (0 <= s / 2 ^ (fq - bitlen s)) by (apply Z.div_pos; lia).
    assert (s / 2 ^ (fq - bitlen s) < 2 ^ 31) by (apply Z.div_lt_upper_bound; nia).
    lia.
Qed.

(** [check_bit] raises both scales to the larger one and leaves both numbers
    alone: the shift counts it computes are always zero. *)
Lemma check_bit_spec a b :
  fp_ok a -> fp_ok b ->
  check_bit a b =
    Some (FixedPt (number a) (Z.max (q a) (q b)),
          FixedPt (number b) (Z.max (q a) (q b))).
Proof.
  destruct a as [na qa], b as [nb qb]; intros [Ha Hqa] [Hb Hqb]; fsimpl.
  unfold check_bit; fsimpl.
  destruct (Z.ltb_spec qb qa); [|destruct (Z.ltb_spec qa qb)].
  - rewrite sub32_eq by lia; fsimpl. rewrite Z.sub_diag, shl32_eq by lia; fsimpl.
    by rewrite Z.shiftl_0_r, i32_id, Z.max_l by lia.
  - rewrite sub32_eq by lia; fsimpl. rewrite Z.sub_diag, shl32_eq by lia; fsimpl.
    by rewrite Z.shiftl_0_r, i32_id, Z.max_r by lia.
  - assert (qa = qb) as -> by lia. by rewrite Z.max_id.
Qed.

Lemma represents_number_0 r s fq :
  0 <= s < 2 ^ (fq - q r) -> represents r s fq -> number r = 0.
Proof. intros Hs (? & ? & ?). nia. Qed.

(** [divide] on the [u_int64_t] values it computes with. *)
Lemma nested_div a b k :
  0 <= a -> 0 < b -> 0 <= k <= 32 ->
  Z.shiftr (Z.shiftl a 32 / b) (32 - k) = (a * 2 ^ k) / b.
Proof.
  intros. rewrite Z.shiftr_div_pow2, Z.shiftl_mul_pow2 by lia.
  assert (0 < 2 ^ (32 - k)) by (apply Z.pow_pos_nonneg; lia).
  rewrite Z.div_div by lia.
  replace (2 ^ 32) with (2 ^ k * 2 ^ (32 - k)) by (rewrite <- Z.pow_add_r by lia; f_equal; lia).
  rewrite Z.mul_assoc, Z.div_mul_cancel_r by lia. done.
Qed.

(** ** Theorems *)

(** The fractional bits a sum keeps: as many as the number has bits, when these are fewer
    than the scale. *)
Definition kept_bits (s fq : Z) : Z := if 0 <=? s then Z.min (bitlen s) fq else fq.

Lemma fit_bits_kept s fq :
  - 2 ^ 31 <= s < 2 ^ 31 -> - 2 ^ 31 <= fq <= 63 ->
  fit_bits (u64 s) fq = Some (FixedPt (s / 2 ^ (fq - kept_bits s fq)) (kept_bits s fq)).
Proof.
  intros Hs Hq. rewrite fit_bits_int by done. unfold kept_bits. pose proof (bitlen_nonneg s).
  destruct (Z.leb_spec 0 s), (Z.ltb_spec (bitlen s) fq); cbn [andb]; f_equal.
  - rewrite Z.min_l by lia. by rewrite Z.shiftr_div_pow2 by lia.
  - rewrite Z.min_r by lia. by rewrite Z.sub_diag, Z.div_1_r.
  - by rewrite Z.sub_diag, Z.div_1_r.
  - by rewrite Z.sub_diag, Z.div_1_r.
Qed.

(** C34. The sum of two values of one scale [q] is their exact sum rounded down to the
    bits it keeps: all [q] fractional bits when the sum of the numbers is negative or has
    at least [q] bits, otherwise as many as it has bits. *)
Theorem add_correct a b :
  fp_ok a -> fp_ok b -> q a = q b -> q a <= 63 ->
  - 2 ^ 31 <= number a + number b < 2 ^ 31 ->
  exists r, add a b = Some (a, b, r) /\ fp_ok r /\
    q r = kept_bits (number a + number b) (q a) /\
    number r = (number a + number b) / 2 ^ (q a - q r).
Proof.
  intros Ha Hb Hq Hq63 Hsum. unfold add. rewrite check_bit_spec by done. fsimpl.
  destruct a as [na qa], b as [nb qb], Ha, Hb; fsimpl; subst. rewrite Z.max_id.
  unfold add32. rewrite chk32_id by done. fsimpl.
  destruct (fit_bits_represents (na + nb) qb ltac:(lia) ltac:(lia)) as (r & Hr & _ & Hok).
  rewrite Hr. rewrite fit_bits_kept in Hr by lia. injection Hr as <-. fsimpl. eauto.
Qed.

Theorem subtract_correct a b :
  fp_ok a -> fp_ok b -> q a = q b -> q a <= 63 ->
  - 2 ^ 31 <= number a - number b < 2 ^ 31 ->
  exists r, subtract a b = Some (a, b, r) /\
            represents r (number a - number b) (q a) /\ fp_ok r.
Proof.
  intros Ha Hb Hq Hq63 Hsum. unfold subtract. rewrite check_bit_spec by done. fsimpl.
  destruct a as [na qa], b as [nb qb], Ha, Hb; fsimpl; subst. rewrite Z.max_id.
  unfold sub32. rewrite chk32_id by done. fsimpl.
  destruct (fit_bits_represents (na - nb) qb ltac:(lia) ltac:(lia)) as (r & -> & ? & ?).
  eauto.
Qed.

Lemma divide_raw a b :
  fp_ok a -> fp_ok b -> q a = q b -> 0 <= q a <= 32 -> 0 <= number a -> 0 < number b ->
  divide a b = r ← fit_bits ((number a * 2 ^ q a) / number b) (q a); Some (a, b, r).
Proof.
  intros Ha Hb Hq Hq32 Hna Hnb. unfold divide. rewrite check_bit_spec by done. fsimpl.
  destruct a as [na qa], b as [nb qb], Ha, Hb; fsimpl; subst. rewrite Z.max_id.
  rewrite !u64_id by lia. rewrite shlu64_eq by lia; fsimpl.
  rewrite u64_id by (rewrite Z.shiftl_mul_pow2; lia).
  crun. by rewrite nested_div by lia.
Qed.

(** Division of values of one scale is the truncated quotient, up to the low bits
    it drops, for a non-negative dividend and a positive divisor. *)
Theorem divide_correct a b :
  fp_ok a -> fp_ok b -> q a = q b -> 0 <= q a <= 32 -> 0 <= number a -> 0 < number b ->
  (number a * 2 ^ q a) / number b < 2 ^ 31 ->
  exists r, divide a b = Some (a, b, r) /\
            represents r ((number a * 2 ^ q a) / number b) (q a) /\ fp_ok r.
Proof.
  intros Ha Hb Hq Hq32 Hna Hnb Hfit. rewrite divide_raw by done.
  assert (0 < 2 ^ q a) by (apply Z.pow_pos_nonneg; lia).
  assert (Hd : 0 <= number a * 2 ^ q a / number b)
    by (apply Z.div_pos; [apply Z.mul_nonneg_nonneg|]; lia).
  destruct (fit_bits_represents (number a * 2 ^ q a / number b) (q a)
              ltac:(lia) ltac:(lia)) as (r & Hr & ? & ?).
  rewrite u64_id in Hr by lia. rewrite Hr. eauto.
Qed.

Lemma low32_mod a : low32 a = number a mod 2 ^ 16.
Proof. unfold low32. change 0xFFFF with (Z.ones 16). by rewrite Z.land_ones. Qed.

Lemma high32_div a : high32 a = number a / 2 ^ 16.
Proof. unfold high32. by rewrite Z.shiftr_div_pow2. Qed.

(** Schoolbook product of the halves, shifted back by 16. *)
Lemma mul_halves a b :
  (a * b) / 2 ^ 16 =
    (a / 2 ^ 16) * (b / 2 ^ 16) * 2 ^ 16 + (a mod 2 ^ 16) * (b / 2 ^ 16)
    + (a / 2 ^ 16) * (b mod 2 ^ 16) + (a mod 2 ^ 16) * (b mod 2 ^ 16) / 2 ^ 16.
Proof.
  rewrite (Z.div_mod a (2 ^ 16)) at 1 by lia. rewrite (Z.div_mod b (2 ^ 16)) at 1 by lia.
  set (ha := a / 2 ^ 16). set (hb := b / 2 ^ 16).
  set (la := a mod 2 ^ 16). set (lb := b mod 2 ^ 16).
  replace ((2 ^ 16 * ha + la) * (2 ^ 16 * hb + lb))
    with (la * lb + (ha * hb * 2 ^ 16 + la * hb + ha * lb) * 2 ^ 16) by ring.
  rewrite Z.div_add by lia. ring.
Qed.

(** At 16 fractional bits [multiply] computes the truncated product exactly,
    as long as the product fits and the product of the low halves does not
    overflow [int]. *)
Theorem multiply_q16_correct a b :
  fp_ok a -> fp_ok b -> q a = 16 -> q b = 16 -> 0 <= number a -> 0 <= number b ->
  (number a mod 2 ^ 16) * (number b mod 2 ^ 16) < 2 ^ 31 ->
  number a * number b / 2 ^ 16 < 2 ^ 31 ->
  multiply a b = Some (a, b, FixedPt (number a * number b / 2 ^ 16) 16).
Proof.
  intros Ha Hb Hqa Hqb Hna Hnb Hlow Hfit. unfold multiply.
  rewrite check_bit_spec by done. fsimpl.
  rewrite !low32_mod, !high32_div, Hqa, Hqb. rewrite mul_halves in Hfit |- *.
  destruct a as [a qa], b as [b qb]; fsimpl; subst qa qb.
  destruct Ha as [Ha _], Hb as [Hb _]; fsimpl.
  set (ha := a / 2 ^ 16) in *. set (hb := b / 2 ^ 16) in *.
  set (la := a mod 2 ^ 16) in *. set (lb := b mod 2 ^ 16) in *.
  assert (0 <= ha < 2 ^ 15) by (split; [apply Z.div_pos|apply Z.div_lt_upper_bound]; lia).
  assert (0 <= hb < 2 ^ 15) by (split; [apply Z.div_pos|apply Z.div_lt_upper_bound]; lia).
  assert (0 <= la < 2 ^ 16) by (apply Z.mod_pos_bound; lia).
  assert (0 <= lb < 2 ^ 16) by (apply Z.mod_pos_bound; lia).
  clearbody ha hb la lb.
  assert (0 <= ha * hb) by nia. assert (0 <= la * hb) by nia.
  assert (0 <= ha * lb) by nia. assert (0 <= la * lb) by nia.
  assert (0 <= la * lb / 2 ^ 16) by (apply Z.div_pos; lia).
  rewrite !Z.max_id. rewrite (mul32_eq ha hb), !sub32_eq by lia; fsimpl.
  rewrite !sub32_eq by lia; fsimpl. rewrite (u64_id (ha * hb)), shlu64_eq by lia; fsimpl.
  replace (u64 (Z.shiftl 1 (32 - 16 - 1)) <? ha * hb) with false
    by (change (u64 (Z.shiftl 1 (32 - 16 - 1))) with (2 ^ 15); nia).
  rewrite Z.leb_refl, sub32_eq, (i32_id (ha * hb)), shl32_eq by lia; fsimpl.
  crun.
  replace (16 - 16) with 0 by done. replace (32 - 16) with 16 by done.
  rewrite !Z.shiftr_0_r, Z.shiftl_mul_pow2, Z.shiftr_div_pow2, i32_id by lia.
  crun. done.
Qed.

(** *** The logarithm *)

Lemma array_step i : 0 <= i < 255 -> array i < array (i + 1).
Proof.
  intros Hi.
  assert (F : forallb (fun j => array j <? array (j + 1)) (seqZ 0 255) = true)
    by (vm_compute; reflexivity).
  rewrite forallb_forall in F. specialize (F i).
  rewrite <- list_elem_of_In, elem_of_seqZ in F. lia.
Qed.

Lemma array_le i j : 0 <= i -> i <= j -> j <= 255 -> array i <= array j.
Proof.
  intros Hi Hij. replace j with (i + Z.of_nat (Z.to_nat (j - i))) by lia.
  clear Hij. induction (Z.to_nat (j - i)) as [|n IH]; intros Hj.
  - rewrite Z.add_0_r. lia.
  - pose proof (array_step (i + Z.of_nat n) ltac:(lia)).
    replace (i + Z.of_nat (S n)) with (i + Z.of_nat n + 1) by lia.
    specialize (IH ltac:(lia)). lia.
Qed.

Lemma array_bounds i : 0 <= i <= 255 -> 0 <= array i < 2 ^ 24.
Proof.
  intros. pose proof (array_le 0 i). pose proof (array_le i 255).
  change (array 0) with 0 in *. change (array 255) with 16729895 in *. lia.
Qed.

(** Integer and table part of [log2 (n / 2 ^ fq)]. *)
Definition log_index (n : Z) : Z := (n - 2 ^ Z.log2 n) * 2 ^ 8 / 2 ^ Z.log2 n.

Definition log_value (n fq : Z) : Z :=
  (Z.log2 n - fq) * 2 ^ 24 + Z.shiftr (array (log_index n)) (24 - fq).

Lemma log2_bounds n : 1 <= n -> 0 < 2 ^ Z.log2 n <= n /\ n < 2 * 2 ^ Z.log2 n.
Proof.
  intros. pose proof (Z.log2_spec n ltac:(lia)) as [? Hlt].
  rewrite Z.pow_succ_r in Hlt by apply Z.log2_nonneg.
  assert (0 < 2 ^ Z.log2 n) by (apply Z.pow_pos_nonneg; [lia|apply Z.log2_nonneg]). lia.
Qed.

Lemma log_index_range n : 1 <= n -> 0 <= log_index n <= 255.
Proof.
  intros Hn. pose proof (log2_bounds n Hn). unfold log_index. split.
  - apply Z.div_pos; nia.
  - apply Z.lt_succ_r, Z.div_lt_upper_bound; nia.
Qed.

(** The table index the code extracts by shifting is the fraction of [n]. *)
Lemma log_index_code n :
  1 < n < 2 ^ 31 ->
  u8 (Z.shiftr (i32 (Z.shiftl n (32 - Z.log2 n))) 24) = log_index n.
Proof.
  intros Hn. pose proof (log2_bounds n ltac:(lia)) as Hb.
  pose proof (log_index_range n ltac:(lia)) as Hr.
  assert (Hl : Z.log2 n < 31) by (apply Z.log2_lt_pow2; lia).
  pose proof (Z.log2_nonneg n) as H0. rewrite u8_top_byte, Z.shiftl_mul_pow2 by lia.
  unfold log_index in *. set (e := Z.log2 n) in *. clearbody e.
  rewrite <- (Z.div_mul_cancel_r (n * 2 ^ (32 - e)) (2 ^ 24) (2 ^ e)) by lia.
  replace (n * 2 ^ (32 - e) * 2 ^ e) with ((n * 2 ^ 8) * 2 ^ 24).
  2: { rewrite <- !Z.mul_assoc, <- !Z.pow_add_r by lia. do 2 f_equal. lia. }
  rewrite (Z.mul_comm (2 ^ 24)), Z.div_mul_cancel_r by lia.
  replace (n * 2 ^ 8) with ((n - 2 ^ e) * 2 ^ 8 + 2 ^ 8 * 2 ^ e) by ring.
  rewrite Z.div_add by lia.
  rewrite <- Z.add_mod_idemp_r, Z.mod_same, Z.add_0_r, Z.mod_small by lia. done.
Qed.

Lemma calc_log_eq n fq :
  1 < n < 2 ^ 31 -> -40 < fq <= 24 ->
  calc_log (FixedPt n fq) = Some (FixedPt (log_value n fq) 8).
Proof.
  intros Hn Hfq. unfold calc_log. fsimpl. rewrite count_zero_32_spec.
  replace ((0 <=? n) && (n <? 2 ^ 31)) with true by lia.
  assert (Hl : Z.log2 n < 31) by (apply Z.log2_lt_pow2; lia).
  assert (1 <= Z.log2 n) by (apply Z.log2_le_pow2; lia).
  unfold bitlen. replace (n =? 0) with false by lia.
  replace ((0 <=? 32 - (Z.log2 n + 1)) && (32 - (Z.log2 n + 1) <? 32)) with true by lia.
  crun.
  replace (32 - (Z.log2 n + 1) + 1) with (32 - Z.log2 n) by lia.
  rewrite log_index_code by done.
  pose proof (array_bounds _ (log_index_range n ltac:(lia))) as Ha.
  rewrite i32_u64, Z.shiftl_mul_pow2, (i32_id (_ * 2 ^ 24)) by lia.
  assert (Hs : 0 <= Z.shiftr (array (log_index n)) (24 - fq) < 2 ^ 24).
  { rewrite Z.shiftr_div_pow2 by lia.
    assert (0 < 2 ^ (24 - fq)) by (apply Z.pow_pos_nonneg; lia).
    split; [apply Z.div_pos|apply Z.div_lt_upper_bound]; nia. }
  do 2 f_equal. unfold log_value.
  rewrite <- i32_u64, u64_add_l, i32_u64, i32_id by lia. lia.
Qed.

(** C35. The shifts of [calc_log] compute the exponent and the table entry of [n]: the
    result is the base-2 logarithm of [n / 2 ^ fq] read from the table, the integer
    part scaled by [2 ^ 24] and the table part shifted by [24 - fq]. *)
Theorem calc_log_correct n fq :
  1 < n < 2 ^ 31 -> -40 < fq <= 24 ->
  calc_log (FixedPt n fq) = Some (FixedPt (log_value n fq) 8).
Proof. apply calc_log_eq. Qed.

(** A larger number never gets a smaller logarithm. *)
Lemma log_value_monotone n m fq :
  1 < n -> n <= m -> fq <= 24 -> log_value n fq <= log_value m fq.
Proof.
  intros Hn Hnm Hfq. unfold log_value.
  pose proof (log2_bounds n ltac:(lia)) as Bn. pose proof (log2_bounds m ltac:(lia)) as Bm.
  pose proof (log_index_range n ltac:(lia)) as Rn. pose proof (log_index_range m ltac:(lia)) as Rm.
  pose proof (array_bounds _ Rn) as An. pose proof (array_bounds _ Rm) as Am.
  rewrite !Z.shiftr_div_pow2 by lia.
  assert (Hp : 0 < 2 ^ (24 - fq)) by (apply Z.pow_pos_nonneg; lia).
  destruct (Z.lt_ge_cases (Z.log2 n) (Z.log2 m)).
  - assert (array (log_index n) / 2 ^ (24 - fq) < 2 ^ 24) by (apply Z.div_lt_upper_bound; nia).
    assert (0 <= array (log_index m) / 2 ^ (24 - fq)) by (apply Z.div_pos; lia). lia.
  - assert (Z.log2 n = Z.log2 m) as E by (pose proof (Z.log2_le_mono n m); lia).
    assert (log_index n <= log_index m).
    { unfold log_index. rewrite E. apply Z.div_le_mono; [lia|nia]. }
    pose proof (array_le (log_index n) (log_index m) ltac:(lia) ltac:(lia) ltac:(lia)).
    apply Z.add_le_mono; [lia|]. by apply Z.div_le_mono.
Qed.

(** A larger number never has a smaller [calc_log] at the same scale. *)
Theorem calc_log_monotone n m fq :
  1 < n -> n <= m -> m < 2 ^ 31 -> -40 < fq <= 24 ->
  exists ln lm, calc_log (FixedPt n fq) = Some ln /\ calc_log (FixedPt m fq) = Some lm /\
                q ln = q lm /\ number ln <= number lm.
Proof.
  intros Hn Hnm Hm Hfq. rewrite !calc_log_eq by lia.
  do 2 eexists. repeat split. fsimpl. apply log_value_monotone; lia.
Qed.

(** Outside its domain [calc_log] answers 0; at the smallest positive number
    it shifts an [int] by 32. *)
Theorem calc_log_edges n fq :
  - 2 ^ 31 <= n <= 1 ->
  calc_log (FixedPt n fq) = if n =? 1 then None else Some (FixedPt 0 8).
Proof.
  intros Hn. unfold calc_log. fsimpl. rewrite count_zero_32_spec.
  destruct (Z.eqb_spec n 1) as [->|].
  - change (32 - bitlen 1) with 31. change ((0 <=? 1) && (1 <? 2 ^ 31)) with true.
    cbv iota. change ((0 <=? 31) && (31 <? 32)) with true. cbv iota.
    destruct (sub32 31 fq); [|done]. fsimpl. destruct (sub32 z 31); [|done]. fsimpl.
    destruct (shl32 z0 24); done.
  - destruct (Z.eqb_spec n 0) as [->|]; [done|].
    replace (0 <=? n) with false by lia. done.
Qed.

Theorem abs_val_correct f :
  fp_ok f ->
  abs_val f = if number f =? - 2 ^ 31 then None
              else Some (FixedPt (Z.abs (number f)) (q f)).
Proof.
  destruct f as [n fq]; intros [Hn _]; unfold abs_val; fsimpl.
  rewrite shr32_eq by lia; fsimpl.
  assert (E : Z.shiftr n 31 = if n <? 0 then -1 else 0).
  { rewrite Z.shiftr_div_pow2 by lia. destruct (Z.ltb_spec n 0).
    - symmetry. apply (Z.div_unique _ _ _ (n + 2 ^ 31)); lia.
    - apply Z.div_small; lia. }
  rewrite E. destruct (Z.ltb_spec n 0).
  - destruct (Z.eqb_spec n (- 2 ^ 31)) as [->|]; [done|]. crun.
    rewrite Z.lxor_m1_r. do 2 f_equal. pose proof (Z.add_lnot_diag (n + -1)). lia.
  - replace (n =? - 2 ^ 31) with false by lia. crun.
    by rewrite Z.lxor_0_r, Z.add_0_r, Z.abs_eq by lia.
Qed.

(** *** Result types *)

Lemma count_zero_64_range x : -1 <= count_zero_64 x <= 64.
Proof.
  rewrite count_zero_64_spec. destruct (andb _ _) eqn:E; [|lia].
  pose proof (bitlen_nonneg x). pose proof (bitlen_le x 31). lia.
Qed.

Lemma fit_bits_ok s fq r :
  - 2 ^ 31 <= fq < 2 ^ 31 -> fit_bits s fq = Some r -> fp_ok r.
Proof.
  intros Hfq. unfold fit_bits. pose proof (count_zero_64_range (i64 s)).
  case_match; intros; cinv; unfold fp_ok; fsimpl; split; auto using i32_range; lia.
Qed.

Lemma check_bit_ok a b a' b' :
  fp_ok a -> fp_ok b -> check_bit a b = Some (a', b') -> fp_ok a' /\ fp_ok b'.
Proof.
  intros Ha Hb. rewrite check_bit_spec by done. intros; cinv.
  destruct Ha, Hb. unfold fp_ok; fsimpl. lia.
Qed.

(** The four operations and their common shape. *)
Definition binop := fixed_point -> fixed_point -> option (fixed_point * fixed_point * fixed_point).

Definition preserves_ok (op : binop) : Prop :=
  forall a b a' b' r, fp_ok a -> fp_ok b -> op a b = Some (a', b', r) ->
    fp_ok a' /\ fp_ok b' /\ fp_ok r.

Ltac start_binop :=
  match goal with
  | H : (check_bit ?a ?b ≫= _) = Some _ |- _ =>
      let E := fresh "E" in
      destruct (check_bit a b) as [[? ?]|] eqn:E; fsimpl; [|done];
      apply check_bit_ok in E as [? ?]; [|done..]
  end.

Ltac finish_binop :=
  match goal with
  | Ha : fp_ok _, Hf : fit_bits _ _ = Some _ |- _ /\ _ =>
      split; [assumption|split; [assumption|]]; eapply fit_bits_ok; [|exact Hf];
      apply Ha
  end.

Lemma add_ok : preserves_ok add.
Proof.
  intros a b a' b' r Ha Hb H. unfold add in H. start_binop. cinv. finish_binop.
Qed.

Lemma subtract_ok : preserves_ok subtract.
Proof.
  intros a b a' b' r Ha Hb H. unfold subtract in H. start_binop. cinv. finish_binop.
Qed.

Lemma divide_ok : preserves_ok divide.
Proof.
  intros a b a' b' r Ha Hb H. unfold divide in H. start_binop. cinv. finish_binop.
Qed.

Lemma multiply_ok : preserves_ok multiply.
Proof.
  intros a b a' b' r Ha Hb H. unfold multiply in H. start_binop.
  apply bind_Some in H as (hh & Hhh & H). cinv.
  repeat match goal with H : _ /\ _ |- _ => destruct H end.
  unfold fp_ok in *; fsimpl. repeat split; try lia; case_match; try apply H1;
    pose proof (count_zero_64_range (i64 (u64 (high32 a * high32 b)))); lia.
Qed.

(** Every operation keeps both fields of every value within [int32_t]. *)
Theorem operations_ok :
  preserves_ok add /\ preserves_ok subtract /\ preserves_ok multiply /\ preserves_ok divide.
Proof. auto using add_ok, subtract_ok, multiply_ok, divide_ok. Qed.

(** *** What the code does not do *)

(** [check_bit] is meant to bring both operands to one scale.  It changes the
    scale of the coarser operand and not its number, so unless the number is 0
    the value [number / 2 ^ q] of that operand changes. *)
Theorem check_bit_changes_value a b :
  fp_ok a -> fp_ok b -> 0 <= q b < q a -> number b <> 0 ->
  exists b', check_bit a b = Some (a, b') /\ q b' = q a /\
             number b' * 2 ^ q b <> number b * 2 ^ q b'.
Proof.
  intros Ha Hb Hq Hn. rewrite check_bit_spec by done. rewrite Z.max_l by lia.
  exists (FixedPt (number b) (q a)). destruct a; fsimpl. repeat split.
  intros E. apply Z.mul_cancel_l in E; [|done]. apply Z.pow_inj_r in E; lia.
Qed.

(** A sum whose bit length is at most half the scale is rounded down to 0. *)
Theorem add_loses_small_sums a b :
  fp_ok a -> fp_ok b -> q a = q b -> q a <= 63 -> 0 <= number a -> 0 <= number b ->
  number a + number b < 2 ^ 31 -> 2 * bitlen (number a + number b) <= q a ->
  exists r, add a b = Some (a, b, r) /\ number r = 0.
Proof.
  intros Ha Hb Hq Hq63 Hna Hnb Hs Hl. unfold add. rewrite check_bit_spec by done. fsimpl.
  destruct a as [na qa], b as [nb qb], Ha, Hb; fsimpl; subst. rewrite Z.max_id.
  crun. rewrite fit_bits_int by lia; fsimpl. eexists; split; [done|].
  replace (0 <=? na + nb) with true by lia. fsimpl.
  pose proof (bitlen_nonneg (na + nb)). pose proof (bitlen_bound (na + nb) ltac:(lia)).
  destruct (Z.ltb_spec (bitlen (na + nb)) qb); fsimpl.
  - rewrite Z.shiftr_div_pow2 by lia. apply Z.div_small. split; [lia|].
    assert (2 ^ bitlen (na + nb) <= 2 ^ (qb - bitlen (na + nb)))
      by (apply Z.pow_le_mono_r; lia). lia.
  - assert (bitlen (na + nb) = 0) as E by lia. rewrite E in *. lia.
Qed.

(** ** Witnesses *)

Ltac fp_witness := unfold fp_ok; vm_compute; intuition discriminate.

Lemma add_correct_witness :
  exists r, add (FixedPt 40 4) (FixedPt 56 4) = Some (FixedPt 40 4, FixedPt 56 4, r) /\
            fp_ok r /\ q r = kept_bits (40 + 56) 4 /\
            number r = (40 + 56) / 2 ^ (4 - q r).
Proof. apply (add_correct (FixedPt 40 4) (FixedPt 56 4)); fp_witness. Defined.

Lemma divide_correct_witness :
  exists r, divide (FixedPt 8 10) (FixedPt 4096 10)
              = Some (FixedPt 8 10, FixedPt 4096 10, r) /\
            represents r (8 * 2 ^ 10 / 4096) 10 /\ fp_ok r.
Proof. apply (divide_correct (FixedPt 8 10) (FixedPt 4096 10)); fp_witness. Defined.

Lemma multiply_q16_correct_witness :
  multiply (FixedPt 196708 16) (FixedPt 131072 16)
    = Some (FixedPt 196708 16, FixedPt 131072 16, FixedPt (196708 * 131072 / 2 ^ 16) 16).
Proof. apply (multiply_q16_correct (FixedPt 196708 16) (FixedPt 131072 16)); fp_witness. Defined.

Lemma calc_log_monotone_witness :
  exists ln lm, calc_log (FixedPt 65536 16) = Some ln /\
                calc_log (FixedPt 196608 16) = Some lm /\
                q ln = q lm /\ number ln <= number lm.
Proof. apply (calc_log_monotone 65536 196608 16); lia. Defined.

Lemma calc_log_correct_witness :
  calc_log (FixedPt 196608 16) = Some (FixedPt (log_value 196608 16) 8).
Proof. apply (calc_log_correct 196608 16); lia. Defined.

Lemma calc_log_edges_witness :
  calc_log (FixedPt 1 16) = if 1 =? 1 then None else Some (FixedPt 0 8).
Proof. apply (calc_log_edges 1 16); lia. Defined.

Lemma abs_val_correct_witness :
  abs_val (FixedPt (-5) 3) =
    if -5 =? - 2 ^ 31 then None else Some (FixedPt (Z.abs (-5)) 3).
Proof. apply (abs_val_correct (FixedPt (-5) 3)); fp_witness. Defined.

Lemma check_bit_changes_value_witness :
  exists b', check_bit (FixedPt 16 4) (FixedPt 1 0) = Some (FixedPt 16 4, b') /\
             q b' = 4 /\ number b' * 2 ^ 0 <> 1 * 2 ^ q b'.
Proof. apply (check_bit_changes_value (FixedPt 16 4) (FixedPt 1 0)); fp_witness. Defined.

Lemma add_loses_small_sums_witness :
  exists r, add (FixedPt 100 16) (FixedPt 100 16)
              = Some (FixedPt 100 16, FixedPt 100 16, r) /\ number r = 0.
Proof. apply (add_loses_small_sums (FixedPt 100 16) (FixedPt 100 16)); fp_witness. Defined.
