(* ===== verification/CFloat.v ===== *)
(** * C floating point

    [float] and [double] are the IEEE binary32 and binary64 formats, computed by
    the Standard Library's executable specification ([SpecFloat], round to
    nearest even).  Library functions that are not correctly rounded ([log],
    [log2]) are parameters of the definitions that use them. *)

From S2P Require Import Prelude.
From Stdlib Require Export Floats.SpecFloat.

Definition float32 := spec_float.
Definition double := spec_float.

Definition fprec : Z := 24.
Definition femax : Z := 128.
Definition dprec : Z := 53.
Definition demax : Z := 1024.

(** ** Conversions *)

(** An integer converted to a floating type. *)
Definition f_of_Z (z : Z) : float32 := binary_normalize fprec femax z 0 false.
Definition d_of_Z (z : Z) : double := binary_normalize dprec demax z 0 false.

(** [float] to [double] and back. *)
Definition d_of_f (x : float32) : double :=
  match x with
  | S754_finite s m e => binary_normalize dprec demax (cond_Zopp s (Zpos m)) e s
  | _ => x
  end.
Definition f_of_d (x : double) : float32 :=
  match x with
  | S754_finite s m e => binary_normalize fprec femax (cond_Zopp s (Zpos m)) e s
  | _ => x
  end.

(** A floating value converted to [int]: the fraction is discarded; undefined
    when the result is not an [int]. *)
Definition i32_of_float (x : spec_float) : option Z :=
  match x with
  | S754_zero _ => Some 0
  | S754_finite s m e =>
      let z := cond_Zopp s (Zpos m) in
      chk32 (if 0 <=? e then z * 2 ^ e else Z.quot z (2 ^ (- e)))
  | _ => None
  end.

(** ** Arithmetic *)

Definition f_mul : float32 -> float32 -> float32 := SFmul fprec femax.
Definition f_add : float32 -> float32 -> float32 := SFadd fprec femax.
Definition f_div : float32 -> float32 -> float32 := SFdiv fprec femax.
Definition d_add : double -> double -> double := SFadd dprec demax.
Definition d_sub : double -> double -> double := SFsub dprec demax.
Definition d_mul : double -> double -> double := SFmul dprec demax.
Definition d_div : double -> double -> double := SFdiv dprec demax.
Definition d_sqrt : double -> double := SFsqrt dprec demax.
Definition fabs : double -> double := SFabs.

Definition d_lt (x y : double) : bool := SFltb x y.
Definition d_gt (x y : double) : bool := SFltb y x.

(** The literal [a / b] ([b] a power of ten): correctly rounded, since both
    numbers are exact in binary64. *)
Definition d_lit (a b : Z) : double := d_div (d_of_Z a) (d_of_Z b).

(** ** Examples *)

Example double_third : d_lit 1 3 = S754_finite false 6004799503160661 (-54).
Proof. reflexivity. Qed.

Example float_trunc : i32_of_float (f_of_d (d_lit (-27) 10)) = Some (-2).
Proof. reflexivity. Qed.
