(* ===== verification/DynamicFix.v ===== *)
(** * The fixed-point prototype

    Models [fully_in-kernel/main/dynamic-fix.c], the program from which
    [fixed-point.h] was made.  Functions with the text of the header are the
    definitions of [FixedPoint]; the others differ: [to_fixed_point] takes a
    [float], [divide] divides signed integers and prints, [calc_log] evaluates a
    first assignment that the header dropped.  [main] is the test run. *)

From S2P Require Import Prelude FixedPoint CFloat.

Definition FIXED_POINT_BITS : Z := 16.

(** ** Functions with the text of the header *)

Definition low32 := FixedPoint.low32.
Definition high32 := FixedPoint.high32.
Definition count_zero_64 := FixedPoint.count_zero_64.
Definition count_zero_32 := FixedPoint.count_zero_32.
Definition check_bit := FixedPoint.check_bit.
Definition add := FixedPoint.add.
Definition subtract := FixedPoint.subtract.
(** [multi] is the header's [multiply]. *)
Definition multi := FixedPoint.multiply.
Definition abs_val := FixedPoint.abs_val.

(** ** Functions that differ *)

Definition to_fixed_point (number : float32) (fixed_point_p : Z) : option fixed_point :=
  one ← shl32 1 fixed_point_p;
  n ← i32_of_float (f_mul number (f_of_Z one));
  Some (FixedPt n fixed_point_p).

Definition fix2float (number : Z) : option double :=
  one ← shl32 1 FIXED_POINT_BITS;
  Some (d_div (d_of_Z number) (d_of_Z one)).

(** [(int64_t)a << 32]. *)
Definition shl64 (a n : Z) : option Z :=
  if shift_ok 64 n then Some (i64 (Z.shiftl a n)) else None.

(** The division of [int64_t]s truncates; it is undefined for a zero divisor and
    for the one quotient that does not fit. *)
Definition div64 (a b : Z) : option Z :=
  if b =? 0 then None else chk64 (Z.quot a b).

(** Answers the operands, the number it prints and the result. *)
Definition divide (first second : fixed_point)
    : option (fixed_point * fixed_point * Z * fixed_point) :=
  '(first, second) ← check_bit first second;
  n ← shl64 (number first) 32;
  d ← div64 n (number second);
  c ← sub32 32 (q first);
  s ← shr64 d c;
  let sum := u64 s in
  printed ← shr64 sum (q first);
  r ← fit_bits sum (q first);
  Some (first, second, i32 printed, r).

(** [number << (leading_zero + 1)] is an [int]: the first assignment shifts it by
    56 bits.  The second one adds before it shifts ([+] binds tighter than
    [>>]). *)
Definition calc_log (f : fixed_point) : option fixed_point :=
  let leading_zero := count_zero_32 (number f) in
  if (0 <=? leading_zero) && (leading_zero <? 32) then
    c ← add32 leading_zero 1;
    m ← shl32 (number f) c;
    _ ← shr32 m 56;
    e ← sub32 31 (q f); e ← sub32 e leading_zero;
    hi ← shl32 e 24;
    m ← shr32 m 24;
    c ← sub32 24 (q f);
    n ← shr64 (u64 (u64 hi + array (u8 m))) c;
    Some (FixedPt (i32 n) 8)
  else Some (FixedPt 0 8).

(** A line of [main]: the expected and the computed value, or the integer
    [divide] prints. *)
Inductive line := Compare (expected : float32) (computed : double) | Printed (n : Z)
  | Log (computed : double).

(** The two [float] constants of [main]. *)
Definition const_c : float32 := f_of_d (d_lit 15064567 10000).
Definition const_d : float32 := f_of_d (d_lit 23 100).

(** The three operations before the logarithm: what they print and the operand
    [i] they leave. *)
Definition main_arith : option (list line * fixed_point) :=
  i ← to_fixed_point const_c 16;
  j ← to_fixed_point const_d 16;
  '(i, j, b) ← multi i j;
  x ← fix2float (number b);
  '(i, j, b) ← add i j;
  y ← fix2float (number b);
  '(i, j, p, b) ← divide i j;
  z ← fix2float (number b);
  Some ([Compare (f_mul const_c const_d) x; Compare (f_add const_c const_d) y;
         Printed p; Compare (f_div const_c const_d) z], i).

Definition main : option (list line) :=
  '(lines, i) ← main_arith;
  b ← calc_log i;
  w ← fix2float (number b);
  Some (lines ++ [Log w]).

(** ** Theorems *)

Lemma shl64_int a : - 2 ^ 31 <= a < 2 ^ 31 -> shl64 a 32 = Some (a * 2 ^ 32).
Proof.
  intros. unfold shl64. cbn [shift_ok]. change (shift_ok 64 32) with true. cbv iota.
  by rewrite Z.shiftl_mul_pow2, i64_id by lia.
Qed.

Lemma div64_eq a b :
  b <> 0 -> - 2 ^ 63 <= Z.quot a b < 2 ^ 63 -> div64 a b = Some (Z.quot a b).
Proof. intros. unfold div64. by rewrite (proj2 (Z.eqb_neq b 0)), chk64_id. Qed.

Lemma quot_bound a b m : b <> 0 -> Z.abs a <= m -> Z.abs (Z.quot a b) <= m.
Proof.
  intros Hb Ha. pose proof (Z.quot_abs a b Hb) as E. rewrite <- E.
  rewrite Z.quot_div_nonneg by lia. pose proof (Z.div_le_upper_bound (Z.abs a) (Z.abs b) (Z.abs a)).
  nia.
Qed.

(** The steps of [divide] on operands of one scale. *)
Lemma divide_signed_raw a b :
  fp_ok a -> fp_ok b -> q a = q b -> 0 <= q a <= 32 -> number b <> 0 ->
  ~ (number a = - 2 ^ 31 /\ number b = -1) ->
  let s := Z.shiftr (Z.quot (number a * 2 ^ 32) (number b)) (32 - q a) in
  divide a b = r ← fit_bits (u64 s) (q a); Some (a, b, i32 (Z.shiftr (u64 s) (q a)), r).
Proof.
  intros Ha Hb Hq Hk Hnb Hov s. unfold divide, check_bit. rewrite check_bit_spec by done. fsimpl.
  destruct a as [na k], b as [nb ?], Ha as [Ha _], Hb as [Hb _]; fsimpl; subst. rewrite Z.max_id.
  rewrite shl64_int by done. fsimpl.
  rewrite div64_eq; [fsimpl|done|].
  2: { pose proof (quot_bound (na * 2 ^ 32) nb (2 ^ 63) Hnb ltac:(lia)).
       destruct (decide (Z.quot (na * 2 ^ 32) nb = 2 ^ 63)) as [E|]; [|lia].
       pose proof (Z.quot_rem' (na * 2 ^ 32) nb). pose proof (Z.rem_bound_abs (na * 2 ^ 32) nb Hnb).
       destruct Hov. nia. }
  crun. done.
Qed.

(** The truncating quotient, cut to [k] fractional bits, is less than one unit
    away from the exact one. *)
Lemma quot_shift_error a b k :
  b <> 0 -> 0 <= k <= 32 ->
  Z.abs (a * 2 ^ k - b * Z.shiftr (Z.quot (a * 2 ^ 32) b) (32 - k)) < Z.abs b.
Proof.
  intros Hb Hk. rewrite Z.shiftr_div_pow2 by lia.
  pose proof (Z.quot_rem' (a * 2 ^ 32) b) as E1.
  pose proof (Z.rem_bound_abs (a * 2 ^ 32) b Hb) as E2.
  set (d := Z.quot (a * 2 ^ 32) b) in *. set (rm := Z.rem (a * 2 ^ 32) b) in *. clearbody d rm.
  replace (2 ^ 32) with (2 ^ k * 2 ^ (32 - k)) in E1
    by (rewrite <- Z.pow_add_r by lia; f_equal; lia).
  assert (Hm : 0 < 2 ^ (32 - k)) by (apply Z.pow_pos_nonneg; lia).
  pose proof (Z.div_mod d (2 ^ (32 - k)) ltac:(lia)) as E3.
  pose proof (Z.mod_pos_bound d (2 ^ (32 - k)) Hm) as E4.
  set (m := 2 ^ (32 - k)) in *. set (s := d / m) in *. set (t := d mod m) in *.
  set (p := 2 ^ k) in *. clearbody m s t p.
  assert ((a * p - b * s) * m = b * t + rm) as E by nia.
  assert (Z.abs (a * p - b * s) * m < Z.abs b * m).
  { rewrite <- (Z.abs_eq m) at 1 by lia. rewrite <- Z.abs_mul, E. nia. }
  nia.
Qed.

(** Signed division: the result stands for [number a / number b] at the common
    scale to within one unit, whatever the signs, and the integer printed is its
    integer part (rounded down). *)
Theorem divide_signed_correct a b :
  fp_ok a -> fp_ok b -> q a = q b -> 0 <= q a <= 32 -> number b <> 0 ->
  ~ (number a = - 2 ^ 31 /\ number b = -1) ->
  exists s, Z.abs (number a * 2 ^ q a - number b * s) < Z.abs (number b) /\
    (- 2 ^ 31 <= s < 2 ^ 31 ->
     exists r, divide a b = Some (a, b, s / 2 ^ q a, r) /\ represents r s (q a) /\ fp_ok r).
Proof.
  intros Ha Hb Hq Hk Hnb Hov. rewrite divide_signed_raw by done.
  set (s := Z.shiftr _ (32 - q a)). exists s. split; [by apply quot_shift_error|].
  intros Hs. destruct (fit_bits_represents s (q a) Hs ltac:(lia)) as (r & Hr & ? & ?).
  rewrite Hr. fsimpl. exists r. split; [|done]. do 3 f_equal.
  rewrite Z.shiftr_div_pow2 by lia. unfold u64, i32.
  assert (Hp : 0 < 2 ^ q a) by (apply Z.pow_pos_nonneg; lia).
  assert (Hb1 : - 2 ^ 31 <= s / 2 ^ q a < 2 ^ 31).
  { split; [apply Z.div_le_lower_bound; nia|apply Z.div_lt_upper_bound; nia]. }
  destruct (Z.leb_spec 0 s).
  - rewrite (Z.mod_small s), Z.mod_small by lia. lia.
  - replace (s mod 2 ^ 64) with (s + 2 ^ 64)
      by (apply (Z.mod_unique_pos _ _ (-1)); lia).
    replace (2 ^ 64) with (2 ^ (32 - q a) * 2 ^ 32 * 2 ^ q a).
    2: { rewrite <- !Z.pow_add_r by lia. f_equal; lia. }
    rewrite Z.div_add by lia.
    replace (s / 2 ^ q a + 2 ^ (32 - q a) * 2 ^ 32 + 2 ^ 31)
      with (s / 2 ^ q a + 2 ^ 31 + 2 ^ (32 - q a) * 2 ^ 32) by lia.
    rewrite Z_mod_plus_full, Z.mod_small by lia. lia.
Qed.

(** On non-negative operands the signed division of the prototype and the
    unsigned one of the header give the same result. *)
Theorem divide_agrees_with_header a b :
  fp_ok a -> fp_ok b -> q a = q b -> 0 <= q a <= 32 -> 0 <= number a -> 0 < number b ->
  FixedPoint.divide a b = '(a', b', _, r) ← divide a b; Some (a', b', r).
Proof.
  intros Ha Hb Hq Hk Hna Hnb.
  rewrite FixedPoint.divide_raw, divide_signed_raw by (done || lia).
  rewrite Z.quot_div_nonneg, <- (Z.shiftl_mul_pow2 (number a) 32), nested_div by lia.
  assert (0 < 2 ^ q a <= 2 ^ 32) as Hp
    by (split; [apply Z.pow_pos_nonneg; lia|apply Z.pow_le_mono_r; lia]).
  destruct Ha as [Ha _].
  assert (0 <= number a * 2 ^ q a / number b < 2 ^ 64) as Hr.
  { split; [apply Z.div_pos; nia|]. apply Z.div_lt_upper_bound; nia. }
  rewrite u64_id by done. by destruct (fit_bits _ _).
Qed.

(** The prototype's logarithm is undefined for every positive number: its first
    assignment shifts a 32-bit [int] by 56. *)
Lemma calc_log_raw f : fp_ok f -> calc_log f = if 0 <? number f then None else Some (FixedPt 0 8).
Proof.
  intros [Hn _]. unfold calc_log, count_zero_32. rewrite count_zero_32_spec.
  destruct (Z.ltb_spec 0 (number f)) as [Hp|Hp].
  - assert (0 <= Z.log2 (number f) < 31) by (split; [apply Z.log2_nonneg|apply Z.log2_lt_pow2; lia]).
    replace ((0 <=? number f) && (number f <? 2 ^ 31)) with true by lia.
    unfold bitlen. rewrite (proj2 (Z.eqb_neq (number f) 0)) by lia.
    match goal with |- context [if ?b then _ else _] => replace b with true by lia end.
    rewrite add32_eq by lia. cbn [mbind option_bind].
    by destruct (shl32 (number f) _).
  - destruct (Z.eqb_spec (number f) 0) as [->|]; [done|].
    by replace (0 <=? number f) with false by lia.
Qed.

Theorem prototype_log_undefined f :
  fp_ok f -> calc_log f = if 0 <? number f then None else Some (FixedPt 0 8).
Proof. apply calc_log_raw. Qed.

(** The test run: the three arithmetic results are computed, the division prints
    the integer part 6549 of 1506.4567 / 0.23, and the run as a whole is
    undefined at the logarithm. *)
Theorem main_run :
  (exists x y z, main_arith = Some ([Compare (f_mul const_c const_d) x;
     Compare (f_add const_c const_d) y; Printed 6549; Compare (f_div const_c const_d) z],
     FixedPt 98727144 16)) /\ main = None.
Proof. split; [do 3 eexists; vm_compute; reflexivity | vm_compute; reflexivity]. Qed.

(** ** Witnesses *)

Lemma divide_signed_correct_witness :
  exists s, Z.abs (-7 * 2 ^ 8 - 2 * s) < Z.abs 2 /\
    (- 2 ^ 31 <= s < 2 ^ 31 ->
     exists r, divide (FixedPt (-7) 8) (FixedPt 2 8)
       = Some (FixedPt (-7) 8, FixedPt 2 8, s / 2 ^ 8, r) /\ represents r s 8 /\ fp_ok r).
Proof. apply (divide_signed_correct (FixedPt (-7) 8) (FixedPt 2 8)); fp_witness. Defined.

Lemma divide_agrees_with_header_witness :
  FixedPoint.divide (FixedPt 7 8) (FixedPt 2 8) =
    '(a', b', _, r) ← divide (FixedPt 7 8) (FixedPt 2 8); Some (a', b', r).
Proof. apply (divide_agrees_with_header (FixedPt 7 8) (FixedPt 2 8)); fp_witness. Defined.

Lemma prototype_log_undefined_witness : calc_log (FixedPt 65536 16) = None.
Proof. apply (prototype_log_undefined (FixedPt 65536 16)); fp_witness. Defined.
