(* ===== verification/Packet.v ===== *)
(** * Packet bytes and byte order

    A packet is the list of the bytes between [ctx->data] and [ctx->data_end];
    a pointer into it is an offset.  An access outside the packet is [None].
    The byte-order macros are those of [libbpf/src/bpf_endian.h], which has one
    definition per host byte order. *)

From S2P Require Import Prelude.

(** ** Host byte order *)

Inductive byte_order := LittleEndian | BigEndian.

#[export] Instance byte_order_eq_dec : EqDecision byte_order.
Proof. solve_decision. Defined.

(** The byte order a program is compiled for. *)
Class HostOrder := host_order : byte_order.

(** ** Bytes and words *)

Definition byte_ok (b : Z) : Prop := 0 <= b < 2 ^ 8.

(** Value of bytes, least significant first. *)
Fixpoint le_val (bs : list Z) : Z :=
  match bs with [] => 0 | b :: bs => b + 2 ^ 8 * le_val bs end.

(** The [n] low bytes of a value, least significant first. *)
Fixpoint le_bytes (n : nat) (v : Z) : list Z :=
  match n with O => [] | S n => v mod 2 ^ 8 :: le_bytes n (v / 2 ^ 8) end.

(** How the host loads and stores an integer. *)
Definition load `{HostOrder} (bs : list Z) : Z :=
  match host_order with LittleEndian => le_val bs | BigEndian => le_val (rev bs) end.

Definition store `{HostOrder} (n : nat) (v : Z) : list Z :=
  match host_order with LittleEndian => le_bytes n v | BigEndian => rev (le_bytes n v) end.

Definition bswap16 (x : Z) : Z := (x mod 2 ^ 8) * 2 ^ 8 + (x / 2 ^ 8) mod 2 ^ 8.

Definition bswap32 (x : Z) : Z :=
  bswap16 (x mod 2 ^ 16) * 2 ^ 16 + bswap16 ((x / 2 ^ 16) mod 2 ^ 16).

(** [__bpf_ntohs] and its siblings, both branches of the [#if]. *)
Definition bpf_ntohs `{HostOrder} (x : Z) : Z :=
  match host_order with LittleEndian => bswap16 (u16 x) | BigEndian => x end.
Definition bpf_htons `{HostOrder} (x : Z) : Z :=
  match host_order with LittleEndian => bswap16 (u16 x) | BigEndian => x end.
Definition bpf_ntohl `{HostOrder} (x : Z) : Z :=
  match host_order with LittleEndian => bswap32 (u32 x) | BigEndian => x end.
Definition bpf_htonl `{HostOrder} (x : Z) : Z :=
  match host_order with LittleEndian => bswap32 (u32 x) | BigEndian => x end.

(** ** Access to the packet *)

Definition read_bytes (pkt : list Z) (off n : nat) : option (list Z) :=
  if decide (off + n <= length pkt)%nat then Some (take n (drop off pkt)) else None.

Definition write_bytes (pkt : list Z) (off : nat) (bs : list Z) : option (list Z) :=
  if decide (off + length bs <= length pkt)%nat
  then Some (take off pkt ++ bs ++ drop (off + length bs) pkt) else None.

Definition read8 (pkt : list Z) (off : nat) : option Z :=
  le_val <$> read_bytes pkt off 1.
Definition read16 `{HostOrder} (pkt : list Z) (off : nat) : option Z :=
  load <$> read_bytes pkt off 2.
Definition read32 `{HostOrder} (pkt : list Z) (off : nat) : option Z :=
  load <$> read_bytes pkt off 4.
Definition write16 `{HostOrder} (pkt : list Z) (off : nat) (v : Z) : option (list Z) :=
  write_bytes pkt off (store 2 v).

(** [ETH_P_IP], [ETH_P_8021Q] and [ETH_P_8021AD] of [linux/if_ether.h]. *)
Definition ETH_P_IP : Z := 0x0800.
Definition ETH_P_8021Q : Z := 0x8100.
Definition ETH_P_8021AD : Z := 0x88A8.

(** Sizes and offsets of the protocol headers the programs read. *)
Definition sizeof_ethhdr : nat := 14.
Definition off_h_proto : nat := 12.
Definition sizeof_iphdr : nat := 20.
Definition off_saddr : nat := 12.

(** ** Lemmas *)

Lemma length_le_bytes n v : length (le_bytes n v) = n.
Proof. revert v. induction n as [|n IH]; intros v; [done|]. cbn. by rewrite IH. Qed.

Lemma le_bytes_ok n v : Forall byte_ok (le_bytes n v).
Proof.
  revert v. induction n as [|n IH]; intros v; constructor; [|apply IH].
  apply Z.mod_pos_bound. lia.
Qed.

Lemma le_val_bytes n v : le_val (le_bytes n v) = v mod 2 ^ (8 * Z.of_nat n).
Proof.
  revert v. induction n as [|n IH]; intros v; [by rewrite Z.mod_1_r|].
  cbn [le_bytes le_val]. rewrite IH.
  replace (8 * Z.of_nat (S n)) with (8 + 8 * Z.of_nat n) by lia.
  rewrite Z.pow_add_r, Z.rem_mul_r by lia. lia.
Qed.

Lemma le_val_bounds bs : Forall byte_ok bs -> 0 <= le_val bs < 2 ^ (8 * Z.of_nat (length bs)).
Proof.
  induction 1 as [|b bs Hb _ IH]; cbn [le_val length]; [lia|].
  unfold byte_ok in Hb.
  replace (8 * Z.of_nat (S (length bs))) with (8 + 8 * Z.of_nat (length bs)) by lia.
  rewrite Z.pow_add_r by lia. lia.
Qed.

Section Order.
Context `{HostOrder}.

Lemma length_store n v : length (store n v) = n.
Proof. unfold store. case_match; rewrite ?length_rev; apply length_le_bytes. Qed.

Lemma store_ok n v : Forall byte_ok (store n v).
Proof. unfold store. case_match; [|apply Forall_rev]; apply le_bytes_ok. Qed.

Lemma load_store n v : load (store n v) = v mod 2 ^ (8 * Z.of_nat n).
Proof. unfold load, store. case_match; rewrite ?rev_involutive; apply le_val_bytes. Qed.

Lemma load_bounds bs : Forall byte_ok bs -> 0 <= load bs < 2 ^ (8 * Z.of_nat (length bs)).
Proof.
  intros. unfold load. case_match; [by apply le_val_bounds|].
  rewrite <- length_rev. apply le_val_bounds. by apply Forall_rev.
Qed.

Lemma bswap16_involutive x : 0 <= x < 2 ^ 16 -> bswap16 (bswap16 x) = x.
Proof. intros. unfold bswap16. Z.to_euclidean_division_equations. lia. Qed.

Lemma bswap16_range x : 0 <= bswap16 x < 2 ^ 16.
Proof. unfold bswap16. Z.to_euclidean_division_equations. lia. Qed.

Lemma bpf_htons_range x : 0 <= x < 2 ^ 16 -> 0 <= bpf_htons x < 2 ^ 16.
Proof. intros. unfold bpf_htons. case_match; [apply bswap16_range|done]. Qed.

(** Converting to network order and back is the identity on both hosts. *)
Lemma bpf_ntohs_htons x : 0 <= x < 2 ^ 16 -> bpf_ntohs (bpf_htons x) = x.
Proof.
  intros. unfold bpf_ntohs, bpf_htons. case_match; [|done].
  pose proof (bswap16_range x).
  rewrite !u16_id by (rewrite ?u16_id; lia). by apply bswap16_involutive.
Qed.

Lemma bpf_htons_ntohs x : 0 <= x < 2 ^ 16 -> bpf_htons (bpf_ntohs x) = x.
Proof. apply bpf_ntohs_htons. Qed.

Lemma bpf_htons_inj x y :
  0 <= x < 2 ^ 16 -> 0 <= y < 2 ^ 16 -> bpf_htons x = bpf_htons y -> x = y.
Proof.
  intros ? ? E. rewrite <- (bpf_ntohs_htons x), <- (bpf_ntohs_htons y) by done.
  by rewrite E.
Qed.

(** The value [bpf_ntohs] gives for a field is big-endian on both hosts. *)
Lemma bpf_ntohs_load a b :
  byte_ok a -> byte_ok b -> bpf_ntohs (load [a; b]) = a * 2 ^ 8 + b.
Proof.
  unfold byte_ok, bpf_ntohs, load. intros. case_match; cbn.
  - rewrite u16_id by lia. unfold bswap16. Z.to_euclidean_division_equations. lia.
  - lia.
Qed.

Lemma bpf_htons_load a b x :
  byte_ok a -> byte_ok b -> 0 <= x < 2 ^ 16 ->
  load [a; b] = bpf_htons x <-> x = a * 2 ^ 8 + b.
Proof.
  intros Ha Hb Hx. rewrite <- bpf_ntohs_load by done.
  pose proof (load_bounds [a; b] ltac:(eauto)) as Hl.
  cbn in Hl. split.
  - intros ->. by rewrite bpf_ntohs_htons.
  - intros ->. by rewrite bpf_htons_ntohs by lia.
Qed.
End Order.

(** *** Reading and writing *)

#[global] Arguments load : simpl never.
#[global] Arguments store : simpl never.
#[global] Arguments le_val : simpl never.
#[global] Arguments le_bytes : simpl never.

Lemma read_bytes_Some pkt off n :
  (off + n <= length pkt)%nat -> read_bytes pkt off n = Some (take n (drop off pkt)).
Proof. intros. unfold read_bytes. by rewrite decide_True. Qed.

Lemma read_bytes_length pkt off n bs : read_bytes pkt off n = Some bs -> length bs = n.
Proof.
  unfold read_bytes. case_decide; [|done]. intros [= <-].
  rewrite length_take, length_drop. lia.
Qed.

Lemma read_bytes_ok pkt off n bs :
  Forall byte_ok pkt -> read_bytes pkt off n = Some bs -> Forall byte_ok bs.
Proof.
  unfold read_bytes. case_decide; [|done]. intros ? [= <-].
  by apply Forall_take, Forall_drop.
Qed.

Lemma write_bytes_Some pkt off bs :
  (off + length bs <= length pkt)%nat ->
  write_bytes pkt off bs = Some (take off pkt ++ bs ++ drop (off + length bs) pkt).
Proof. intros. unfold write_bytes. by rewrite decide_True. Qed.

Lemma read_write_same pkt off bs pkt' :
  write_bytes pkt off bs = Some pkt' -> read_bytes pkt' off (length bs) = Some bs.
Proof.
  unfold write_bytes, read_bytes. case_decide; [|done]. intros [= <-].
  rewrite decide_True by (rewrite !length_app, length_take, length_drop; lia).
  rewrite drop_app_ge, length_take by (rewrite length_take; lia).
  replace (off - off `min` length pkt)%nat with 0%nat by lia.
  by rewrite drop_0, take_app_length.
Qed.

Lemma read_bytes_2 pkt off a b :
  pkt !! off = Some a -> pkt !! S off = Some b -> read_bytes pkt off 2 = Some [a; b].
Proof.
  intros Ha Hb. rewrite read_bytes_Some by (apply lookup_lt_Some in Hb; lia).
  f_equal. by rewrite (drop_S _ a), (drop_S _ b) by done.
Qed.

(** A 16-bit field equals [bpf_htons x] when its bytes spell [x] in network
    order, on both hosts. *)
Lemma read16_htons `{HostOrder} pkt off a b x :
  Forall byte_ok pkt -> pkt !! off = Some a -> pkt !! S off = Some b -> 0 <= x < 2 ^ 16 ->
  exists h, read16 pkt off = Some h /\ (h = bpf_htons x <-> x = a * 2 ^ 8 + b).
Proof.
  intros Hok Ha Hb Hx. unfold read16. rewrite (read_bytes_2 _ _ a b) by done.
  eexists; split; [done|]. apply bpf_htons_load; [| |done]; by eapply Forall_lookup_1.
Qed.

Lemma read_bytes_app pre mid post off n :
  length pre = off -> length mid = n -> read_bytes (pre ++ mid ++ post) off n = Some mid.
Proof.
  intros <- <-. rewrite read_bytes_Some by (rewrite !length_app; lia).
  by rewrite drop_app_length, take_app_length.
Qed.

Lemma write_bytes_app pre mid post off bs :
  length pre = off -> length bs = length mid ->
  write_bytes (pre ++ mid ++ post) off bs = Some (pre ++ bs ++ post).
Proof.
  intros <- E. rewrite write_bytes_Some by (rewrite !length_app; lia).
  rewrite take_app_length, E, <- drop_drop. by rewrite !drop_app_length.
Qed.

(** What was stored is read back. *)
Lemma read16_store `{HostOrder} pre v post off :
  length pre = off -> read16 (pre ++ store 2 v ++ post) off = Some (v mod 2 ^ 16).
Proof.
  intros. unfold read16. rewrite (read_bytes_app _ (store 2 v)) by (done || apply length_store).
  cbn [fmap option_fmap option_map]. by rewrite load_store.
Qed.

Lemma read32_store `{HostOrder} pre v post off :
  length pre = off -> read32 (pre ++ store 4 v ++ post) off = Some (v mod 2 ^ 32).
Proof.
  intros. unfold read32. rewrite (read_bytes_app _ (store 4 v)) by (done || apply length_store).
  cbn [fmap option_fmap option_map]. by rewrite load_store.
Qed.

(** Overwriting a word of a message. *)
Definition write32 `{HostOrder} (pkt : list Z) (off : nat) (v : Z) : option (list Z) :=
  write_bytes pkt off (store 4 v).

Lemma length_write pkt off bs pkt' : write_bytes pkt off bs = Some pkt' -> length pkt' = length pkt.
Proof.
  unfold write_bytes. case_decide; [|done]. intros [= <-].
  rewrite !length_app, length_take, length_drop. lia.
Qed.

(** Reading in a part of the packet is reading in the packet. *)
Lemma read_bytes_within pkt off bs o n x :
  read_bytes pkt off (length bs) = Some bs -> read_bytes bs o n = Some x ->
  read_bytes pkt (off + o) n = Some x.
Proof.
  unfold read_bytes. case_decide; [|done]. intros [= Hbs]. case_decide; [|done]. intros [= <-].
  rewrite decide_True by lia. f_equal.
  rewrite <- Hbs, skipn_firstn_comm, firstn_firstn, drop_drop. f_equal. lia.
Qed.

Lemma read_bytes_split pkt off n bs :
  read_bytes pkt off n = Some bs ->
  exists pre post, pkt = pre ++ bs ++ post /\ length pre = off.
Proof.
  unfold read_bytes. case_decide; [|done]. intros [= <-].
  exists (take off pkt), (drop n (drop off pkt)). split; [by rewrite !take_drop|rewrite length_take; lia].
Qed.
