(* ===== verification/Parsing.v ===== *)
(** * Packet header parsers

    Models [user+ebpf/main/common/parsing_helpers.h] (the copy under
    [fully_in-kernel/common] is the same text).  A cursor is an offset into the
    packet; each parser returns the value of the C function, the new cursor and
    the offset it stored through its header argument ([None] when it stored
    none).  An access outside the packet would make the result [None]. *)

From S2P Require Import Prelude Packet.

(** ** Header sizes ([linux/if_ether.h], [ip.h], [ipv6.h], [icmp.h], [udp.h],
    [tcp.h]) *)

Definition sizeof_vlan_hdr : nat := 4.
Definition sizeof_ipv6hdr : nat := 40.
Definition sizeof_icmp6hdr : nat := 8.
Definition sizeof_icmphdr : nat := 8.
Definition sizeof_icmphdr_common : nat := 4.
Definition sizeof_udphdr : nat := 8.
Definition sizeof_tcphdr : nat := 20.

Definition VLAN_MAX_DEPTH : nat := 2.
Definition VLAN_VID_MASK : Z := 0x0fff.

(** [struct collect_vlans]. *)
Definition collect_vlans := list Z.

(** Return value, cursor, stored header. *)
Definition parsed : Type := Z * nat * option nat.

(** ** Parsers *)

Section Parsers.
Context `{HostOrder}.

Definition proto_is_vlan (h_proto : Z) : bool :=
  (h_proto =? bpf_htons ETH_P_8021Q) || (h_proto =? bpf_htons ETH_P_8021AD).

(** The unrolled loop, from index [i], [n] rounds to go. *)
Fixpoint vlan_loop (pkt : list Z) (n i : nat) (h_proto : Z) (vlh : nat)
    (vlans : option collect_vlans) : option (Z * nat * option collect_vlans) :=
  match n with
  | O => Some (h_proto, vlh, vlans)
  | S n =>
      if negb (proto_is_vlan h_proto) then Some (h_proto, vlh, vlans) else
      if decide (length pkt < vlh + sizeof_vlan_hdr)%nat
      then Some (h_proto, vlh, vlans) else
      h_proto ← read16 pkt (vlh + 2);
      tci ← read16 pkt vlh;
      let vlans := (fun ids : list Z => <[i := Z.land (bpf_ntohs tci) VLAN_VID_MASK]> ids)
                     <$> vlans in
      vlan_loop pkt n (S i) h_proto (vlh + sizeof_vlan_hdr) vlans
  end.

Definition parse_ethhdr_vlan (pkt : list Z) (nh : nat) (vlans : option collect_vlans)
    : option (parsed * option collect_vlans) :=
  if decide (length pkt < nh + sizeof_ethhdr)%nat then Some (-1, nh, None, vlans) else
  h_proto ← read16 pkt (nh + off_h_proto);
  '(h_proto, vlh, vlans) ←
    vlan_loop pkt VLAN_MAX_DEPTH 0 h_proto (nh + sizeof_ethhdr) vlans;
  Some (h_proto, vlh, Some nh, vlans).

Definition parse_ethhdr (pkt : list Z) (nh : nat) : option parsed :=
  fst <$> parse_ethhdr_vlan pkt nh None.

Definition parse_ip6hdr (pkt : list Z) (nh : nat) : option parsed :=
  if decide (length pkt < nh + sizeof_ipv6hdr)%nat then Some (-1, nh, None) else
  nexthdr ← read8 pkt (nh + 6);
  Some (nexthdr, (nh + sizeof_ipv6hdr)%nat, Some nh).

(** [ihl] is the low half of the first byte. *)
Definition parse_iphdr (pkt : list Z) (nh : nat) : option parsed :=
  if decide (length pkt < nh + sizeof_iphdr)%nat then Some (-1, nh, None) else
  b ← read8 pkt nh;
  let hdrsize := Z.to_nat (Z.land b 0xf * 4) in
  if decide (hdrsize < sizeof_iphdr)%nat then Some (-1, nh, None) else
  if decide (length pkt < nh + hdrsize)%nat then Some (-1, nh, None) else
  protocol ← read8 pkt (nh + 9);
  Some (protocol, (nh + hdrsize)%nat, Some nh).

Definition parse_icmp6hdr (pkt : list Z) (nh : nat) : option parsed :=
  if decide (length pkt < nh + sizeof_icmp6hdr)%nat then Some (-1, nh, None) else
  icmp6_type ← read8 pkt nh;
  Some (icmp6_type, (nh + sizeof_icmp6hdr)%nat, Some nh).

Definition parse_icmphdr (pkt : list Z) (nh : nat) : option parsed :=
  if decide (length pkt < nh + sizeof_icmphdr)%nat then Some (-1, nh, None) else
  type ← read8 pkt nh;
  Some (type, (nh + sizeof_icmphdr)%nat, Some nh).

Definition parse_icmphdr_common (pkt : list Z) (nh : nat) : option parsed :=
  if decide (length pkt < nh + sizeof_icmphdr_common)%nat then Some (-1, nh, None) else
  type ← read8 pkt nh;
  Some (type, (nh + sizeof_icmphdr_common)%nat, Some nh).

(** [bpf_ntohs(h->len) - sizeof(struct udphdr)] is computed in [size_t] and
    converted to [int]. *)
Definition parse_udphdr (pkt : list Z) (nh : nat) : option parsed :=
  if decide (length pkt < nh + sizeof_udphdr)%nat then Some (-1, nh, None) else
  l ← read16 pkt (nh + 4);
  let len := i32 (u64 (bpf_ntohs l - Z.of_nat sizeof_udphdr)) in
  if len <? 0 then Some (-1, (nh + sizeof_udphdr)%nat, Some nh)
  else Some (len, (nh + sizeof_udphdr)%nat, Some nh).

(** [doff] is the high half of the byte at offset 12. *)
Definition parse_tcphdr (pkt : list Z) (nh : nat) : option parsed :=
  if decide (length pkt < nh + sizeof_tcphdr)%nat then Some (-1, nh, None) else
  b ← read8 pkt (nh + 12);
  let len := Z.to_nat (Z.land (Z.shiftr b 4) 0xf * 4) in
  if decide (len < sizeof_tcphdr)%nat then Some (-1, nh, None) else
  if decide (length pkt < nh + len)%nat then Some (-1, nh, None) else
  Some (Z.of_nat len, (nh + len)%nat, Some nh).
End Parsers.

(** ** Safety *)

(** A parser never reads outside the packet and moves the cursor forward, never
    past the end. *)
Definition safe_parser (p : list Z -> nat -> option parsed) : Prop :=
  forall pkt nh, (nh <= length pkt)%nat ->
    exists ret pos hdr, p pkt nh = Some (ret, pos, hdr) /\ (nh <= pos <= length pkt)%nat.

Lemma read8_Some pkt off : (off < length pkt)%nat -> exists b, read8 pkt off = Some b.
Proof. intros. unfold read8. rewrite read_bytes_Some by lia. by eexists. Qed.

Lemma read16_Some `{HostOrder} pkt off :
  (off + 2 <= length pkt)%nat -> exists v, read16 pkt off = Some v.
Proof. intros. unfold read16. rewrite read_bytes_Some by lia. by eexists. Qed.

Ltac unfold_sizes :=
  unfold sizeof_ethhdr, off_h_proto, sizeof_iphdr, off_saddr, sizeof_vlan_hdr, sizeof_ipv6hdr,
    sizeof_icmp6hdr, sizeof_icmphdr, sizeof_icmphdr_common, sizeof_udphdr, sizeof_tcphdr,
    VLAN_MAX_DEPTH in *.

(** Run a parser: discharge each read by its bounds check. *)
Ltac run_parser :=
  repeat match goal with
  | |- context [read8 ?pkt ?off] =>
      let b := fresh "b" in let E := fresh "E" in
      destruct (read8_Some pkt off) as [b E]; [unfold_sizes; lia|]; rewrite E; cbn [mbind option_bind]
  | |- context [read16 ?pkt ?off] =>
      let b := fresh "v" in let E := fresh "E" in
      destruct (read16_Some pkt off) as [b E]; [unfold_sizes; lia|]; rewrite E; cbn [mbind option_bind]
  | |- context [decide ?P] => destruct (decide P)
  | |- context [if ?b then _ else _] => destruct b
  end;
  try (do 3 eexists; split; [reflexivity|unfold_sizes; lia]).

Section Safe.
Context `{HostOrder}.

(** The loop advances by whole tags over VLAN headers inside the packet. *)
Inductive tags (pkt : list Z) : nat -> Z -> nat -> Z -> nat -> Prop :=
  | tags_nil h_proto vlh : tags pkt 0 h_proto vlh h_proto vlh
  | tags_cons n h_proto vlh next h_end end_ :
      proto_is_vlan h_proto = true -> (vlh + sizeof_vlan_hdr <= length pkt)%nat ->
      read16 pkt (vlh + 2) = Some next ->
      tags pkt n next (vlh + sizeof_vlan_hdr) h_end end_ ->
      tags pkt (S n) h_proto vlh h_end end_.

Lemma vlan_loop_spec pkt n i h_proto vlh vlans :
  exists k h_end end_ vlans',
    vlan_loop pkt n i h_proto vlh vlans = Some (h_end, end_, vlans') /\
    (k <= n)%nat /\ tags pkt k h_proto vlh h_end end_ /\
    (k = n \/ proto_is_vlan h_end = false \/ (length pkt < end_ + sizeof_vlan_hdr)%nat).
Proof.
  revert i h_proto vlh vlans. induction n as [|n IH]; intros i h_proto vlh vlans; cbn.
  { exists 0%nat. do 3 eexists. split; [done|]. split; [lia|]. split; [constructor|by left]. }
  destruct (proto_is_vlan h_proto) eqn:Ev; cbn.
  2: { exists 0%nat. do 3 eexists. split; [done|]. split; [lia|].
       split; [constructor|by right; left]. }
  case_decide as Hlen.
  { exists 0%nat. do 3 eexists. split; [done|]. split; [lia|].
    split; [constructor|by right; right]. }
  destruct (read16_Some pkt (vlh + 2)) as [next E1]; [unfold_sizes; lia|].
  destruct (read16_Some pkt vlh) as [tci E2]; [unfold_sizes; lia|].
  rewrite E1, E2; cbn [mbind option_bind].
  edestruct IH as (k & h_end & end_ & vl' & Hrun & Hk & Ht & Hstop).
  exists (S k), h_end, end_, vl'. split; [exact Hrun|]. split; [lia|].
  split; [by econstructor; eauto; lia|]. destruct Hstop as [->|Hstop]; [by left|by right].
Qed.

Lemma tags_end pkt k h_proto vlh h_end end_ :
  tags pkt k h_proto vlh h_end end_ -> (vlh <= length pkt)%nat ->
  end_ = (vlh + k * sizeof_vlan_hdr)%nat /\ (end_ <= length pkt)%nat.
Proof.
  induction 1 as [|k h_proto vlh next h_end end_ _ Hlen _ _ IH]; intros; [lia|].
  specialize (IH Hlen). lia.
Qed.

Lemma parse_ethhdr_vlan_tags pkt nh vlans :
  (nh + sizeof_ethhdr <= length pkt)%nat ->
  exists h_proto k h_end end_ vlans',
    read16 pkt (nh + off_h_proto) = Some h_proto /\
    parse_ethhdr_vlan pkt nh vlans = Some (h_end, end_, Some nh, vlans') /\
    (k <= VLAN_MAX_DEPTH)%nat /\
    tags pkt k h_proto (nh + sizeof_ethhdr) h_end end_ /\
    (k = VLAN_MAX_DEPTH \/ proto_is_vlan h_end = false \/
     (length pkt < end_ + sizeof_vlan_hdr)%nat).
Proof.
  intros Hlen. unfold parse_ethhdr_vlan. rewrite decide_False by lia.
  destruct (read16_Some pkt (nh + off_h_proto)) as [h E]; [unfold_sizes; lia|].
  rewrite E; cbn [mbind option_bind].
  destruct (vlan_loop_spec pkt VLAN_MAX_DEPTH 0 h (nh + sizeof_ethhdr) vlans)
    as (k & h_end & end_ & vl' & Hrun & Hk & Ht & Hstop).
  rewrite Hrun; cbn [mbind option_bind]. exists h, k, h_end, end_, vl'. done.
Qed.
End Safe.

(** ** Theorems *)

Section Theorems.
Context `{HostOrder}.

Lemma parse_ethhdr_safe : safe_parser parse_ethhdr.
Proof.
  intros pkt nh Hnh. unfold parse_ethhdr.
  destruct (decide (length pkt < nh + sizeof_ethhdr)%nat) as [Hs|Hs].
  { unfold parse_ethhdr_vlan. rewrite decide_True by done. cbn.
    do 3 eexists. split; [done|lia]. }
  destruct (parse_ethhdr_vlan_tags pkt nh None ltac:(lia))
    as (h & k & h_end & end_ & vl & _ & Hrun & _ & Ht & _).
  rewrite Hrun. cbn. do 3 eexists. split; [done|].
  pose proof (tags_end _ _ _ _ _ _ Ht ltac:(unfold_sizes; lia)) as [? ?]. unfold_sizes. lia.
Qed.

Lemma land_15_range b : 0 <= Z.land b 15 < 16.
Proof.
  change 15 with (Z.ones 4). rewrite Z.land_ones by lia. apply Z.mod_pos_bound. lia.
Qed.

(** C33. Every parser of the header is safe: whatever the packet and the
    cursor, no field is read past [data_end], and the cursor moves forward and
    stays within the packet. *)
Theorem parsers_safe :
  Forall safe_parser
    [parse_ethhdr; parse_ip6hdr; parse_iphdr; parse_icmp6hdr; parse_icmphdr;
     parse_icmphdr_common; parse_udphdr; parse_tcphdr].
Proof.
  repeat constructor; [exact parse_ethhdr_safe|..]; intros pkt nh Hnh.
  - unfold parse_ip6hdr. run_parser.
  - unfold parse_iphdr. run_parser.
  - unfold parse_icmp6hdr. run_parser.
  - unfold parse_icmphdr. run_parser.
  - unfold parse_icmphdr_common. run_parser.
  - unfold parse_udphdr. run_parser.
  - unfold parse_tcphdr. run_parser.
Qed.

(** Exactly which IPv4 headers are accepted, and what the parser answers:
    the whole header of [ihl] words lies in the packet and [ihl] is at least 5;
    the cursor then stands after the options. *)
Theorem parse_iphdr_spec pkt nh b p :
  pkt !! nh = Some b -> pkt !! (nh + 9)%nat = Some p ->
  let size := Z.to_nat (Z.land b 0xf * 4) in
  parse_iphdr pkt nh =
    if decide (20 <= size /\ nh + size <= length pkt)%nat
    then Some (p, (nh + size)%nat, Some nh) else Some (-1, nh, None).
Proof.
  intros Hb Hp size. pose proof (land_15_range b). unfold parse_iphdr.
  assert (forall off v, pkt !! off = Some v -> read8 pkt off = Some v) as R.
  { intros off v Hv. unfold read8. rewrite read_bytes_Some by (apply lookup_lt_Some in Hv; lia).
    rewrite (drop_S _ v) by done. cbn [fmap option_fmap option_map take].
    rewrite take_0. f_equal. apply Z.add_0_r. }
  rewrite (R _ _ Hb), (R _ _ Hp). cbn [mbind option_bind]. fold size. unfold_sizes.
  repeat case_decide; try done; lia.
Qed.

(** The UDP parser answers the payload length of the header, or -1 when the
    length field is below 8; in both cases it has consumed the header, and the
    length it answers is not compared with the bytes the packet holds. *)
Theorem parse_udphdr_spec pkt nh a b :
  Forall byte_ok pkt -> (nh + 8 <= length pkt)%nat ->
  pkt !! (nh + 4)%nat = Some a -> pkt !! (nh + 5)%nat = Some b ->
  let len := a * 256 + b - 8 in
  parse_udphdr pkt nh = Some (if len <? 0 then -1 else len, (nh + 8)%nat, Some nh).
Proof.
  intros Hok Hlen Ha Hb len. unfold parse_udphdr. unfold_sizes.
  rewrite decide_False by lia. unfold read16.
  rewrite (read_bytes_2 _ _ a b) by (done || by rewrite <- Hb; f_equal; lia).
  cbn [fmap option_fmap option_map mbind option_bind].
  assert (byte_ok a /\ byte_ok b) as [Ba Bb] by (split; by eapply Forall_lookup_1).
  rewrite bpf_ntohs_load by done. unfold byte_ok in *.
  rewrite i32_u64, i32_id by lia.
  replace (a * 2 ^ 8 + b - Z.of_nat 8) with len by lia. by case_match.
Qed.

(** A TCP header is accepted when its data offset is at least 5 words and
    inside the packet; the answer is its length, 20 to 60. *)
Theorem parse_tcphdr_spec pkt nh ret pos :
  parse_tcphdr pkt nh = Some (ret, pos, Some nh) ->
  exists b, read8 pkt (nh + 12) = Some b /\
    ret = Z.land (Z.shiftr b 4) 0xf * 4 /\ 20 <= ret <= 60 /\
    Z.of_nat pos = Z.of_nat nh + ret /\ (pos <= length pkt)%nat.
Proof.
  unfold parse_tcphdr. case_decide; [done|].
  destruct (read8 pkt (nh + 12)) as [b|]; [|done]. cbn [mbind option_bind].
  pose proof (land_15_range (Z.shiftr b 4)).
  case_decide; [done|]. case_decide; [done|]. intros [= <- <-].
  exists b. unfold_sizes. split; [done|]. lia.
Qed.

(** At most two VLAN tags are skipped, the cursor stands just after them, and
    the parser stops on a tag only for want of rounds or of bytes. *)
Theorem parse_ethhdr_skips_vlans pkt nh :
  (nh + 14 <= length pkt)%nat ->
  exists k h_end, (k <= 2)%nat /\
    parse_ethhdr pkt nh = Some (h_end, (nh + 14 + k * 4)%nat, Some nh) /\
    read16 pkt (nh + 12 + k * 4) = Some h_end /\
    (k = 2%nat \/ proto_is_vlan h_end = false \/ (length pkt < nh + 14 + k * 4 + 4)%nat).
Proof.
  intros Hlen.
  destruct (parse_ethhdr_vlan_tags pkt nh None Hlen)
    as (h & k & h_end & end_ & vl & Hh & Hrun & Hk & Ht & Hstop).
  pose proof (tags_end _ _ _ _ _ _ Ht ltac:(unfold_sizes; lia)) as [He _].
  unfold parse_ethhdr. rewrite Hrun. exists k, h_end. unfold_sizes. subst end_.
  split; [done|]. split; [done|]. split; [|done].
  clear -Hh Ht. assert (read16 pkt (nh + 14 - 2) = Some h) as Hl by (rewrite <- Hh; f_equal; lia).
  remember (nh + 14)%nat as vlh eqn:E. assert (2 <= vlh)%nat as Hv by lia.
  replace (nh + 12 + k * 4)%nat with (vlh - 2 + k * 4)%nat by lia.
  remember (vlh + k * 4)%nat as end_ eqn:Ee. clear E Hh nh Ee.
  induction Ht as [h vlh|k h vlh next h_end end_ _ _ Hn _ IH].
  - rewrite <- Hl. f_equal; lia.
  - rewrite <- IH; [f_equal; unfold_sizes; lia| |unfold_sizes; lia].
    rewrite <- Hn. f_equal; unfold_sizes; lia.
Qed.

(** The value [parse_ethhdr] answers is in network byte order: it is
    [bpf_htons] of the protocol, although the file's comment announces host
    order.  The callers compare it with [bpf_htons] constants. *)
Theorem parse_ethhdr_network_order pkt nh a b :
  Forall byte_ok pkt -> (nh + 14 <= length pkt)%nat ->
  pkt !! (nh + 12)%nat = Some a -> pkt !! (nh + 13)%nat = Some b ->
  proto_is_vlan (bpf_htons (a * 256 + b)) = false ->
  parse_ethhdr pkt nh = Some (bpf_htons (a * 256 + b), (nh + 14)%nat, Some nh).
Proof.
  intros Hok Hlen Ha Hb Hv. unfold parse_ethhdr, parse_ethhdr_vlan. unfold_sizes.
  rewrite decide_False by lia.
  assert (byte_ok a /\ byte_ok b) as [Ba Bb] by (split; by eapply Forall_lookup_1).
  unfold byte_ok in *.
  edestruct (read16_htons pkt (nh + 12) a b (a * 256 + b)) as (h & Hr & Hh);
    [done|done|rewrite <- Hb; f_equal; lia|lia|].
  destruct Hh as [_ Hh]. rewrite Hr, (Hh ltac:(lia)). cbn [mbind option_bind vlan_loop].
  by rewrite Hv.
Qed.
End Theorems.

(** ** Examples: one frame with a VLAN tag, on a little-endian host *)

Module Examples.
#[local] Instance host : HostOrder := LittleEndian.

(** Ethernet, tag 5 (priority 1), IPv4 of 24 bytes, UDP of 8 bytes whose
    length field says 100. *)
Definition frame : list Z :=
  replicate 12 0 ++ [0x81; 0; 0x20; 5] ++ [8; 0] ++
  [0x46; 0; 0; 28] ++ replicate 5 0 ++ [17; 0; 0] ++ replicate 12 0 ++
  [0; 1; 0; 2; 0; 100; 0; 0] ++ replicate 4 0x50 ++ replicate 16 0.

Example frame_vlan :
  parse_ethhdr_vlan frame 0 (Some [0; 0]) = Some (8, 18%nat, Some 0%nat, Some [5; 0]).
Proof. reflexivity. Qed.

Lemma frame_bytes : Forall byte_ok frame.
Proof. repeat constructor; vm_compute; intuition discriminate. Qed.

Lemma parse_iphdr_spec_witness :
  parse_iphdr frame 18 = Some (17, 42%nat, Some 18%nat).
Proof. rewrite (parse_iphdr_spec frame 18 0x46 17); reflexivity. Defined.

Lemma parse_udphdr_spec_witness :
  parse_udphdr frame 42 = Some (92, 50%nat, Some 42%nat).
Proof.
  rewrite (parse_udphdr_spec frame 42 0 100);
    [reflexivity | apply frame_bytes | cbn; lia | reflexivity | reflexivity].
Defined.

Lemma parse_tcphdr_spec_witness :
  exists b, read8 frame (38 + 12) = Some b /\ (20 = Z.land (Z.shiftr b 4) 0xf * 4)%Z /\
    20 <= 20 <= 60 /\ Z.of_nat 58 = Z.of_nat 38 + 20 /\ (58 <= length frame)%nat.
Proof. apply (parse_tcphdr_spec frame 38 20 58). reflexivity. Defined.

Lemma parse_ethhdr_skips_vlans_witness :
  exists k h_end, (k <= 2)%nat /\
    parse_ethhdr frame 0 = Some (h_end, (0 + 14 + k * 4)%nat, Some 0%nat) /\
    read16 frame (0 + 12 + k * 4) = Some h_end /\
    (k = 2%nat \/ proto_is_vlan h_end = false \/ (length frame < 0 + 14 + k * 4 + 4)%nat).
Proof. apply (parse_ethhdr_skips_vlans frame 0). cbn; lia. Defined.

(** IPv4 after the Ethernet header of the inner frame: the answer is 8, not
    0x800. *)
Lemma parse_ethhdr_network_order_witness :
  parse_ethhdr frame 4 = Some (bpf_htons (8 * 256 + 0), 18%nat, Some 4%nat) /\
  bpf_htons (8 * 256 + 0) = 8.
Proof.
  split; [|reflexivity].
  apply (parse_ethhdr_network_order frame 4 8 0);
    [apply frame_bytes | cbn; lia | reflexivity | reflexivity | reflexivity].
Defined.
End Examples.
