(* ===== verification/Rewrite.v ===== *)
(** * Packet rewriting

    Models [user+ebpf/main/common/rewrite_helpers.h] (the copy under
    [fully_in-kernel/common] is the same text): VLAN tags are popped and pushed
    through the kernel's [bpf_xdp_adjust_head], addresses are swapped in place.
    Offsets are pointers, [None] is an access outside the packet. *)

From S2P Require Import Prelude Packet Parsing.

Definition ETH_ALEN : nat := 6.
Definition off_h_source : nat := 6.
Definition off_saddr6 : nat := 8.
Definition off_daddr6 : nat := 24.
Definition off_daddr : nat := 16.

(** ** The packet buffer

    [struct xdp_md] and the kernel helper that moves its head.  [adjust_head] is
    [None] when the helper returns a negative errno. *)
Class XdpBuff (B : Type) := {
  bytes : B -> list Z;
  put : B -> list Z -> B;
  bpf_xdp_adjust_head : B -> Z -> option B;
}.

(** What the kernel documents: a positive amount cuts bytes off the front,
    a negative one uncovers as many bytes of the headroom. *)
Class XdpBuffLaws (B : Type) `{XdpBuff B} : Prop := {
  bytes_put : forall b p, bytes (put b p) = p;
  adjust_cut : forall b n b', bpf_xdp_adjust_head b (Z.of_nat n) = Some b' ->
    bytes b' = drop n (bytes b);
  adjust_grow : forall b n b', bpf_xdp_adjust_head b (0 - Z.of_nat n) = Some b' ->
    exists room, length room = n /\ bytes b' = room ++ bytes b;
}.

(** ** VLAN tags *)

Section Vlan.
Context `{HostOrder} {B : Type} `{XdpBuff B}.

Definition vlan_tag_pop (ctx : B) (eth : nat) : option (Z * B) :=
  let pkt := bytes ctx in
  proto ← read16 pkt (eth + off_h_proto);
  if negb (proto_is_vlan proto) then Some (-1, ctx) else
  let vlh := (eth + sizeof_ethhdr)%nat in
  if decide (length pkt < vlh + sizeof_vlan_hdr)%nat then Some (-1, ctx) else
  tci ← read16 pkt vlh;
  h_proto ← read16 pkt (vlh + 2);
  eth_cpy ← read_bytes pkt eth sizeof_ethhdr;
  match bpf_xdp_adjust_head ctx (Z.of_nat sizeof_vlan_hdr) with
  | None => Some (-1, ctx)
  | Some ctx =>
      if decide (length (bytes ctx) < sizeof_ethhdr)%nat then Some (-1, ctx) else
      pkt ← write_bytes (bytes ctx) 0 eth_cpy;
      pkt ← write16 pkt off_h_proto h_proto;
      Some (bpf_ntohs tci, put ctx pkt)
  end.

Definition vlan_tag_push (ctx : B) (eth : nat) (vlid : Z) : option (Z * B) :=
  eth_cpy ← read_bytes (bytes ctx) eth sizeof_ethhdr;
  match bpf_xdp_adjust_head ctx (0 - Z.of_nat sizeof_vlan_hdr) with
  | None => Some (-1, ctx)
  | Some ctx =>
      if decide (length (bytes ctx) < sizeof_ethhdr)%nat then Some (-1, ctx) else
      pkt ← write_bytes (bytes ctx) 0 eth_cpy;
      let vlh := sizeof_ethhdr in
      if decide (length pkt < vlh + sizeof_vlan_hdr)%nat then Some (-1, put ctx pkt) else
      pkt ← write16 pkt vlh (bpf_htons vlid);
      proto ← read16 pkt off_h_proto;
      pkt ← write16 pkt (vlh + 2) proto;
      pkt ← write16 pkt off_h_proto (bpf_htons ETH_P_8021Q);
      Some (0, put ctx pkt)
  end.
End Vlan.

(** ** Address swaps *)

Definition swap_src_dst_mac (pkt : list Z) (eth : nat) : option (list Z) :=
  h_tmp ← read_bytes pkt (eth + off_h_source) ETH_ALEN;
  h_dest ← read_bytes pkt eth ETH_ALEN;
  pkt ← write_bytes pkt (eth + off_h_source) h_dest;
  write_bytes pkt eth h_tmp.

Definition swap_src_dst_ipv6 (pkt : list Z) (ipv6 : nat) : option (list Z) :=
  tmp ← read_bytes pkt (ipv6 + off_saddr6) 16;
  daddr ← read_bytes pkt (ipv6 + off_daddr6) 16;
  pkt ← write_bytes pkt (ipv6 + off_saddr6) daddr;
  write_bytes pkt (ipv6 + off_daddr6) tmp.

Definition swap_src_dst_ipv4 (pkt : list Z) (iphdr : nat) : option (list Z) :=
  tmp ← read_bytes pkt (iphdr + off_saddr) 4;
  daddr ← read_bytes pkt (iphdr + off_daddr) 4;
  pkt ← write_bytes pkt (iphdr + off_saddr) daddr;
  write_bytes pkt (iphdr + off_daddr) tmp.

(** ** Reading and writing a packet given in pieces *)

(** ** Swaps *)

(** The three swaps exchange two fields [a], [b] of the same width, [gap]
    bytes apart. *)
Lemma swap_mac_pieces pre a b post eth :
  length pre = eth -> length a = 6%nat -> length b = 6%nat ->
  swap_src_dst_mac (pre ++ a ++ b ++ post) eth = Some (pre ++ b ++ a ++ post).
Proof.
  intros <- Ha Hb. unfold swap_src_dst_mac, ETH_ALEN, off_h_source.
  rewrite (app_assoc pre a), (read_bytes_app (pre ++ a) b post (length pre + 6) 6)
    by (rewrite ?length_app; lia).
  cbn [mbind option_bind]. rewrite <- app_assoc, (read_bytes_app pre a _ (length pre) 6) by done.
  cbn [mbind option_bind].
  rewrite (app_assoc pre a), (write_bytes_app (pre ++ a) b post (length pre + 6) a)
    by (rewrite ?length_app; lia).
  cbn [mbind option_bind]. rewrite <- app_assoc. apply write_bytes_app; lia.
Qed.

(** Two fields [a], [b] of [n] bytes at [off] and [off + n]. *)
Lemma swap_adjacent pre a b post off n :
  length pre = off -> length a = n -> length b = n ->
  (tmp ← read_bytes (pre ++ a ++ b ++ post) off n;
   daddr ← read_bytes (pre ++ a ++ b ++ post) (off + n) n;
   pkt ← write_bytes (pre ++ a ++ b ++ post) off daddr;
   write_bytes pkt (off + n) tmp) = Some (pre ++ b ++ a ++ post).
Proof.
  intros <- Ha Hb. rewrite (read_bytes_app pre a _ (length pre) n) by done.
  cbn [mbind option_bind].
  rewrite (app_assoc pre a), (read_bytes_app (pre ++ a) b post (length pre + n) n)
    by (rewrite ?length_app; lia).
  cbn [mbind option_bind]. rewrite <- app_assoc, (write_bytes_app pre a _ (length pre) b) by lia.
  cbn [mbind option_bind]. rewrite (app_assoc pre b), (app_assoc pre b).
  apply write_bytes_app; rewrite ?length_app; lia.
Qed.

(** A packet in pieces around a field of [n] bytes. *)
Lemma split_at {A} (l : list A) n :
  (n <= length l)%nat -> exists a b, l = a ++ b /\ length a = n.
Proof.
  intros. exists (take n l), (drop n l). rewrite take_drop, length_take. split; [done|lia].
Qed.

Lemma split_fields {A} (l : list A) off n :
  (off + n + n <= length l)%nat ->
  exists pre a b post, l = pre ++ a ++ b ++ post /\
    length pre = off /\ length a = n /\ length b = n.
Proof.
  intros Hl. destruct (split_at l off) as (pre & r & -> & ?); [lia|].
  rewrite length_app in Hl. destruct (split_at r n) as (a & r' & -> & ?); [lia|].
  rewrite length_app in Hl. destruct (split_at r' n) as (b & post & -> & ?); [lia|].
  by exists pre, a, b, post.
Qed.

(** Each swap exchanges exactly the two address fields, leaves every other
    byte alone, and undoes itself. *)
Definition swaps (f : list Z -> nat -> option (list Z)) (o n : nat) : Prop :=
  forall pre a b post off, length pre = (off + o)%nat -> length a = n -> length b = n ->
    f (pre ++ a ++ b ++ post) off = Some (pre ++ b ++ a ++ post).

Lemma swaps_involutive f o n pkt off :
  swaps f o n -> (off + o + n + n <= length pkt)%nat -> f pkt off ≫= (fun p => f p off) = Some pkt.
Proof.
  intros Hf Hl. destruct (split_fields pkt (off + o) n Hl) as (pre & a & b & post & -> & ? & ? & ?).
  rewrite Hf by done. cbn [mbind option_bind]. by rewrite Hf.
Qed.

(** The swaps exchange exactly source and destination and leave the rest of the
    packet alone; each is its own inverse. *)
Theorem swaps_exchange :
  swaps swap_src_dst_mac 0 6 /\ swaps swap_src_dst_ipv4 12 4 /\ swaps swap_src_dst_ipv6 8 16.
Proof.
  split_and!; intros pre a b post off Hp Ha Hb.
  - apply swap_mac_pieces; lia.
  - unfold swap_src_dst_ipv4, off_daddr, off_saddr.
    replace (off + 16)%nat with (off + 12 + 4)%nat by lia. by apply swap_adjacent.
  - unfold swap_src_dst_ipv6, off_daddr6, off_saddr6.
    replace (off + 24)%nat with (off + 8 + 16)%nat by lia. by apply swap_adjacent.
Qed.

(** ** VLAN tags *)

Lemma le_bytes_val bs : Forall byte_ok bs -> le_bytes (length bs) (le_val bs) = bs.
Proof.
  induction 1 as [|b bs Hb _ IH]; [done|]. unfold byte_ok in Hb.
  change (le_val (b :: bs)) with (b + 2 ^ 8 * le_val bs).
  set (v := b + 2 ^ 8 * le_val bs).
  change (v mod 2 ^ 8 :: le_bytes (length bs) (v / 2 ^ 8) = b :: bs). subst v.
  replace ((b + 2 ^ 8 * le_val bs) mod 2 ^ 8) with b
    by (rewrite (Z.mul_comm (2 ^ 8)), Z_mod_plus_full, Z.mod_small; lia).
  replace ((b + 2 ^ 8 * le_val bs) / 2 ^ 8) with (le_val bs)
    by (rewrite (Z.mul_comm (2 ^ 8)), Z.div_add, Z.div_small; lia).
  by rewrite IH.
Qed.

Section VlanTheorems.
Context `{HostOrder} {B : Type} `{XdpBuffLaws B}.

Lemma store_load bs : Forall byte_ok bs -> store (length bs) (load bs) = bs.
Proof.
  intros Hok. unfold store, load. case_match; [by apply le_bytes_val|].
  rewrite <- (length_rev bs), (le_bytes_val (rev bs)) by (by apply Forall_rev). apply rev_involutive.
Qed.

Lemma store2_load a b : byte_ok a -> byte_ok b -> store 2 (load [a; b]) = [a; b].
Proof. intros. apply (store_load [a; b]). eauto using List.Forall_cons, List.Forall_nil. Qed.

Lemma store_htons x : store 2 (bpf_htons x) = [(x / 2 ^ 8) mod 2 ^ 8; x mod 2 ^ 8].
Proof.
  unfold store, bpf_htons. case_match; [|done].
  set (v := bswap16 (u16 x)). change ([v mod 2 ^ 8; (v / 2 ^ 8) mod 2 ^ 8] = [(x / 2 ^ 8) mod 2 ^ 8; x mod 2 ^ 8]).
  subst v. unfold bswap16, u16.
  assert (((x mod 2 ^ 16) mod 2 ^ 8) = x mod 2 ^ 8) as ->
    by (rewrite Z.mod_mod_divide by (by exists (2 ^ 8)); done).
  assert (((x mod 2 ^ 16) / 2 ^ 8) mod 2 ^ 8 = (x / 2 ^ 8) mod 2 ^ 8) as ->
    by (Z.to_euclidean_division_equations; lia).
  pose proof (Z.mod_pos_bound x (2 ^ 8)). pose proof (Z.mod_pos_bound (x / 2 ^ 8) (2 ^ 8)).
  f_equal; [|f_equal].
  - rewrite Z.add_comm, Z_mod_plus_full, Z.mod_small; lia.
  - rewrite Z.add_comm, Z.div_add, Z.div_small by lia. rewrite Z.mod_small; lia.
Qed.

Lemma read16_app pre a b post off :
  length pre = off -> read16 (pre ++ [a; b] ++ post) off = Some (load [a; b]).
Proof. intros. unfold read16. by rewrite read_bytes_app. Qed.

Lemma write16_app pre a b post off v :
  length pre = off -> write16 (pre ++ [a; b] ++ post) off v = Some (pre ++ store 2 v ++ post).
Proof. intros. unfold write16. apply write_bytes_app; [done|by rewrite length_store]. Qed.

Lemma tag_proto_is_vlan a b :
  byte_ok a -> byte_ok b ->
  proto_is_vlan (load [a; b]) =
    (a * 2 ^ 8 + b =? ETH_P_8021Q) || (a * 2 ^ 8 + b =? ETH_P_8021AD).
Proof.
  intros Ha Hb. unfold proto_is_vlan.
  f_equal; apply Bool.eq_iff_eq_true; rewrite !Z.eqb_eq, bpf_htons_load by done;
    split; intros; by symmetry.
Qed.

(** A frame in pieces: addresses, protocol, rest. *)
Definition frame (mac : list Z) (proto : Z) (rest : list Z) : list Z :=
  mac ++ [(proto / 2 ^ 8) mod 2 ^ 8; proto mod 2 ^ 8] ++ rest.

(** The bytes of a VLAN tag after the protocol that announces it. *)
Definition tag (tci proto : Z) : list Z :=
  [(tci / 2 ^ 8) mod 2 ^ 8; tci mod 2 ^ 8; (proto / 2 ^ 8) mod 2 ^ 8; proto mod 2 ^ 8].

Lemma word_ok x : byte_ok ((x / 2 ^ 8) mod 2 ^ 8) /\ byte_ok (x mod 2 ^ 8).
Proof. split; apply Z.mod_pos_bound; lia. Qed.

Lemma word_val x : 0 <= x < 2 ^ 16 -> (x / 2 ^ 8) mod 2 ^ 8 * 2 ^ 8 + x mod 2 ^ 8 = x.
Proof. intros. Z.to_euclidean_division_equations. lia. Qed.

Lemma push_pieces ctx mac proto rest vlid :
  bytes ctx = frame mac proto rest -> length mac = 12%nat -> 0 <= proto < 2 ^ 16 ->
  match bpf_xdp_adjust_head ctx (-4) with
  | None => vlan_tag_push ctx 0 vlid = Some (-1, ctx)
  | Some _ => exists ctx', vlan_tag_push ctx 0 vlid = Some (0, ctx') /\
      bytes ctx' = frame mac ETH_P_8021Q (tag vlid proto ++ rest)
  end.
Proof.
  intros Hb Hm Hp. unfold vlan_tag_push, frame in *. unfold_sizes.
  rewrite Hb. replace (0 - Z.of_nat 4) with (-4) by done.
  set (p := [(proto / 2 ^ 8) mod 2 ^ 8; proto mod 2 ^ 8]) in *.
  assert (Hr : read_bytes (mac ++ p ++ rest) 0 14 = Some (mac ++ p)).
  { rewrite app_assoc. apply (read_bytes_app []); [done|].
    rewrite length_app, Hm. done. }
  rewrite Hr. cbn [mbind option_bind].
  destruct (bpf_xdp_adjust_head ctx (-4)) as [ctx'|] eqn:Ea; [|done].
  destruct (adjust_grow ctx 4 ctx') as (room & Hl & Hb'); [done|].
  destruct (split_at mac 10) as (x & y & -> & Hx); [lia|].
  rewrite length_app in Hm. destruct y as [|c [|d [|]]]; cbn in Hm; try lia.
  rewrite Hb', Hb, decide_False by (rewrite !length_app; lia).
  assert (Hw : write_bytes (room ++ (x ++ [c; d]) ++ p ++ rest) 0 ((x ++ [c; d]) ++ p) =
               Some ((x ++ [c; d]) ++ p ++ [c; d] ++ p ++ rest)).
  { rewrite <- !app_assoc, (app_assoc room x).
    pose proof (write_bytes_app [] (room ++ x) ([c; d] ++ p ++ rest) 0 (x ++ [c; d] ++ p)) as W.
    cbn [app] in W |- *. rewrite W; [by rewrite <- !app_assoc|done|].
    rewrite !length_app, Hl, Hx. done. }
  rewrite Hw. cbn [mbind option_bind].
  set (m := x ++ [c; d]). assert (Hm' : length m = 12%nat) by (subst m; rewrite length_app, Hx; done).
  rewrite decide_False by (rewrite !length_app, Hm'; cbn; lia).
  set (s := store 2 (bpf_htons vlid)).
  assert (Hw1 : write16 (m ++ p ++ [c; d] ++ p ++ rest) 14 (bpf_htons vlid) =
                Some (m ++ p ++ s ++ p ++ rest)).
  { rewrite !(app_assoc m p). apply write16_app. by rewrite length_app, Hm'. }
  assert (Hr1 : read16 (m ++ p ++ s ++ p ++ rest) 12 = Some (load p)).
  { by apply read16_app. }
  assert (Hw2 : write16 (m ++ p ++ s ++ p ++ rest) 16 (load p) =
                Some (m ++ p ++ s ++ p ++ rest)).
  { pose proof (word_ok proto) as [? ?].
    rewrite !(app_assoc m p), !(app_assoc (m ++ p) s).
    pose proof (write16_app ((m ++ p) ++ s) ((proto / 2 ^ 8) mod 2 ^ 8) (proto mod 2 ^ 8) rest 16
                  (load p)) as W.
    fold p in W. rewrite W by (rewrite !length_app, Hm'; subst s; by rewrite length_store).
    subst p. by rewrite store2_load. }
  assert (Hw3 : write16 (m ++ p ++ s ++ p ++ rest) 12 (bpf_htons ETH_P_8021Q) =
                Some (m ++ store 2 (bpf_htons ETH_P_8021Q) ++ s ++ p ++ rest)).
  { by apply write16_app. }
  rewrite Hw1. cbn [mbind option_bind]. rewrite Hr1. cbn [mbind option_bind].
  cbn [Nat.add]. rewrite Hw2. cbn [mbind option_bind]. rewrite Hw3. cbn [mbind option_bind].
  eexists. split; [done|]. rewrite bytes_put. subst s. by rewrite !store_htons.
Qed.

Lemma pop_pieces ctx ctx' mac tpid tci proto rest :
  bytes ctx = frame mac tpid (tag tci proto ++ rest) -> length mac = 12%nat ->
  tpid = ETH_P_8021Q \/ tpid = ETH_P_8021AD ->
  0 <= tci < 2 ^ 16 -> 0 <= proto < 2 ^ 16 ->
  bpf_xdp_adjust_head ctx 4 = Some ctx' ->
  exists ctx2, vlan_tag_pop ctx 0 = Some (tci, ctx2) /\
               bytes ctx2 = frame mac proto rest.
Proof.
  intros Hb Hm Ht Htci Hp Ha. unfold vlan_tag_pop, frame, tag in *. unfold_sizes.
  pose proof (adjust_cut ctx 4 ctx' Ha) as Hb'. rewrite Hb.
  set (w := [(tpid / 2 ^ 8) mod 2 ^ 8; tpid mod 2 ^ 8]) in *.
  set (t := [(tci / 2 ^ 8) mod 2 ^ 8; tci mod 2 ^ 8]).
  set (p := [(proto / 2 ^ 8) mod 2 ^ 8; proto mod 2 ^ 8]).
  set (pkt := mac ++ w ++ t ++ p ++ rest).
  assert (bytes ctx = pkt) as Hb2 by exact Hb. clear Hb. change (mac ++ w ++ _) with pkt.
  pose proof (word_ok tpid) as [? ?]. pose proof (word_ok tci) as [? ?].
  assert (Hr1 : read16 pkt 12 = Some (load w)) by (by apply read16_app).
  assert (Hr2 : read16 pkt 14 = Some (load t)).
  { subst pkt. rewrite app_assoc. apply read16_app. by rewrite length_app, Hm. }
  assert (Hr3 : read16 pkt 16 = Some (load p)).
  { subst pkt. rewrite app_assoc, app_assoc. apply read16_app. by rewrite !length_app, Hm. }
  assert (Hr4 : read_bytes pkt 0 14 = Some (mac ++ w)).
  { subst pkt. rewrite app_assoc. apply (read_bytes_app []); [done|].
    by rewrite length_app, Hm. }
  cbn [Nat.add]. rewrite Hr1. cbn [mbind option_bind].
  assert (proto_is_vlan (load w) = true) as ->.
  { subst w. rewrite tag_proto_is_vlan by done.
    rewrite word_val by (destruct Ht as [-> | ->]; unfold ETH_P_8021Q, ETH_P_8021AD; lia).
    destruct Ht as [-> | ->]; reflexivity. }
  cbn [negb]. rewrite decide_False by (subst pkt; rewrite !length_app; cbn; lia).
  cbn [Nat.add]. rewrite Hr2, Hr3, Hr4. cbn [mbind option_bind].
  replace (Z.of_nat 4) with 4 by done. rewrite Ha.
  destruct (split_at mac 4) as (m4 & y & E & Hm4); [lia|].
  assert (Hy : length y = 8%nat) by (rewrite E, length_app in Hm; lia).
  assert (Hcut : bytes ctx' = (y ++ w ++ t) ++ p ++ rest).
  { rewrite Hb', Hb2. subst pkt. rewrite E, <- !app_assoc, <- Hm4. apply drop_app_length. }
  assert (Hl14 : length (y ++ w ++ t ++ p) = 14%nat) by (rewrite !length_app; cbn; lia).
  rewrite Hcut, decide_False by (rewrite !length_app in *; cbn in *; lia).
  replace ((y ++ w ++ t) ++ p ++ rest) with ((y ++ w ++ t ++ p) ++ rest)
    by (by rewrite <- !app_assoc).
  pose proof (write_bytes_app [] (y ++ w ++ t ++ p) rest 0 (mac ++ w)) as W.
  rewrite Hl14, length_app, Hm in W. cbn [app] in W. rewrite W by done.
  cbn [mbind option_bind].
  assert (Hw : write16 ((mac ++ w) ++ rest) 12 (load p) = Some (mac ++ store 2 (load p) ++ rest)).
  { rewrite <- app_assoc. by apply write16_app. }
  rewrite Hw. cbn [mbind option_bind]. eexists. split.
  - f_equal. f_equal. subst t. by rewrite bpf_ntohs_load, word_val.
  - rewrite bytes_put. pose proof (word_ok proto) as [? ?]. subst p. by rewrite store2_load.
Qed.

(** [vlan_tag_push] puts an 802.1Q tag with the low 16 bits of [vlid] between
    the addresses and the protocol, whatever the host, or fails when the head
    cannot be moved. *)
Theorem vlan_tag_push_spec ctx mac proto rest vlid :
  bytes ctx = frame mac proto rest -> length mac = 12%nat -> 0 <= proto < 2 ^ 16 ->
  match bpf_xdp_adjust_head ctx (-4) with
  | None => vlan_tag_push ctx 0 vlid = Some (-1, ctx)
  | Some _ => exists ctx', vlan_tag_push ctx 0 vlid = Some (0, ctx') /\
      bytes ctx' = frame mac ETH_P_8021Q (tag vlid proto ++ rest)
  end.
Proof. apply push_pieces. Qed.

(** [vlan_tag_pop] removes the outermost tag of a tagged frame and answers
    its 16 bits (the whole TCI, not the 12-bit identifier its comment names);
    the packet left is the one inside the tag. *)
Theorem vlan_tag_pop_spec ctx ctx' mac tpid tci proto rest :
  bytes ctx = frame mac tpid (tag tci proto ++ rest) -> length mac = 12%nat ->
  tpid = ETH_P_8021Q \/ tpid = ETH_P_8021AD ->
  0 <= tci < 2 ^ 16 -> 0 <= proto < 2 ^ 16 ->
  bpf_xdp_adjust_head ctx 4 = Some ctx' ->
  exists ctx2, vlan_tag_pop ctx 0 = Some (tci, ctx2) /\
               bytes ctx2 = frame mac proto rest.
Proof. apply pop_pieces. Qed.

(** Popping undoes pushing: the frame is the original one and the tag's
    16 bits come back, for every [vlid]. *)
Theorem vlan_pop_push ctx ctx1 ctx2 mac proto rest vlid :
  bytes ctx = frame mac proto rest -> length mac = 12%nat -> 0 <= proto < 2 ^ 16 ->
  0 <= vlid < 2 ^ 16 ->
  vlan_tag_push ctx 0 vlid = Some (0, ctx1) -> bpf_xdp_adjust_head ctx1 4 = Some ctx2 ->
  exists ctx3, vlan_tag_pop ctx1 0 = Some (vlid, ctx3) /\ bytes ctx3 = bytes ctx.
Proof.
  intros Hb Hm Hp Hv Hpu Hcut. pose proof (push_pieces ctx mac proto rest vlid Hb Hm Hp) as Hpush.
  destruct (bpf_xdp_adjust_head ctx (-4)); [|by rewrite Hpush in Hpu].
  destruct Hpush as (ctx' & E & Hb'). rewrite Hpu in E. injection E as <-.
  rewrite Hb. eapply pop_pieces; eauto.
Qed.

(** An untagged frame is left alone. *)
Theorem vlan_tag_pop_untagged ctx mac proto rest :
  bytes ctx = frame mac proto rest -> length mac = 12%nat -> 0 <= proto < 2 ^ 16 ->
  proto <> ETH_P_8021Q -> proto <> ETH_P_8021AD ->
  vlan_tag_pop ctx 0 = Some (-1, ctx).
Proof.
  intros Hb Hm Hp Hn1 Hn2. unfold vlan_tag_pop, frame in *. rewrite Hb. unfold_sizes.
  rewrite (read16_app mac _ _ _ (0 + 12)) by done. cbn [mbind option_bind].
  pose proof (word_ok proto) as [? ?].
  rewrite tag_proto_is_vlan, word_val by done.
  apply Z.eqb_neq in Hn1, Hn2. by rewrite Hn1, Hn2.
Qed.
End VlanTheorems.

(** ** A buffer: bytes with headroom in front *)

Module HeadRoom.
(** The headroom, nearest byte first, and the packet. *)
Record t := Buf { room : list Z; pkt : list Z }.

(** Moving the head fails without headroom, or when less than an Ethernet
    header would be left. *)
Definition adjust (b : t) (delta : Z) : option t :=
  if 0 <=? delta then
    let n := Z.to_nat delta in
    if decide (length (pkt b) < n + sizeof_ethhdr)%nat then None
    else Some (Buf (rev (take n (pkt b)) ++ room b) (drop n (pkt b)))
  else
    let n := Z.to_nat (- delta) in
    if decide (length (room b) < n)%nat then None
    else Some (Buf (drop n (room b)) (rev (take n (room b)) ++ pkt b)).

#[export] Instance buff : XdpBuff t := {
  bytes := pkt;
  put b p := Buf (room b) p;
  bpf_xdp_adjust_head := adjust;
}.

#[export] Instance buff_laws : XdpBuffLaws t.
Proof.
  split; [done| |]; intros b n b'; cbn; unfold adjust.
  - rewrite (proj2 (Z.leb_le _ _)), Nat2Z.id by lia. case_decide; [done|]. by intros [= <-].
  - destruct n as [|n].
    + cbn. case_decide; [done|]. intros [= <-]. by exists [].
    + rewrite (proj2 (Z.leb_gt _ _)) by lia.
      replace (Z.to_nat _) with (S n) by lia. case_decide; [done|]. intros [= <-].
      eexists. split; [|done]. rewrite length_rev, length_take. lia.
Qed.
End HeadRoom.

Module Examples.
Import HeadRoom.
#[local] Instance host : HostOrder := LittleEndian.

Definition mac : list Z := replicate 6 1 ++ replicate 6 2.
Definition plain : t := Buf (replicate 8 0) (frame mac ETH_P_IP [7; 8; 9]).
(** Priority 1, identifier 5. *)
Definition tagged : t := Buf [] (frame mac ETH_P_8021Q (tag 0x2005 ETH_P_IP ++ [7; 8; 9])).

Lemma vlan_tag_push_spec_witness :
  exists ctx', vlan_tag_push plain 0 5 = Some (0, ctx') /\
    bytes ctx' = frame mac ETH_P_8021Q (tag 5 ETH_P_IP ++ [7; 8; 9]).
Proof.
  refine (vlan_tag_push_spec plain mac ETH_P_IP [7; 8; 9] 5 _ _ _);
    [reflexivity | reflexivity | unfold ETH_P_IP; lia].
Defined.

Lemma vlan_tag_pop_spec_witness :
  exists ctx2, vlan_tag_pop tagged 0 = Some (0x2005, ctx2) /\
    bytes ctx2 = frame mac ETH_P_IP [7; 8; 9].
Proof.
  eapply (vlan_tag_pop_spec tagged _ mac ETH_P_8021Q 0x2005 ETH_P_IP [7; 8; 9]);
    [reflexivity | reflexivity | by left | lia | unfold ETH_P_IP; lia | reflexivity].
Defined.

Definition pushed : t := default plain (snd <$> vlan_tag_push plain 0 5).

Lemma vlan_pop_push_witness :
  exists ctx3, vlan_tag_pop pushed 0 = Some (5, ctx3) /\ bytes ctx3 = bytes plain.
Proof.
  eapply (vlan_pop_push plain pushed _ mac ETH_P_IP [7; 8; 9] 5);
    [reflexivity | reflexivity | unfold ETH_P_IP; lia | lia | reflexivity | reflexivity].
Defined.

Lemma vlan_tag_pop_untagged_witness : vlan_tag_pop plain 0 = Some (-1, plain).
Proof.
  apply (vlan_tag_pop_untagged plain mac ETH_P_IP [7; 8; 9]);
    [reflexivity | reflexivity | unfold ETH_P_IP; lia | discriminate | discriminate].
Defined.
End Examples.
