(* ===== verification/BpfMap.v ===== *)
(** * BPF maps: the interface the programs use

    The maps live in the kernel, outside the repository.  [BpfHash] lists the
    operations a program calls on a hash map, [BpfHashLaws] the documented
    behaviour it relies on; the components are proved against these classes.
    [Capped] is an instance on [gmap] with a capacity, used by the witnesses. *)

From S2P Require Import Prelude.

(** ** Update flags and error numbers ([linux/bpf.h], [errno.h]) *)

Definition BPF_ANY : Z := 0.
Definition BPF_NOEXIST : Z := 1.
Definition BPF_EXIST : Z := 2.

Definition ENOENT : Z := 2.
Definition E2BIG : Z := 7.
Definition EEXIST : Z := 17.

(** The key after [k] in an enumeration; the first one when [k] is not in it. *)
Fixpoint next_after {K} `{EqDecision K} (ks : list K) (k : K) : option K :=
  match ks with
  | [] => None
  | x :: ks => if decide (x = k) then head ks else next_after ks k
  end.

Definition next_key {K} `{EqDecision K} (ks : list K) (k : K) : option K :=
  if decide (k ∈ ks) then next_after ks k else head ks.

(** ** The interface *)

Class BpfHash (M K V : Type) := {
  (** [bpf_map_lookup_elem]: a pointer to the value, here the value. *)
  map_lookup_elem : M -> K -> option V;
  (** A write through the pointer a lookup returned. *)
  map_store : M -> K -> V -> M;
  (** [bpf_map_update_elem]: the map and the error number returned. *)
  map_update_elem : M -> K -> V -> Z -> M * Z;
  (** [bpf_map_delete_elem]. *)
  map_delete_elem : M -> K -> M * Z;
  (** The keys in the order the kernel enumerates them. *)
  map_keys : M -> list K;
  (** [bpf_map_get_next_key]. *)
  map_get_next_key : M -> K -> option K;
  (** [bpf_for_each_map_elem]: the callback gets the key, the value, the map
      and its context; a non-zero return stops the iteration. *)
  for_each_map_elem : forall G : Type,
    (K -> V -> M -> G -> option (M * G * Z)) -> M -> G -> option (M * G);
}.

#[global] Hint Mode BpfHash + - - : typeclass_instances.
#[global] Arguments for_each_map_elem {M K V _ G}.

(** The iteration over a fixed enumeration: elements deleted meanwhile are
    not visited. *)
Fixpoint run_each {M K V G} `{BpfHash M K V}
    (cb : K -> V -> M -> G -> option (M * G * Z)) (ks : list K) (m : M) (g : G)
    : option (M * G) :=
  match ks with
  | [] => Some (m, g)
  | k :: ks =>
      match map_lookup_elem m k with
      | None => run_each cb ks m g
      | Some v =>
          '(m, g, r) ← cb k v m g;
          if r =? 0 then run_each cb ks m g else Some (m, g)
      end
  end.

(** Whether an update with these flags may touch the key. *)
Definition flags_allow {V} (old : option V) (flags : Z) : bool :=
  match old with
  | Some _ => negb (flags =? BPF_NOEXIST)
  | None => negb (flags =? BPF_EXIST)
  end.

Class BpfHashLaws (M K V : Type) `{EqDecision K} `{BpfHash M K V} : Prop := {
  lookup_store (m : M) (k : K) (v : V) (k' : K) :
    is_Some (map_lookup_elem m k) ->
    map_lookup_elem (map_store m k v) k' =
      if decide (k = k') then Some v else map_lookup_elem m k';
  lookup_update (m : M) (k : K) (v : V) flags (m' : M) e :
    map_update_elem m k v flags = (m', e) ->
    (e = 0 /\ flags_allow (map_lookup_elem m k) flags = true /\
     forall k', map_lookup_elem m' k' =
                if decide (k = k') then Some v else map_lookup_elem m k')
    \/ (e < 0 /\ m' = m);
  lookup_delete_elem (m : M) (k k' : K) :
    map_lookup_elem (fst (map_delete_elem m k)) k' =
      if decide (k = k') then None else map_lookup_elem m k';
  keys_spec (m : M) (k : K) : k ∈ map_keys m <-> is_Some (map_lookup_elem m k);
  keys_nodup (m : M) : NoDup (map_keys m);
  get_next_key_spec (m : M) (k : K) : map_get_next_key m k = next_key (map_keys m) k;
  for_each_spec {G} (cb : K -> V -> M -> G -> option (M * G * Z)) m g :
    for_each_map_elem cb m g = run_each cb (map_keys m) m g;
}.

(** ** The abstract contents of a map *)

Section Contents.
Context {M K V : Type} `{Countable K} `{!BpfHash M K V} `{!BpfHashLaws M K V}.
Implicit Types (m : M) (k : K) (v : V).

Definition contents (m : M) : gmap K V :=
  list_to_map (omap (fun k => pair k <$> map_lookup_elem m k) (map_keys m)).

Lemma lookup_contents m k : contents m !! k = map_lookup_elem m k.
Proof.
  unfold contents. apply option_eq; intros v.
  rewrite <- elem_of_list_to_map.
  - rewrite list_elem_of_omap. split.
    + intros (k' & _ & Hk). destruct (map_lookup_elem m k') eqn:E; naive_solver.
    + intros Hv. exists k. rewrite Hv. split; [|done]. apply keys_spec. eauto.
  - pose proof (keys_nodup m) as Hnd. clear - Hnd.
    induction Hnd as [|k ks Hk _ IH]; simpl; [constructor|].
    destruct (map_lookup_elem m k) as [v|] eqn:E; simpl; [|done].
    constructor; [|done]. rewrite list_elem_of_fmap. intros ((k', v') & -> & Hin).
    apply list_elem_of_omap in Hin as (x & Hx & Hv).
    destruct (map_lookup_elem m x); naive_solver.
Qed.

Lemma contents_ext m m' :
  (forall k, map_lookup_elem m k = map_lookup_elem m' k) -> contents m = contents m'.
Proof. intros E. apply map_eq. intros k. by rewrite !lookup_contents. Qed.

Lemma contents_store m k v :
  is_Some (map_lookup_elem m k) -> contents (map_store m k v) = <[k := v]> (contents m).
Proof.
  intros Hk. apply map_eq. intros k'. rewrite lookup_contents, lookup_insert, lookup_store by done.
  case_decide; [done|]. by rewrite lookup_contents.
Qed.

Lemma contents_delete m k : contents (fst (map_delete_elem m k)) = delete k (contents m).
Proof.
  apply map_eq. intros k'. rewrite lookup_contents, lookup_delete, lookup_delete_elem.
  case_decide; [done|]. by rewrite lookup_contents.
Qed.

Lemma contents_update m k v flags m' e :
  map_update_elem m k v flags = (m', e) ->
  contents m' = if e =? 0 then <[k := v]> (contents m) else contents m.
Proof.
  intros E. apply lookup_update in E as [(-> & _ & E)|[He ->]].
  - rewrite Z.eqb_refl. apply map_eq. intros k'. rewrite lookup_contents, E, lookup_insert.
    case_decide; [done|]. by rewrite lookup_contents.
  - by destruct (Z.eqb_spec e 0); [lia|].
Qed.
End Contents.

(** ** Iterations that touch one element at a time *)

Section Iterate.
Context {M K V : Type} `{Countable K} `{!BpfHash M K V} `{!BpfHashLaws M K V} {G : Type}.
Context (cb : K -> V -> M -> G -> option (M * G * Z)) (R : K -> V -> option V -> Prop).

(** The callback continues the iteration, changes no other element and
    relates the old value of its element to the new one by [R]. *)
Definition local_callback : Prop :=
  forall k v m g m' g' r,
    map_lookup_elem m k = Some v -> cb k v m g = Some (m', g', r) ->
    r = 0 /\ (forall k', k' <> k -> map_lookup_elem m' k' = map_lookup_elem m k') /\
    R k v (map_lookup_elem m' k).

Context (Hcb : local_callback).

Lemma run_each_local ks m g m' g' :
  NoDup ks -> run_each cb ks m g = Some (m', g') ->
  forall k,
    (k ∈ ks -> match map_lookup_elem m k with
               | Some v => R k v (map_lookup_elem m' k)
               | None => map_lookup_elem m' k = None
               end) /\
    (k ∉ ks -> map_lookup_elem m' k = map_lookup_elem m k).
Proof.
  intros Hnd. revert m g. induction Hnd as [|x ks Hx _ IH]; intros m g Hrun k; simpl in Hrun.
  { simplify_eq. split; [|done]. by intros ?%not_elem_of_nil. }
  destruct (map_lookup_elem m x) as [v|] eqn:Ex.
  - destruct (cb x v m g) as [[[m1 g1] r]|] eqn:Ec; simpl in Hrun; [|done].
    apply Hcb in Ec as (-> & Hother & HR); [|done]. simpl in Hrun.
    specialize (IH _ _ Hrun). destruct (decide (k = x)) as [->|Hne].
    + split; [|set_solver]. intros _. rewrite Ex. by rewrite (proj2 (IH x) Hx).
    + rewrite <- (Hother k Hne). specialize (IH k). set_solver.
  - specialize (IH _ _ Hrun k). destruct (decide (k = x)) as [->|Hne]; [|set_solver].
    split; [|set_solver]. intros _. rewrite Ex. by rewrite (proj2 IH Hx).
Qed.

Lemma for_each_local m g m' g' :
  for_each_map_elem cb m g = Some (m', g') ->
  forall k, match map_lookup_elem m k with
            | Some v => R k v (map_lookup_elem m' k)
            | None => map_lookup_elem m' k = None
            end.
Proof.
  rewrite for_each_spec. intros Hrun k.
  pose proof (run_each_local _ _ _ _ _ (keys_nodup m) Hrun k) as [Hin Hout].
  destruct (map_lookup_elem m k) as [v|] eqn:E.
  - apply Hin, keys_spec. eauto.
  - apply Hout. rewrite keys_spec, E. by intros [? ?].
Qed.

(** One element on which the callback is undefined makes the whole
    iteration undefined. *)
Lemma for_each_undefined m g k v :
  map_lookup_elem m k = Some v ->
  (forall m g, map_lookup_elem m k = Some v -> cb k v m g = None) ->
  for_each_map_elem cb m g = None.
Proof.
  rewrite for_each_spec. intros Hk Hundef.
  assert (Hin : k ∈ map_keys m) by (apply keys_spec; eauto).
  revert Hin. generalize (map_keys m) as ks. intros ks Hin.
  revert m g Hk. induction ks as [|x ks IH]; intros m g Hk; [by apply not_elem_of_nil in Hin|].
  simpl. destruct (decide (x = k)) as [->|Hne].
  - rewrite Hk. by rewrite Hundef.
  - assert (k ∈ ks) by set_solver.
    destruct (map_lookup_elem m x) as [v'|] eqn:Ex; [|auto].
    destruct (cb x v' m g) as [[[m1 g1] r]|] eqn:Ec; simpl; [|done].
    apply Hcb in Ec as (-> & Hother & _); [|done]. simpl. apply IH; [done|].
    rewrite Hother; done.
Qed.
End Iterate.

(** ** Totals over a map

    The sum of a measure of the values, and how each operation moves it. *)

Section Total.
Context {K V : Type} `{Countable K} (f : V -> Z).
Implicit Types m : gmap K V.

Definition total m : Z := map_fold (fun _ v acc => f v + acc) 0 m.

Lemma total_empty : total ∅ = 0.
Proof. apply map_fold_empty. Qed.

Lemma total_insert_fresh m k v : m !! k = None -> total (<[k := v]> m) = f v + total m.
Proof. intros. unfold total. rewrite map_fold_insert_L; [done| |done]. intros; lia. Qed.

Lemma total_delete m k v : m !! k = Some v -> total m = f v + total (delete k m).
Proof.
  intros. rewrite <- (insert_delete_id m k v) at 1 by done.
  apply total_insert_fresh, lookup_delete_eq.
Qed.

Lemma total_delete_none m k : m !! k = None -> total (delete k m) = total m.
Proof. intros. by rewrite delete_id. Qed.

Lemma total_update m k v v' :
  m !! k = Some v -> total (<[k := v']> m) = total m - f v + f v'.
Proof.
  intros Hk. rewrite (total_delete m k v) by done.
  rewrite <- insert_delete_eq, total_insert_fresh by apply lookup_delete_eq. lia.
Qed.

Lemma total_nonneg m : (forall k v, m !! k = Some v -> 0 <= f v) -> 0 <= total m.
Proof.
  induction m as [|k v m Hk IH] using map_ind; intros Hm; [by rewrite total_empty|].
  rewrite total_insert_fresh by done.
  assert (0 <= f v) by (apply (Hm k); by rewrite lookup_insert_eq).
  assert (0 <= total m).
  { apply IH. intros k' v' Hk'. apply (Hm k'). rewrite lookup_insert_ne; [done|].
    intros ->. by rewrite Hk in Hk'. }
  lia.
Qed.

Lemma total_zero m : (forall k v, m !! k = Some v -> f v = 0) -> total m = 0.
Proof.
  induction m as [|k v m Hk IH] using map_ind; intros Hm; [apply total_empty|].
  rewrite total_insert_fresh by done.
  rewrite (Hm k v) by (by rewrite lookup_insert_eq). rewrite IH; [done|].
  intros k' v' Hk'. apply (Hm k'). rewrite lookup_insert_ne; [done|].
  intros ->. by rewrite Hk in Hk'.
Qed.

Lemma total_lookup_le m k v :
  (forall k v, m !! k = Some v -> 0 <= f v) -> m !! k = Some v -> f v <= total m.
Proof.
  intros Hm Hk. rewrite (total_delete m k v) by done.
  assert (0 <= total (delete k m)); [|lia].
  apply total_nonneg. intros k' v' [_ Hk']%lookup_delete_Some. eauto.
Qed.
End Total.

(** ** An instance: a [gmap] with a capacity *)

Module Capped.
Record t (K V : Type) `{Countable K} := Map { cap : nat; entries : gmap K V }.
#[global] Arguments Map {K V _ _} cap entries.
#[global] Arguments cap {K V _ _} _.
#[global] Arguments entries {K V _ _} _.

Section Ops.
Context {K V : Type} `{Countable K}.

Definition keys (m : t K V) : list K := (map_to_list (entries m)).*1.

Definition update (m : t K V) (k : K) (v : V) (flags : Z) : t K V * Z :=
  let m' := Map (cap m) (<[k := v]> (entries m)) in
  match entries m !! k with
  | Some _ => if flags =? BPF_NOEXIST then (m, - EEXIST) else (m', 0)
  | None => if flags =? BPF_EXIST then (m, - ENOENT)
            else if decide (size (entries m) < cap m)%nat then (m', 0) else (m, - E2BIG)
  end.

Definition remove (m : t K V) (k : K) : t K V * Z :=
  match entries m !! k with
  | Some _ => (Map (cap m) (delete k (entries m)), 0)
  | None => (m, - ENOENT)
  end.

Definition lookup_elem (m : t K V) (k : K) : option V := entries m !! k.
Definition store_elem (m : t K V) (k : K) (v : V) : t K V :=
  Map (cap m) (<[k := v]> (entries m)).

Fixpoint run {G} (cb : K -> V -> t K V -> G -> option (t K V * G * Z))
    (ks : list K) (m : t K V) (g : G) : option (t K V * G) :=
  match ks with
  | [] => Some (m, g)
  | k :: ks =>
      match lookup_elem m k with
      | None => run cb ks m g
      | Some v => '(m, g, r) ← cb k v m g;
                  if r =? 0 then run cb ks m g else Some (m, g)
      end
  end.

#[export] Instance hash : BpfHash (t K V) K V := {
  map_lookup_elem := lookup_elem;
  map_store := store_elem;
  map_update_elem := update;
  map_delete_elem := remove;
  map_keys := keys;
  map_get_next_key m := next_key (keys m);
  for_each_map_elem G cb m := run cb (keys m) m;
}.

Lemma run_run_each {G} (cb : K -> V -> t K V -> G -> option (t K V * G * Z)) ks m g :
  run cb ks m g = run_each cb ks m g.
Proof.
  revert m g. induction ks as [|k ks IH]; intros m g; simpl; [done|].
  destruct (lookup_elem m k); [|apply IH].
  destruct (cb k v m g) as [[[m1 g1] r]|]; simpl; [|done].
  case_match; [apply IH|done].
Qed.

#[export] Instance laws : BpfHashLaws (t K V) K V.
Proof.
  split.
  - intros m k v k' _. apply lookup_insert.
  - intros m k v flags m' e E. simpl in *. unfold update, lookup_elem in *.
    destruct (entries m !! k) eqn:Ek.
    + case_match; simplify_eq; [right; done|].
      left. split; [done|]. split; [simpl; by rewrite H0|]. intros. apply lookup_insert.
    + case_match; simplify_eq; [right; done|]. case_decide; simplify_eq; [|right; done].
      left. split; [done|]. split; [simpl; by rewrite H0|]. intros. apply lookup_insert.
  - intros m k k'. simpl. unfold remove, lookup_elem.
    destruct (entries m !! k) eqn:Ek; simpl; [apply lookup_delete|].
    case_decide; by simplify_eq.
  - intros m k. simpl. unfold keys, lookup_elem. rewrite list_elem_of_fmap. split.
    + intros ([k' v] & -> & Hk). apply elem_of_map_to_list in Hk. eauto.
    + intros [v Hv]. exists (k, v). split; [done|]. by apply elem_of_map_to_list.
  - intros m. apply NoDup_fst_map_to_list.
  - done.
  - intros G cb m g. apply run_run_each.
Qed.
End Ops.
End Capped.
