(* ===== verification/Flows.v ===== *)
(** * Per-flow packet counts

    Both XDP programs keep a hash map from source address to a record with a
    packet count, which they bump in place or create with the count 1.  The
    records differ; [FlowValue] is what the counting needs of them, and the
    lemmas here are proved once for both programs ([InKernel], [UserKern]). *)

From S2P Require Import Prelude BpfMap.

Class FlowValue (V : Type) := {
  flow_cur : V -> Z;
  (** [lock_xadd(&value->cur, 1)] *)
  flow_bump : V -> V;
  (** the value of a new flow *)
  flow_new : V;
}.

Class FlowValueLaws (V : Type) `{FlowValue V} : Prop := {
  flow_cur_bump (v : V) : flow_cur (flow_bump v) = i32 (flow_cur v + 1);
  flow_cur_new : flow_cur (flow_new (V := V)) = 1;
}.

Section Flows.
Context {M V : Type} `{!FlowValue V} `{!FlowValueLaws V}.
Context `{!BpfHash M Z V} `{!BpfHashLaws M Z V}.
Implicit Types m : M.

Definition bump_flow (saddr : Z) (m : M) : M :=
  match map_lookup_elem m saddr with
  | Some v => map_store m saddr (flow_bump v)
  | None => fst (map_update_elem m saddr flow_new BPF_ANY)
  end.

Definition counts_ok (m : M) : Prop :=
  forall k v, map_lookup_elem m k = Some v -> 0 <= flow_cur v.

Definition flow_total (m : M) : Z := total flow_cur (contents m).

Lemma flow_total_nonneg m : counts_ok m -> 0 <= flow_total m.
Proof. intros Hm. apply total_nonneg. intros k v. rewrite lookup_contents. apply Hm. Qed.

Lemma flow_le_total m k v :
  counts_ok m -> map_lookup_elem m k = Some v -> flow_cur v <= flow_total m.
Proof.
  intros Hm Hk. apply (total_lookup_le _ _ k).
  - intros k' v'. rewrite lookup_contents. apply Hm.
  - by rewrite lookup_contents.
Qed.

Lemma bump_flow_lookup saddr m k :
  map_lookup_elem (bump_flow saddr m) k =
    if decide (saddr = k) then
      match map_lookup_elem m saddr with
      | Some v => Some (flow_bump v)
      | None => if snd (map_update_elem m saddr flow_new BPF_ANY) =? 0
                then Some flow_new else None
      end
    else map_lookup_elem m k.
Proof.
  unfold bump_flow. destruct (map_lookup_elem m saddr) as [v|] eqn:E.
  - rewrite lookup_store by eauto. done.
  - destruct (map_update_elem m saddr flow_new BPF_ANY) as [m' e] eqn:Eu; cbn.
    apply lookup_update in Eu as [(-> & _ & Hl)|[He ->]]; [by rewrite Hl|].
    destruct (Z.eqb_spec e 0); [lia|]. case_decide; by simplify_eq.
Qed.

Lemma bump_flow_ok saddr m :
  counts_ok m -> flow_total m + 1 < 2 ^ 31 -> counts_ok (bump_flow saddr m).
Proof.
  intros Hm Ht k v. rewrite bump_flow_lookup. case_decide as Hk; [|apply Hm]. subst.
  destruct (map_lookup_elem m k) as [v'|] eqn:E.
  - intros; simplify_eq. pose proof (Hm k v' E). pose proof (flow_le_total m k v' Hm E).
    rewrite flow_cur_bump, i32_id; lia.
  - case_match; intros; simplify_eq. rewrite flow_cur_new. lia.
Qed.

(** Counting one packet adds one to the flows' total, or nothing when the
    map refuses a new flow. *)
Lemma bump_flow_total saddr m :
  counts_ok m -> flow_total m + 1 < 2 ^ 31 ->
  flow_total (bump_flow saddr m) =
    match map_lookup_elem m saddr with
    | Some _ => flow_total m + 1
    | None => if snd (map_update_elem m saddr flow_new BPF_ANY) =? 0
              then flow_total m + 1 else flow_total m
    end.
Proof.
  intros Hm Ht. unfold flow_total, bump_flow in *.
  destruct (map_lookup_elem m saddr) as [v|] eqn:E.
  - rewrite contents_store by eauto.
    rewrite (total_update _ _ _ v) by (by rewrite lookup_contents).
    pose proof (Hm saddr v E). pose proof (flow_le_total m saddr v Hm E) as Hle.
    unfold flow_total in Hle. rewrite flow_cur_bump, i32_id; lia.
  - destruct (map_update_elem m saddr flow_new BPF_ANY) as [m' e] eqn:Eu; cbn.
    rewrite (contents_update _ _ _ _ _ _ Eu). case_match; [|done].
    rewrite total_insert_fresh by (by rewrite lookup_contents). rewrite flow_cur_new. lia.
Qed.

Lemma bump_flow_total_bounds saddr m :
  counts_ok m -> flow_total m + 1 < 2 ^ 31 ->
  flow_total m <= flow_total (bump_flow saddr m) <= flow_total m + 1.
Proof. intros. rewrite bump_flow_total by done. repeat case_match; lia. Qed.
End Flows.
