(* ===== verification/InKernel.v ===== *)
(** * The in-kernel detector

    Models [fully_in-kernel/main/xdp_prog_kern.c]: the XDP program that counts
    packets per source address, closes an interval about once a second,
    computes an entropy per flow and scans the flows for outliers.  The kernel
    maps are used through the interface of [BpfMap]; the LPM lookup in the
    blacklist and [bpf_redirect_map] are parameters.  Calls run one after the
    other here; [Window] models several CPUs racing for the end of an
    interval. *)

From S2P Require Import Prelude FixedPoint Packet BpfMap Flows.

(** ** Data *)

(** [enum xdp_action] of [linux/bpf.h]. *)
Definition XDP_ABORTED : Z := 0.
Definition XDP_DROP : Z := 1.
Definition XDP_PASS : Z := 2.
Definition XDP_TX : Z := 3.
Definition XDP_REDIRECT : Z := 4.

Definition invl_ns : Z := 1000000000.
Definition LOGGER_MAP_SIZE : Z := 100000.

Record lpm_v4_key := LpmKey { prefixlen : Z; address : Z }.

Record logger_value := LoggerValue { lv_prev : Z; lv_cur : Z; lv_entropy : fixed_point }.

Record data_value := DataValue {
  prev_interval_pkt : Z; cur_interval_pkt : Z; threshold : Z; int_bits : Z }.

(** The three [static] variables of the program. *)
Record globals := Globals { count : Z; entropy_all : fixed_point; avg : fixed_point }.

(** [data] and [loc_ts] are one-element array maps: [None] stands for a failed
    lookup.  [trace] collects what [bpf_trace_printk] was given. *)
Record kern (M B : Type) := Kern {
  logger : M; blacklist : B; data : option data_value; loc_ts : option Z;
  glob : globals; trace : list string }.
#[global] Arguments Kern {M B}.
#[global] Arguments logger {M B}.
#[global] Arguments blacklist {M B}.
#[global] Arguments data {M B}.
#[global] Arguments loc_ts {M B}.
#[global] Arguments glob {M B}.
#[global] Arguments trace {M B}.

(** The value a new flow starts with. *)
Definition new_value : logger_value := LoggerValue 0 1 (FixedPt 0 16).

Definition log_msg {M B} (msg : string) (s : kern M B) : kern M B :=
  Kern (logger s) (blacklist s) (data s) (loc_ts s) (glob s) (trace s ++ [msg]).

#[export] Instance logger_flow : FlowValue logger_value := {
  flow_cur := lv_cur;
  flow_bump v := LoggerValue (lv_prev v) (i32 (lv_cur v + 1)) (lv_entropy v);
  flow_new := new_value;
}.

#[export] Instance logger_flow_laws : FlowValueLaws logger_value.
Proof. done. Qed.

(** ** The callbacks and the handler *)

Section Handler.
Context `{HostOrder} {M B : Type} `{!BpfHash M Z logger_value}.
Context (blacklist_lookup : B -> lpm_v4_key -> option Z).
Context (redirect_map : Z -> Z -> Z).

(** Callback of the first iteration; [tmp] is the copy of the [data] entry. *)
Definition calc_entropy (tmp : data_value) (key : Z) (lv : logger_value) (m : M)
    (g : globals) : option (M * globals * Z) :=
  cur ← to_fixed_point (lv_cur lv) (int_bits tmp);
  prev ← to_fixed_point (lv_prev lv) (int_bits tmp);
  prev_invl ← to_fixed_point (prev_interval_pkt tmp) (int_bits tmp);
  tmp_one ← to_fixed_point 1 (int_bits tmp);
  tmp_ten ← to_fixed_point 10 (int_bits tmp);
  '(tmp_one, tmp_ten, prev) ←
    (if lv_prev lv =? 0 then divide tmp_one tmp_ten else Some (tmp_one, tmp_ten, prev));
  '(tmp_one, tmp_ten, cur) ←
    (if lv_cur lv =? 0 then divide tmp_one tmp_ten else Some (tmp_one, tmp_ten, cur));
  '(prev, prev_invl, first) ← divide prev prev_invl;
  first ← calc_log first;
  n ← mul32 (number first) (-1);
  let first := FixedPt n (q first) in
  '(_, _, second) ←
    (if number cur <=? number prev then divide cur prev else divide prev cur);
  second ← calc_log second;
  second ← abs_val second;
  '(_, _, entropy) ← add first second;
  let m := map_store m key (LoggerValue (lv_prev lv) (lv_cur lv) entropy) in
  '(_, _, all) ← add (entropy_all g) entropy;
  c ← add32 (count g) 1;
  Some (m, Globals c all (avg g), 0).

(** Callback of the second iteration.  The update of the blacklist is
    commented out in the source: [filter_key] is filled in and dropped. *)
Definition detection (tmp : data_value) (key : Z) (lv : logger_value) (m : M)
    (g : globals) : option (M * globals * Z) :=
  if number (lv_entropy lv) =? 0 then
    Some (map_store m key (LoggerValue (lv_cur lv) 0 (lv_entropy lv)), g, 0)
  else
    '(entropy, avg', diff) ← subtract (lv_entropy lv) (avg g);
    let g := Globals (count g) (entropy_all g) avg' in
    let lv := LoggerValue (lv_prev lv) (lv_cur lv) entropy in
    let m := map_store m key lv in
    d ← abs_val diff;
    let filter_key := if threshold tmp <? number d then Some (LpmKey 32 key) else None in
    if lv_cur lv =? 0 then Some (fst (map_delete_elem m key), g, 0)
    else Some (map_store m key (LoggerValue (lv_cur lv) 0 entropy), g, 0).

(** [lock_xadd(&tmp->cur_interval_pkt, 1)] and the growth of [int_bits]. *)
Definition count_interval (d : data_value) : option data_value :=
  let cur := i32 (cur_interval_pkt d + 1) in
  e ← sub32 (int_bits d) 1;
  p ← shl32 1 e;
  limit ← sub32 p 1;
  let bits := if limit <? cur then i32 (int_bits d + 1) else int_bits d in
  Some (DataValue (prev_interval_pkt d) cur (threshold d) bits).

(** The packet count of the source address. *)
Definition count_flow (saddr : Z) (m : M) : M :=
  match map_lookup_elem m saddr with
  | Some v =>
      map_store m saddr (LoggerValue (lv_prev v) (i32 (lv_cur v + 1)) (lv_entropy v))
  | None => fst (map_update_elem m saddr new_value BPF_ANY)
  end.

(** The section under the spin lock: the new time stamp and whether this call
    closes the interval. *)
Definition locked_section (ts timestamp : Z) : option (Z * bool) :=
  if timestamp =? 0 then Some (ts, false) else
  limit ← add64 timestamp invl_ns;
  if limit <? ts then Some (ts, true) else Some (timestamp, false).

(** The test outside the lock and the locked section. *)
Definition claim_interval (ts timestamp : Z) : option (Z * bool) :=
  limit ← add64 timestamp invl_ns;
  if limit <? ts then locked_section ts timestamp else Some (timestamp, false).

(** Closing the interval: both iterations and the reset of the counters. *)
Definition close_interval (tmp : data_value) (s : kern M B) : option (kern M B) :=
  '(m, g) ← for_each_map_elem (calc_entropy tmp) (logger s) (glob s);
  cnt ← to_fixed_point (count g) (int_bits tmp);
  '(all, cnt, a) ← divide (entropy_all g) cnt;
  let g := Globals (count g) all a in
  '(m, g) ← for_each_map_elem (detection tmp) m g;
  let d := DataValue (cur_interval_pkt tmp) 0 (threshold tmp) 4 in
  Some (Kern m (blacklist s) (Some d) (loc_ts s)
             (Globals 0 (FixedPt 0 16) (avg g)) (trace s)).

(** [xdp_filter_func]: [now] is what [bpf_ktime_get_ns] returned. *)
Definition xdp_filter_func (now : Z) (pkt : list Z) (s : kern M B)
    : option (kern M B * Z) :=
  let ts := i64 now in
  if decide (length pkt < sizeof_ethhdr)%nat then
    Some (log_msg "Issue with packet size, ETH" s, XDP_PASS)
  else
  h_proto ← read16 pkt off_h_proto;
  if negb (h_proto =? bpf_htons ETH_P_IP) then Some (s, redirect_map 0 0) else
  if decide (length pkt < sizeof_ethhdr + sizeof_iphdr)%nat then
    Some (log_msg "Issue with packet size, IPv4" s, XDP_PASS)
  else
  saddr ← read32 pkt (sizeof_ethhdr + off_saddr);
  match blacklist_lookup (blacklist s) (LpmKey 32 saddr) with
  | Some _ => Some (log_msg "IP listed on blocklist." s, XDP_DROP)
  | None =>
  match data s with
  | None => Some (log_msg "Error at reading data, the first one" s, XDP_PASS)
  | Some tmp =>
  tmp ← count_interval tmp;
  let s := Kern (count_flow saddr (logger s)) (blacklist s) (Some tmp) (loc_ts s)
                (glob s) (trace s) in
  match loc_ts s with
  | None => Some (log_msg "Error at reading time stamp" s, XDP_PASS)
  | Some timestamp =>
  '(timestamp, close) ← claim_interval ts timestamp;
  let s := Kern (logger s) (blacklist s) (data s) (Some timestamp) (glob s) (trace s) in
  s ← (if (close : bool) then close_interval tmp s else Some s);
  Some (s, redirect_map 0 0)
  end end end.
End Handler.

#[global] Arguments claim_interval : simpl never.
#[global] Arguments count_interval : simpl never.

(** ** The counters of the running interval *)

(** [int_bits] is wide enough for the packet count, as a signed number. *)
Definition counter_fits (d : data_value) : Prop :=
  1 <= int_bits d <= 32 /\ 0 <= cur_interval_pkt d < 2 ^ (int_bits d - 1).

Lemma shl_one e : 0 <= e <= 30 -> shl32 1 e = Some (2 ^ e).
Proof.
  intros. rewrite shl32_eq by lia. f_equal. rewrite Z.shiftl_mul_pow2, Z.mul_1_l by lia.
  assert (0 < 2 ^ e) by (apply Z.pow_pos_nonneg; lia).
  assert (2 ^ e <= 2 ^ 30) by (apply Z.pow_le_mono_r; lia). apply i32_id. lia.
Qed.

Theorem count_interval_fits d :
  counter_fits d -> int_bits d <= 31 ->
  exists d', count_interval d = Some d' /\ counter_fits d' /\
             cur_interval_pkt d' = cur_interval_pkt d + 1 /\
             prev_interval_pkt d' = prev_interval_pkt d /\ threshold d' = threshold d /\
             int_bits d <= int_bits d' <= int_bits d + 1.
Proof.
  destruct d as [pp cc th b]; intros [Hb Hc] Hb31; cbn in *. unfold count_interval; cbn.
  assert (Hp : 2 ^ (b - 1) <= 2 ^ 30) by (apply Z.pow_le_mono_r; lia).
  rewrite sub32_eq by lia; cbn [mbind option_bind]. rewrite shl_one by lia; cbn [mbind option_bind].
  crun. eexists; split; [done|]. cbn. rewrite i32_id by lia.
  assert (Hd : 2 ^ (b + 1 - 1) = 2 * 2 ^ (b - 1)).
  { rewrite <- Z.pow_succ_r by lia. f_equal. lia. }
  unfold counter_fits; cbn. destruct (Z.ltb_spec (2 ^ (b - 1) - 1) (cc + 1)).
  - rewrite i32_id, Hd by lia. lia.
  - lia.
Qed.

(** With 32 bits the limit [(1 << 31) - 1] overflows. *)
Lemma count_interval_32 d : int_bits d = 32 -> count_interval d = None.
Proof. intros E. unfold count_interval. rewrite E. done. Qed.

Lemma count_interval_inv d d' :
  counter_fits d -> count_interval d = Some d' ->
  counter_fits d' /\ cur_interval_pkt d' = cur_interval_pkt d + 1.
Proof.
  intros Hf Hd. destruct (decide (int_bits d = 32)) as [E|E].
  - by rewrite count_interval_32 in Hd.
  - destruct (count_interval_fits d Hf) as (? & Hd' & ? & ? & _); [destruct Hf; lia|].
    rewrite Hd in Hd'. by simplify_eq.
Qed.

(** The kernel hands out a zero-filled array: with [int_bits = 0] the first
    packet already shifts by a negative count. *)
Theorem zero_filled_data_undefined pp cc th :
  count_interval (DataValue pp cc th 0) = None.
Proof. done. Qed.

(** ** The time stamp *)

Theorem claim_interval_spec ts t t' close :
  claim_interval ts t = Some (t', close) ->
  (close = true <-> t <> 0 /\ t + invl_ns < ts) /\
  (t' = ts \/ t' = t) /\ (close = true -> t' = ts) /\ t <= t' /\
  (t' = t \/ t + invl_ns < t').
Proof.
  unfold claim_interval, locked_section. intros H. apply bind_Some in H as (l & Hl & H).
  pose proof Hl as Hl'. apply chk64_Some in Hl' as [-> ?]. rewrite Hl in H. unfold invl_ns in *.
  cbn [mbind option_bind] in H.
  destruct (Z.ltb_spec (t + 1000000000) ts); [destruct (Z.eqb_spec t 0)|];
    simplify_eq; repeat split; intros; try done; try lia.
Qed.

(** ** Closing an interval *)

Section Interval.
Context `{HostOrder} {M B : Type} `{!BpfHash M Z logger_value} `{!BpfHashLaws M Z logger_value}.
Implicit Types (m : M) (s : kern M B).

(** The entropy pass rewrites the entropy of each flow and nothing else. *)
Definition entropy_result (_ : Z) (v : logger_value) (o : option logger_value) : Prop :=
  exists e, o = Some (LoggerValue (lv_prev v) (lv_cur v) e).

Lemma calc_entropy_local tmp : local_callback (calc_entropy (M := M) tmp) entropy_result.
Proof.
  intros k v m g m' g' r Hk Hc. unfold calc_entropy in Hc.
  repeat match goal with
         | H : _ ≫= _ = Some _ |- _ => apply bind_Some in H as (? & _ & H)
         | H : (let '(_, _) := ?p in _) = Some _ |- _ => destruct p as [? ?]
         end.
  simplify_eq. split; [done|]. split.
  - intros k' Hk'. by rewrite lookup_store, decide_False by eauto.
  - rewrite lookup_store, decide_True by eauto. by eexists.
Qed.

(** The detection pass moves the count of each flow to the previous interval
    and drops the flows that sent nothing, unless their entropy is 0. *)
Definition detection_result (_ : Z) (v : logger_value) (o : option logger_value) : Prop :=
  if (number (lv_entropy v) =? 0) || negb (lv_cur v =? 0)
  then exists e, o = Some (LoggerValue (lv_cur v) 0 e)
  else o = None.

Lemma detection_local tmp : local_callback (detection (M := M) tmp) detection_result.
Proof.
  intros k v m g m' g' r Hk Hc. unfold detection in Hc. unfold detection_result.
  destruct (number (lv_entropy v) =? 0); cbn [orb].
  { simplify_eq. split; [done|]. split.
    - intros k' Hk'. by rewrite lookup_store, decide_False by eauto.
    - rewrite lookup_store, decide_True by eauto. by eexists. }
  apply bind_Some in Hc as ([[e a] d] & _ & Hc). apply bind_Some in Hc as (ab & _ & Hc).
  cbn [lv_cur] in Hc.
  assert (Hst : forall v', is_Some (map_lookup_elem (map_store m k v') k)).
  { intros v'. rewrite lookup_store, decide_True by eauto. by eexists. }
  destruct (lv_cur v =? 0); cbn [negb]; simplify_eq; (split; [done|]); split.
  - intros k' Hk'. rewrite lookup_delete_elem, decide_False by done.
    by rewrite lookup_store, decide_False by eauto.
  - by rewrite lookup_delete_elem, decide_True.
  - intros k' Hk'. rewrite lookup_store, decide_False by eauto.
    by rewrite lookup_store, decide_False by eauto.
  - rewrite lookup_store, decide_True by eauto. by eexists.
Qed.

(** What becomes of a flow when the interval closes: it is dropped when it
    sent nothing (and had a non-zero entropy), otherwise its count becomes
    the previous one and it starts again at 0. *)
Definition closed_flow (v : logger_value) (o : option logger_value) : Prop :=
  (lv_cur v = 0 /\ o = None) \/ (exists e, o = Some (LoggerValue (lv_cur v) 0 e)).

Lemma close_interval_effect tmp s s' :
  close_interval tmp s = Some s' ->
  (forall k, match map_lookup_elem (logger s) k with
             | Some v => closed_flow v (map_lookup_elem (logger s') k)
             | None => map_lookup_elem (logger s') k = None
             end) /\
  data s' = Some (DataValue (cur_interval_pkt tmp) 0 (threshold tmp) 4) /\
  loc_ts s' = loc_ts s /\ blacklist s' = blacklist s /\ trace s' = trace s /\
  count (glob s') = 0 /\ entropy_all (glob s') = FixedPt 0 16.
Proof.
  unfold close_interval. intros Hs.
  apply bind_Some in Hs as ([m1 g1] & He & Hs). apply bind_Some in Hs as (cnt & _ & Hs).
  apply bind_Some in Hs as ([[all cnt'] a] & _ & Hs).
  apply bind_Some in Hs as ([m2 g2] & Hd & Hs). simplify_eq; cbn.
  split; [|done]. intros k.
  pose proof (for_each_local _ _ (calc_entropy_local tmp) _ _ _ _ He k) as Rk.
  pose proof (for_each_local _ _ (detection_local tmp) _ _ _ _ Hd k) as Dk.
  destruct (map_lookup_elem (logger s) k) as [v|].
  - destruct Rk as [e Rk]. rewrite Rk in Dk. unfold detection_result in Dk. cbn in Dk.
    unfold closed_flow. destruct (Z.eqb_spec (lv_cur v) 0); cbn in Dk;
      destruct (number e =? 0); cbn in Dk; eauto.
  - by rewrite Rk in Dk.
Qed.

(** C2. When the entropy pass is defined, closing the interval drops or restarts every
    flow and adds none, moves the interval counter to the previous one with 4 bits
    again, clears the sums, and leaves the time stamp, the blacklist and the log. *)
Theorem close_interval_spec tmp s s' :
  close_interval tmp s = Some s' ->
  (forall k, match map_lookup_elem (logger s) k with
             | Some v => closed_flow v (map_lookup_elem (logger s') k)
             | None => map_lookup_elem (logger s') k = None
             end) /\
  data s' = Some (DataValue (cur_interval_pkt tmp) 0 (threshold tmp) 4) /\
  loc_ts s' = loc_ts s /\ blacklist s' = blacklist s /\ trace s' = trace s /\
  count (glob s') = 0 /\ entropy_all (glob s') = FixedPt 0 16.
Proof. apply close_interval_effect. Qed.

(** A flow that sent 32 packets or more shifts an [int] by 32 or more: the
    arguments of [to_fixed_point] are swapped at the call. *)
Lemma to_fixed_point_big n b : 32 <= n -> to_fixed_point n b = None.
Proof.
  intros. unfold to_fixed_point, shl32.
  by rewrite (proj2 (shift_ok_false 32 n)) by lia.
Qed.

Theorem busy_flow_undefined tmp s k v :
  map_lookup_elem (logger s) k = Some v -> 32 <= lv_cur v ->
  close_interval (B := B) tmp s = None.
Proof.
  intros Hk Hv. unfold close_interval.
  rewrite (for_each_undefined _ _ (calc_entropy_local tmp) _ _ k v Hk); [done|].
  intros m g _. unfold calc_entropy. by rewrite (to_fixed_point_big (lv_cur v)).
Qed.

(** So does an interval that follows one of 32 packets or more. *)
Theorem busy_interval_undefined tmp s k v :
  map_lookup_elem (logger s) k = Some v -> 32 <= prev_interval_pkt tmp ->
  close_interval (B := B) tmp s = None.
Proof.
  intros Hk Hv. unfold close_interval.
  rewrite (for_each_undefined _ _ (calc_entropy_local tmp) _ _ k v Hk); [done|].
  intros m g _. unfold calc_entropy. rewrite (to_fixed_point_big (prev_interval_pkt tmp)) by done.
  destruct (to_fixed_point (lv_cur v) _); cbn [mbind option_bind]; [|done].
  by destruct (to_fixed_point (lv_prev v) _).
Qed.

(** ** Accounting *)

Lemma count_flow_bump saddr m : count_flow saddr m = bump_flow saddr m.
Proof. done. Qed.

(** The program's invariant: no count is negative, the interval counter fits
    its bits and the flows never account for more packets than it. *)
Definition kern_inv (s : kern M B) : Prop :=
  counts_ok (logger s) /\
  match data s with
  | None => True
  | Some d => counter_fits d /\ flow_total (logger s) <= cur_interval_pkt d
  end.

Lemma close_interval_inv tmp s s' : close_interval tmp s = Some s' -> kern_inv s'.
Proof.
  intros Hc. apply close_interval_effect in Hc as (Hf & Hd & _).
  assert (Hz : forall k v, map_lookup_elem (logger s') k = Some v -> lv_cur v = 0).
  { intros k v Hk. specialize (Hf k). rewrite Hk in Hf.
    destruct (map_lookup_elem (logger s) k); [|done].
    destruct Hf as [[_ Hf]|[e Hf]]; by simplify_eq. }
  split; [intros k v Hk; cbn; by rewrite (Hz k v Hk)|].
  rewrite Hd. split; [unfold counter_fits; cbn; lia|].
  unfold flow_total. rewrite total_zero; [cbn; lia|].
  intros k v. rewrite lookup_contents. apply Hz.
Qed.

Section Run.
Context (blacklist_lookup : B -> lpm_v4_key -> option Z) (redirect_map : Z -> Z -> Z).
Local Abbreviation handler := (xdp_filter_func blacklist_lookup redirect_map).

(** C3. Every defined call keeps the invariant. *)
Theorem xdp_filter_func_inv now pkt s s' r :
  kern_inv s -> handler now pkt s = Some (s', r) -> kern_inv s'.
Proof.
  intros [Hn Hd] Hh. unfold xdp_filter_func in Hh.
  case_decide; [by simplify_eq|].
  apply bind_Some in Hh as (h & _ & Hh). case_match; [by simplify_eq|].
  case_decide; [by simplify_eq|].
  apply bind_Some in Hh as (saddr & _ & Hh).
  case_match; [by simplify_eq|].
  destruct (data s) as [d|] eqn:Ed; [|simplify_eq; split; cbn; by rewrite ?Ed].
  destruct Hd as [Hfit Htot].
  apply bind_Some in Hh as (d' & Hci & Hh). apply count_interval_inv in Hci as [Hfit' Hc]; [|done].
  assert (Hlim : cur_interval_pkt d' < 2 ^ 31).
  { destruct Hfit' as [? [_ Hlt]].
    assert (2 ^ (int_bits d' - 1) <= 2 ^ 31) by (apply Z.pow_le_mono_r; lia). lia. }
  pose proof (bump_flow_ok saddr (logger s) Hn ltac:(lia)) as Hn'.
  pose proof (bump_flow_total_bounds saddr (logger s) Hn ltac:(lia)) as Ht'.
  cbn in Hh. destruct (loc_ts s) as [t|] eqn:Et.
  2: { simplify_eq; split; cbn; rewrite count_flow_bump; [done|]. split; [done|lia]. }
  apply bind_Some in Hh as ([t' close] & _ & Hh). apply bind_Some in Hh as (s1 & Hs1 & Hh).
  destruct close; simplify_eq; [by eapply close_interval_inv|].
  split; cbn; rewrite count_flow_bump; [done|]. split; [done|lia].
Qed.

(** An IPv4 packet of a source that is not blocked, inside the interval,
    adds one to the interval counter and one to its flow. *)
Theorem packet_counted now pkt s d t saddr :
  data s = Some d -> counter_fits d -> int_bits d <= 31 ->
  loc_ts s = Some t -> 0 <= t -> t + invl_ns < 2 ^ 63 -> i64 now <= t + invl_ns ->
  read16 pkt off_h_proto = Some (bpf_htons ETH_P_IP) ->
  read32 pkt (sizeof_ethhdr + off_saddr) = Some saddr ->
  (sizeof_ethhdr + sizeof_iphdr <= length pkt)%nat ->
  blacklist_lookup (blacklist s) (LpmKey 32 saddr) = None ->
  exists s' d',
    handler now pkt s = Some (s', redirect_map 0 0) /\
    data s' = Some d' /\ counter_fits d' /\
    cur_interval_pkt d' = cur_interval_pkt d + 1 /\
    prev_interval_pkt d' = prev_interval_pkt d /\
    (forall k, k <> saddr ->
       map_lookup_elem (logger s') k = map_lookup_elem (logger s) k) /\
    (forall v, map_lookup_elem (logger s) saddr = Some v ->
       map_lookup_elem (logger s') saddr =
         Some (LoggerValue (lv_prev v) (i32 (lv_cur v + 1)) (lv_entropy v))) /\
    loc_ts s' = Some t /\ blacklist s' = blacklist s /\ glob s' = glob s.
Proof.
  intros Hd Hfit Hb31 Hts Ht0 Ht Hnow Hp Hs Hlen Hbl. unfold xdp_filter_func.
  rewrite decide_False by (unfold sizeof_ethhdr, sizeof_iphdr in *; lia).
  rewrite Hp; cbn [mbind option_bind]. rewrite Z.eqb_refl; cbn [negb].
  rewrite decide_False by lia. rewrite Hs; cbn [mbind option_bind]. rewrite Hbl, Hd.
  destruct (count_interval_fits d Hfit Hb31) as (d' & Hci & Hfit' & Hcur & Hpp & Hth & _).
  rewrite Hci; cbn. rewrite Hts. unfold claim_interval.
  rewrite add64_eq by (unfold invl_ns in *; lia); cbn [mbind option_bind].
  replace (t + invl_ns <? i64 now) with false by lia. cbn.
  do 2 eexists. split; [done|]. cbn. repeat split; try done; try apply Hfit'.
  - intros k Hk. by rewrite count_flow_bump, bump_flow_lookup, decide_False by done.
  - intros v Hv. by rewrite count_flow_bump, bump_flow_lookup, decide_True, Hv by done.
Qed.

(** A packet of a blocked source is dropped and leaves every counter alone. *)
Theorem blocked_packet_dropped now pkt s saddr rule :
  read16 pkt off_h_proto = Some (bpf_htons ETH_P_IP) ->
  read32 pkt (sizeof_ethhdr + off_saddr) = Some saddr ->
  (sizeof_ethhdr + sizeof_iphdr <= length pkt)%nat ->
  blacklist_lookup (blacklist s) (LpmKey 32 saddr) = Some rule ->
  handler now pkt s = Some (log_msg "IP listed on blocklist." s, XDP_DROP).
Proof.
  intros Hp Hs Hlen Hbl. unfold xdp_filter_func.
  rewrite decide_False by (unfold sizeof_ethhdr, sizeof_iphdr in *; lia).
  rewrite Hp; cbn [mbind option_bind]. rewrite Z.eqb_refl; cbn [negb].
  rewrite decide_False by lia. rewrite Hs; cbn [mbind option_bind]. by rewrite Hbl.
Qed.

(** A frame that is not IPv4 is forwarded without being counted, whatever
    the byte order of the host. *)
Theorem non_ipv4_forwarded now pkt s a b :
  Forall byte_ok pkt -> (sizeof_ethhdr <= length pkt)%nat ->
  pkt !! 12%nat = Some a -> pkt !! 13%nat = Some b -> a * 2 ^ 8 + b <> ETH_P_IP ->
  handler now pkt s = Some (s, redirect_map 0 0).
Proof.
  intros Hok Hlen Ha Hb Hne. unfold xdp_filter_func. rewrite decide_False by lia.
  destruct (read16_htons pkt off_h_proto a b ETH_P_IP) as (h & Hh & Hiff); try done.
  rewrite Hh; cbn [mbind option_bind].
  destruct (Z.eqb_spec h (bpf_htons ETH_P_IP)) as [E|E]; [|done].
  apply Hiff in E. by symmetry in E.
Qed.

(** No call changes the blacklist: nothing the program does blocks a source. *)
Theorem blacklist_never_changes now pkt s s' r :
  xdp_filter_func blacklist_lookup redirect_map now pkt s = Some (s', r) -> blacklist s' = blacklist s.
Proof.
  intros Hh. unfold xdp_filter_func in Hh.
  case_decide; [by simplify_eq|].
  apply bind_Some in Hh as (h & _ & Hh). case_match; [by simplify_eq|].
  case_decide; [by simplify_eq|].
  apply bind_Some in Hh as (saddr & _ & Hh).
  case_match; [by simplify_eq|]. case_match; [|by simplify_eq].
  apply bind_Some in Hh as (d' & _ & Hh). cbn in Hh. case_match; [|by simplify_eq].
  apply bind_Some in Hh as ([t' close] & _ & Hh). apply bind_Some in Hh as (s1 & Hs1 & Hh).
  destruct close; simplify_eq; [|done].
  by apply close_interval_effect in Hs1 as (_ & _ & _ & ? & _).
Qed.
End Run.
End Interval.

(** ** Witnesses *)

Module Examples.
Import Capped.

(** Two flows: 1 sent 5 packets in the last interval and 7 in this one,
    2 sent 3 and none. *)
Definition flows : Capped.t Z logger_value :=
  Map 5 (<[1 := LoggerValue 5 7 (FixedPt 0 16)]>
        (<[2 := LoggerValue 3 0 (FixedPt 0 16)]> ∅)).
Definition interval : data_value := DataValue 8 7 100 4.
Definition state : kern (Capped.t Z logger_value) (Z -> option Z) :=
  Kern flows (fun _ => None) (Some interval) (Some 1) (Globals 0 (FixedPt 0 16) (FixedPt 0 0)) [].
Definition lpm (b : Z -> option Z) (k : lpm_v4_key) : option Z := b (address k).
Definition redirect (_ _ : Z) : Z := XDP_REDIRECT.

(** An Ethernet and an IPv4 header from 10.0.0.1. *)
Definition frame (proto : Z) : list Z :=
  replicate 12 0 ++ [proto / 2 ^ 8; proto mod 2 ^ 8] ++ replicate 12 0 ++ [10; 0; 0; 1]
    ++ replicate 4 0.
Definition saddr_le : Z := 0x0100000A.

#[export] Instance host : HostOrder := LittleEndian.

Lemma count_interval_fits_witness :
  exists d', count_interval interval = Some d' /\ counter_fits d' /\
             cur_interval_pkt d' = 8 /\ prev_interval_pkt d' = 8 /\ threshold d' = 100 /\
             4 <= int_bits d' <= 5.
Proof. apply (count_interval_fits interval); unfold counter_fits; vm_compute; intuition discriminate. Defined.

Lemma claim_interval_spec_witness :
  (true = true <-> 1 <> 0 /\ 1 + invl_ns < 2000000000) /\
  (2000000000 = 2000000000 \/ 2000000000 = 1) /\ (true = true -> 2000000000 = 2000000000) /\
  1 <= 2000000000 /\ (2000000000 = 1 \/ 1 + invl_ns < 2000000000).
Proof. apply (claim_interval_spec 2000000000 1 2000000000 true). reflexivity. Defined.

Definition closed : kern (Capped.t Z logger_value) (Z -> option Z) :=
  default state (close_interval interval state).

Lemma close_interval_spec_witness :
  (forall k, match map_lookup_elem (logger state) k with
             | Some v => closed_flow v (map_lookup_elem (logger closed) k)
             | None => map_lookup_elem (logger closed) k = None
             end) /\
  data closed = Some (DataValue 7 0 100 4) /\
  loc_ts closed = loc_ts state /\ blacklist closed = blacklist state /\
  trace closed = trace state /\
  count (glob closed) = 0 /\ entropy_all (glob closed) = FixedPt 0 16.
Proof. apply (close_interval_spec interval state closed). vm_compute. reflexivity. Defined.

Definition busy : kern (Capped.t Z logger_value) (Z -> option Z) :=
  Kern (Map 5 {[1 := LoggerValue 5 32 (FixedPt 0 16)]}) (fun _ => None) (Some interval)
       (Some 1) (Globals 0 (FixedPt 0 16) (FixedPt 0 0)) [].

Lemma busy_flow_undefined_witness : close_interval interval busy = None.
Proof.
  apply (busy_flow_undefined interval busy 1 (LoggerValue 5 32 (FixedPt 0 16)));
    [reflexivity | cbn; lia].
Defined.

Lemma busy_interval_undefined_witness :
  close_interval (DataValue 32 7 100 4) state = None.
Proof.
  apply (busy_interval_undefined (DataValue 32 7 100 4) state 1 (LoggerValue 5 7 (FixedPt 0 16)));
    [reflexivity | cbn; lia].
Defined.

Lemma state_inv : kern_inv state.
Proof.
  split.
  - intros k v. cbn. unfold lookup_elem, flows; cbn.
    rewrite !lookup_insert, lookup_empty. repeat case_decide; intros; simplify_eq; cbn; lia.
  - split; [unfold counter_fits; vm_compute; intuition discriminate|].
    vm_compute. discriminate.
Qed.

Definition after : option (kern (Capped.t Z logger_value) (Z -> option Z) * Z) :=
  xdp_filter_func lpm redirect 500 (frame ETH_P_IP) state.

Lemma xdp_filter_func_inv_witness :
  exists s r, after = Some (s, r) /\ kern_inv s.
Proof.
  destruct after as [[s r]|] eqn:E; [|vm_compute in E; discriminate].
  exists s, r. split; [reflexivity|].
  exact (xdp_filter_func_inv lpm redirect 500 (frame ETH_P_IP) state s r state_inv E).
Defined.

Lemma packet_counted_witness :
  exists s' d',
    xdp_filter_func lpm redirect 500 (frame ETH_P_IP) state = Some (s', redirect 0 0) /\
    data s' = Some d' /\ counter_fits d' /\ cur_interval_pkt d' = 7 + 1 /\
    prev_interval_pkt d' = 8 /\
    (forall k, k <> saddr_le ->
       map_lookup_elem (logger s') k = map_lookup_elem (logger state) k) /\
    (forall v, map_lookup_elem (logger state) saddr_le = Some v ->
       map_lookup_elem (logger s') saddr_le =
         Some (LoggerValue (lv_prev v) (i32 (lv_cur v + 1)) (lv_entropy v))) /\
    loc_ts s' = Some 1 /\ blacklist s' = blacklist state /\ glob s' = glob state.
Proof.
  apply (packet_counted lpm redirect 500 (frame ETH_P_IP) state interval 1 saddr_le);
    first [reflexivity | vm_compute; lia | unfold counter_fits; vm_compute; intuition discriminate].
Defined.

Definition blocking : kern (Capped.t Z logger_value) (Z -> option Z) :=
  Kern flows (fun a => if a =? saddr_le then Some 1 else None) (Some interval) (Some 1)
       (Globals 0 (FixedPt 0 16) (FixedPt 0 0)) [].

Lemma blocked_packet_dropped_witness :
  xdp_filter_func lpm redirect 500 (frame ETH_P_IP) blocking =
    Some (log_msg "IP listed on blocklist." blocking, XDP_DROP).
Proof.
  apply (blocked_packet_dropped lpm redirect 500 (frame ETH_P_IP) blocking saddr_le 1);
    [reflexivity | reflexivity | vm_compute; lia | reflexivity].
Defined.

Lemma non_ipv4_forwarded_witness :
  xdp_filter_func lpm redirect 500 (frame 0x86DD) state = Some (state, redirect 0 0).
Proof.
  apply (non_ipv4_forwarded lpm redirect 500 (frame 0x86DD) state 0x86 0xDD);
    [repeat (constructor; [unfold byte_ok; vm_compute; intuition discriminate|]); constructor
    | vm_compute; lia | reflexivity | reflexivity | discriminate].
Defined.

Lemma blacklist_never_changes_witness :
  exists s r, after = Some (s, r) /\ blacklist s = blacklist state.
Proof.
  destruct after as [[s r]|] eqn:E; [|vm_compute in E; discriminate].
  exists s, r. split; [reflexivity|].
  exact (blacklist_never_changes lpm redirect 500 (frame ETH_P_IP) state s r E).
Defined.
End Examples.
