(* ===== verification/Window.v ===== *)
(** * CPUs racing for the end of an interval

    [xdp_filter_func] runs on every CPU at once.  Each call reads the clock,
    tests the shared time stamp without the lock, and, when the test passes,
    takes the spin lock and tests again ([fully_in-kernel/main/xdp_prog_kern.c],
    lines 191 and 284-302).  This file models that protocol as a step relation
    over the shared time stamp, the lock and the program point of each CPU,
    with [locked_section] of [InKernel] as the body under the lock, and shows
    that an interval is closed at most once. *)

From stdpp Require Import functions.
From S2P Require Import Prelude InKernel.

(** ** States *)

(** Where a CPU is: [Idle] outside the handler, [Testing] before the unlocked
    test, [Waiting] in [bpf_spin_lock], [Locked] at the head of the critical
    section, [Unlocking] before [bpf_spin_unlock], [Closing] in the analysis. *)
Inductive pc :=
  | Idle
  | Testing (ts : Z)
  | Waiting (ts : Z)
  | Locked (ts : Z)
  | Unlocking (close : bool)
  | Closing.

(** [closings] is a ghost history: the time stamps at which an interval was
    claimed for closing, latest first. *)
Record wstate := WState {
  clock : Z; stamp : Z; lock : option nat; pcs : nat -> pc; closings : list Z }.

(** ** Steps *)

Inductive step : wstate -> wstate -> Prop :=
  | step_tick s t :
      clock s <= t -> t + invl_ns < 2 ^ 63 ->
      step s (WState t (stamp s) (lock s) (pcs s) (closings s))
  | step_enter s c :
      pcs s c = Idle ->
      step s (WState (clock s) (stamp s) (lock s) (<[c := Testing (clock s)]> (pcs s)) (closings s))
  | step_test s c ts limit :
      pcs s c = Testing ts -> add64 (stamp s) invl_ns = Some limit ->
      step s (WState (clock s) (stamp s) (lock s)
                     (<[c := if limit <? ts then Waiting ts else Idle]> (pcs s)) (closings s))
  | step_lock s c ts :
      pcs s c = Waiting ts -> lock s = None ->
      step s (WState (clock s) (stamp s) (Some c) (<[c := Locked ts]> (pcs s)) (closings s))
  | step_section s c ts t close :
      pcs s c = Locked ts -> locked_section ts (stamp s) = Some (t, close) ->
      step s (WState (clock s) t (lock s) (<[c := Unlocking close]> (pcs s))
                     (if close then t :: closings s else closings s))
  | step_unlock s c (close : bool) :
      pcs s c = Unlocking close ->
      step s (WState (clock s) (stamp s) None
                     (<[c := if close then Closing else Idle]> (pcs s)) (closings s))
  | step_closed s c :
      pcs s c = Closing ->
      step s (WState (clock s) (stamp s) (lock s) (<[c := Idle]> (pcs s)) (closings s)).

(** The loaded program: a zero time stamp, no lock, no CPU inside. *)
Definition initial (s : wstate) : Prop :=
  0 <= clock s /\ clock s + invl_ns < 2 ^ 63 /\ stamp s = 0 /\ lock s = None /\
  (forall c, pcs s c = Idle) /\ closings s = [].

Inductive reachable : wstate -> Prop :=
  | reach_init s : initial s -> reachable s
  | reach_step s s' : reachable s -> step s s' -> reachable s'.

(** ** The invariant *)

Definition in_section (p : pc) : Prop :=
  match p with Locked _ | Unlocking _ => True | _ => False end.

(** A time stamp a CPU holds was read from the clock. *)
Definition stamp_of (p : pc) : Z :=
  match p with Testing ts | Waiting ts | Locked ts => ts | _ => 0 end.

(** Consecutive closings are more than an interval apart. *)
Fixpoint spaced (l : list Z) : Prop :=
  match l with
  | x :: ((y :: _) as l') => y + invl_ns < x /\ spaced l'
  | _ => True
  end.

Record winv (s : wstate) : Prop := {
  inv_lock : forall c, in_section (pcs s c) <-> lock s = Some c;
  inv_clock : clock s + invl_ns < 2 ^ 63;
  inv_pc : forall c, 0 <= stamp_of (pcs s c) <= clock s;
  inv_stamp : 0 <= stamp s <= clock s;
  inv_head : match closings s with [] => True | x :: _ => stamp s = x /\ 0 < x end;
  inv_spaced : spaced (closings s);
}.

Lemma initial_inv s : initial s -> winv s.
Proof.
  intros (? & ? & Hs & Hl & Hp & Hc). split; rewrite ?Hs, ?Hl, ?Hc; try done; try lia.
  - intros c. by rewrite Hp.
  - intros c. rewrite Hp. cbn. lia.
Qed.

(** Case analysis on whether a CPU is the one that moved. *)
Ltac cpu c c' :=
  destruct (decide (c = c')) as [->|?];
  [rewrite ?fn_lookup_insert in * | rewrite ?fn_lookup_insert_ne in * by done].

Lemma locked_section_cases ts t t' close :
  locked_section ts t = Some (t', close) ->
  (t = 0 /\ t' = ts /\ close = false) \/
  (t <> 0 /\ t' = ts /\ close = true /\ t + invl_ns < ts) \/
  (t' = t /\ close = false).
Proof.
  unfold locked_section. destruct (Z.eqb_spec t 0); intros Hl; [by simplify_eq; left|].
  apply bind_Some in Hl as (limit & [-> _]%chk64_Some & Hl).
  destruct (Z.ltb_spec (t + invl_ns) ts); simplify_eq; [right; left|right; right]; done.
Qed.

Lemma step_inv_lock s s' :
  winv s -> step s s' -> forall c, in_section (pcs s' c) <-> lock s' = Some c.
Proof.
  intros [Hl _ _ _ _ _] Hstep c'. destruct Hstep as
    [s t Hc Ht | s c Hpc | s c ts limit Hpc Hlim | s c ts Hpc Hlk | s c ts t close Hpc Hsec
    | s c close Hpc | s c Hpc]; cbn; [done| | | | | |].
  - cpu c c'; [|done]. by rewrite <- Hl, Hpc.
  - cpu c c'; [|done]. rewrite <- Hl, Hpc. by destruct (limit <? ts).
  - cpu c c'; [done|]. rewrite Hl, Hlk. split; congruence.
  - cpu c c'; [|done]. by rewrite <- Hl, Hpc.
  - pose proof (proj1 (Hl c) ltac:(by rewrite Hpc)) as Hc.
    cpu c c'; [by destruct close|]. rewrite Hl, Hc. split; congruence.
  - cpu c c'; [|done]. by rewrite <- Hl, Hpc.
Qed.

Lemma step_inv_pc s s' :
  winv s -> step s s' -> forall c, 0 <= stamp_of (pcs s' c) <= clock s'.
Proof.
  intros [_ _ Hp Hs _ _] Hstep c'. pose proof (Hp c') as Hc'. destruct Hstep as
    [s t Hc Ht | s c Hpc | s c ts limit Hpc Hlim | s c ts Hpc Hlk | s c ts t close Hpc Hsec
    | s c close Hpc | s c Hpc]; cbn; [lia| | | | | |]; cpu c c'; try done; cbn; try lia.
  - rewrite Hpc in Hc'. destruct (limit <? ts); cbn in *; lia.
  - by rewrite Hpc in Hc'.
  - destruct close; cbn; lia.
Qed.

Lemma step_inv s s' : winv s -> step s s' -> winv s'.
Proof.
  intros Hi Hstep. split; [by apply (step_inv_lock s)| |by apply (step_inv_pc s)| | |];
  destruct Hi as [_ Hk Hp Hs Hh Hsp];
  destruct Hstep as [s t Hc Ht | | | | s c ts t close Hpc Hsec | |]; cbn; try done; try lia;
  pose proof (Hp c) as Hc; rewrite Hpc in Hc; cbn in Hc;
  apply locked_section_cases in Hsec as [(? & -> & ->)|[(? & -> & -> & ?)|[-> ->]]];
    try done; try lia.
  - destruct (closings s); [done|]. lia.
  - unfold invl_ns in *. lia.
  - cbn. destruct (closings s) as [|x l]; [done|]. destruct Hh as [<- _]. done.
Qed.

Lemma reachable_inv s : reachable s -> winv s.
Proof. induction 1; eauto using initial_inv, step_inv. Qed.

(** ** Theorems *)

Lemma spaced_lookup l i j x y :
  spaced l -> (i < j)%nat -> l !! i = Some x -> l !! j = Some y -> y + invl_ns < x.
Proof.
  revert i j x y. induction l as [|a l IH]; intros i j x y Hl Hij Hi Hj; [done|].
  destruct j as [|j]; [lia|]. simpl in Hj.
  assert (Hl' : spaced l) by (destruct l; [done|apply Hl]).
  destruct i as [|i]; [|apply (IH i j); [done|lia|done|done]].
  simpl in Hi. simplify_eq. destruct l as [|b l]; [done|]. destruct Hl as [Hb _].
  destruct j as [|j]; simpl in Hj; [by simplify_eq|].
  specialize (IH 0%nat (S j) b y Hl' ltac:(lia) eq_refl Hj). unfold invl_ns in *. lia.
Qed.

(** C1. However the CPUs interleave, two closings are more than [invl_ns] apart. *)
Theorem closings_spaced s i j x y :
  reachable s -> (i < j)%nat -> closings s !! i = Some x -> closings s !! j = Some y ->
  y + invl_ns < x.
Proof. intros Hr. apply spaced_lookup, inv_spaced, reachable_inv, Hr. Qed.

(** Two CPUs are never both between [bpf_spin_lock] and [bpf_spin_unlock]. *)
Theorem mutual_exclusion s c c' :
  reachable s -> in_section (pcs s c) -> in_section (pcs s c') -> c = c'.
Proof.
  intros Hr Hc Hc'. pose proof (inv_lock _ (reachable_inv _ Hr)) as Hl.
  rewrite Hl in Hc, Hc'. congruence.
Qed.

(** A CPU inside the handler goes to another point of it, or leaves it; no other CPU
    moves. *)
Definition cpu_moves (s : wstate) : Prop :=
  exists c p s', pcs s c <> Idle /\ p <> pcs s c /\ step s s' /\ pcs s' = <[c := p]> (pcs s).

(** C40. No deadlock: while some CPU is in the handler, some CPU inside the handler
    can take its next step, and that step changes its program point. *)
Theorem no_deadlock s c :
  reachable s -> pcs s c <> Idle -> cpu_moves s.
Proof.
  intros Hr Hc. pose proof (reachable_inv _ Hr) as [Hl Hk Hp Hs _ _].
  assert (Hadd : add64 (stamp s) invl_ns = Some (stamp s + invl_ns))
    by (apply add64_eq; unfold invl_ns in *; lia).
  assert (Hsec : forall c ts, pcs s c = Locked ts -> cpu_moves s).
  { intros c' ts Hpc.
    assert (exists t close, locked_section ts (stamp s) = Some (t, close)) as (t & close & E).
    { unfold locked_section. case_match; [eauto|]. rewrite Hadd; cbn. case_match; eauto. }
    exists c', (Unlocking close). eexists. rewrite Hpc. split; [done|]. split; [done|].
    split; [by eapply step_section|done]. }
  assert (Hun : forall c b, pcs s c = Unlocking b -> cpu_moves s).
  { intros c' b Hpc. exists c', (if b then Closing else Idle). eexists. rewrite Hpc.
    split; [done|]. split; [by destruct b|]. split; [by eapply step_unlock|done]. }
  destruct (pcs s c) as [|ts|ts|ts|b|] eqn:Hpc; [done| | |eauto|eauto|].
  - exists c, (if stamp s + invl_ns <? ts then Waiting ts else Idle). eexists. rewrite Hpc.
    split; [done|]. split; [by destruct (_ <? ts)|]. split; [by eapply step_test|done].
  - destruct (lock s) as [h|] eqn:Hlk.
    + pose proof (proj2 (Hl h) eq_refl) as Hh. destruct (pcs s h) eqn:Eh; try done; eauto.
    + exists c, (Locked ts). eexists. rewrite Hpc. split; [done|]. split; [done|].
      split; [by eapply step_lock|done].
  - exists c, Idle. eexists. rewrite Hpc. split; [done|]. split; [done|]. split; [by eapply step_closed|done].
Qed.

(** ** A run *)

(** One CPU passing through the whole protocol at time [t]. *)
Lemma run_pass s t :
  reachable s -> pcs s 0%nat = Idle -> lock s = None ->
  clock s <= t -> t + invl_ns < 2 ^ 63 -> stamp s + invl_ns < t ->
  exists p, p 0%nat = Idle /\
    reachable (WState t t None p (if stamp s =? 0 then closings s else t :: closings s)).
Proof.
  intros Hr Hp Hl Hc Ht Hs. pose proof (inv_stamp _ (reachable_inv _ Hr)).
  assert (Hadd : add64 (stamp s) invl_ns = Some (stamp s + invl_ns))
    by (apply add64_eq; unfold invl_ns in *; lia).
  eapply reach_step in Hr; [|by apply (step_tick s t)].
  eapply reach_step in Hr; [|by apply (step_enter _ 0%nat)]. cbn in Hr.
  eapply reach_step in Hr;
    [|apply (step_test _ 0%nat t (stamp s + invl_ns)); [cbn; by rewrite fn_lookup_insert|done]].
  cbn in Hr. replace (stamp s + invl_ns <? t) with true in Hr by lia.
  eapply reach_step in Hr; [|apply (step_lock _ 0%nat t); [cbn; by rewrite fn_lookup_insert|done]].
  cbn in Hr.
  assert (Hsec : locked_section t (stamp s) = Some (t, negb (stamp s =? 0))).
  { unfold locked_section. case_match; [done|]. rewrite Hadd; cbn.
    by replace (stamp s + invl_ns <? t) with true by lia. }
  eapply reach_step in Hr;
    [|apply (step_section _ 0%nat t); [cbn; by rewrite fn_lookup_insert|exact Hsec]].
  eapply reach_step in Hr; [|apply (step_unlock _ 0%nat); cbn; by rewrite fn_lookup_insert].
  cbn in Hr. destruct (stamp s =? 0); cbn in Hr.
  - eexists; split; [|exact Hr]. cbn. by rewrite fn_lookup_insert.
  - eapply reach_step in Hr; [|apply (step_closed _ 0%nat); cbn; by rewrite fn_lookup_insert].
    eexists; split; [|exact Hr]. cbn. by rewrite fn_lookup_insert.
Qed.

Lemma run_two_closings :
  exists s, reachable s /\ pcs s 0%nat = Idle /\ lock s = None /\
            closings s = [6000000000; 4000000000].
Proof.
  assert (Hr : reachable (WState 0 0 None (fun _ => Idle) [])) by (by apply reach_init).
  destruct (run_pass _ 2000000000 Hr) as (p1 & Hp1 & Hr1); [done..|].
  destruct (run_pass _ 4000000000 Hr1) as (p2 & Hp2 & Hr2); [done..|].
  destruct (run_pass _ 6000000000 Hr2) as (p3 & Hp3 & Hr3); [done..|].
  by eexists; split; [exact Hr3|].
Qed.

(** CPU 1 entering after that run. *)
Lemma run_entered : exists s, reachable s /\ pcs s 1%nat <> Idle.
Proof.
  assert (Hr : reachable (WState 0 0 None (fun _ => Idle) [])) by (by apply reach_init).
  eapply reach_step in Hr; [|by apply (step_enter _ 1%nat)].
  eexists; split; [exact Hr|]. cbn. by rewrite fn_lookup_insert.
Qed.

(** CPU 0 inside its critical section. *)
Lemma run_locked : exists s, reachable s /\ in_section (pcs s 0%nat).
Proof.
  assert (Hr : reachable (WState 2000000000 0 None (fun _ => Idle) [])) by (by apply reach_init).
  eapply reach_step in Hr; [|by apply (step_enter _ 0%nat)].
  eapply reach_step in Hr; [|apply (step_test _ 0%nat 2000000000 1000000000); done].
  eapply reach_step in Hr; [|apply (step_lock _ 0%nat 2000000000); done].
  eexists; split; [exact Hr|done].
Qed.

Lemma closings_spaced_witness :
  exists s, reachable s /\ closings s = [6000000000; 4000000000] /\
            4000000000 + invl_ns < 6000000000.
Proof.
  destruct run_two_closings as (s & Hr & _ & _ & E). exists s. split; [exact Hr|].
  split; [exact E|].
  apply (closings_spaced s 0 1 6000000000 4000000000 Hr); [lia|rewrite E; reflexivity..].
Defined.

Lemma mutual_exclusion_witness :
  exists s, reachable s /\ in_section (pcs s 0%nat) /\ 0%nat = 0%nat.
Proof.
  destruct run_locked as (s & Hr & Hs). exists s. split; [exact Hr|]. split; [exact Hs|].
  exact (mutual_exclusion s 0 0 Hr Hs Hs).
Defined.

Lemma no_deadlock_witness : exists s, reachable s /\ cpu_moves s.
Proof.
  destruct run_entered as (s & Hr & Hs). exists s. split; [exact Hr|].
  exact (no_deadlock s 1 Hr Hs).
Defined.
