(* ===== verification/UserKern.v ===== *)
(** * The counting program of the user-space variant

    Models [user+ebpf/main/xdp_prog_kern.c].  The program only counts packets
    and drops those of blocked sources; [Loader] models the user-space process
    that reads the counts once a second.  Unlike the in-kernel detector it has
    no undefined arithmetic, and it counts a packet before it drops it. *)

From S2P Require Import Prelude Packet BpfMap Flows.
From S2P Require InKernel.
Import InKernel (lpm_v4_key(..), XDP_ABORTED, XDP_DROP, XDP_REDIRECT).

(** ** Data *)

Record logger_value := LoggerValue { lv_prev : Z; lv_cur : Z; lv_entropy : Z }.

Record data_value := DataValue { prev_interval_pkt : Z; cur_interval_pkt : Z }.

#[export] Instance logger_value_eq_dec : EqDecision logger_value.
Proof. solve_decision. Defined.

Record kern (M B : Type) := Kern {
  logger : M; blacklist : B; data : option data_value; trace : list string }.
#[global] Arguments Kern {M B}.
#[global] Arguments logger {M B}.
#[global] Arguments blacklist {M B}.
#[global] Arguments data {M B}.
#[global] Arguments trace {M B}.

Definition new_value : logger_value := LoggerValue 0 1 0.

#[export] Instance logger_flow : FlowValue logger_value := {
  flow_cur := lv_cur;
  flow_bump v := LoggerValue (lv_prev v) (i32 (lv_cur v + 1)) (lv_entropy v);
  flow_new := new_value;
}.

#[export] Instance logger_flow_laws : FlowValueLaws logger_value.
Proof. done. Qed.

Definition log_msg {M B} (msg : string) (s : kern M B) : kern M B :=
  Kern (logger s) (blacklist s) (data s) (trace s ++ [msg]).

(** ** The handler *)

Section Handler.
Context `{HostOrder} {M B : Type} `{!BpfHash M Z logger_value}.
Context (blacklist_lookup : B -> lpm_v4_key -> option Z).
Context (redirect_map : Z -> Z -> Z).

Definition count_flow (saddr : Z) (m : M) : M :=
  match map_lookup_elem m saddr with
  | Some v =>
      map_store m saddr (LoggerValue (lv_prev v) (i32 (lv_cur v + 1)) (lv_entropy v))
  | None => fst (map_update_elem m saddr new_value BPF_ANY)
  end.

Definition xdp_filter_func (pkt : list Z) (s : kern M B) : option (kern M B * Z) :=
  if decide (length pkt < sizeof_ethhdr)%nat then
    Some (log_msg "not ethernet frame, dropped" s, XDP_ABORTED)
  else
  h_proto ← read16 pkt off_h_proto;
  if negb (h_proto =? bpf_htons ETH_P_IP) then Some (s, redirect_map 0 0) else
  if decide (length pkt < sizeof_ethhdr + sizeof_iphdr)%nat then
    Some (log_msg "dropped" s, XDP_ABORTED)
  else
  saddr ← read32 pkt (sizeof_ethhdr + off_saddr);
  let drop_flag :=
    match blacklist_lookup (blacklist s) (LpmKey 32 saddr) with
    | Some _ => 1
    | None => 0
    end in
  match data s with
  | None => Some (log_msg "Error at reading data, the first one" s, XDP_ABORTED)
  | Some tmp =>
      let tmp := DataValue (prev_interval_pkt tmp) (i32 (cur_interval_pkt tmp + 1)) in
      let s := Kern (count_flow saddr (logger s)) (blacklist s) (Some tmp) (trace s) in
      if drop_flag =? 1 then Some (s, XDP_DROP) else Some (s, redirect_map 0 0)
  end.
End Handler.

(** ** Theorems *)

Section Correct.
Context `{HostOrder} {M B : Type} `{!BpfHash M Z logger_value} `{!BpfHashLaws M Z logger_value}.
Context (blacklist_lookup : B -> lpm_v4_key -> option Z) (redirect_map : Z -> Z -> Z).
Local Abbreviation handler := (xdp_filter_func (M := M) blacklist_lookup redirect_map).

Lemma user_count_flow_bump saddr (m : M) : count_flow saddr m = bump_flow saddr m.
Proof. done. Qed.

(** The bounds checks suffice: every read of the packet is inside it, for
    packets of any length. *)
Theorem user_filter_total pkt s : is_Some (handler pkt s).
Proof.
  unfold xdp_filter_func. case_decide as Hlen; [by eexists|].
  unfold read16. rewrite read_bytes_Some by (unfold sizeof_ethhdr, off_h_proto in *; lia).
  cbn [fmap option_fmap option_map mbind option_bind]. case_match; [by eexists|].
  case_decide as Hlen'; [by eexists|].
  unfold read32. rewrite read_bytes_Some
    by (unfold sizeof_ethhdr, sizeof_iphdr, off_saddr in *; lia).
  cbn [fmap option_fmap option_map mbind option_bind].
  repeat case_match; by eexists.
Qed.

(** The invariant: no count is negative and the flows account for at most the
    packets of the interval. *)
Definition kern_inv (s : kern M B) : Prop :=
  counts_ok (logger s) /\
  match data s with None => True | Some d => flow_total (logger s) <= cur_interval_pkt d end.

(** Every call that does not overflow the interval counter keeps the invariant: the
    flows never account for more packets than the interval counter. *)
Theorem user_filter_inv pkt s s' r d :
  kern_inv s -> data s = Some d -> cur_interval_pkt d + 1 < 2 ^ 31 ->
  handler pkt s = Some (s', r) -> kern_inv s'.
Proof.
  intros [Hn Hd] Ed Hlt Hh. rewrite Ed in Hd. unfold xdp_filter_func in Hh.
  assert (Hs : kern_inv s) by (split; rewrite ?Ed; done).
  assert (Hlog : forall msg, kern_inv (log_msg msg s)) by (intros; split; cbn; rewrite ?Ed; done).
  case_decide; [by simplify_eq|].
  apply bind_Some in Hh as (h & _ & Hh). case_match; [by simplify_eq|].
  case_decide; [by simplify_eq|].
  apply bind_Some in Hh as (saddr & _ & Hh). rewrite Ed in Hh.
  pose proof (flow_total_nonneg _ Hn).
  assert (kern_inv (Kern (count_flow saddr (logger s)) (blacklist s)
      (Some (DataValue (prev_interval_pkt d) (i32 (cur_interval_pkt d + 1)))) (trace s))).
  { split; cbn; rewrite user_count_flow_bump; [apply bump_flow_ok; [done|lia]|].
    pose proof (bump_flow_total_bounds saddr _ Hn ltac:(lia)). rewrite i32_id; lia. }
  case_match; by simplify_eq.
Qed.

(** A blocked packet is dropped, and counted like any other: the state after
    it is the one an unblocked packet would leave. *)
Theorem blocked_packet_counted pkt s d saddr rule :
  data s = Some d ->
  read16 pkt off_h_proto = Some (bpf_htons ETH_P_IP) ->
  read32 pkt (sizeof_ethhdr + off_saddr) = Some saddr ->
  (sizeof_ethhdr + sizeof_iphdr <= length pkt)%nat ->
  blacklist_lookup (blacklist s) (LpmKey 32 saddr) = Some rule ->
  exists s', handler pkt s = Some (s', XDP_DROP) /\
    xdp_filter_func (fun _ _ => None) redirect_map pkt s = Some (s', redirect_map 0 0) /\
    data s' = Some (DataValue (prev_interval_pkt d) (i32 (cur_interval_pkt d + 1))) /\
    logger s' = count_flow saddr (logger s).
Proof.
  intros Hd Hp Hs Hlen Hbl. unfold xdp_filter_func.
  rewrite !decide_False by (unfold sizeof_ethhdr, sizeof_iphdr in *; lia).
  rewrite Hp; cbn [mbind option_bind]. rewrite Z.eqb_refl; cbn [negb].
  rewrite Hs; cbn [mbind option_bind]. rewrite Hbl, Hd. by eexists.
Qed.
End Correct.

(** ** Witnesses *)

Module Examples.
Import Capped.
#[export] Instance host : HostOrder := BigEndian.

Definition frame : list Z :=
  replicate 12 0 ++ [8; 0] ++ replicate 12 0 ++ [10; 0; 0; 1] ++ replicate 4 0.
Definition saddr : Z := 0x0A000001.
Definition state : kern (Capped.t Z logger_value) (Z -> option Z) :=
  Kern (Map 2 {[saddr := LoggerValue 4 2 0]}) (fun a => if a =? saddr then Some 1 else None)
       (Some (DataValue 9 3)) [].
Definition lpm (b : Z -> option Z) (k : lpm_v4_key) : option Z := b (InKernel.address k).
Definition redirect (_ _ : Z) : Z := XDP_REDIRECT.

Lemma user_state_inv : kern_inv state.
Proof.
  split; [|vm_compute; discriminate]. intros k v.
  change (map_lookup_elem (logger state) k)
    with (({[saddr := LoggerValue 4 2 0]} : gmap Z logger_value) !! k).
  rewrite lookup_singleton. case_decide; intros; simplify_eq; cbn; lia.
Qed.

Definition after := xdp_filter_func lpm redirect frame state.

Lemma user_filter_inv_witness : exists s r, after = Some (s, r) /\ kern_inv s.
Proof.
  destruct after as [[s r]|] eqn:E; [|vm_compute in E; discriminate].
  exists s, r. split; [reflexivity|].
  apply (user_filter_inv lpm redirect frame state s r (DataValue 9 3) user_state_inv eq_refl);
    [cbn; lia|exact E].
Defined.

Lemma blocked_packet_counted_witness :
  exists s', after = Some (s', XDP_DROP) /\
    xdp_filter_func (fun _ _ => None) redirect frame state = Some (s', redirect 0 0) /\
    data s' = Some (DataValue 9 (i32 (3 + 1))) /\ logger s' = count_flow saddr (logger state).
Proof.
  apply (blocked_packet_counted lpm redirect frame state (DataValue 9 3) saddr 1);
    first [reflexivity | vm_compute; lia].
Defined.
End Examples.
