(* ===== verification/Params.v ===== *)
(** * Command line of the loaders

    Models [user+ebpf/main/common/common_params.c] (module [User]) and its
    version in [fully_in-kernel/common] (module [Kernel]); the help printers and
    [option_wrappers_to_options] are the same text in both.  [getopt_long] is an
    input: the list of the (option, argument) pairs it returns before -1.  [None]
    is an undefined behaviour of C. *)

From S2P Require Import Prelude.
From Stdlib Require Import Ascii String.

Local Open Scope string_scope.
Local Open Scope Z_scope.

(** ** C strings and buffers *)

Definition NUL : ascii := Ascii.zero.

(** A [char] array is the list of its characters; a C string argument has no NUL
    and is a [string]. *)
Definition strlen (s : string) : Z := Z.of_nat (String.length s).

(** [strncpy(dest, src, n)] for a [dest] of [n] characters: padded with NUL, or
    cut without a terminator. *)
Definition strncpy (src : string) (n : nat) : list ascii :=
  let cs := list_ascii_of_string src in
  take n cs ++ replicate (n - List.length cs) NUL.

(** The string a [char] array holds: undefined without a terminator. *)
Fixpoint cstr (buf : list ascii) : option string :=
  match buf with
  | [] => None
  | c :: buf => if decide (c = NUL) then Some "" else String c <$> cstr buf
  end.

Definition is_digit (c : ascii) : bool :=
  let n := Z.of_nat (nat_of_ascii c) in (48 <=? n) && (n <=? 57).
Definition is_space (c : ascii) : bool :=
  let n := Z.of_nat (nat_of_ascii c) in (n =? 32) || ((9 <=? n) && (n <=? 13)).

Fixpoint digits (cs : list ascii) (acc : Z) : Z :=
  match cs with
  | c :: cs => if is_digit c then digits cs (10 * acc + (Z.of_nat (nat_of_ascii c) - 48)) else acc
  | [] => acc
  end.

Fixpoint skip_space (cs : list ascii) : list ascii :=
  match cs with c :: cs' => if is_space c then skip_space cs' else cs | [] => [] end.

(** [atoi]: undefined when the value is not an [int]. *)
Definition atoi (s : string) : option Z :=
  match skip_space (list_ascii_of_string s) with
  | "-"%char :: cs => chk32 (- digits cs 0)
  | "+"%char :: cs => chk32 (digits cs 0)
  | cs => chk32 (digits cs 0)
  end.

(** [printf("%-22s", s)]. *)
Fixpoint spaces (n : nat) : string := match n with O => "" | S n => String " " (spaces n) end.
Definition pad_right (n : nat) (s : string) : string :=
  (s +:+ spaces (n - String.length s))%string.

(** ** Options ([struct option], [struct option_wrapper]) *)

(** A pointer to a string is [None] when NULL. *)
Record option_ := Option { name : option string; has_arg : Z; val : Z }.
Record option_wrapper := OptionWrapper {
  opt : option_;
  help : option string;
  metavar : option string;
  required : bool;
}.

Definition BUFSIZE : nat := 30.
Definition EXIT_FAIL_OPTION : Z := 2.

(** One line of the help.  The second [snprintf] writes at [buf + pos], outside
    [buf] when the name is too long; the size it is given is then huge. *)
Definition print_option (w : option_wrapper) (nm : string) : option string :=
  let short := if 64 <? val (opt w)
               then " -" +:+ String (ascii_of_nat (Z.to_nat (val (opt w)))) "," else "    " in
  let long := " --" +:+ nm in
  let pos := String.length long in
  let buf := substring 0 (BUFSIZE - 1) long in
  buf ← match metavar w with
        | None => Some buf
        | Some m =>
            if decide (BUFSIZE < pos)%nat then None
            else if decide (BUFSIZE - pos = 0)%nat then Some buf
            else Some (buf +:+ substring 0 (BUFSIZE - pos - 1) (" " +:+ m))
        end;
  h ← help w;
  Some (short +:+ pad_right 22 buf +:+ "  " +:+ h +:+ String "010" "").

(** The array is scanned up to an entry without a name; there must be one. *)
Fixpoint _print_options (long_options : list option_wrapper) (req : bool) : option string :=
  match long_options with
  | [] => None
  | w :: ws =>
      match name (opt w) with
      | None => Some ""
      | Some nm =>
          if negb (Bool.eqb (required w) req) then _print_options ws req else
          line ← print_option w nm;
          rest ← _print_options ws req;
          Some (line +:+ rest)
      end
  end.

Definition newline : string := String "010" "".

Definition usage (prog_name doc : string) (long_options : list option_wrapper) (full : bool)
    : option string :=
  let head := "Usage: " +:+ prog_name +:+ " [options]" +:+ newline in
  if negb full
  then Some (head +:+ "Use --help (or -h) to see full option list." +:+ newline) else
  r ← _print_options long_options true;
  o ← _print_options long_options false;
  Some (head +:+ newline +:+ "DOCUMENTATION:" +:+ newline +:+ " " +:+ doc +:+ newline
          +:+ "Required options:" +:+ newline +:+ r +:+ newline
          +:+ "Other options:" +:+ newline +:+ o +:+ newline).

(** The counting loop: the number of entries before the first without a name. *)
Fixpoint count_options (wrapper : list option_wrapper) : option nat :=
  match wrapper with
  | [] => None
  | w :: ws => match name (opt w) with None => Some O | Some _ => S <$> count_options ws end
  end.

(** [malloc_ok] tells whether the allocation succeeds; the function then answers
    0 and stores an array of [num] entries, or answers -1. *)
Definition option_wrappers_to_options (malloc_ok : bool) (wrapper : list option_wrapper)
    : option (Z * option (list option_)) :=
  num ← count_options wrapper;
  if negb malloc_ok then Some (-1, None)
  else Some (0, Some (opt <$> take num wrapper)).

(** ** The option loop, common to both versions *)

(** An option and its argument ([optarg] is "" when there is none). *)
Definition event : Type := Z * string.

(** [case 'x']. *)
Definition chr (c : ascii) : Z := Z.of_nat (nat_of_ascii c).

(** What a [switch] does: go on with a configuration and a value of [verbose],
    jump to the usage message, or be undefined. *)
Inductive next (C : Type) := Next (c : C) (verbose : bool) | Usage (full_help : bool) | Undef.
Arguments Next {C}.
Arguments Usage {C}.
Arguments Undef {C}.

(** How [parse_cmdline_args] ends: it returns, or exits after printing. *)
Inductive parse_result (C : Type) :=
  | Parsed (c : C) (verbose : bool)
  | Exited (code : Z) (stdout : string).
Arguments Parsed {C}.
Arguments Exited {C}.

Section Loop.
Context {C : Type} (switch : event -> C -> bool -> next C).

Fixpoint parse_loop (evs : list event) (c : C) (verbose : bool) : next C :=
  match evs with
  | [] => Next c verbose
  | e :: evs =>
      match switch e c verbose with
      | Next c verbose => parse_loop evs c verbose
      | stop => stop
      end
  end.

Definition parse_args (malloc_ok : bool) (evs : list event) (prog_name doc : string)
    (options_wrapper : list option_wrapper) (cfg : C) (verbose : bool)
    : option (parse_result C) :=
  '(err, _) ← option_wrappers_to_options malloc_ok options_wrapper;
  if negb (err =? 0) then Some (Exited EXIT_FAIL_OPTION "") else
  match parse_loop evs cfg verbose with
  | Next cfg verbose => Some (Parsed cfg verbose)
  | Usage full =>
      text ← usage prog_name doc options_wrapper full;
      Some (Exited EXIT_FAIL_OPTION text)
  | Undef => None
  end.

(** A quantity that each option changes by [g] is, at the end, folded by [g]. *)
Lemma parse_loop_fold {A} (f : C -> A) (g : event -> A -> A) evs c v c' v' :
  (forall e c v c' v', switch e c v = Next c' v' -> f c' = g e (f c)) ->
  parse_loop evs c v = Next c' v' -> f c' = fold_left (fun a e => g e a) evs (f c).
Proof.
  intros Hstep. revert c v. induction evs as [|e evs IH]; intros c v; cbn.
  { by intros [= -> ->]. }
  destruct (switch e c v) as [c1 v1| |] eqn:E; [|done|done].
  intros Hrun. rewrite (IH _ _ Hrun). by rewrite (Hstep _ _ _ _ _ E).
Qed.

(** A property every option preserves holds at the end. *)
Lemma parse_loop_inv (P : C -> Prop) evs c v c' v' :
  (forall e c v c' v', switch e c v = Next c' v' -> P c -> P c') ->
  parse_loop evs c v = Next c' v' -> P c -> P c'.
Proof.
  intros Hstep. revert c v. induction evs as [|e evs IH]; intros c v; cbn.
  { by intros [= -> ->]. }
  destruct (switch e c v) as [c1 v1| |] eqn:E; [|done|done]. eauto.
Qed.

Lemma parse_loop_app evs1 evs2 c v :
  parse_loop (evs1 ++ evs2) c v =
    match parse_loop evs1 c v with Next c v => parse_loop evs2 c v | stop => stop end.
Proof.
  revert c v. induction evs1 as [|e evs1 IH]; intros c v; cbn; [done|].
  by destruct (switch e c v).
Qed.

Lemma parse_args_Parsed m evs p d w c v c' v' :
  parse_args m evs p d w c v = Some (Parsed c' v') -> parse_loop evs c v = Next c' v'.
Proof.
  unfold parse_args. destruct (option_wrappers_to_options m w) as [[err o]|]; [|done].
  cbn [mbind option_bind]. case_match; [done|].
  destruct (parse_loop evs c v); [by intros [= -> ->]| |done].
  by destruct (usage _ _ _ _).
Qed.
End Loop.

(** [XDP_COPY] and [XDP_ZEROCOPY] of [linux/if_xdp.h], the flags of
    [linux/if_link.h], [IF_NAMESIZE]. *)
Definition XDP_COPY : Z := 2.
Definition XDP_ZEROCOPY : Z := 4.
Definition XDP_FLAGS_UPDATE_IF_NOEXIST : Z := 1.
Definition XDP_FLAGS_SKB_MODE : Z := 2.
Definition XDP_FLAGS_DRV_MODE : Z := 4.
Definition XDP_FLAGS_HW_MODE : Z := 8.
Definition XDP_FLAGS_MODES : Z :=
  Z.lor (Z.lor XDP_FLAGS_SKB_MODE XDP_FLAGS_DRV_MODE) XDP_FLAGS_HW_MODE.
Definition IF_NAMESIZE : nat := 16.

(** ** The version of [user+ebpf] *)

Module User.
(** [ifname] and [redirect_ifname] tell whether the pointer designates the
    buffer beside it (it is NULL otherwise). *)
Record config := Config {
  xdp_flags : Z;
  ifindex : Z;
  ifname : bool;
  ifname_buf : list ascii;
  redirect_ifindex : Z;
  redirect_ifname : bool;
  redirect_ifname_buf : list ascii;
  do_unload : bool;
  reuse_maps : bool;
  pin_dir : list ascii;
  filename : list ascii;
  progsec : list ascii;
  src_mac : list ascii;
  dest_mac : list ascii;
  xsk_bind_flags : Z;
  xsk_if_queue : Z;
  xsk_poll_mode : bool;
}.

Definition set_xdp_flags (fl : Z) (c : config) : config :=
  Config fl (ifindex c) (ifname c) (ifname_buf c) (redirect_ifindex c) (redirect_ifname c)
    (redirect_ifname_buf c) (do_unload c) (reuse_maps c) (pin_dir c) (filename c)
    (progsec c) (src_mac c) (dest_mac c) (xsk_bind_flags c) (xsk_if_queue c)
    (xsk_poll_mode c).
Definition set_dev (ix : Z) (buf : list ascii) (c : config) : config :=
  Config (xdp_flags c) ix true buf (redirect_ifindex c) (redirect_ifname c)
    (redirect_ifname_buf c) (do_unload c) (reuse_maps c) (pin_dir c) (filename c)
    (progsec c) (src_mac c) (dest_mac c) (xsk_bind_flags c) (xsk_if_queue c)
    (xsk_poll_mode c).
Definition set_redirect (ix : Z) (buf : list ascii) (c : config) : config :=
  Config (xdp_flags c) (ifindex c) (ifname c) (ifname_buf c) ix true buf
    (do_unload c) (reuse_maps c) (pin_dir c) (filename c) (progsec c) (src_mac c)
    (dest_mac c) (xsk_bind_flags c) (xsk_if_queue c) (xsk_poll_mode c).
Definition set_do_unload (b : bool) (c : config) : config :=
  Config (xdp_flags c) (ifindex c) (ifname c) (ifname_buf c) (redirect_ifindex c)
    (redirect_ifname c) (redirect_ifname_buf c) b (reuse_maps c) (pin_dir c) (filename c)
    (progsec c) (src_mac c) (dest_mac c) (xsk_bind_flags c) (xsk_if_queue c)
    (xsk_poll_mode c).
Definition set_reuse_maps (b : bool) (c : config) : config :=
  Config (xdp_flags c) (ifindex c) (ifname c) (ifname_buf c) (redirect_ifindex c)
    (redirect_ifname c) (redirect_ifname_buf c) (do_unload c) b (pin_dir c) (filename c)
    (progsec c) (src_mac c) (dest_mac c) (xsk_bind_flags c) (xsk_if_queue c)
    (xsk_poll_mode c).
Definition set_filename (buf : list ascii) (c : config) : config :=
  Config (xdp_flags c) (ifindex c) (ifname c) (ifname_buf c) (redirect_ifindex c)
    (redirect_ifname c) (redirect_ifname_buf c) (do_unload c) (reuse_maps c) (pin_dir c)
    buf (progsec c) (src_mac c) (dest_mac c) (xsk_bind_flags c) (xsk_if_queue c)
    (xsk_poll_mode c).
Definition set_progsec (buf : list ascii) (c : config) : config :=
  Config (xdp_flags c) (ifindex c) (ifname c) (ifname_buf c) (redirect_ifindex c)
    (redirect_ifname c) (redirect_ifname_buf c) (do_unload c) (reuse_maps c) (pin_dir c)
    (filename c) buf (src_mac c) (dest_mac c) (xsk_bind_flags c) (xsk_if_queue c)
    (xsk_poll_mode c).
Definition set_src_mac (buf : list ascii) (c : config) : config :=
  Config (xdp_flags c) (ifindex c) (ifname c) (ifname_buf c) (redirect_ifindex c)
    (redirect_ifname c) (redirect_ifname_buf c) (do_unload c) (reuse_maps c) (pin_dir c)
    (filename c) (progsec c) buf (dest_mac c) (xsk_bind_flags c) (xsk_if_queue c)
    (xsk_poll_mode c).
Definition set_dest_mac (buf : list ascii) (c : config) : config :=
  Config (xdp_flags c) (ifindex c) (ifname c) (ifname_buf c) (redirect_ifindex c)
    (redirect_ifname c) (redirect_ifname_buf c) (do_unload c) (reuse_maps c) (pin_dir c)
    (filename c) (progsec c) (src_mac c) buf (xsk_bind_flags c) (xsk_if_queue c)
    (xsk_poll_mode c).
Definition set_xsk_bind_flags (fl : Z) (c : config) : config :=
  Config (xdp_flags c) (ifindex c) (ifname c) (ifname_buf c) (redirect_ifindex c)
    (redirect_ifname c) (redirect_ifname_buf c) (do_unload c) (reuse_maps c) (pin_dir c)
    (filename c) (progsec c) (src_mac c) (dest_mac c) fl (xsk_if_queue c)
    (xsk_poll_mode c).
Definition set_xsk_if_queue (n : Z) (c : config) : config :=
  Config (xdp_flags c) (ifindex c) (ifname c) (ifname_buf c) (redirect_ifindex c)
    (redirect_ifname c) (redirect_ifname_buf c) (do_unload c) (reuse_maps c) (pin_dir c)
    (filename c) (progsec c) (src_mac c) (dest_mac c) (xsk_bind_flags c) n
    (xsk_poll_mode c).
Definition set_xsk_poll_mode (b : bool) (c : config) : config :=
  Config (xdp_flags c) (ifindex c) (ifname c) (ifname_buf c) (redirect_ifindex c)
    (redirect_ifname c) (redirect_ifname_buf c) (do_unload c) (reuse_maps c) (pin_dir c)
    (filename c) (progsec c) (src_mac c) (dest_mac c) (xsk_bind_flags c) (xsk_if_queue c)
    b.

Section Parse.
Context (if_nametoindex : string -> Z).

(** The interface an argument names: [None] is [goto error]. *)
Definition lookup_dev (optarg : string) : option (Z * list ascii) :=
  if Z.of_nat IF_NAMESIZE <=? strlen optarg then None else
  let ifindex := if_nametoindex optarg in
  if ifindex =? 0 then None else Some (ifindex, strncpy optarg IF_NAMESIZE).

Definition clear_modes (cfg : config) : Z := Z.land (xdp_flags cfg) (Z.lnot XDP_FLAGS_MODES).

Definition switch (e : event) (cfg : config) (verbose : bool) : next config :=
  let '(opt, optarg) := e in
  let go (cfg : config) := Next cfg verbose in
  if opt =? chr "d" then
    match lookup_dev optarg with
    | Some (ifindex, buf) => go (set_dev ifindex buf cfg)
    | None => Usage false
    end
  else if opt =? chr "r" then
    match lookup_dev optarg with
    | Some (ifindex, buf) => go (set_redirect ifindex buf cfg)
    | None => Usage false
    end
  else if opt =? chr "A" then
    go (set_xdp_flags (clear_modes cfg) cfg)
  else if opt =? chr "S" then
    let bind := Z.lor (Z.land (xsk_bind_flags cfg) XDP_ZEROCOPY) XDP_COPY in
    go (set_xsk_bind_flags bind
          (set_xdp_flags (Z.lor (clear_modes cfg) XDP_FLAGS_SKB_MODE) cfg))
  else if opt =? chr "N" then
    go (set_xdp_flags (Z.lor (clear_modes cfg) XDP_FLAGS_DRV_MODE) cfg)
  else if opt =? 3 then
    go (set_xdp_flags (Z.lor (clear_modes cfg) XDP_FLAGS_HW_MODE) cfg)
  else if opt =? chr "F" then
    go (set_xdp_flags (Z.land (xdp_flags cfg) (Z.lnot XDP_FLAGS_UPDATE_IF_NOEXIST)) cfg)
  else if opt =? chr "M" then
    go (set_reuse_maps true cfg)
  else if opt =? chr "U" then
    go (set_do_unload true cfg)
  else if opt =? chr "p" then
    go (set_xsk_poll_mode true cfg)
  else if opt =? chr "q" then
    Next cfg false
  else if opt =? chr "Q" then
    match atoi optarg with Some n => go (set_xsk_if_queue n cfg) | None => Undef end
  else if opt =? 1 then
    go (set_filename (strncpy optarg 512) cfg)
  else if opt =? 2 then
    go (set_progsec (strncpy optarg 32) cfg)
  else if opt =? chr "L" then
    go (set_src_mac (strncpy optarg 18) cfg)
  else if opt =? chr "R" then
    go (set_dest_mac (strncpy optarg 18) cfg)
  else if opt =? chr "c" then
    go (set_xsk_bind_flags (Z.lor (Z.land (xsk_bind_flags cfg) XDP_ZEROCOPY) XDP_COPY) cfg)
  else if opt =? chr "z" then
    go (set_xsk_bind_flags (Z.lor (Z.land (xsk_bind_flags cfg) XDP_COPY) XDP_ZEROCOPY) cfg)
  else if opt =? chr "h" then Usage true
  else Usage false.

Definition parse_cmdline_args := parse_args switch.
End Parse.
End User.

(** ** The version of [fully_in-kernel] *)

Module Kernel.
(** [enum xdp_attach_mode] of libxdp. *)
Inductive xdp_attach_mode := XDP_MODE_UNSPEC | XDP_MODE_NATIVE | XDP_MODE_SKB | XDP_MODE_HW.

Record config := Config {
  attach_mode : xdp_attach_mode;
  xdp_flags : Z;
  ifindex : Z;
  ifname : bool;
  ifname_buf : list ascii;
  redirect_ifindex : Z;
  redirect_ifname : bool;
  redirect_ifname_buf : list ascii;
  do_unload : bool;
  prog_id : Z;
  reuse_maps : bool;
  pin_dir : list ascii;
  filename : list ascii;
  progname : list ascii;
  src_mac : list ascii;
  dest_mac : list ascii;
  xsk_bind_flags : Z;
  xsk_if_queue : Z;
  xsk_poll_mode : bool;
  unload_all : bool;
}.

Definition set_attach_mode (m : xdp_attach_mode) (c : config) : config :=
  Config m (xdp_flags c) (ifindex c) (ifname c) (ifname_buf c) (redirect_ifindex c)
    (redirect_ifname c) (redirect_ifname_buf c) (do_unload c) (prog_id c) (reuse_maps c)
    (pin_dir c) (filename c) (progname c) (src_mac c) (dest_mac c) (xsk_bind_flags c)
    (xsk_if_queue c) (xsk_poll_mode c) (unload_all c).
Definition set_dev (ix : Z) (buf : list ascii) (c : config) : config :=
  Config (attach_mode c) (xdp_flags c) ix true buf (redirect_ifindex c)
    (redirect_ifname c) (redirect_ifname_buf c) (do_unload c) (prog_id c) (reuse_maps c)
    (pin_dir c) (filename c) (progname c) (src_mac c) (dest_mac c) (xsk_bind_flags c)
    (xsk_if_queue c) (xsk_poll_mode c) (unload_all c).
Definition set_redirect (ix : Z) (buf : list ascii) (c : config) : config :=
  Config (attach_mode c) (xdp_flags c) (ifindex c) (ifname c) (ifname_buf c) ix
    true buf (do_unload c) (prog_id c) (reuse_maps c) (pin_dir c)
    (filename c) (progname c) (src_mac c) (dest_mac c) (xsk_bind_flags c) (xsk_if_queue c)
    (xsk_poll_mode c) (unload_all c).
Definition set_do_unload (b : bool) (c : config) : config :=
  Config (attach_mode c) (xdp_flags c) (ifindex c) (ifname c) (ifname_buf c)
    (redirect_ifindex c) (redirect_ifname c) (redirect_ifname_buf c) b (prog_id c)
    (reuse_maps c) (pin_dir c) (filename c) (progname c) (src_mac c) (dest_mac c)
    (xsk_bind_flags c) (xsk_if_queue c) (xsk_poll_mode c) (unload_all c).
Definition set_reuse_maps (b : bool) (c : config) : config :=
  Config (attach_mode c) (xdp_flags c) (ifindex c) (ifname c) (ifname_buf c)
    (redirect_ifindex c) (redirect_ifname c) (redirect_ifname_buf c) (do_unload c)
    (prog_id c) b (pin_dir c) (filename c) (progname c) (src_mac c) (dest_mac c)
    (xsk_bind_flags c) (xsk_if_queue c) (xsk_poll_mode c) (unload_all c).
Definition set_filename (buf : list ascii) (c : config) : config :=
  Config (attach_mode c) (xdp_flags c) (ifindex c) (ifname c) (ifname_buf c)
    (redirect_ifindex c) (redirect_ifname c) (redirect_ifname_buf c) (do_unload c)
    (prog_id c) (reuse_maps c) (pin_dir c) buf (progname c) (src_mac c) (dest_mac c)
    (xsk_bind_flags c) (xsk_if_queue c) (xsk_poll_mode c) (unload_all c).
Definition set_progname (buf : list ascii) (c : config) : config :=
  Config (attach_mode c) (xdp_flags c) (ifindex c) (ifname c) (ifname_buf c)
    (redirect_ifindex c) (redirect_ifname c) (redirect_ifname_buf c) (do_unload c)
    (prog_id c) (reuse_maps c) (pin_dir c) (filename c) buf (src_mac c) (dest_mac c)
    (xsk_bind_flags c) (xsk_if_queue c) (xsk_poll_mode c) (unload_all c).
Definition set_src_mac (buf : list ascii) (c : config) : config :=
  Config (attach_mode c) (xdp_flags c) (ifindex c) (ifname c) (ifname_buf c)
    (redirect_ifindex c) (redirect_ifname c) (redirect_ifname_buf c) (do_unload c)
    (prog_id c) (reuse_maps c) (pin_dir c) (filename c) (progname c) buf (dest_mac c)
    (xsk_bind_flags c) (xsk_if_queue c) (xsk_poll_mode c) (unload_all c).
Definition set_dest_mac (buf : list ascii) (c : config) : config :=
  Config (attach_mode c) (xdp_flags c) (ifindex c) (ifname c) (ifname_buf c)
    (redirect_ifindex c) (redirect_ifname c) (redirect_ifname_buf c) (do_unload c)
    (prog_id c) (reuse_maps c) (pin_dir c) (filename c) (progname c) (src_mac c) buf
    (xsk_bind_flags c) (xsk_if_queue c) (xsk_poll_mode c) (unload_all c).
Definition set_xsk_bind_flags (fl : Z) (c : config) : config :=
  Config (attach_mode c) (xdp_flags c) (ifindex c) (ifname c) (ifname_buf c)
    (redirect_ifindex c) (redirect_ifname c) (redirect_ifname_buf c) (do_unload c)
    (prog_id c) (reuse_maps c) (pin_dir c) (filename c) (progname c) (src_mac c)
    (dest_mac c) fl (xsk_if_queue c) (xsk_poll_mode c) (unload_all c).
Definition set_xsk_if_queue (n : Z) (c : config) : config :=
  Config (attach_mode c) (xdp_flags c) (ifindex c) (ifname c) (ifname_buf c)
    (redirect_ifindex c) (redirect_ifname c) (redirect_ifname_buf c) (do_unload c)
    (prog_id c) (reuse_maps c) (pin_dir c) (filename c) (progname c) (src_mac c)
    (dest_mac c) (xsk_bind_flags c) n (xsk_poll_mode c) (unload_all c).
Definition set_xsk_poll_mode (b : bool) (c : config) : config :=
  Config (attach_mode c) (xdp_flags c) (ifindex c) (ifname c) (ifname_buf c)
    (redirect_ifindex c) (redirect_ifname c) (redirect_ifname_buf c) (do_unload c)
    (prog_id c) (reuse_maps c) (pin_dir c) (filename c) (progname c) (src_mac c)
    (dest_mac c) (xsk_bind_flags c) (xsk_if_queue c) b (unload_all c).
Definition set_prog_id (n : Z) (c : config) : config :=
  Config (attach_mode c) (xdp_flags c) (ifindex c) (ifname c) (ifname_buf c)
    (redirect_ifindex c) (redirect_ifname c) (redirect_ifname_buf c) (do_unload c) n
    (reuse_maps c) (pin_dir c) (filename c) (progname c) (src_mac c) (dest_mac c)
    (xsk_bind_flags c) (xsk_if_queue c) (xsk_poll_mode c) (unload_all c).
Definition set_unload_all (b : bool) (c : config) : config :=
  Config (attach_mode c) (xdp_flags c) (ifindex c) (ifname c) (ifname_buf c)
    (redirect_ifindex c) (redirect_ifname c) (redirect_ifname_buf c) (do_unload c)
    (prog_id c) (reuse_maps c) (pin_dir c) (filename c) (progname c) (src_mac c)
    (dest_mac c) (xsk_bind_flags c) (xsk_if_queue c) (xsk_poll_mode c) b.

Section Parse.
Context (if_nametoindex : string -> Z).

(** The interface an argument names: [None] is [goto error]. *)
Definition lookup_dev (optarg : string) : option (Z * list ascii) :=
  if Z.of_nat IF_NAMESIZE <=? strlen optarg then None else
  let ifindex := if_nametoindex optarg in
  if ifindex =? 0 then None else Some (ifindex, strncpy optarg IF_NAMESIZE).

Definition switch (e : event) (cfg : config) (verbose : bool) : next config :=
  let '(opt, optarg) := e in
  let go (cfg : config) := Next cfg verbose in
  if opt =? chr "d" then
    match lookup_dev optarg with
    | Some (ifindex, buf) => go (set_dev ifindex buf cfg)
    | None => Usage false
    end
  else if opt =? chr "r" then
    match lookup_dev optarg with
    | Some (ifindex, buf) => go (set_redirect ifindex buf cfg)
    | None => Usage false
    end
  else if opt =? chr "A" then
    go (set_attach_mode XDP_MODE_UNSPEC cfg)
  else if opt =? chr "S" then
    let bind := Z.lor (Z.land (xsk_bind_flags cfg) (Z.lnot XDP_ZEROCOPY)) XDP_COPY in
    go (set_xsk_bind_flags bind (set_attach_mode XDP_MODE_SKB cfg))
  else if opt =? chr "N" then
    go (set_attach_mode XDP_MODE_NATIVE cfg)
  else if opt =? 3 then
    go (set_attach_mode XDP_MODE_HW cfg)
  else if opt =? chr "M" then
    go (set_reuse_maps true cfg)
  else if opt =? chr "U" then
    match atoi optarg with
    | Some n => go (set_prog_id (u32 n) (set_do_unload true cfg))
    | None => Undef
    end
  else if opt =? chr "p" then
    go (set_xsk_poll_mode true cfg)
  else if opt =? chr "q" then
    Next cfg false
  else if opt =? chr "Q" then
    match atoi optarg with Some n => go (set_xsk_if_queue n cfg) | None => Undef end
  else if opt =? 1 then
    go (set_filename (strncpy optarg 512) cfg)
  else if opt =? 2 then
    go (set_progname (strncpy optarg 32) cfg)
  else if opt =? chr "L" then
    go (set_src_mac (strncpy optarg 18) cfg)
  else if opt =? chr "R" then
    go (set_dest_mac (strncpy optarg 18) cfg)
  else if opt =? chr "c" then
    go (set_xsk_bind_flags (Z.lor (Z.land (xsk_bind_flags cfg) (Z.lnot XDP_ZEROCOPY)) XDP_COPY) cfg)
  else if opt =? chr "z" then
    go (set_xsk_bind_flags (Z.lor (Z.land (xsk_bind_flags cfg) (Z.lnot XDP_COPY)) XDP_ZEROCOPY) cfg)
  else if opt =? 4 then
    go (set_unload_all true cfg)
  else if opt =? chr "h" then Usage true
  else Usage false.

Definition parse_cmdline_args := parse_args switch.
End Parse.
End Kernel.

(** ** Strings and buffers *)

(** A [string] argument of C has no NUL character. *)
Definition c_string (s : string) : Prop := NUL ∉ list_ascii_of_string s.

Lemma length_list_ascii s : List.length (list_ascii_of_string s) = String.length s.
Proof. induction s as [|c s IH]; cbn; [done|]. by rewrite IH. Qed.

Lemma length_strncpy s n : List.length (strncpy s n) = n.
Proof. unfold strncpy. rewrite length_app, length_take, length_replicate. lia. Qed.

Lemma cstr_app s pad :
  c_string s -> cstr (list_ascii_of_string s ++ NUL :: pad) = Some s.
Proof.
  unfold c_string. induction s as [|c s IH]; cbn; intros Hs; [done|].
  rewrite not_elem_of_cons in Hs. destruct Hs as [Hc Hs].
  rewrite decide_False by done. by rewrite IH.
Qed.

Lemma cstr_None cs : NUL ∉ cs -> cstr cs = None.
Proof.
  induction cs as [|c cs IH]; cbn; intros Hs; [done|].
  rewrite not_elem_of_cons in Hs. destruct Hs as [Hc Hs].
  rewrite decide_False by done. by rewrite IH.
Qed.

(** A copy that fits comes back whole; one that does not has no end. *)
Lemma cstr_strncpy s n :
  c_string s -> cstr (strncpy s n) = if decide (String.length s < n)%nat then Some s else None.
Proof.
  intros Hs. unfold strncpy. pose proof (length_list_ascii s) as Hl. case_decide.
  - rewrite take_ge by lia. rewrite Hl.
    destruct (n - String.length s)%nat as [|k] eqn:E; [lia|]. by apply cstr_app.
  - replace (n - _)%nat with 0%nat by lia. rewrite app_nil_r.
    apply cstr_None. intros (i & Hi & _)%elem_of_take. by eapply Hs, list_elem_of_lookup_2.
Qed.

(** ** The help and the option table *)

(** What the help needs of an option: a help text, and a name of at most 27
    characters when it has a metavariable. *)
Definition printable (w : option_wrapper) : Prop :=
  is_Some (help w) /\
  forall nm, name (opt w) = Some nm -> is_Some (metavar w) -> (String.length nm <= 27)%nat.

Lemma print_option_defined w nm :
  name (opt w) = Some nm -> is_Some (print_option w nm) <-> printable w.
Proof.
  intros En. unfold print_option, printable. rewrite En.
  replace (String.length (" --" +:+ nm)) with (3 + String.length nm)%nat by done.
  unfold BUFSIZE.
  destruct (metavar w) as [m|], (help w) as [h|]; cbn [mbind option_bind];
    repeat case_decide; cbn [mbind option_bind]; (split; [intros [? ?]|intros [Hh Hl]]);
    try done; try (by eauto); try (by destruct Hh).
  - specialize (Hl nm eq_refl ltac:(eauto)). lia.
  - split; [by eauto|]. intros ? [= <-] _. lia.
  - split; [by eauto|]. intros ? [= <-] _. lia.
Qed.

Lemma _print_options_defined ws req n :
  count_options ws = Some n ->
  is_Some (_print_options ws req) <->
  Forall (fun w => required w = req -> printable w) (take n ws).
Proof.
  revert n. induction ws as [|w ws IH]; intros n; cbn; [done|].
  destruct (name (opt w)) as [nm|] eqn:En; [|intros [= <-]; split; eauto].
  destruct (count_options ws) as [k|]; [|done]. intros [= <-]. cbn [take].
  specialize (IH k eq_refl). rewrite Forall_cons_iff, <- IH.
  destruct (Bool.eqb_spec (required w) req) as [E|E]; cbn [negb].
  - rewrite <- (print_option_defined w nm En).
    destruct (print_option w nm); cbn [mbind option_bind].
    + destruct (_print_options ws req); cbn [mbind option_bind].
      * split; [split; eauto|by eauto].
      * split; [by intros [? ?]|]. by intros [_ [? ?]].
    + split; [by intros [? ?]|]. intros [H _]. by destruct (H E).
  - tauto.
Qed.

(** The help is printed without leaving [buf] exactly when every option of the
    table has a help text and, if it takes an argument name, at most 27
    characters. *)
Theorem usage_defined prog_name doc ws n :
  count_options ws = Some n ->
  is_Some (usage prog_name doc ws true) <-> Forall printable (take n ws).
Proof.
  intros Hn. unfold usage. cbn [negb].
  pose proof (_print_options_defined ws true n Hn) as Ht.
  pose proof (_print_options_defined ws false n Hn) as Hf.
  assert (Forall printable (take n ws) <->
          is_Some (_print_options ws true) /\ is_Some (_print_options ws false)) as ->.
  { rewrite Ht, Hf, !List.Forall_forall. split; [by eauto|].
    intros [Hr Ho] w Hw. destruct (required w) eqn:E; eauto. }
  destruct (_print_options ws true), (_print_options ws false); cbn [mbind option_bind];
    split; try (by intros [? ?]); try (by intros [[? ?] [? ?]]); eauto.
Qed.

(** The array given to [getopt_long] holds the options of the table and nothing
    else: no entry has a null name, although [getopt_long] looks for one to find
    the end of the array. *)
Theorem options_unterminated ws n :
  count_options ws = Some n ->
  exists opts, option_wrappers_to_options true ws = Some (0, Some opts) /\
    opts = opt <$> take n ws /\ List.length opts = n /\
    Forall (fun o => name o <> None) opts.
Proof.
  intros Hn. unfold option_wrappers_to_options. rewrite Hn. cbn [mbind option_bind negb].
  eexists. split; [done|]. split; [done|].
  revert n Hn. induction ws as [|w ws IH]; intros n; cbn; [done|].
  destruct (name (opt w)) as [nm|] eqn:En; [|by intros [= <-]].
  destruct (count_options ws) as [k|]; [|done]. intros [= <-].
  destruct (IH k eq_refl) as [Hl Hf]. cbn [take fmap list_fmap List.length].
  split; [by rewrite Hl|]. constructor; [by rewrite En|done].
Qed.

(** ** What the options do *)

Definition last_step {A} (f : event -> option A) (m : option A) (e : event) : option A :=
  match f e with Some x => Some x | None => m end.

(** The last event for which [f] answers. *)
Definition last_of {A} (f : event -> option A) (evs : list event) : option A :=
  fold_left (last_step f) evs None.

(** When each option of a kind establishes [post] and the others leave [f]
    alone, the last one decides. *)
Lemma parse_loop_last {C A B} (switch : event -> C -> bool -> next C) (f : C -> B)
    (sel : event -> option A) (post : A -> B -> Prop) evs c v c' v' :
  (forall e c v c' v', switch e c v = Next c' v' ->
     match sel e with Some a => post a (f c') | None => f c' = f c end) ->
  parse_loop switch evs c v = Next c' v' ->
  match last_of sel evs with Some a => post a (f c') | None => f c' = f c end.
Proof.
  intros Hstep. unfold last_of.
  assert (forall b m, match m with Some a => post a (f c) | None => f c = b end ->
    parse_loop switch evs c v = Next c' v' ->
    match fold_left (last_step sel) evs m with
    | Some a => post a (f c') | None => f c' = b end) as Hm; [|by apply (Hm (f c) None)].
  intros b. revert c v. induction evs as [|e evs IH]; intros c v m Hm; cbn.
  { intros [= <- _]. by destruct m. }
  destruct (switch e c v) as [c1 v1| |] eqn:E; [|done|done]. specialize (Hstep _ _ _ _ _ E).
  apply IH. unfold last_step. destruct (sel e); [done|]. by rewrite Hstep.
Qed.

(** Follow a [switch] along its cases. *)
Ltac run_switch := repeat (case_match; simplify_eq/=).

Module UserOptions.
Import User.

(** The mode an option selects: none, [XDP_FLAGS_SKB_MODE], ... *)
Definition mode_of (e : event) : option Z :=
  let o := fst e in
  if o =? chr "A" then Some 0 else
  if o =? chr "S" then Some XDP_FLAGS_SKB_MODE else
  if o =? chr "N" then Some XDP_FLAGS_DRV_MODE else
  if o =? 3 then Some XDP_FLAGS_HW_MODE else None.

Definition is_force (e : event) : bool := fst e =? chr "F".

(** The flags after [evs], starting from [fl]. *)
Definition flags_of (fl : Z) (mode : option Z) (force : bool) : Z :=
  let fl := match mode with
            | Some m => Z.lor (Z.land fl (Z.lnot XDP_FLAGS_MODES)) m
            | None => fl
            end in
  if force then Z.land fl (Z.lnot XDP_FLAGS_UPDATE_IF_NOEXIST) else fl.

Lemma mode_of_bits e m : mode_of e = Some m -> Z.land m (Z.lnot XDP_FLAGS_MODES) = 0.
Proof. unfold mode_of. intros H. repeat case_match; simplify_eq; done. Qed.

Lemma flags_of_mode fl m m' force :
  Z.land m' (Z.lnot XDP_FLAGS_MODES) = 0 ->
  (forall x, m = Some x -> Z.land x (Z.lnot XDP_FLAGS_MODES) = 0) ->
  Z.lor (Z.land (flags_of fl m force) (Z.lnot XDP_FLAGS_MODES)) m' = flags_of fl (Some m') force.
Proof.
  intros Hm' Hm. apply Z.bits_inj'. intros n Hn. unfold flags_of.
  assert (forall x, Z.land x (Z.lnot XDP_FLAGS_MODES) = 0 ->
            Z.testbit x n = true -> Z.testbit XDP_FLAGS_MODES n = true) as Hb.
  { intros x Hx Ht. pose proof (Z.land_spec x (Z.lnot XDP_FLAGS_MODES) n) as E.
    rewrite Hx, Z.bits_0, Z.lnot_spec, Ht in E by done.
    by destruct (Z.testbit XDP_FLAGS_MODES n). }
  assert (Z.testbit XDP_FLAGS_UPDATE_IF_NOEXIST n = true -> Z.testbit XDP_FLAGS_MODES n = false)
    as Hu.
  { intros Hu. destruct (decide (n = 0)) as [->|]; [done|].
    change XDP_FLAGS_UPDATE_IF_NOEXIST with (2 ^ 0) in Hu.
    rewrite Z.pow2_bits_false in Hu; done. }
  pose proof (Hb m' Hm') as Hb'.
  destruct m as [x|], force;
    try (pose proof (Hb x (Hm x eq_refl)) as Hbx);
    rewrite ?Z.lor_spec, ?Z.land_spec, ?Z.lor_spec, ?Z.land_spec, ?Z.lor_spec,
      ?Z.land_spec, ?Z.lnot_spec by done.
  all: destruct (Z.testbit fl n), (Z.testbit m' n), (Z.testbit XDP_FLAGS_MODES n),
    (Z.testbit XDP_FLAGS_UPDATE_IF_NOEXIST n); try (destruct (Z.testbit x n)); cbn; try done.
  all: try (by specialize (Hb' eq_refl)); try (by specialize (Hu eq_refl));
    try (by specialize (Hbx eq_refl)).
Qed.

Lemma force_no_mode e : is_force e = true -> mode_of e = None.
Proof. unfold is_force, mode_of. by intros ->%Z.eqb_eq. Qed.

(** What one option does to the flags. *)
Definition flags_step (e : event) (fl : Z) : Z :=
  match mode_of e with
  | Some m => Z.lor (Z.land fl (Z.lnot XDP_FLAGS_MODES)) m
  | None => if is_force e then Z.land fl (Z.lnot XDP_FLAGS_UPDATE_IF_NOEXIST) else fl
  end.

Lemma switch_flags nametoindex e c v c' v' :
  switch nametoindex e c v = Next c' v' -> xdp_flags c' = flags_step e (xdp_flags c).
Proof.
  destruct e as [o arg]. unfold switch, flags_step, mode_of, is_force. cbn [fst].
  destruct (Z.eqb_spec o (chr "d")) as [->|_]; [cbn; intros; run_switch; done|].
  destruct (Z.eqb_spec o (chr "r")) as [->|_]; [cbn; intros; run_switch; done|].
  destruct (o =? chr "A"); [intros [= <- _]; cbn; by rewrite Z.lor_0_r|].
  destruct (o =? chr "S"); [by intros [= <- _]|].
  destruct (o =? chr "N"); [by intros [= <- _]|].
  destruct (o =? 3); [by intros [= <- _]|].
  destruct (o =? chr "F"); [by intros [= <- _]|].
  intros Hsw. run_switch; done.
Qed.

Lemma flags_fold evs fl m force :
  (forall x, m = Some x -> Z.land x (Z.lnot XDP_FLAGS_MODES) = 0) ->
  fold_left (fun fl e => flags_step e fl) evs (flags_of fl m force) =
    flags_of fl (fold_left (last_step mode_of) evs m) (force || existsb is_force evs).
Proof.
  revert m force. induction evs as [|e evs IH]; intros m force Hm; cbn.
  { by rewrite orb_false_r. }
  unfold flags_step at 2, last_step at 2. destruct (mode_of e) as [x|] eqn:Ee.
  - pose proof (mode_of_bits e x Ee) as Hx. rewrite flags_of_mode by done.
    rewrite IH by (by intros ? [= <-]). do 2 f_equal.
    destruct (is_force e) eqn:Ef; [|done]. by rewrite (force_no_mode e Ef) in Ee.
  - destruct (is_force e) eqn:Ef; cbn [orb].
    + replace (Z.land (flags_of fl m force) (Z.lnot XDP_FLAGS_UPDATE_IF_NOEXIST))
        with (flags_of fl m true); [by rewrite IH, orb_true_r|].
      unfold flags_of. destruct force; [|done]. by rewrite <- Z.land_assoc, Z.land_diag.
    + by rewrite IH.
Qed.

(** The XDP flags the command line leaves: the mode bits are those of the last
    mode option ([-A], [-S], [-N], [--offload-mode]), the other modes being
    cleared, [-F] anywhere clears [XDP_FLAGS_UPDATE_IF_NOEXIST], and no other
    option or order changes them. *)
Theorem xdp_flags_parsed nametoindex malloc_ok evs prog doc wrapper c v c' v' :
  parse_cmdline_args nametoindex malloc_ok evs prog doc wrapper c v = Some (Parsed c' v') ->
  xdp_flags c' =
    flags_of (xdp_flags c) (last_of mode_of evs) (existsb is_force evs).
Proof.
  intros Hrun%parse_args_Parsed.
  rewrite (parse_loop_fold _ xdp_flags flags_step _ _ _ _ _ (switch_flags nametoindex) Hrun).
  by apply (flags_fold evs (xdp_flags c) None false).
Qed.

(** Asking for zero-copy and then for copy mode leaves both bits set: [-c]
    keeps [XDP_ZEROCOPY] where it means to clear it. *)
Theorem copy_keeps_zerocopy nametoindex c v :
  exists c', parse_loop (switch nametoindex) [(chr "z", ""); (chr "c", "")] c v = Next c' v /\
    xsk_bind_flags c' = Z.lor XDP_ZEROCOPY XDP_COPY.
Proof.
  eexists. split; [reflexivity|]. cbn [xsk_bind_flags set_xsk_bind_flags].
  apply Z.bits_inj'. intros n Hn.
  rewrite !Z.lor_spec, !Z.land_spec, !Z.lor_spec, !Z.land_spec.
  assert (Z.testbit XDP_COPY n && Z.testbit XDP_ZEROCOPY n = false) as E
    by (by rewrite <- Z.land_spec, Z.bits_0).
  destruct (Z.testbit (xsk_bind_flags c) n), (Z.testbit XDP_COPY n),
    (Z.testbit XDP_ZEROCOPY n); done.
Qed.

Definition dev_of (e : event) : option string := if fst e =? chr "d" then Some (snd e) else None.
Definition file_of (e : event) : option string := if fst e =? 1 then Some (snd e) else None.

Lemma lookup_dev_Some nametoindex s ix buf :
  lookup_dev nametoindex s = Some (ix, buf) ->
  (String.length s < IF_NAMESIZE)%nat /\ ix = nametoindex s /\ ix <> 0 /\
  buf = strncpy s IF_NAMESIZE.
Proof.
  unfold lookup_dev, strlen. destruct (Z.leb_spec (Z.of_nat IF_NAMESIZE) (Z.of_nat (String.length s)));
    [done|].
  destruct (Z.eqb_spec (nametoindex s) 0); [done|]. intros [= <- <-]. split; [lia|done].
Qed.

(** After a parse that returns, the device is the last one named: its index is
    the kernel's, non-zero, and the buffer holds its name, terminated. *)
Theorem dev_parsed nametoindex malloc_ok evs prog doc wrapper c v c' v' s :
  parse_cmdline_args nametoindex malloc_ok evs prog doc wrapper c v = Some (Parsed c' v') ->
  last_of dev_of evs = Some s -> c_string s ->
  ifindex c' = nametoindex s /\ ifindex c' <> 0 /\ ifname c' = true /\
  cstr (ifname_buf c') = Some s.
Proof.
  intros Hrun%parse_args_Parsed Hl Hs.
  eapply (parse_loop_last _ (fun c => (ifindex c, ifname c, ifname_buf c)) dev_of
    (fun s '(ix, ptr, buf) => (String.length s < IF_NAMESIZE)%nat /\ ix = nametoindex s /\ ix <> 0
       /\ ptr = true /\ buf = strncpy s IF_NAMESIZE)) in Hrun.
  - rewrite Hl in Hrun. destruct Hrun as (Hlen & -> & ? & -> & ->).
    rewrite cstr_strncpy by done. by rewrite decide_True.
  - clear. intros [o arg] c v c' v'. unfold switch, dev_of. cbn [fst snd].
    destruct (o =? chr "d").
    + destruct (lookup_dev nametoindex arg) as [[ix buf]|] eqn:E; [|done].
      intros [= <- _]. cbn. apply lookup_dev_Some in E as (? & ? & ? & ?). done.
    + intros Hsw. run_switch; done.
Qed.

(** A file name of 512 characters or more leaves [cfg->filename] without a
    terminator: every later use of it as a string reads past the array. *)
Theorem long_filename_unterminated nametoindex malloc_ok evs prog doc wrapper c v c' v' s :
  parse_cmdline_args nametoindex malloc_ok evs prog doc wrapper c v = Some (Parsed c' v') ->
  last_of file_of evs = Some s -> c_string s ->
  cstr (filename c') = if decide (String.length s < 512)%nat then Some s else None.
Proof.
  intros Hrun%parse_args_Parsed Hl Hs.
  eapply (parse_loop_last _ filename file_of (fun s buf => buf = strncpy s 512)) in Hrun.
  - rewrite Hl in Hrun. rewrite Hrun. by apply cstr_strncpy.
  - clear. intros [o arg] c v c' v'. unfold switch, file_of. cbn [fst snd].
    destruct (Z.eqb_spec o 1) as [->|_]; [by intros [= <- _]|].
    intros Hsw. run_switch; done.
Qed.

(** An option the [switch] does not know (the loader's [--udef], ['i'], is one)
    ends the program with [EXIT_FAIL_OPTION], whatever came before. *)
Theorem unknown_option_exits nametoindex evs evs' o arg prog doc wrapper c v c1 v1 n :
  count_options wrapper = Some n ->
  parse_loop (switch nametoindex) evs c v = Next c1 v1 ->
  o ∉ chr <$> ["d"; "r"; "A"; "S"; "N"; "F"; "M"; "U"; "p"; "q"; "Q"; "L"; "R"; "c"; "z"; "h"]%char ->
  o ∉ [1; 2; 3] ->
  exists text, parse_cmdline_args nametoindex true (evs ++ (o, arg) :: evs') prog doc wrapper c v =
    Some (Exited EXIT_FAIL_OPTION text).
Proof.
  intros Hn Hrun Ho Hk. unfold parse_cmdline_args, parse_args, option_wrappers_to_options.
  rewrite Hn. cbn [mbind option_bind negb Z.eqb].
  rewrite parse_loop_app, Hrun. cbn [parse_loop].
  assert (switch nametoindex (o, arg) c1 v1 = Usage false) as ->.
  { unfold switch. rewrite !elem_of_cons in Hk. cbn [fmap list_fmap] in Ho.
    rewrite !elem_of_cons in Ho.
    repeat match goal with |- context [?a =? ?b] =>
      rewrite (proj2 (Z.eqb_neq a b)) by (intros ->; tauto) end. done. }
  by eexists.
Qed.
End UserOptions.

Module KernelOptions.
Import Kernel.

Definition mode_of (e : event) : option xdp_attach_mode :=
  let o := fst e in
  if o =? chr "A" then Some XDP_MODE_UNSPEC else
  if o =? chr "S" then Some XDP_MODE_SKB else
  if o =? chr "N" then Some XDP_MODE_NATIVE else
  if o =? 3 then Some XDP_MODE_HW else None.

(** The bind flag an option selects. *)
Definition bind_of (e : event) : option Z :=
  let o := fst e in
  if o =? chr "S" then Some XDP_COPY else
  if o =? chr "c" then Some XDP_COPY else
  if o =? chr "z" then Some XDP_ZEROCOPY else None.

Lemma exclusive_bits fl a b :
  Z.land a b = 0 -> Z.land (Z.lor (Z.land fl (Z.lnot a)) b) (Z.lor a b) = b.
Proof.
  intros Hab. apply Z.bits_inj'. intros n Hn.
  pose proof (Z.land_spec a b n) as E. rewrite Hab, Z.bits_0 in E.
  rewrite Z.land_spec, !Z.lor_spec, Z.land_spec, Z.lnot_spec by done.
  destruct (Z.testbit fl n), (Z.testbit a n), (Z.testbit b n); done.
Qed.

(** In this version copy and zero-copy exclude each other: after any command
    line that mentions them, exactly the bit of the last option is set, and the
    attach mode is that of the last mode option. *)
Theorem kernel_modes_parsed nametoindex malloc_ok evs prog doc wrapper c v c' v' :
  parse_cmdline_args nametoindex malloc_ok evs prog doc wrapper c v = Some (Parsed c' v') ->
  attach_mode c' = default (attach_mode c) (last_of mode_of evs) /\
  match last_of bind_of evs with
  | Some flag => Z.land (xsk_bind_flags c') (Z.lor XDP_COPY XDP_ZEROCOPY) = flag
  | None => xsk_bind_flags c' = xsk_bind_flags c
  end.
Proof.
  intros Hrun%parse_args_Parsed. split.
  - eapply (parse_loop_last _ attach_mode mode_of (fun m m' => m' = m)) in Hrun.
    { by destruct (last_of mode_of evs). }
    clear. intros [o arg] c v c' v'. unfold switch, mode_of. cbn [fst].
    destruct (Z.eqb_spec o (chr "d")) as [->|_]; [cbn; intros; run_switch; done|].
    destruct (Z.eqb_spec o (chr "r")) as [->|_]; [cbn; intros; run_switch; done|].
    destruct (o =? chr "A"); [by intros [= <- _]|].
    destruct (o =? chr "S"); [by intros [= <- _]|].
    destruct (o =? chr "N"); [by intros [= <- _]|].
    destruct (o =? 3); [by intros [= <- _]|].
    intros Hsw. run_switch; done.
  - refine (parse_loop_last _ xsk_bind_flags bind_of
      (fun flag fl => Z.land fl (Z.lor XDP_COPY XDP_ZEROCOPY) = flag) _ _ _ _ _ _ Hrun). clear.
    intros [o arg] c v c' v'. unfold switch, bind_of. cbn [fst].
    destruct (Z.eqb_spec o (chr "S")) as [->|_].
    { intros [= <- _]. by apply (exclusive_bits (xsk_bind_flags c) XDP_ZEROCOPY XDP_COPY). }
    destruct (Z.eqb_spec o (chr "c")) as [->|_].
    { intros [= <- _]. by apply (exclusive_bits (xsk_bind_flags c) XDP_ZEROCOPY XDP_COPY). }
    destruct (Z.eqb_spec o (chr "z")) as [->|_].
    { intros [= <- _]. by apply (exclusive_bits (xsk_bind_flags c) XDP_COPY XDP_ZEROCOPY). }
    intros Hsw. run_switch; done.
Qed.
End KernelOptions.

(** ** Examples: the loader's own option table *)

Module OptionExamples.
Definition o (nm : string) (arg v : Z) (h m : option string) (req : bool) : option_wrapper :=
  OptionWrapper (Option (Some nm) arg v) h m req.

(** [long_options] of [xdp_loader.c] (the [false] after the first help text is
    a null [metavar]). *)
Definition long_options : list option_wrapper :=
  [o "help" 0 (chr "h") (Some "Show help") None false;
   o "force" 0 (chr "F") (Some "Force install, replacing existing program on interface") None false;
   o "dev" 1 (chr "d") (Some "Operate on device <ifname>") (Some "<ifname>") true;
   o "filename" 1 1 (Some "Store packet sample into <file>") (Some "<file>") false;
   o "quiet" 0 (chr "q") (Some "Quiet mode (no output)") None false;
   o "unload" 0 (chr "U") (Some "Unload XDP program instead of loading") None false;
   o "udef" 0 (chr "i") (Some "Add user defined filter") None false;
   OptionWrapper (Option None 0 0) None None false].

Definition nametoindex (s : string) : Z := if decide (s = "eth0") then 2 else 0.

Definition user0 : User.config :=
  User.Config 1 (-1) false [] 0 false [] false false [] [] [] [] [] 0 0 false.
Definition kernel0 : Kernel.config :=
  Kernel.Config Kernel.XDP_MODE_UNSPEC 1 (-1) false [] 0 false [] false 0 false [] [] [] [] [] 0 0
    false false.

Definition args : list event :=
  [(chr "S", ""); (chr "d", "eth0"); (chr "N", ""); (chr "F", ""); (1, "prog.o")].

Definition result {C} (c0 : C) (r : option (parse_result C)) : C :=
  match r with Some (Parsed c _) => c | _ => c0 end.
Definition parsed : User.config :=
  result user0 (User.parse_cmdline_args nametoindex true args "loader" "" long_options user0 true).

Lemma usage_defined_witness :
  is_Some (usage "loader" "doc" long_options true) <-> Forall printable (take 7 long_options).
Proof. apply usage_defined. reflexivity. Defined.

Lemma options_unterminated_witness :
  exists opts, option_wrappers_to_options true long_options = Some (0, Some opts) /\
    opts = opt <$> take 7 long_options /\ List.length opts = 7%nat /\
    Forall (fun o => name o <> None) opts.
Proof. apply options_unterminated. reflexivity. Defined.

Lemma xdp_flags_parsed_witness :
  User.xdp_flags parsed = UserOptions.flags_of 1 (Some XDP_FLAGS_DRV_MODE) true.
Proof.
  apply (UserOptions.xdp_flags_parsed nametoindex true args "loader" "" long_options user0 true
           parsed true). reflexivity.
Defined.

Lemma dev_parsed_witness :
  User.ifindex parsed = 2 /\ User.ifindex parsed <> 0 /\ User.ifname parsed = true /\
  cstr (User.ifname_buf parsed) = Some "eth0".
Proof.
  apply (UserOptions.dev_parsed nametoindex true args "loader" "" long_options user0 true
           parsed true "eth0"); [reflexivity|reflexivity|].
  unfold c_string. cbn. rewrite !not_elem_of_cons. by repeat split; [..|apply not_elem_of_nil].
Defined.

Lemma long_filename_unterminated_witness : cstr (User.filename parsed) = Some "prog.o".
Proof.
  apply (UserOptions.long_filename_unterminated nametoindex true args "loader" "" long_options
           user0 true parsed true "prog.o"); [reflexivity|reflexivity|].
  unfold c_string. cbn. rewrite !not_elem_of_cons. by repeat split; [..|apply not_elem_of_nil].
Defined.

(** [--udef] *)
Lemma unknown_option_exits_witness :
  exists text, User.parse_cmdline_args nametoindex true (args ++ [(chr "i", "")]) "loader" ""
    long_options user0 true = Some (Exited EXIT_FAIL_OPTION text).
Proof.
  eapply (UserOptions.unknown_option_exits nametoindex args [] (chr "i") "" "loader" ""
           long_options user0 true _ _ 7); [reflexivity|reflexivity|..];
    cbn [fmap list_fmap]; rewrite !not_elem_of_cons; by repeat split; [..|apply not_elem_of_nil].
Defined.

Definition kernel_args : list event := [(chr "S", ""); (chr "z", ""); (3, ""); (chr "c", "")].

Lemma kernel_modes_parsed_witness :
  let c := result kernel0 (Kernel.parse_cmdline_args nametoindex true kernel_args "loader" ""
             long_options kernel0 true) in
  Kernel.attach_mode c = Kernel.XDP_MODE_HW /\ Z.land (Kernel.xsk_bind_flags c) 6 = XDP_COPY.
Proof.
  apply (KernelOptions.kernel_modes_parsed nametoindex true kernel_args "loader" "" long_options
           kernel0 true _ true). reflexivity.
Defined.
End OptionExamples.
