(* ===== verification/BpfObject.v ===== *)
(** * BPF objects of libbpf

    Models the part of [libbpf/src/libbpf.c] the loaders stand on: the object
    with its programs and maps, the iterators, map reuse, pinning with its
    rollback, and [bpf_prog_load_xattr].  A pointer to a program or a map of an
    object is its index.  The system calls are the class [BpfSys] on a state [W]
    of the kernel; the ELF reader and the program loader are parameters.  Memory
    allocation is taken to succeed and the library's log lines are left out. *)

From S2P Require Import Prelude BpfMap.
From Stdlib Require Import Ascii String.

Local Open Scope Z_scope.

Definition EINVAL : Z := 22.
Definition ENAMETOOLONG : Z := 36.
Definition PATH_MAX : Z := 4096.

Definition BPF_PROG_TYPE_UNSPEC : Z := 0.
Definition BPF_PROG_TYPE_XDP : Z := 6.
Definition BPF_MAP_TYPE_PERF_EVENT_ARRAY : Z := 4.

(** ** Data *)

(** [struct bpf_map_def]. *)
Record bpf_map_def := MapDef {
  type : Z; key_size : Z; value_size : Z; max_entries : Z; map_flags : Z;
}.

(** [struct bpf_map]; [pin_path] is NULL or a path. *)
Record bpf_map := BpfMap_ {
  map_fd : Z;
  map_name : string;
  map_ifindex : Z;
  def : bpf_map_def;
  pin_path : option string;
  pinned : bool;
  reused : bool;
}.

(** [struct bpf_program]: [instances] are the descriptors of its instances, none
    before loading. *)
Record bpf_program := BpfProgram {
  prog_idx : Z;
  section_name : string;
  prog_ifindex : Z;
  prog_type : Z;
  expected_attach_type : Z;
  instances : list Z;
}.

(** [struct bpf_object]. *)
Record bpf_object := BpfObject_ {
  programs : list bpf_program;
  maps : list bpf_map;
  loaded : bool;
  text_shndx : Z;
  has_pseudo_calls : bool;
}.

(** What [bpf_obj_get_info_by_fd] reports of a map. *)
Record bpf_map_info := MapInfo { info_name : string; info_def : bpf_map_def }.

(** ** The system *)

Class BpfSys (W : Type) := {
  (** [bpf_obj_get], [bpf_obj_pin], [unlink], [mkdir]: a descriptor or 0, or a
      negative error number. *)
  bpf_obj_get : string -> W -> Z * W;
  bpf_obj_pin : Z -> string -> W -> Z * W;
  sys_unlink : string -> W -> Z * W;
  sys_mkdir : string -> W -> Z * W;
  (** [statfs]: an error number, or whether the file system is a BPF one. *)
  sys_statfs : string -> W -> positive + bool;
  (** [bpf_obj_get_info_by_fd]. *)
  obj_info : Z -> W -> Z + bpf_map_info;
  (** [open("/")], [dup3], [close]. *)
  sys_open_root : W -> Z * W;
  sys_dup3 : Z -> Z -> W -> Z * W;
  sys_close : Z -> W -> Z * W;
  (** [bpf_object__open_xattr] on a file (NULL or an error is [None]), and the
      loading into the kernel: creation of the maps, relocation, programs. *)
  object_open : string -> W -> option bpf_object * W;
  kernel_load : bpf_object -> W -> Z * bpf_object * W;
}.

(** ** Setters and getters *)

Definition bpf_program__set_ifindex (p : bpf_program) (ifindex : Z) : bpf_program :=
  BpfProgram (prog_idx p) (section_name p) ifindex (prog_type p) (expected_attach_type p)
    (instances p).
Definition bpf_program__set_type (p : bpf_program) (t : Z) : bpf_program :=
  BpfProgram (prog_idx p) (section_name p) (prog_ifindex p) t (expected_attach_type p)
    (instances p).
Definition bpf_program__set_expected_attach_type (p : bpf_program) (t : Z) : bpf_program :=
  BpfProgram (prog_idx p) (section_name p) (prog_ifindex p) (prog_type p) t (instances p).
Definition bpf_program__get_type (p : bpf_program) : Z := prog_type p.
Definition bpf_program__title (p : bpf_program) : string := section_name p.

Definition bpf_program__nth_fd (p : option bpf_program) (n : Z) : Z :=
  match p with
  | None => - EINVAL
  | Some p =>
      if (Z.of_nat (List.length (instances p)) <=? n) || (n <? 0) then - EINVAL else
      let fd := nth (Z.to_nat n) (instances p) 0 in
      if fd <? 0 then - ENOENT else fd
  end.
Definition bpf_program__fd (p : option bpf_program) : Z := bpf_program__nth_fd p 0.

Definition bpf_map__fd (m : option bpf_map) : Z :=
  match m with Some m => map_fd m | None => - EINVAL end.
Definition bpf_map__name (m : option bpf_map) : option string := map_name <$> m.
Definition bpf_map__is_offload_neutral (m : bpf_map) : bool :=
  type (def m) =? BPF_MAP_TYPE_PERF_EVENT_ARRAY.
Definition bpf_map__set_ifindex (m : bpf_map) (ifindex : Z) : bpf_map :=
  BpfMap_ (map_fd m) (map_name m) ifindex (def m) (pin_path m) (pinned m) (reused m).

Definition set_pin (m : bpf_map) (path : option string) (p : bool) : bpf_map :=
  BpfMap_ (map_fd m) (map_name m) (map_ifindex m) (def m) path p (reused m).
Definition set_programs (o : bpf_object) (ps : list bpf_program) : bpf_object :=
  BpfObject_ ps (maps o) (loaded o) (text_shndx o) (has_pseudo_calls o).
Definition set_maps (o : bpf_object) (ms : list bpf_map) : bpf_object :=
  BpfObject_ (programs o) ms (loaded o) (text_shndx o) (has_pseudo_calls o).

(** ** Iterators *)

Definition bpf_program__is_function_storage (p : bpf_program) (o : bpf_object) : bool :=
  (prog_idx p =? text_shndx o) && has_pseudo_calls o.

Definition __bpf_program__iter (p : option nat) (o : bpf_object) (forward : bool) : option nat :=
  let nr_programs := Z.of_nat (List.length (programs o)) in
  if nr_programs =? 0 then None else
  match p with
  | None => Some (if forward then O else Z.to_nat (nr_programs - 1))
  | Some p =>
      let idx := Z.of_nat p + (if forward then 1 else -1) in
      if (nr_programs <=? idx) || (idx <? 0) then None else Some (Z.to_nat idx)
  end.

(** The [do ... while] loop; [fuel] bounds the programs it can skip. *)
Fixpoint program_loop (fuel : nat) (p : option nat) (o : bpf_object) (forward : bool) : option nat :=
  match fuel with
  | O => None
  | S fuel =>
      match __bpf_program__iter p o forward with
      | None => None
      | Some i =>
          match programs o !! i with
          | Some prog => if bpf_program__is_function_storage prog o
                         then program_loop fuel (Some i) o forward else Some i
          | None => None
          end
      end
  end.

Definition bpf_program__next (prev : option nat) (o : bpf_object) : option nat :=
  program_loop (S (List.length (programs o))) prev o true.
Definition bpf_program__prev (next : option nat) (o : bpf_object) : option nat :=
  program_loop (S (List.length (programs o))) next o false.

Definition __bpf_map__iter (m : nat) (o : bpf_object) (i : Z) : option nat :=
  let nr_maps := Z.of_nat (List.length (maps o)) in
  if nr_maps =? 0 then None else
  if nr_maps <=? Z.of_nat m then None else
  let idx := Z.of_nat m + i in
  if (nr_maps <=? idx) || (idx <? 0) then None else Some (Z.to_nat idx).

Definition bpf_map__next (prev : option nat) (o : bpf_object) : option nat :=
  match prev with
  | None => match maps o with [] => None | _ => Some O end
  | Some m => __bpf_map__iter m o 1
  end.

Definition bpf_map__prev (next : option nat) (o : bpf_object) : option nat :=
  match next with
  | None => match maps o with [] => None | _ => Some (List.length (maps o) - 1)%nat end
  | Some m => __bpf_map__iter m o (-1)
  end.

(** The indices a [for_each] macro visits, [fuel] at most. *)
Fixpoint visits (fuel : nat) (next : option nat -> option nat) (cur : option nat) : list nat :=
  match fuel, cur with
  | S fuel, Some i => i :: visits fuel next (next (Some i))
  | _, _ => []
  end.

Definition for_each_program (o : bpf_object) : list nat :=
  visits (S (List.length (programs o))) (fun p => bpf_program__next p o) (bpf_program__next None o).
Definition for_each_map (o : bpf_object) : list nat :=
  visits (S (List.length (maps o))) (fun m => bpf_map__next m o) (bpf_map__next None o).

(** The loops that search a map or a program by name. *)
Definition bpf_object__find_map_by_name (o : bpf_object) (name : string) : option nat :=
  head (filter (fun i => map_name <$> maps o !! i = Some name) (for_each_map o)).
Definition bpf_object__find_map_fd_by_name (o : bpf_object) (name : string) : Z :=
  bpf_map__fd (i ← bpf_object__find_map_by_name o name; maps o !! i).
Definition bpf_object__find_program_by_title (o : bpf_object) (title : string) : option nat :=
  head (filter (fun i => section_name <$> programs o !! i = Some title) (for_each_program o)).

(** ** Paths *)

(** [snprintf(buf, PATH_MAX, "%s/%s", path, name)]: the path, unless it does not
    fit. *)
Definition join_path (path name : string) : string := (path +:+ "/" +:+ name)%string.
Definition fits_path (s : string) : bool := Z.of_nat (String.length s) <? PATH_MAX.

Fixpoint drop_while (f : ascii -> bool) (cs : list ascii) : list ascii :=
  match cs with c :: cs' => if f c then drop_while f cs' else cs | [] => [] end.

Definition is_slash (c : ascii) : bool := bool_decide (c = "/"%char).

(** [dirname], on the reversed characters. *)
Definition dirname (s : string) : string :=
  let cs := rev (list_ascii_of_string s) in
  match drop_while is_slash cs with
  | [] => if decide (cs = []) then "." else "/"
  | cs =>
      match drop_while (fun c => negb (is_slash c)) cs with
      | [] => "."
      | cs => match drop_while is_slash cs with
              | [] => "/"
              | cs => string_of_list_ascii (rev cs)
              end
      end
  end.

(** ** Operations on the system *)

Section Ops.
Context {W : Type} `{BpfSys W}.

Definition make_parent_dir (path : string) (w : W) : Z * W :=
  let '(err, w) := sys_mkdir (dirname path) w in
  if (err <? 0) && negb (err =? - EEXIST) then (err, w) else (0, w).

Definition check_path (path : option string) (w : W) : Z :=
  match path with
  | None => - EINVAL
  | Some path =>
      match sys_statfs (dirname path) w with
      | inl errno => Z.neg errno
      | inr is_bpf_fs => if is_bpf_fs then 0 else - EINVAL
      end
  end.

(** The part of [bpf_map__pin] after the checks on the path. *)
Definition pin_at (m : bpf_map) (path : string) (w : W) : Z * bpf_map * W :=
  let '(err, w) := make_parent_dir path w in
  if negb (err =? 0) then (err, m, w) else
  let err := check_path (Some path) w in
  if negb (err =? 0) then (err, m, w) else
  let '(err, w) := bpf_obj_pin (map_fd m) path w in
  if negb (err =? 0) then (err, m, w) else
  (0, set_pin m (pin_path m) true, w).

Definition bpf_map__pin (m : bpf_map) (path : option string) (w : W) : Z * bpf_map * W :=
  match pin_path m with
  | Some own =>
      if bool_decide (path ≠ None /\ path ≠ Some own) then (- EINVAL, m, w)
      else if pinned m then (0, m, w)
      else pin_at m own w
  | None =>
      match path with
      | None => (- EINVAL, m, w)
      | Some path =>
          if pinned m then (- EEXIST, m, w)
          else pin_at (set_pin m (Some path) (pinned m)) path w
      end
  end.

Definition bpf_map__unpin (m : bpf_map) (path : option string) (w : W) : Z * bpf_map * W :=
  match (match pin_path m with
         | Some own => if bool_decide (path ≠ None /\ path ≠ Some own) then None else Some own
         | None => path
         end) with
  | None => (- EINVAL, m, w)
  | Some path =>
      let err := check_path (Some path) w in
      if negb (err =? 0) then (err, m, w) else
      let '(err, w) := sys_unlink path w in
      if negb (err =? 0) then (err, m, w) else
      (0, set_pin m (pin_path m) false, w)
  end.

(** Where a map is to be pinned: nowhere, in [path], or at its own path. *)
Definition pin_target (path : option string) (m : bpf_map) : Z + option (option string) :=
  match path with
  | Some path =>
      let buf := join_path path (map_name m) in
      if fits_path buf then inr (Some (Some buf)) else inl (- ENAMETOOLONG)
  | None => match pin_path m with None => inr None | Some _ => inr (Some None) end
  end.

(** The rollback: the maps before the failing one, nearest first. *)
Fixpoint unpin_back (before : list bpf_map) (w : W) : list bpf_map * W :=
  match before with
  | [] => ([], w)
  | m :: ms =>
      let '(m, w) := match pin_path m with
                     | None => (m, w)
                     | Some _ => let '(_, m, w) := bpf_map__unpin m None w in (m, w)
                     end in
      let '(ms, w) := unpin_back ms w in (m :: ms, w)
  end.

(** The loop of [bpf_object__pin_maps]; [before] are the maps done. *)
Fixpoint pin_loop (path : option string) (before rest : list bpf_map) (w : W)
    : Z * list bpf_map * W :=
  match rest with
  | [] => (0, rev before, w)
  | m :: rest =>
      match pin_target path m with
      | inl err => let '(before, w) := unpin_back before w in (err, rev before ++ m :: rest, w)
      | inr None => pin_loop path (m :: before) rest w
      | inr (Some p) =>
          let '(err, m, w) := bpf_map__pin m p w in
          if negb (err =? 0)
          then let '(before, w) := unpin_back before w in (err, rev before ++ m :: rest, w)
          else pin_loop path (m :: before) rest w
      end
  end.

Definition bpf_object__pin_maps (o : option bpf_object) (path : option string) (w : W)
    : Z * option bpf_object * W :=
  match o with
  | None => (- ENOENT, None, w)
  | Some o =>
      if negb (loaded o) then (- ENOENT, Some o, w) else
      let '(err, ms, w) := pin_loop path [] (maps o) w in (err, Some (set_maps o ms), w)
  end.

Fixpoint unpin_loop (path : option string) (ms : list bpf_map) (w : W) : Z * list bpf_map * W :=
  match ms with
  | [] => (0, [], w)
  | m :: ms =>
      match pin_target path m with
      | inl err => (err, m :: ms, w)
      | inr None => let '(err, ms, w) := unpin_loop path ms w in (err, m :: ms, w)
      | inr (Some p) =>
          let '(err, m, w) := bpf_map__unpin m p w in
          if negb (err =? 0) then (err, m :: ms, w) else
          let '(err, ms, w) := unpin_loop path ms w in (err, m :: ms, w)
      end
  end.

Definition bpf_object__unpin_maps (o : option bpf_object) (path : option string) (w : W)
    : Z * option bpf_object * W :=
  match o with
  | None => (- ENOENT, None, w)
  | Some o => let '(err, ms, w) := unpin_loop path (maps o) w in (err, Some (set_maps o ms), w)
  end.

(** [zclose]: close a valid descriptor and forget it. *)
Definition zclose (fd : Z) (w : W) : Z * W := if 0 <=? fd then sys_close fd w else (0, w).

Definition bpf_map__reuse_fd (m : bpf_map) (fd : Z) (w : W) : Z * bpf_map * W :=
  match obj_info fd w with
  | inl err => (err, m, w)
  | inr info =>
      let '(new_fd, w) := sys_open_root w in
      if new_fd <? 0 then (new_fd, m, w) else
      let '(new_fd', w) := sys_dup3 fd new_fd w in
      if new_fd' <? 0 then let '(_, w) := sys_close new_fd' w in (new_fd', m, w) else
      let '(err, w) := zclose (map_fd m) w in
      if negb (err =? 0)
      then let '(_, w) := sys_close new_fd' w in
           (err, BpfMap_ (-1) (map_name m) (map_ifindex m) (def m) (pin_path m) (pinned m)
                   (reused m), w)
      else (0, BpfMap_ new_fd' (info_name info) (map_ifindex m) (info_def info) (pin_path m)
                 (pinned m) true, w)
  end.

Fixpoint close_fds (fds : list Z) (w : W) : W :=
  match fds with [] => w | fd :: fds => let '(_, w) := zclose fd w in close_fds fds w end.

(** Closes the descriptors of the maps and of the programs. *)
Definition bpf_object__unload (o : bpf_object) (w : W) : bpf_object * W :=
  let w := close_fds (map_fd <$> maps o) w in
  let w := close_fds (List.concat (instances <$> programs o)) w in
  (BpfObject_
     ((fun p => BpfProgram (prog_idx p) (section_name p) (prog_ifindex p) (prog_type p)
                  (expected_attach_type p) []) <$> programs o)
     ((fun m => BpfMap_ (-1) (map_name m) (map_ifindex m) (def m) (pin_path m) (pinned m)
                  (reused m)) <$> maps o)
     (loaded o) (text_shndx o) (has_pseudo_calls o), w).

(** Unpin the maps pinned while loading. *)
Fixpoint unpin_auto (ms : list bpf_map) (w : W) : list bpf_map * W :=
  match ms with
  | [] => ([], w)
  | m :: ms =>
      let '(m, w) := if pinned m && negb (reused m)
                     then let '(_, m, w) := bpf_map__unpin m None w in (m, w) else (m, w) in
      let '(ms, w) := unpin_auto ms w in (m :: ms, w)
  end.

Definition bpf_object__load (o : option bpf_object) (w : W) : Z * option bpf_object * W :=
  match o with
  | None => (- EINVAL, None, w)
  | Some o =>
      if loaded o then (- EINVAL, Some o, w) else
      let o := BpfObject_ (programs o) (maps o) true (text_shndx o) (has_pseudo_calls o) in
      let '(err, o, w) := kernel_load o w in
      if err =? 0 then (0, Some o, w) else
      let '(ms, w) := unpin_auto (maps o) w in
      let '(o, w) := bpf_object__unload (set_maps o ms) w in
      (err, Some o, w)
  end.

(** Frees the object: what remains of it is the closing of its descriptors. *)
Definition bpf_object__close (o : bpf_object) (w : W) : W := snd (bpf_object__unload o w).

(** [struct bpf_prog_load_attr]. *)
Record bpf_prog_load_attr := LoadAttr {
  attr_file : option string;
  attr_prog_type : Z;
  attr_expected_attach_type : Z;
  attr_ifindex : Z;
}.

(** The loop over the programs: the error that stops it, the programs. *)
Fixpoint prepare_programs (attr : bpf_prog_load_attr) (o : bpf_object) (ps : list bpf_program)
    : Z * list bpf_program :=
  match ps with
  | [] => (0, [])
  | p :: ps =>
      if bpf_program__is_function_storage p o
      then let '(err, ps) := prepare_programs attr o ps in (err, p :: ps) else
      let p := if negb (attr_prog_type attr =? BPF_PROG_TYPE_UNSPEC)
               then bpf_program__set_expected_attach_type
                      (bpf_program__set_type p (attr_prog_type attr))
                      (attr_expected_attach_type attr)
               else p in
      if bpf_program__get_type p =? BPF_PROG_TYPE_UNSPEC then (- EINVAL, p :: ps) else
      let '(err, ps) := prepare_programs attr o ps in
      (err, bpf_program__set_ifindex p (attr_ifindex attr) :: ps)
  end.

Definition prepare_map (ifindex : Z) (m : bpf_map) : bpf_map :=
  if negb (bpf_map__is_offload_neutral m) then bpf_map__set_ifindex m ifindex else m.

(** The result code, the object and the descriptor of its first program. *)
Definition bpf_prog_load_xattr (attr : bpf_prog_load_attr) (w : W)
    : Z * option (bpf_object * Z) * W :=
  match attr_file attr with
  | None => (- EINVAL, None, w)
  | Some file =>
      let '(obj, w) := object_open file w in
      match obj with
      | None => (- ENOENT, None, w)
      | Some o =>
          let '(err, ps) := prepare_programs attr o (programs o) in
          let o := set_programs o ps in
          if negb (err =? 0) then (err, None, bpf_object__close o w) else
          let o := set_maps o (prepare_map (attr_ifindex attr) <$> maps o) in
          match bpf_program__next None o with
          | None => (- ENOENT, None, bpf_object__close o w)
          | Some first_prog =>
              let '(err, o', w) := bpf_object__load (Some o) w in
              let o := default o o' in
              if negb (err =? 0) then (- EINVAL, None, bpf_object__close o w) else
              (0, Some (o, bpf_program__fd (programs o !! first_prog)), w)
          end
      end
  end.
End Ops.

(** ** Iterators: each element once, in order *)

Lemma visits_seq (next : option nat -> option nat) n fuel i :
  (forall j, (j < n)%nat -> next (Some j) = if decide (S j < n)%nat then Some (S j) else None) ->
  (i < n)%nat -> (n - i <= fuel)%nat -> visits fuel next (Some i) = seq i (n - i).
Proof.
  intros Hnext. revert i. induction fuel as [|fuel IH]; intros i Hi Hf; [lia|].
  cbn. replace (n - i)%nat with (S (n - S i)) by lia. cbn. f_equal.
  rewrite Hnext by done. case_decide.
  - apply IH; lia.
  - replace (n - S i)%nat with 0%nat by lia. by destruct fuel.
Qed.

Lemma map_next_Some o j :
  (j < List.length (maps o))%nat ->
  bpf_map__next (Some j) o = if decide (S j < List.length (maps o))%nat then Some (S j) else None.
Proof.
  intros Hj. cbn. unfold __bpf_map__iter.
  rewrite (proj2 (Z.eqb_neq _ _)), (proj2 (Z.leb_gt _ _)) by lia.
  rewrite (proj2 (Z.ltb_ge (Z.of_nat j + 1) 0)), orb_false_r by lia. case_decide.
  - rewrite (proj2 (Z.leb_gt _ _)) by lia. f_equal. lia.
  - by rewrite (proj2 (Z.leb_le _ _)) by lia.
Qed.

(** The macro [bpf_object__for_each_map] visits every map once, in order. *)
Theorem for_each_map_all o : for_each_map o = seq 0 (List.length (maps o)).
Proof.
  unfold for_each_map.
  assert (bpf_map__next None o = match maps o with [] => None | _ => Some O end) as -> by done.
  destruct (maps o) as [|m ms] eqn:E; [done|]. rewrite <- E.
  rewrite (visits_seq _ (List.length (maps o)) _ 0); [by rewrite Nat.sub_0_r|..].
  - intros. by apply map_next_Some.
  - rewrite E. cbn. lia.
  - lia.
Qed.

Lemma iter_forward o p :
  __bpf_program__iter p o true =
    let i := match p with None => O | Some j => S j end in
    if decide (i < List.length (programs o))%nat then Some i else None.
Proof.
  unfold __bpf_program__iter. destruct (Z.eqb_spec (Z.of_nat (List.length (programs o))) 0).
  { by rewrite decide_False by (destruct p; lia). }
  destruct p as [j|]; cbn; [|by rewrite decide_True by lia].
  rewrite (proj2 (Z.ltb_ge (Z.of_nat j + 1) 0)), orb_false_r by lia. case_decide.
  - rewrite (proj2 (Z.leb_gt _ _)) by lia. f_equal. lia.
  - by rewrite (proj2 (Z.leb_le _ _)) by lia.
Qed.

(** Whether the program at index [i] is a real one. *)
Definition real_program (o : bpf_object) (i : nat) : bool :=
  match programs o !! i with
  | Some p => negb (bpf_program__is_function_storage p o)
  | None => false
  end.

Definition succ_of (p : option nat) : nat := match p with None => O | Some j => S j end.

(** The next program is the first real one after the given index. *)
Lemma program_loop_spec o fuel p :
  let n := List.length (programs o) in
  (n - succ_of p < fuel)%nat ->
  program_loop fuel p o true =
    head (List.filter (real_program o) (seq (succ_of p) (n - succ_of p))).
Proof.
  cbn zeta. revert p. induction fuel as [|fuel IH]; intros p Hf; [lia|].
  cbn [program_loop]. rewrite iter_forward. cbn zeta. fold (succ_of p). case_decide as Hi.
  - replace (List.length (programs o) - succ_of p)%nat
      with (S (List.length (programs o) - S (succ_of p))) by lia. cbn [seq List.filter].
    unfold real_program at 1. destruct (lookup_lt_is_Some_2 (programs o) _ Hi) as [prog E].
    rewrite E. destruct (bpf_program__is_function_storage prog o); cbn [negb]; [|done].
    rewrite IH; cbn [succ_of]; [done|lia].
  - by replace (List.length (programs o) - succ_of p)%nat with 0%nat by lia.
Qed.

Lemma program_next_spec o p :
  bpf_program__next p o =
    head (List.filter (real_program o) (seq (succ_of p) (List.length (programs o) - succ_of p))).
Proof. apply program_loop_spec. lia. Qed.

Lemma filter_seq_tail f i n j l :
  List.filter f (seq i n) = j :: l ->
  (i <= j < i + n)%nat /\ l = List.filter f (seq (S j) (i + n - S j)).
Proof.
  revert i. induction n as [|n IH]; intros i; cbn [seq List.filter]; [done|].
  destruct (f i).
  - intros [= <- <-]. split; [lia|]. do 2 f_equal. lia.
  - intros E. destruct (IH _ E) as [? ->]. split; [lia|]. do 2 f_equal. lia.
Qed.

Lemma program_order o :
  for_each_program o = List.filter (real_program o) (seq 0 (List.length (programs o))).
Proof.
  unfold for_each_program. rewrite program_next_spec. cbn [succ_of]. rewrite Nat.sub_0_r.
  assert (forall fuel i n, (n < fuel)%nat -> (i + n)%nat = List.length (programs o) ->
    visits fuel (fun p => bpf_program__next p o) (head (List.filter (real_program o) (seq i n))) =
      List.filter (real_program o) (seq i n)) as Hv; [|apply Hv; lia].
  induction fuel as [|fuel IH]; intros i n Hf Hn; [lia|].
  destruct (List.filter (real_program o) (seq i n)) as [|j l] eqn:E; [done|].
  apply filter_seq_tail in E as [Hj ->]. cbn [head visits]. f_equal.
  rewrite program_next_spec. cbn [succ_of].
  replace (i + n - S j)%nat with (List.length (programs o) - S j)%nat by lia.
  apply IH; lia.
Qed.

(** [bpf_object__for_each_program] visits, once and in order, the programs that
    are not storage for functions called by others. *)
Theorem for_each_program_all o :
  for_each_program o = List.filter (real_program o) (seq 0 (List.length (programs o))).
Proof. apply program_order. Qed.

(** ** Pinning *)

(** What the kernel documents of the BPF file system: [pins] are the pinned
    paths, each with the descriptor it was pinned from. *)
Class PinLaws (W : Type) `{BpfSys W} := {
  pins : W -> gmap string Z;
  pin_ok : forall fd p w w', bpf_obj_pin fd p w = (0, w') ->
    pins w !! p = None /\ pins w' = <[p := fd]> (pins w);
  pin_err : forall fd p w e w', bpf_obj_pin fd p w = (e, w') -> e <> 0 -> pins w' = pins w;
  unlink_ok : forall p fd w, pins w !! p = Some fd ->
    exists w', sys_unlink p w = (0, w') /\ pins w' = delete p (pins w);
  mkdir_pins : forall d w e w', sys_mkdir d w = (e, w') -> pins w' = pins w;
  (** The kind of a file system does not change. *)
  statfs_pin : forall fd p w e w' d, bpf_obj_pin fd p w = (e, w') ->
    sys_statfs d w = inr true -> sys_statfs d w' = inr true;
  statfs_unlink : forall p w e w' d, sys_unlink p w = (e, w') ->
    sys_statfs d w = inr true -> sys_statfs d w' = inr true;
  statfs_mkdir : forall d' w e w' d, sys_mkdir d' w = (e, w') ->
    sys_statfs d w = inr true -> sys_statfs d w' = inr true;
}.

Section Pinning.
Context {W : Type} `{PinLaws W}.

Lemma check_path_ok p w : check_path (Some p) w = 0 <-> sys_statfs (dirname p) w = inr true.
Proof. unfold check_path. destruct (sys_statfs (dirname p) w) as [e|[]]; split; done. Qed.

(** Nothing pinned yet and no path chosen. *)
Definition fresh_map (m : bpf_map) : Prop := pin_path m = None /\ pinned m = false.

(** The maps [before] (nearest first) have been pinned one after the other,
    starting from the file system [fs]. *)
Inductive pinned_from (fs : gmap string Z) (w : W) : list bpf_map -> gmap string Z -> Prop :=
  | pinned_nil : pinned_from fs w [] fs
  | pinned_cons m ms p fs' :
      pinned_from fs w ms fs' -> pin_path m = Some p -> pinned m = true ->
      sys_statfs (dirname p) w = inr true -> fs' !! p = None ->
      pinned_from fs w (m :: ms) (<[p := map_fd m]> fs').

Lemma pinned_from_mono fs w w' ms fs' :
  (forall d, sys_statfs d w = inr true -> sys_statfs d w' = inr true) ->
  pinned_from fs w ms fs' -> pinned_from fs w' ms fs'.
Proof. intros Hs. induction 1; constructor; eauto. Qed.

(** Unpinning a map that is pinned at its path. *)
Lemma unpin_own m p fs w :
  pin_path m = Some p -> sys_statfs (dirname p) w = inr true -> fs !! p = None ->
  pins w = <[p := map_fd m]> fs ->
  exists w', bpf_map__unpin m None w = (0, set_pin m (Some p) false, w') /\ pins w' = fs /\
    forall d, sys_statfs d w = inr true -> sys_statfs d w' = inr true.
Proof.
  intros Hp Hs Hfs Hw. unfold bpf_map__unpin. rewrite Hp. cbv iota beta.
  rewrite bool_decide_false by (by intros [? _]). unfold check_path. rewrite Hs. cbn [negb Z.eqb].
  destruct (unlink_ok p (map_fd m) w) as (w' & E & Hd); [by rewrite Hw, lookup_insert_eq|].
  rewrite E. cbn. exists w'. split; [done|].
  split; [|by intros d; apply (statfs_unlink _ _ _ _ _ E)].
  by rewrite Hd, Hw, delete_insert_id.
Qed.

(** The rollback undoes exactly the pins made. *)
Lemma unpin_back_spec fs w ms :
  pinned_from fs w ms (pins w) -> exists ms' w', unpin_back ms w = (ms', w') /\ pins w' = fs.
Proof.
  intros Hms. remember (pins w) as fs' eqn:E. revert w E Hms.
  revert fs'. induction ms as [|m ms IH]; intros fs' w E Hms; inversion Hms; subst.
  - by exists [], w.
  - cbn [unpin_back].
    match goal with Hp : pin_path m = Some _ |- _ => rewrite Hp end.
    destruct (unpin_own m p fs'0 w) as (w' & -> & Hw' & Hstat); [done..|].
    edestruct (IH fs'0 w') as (ms' & w'' & E & Hw''); [done|by eapply pinned_from_mono|].
    rewrite E. by eexists _, w''.
Qed.

(** [bpf_map__pin] on a fresh map: pinned, or nothing happened to the pins. *)
Lemma pin_fresh m p w err m' w' :
  fresh_map m -> bpf_map__pin m (Some p) w = (err, m', w') ->
  (forall d, sys_statfs d w = inr true -> sys_statfs d w' = inr true) /\
  (err = 0 /\ m' = set_pin m (Some p) true /\ pins w !! p = None /\
     pins w' = <[p := map_fd m]> (pins w) /\ sys_statfs (dirname p) w' = inr true \/
   err <> 0 /\ pins w' = pins w).
Proof.
  intros [Hp Hpin]. unfold bpf_map__pin, pin_at, make_parent_dir. rewrite Hp, Hpin.
  destruct (sys_mkdir (dirname p) w) as [e1 w1] eqn:E1.
  pose proof (mkdir_pins _ _ _ _ E1) as Hw1.
  pose proof (fun d => statfs_mkdir _ _ _ _ d E1) as Hs1.
  destruct ((e1 <? 0) && negb (e1 =? - EEXIST)) eqn:Ee1.
  { assert (e1 <> 0) as Hne by (intros ->; done). rewrite (proj2 (Z.eqb_neq e1 0)) by done.
    cbn [negb]. intros [= <- _ <-]. split; [done|by right]. }
  cbn [negb Z.eqb]. destruct (Z.eqb_spec (check_path (Some p) w1) 0) as [Hc|Hc]; cbn [negb].
  2: { intros [= <- _ <-]. split; [done|by right]. }
  cbn [map_fd set_pin]. destruct (bpf_obj_pin (map_fd m) p w1) as [e2 w2] eqn:E2.
  pose proof (fun d => statfs_pin _ _ _ _ _ d E2) as Hs2.
  destruct (Z.eqb_spec e2 0) as [->|Hne]; cbn [negb].
  - intros [= <- <- <-]. apply pin_ok in E2 as [Hn Hw2]. rewrite Hw1 in Hn, Hw2.
    apply check_path_ok in Hc. split; [by eauto|]. left. by eauto 10.
  - intros [= <- _ <-]. apply pin_err in E2; [|done]. split; [by eauto|]. right.
    by rewrite E2, Hw1.
Qed.


(** A map pinned in [dir]. *)
Definition pinned_at (dir : string) (m : bpf_map) : bpf_map :=
  set_pin m (Some (join_path dir (map_name m))) true.
Definition fits (dir : string) (m : bpf_map) : Prop :=
  fits_path (join_path dir (map_name m)) = true.

Lemma pin_loop_spec dir fs before rest w err ms w' :
  Forall fresh_map rest -> pinned_from fs w before (pins w) ->
  pin_loop (Some dir) before rest w = (err, ms, w') ->
  err <> 0 /\ pins w' = fs \/
  err = 0 /\ ms = rev before ++ (pinned_at dir <$> rest) /\
    pinned_from fs w' (rev ms) (pins w') /\ Forall (fits dir) rest.
Proof.
  intros Hfresh. revert before w. induction Hfresh as [|m rest Hm Hrest IH];
    intros before w Hb; cbn [pin_loop].
  { intros [= <- <- <-]. right. rewrite app_nil_r, rev_involutive. done. }
  unfold pin_target. destruct (fits_path _) eqn:Hfits.
  2: { destruct (unpin_back_spec fs w before Hb) as (ms' & w1 & E & Hw1). rewrite E.
       intros [= <- _ <-]. by left. }
  destruct (bpf_map__pin m _ w) as [[e m1] w1] eqn:Epin.
  destruct (pin_fresh _ _ _ _ _ _ Hm Epin) as [Hstat [(-> & -> & Hn & Hw1 & Hs)|[He Hw1]]].
  - cbn [negb Z.eqb]. intros Hrun.
    apply IH in Hrun as [?|(? & -> & ? & ?)]; [by left| |].
    + right. split; [done|]. cbn [rev fmap list_fmap]. rewrite <- app_assoc.
      split; [done|]. split; [|by constructor].
      match goal with Hp : pinned_from _ _ _ _ |- _ => revert Hp end.
      cbn [rev]. by rewrite <- app_assoc.
    + rewrite Hw1. change (map_fd m) with (map_fd (set_pin m (Some (join_path dir (map_name m))) true)).
      econstructor; [by eapply pinned_from_mono|done|done|done|done].
  - rewrite (proj2 (Z.eqb_neq e 0)) by done. cbn [negb].
    rewrite <- Hw1 in Hb. eapply pinned_from_mono in Hb; [|exact Hstat].
    destruct (unpin_back_spec fs w1 before Hb) as (ms' & w2 & E & Hw2). rewrite E.
    intros [= <- _ <-]. by left.
Qed.

Lemma pinned_from_pins fs w ms fs' :
  pinned_from fs w ms fs' ->
  fs' = fold_right (fun m fs => match pin_path m with
                                | Some p => <[p := map_fd m]> fs | None => fs end) fs ms.
Proof.
  induction 1 as [|m ms p fs' _ IH Hp _ _ _]; cbn; [done|]. rewrite Hp. by rewrite <- IH.
Qed.

(** Pinning the maps of an object is all or nothing: when it fails, the rollback
    has removed every path it had created; when it succeeds, every map of the
    object is pinned under the directory, and nothing else changed. *)
Theorem pin_maps_atomic dir o w err o' w' :
  loaded o = true -> Forall fresh_map (maps o) ->
  bpf_object__pin_maps (Some o) (Some dir) w = (err, o', w') ->
  (err <> 0 -> pins w' = pins w) /\
  (err = 0 -> o' = Some (set_maps o (pinned_at dir <$> maps o)) /\
     pins w' = fold_left (fun fs m => <[join_path dir (map_name m) := map_fd m]> fs)
                 (maps o) (pins w)).
Proof.
  intros Hl Hm. cbn. rewrite Hl. cbn [negb].
  destruct (pin_loop (Some dir) [] (maps o) w) as [[e ms] w1] eqn:E. intros [= <- <- <-].
  apply (pin_loop_spec _ (pins w)) in E as [[? ?]|(-> & -> & Hp & _)]; [done| |done|constructor].
  split; [done|]. intros _. cbn [rev app] in *. split; [done|].
  apply pinned_from_pins in Hp. rewrite Hp. clear.
  rewrite fold_left_rev_right. generalize (pins w) as fs.
  induction (maps o) as [|m ms IH]; intros fs; cbn; [done|]. apply IH.
Qed.

(** The oldest pin can be removed first. *)
Lemma pinned_from_snoc fs w ms m fs' p :
  pinned_from fs w (ms ++ [m]) fs' -> pin_path m = Some p ->
  fs' !! p = Some (map_fd m) /\ sys_statfs (dirname p) w = inr true /\
  pinned_from fs w ms (delete p fs').
Proof.
  intros Hf Hp. revert fs' Hf. induction ms as [|m1 ms IH]; intros fs' Hf; cbn in Hf.
  - inversion Hf as [|? ? p' fs1 H1 Hp' ? Hs Hn]; subst. inversion H1; subst.
    rewrite Hp in Hp'. injection Hp' as <-. rewrite lookup_insert_eq.
    split; [done|]. split; [done|]. rewrite delete_insert_id by done. constructor.
  - inversion Hf as [|? ? p1 fs1 H1 Hp1 ? Hs Hn]; subst.
    destruct (IH _ H1) as (Hl & Hs' & Hd).
    assert (p <> p1) as Hne by (intros ->; congruence).
    rewrite lookup_insert_ne by done. split; [done|]. split; [done|].
    rewrite delete_insert_ne by done. econstructor; eauto.
    by rewrite lookup_delete_ne.
Qed.

Lemma unpin_loop_spec dir fs ms w :
  Forall (fun m => pin_path m = Some (join_path dir (map_name m))) ms -> Forall (fits dir) ms ->
  pinned_from fs w (rev ms) (pins w) ->
  exists ms' w', unpin_loop (Some dir) ms w = (0, ms', w') /\ pins w' = fs.
Proof.
  intros Hp. revert w. induction Hp as [|m ms Hm Hms IH]; intros w Hf Hpin; cbn.
  { inversion Hpin. by eexists _, w. }
  inversion Hf as [|? ? Hfm Hf']; subst. cbn in Hpin. unfold fits in Hfm. rewrite Hfm.
  destruct (pinned_from_snoc _ _ _ _ _ _ Hpin Hm) as (Hl & Hs & Hd).
  unfold bpf_map__unpin. rewrite Hm. cbv iota beta.
  rewrite bool_decide_false by (by intros [_ ?]). unfold check_path. rewrite Hs. cbn [negb Z.eqb].
  destruct (unlink_ok _ _ _ Hl) as (w1 & E & Hw1). rewrite E. cbn [negb Z.eqb].
  destruct (IH w1 Hf') as (ms' & w' & E' & Hw').
  { rewrite Hw1. eapply pinned_from_mono; [|done]. intros d. by apply (statfs_unlink _ _ _ _ _ E). }
  rewrite E'. by eexists _, w'.
Qed.

(** Unpinning from the directory undoes pinning. *)
Theorem pin_unpin_roundtrip dir o w o' w' :
  loaded o = true -> Forall fresh_map (maps o) ->
  bpf_object__pin_maps (Some o) (Some dir) w = (0, o', w') ->
  exists o'' w'', bpf_object__unpin_maps o' (Some dir) w' = (0, o'', w'') /\ pins w'' = pins w.
Proof.
  intros Hl Hm. cbn. rewrite Hl. cbn [negb].
  destruct (pin_loop (Some dir) [] (maps o) w) as [[e ms] w1] eqn:E. intros [= -> <- <-].
  apply (pin_loop_spec _ (pins w)) in E as [[? ?]|(_ & -> & Hp & Hf)]; [done| |done|constructor].
  cbn [rev app bpf_object__unpin_maps maps set_maps] in *.
  destruct (unpin_loop_spec dir (pins w) (pinned_at dir <$> maps o) w1) as (ms' & w'' & E & Hw'').
  - apply Forall_fmap, Forall_true. done.
  - apply Forall_fmap. exact Hf.
  - done.
  - rewrite E. by eexists _, w''.
Qed.

(** A second run finds the paths of the first one taken: it fails without
    pinning anything, whatever the maps are. *)
Theorem pin_maps_taken dir o w err o' w' m ms fd :
  loaded o = true -> Forall fresh_map (maps o) -> maps o = m :: ms ->
  pins w !! join_path dir (map_name m) = Some fd ->
  bpf_object__pin_maps (Some o) (Some dir) w = (err, o', w') ->
  err <> 0 /\ pins w' = pins w.
Proof.
  intros Hl Hm Hms Hfd. cbn. rewrite Hl. cbn [negb].
  destruct (pin_loop (Some dir) [] (maps o) w) as [[e ms'] w1] eqn:E. intros [= <- <- <-].
  pose proof E as E2.
  apply (pin_loop_spec _ (pins w)) in E as [?|(-> & -> & Hp & _)]; [done| |done|constructor].
  cbn [rev app] in Hp. rewrite Hms in Hp. cbn [fmap list_fmap rev] in Hp. exfalso.
  clear E2. remember (rev _) as l eqn:El. clear El. revert Hp. generalize (pins w1) as fs'.
  induction l as [|x l IH]; intros fs' Hp; inversion Hp; subst; [|by eauto].
  inversion H3; subst. cbn in *. congruence.
Qed.
End Pinning.

(** ** Loading *)

Section Loading.
Context {W : Type} `{BpfSys W}.

(** What the loop leaves in a program that is not function storage. *)
Definition prepared (attr : bpf_prog_load_attr) (p p' : bpf_program) : Prop :=
  section_name p' = section_name p /\ prog_idx p' = prog_idx p /\
  prog_ifindex p' = attr_ifindex attr /\ prog_type p' <> BPF_PROG_TYPE_UNSPEC /\
  (attr_prog_type attr <> BPF_PROG_TYPE_UNSPEC -> prog_type p' = attr_prog_type attr).

Lemma prepare_programs_spec attr o ps ps' :
  prepare_programs attr o ps = (0, ps') ->
  Forall2 (fun p p' => if bpf_program__is_function_storage p o then p' = p
                       else prepared attr p p') ps ps'.
Proof.
  revert ps'. induction ps as [|p ps IH]; intros ps'; cbn [prepare_programs].
  { intros [= <-]. constructor. }
  destruct (bpf_program__is_function_storage p o) eqn:Es.
  { destruct (prepare_programs attr o ps) as [e l]. intros [= -> <-].
    constructor; [by rewrite Es|by apply IH]. }
  cbn zeta. set (p1 := if negb _ then _ else p).
  destruct (Z.eqb_spec (bpf_program__get_type p1) BPF_PROG_TYPE_UNSPEC) as [|Ht]; [done|].
  destruct (prepare_programs attr o ps) as [e l]. intros [= -> <-].
  constructor; [|by apply IH]. rewrite Es. unfold prepared.
  destruct (Z.eqb_spec (attr_prog_type attr) BPF_PROG_TYPE_UNSPEC); by subst p1.
Qed.

(** When [bpf_prog_load_xattr] succeeds, the object it answers is the one the
    kernel loaded, after every program had been given the type and the interface
    of the request and every map that is not offload-neutral its interface; the
    descriptor is that of the first program. *)
Theorem prog_load_xattr_loads attr w o fd w' :
  bpf_prog_load_xattr attr w = (0, Some (o, fd), w') ->
  exists file o0 o1 w0 first,
    attr_file attr = Some file /\ object_open file w = (Some o0, w0) /\
    kernel_load o1 w0 = (0, o, w') /\ loaded o0 = false /\
    Forall2 (fun p p' => if bpf_program__is_function_storage p o0 then p' = p
                         else prepared attr p p') (programs o0) (programs o1) /\
    maps o1 = prepare_map (attr_ifindex attr) <$> maps o0 /\
    head (for_each_program o1) = Some first /\ fd = bpf_program__fd (programs o !! first).
Proof.
  unfold bpf_prog_load_xattr. destruct (attr_file attr) as [file|]; [|done].
  destruct (object_open file w) as [[o0|] w0] eqn:Eo; [|done].
  destruct (prepare_programs attr o0 (programs o0)) as [e ps] eqn:Ep.
  destruct (Z.eqb_spec e 0) as [->|Hne]; cbn [negb]; [|by intros [= ? ? _]].
  set (o1 := set_maps _ _).
  destruct (bpf_program__next None o1) as [first|] eqn:Ef; [|done].
  cbn [bpf_object__load]. destruct (loaded o1) eqn:El; [done|].
  set (o2 := BpfObject_ _ _ true _ _).
  destruct (kernel_load o2 w0) as [[e o3] w3] eqn:Ek.
  destruct (Z.eqb_spec e 0) as [->|Hne]; cbn [negb Z.eqb].
  2: { destruct (unpin_auto (maps o3) w3) as [ms w4]. destruct (bpf_object__unload _ w4).
       rewrite (proj2 (Z.eqb_neq e 0)) by done. done. }
  cbn [default]. intros [= <- <- <-]. exists file, o0, o2, w0, first.
  split; [done|]. split; [done|]. split; [done|]. split; [exact El|].
  split; [by apply prepare_programs_spec|]. split; [done|]. split; [|done].
  rewrite program_order. rewrite <- Ef, program_next_spec. cbn [succ_of].
  by rewrite Nat.sub_0_r.
Qed.
End Loading.

(** ** A system of pinned paths, for the examples *)

Lemma surjective_pairing_3 {A B C} (x : A * B * C) : x = (fst (fst x), snd (fst x), snd x).
Proof. by destruct x as [[a b] c]. Qed.

Module PinFs.
(** The pinned paths, the files that can be opened, and the programs attached to
    an interface in a mode (for [XdpLink]). *)
Record t := Fs {
  paths : gmap string Z;
  files : gmap string bpf_object;
  links : gmap (Z * Z) Z;
}.

Definition set_paths (w : t) (ps : gmap string Z) : t := Fs ps (files w) (links w).

(** The kernel gives descriptor 7 to the first program. *)
Definition load_programs (o : bpf_object) : bpf_object :=
  set_programs o
    ((fun p => BpfProgram (prog_idx p) (section_name p) (prog_ifindex p) (prog_type p)
                 (expected_attach_type p) [7]) <$> programs o).

#[export] Instance sys : BpfSys t := {
  bpf_obj_get p w := (default (- ENOENT) (paths w !! p), w);
  bpf_obj_pin fd p w :=
    match paths w !! p with
    | Some _ => (- EEXIST, w)
    | None => (0, set_paths w (<[p := fd]> (paths w)))
    end;
  sys_unlink p w :=
    match paths w !! p with
    | Some _ => (0, set_paths w (delete p (paths w)))
    | None => (- ENOENT, w)
    end;
  sys_mkdir _ w := (- EEXIST, w);
  sys_statfs _ _ := inr true;
  obj_info fd w := inr (MapInfo "map" (MapDef 1 4 12 1000 0));
  sys_open_root w := (50, w);
  sys_dup3 _ _ w := (50, w);
  sys_close _ w := (0, w);
  object_open f w := (files w !! f, w);
  kernel_load o w := (0, load_programs o, w);
}.

#[export] Instance laws : PinLaws t.
Proof.
  refine {| pins := paths |}.
  - intros fd p w w'. cbn. destruct (paths w !! p) eqn:E; [done|]. by intros [= <-].
  - intros fd p w e w'. cbn. destruct (paths w !! p); by intros [= <- <-].
  - intros p fd w Hp. cbn. rewrite Hp. by eexists.
  - intros d w e w' [= _ <-]. done.
  - done.
  - done.
  - done.
Defined.

Definition a_map (fd : Z) (nm : string) : bpf_map :=
  BpfMap_ fd nm 0 (MapDef 1 4 12 1000 0) None false false.
Definition a_program : bpf_program := BpfProgram 3 "xdp_filter" 0 0 0 [].
Definition object : bpf_object :=
  BpfObject_ [a_program] [a_map 3 "logger"; a_map 4 "blacklist"; a_map 5 "data"] true (-1) false.

Definition clean : t := Fs ∅ {["prog.o" := set_maps (BpfObject_ [a_program] [] false (-1) false)
                                             (maps object)]} ∅.
Definition dir : string := "/sys/fs/bpf/eth0".
(** The last map's path is taken. *)
Definition taken : t := Fs {["/sys/fs/bpf/eth0/data" := 9]} ∅ ∅.

Definition failed : Z * option bpf_object * t :=
  bpf_object__pin_maps (Some object) (Some dir) taken.
Definition done_ : Z * option bpf_object * t :=
  bpf_object__pin_maps (Some object) (Some dir) clean.

(** Two maps are pinned and unpinned again. *)
Lemma pin_maps_atomic_witness : fst (fst failed) = -17 /\ pins (snd failed) = pins taken.
Proof.
  split; [reflexivity|].
  apply (pin_maps_atomic dir object taken (-17) (snd (fst failed)) (snd failed));
    [reflexivity | repeat constructor | reflexivity | discriminate].
Defined.

Lemma pin_unpin_roundtrip_witness :
  exists o'' w'', bpf_object__unpin_maps (snd (fst done_)) (Some dir) (snd done_) = (0, o'', w'') /\
    pins w'' = pins clean.
Proof.
  apply (pin_unpin_roundtrip dir object clean);
    [reflexivity | repeat constructor | reflexivity].
Defined.

Lemma pin_maps_taken_witness :
  fst (fst (bpf_object__pin_maps (Some object) (Some dir) (snd done_))) <> 0.
Proof.
  eapply (pin_maps_taken dir object (snd done_) _ _ _ (a_map 3 "logger") _ 3);
    [reflexivity | repeat constructor | reflexivity | reflexivity | apply surjective_pairing_3].
Defined.

Definition request : bpf_prog_load_attr := LoadAttr (Some "prog.o") BPF_PROG_TYPE_XDP 0 4.

Lemma prog_load_xattr_loads_witness :
  exists file o0 o1 w0 first,
    attr_file request = Some file /\ object_open file clean = (Some o0, w0) /\
    kernel_load o1 w0 = (0, set_programs (set_maps object (prepare_map 4 <$> maps object))
        [BpfProgram 3 "xdp_filter" 4 6 0 [7]], clean) /\ loaded o0 = false /\
    Forall2 (fun p p' => if bpf_program__is_function_storage p o0 then p' = p
                         else prepared request p p') (programs o0) (programs o1) /\
    maps o1 = prepare_map (attr_ifindex request) <$> maps o0 /\
    head (for_each_program o1) = Some first /\ 7 = bpf_program__fd
      ([BpfProgram 3 "xdp_filter" 4 6 0 [7]] !! first).
Proof.
  apply (prog_load_xattr_loads request clean
    (set_programs (set_maps object (prepare_map 4 <$> maps object))
        [BpfProgram 3 "xdp_filter" 4 6 0 [7]]) 7 clean).
  vm_compute. reflexivity.
Defined.
End PinFs.
