(* ===== verification/XdpLink.v ===== *)
(** * Loading and attaching XDP programs

    Models [user+ebpf/main/common/common_user_bpf_xdp.c]: attaching and detaching
    a program, opening an object with or without pinned maps, the map checks.
    The link calls of libbpf are the class [LinkSys], its documented behaviour
    [LinkLaws].  Messages are left out, except the hints of [xdp_link_attach]. *)

From S2P Require Import Prelude BpfMap BpfObject Params.
From Stdlib Require Import Ascii String.

Local Open Scope Z_scope.

Definition EXIT_OK : Z := 0.
Definition EXIT_FAIL : Z := 1.
Definition EXIT_FAIL_XDP : Z := 30.
Definition EXIT_FAIL_BPF : Z := 40.
Definition EBUSY : Z := 16.
Definition EOPNOTSUPP : Z := 95.

(** ** The link layer *)

Class LinkSys (W : Type) := {
  (** [bpf_set_link_xdp_fd(ifindex, fd, flags)]: 0 or a negative error; a [fd] of
      -1 detaches. *)
  bpf_set_link_xdp_fd : Z -> Z -> Z -> W -> Z * W;
  (** [bpf_get_link_xdp_id]: the error and the identifier stored. *)
  bpf_get_link_xdp_id : Z -> Z -> W -> Z * Z;
}.

(** ** Attaching *)

Inductive hint := NoHint | UseForce | UseSkbMode.

Section Link.
Context {W : Type} `{LinkSys W}.

(** The exit code, the hint printed and the new state. *)
Definition xdp_link_attach (ifindex xdp_flags prog_fd : Z) (w : W) : Z * hint * W :=
  let '(err, w) := bpf_set_link_xdp_fd ifindex prog_fd xdp_flags w in
  let '(err, w) :=
    if (err =? - EEXIST) && (Z.land xdp_flags XDP_FLAGS_UPDATE_IF_NOEXIST =? 0) then
      let old_flags := xdp_flags in
      let xdp_flags := Z.land xdp_flags (Z.lnot XDP_FLAGS_MODES) in
      let xdp_flags := Z.lor xdp_flags (if negb (Z.land old_flags XDP_FLAGS_SKB_MODE =? 0)
                                        then XDP_FLAGS_DRV_MODE else XDP_FLAGS_SKB_MODE) in
      let '(err, w) := bpf_set_link_xdp_fd ifindex (-1) xdp_flags w in
      if err =? 0 then bpf_set_link_xdp_fd ifindex prog_fd old_flags w else (err, w)
    else (err, w) in
  if err <? 0 then
    let hint := if (- err =? EBUSY) || (- err =? EEXIST) then UseForce
                else if - err =? EOPNOTSUPP then UseSkbMode else NoHint in
    (EXIT_FAIL_XDP, hint, w)
  else (EXIT_OK, NoHint, w).

Definition xdp_link_detach (ifindex xdp_flags expected_prog_id : Z) (w : W) : Z * W :=
  let '(err, curr_prog_id) := bpf_get_link_xdp_id ifindex xdp_flags w in
  if negb (err =? 0) then (EXIT_FAIL_XDP, w) else
  if curr_prog_id =? 0 then (EXIT_OK, w) else
  if negb (expected_prog_id =? 0) && negb (curr_prog_id =? expected_prog_id)
  then (EXIT_FAIL, w) else
  let '(err, w) := bpf_set_link_xdp_fd ifindex (-1) xdp_flags w in
  if err <? 0 then (EXIT_FAIL_XDP, w) else (EXIT_OK, w).
End Link.

(** ** Objects *)

Section Load.
Context {W : Type} `{BpfSys W} `{LinkSys W}.

(** NULL is [None]. *)
Definition load_bpf_object_file (filename : string) (ifindex : Z) (w : W)
    : option bpf_object * W :=
  let prog_load_attr := LoadAttr (Some filename) BPF_PROG_TYPE_XDP 0 ifindex in
  let '(err, r, w) := bpf_prog_load_xattr prog_load_attr w in
  if negb (err =? 0) then (None, w) else (fst <$> r, w).

(** The loop over the programs. *)
Definition set_xdp (ifindex : Z) (o : bpf_object) (p : bpf_program) : bpf_program :=
  if bpf_program__is_function_storage p o then p
  else bpf_program__set_ifindex (bpf_program__set_type p BPF_PROG_TYPE_XDP) ifindex.

Definition open_bpf_object (file : string) (ifindex : Z) (w : W) : option bpf_object * W :=
  let '(obj, w) := object_open file w in
  match obj with
  | None => (None, w)
  | Some obj =>
      let first_prog := bpf_program__next None obj in
      let obj := set_programs obj (set_xdp ifindex obj <$> programs obj) in
      let obj := set_maps obj (prepare_map ifindex <$> maps obj) in
      match first_prog with None => (None, w) | Some _ => (Some obj, w) end
  end.

Fixpoint reuse_loop (path : string) (ms : list bpf_map) (w : W) : Z * list bpf_map * W :=
  match ms with
  | [] => (0, [], w)
  | m :: ms =>
      let buf := join_path path (map_name m) in
      if negb (fits_path buf) then (- ENAMETOOLONG, m :: ms, w) else
      let '(pinned_map_fd, w) := bpf_obj_get buf w in
      if pinned_map_fd <? 0 then (pinned_map_fd, m :: ms, w) else
      let '(err, m, w) := bpf_map__reuse_fd m pinned_map_fd w in
      if negb (err =? 0) then (err, m :: ms, w) else
      let '(err, ms, w) := reuse_loop path ms w in (err, m :: ms, w)
  end.

Definition reuse_maps (obj : option bpf_object) (path : option string) (w : W)
    : Z * option bpf_object * W :=
  match obj, path with
  | None, _ => (- ENOENT, obj, w)
  | _, None => (- EINVAL, obj, w)
  | Some o, Some path =>
      let '(err, ms, w) := reuse_loop path (maps o) w in (err, Some (set_maps o ms), w)
  end.

Definition load_bpf_object_file_reuse_maps (file : string) (ifindex : Z)
    (pin_dir : option string) (w : W) : option bpf_object * W :=
  let '(obj, w) := open_bpf_object file ifindex w in
  match obj with
  | None => (None, w)
  | Some _ =>
      let '(err, obj, w) := reuse_maps obj pin_dir w in
      if negb (err =? 0) then (None, w) else
      let '(err, obj, w) := bpf_object__load obj w in
      if negb (err =? 0) then (None, w) else (obj, w)
  end.

(** [None] when a buffer of the configuration is read without terminator. *)
Definition load_bpf_and_xdp_attach (cfg : User.config) (w : W)
    : option (outcome bpf_object * User.config * W) :=
  let offload_ifindex := if negb (Z.land (User.xdp_flags cfg) XDP_FLAGS_HW_MODE =? 0)
                         then User.ifindex cfg else 0 in
  filename ← cstr (User.filename cfg);
  '(bpf_obj, w) ←
    (if (User.reuse_maps cfg : bool)
     then pin_dir ← cstr (User.pin_dir cfg);
          Some (load_bpf_object_file_reuse_maps filename offload_ifindex (Some pin_dir) w)
     else Some (load_bpf_object_file filename offload_ifindex w));
  match bpf_obj with
  | None => Some (Exit EXIT_FAIL_BPF, cfg, w)
  | Some bpf_obj =>
      progsec ← cstr (User.progsec cfg);
      let bpf_prog := if decide (progsec = "") then bpf_program__next None bpf_obj
                      else bpf_object__find_program_by_title bpf_obj progsec in
      match bpf_prog ≫= fun i => programs bpf_obj !! i with
      | None => Some (Exit EXIT_FAIL_BPF, cfg, w)
      | Some prog =>
          let cfg := User.set_progsec (strncpy (bpf_program__title prog) 32) cfg in
          let prog_fd := bpf_program__fd (Some prog) in
          if prog_fd <=? 0 then Some (Exit EXIT_FAIL_BPF, cfg, w) else
          let '(err, _, w) := xdp_link_attach (User.ifindex cfg) (User.xdp_flags cfg) prog_fd w in
          if negb (err =? 0) then Some (Exit err, cfg, w) else Some (Ret bpf_obj, cfg, w)
      end
  end.

(** ** Pinned maps *)

(** The path is cut to the buffer. *)
Definition open_bpf_map_file (pin_dir mapname : string) (want_info : bool) (w : W)
    : Z * option bpf_map_info * W :=
  let filename := substring 0 4095 (join_path pin_dir mapname) in
  let '(fd, w) := bpf_obj_get filename w in
  if fd <? 0 then (fd, None, w) else
  if want_info then
    match obj_info fd w with
    | inl _ => (EXIT_FAIL_BPF, None, w)
    | inr info => (fd, Some info, w)
    end
  else (fd, None, w).
End Load.

(** Fields of [exp] that are 0 are not compared. *)
Definition check_map_fd_info (info exp : bpf_map_def) : Z :=
  if negb (key_size exp =? 0) && negb (key_size exp =? key_size info) then EXIT_FAIL else
  if negb (value_size exp =? 0) && negb (value_size exp =? value_size info) then EXIT_FAIL else
  if negb (max_entries exp =? 0) && negb (max_entries exp =? max_entries info) then EXIT_FAIL else
  if negb (type exp =? 0) && negb (type exp =? type info) then EXIT_FAIL else 0.

(** ** Names of the XDP actions *)

(** [XDP_REDIRECT + 1], and one more. *)
Definition XDP_UNKNOWN : Z := 4 + 1.
Definition XDP_ACTION_MAX : Z := XDP_UNKNOWN + 1.

Definition xdp_action_names : list string :=
  ["XDP_ABORTED"; "XDP_DROP"; "XDP_PASS"; "XDP_TX"; "XDP_REDIRECT"; "XDP_UNKNOWN"]%string.

(** [None] is NULL. *)
Definition action2str (action : Z) : option string :=
  if action <? XDP_ACTION_MAX then xdp_action_names !! Z.to_nat action else None.

(** ** What the link calls promise *)

Definition mode_of_flags (flags : Z) : Z := Z.land flags XDP_FLAGS_MODES.
Definition single_mode (flags : Z) : Prop :=
  mode_of_flags flags ∈ [XDP_FLAGS_SKB_MODE; XDP_FLAGS_DRV_MODE; XDP_FLAGS_HW_MODE].

(** An interface has at most one program per mode; a call that fails changes
    nothing, one that succeeds changes the slot it names. *)
Class LinkLaws (W : Type) `{LinkSys W} := {
  attached : W -> Z -> Z -> option Z;
  set_nonpos : forall ix fd fl w e w', bpf_set_link_xdp_fd ix fd fl w = (e, w') -> e <= 0;
  set_fails : forall ix fd fl w e w', bpf_set_link_xdp_fd ix fd fl w = (e, w') -> e <> 0 ->
    forall ix' m', attached w' ix' m' = attached w ix' m';
  set_slot : forall ix fd fl w w', bpf_set_link_xdp_fd ix fd fl w = (0, w') -> single_mode fl ->
    attached w' ix (mode_of_flags fl) = (if 0 <=? fd then Some fd else None) /\
    forall ix' m', (ix', m') <> (ix, mode_of_flags fl) -> attached w' ix' m' = attached w ix' m';
  (** An identifier of 0 means that the slot is empty. *)
  get_slot : forall ix fl w id, bpf_get_link_xdp_id ix fl w = (0, id) -> single_mode fl ->
    id = 0 -> attached w ix (mode_of_flags fl) = None;
}.

(** The mode the retry of [xdp_link_attach] clears. *)
Definition opposite_mode (flags : Z) : Z :=
  if negb (Z.land flags XDP_FLAGS_SKB_MODE =? 0) then XDP_FLAGS_DRV_MODE else XDP_FLAGS_SKB_MODE.

Lemma mode_of_opposite flags :
  mode_of_flags (Z.lor (Z.land flags (Z.lnot XDP_FLAGS_MODES)) (opposite_mode flags)) =
    opposite_mode flags.
Proof.
  assert (Z.land (opposite_mode flags) XDP_FLAGS_MODES = opposite_mode flags) as Ho
    by (unfold opposite_mode; by case_match).
  unfold mode_of_flags. rewrite Z.land_lor_distr_l, Ho, <- Z.land_assoc.
  by rewrite (Z.land_comm (Z.lnot _)), Z.land_lnot_diag, Z.land_0_r, Z.lor_0_l.
Qed.

Lemma opposite_single flags :
  single_mode (Z.lor (Z.land flags (Z.lnot XDP_FLAGS_MODES)) (opposite_mode flags)).
Proof.
  unfold single_mode. rewrite mode_of_opposite. unfold opposite_mode.
  case_match; rewrite !elem_of_cons; eauto.
Qed.

Lemma opposite_differs flags : single_mode flags -> opposite_mode flags <> mode_of_flags flags.
Proof.
  unfold single_mode, opposite_mode. intros Hm.
  assert (Z.land flags XDP_FLAGS_SKB_MODE = Z.land (mode_of_flags flags) XDP_FLAGS_SKB_MODE) as ->.
  { unfold mode_of_flags. by rewrite <- Z.land_assoc. }
  rewrite !elem_of_cons, elem_of_nil in Hm.
  destruct Hm as [-> | [-> | [-> | []]]]; done.
Qed.

Section LinkTheorems.
Context {W : Type} `{LinkLaws W}.

Definition same_links (w w' : W) : Prop :=
  forall ix m, attached w' ix m = attached w ix m.

Lemma attach_cases ix flags fd w r h w' :
  single_mode flags -> 0 <= fd -> xdp_link_attach ix flags fd w = (r, h, w') ->
  (r = EXIT_OK /\ attached w' ix (mode_of_flags flags) = Some fd /\
     forall ix' m', ix' <> ix -> attached w' ix' m' = attached w ix' m') \/
  (r = EXIT_FAIL_XDP /\ same_links w w') \/
  (r = EXIT_FAIL_XDP /\ Z.land flags XDP_FLAGS_UPDATE_IF_NOEXIST = 0 /\
     attached w' ix (opposite_mode flags) = None /\
     forall ix' m', (ix', m') <> (ix, opposite_mode flags) ->
       attached w' ix' m' = attached w ix' m').
Proof.
  intros Hm Hfd. unfold xdp_link_attach. fold (opposite_mode flags).
  set (fl := Z.lor _ (opposite_mode flags)).
  assert (forall w0 w1, bpf_set_link_xdp_fd ix fd flags w0 = (0, w1) ->
    attached w1 ix (mode_of_flags flags) = Some fd /\
    forall ix' m', ix' <> ix -> attached w1 ix' m' = attached w0 ix' m') as Hok.
  { intros w0 w1 E. apply set_slot in E as [E Hfr]; [|done].
    rewrite (proj2 (Z.leb_le _ _)) in E by done. split; [done|].
    intros ix' m' Hne. apply Hfr. by intros [= ? _]. }
  destruct (bpf_set_link_xdp_fd ix fd flags w) as [e w1] eqn:E1.
  pose proof (set_nonpos _ _ _ _ _ _ E1) as Hn1.
  destruct ((e =? - EEXIST) && _) eqn:Eretry.
  - apply andb_true_iff in Eretry as [->%Z.eqb_eq Hno%Z.eqb_eq].
    pose proof (set_fails _ _ _ _ _ _ E1 ltac:(done)) as Hs1.
    destruct (bpf_set_link_xdp_fd ix (-1) fl w1) as [e2 w2] eqn:E2.
    pose proof (set_nonpos _ _ _ _ _ _ E2) as Hn2.
    destruct (Z.eqb_spec e2 0) as [->|He2].
    + apply set_slot in E2 as [E2 Hfr]; [|apply opposite_single].
      unfold fl in E2, Hfr. rewrite mode_of_opposite in E2, Hfr. cbn in E2.
      destruct (bpf_set_link_xdp_fd ix fd flags w2) as [e3 w3] eqn:E3.
      pose proof (set_nonpos _ _ _ _ _ _ E3) as Hn3.
      destruct (Z.ltb_spec e3 0); intros [= <- _ <-].
      * right; right. pose proof (set_fails _ _ _ _ _ _ E3 ltac:(lia)) as Hs3.
        split; [done|]. split; [done|]. split; [by rewrite Hs3|].
        intros ix' m' Hne. by rewrite Hs3, Hfr, Hs1.
      * left. assert (e3 = 0) as -> by lia. destruct (Hok _ _ E3) as [? Hfr3].
        split; [done|]. split; [done|]. intros ix' m' Hne.
        rewrite Hfr3, Hfr, Hs1 by (done || by intros [= ? _]). done.
    + rewrite (proj2 (Z.ltb_lt e2 0)) by lia. intros [= <- _ <-]. right; left.
      pose proof (set_fails _ _ _ _ _ _ E2 He2) as Hs2.
      split; [done|]. intros ix' m'. by rewrite Hs2, Hs1.
  - destruct (Z.ltb_spec e 0); intros [= <- _ <-].
    + right; left. split; [done|]. intros ix' m'. eapply set_fails; [exact E1|lia].
    + left. assert (e = 0) as -> by lia. by destruct (Hok _ _ E1).
Qed.

(** C32. [xdp_link_attach] ends in one of three ways: the program is attached in the
    mode asked for; nothing changed; or, in force mode only, the program of the
    opposite mode has been removed and the new one could not replace it. *)
Theorem xdp_link_attach_spec ix flags fd w r h w' :
  single_mode flags -> 0 <= fd -> xdp_link_attach ix flags fd w = (r, h, w') ->
  (r = EXIT_OK /\ attached w' ix (mode_of_flags flags) = Some fd /\
     forall ix' m', ix' <> ix -> attached w' ix' m' = attached w ix' m') \/
  (r = EXIT_FAIL_XDP /\ same_links w w') \/
  (r = EXIT_FAIL_XDP /\ Z.land flags XDP_FLAGS_UPDATE_IF_NOEXIST = 0 /\
     attached w' ix (opposite_mode flags) = None /\
     forall ix' m', (ix', m') <> (ix, opposite_mode flags) ->
       attached w' ix' m' = attached w ix' m').
Proof. apply attach_cases. Qed.

(** Without force, a program already there is never touched. *)
Theorem attach_keeps_existing ix flags fd w r h w' :
  single_mode flags -> 0 <= fd -> Z.land flags XDP_FLAGS_UPDATE_IF_NOEXIST <> 0 ->
  xdp_link_attach ix flags fd w = (r, h, w') -> r <> EXIT_OK -> same_links w w'.
Proof.
  intros Hm Hfd Hno. unfold xdp_link_attach.
  destruct (bpf_set_link_xdp_fd ix fd flags w) as [e w1] eqn:E1.
  rewrite (proj2 (Z.eqb_neq _ _) Hno), andb_false_r.
  destruct (Z.ltb_spec e 0); intros [= <- _ <-] Hr; [|done].
  intros ix' m'. eapply set_fails; [exact E1|lia].
Qed.

(** After a successful detach the slot is empty; when the identifier is not the
    expected one, or any call fails, nothing has changed. *)
Theorem xdp_link_detach_spec ix flags expected w r w' :
  single_mode flags -> xdp_link_detach ix flags expected w = (r, w') ->
  if r =? EXIT_OK
  then attached w' ix (mode_of_flags flags) = None /\
       forall ix' m', (ix', m') <> (ix, mode_of_flags flags) ->
         attached w' ix' m' = attached w ix' m'
  else same_links w w'.
Proof.
  intros Hm. unfold xdp_link_detach.
  destruct (bpf_get_link_xdp_id ix flags w) as [e id] eqn:E.
  destruct (Z.eqb_spec e 0) as [->|]; cbn [negb]; [|by intros [= <- <-]].
  destruct (Z.eqb_spec id 0) as [->|Hid].
  { intros [= <- <-]. cbn. split; [|done]. by eapply get_slot. }
  destruct (negb (expected =? 0) && negb (id =? expected)); [by intros [= <- <-]|].
  destruct (bpf_set_link_xdp_fd ix (-1) flags w) as [e2 w2] eqn:E2.
  pose proof (set_nonpos _ _ _ _ _ _ E2) as Hn2.
  destruct (Z.ltb_spec e2 0); intros [= <- <-]; cbn.
  - intros ix' m'. eapply set_fails; [exact E2|lia].
  - assert (e2 = 0) as -> by lia. by apply set_slot in E2.
Qed.
End LinkTheorems.

(** ** Map information *)

(** [check_map_fd_info] accepts a map exactly when it agrees with every field
    the caller asks about. *)
Theorem check_map_fd_info_spec info exp :
  check_map_fd_info info exp = 0 <->
    (key_size exp = 0 \/ key_size exp = key_size info) /\
    (value_size exp = 0 \/ value_size exp = value_size info) /\
    (max_entries exp = 0 \/ max_entries exp = max_entries info) /\
    (type exp = 0 \/ type exp = type info).
Proof.
  assert (forall x y, negb (x =? 0) && negb (x =? y) = false <-> x = 0 \/ x = y) as Hx.
  { intros x y. rewrite andb_false_iff, !negb_false_iff, !Z.eqb_eq. done. }
  unfold check_map_fd_info, EXIT_FAIL.
  rewrite <- !Hx.
  repeat (destruct (_ && _)); split; try done; intros (? & ? & ? & ?); done.
Qed.

(** Every action of the enumeration has its name, and no other value has one. *)
Theorem action2str_spec action :
  0 <= action -> is_Some (action2str action) <-> action <= XDP_UNKNOWN.
Proof.
  intros Ha. unfold action2str, XDP_ACTION_MAX. destruct (Z.ltb_spec action (XDP_UNKNOWN + 1)).
  - split; [lia|]. intros _. apply lookup_lt_is_Some_2.
    unfold XDP_UNKNOWN in *. cbn. lia.
  - split; [by intros [? ?]|lia].
Qed.

Section MapFile.
Context {W : Type} `{BpfSys W}.

(** When the information of a pinned map cannot be read, the answer is the exit
    code 40, which the caller cannot tell from a descriptor. *)
Theorem map_info_error_is_a_descriptor pin_dir mapname w fd w1 errno :
  bpf_obj_get (substring 0 4095 (join_path pin_dir mapname)) w = (fd, w1) ->
  0 <= fd -> obj_info fd w1 = inl errno ->
  exists r, open_bpf_map_file pin_dir mapname true w = (r, None, w1) /\ 0 <= r.
Proof.
  intros Hg Hfd Hi. unfold open_bpf_map_file. rewrite Hg.
  rewrite (proj2 (Z.ltb_ge _ _)) by done. rewrite Hi. by eexists.
Qed.

(** A map directory longer than the buffer makes [reuse_maps] fail cleanly: the
    object and the system are as before. *)
Theorem reuse_maps_long_path o path m ms w :
  maps o = m :: ms -> PATH_MAX <= Z.of_nat (String.length (join_path path (map_name m))) ->
  reuse_maps (Some o) (Some path) w = (- ENAMETOOLONG, Some (set_maps o (maps o)), w).
Proof.
  intros Hm Hl. unfold reuse_maps. rewrite Hm. cbn [reuse_loop]. unfold fits_path.
  by rewrite (proj2 (Z.ltb_ge _ _)) by done.
Qed.
End MapFile.

(** ** Loading and attaching *)

Section LoadTheorems.
Context {W : Type} `{BpfSys W} `{LinkLaws W}.

Lemma first_program_real o i :
  bpf_program__next None o = Some i -> real_program o i = true.
Proof.
  rewrite program_next_spec. destruct (List.filter _ _) as [|j l] eqn:E; [done|].
  intros [= <-]. assert (In j (j :: l)) as Hin by (by left). rewrite <- E in Hin.
  by apply filter_In in Hin as [_ ?].
Qed.

Lemma program_by_title o s i :
  bpf_object__find_program_by_title o s = Some i ->
  real_program o i = true /\ section_name <$> programs o !! i = Some s.
Proof.
  unfold bpf_object__find_program_by_title. intros Hi.
  assert (i ∈ filter (fun i => section_name <$> programs o !! i = Some s) (for_each_program o))
    as Hin.
  { destruct (filter _ _); [done|]. injection Hi as ->. by left. }
  apply list_elem_of_filter in Hin as [? Hin]. split; [|done].
  rewrite program_order, list_elem_of_In in Hin. by apply filter_In in Hin as [_ ?].
Qed.

(** When the loader goes on, the program it attached is one of the object's, the
    one of the section asked for if any, by its own descriptor and in the mode of
    the flags; otherwise the process ends with one of two codes. *)
Theorem load_and_attach_spec cfg w r cfg' w' :
  single_mode (User.xdp_flags cfg) ->
  load_bpf_and_xdp_attach cfg w = Some (r, cfg', w') ->
  match r with
  | Exit code => code = EXIT_FAIL_BPF \/ code = EXIT_FAIL_XDP
  | Ret obj => exists i p s,
      programs obj !! i = Some p /\ real_program obj i = true /\
      cstr (User.progsec cfg) = Some s /\ (s = "" \/ section_name p = s) /\
      0 < bpf_program__fd (Some p) /\
      attached w' (User.ifindex cfg) (mode_of_flags (User.xdp_flags cfg)) =
        Some (bpf_program__fd (Some p))
  end.
Proof.
  intros Hm. unfold load_bpf_and_xdp_attach.
  destruct (cstr (User.filename cfg)) as [file|]; [|done]. cbn [mbind option_bind].
  match goal with |- context [mbind _ ?e] => destruct e as [[[obj|] w1]|]; [| |done] end;
    cbn [mbind option_bind]; [|intros [= <- _ _]; by left].
  destruct (cstr (User.progsec cfg)) as [s|]; [|done]. cbn [mbind option_bind].
  destruct (if decide (s = "") then _ else _) as [i|] eqn:Ei; cbn [mbind option_bind];
    [|intros [= <- _ _]; by left].
  destruct (programs obj !! i) as [p|] eqn:Ep; [|intros [= <- _ _]; by left].
  destruct (Z.leb_spec (bpf_program__fd (Some p)) 0); [intros [= <- _ _]; by left|].
  destruct (xdp_link_attach _ _ _ w1) as [[e h] w2] eqn:Ea.
  apply attach_cases in Ea; [|done|lia].
  destruct (Z.eqb_spec e 0) as [->|Hne]; cbn [negb]; intros [= <- _ <-].
  - destruct Ea as [(_ & Ha & _)|[[? _]|[? _]]]; [|done|done].
    exists i, p, s. split; [done|].
    assert (real_program obj i = true /\ (s = "" \/ section_name p = s)) as [? ?].
    { case_decide; [split; [by apply first_program_real|by left]|].
      apply program_by_title in Ei as [? Es]. rewrite Ep in Es.
      split; [done|right]. by injection Es. }
    done.
  - right. by destruct Ea as [[? _]|[[? _]|[? _]]].
Qed.
End LoadTheorems.

(** ** Example: a machine with one interface *)

Module LinkExamples.
Import PinFs.

Definition set_links (w : t) (l : gmap (Z * Z) Z) : t := Fs (paths w) (files w) l.

Definition modes : list Z := [XDP_FLAGS_SKB_MODE; XDP_FLAGS_DRV_MODE; XDP_FLAGS_HW_MODE].

(** Auto mode takes the driver's. *)
Definition slot (fl : Z) : Z :=
  if mode_of_flags fl =? 0 then XDP_FLAGS_DRV_MODE else mode_of_flags fl.

Definition busy_elsewhere (w : t) (ix m : Z) : bool :=
  existsb (fun m' => negb (m' =? m) && bool_decide (is_Some (links w !! (ix, m')))) modes.

#[export] Instance link_sys : LinkSys t := {
  bpf_set_link_xdp_fd ix fd fl w :=
    if fd <? 0 then (0, set_links w (delete (ix, slot fl) (links w))) else
    if negb (Z.land fl XDP_FLAGS_UPDATE_IF_NOEXIST =? 0) &&
       bool_decide (is_Some (links w !! (ix, slot fl))) then (- EBUSY, w) else
    if busy_elsewhere w ix (slot fl) then (- EEXIST, w) else
    (0, set_links w (<[(ix, slot fl) := fd]> (links w)));
  bpf_get_link_xdp_id ix fl w :=
    (0, match links w !! (ix, slot fl) with Some fd => Z.abs fd + 1 | None => 0 end);
}.

Lemma slot_single fl : single_mode fl -> slot fl = mode_of_flags fl.
Proof.
  unfold single_mode, slot. rewrite !elem_of_cons, elem_of_nil.
  by intros [-> | [-> | [-> | []]]].
Qed.

#[export] Instance link_laws : LinkLaws t.
Proof.
  refine {| attached w ix m := links w !! (ix, m) |}.
  - intros ix fd fl w e w'. cbn. intros H. repeat case_match; simplify_eq; unfold EBUSY, EEXIST; lia.
  - intros ix fd fl w e w'. cbn. intros H. repeat case_match; simplify_eq; done.
  - intros ix fd fl w w'. cbn [bpf_set_link_xdp_fd link_sys]. intros H Hs. rewrite (slot_single _ Hs) in *.
    destruct (Z.ltb_spec fd 0) as [Hfd|Hfd].
    + injection H as <-. rewrite (proj2 (Z.leb_gt _ _)) by done. cbn.
      rewrite lookup_delete_eq. split; [done|]. intros. by apply lookup_delete_ne.
    + rewrite (proj2 (Z.leb_le _ _)) by done.
      destruct (_ && _); [done|]. destruct (busy_elsewhere _ _ _); [done|]. injection H as <-. cbn.
      rewrite lookup_insert_eq. split; [done|]. intros. by apply lookup_insert_ne.
  - intros ix fl w id. cbn. intros [= <-] Hs Hid. rewrite (slot_single _ Hs) in *.
    destruct (links w !! _); [lia|done].
Defined.

Definition native : Z := XDP_FLAGS_DRV_MODE.
(** A generic-mode program is in place. *)
Definition generic_loaded : t := Fs ∅ ∅ {[(2, XDP_FLAGS_SKB_MODE) := 5]}.

Ltac single := unfold single_mode; rewrite !elem_of_cons; vm_compute; tauto.

Lemma xdp_link_attach_spec_witness :
  exists w', xdp_link_attach 2 native 7 generic_loaded = (EXIT_OK, NoHint, w') /\
    attached w' 2 XDP_FLAGS_DRV_MODE = Some 7.
Proof.
  eexists. split; [reflexivity|].
  destruct (xdp_link_attach_spec 2 native 7 generic_loaded EXIT_OK NoHint _ ltac:(single)
              ltac:(lia) eq_refl) as [(_ & Ha & _)|[[? _]|[? _]]]; [exact Ha|discriminate..].
Defined.

Lemma attach_keeps_existing_witness :
  same_links generic_loaded (snd (xdp_link_attach 2 (Z.lor native 1) 7 generic_loaded)).
Proof.
  eapply (attach_keeps_existing 2 (Z.lor native 1) 7 generic_loaded EXIT_FAIL_XDP UseForce);
    [single | lia | discriminate | reflexivity | discriminate].
Defined.

Lemma xdp_link_detach_spec_witness :
  attached (snd (xdp_link_detach 2 XDP_FLAGS_SKB_MODE 0 generic_loaded)) 2 XDP_FLAGS_SKB_MODE = None.
Proof.
  apply (xdp_link_detach_spec 2 XDP_FLAGS_SKB_MODE 0 generic_loaded EXIT_OK
           (snd (xdp_link_detach 2 XDP_FLAGS_SKB_MODE 0 generic_loaded)));
    [single | reflexivity].
Defined.

(** The configuration the loader's [main] builds. *)
Definition cfg : User.config :=
  User.Config native 2 true [] 0 false [] false false [] (strncpy "prog.o" 512)
    (strncpy "xdp_filter" 32) [] [] 0 0 false.

Definition loaded_obj : bpf_object :=
  set_programs (set_maps object (prepare_map 0 <$> maps object)) [BpfProgram 3 "xdp_filter" 0 6 0 [7]].

Lemma load_and_attach_spec_witness :
  exists i p s, programs loaded_obj !! i = Some p /\ real_program loaded_obj i = true /\
    cstr (User.progsec cfg) = Some s /\ (s = "" \/ section_name p = s) /\
    0 < bpf_program__fd (Some p) /\
    attached (set_links clean {[(2, native) := 7]}) 2 native = Some (bpf_program__fd (Some p)).
Proof.
  apply (load_and_attach_spec cfg clean (Ret loaded_obj) cfg (set_links clean {[(2, native) := 7]}));
    [single | vm_compute; reflexivity].
Defined.

(** A system that opens the map and cannot describe it. *)
Definition no_info : BpfSys t := {|
  bpf_obj_get p w := (3, w); bpf_obj_pin := bpf_obj_pin; sys_unlink := sys_unlink;
  sys_mkdir := sys_mkdir; sys_statfs := sys_statfs; obj_info _ _ := inl (-1);
  sys_open_root := sys_open_root; sys_dup3 := sys_dup3; sys_close := sys_close;
  object_open := object_open; kernel_load := kernel_load;
|}.

Lemma map_info_error_is_a_descriptor_witness :
  exists r, open_bpf_map_file (H := no_info) "dir" "logger" true clean = (r, None, clean) /\ 0 <= r.
Proof.
  apply (map_info_error_is_a_descriptor (H := no_info) "dir" "logger" clean 3 clean (-1));
    [reflexivity | lia | reflexivity].
Defined.

Lemma action2str_spec_witness : is_Some (action2str 4) <-> 4 <= XDP_UNKNOWN.
Proof. apply action2str_spec. lia. Defined.

Definition long_dir : string := string_of_list_ascii (replicate 4096 "d"%char).

Lemma reuse_maps_long_path_witness :
  reuse_maps (Some object) (Some long_dir) clean =
    (- ENAMETOOLONG, Some (set_maps object (maps object)), clean).
Proof.
  eapply (reuse_maps_long_path object long_dir (a_map 3 "logger"));
    [reflexivity | vm_compute; discriminate].
Defined.
End LinkExamples.
