(* ===== verification/LibXdp.v ===== *)
(** * The loader of the in-kernel program

    Models the functions of [fully_in-kernel/common/common_user_bpf_xdp.c] that
    differ from the other loader's: [load_bpf_and_xdp_attach] and [do_unload],
    written on libxdp, which is outside the repository.  Its
    [reuse_maps], [check_map_fd_info], [open_bpf_map_file] and [action2str] are the
    text modelled in [XdpLink], and [load_bpf_object_file_reuse_maps] is compiled
    out ([#if 0]).  Messages are left out. *)

From S2P Require Import Prelude BpfMap Params BpfObject XdpLink.
From Stdlib Require Import Ascii String.

Local Open Scope Z_scope.

(** ** Functions with the text of the other loader's *)

Definition reuse_maps {W} `{BpfSys W} := XdpLink.reuse_maps (W := W).
Definition xdp_action_names := XdpLink.xdp_action_names.
Definition action2str := XdpLink.action2str.
Definition check_map_fd_info := XdpLink.check_map_fd_info.
Definition open_bpf_map_file {W} `{BpfSys W} := XdpLink.open_bpf_map_file (W := W).

(** ** libxdp

    [P] are programs, [MP] the program (or dispatcher with its programs) of an
    interface.  A function that answers a pointer answers an [option]; an error
    pointer is [inl]. *)
Class LibXdp (W MP P : Type) := {
  xdp_program__create : string -> string -> W -> (Z + P) * W;
  xdp_program__attach : P -> Z -> Kernel.xdp_attach_mode -> W -> Z * W;
  xdp_program__detach : option P -> Z -> Kernel.xdp_attach_mode -> W -> Z * W;
  xdp_program__fd : P -> W -> Z;
  (** The identifier of a program; NULL has one too. *)
  xdp_program__id : option P -> W -> Z;
  xdp_multiprog__get_from_ifindex : Z -> W -> (Z + option MP) * W;
  xdp_multiprog__detach : MP -> W -> Z * W;
  xdp_multiprog__close : option MP -> W -> W;
  (** The programs [xdp_multiprog__next_prog] answers one after the other. *)
  xdp_multiprog__progs : MP -> W -> list P;
  xdp_multiprog__is_legacy : MP -> bool;
  xdp_multiprog__main_prog : MP -> option P;
  xdp_multiprog__hw_prog : MP -> option P;
  xdp_multiprog__attach_mode : MP -> Kernel.xdp_attach_mode;
}.

Definition EXIT_SUCCESS : Z := 0.
Definition EXIT_FAILURE : Z := 1.

Section LibXdp.
Context {W MP P : Type} `{LibXdp W MP P}.

(** [None] when a buffer of the configuration is read without terminator. *)
Definition load_bpf_and_xdp_attach (cfg : Kernel.config) (w : W) : option (outcome P * W) :=
  open_filename ← cstr (Kernel.filename cfg);
  prog_name ← cstr (Kernel.progname cfg);
  match xdp_program__create open_filename prog_name w with
  | (inl _, w) => Some (Exit EXIT_FAIL_BPF, w)
  | (inr prog, w) =>
      let '(err, w) := xdp_program__attach prog (Kernel.ifindex cfg) (Kernel.attach_mode cfg) w in
      if negb (err =? 0) then Some (Exit err, w) else
      if xdp_program__fd prog w <? 0 then Some (Exit EXIT_FAIL_BPF, w) else
      Some (Ret prog, w)
  end.

(** The search of [do_unload]: the program with the identifier and its mode. *)
Definition find_prog (mp : MP) (prog_id : Z) (w : W)
    : option (option P * Kernel.xdp_attach_mode) :=
  match find (fun prog => xdp_program__id (Some prog) w =? prog_id) (xdp_multiprog__progs mp w) with
  | Some prog => Some (Some prog, xdp_multiprog__attach_mode mp)
  | None =>
      let main := xdp_multiprog__main_prog mp in
      let hw := xdp_multiprog__hw_prog mp in
      if xdp_multiprog__is_legacy mp && (xdp_program__id main w =? prog_id)
      then Some (main, xdp_multiprog__attach_mode mp)
      else if xdp_program__id hw w =? prog_id then Some (hw, Kernel.XDP_MODE_HW)
      else None
  end.

Definition do_unload (cfg : Kernel.config) (w : W) : Z * W :=
  let '(mp, w) := xdp_multiprog__get_from_ifindex (Kernel.ifindex cfg) w in
  let '(err, mp, w) :=
    match mp with
    | inl _ => (EXIT_FAILURE, None, w)
    | inr None => (EXIT_FAILURE, None, w)
    | inr (Some mp) =>
        if Kernel.unload_all cfg
        then let '(err, w) := xdp_multiprog__detach mp w in (err, Some mp, w)
        else
          match find_prog mp (Kernel.prog_id cfg) w with
          | None => (- ENOENT, Some mp, w)
          | Some (prog, mode) =>
              let '(err, w) := xdp_program__detach prog (Kernel.ifindex cfg) mode w in
              (err, Some mp, w)
          end
    end in
  (if negb (err =? 0) then EXIT_FAILURE else EXIT_SUCCESS, xdp_multiprog__close mp w).

(** ** Theorems *)

(** The search prefers the programs of the dispatcher, in their order, then the
    legacy program, then the hardware one, and only answers a program with the
    identifier asked for. *)
Lemma find_prog_id mp id w prog mode :
  find_prog mp id w = Some (prog, mode) -> xdp_program__id prog w = id.
Proof.
  unfold find_prog. destruct (find _ _) as [p|] eqn:E.
  - apply find_some in E as [_ E%Z.eqb_eq]. by intros [= <- _].
  - destruct (xdp_multiprog__is_legacy mp); cbn [andb];
      [destruct (Z.eqb_spec (xdp_program__id (xdp_multiprog__main_prog mp) w) id)|];
      [by intros [= <- _]| |];
      destruct (Z.eqb_spec (xdp_program__id (xdp_multiprog__hw_prog mp) w) id);
      by try intros [= <- _].
Qed.

Lemma find_prog_None mp id w prog :
  find_prog mp id w = None -> prog ∈ xdp_multiprog__progs mp w ->
  xdp_program__id (Some prog) w <> id.
Proof.
  unfold find_prog. destruct (find _ _) eqn:E; [done|]. intros _ Hin.
  apply list_elem_of_In in Hin. by eapply find_none, Z.eqb_neq in E.
Qed.

(** Unloading by identifier detaches one program, the one with that identifier,
    and reports success exactly when libxdp does; when the interface has no such
    program it reports a failure and detaches nothing. *)
Theorem do_unload_by_id cfg mp w w0 :
  Kernel.unload_all cfg = false ->
  xdp_multiprog__get_from_ifindex (Kernel.ifindex cfg) w = (inr (Some mp), w0) ->
  (exists prog mode err w1, xdp_program__id prog w0 = Kernel.prog_id cfg /\
     xdp_program__detach prog (Kernel.ifindex cfg) mode w0 = (err, w1) /\
     do_unload cfg w = (if err =? 0 then EXIT_SUCCESS else EXIT_FAILURE,
                        xdp_multiprog__close (Some mp) w1)) \/
  ((forall prog, prog ∈ xdp_multiprog__progs mp w0 ->
      xdp_program__id (Some prog) w0 <> Kernel.prog_id cfg) /\
   do_unload cfg w = (EXIT_FAILURE, xdp_multiprog__close (Some mp) w0)).
Proof.
  intros Hall Hg. unfold do_unload. rewrite Hg, Hall.
  destruct (find_prog mp (Kernel.prog_id cfg) w0) as [[prog mode]|] eqn:E.
  - left. destruct (xdp_program__detach prog (Kernel.ifindex cfg) mode w0) as [err w1] eqn:Ed.
    exists prog, mode, err, w1. split; [by eapply find_prog_id|]. split; [done|].
    by destruct (err =? 0).
  - right. split; [|done]. intros prog. by apply find_prog_None.
Qed.

(** The process goes on only with a program that libxdp has created from the
    file and the program name, attached to the interface in the mode asked for,
    and that has a descriptor. *)
Theorem kernel_load_attach_spec cfg w prog w' :
  load_bpf_and_xdp_attach cfg w = Some (Ret prog, w') ->
  exists file name w0, cstr (Kernel.filename cfg) = Some file /\
    cstr (Kernel.progname cfg) = Some name /\
    xdp_program__create file name w = (inr prog, w0) /\
    xdp_program__attach prog (Kernel.ifindex cfg) (Kernel.attach_mode cfg) w0 = (0, w') /\
    0 <= xdp_program__fd prog w'.
Proof.
  unfold load_bpf_and_xdp_attach.
  destruct (cstr (Kernel.filename cfg)) as [file|]; [|done].
  destruct (cstr (Kernel.progname cfg)) as [name|]; [|done]. cbn [mbind option_bind].
  destruct (xdp_program__create file name w) as [[e|p] w0] eqn:Ec; [done|].
  destruct (xdp_program__attach p _ _ w0) as [err w1] eqn:Ea.
  destruct (Z.eqb_spec err 0) as [->|]; cbn [negb]; [|done].
  destruct (Z.ltb_spec (xdp_program__fd p w1) 0); [done|]. intros [= <- <-].
  by exists file, name, w0.
Qed.
End LibXdp.

(** ** Example: an interface with two programs *)

Module LibXdpExamples.
(** The identifiers of the programs attached, in order. *)
Definition world : Type := list Z.

#[local] Instance libxdp : LibXdp world unit Z := {
  xdp_program__create f n w := (inr 5, w);
  xdp_program__attach p ix m w := (0, w ++ [p]);
  xdp_program__detach p ix m w :=
    match p with Some p => (0, filter (fun x => x <> p) w) | None => (- EINVAL, w) end;
  xdp_program__fd p w := 7;
  xdp_program__id p w := default 0 p;
  xdp_multiprog__get_from_ifindex ix w := (inr (Some tt), w);
  xdp_multiprog__detach mp w := (0, []);
  xdp_multiprog__close mp w := w;
  xdp_multiprog__progs mp w := w;
  xdp_multiprog__is_legacy mp := false;
  xdp_multiprog__main_prog mp := None;
  xdp_multiprog__hw_prog mp := None;
  xdp_multiprog__attach_mode mp := Kernel.XDP_MODE_NATIVE;
}.

Definition cfg : Kernel.config :=
  Kernel.Config Kernel.XDP_MODE_NATIVE 1 2 true [] 0 false [] true 4 false [] (strncpy "prog.o" 512)
    (strncpy "xdp_filter" 32) [] [] 0 0 false false.

Example unload_4 : do_unload cfg [3; 4] = (EXIT_SUCCESS, [3]).
Proof. reflexivity. Qed.

Lemma do_unload_by_id_witness :
  (exists prog mode err w1, xdp_program__id prog [3; 4] = 4 /\
     xdp_program__detach prog 2 mode [3; 4] = (err, w1) /\
     do_unload cfg [3; 4] = (if err =? 0 then EXIT_SUCCESS else EXIT_FAILURE,
                        xdp_multiprog__close (Some tt) w1)) \/
  ((forall prog, prog ∈ xdp_multiprog__progs tt [3; 4] ->
      xdp_program__id (Some prog) [3; 4] <> 4) /\
   do_unload cfg [3; 4] = (EXIT_FAILURE, xdp_multiprog__close (Some tt) [3; 4])).
Proof. apply (do_unload_by_id cfg tt [3; 4] [3; 4]); reflexivity. Defined.

Lemma kernel_load_attach_spec_witness :
  exists file name w0, cstr (Kernel.filename cfg) = Some file /\
    cstr (Kernel.progname cfg) = Some name /\
    xdp_program__create file name [] = (inr 5, w0) /\
    xdp_program__attach 5 2 Kernel.XDP_MODE_NATIVE w0 = (0, [5]) /\ 0 <= xdp_program__fd 5 [5].
Proof. apply (kernel_load_attach_spec cfg [] 5 [5]). vm_compute. reflexivity. Defined.
End LibXdpExamples.
