(* ===== verification/PinLoad.v ===== *)
(** * Loading with pinned maps

    Models [bpf_prog_load_xattr_maps] of [user+ebpf/main/common/common_libbpf.c]
    (the same text under [fully_in-kernel/common]): maps that are already pinned
    replace those of the object, the others are pinned after loading.  [None] is
    an undefined behaviour: the attribute is read before the test for NULL, and a
    map's name is compared after [bpf_map__reuse_fd] has freed it. *)

From S2P Require Import Prelude BpfMap BpfObject.
From Stdlib Require Import Ascii String.

Local Open Scope Z_scope.

(** [struct bpf_pinned_map]. *)
Record bpf_pinned_map := PinnedMap { pm_name : string; pm_filename : string; pm_fd : Z }.

(** [struct bpf_prog_load_attr_maps]; [nr_pinned_maps] is the length of the list. *)
Record bpf_prog_load_attr_maps := LoadAttrMaps {
  am_file : option string;
  am_prog_type : Z;
  am_expected_attach_type : Z;
  am_ifindex : Z;
  am_pinned_maps : list bpf_pinned_map;
}.

Definition set_map_fd (fd : Z) (pm : bpf_pinned_map) : bpf_pinned_map :=
  PinnedMap (pm_name pm) (pm_filename pm) fd.

Section PinLoad.
Context {W : Type} `{BpfSys W}.

(** The inner loop before loading, for one map.  [mapname] was read once; it is
    [valid] until the map's name is replaced. *)
Fixpoint reuse_pins (mapname : string) (valid : bool) (m : bpf_map) (pms : list bpf_pinned_map)
    (w : W) : option (bpf_map * list bpf_pinned_map * W) :=
  match pms with
  | [] => Some (m, [], w)
  | pm :: pms =>
      if negb valid then None else
      if decide (mapname <> pm_name pm) then
        '(m, pms, w) ← reuse_pins mapname valid m pms w; Some (m, pm :: pms, w)
      else
        let '(fd, w) := bpf_obj_get (pm_filename pm) w in
        if 0 <? fd then
          let '(err, m, w) := bpf_map__reuse_fd m fd w in
          '(m, pms, w) ← reuse_pins mapname (negb (err =? 0)) m pms w;
          Some (m, set_map_fd fd pm :: pms, w)
        else
          '(m, pms, w) ← reuse_pins mapname valid m pms w; Some (m, pm :: pms, w)
  end.

Fixpoint reuse_all (ifindex : Z) (ms : list bpf_map) (pms : list bpf_pinned_map) (w : W)
    : option (list bpf_map * list bpf_pinned_map * W) :=
  match ms with
  | [] => Some ([], pms, w)
  | m :: ms =>
      '(m, pms, w) ← reuse_pins (map_name m) true (prepare_map ifindex m) pms w;
      '(ms, pms, w) ← reuse_all ifindex ms pms w;
      Some (m :: ms, pms, w)
  end.

(** The inner loop after loading. *)
Fixpoint pin_new (m : bpf_map) (pms : list bpf_pinned_map) (w : W)
    : bpf_map * list bpf_pinned_map * W :=
  match pms with
  | [] => (m, [], w)
  | pm :: pms =>
      if decide (map_name m <> pm_name pm) then
        let '(m, pms, w) := pin_new m pms w in (m, pm :: pms, w)
      else if negb (pm_fd pm =? -1) then
        let '(m, pms, w) := pin_new m pms w in (m, pm :: pms, w)
      else
        let '(err, m, w) := bpf_map__pin m (Some (pm_filename pm)) w in
        let pm := if negb (err =? 0) then pm else set_map_fd (bpf_map__fd (Some m)) pm in
        let '(m, pms, w) := pin_new m pms w in (m, pm :: pms, w)
  end.

Fixpoint pin_new_all (ms : list bpf_map) (pms : list bpf_pinned_map) (w : W)
    : list bpf_map * list bpf_pinned_map * W :=
  match ms with
  | [] => ([], pms, w)
  | m :: ms =>
      let '(m, pms, w) := pin_new m pms w in
      let '(ms, pms, w) := pin_new_all ms pms w in (m :: ms, pms, w)
  end.

Definition prepare_prog (attr : bpf_prog_load_attr_maps) (o : bpf_object) (p : bpf_program)
    : bpf_program :=
  if bpf_program__is_function_storage p o then p else
  bpf_program__set_expected_attach_type
    (bpf_program__set_type (bpf_program__set_ifindex p (am_ifindex attr)) (am_prog_type attr))
    (am_expected_attach_type attr).

(** The result code, the object with the descriptor of its first program, the
    pinned maps as left, the state. *)
Definition bpf_prog_load_xattr_maps (attr : option bpf_prog_load_attr_maps) (w : W)
    : option (Z * option (bpf_object * Z) * list bpf_pinned_map * W) :=
  attr ← attr;
  let pms := am_pinned_maps attr in
  match am_file attr with
  | None => Some (- EINVAL, None, pms, w)
  | Some file =>
      let '(obj, w) := object_open file w in
      match obj with
      | None => Some (- ENOENT, None, pms, w)
      | Some obj =>
          let first_prog := bpf_program__next None obj in
          let obj := set_programs obj (prepare_prog attr obj <$> programs obj) in
          '(ms, pms, w) ← reuse_all (am_ifindex attr) (maps obj) (set_map_fd (-1) <$> pms) w;
          let obj := set_maps obj ms in
          match first_prog with
          | None => Some (- ENOENT, None, pms, bpf_object__close obj w)
          | Some first_prog =>
              let '(err, obj', w) := bpf_object__load (Some obj) w in
              let obj := default obj obj' in
              if negb (err =? 0) then Some (- EINVAL, None, pms, bpf_object__close obj w) else
              let '(ms, pms, w) := pin_new_all (maps obj) pms w in
              let obj := set_maps obj ms in
              Some (0, Some (obj, bpf_program__fd (programs obj !! first_prog)), pms, w)
          end
      end
  end.

(** ** Theorems *)

(** A caller that passes NULL gets no [-EINVAL]: the test comes too late. *)
Theorem null_attr_undefined w : bpf_prog_load_xattr_maps None w = None.
Proof. done. Qed.

(** When the pinned copy of a map is taken over and another pinned map follows in
    the caller's array, the map's freed name is read. *)
Theorem reuse_reads_freed_name m pm pm' pms w fd w1 m' w2 :
  map_name m = pm_name pm -> bpf_obj_get (pm_filename pm) w = (fd, w1) -> 0 < fd ->
  bpf_map__reuse_fd m fd w1 = (0, m', w2) ->
  reuse_pins (map_name m) true m (pm :: pm' :: pms) w = None.
Proof.
  intros Hn Hg Hfd Hr. cbn [reuse_pins negb]. rewrite decide_False by (by intros []).
  rewrite Hg, (proj2 (Z.ltb_lt _ _)), Hr by done. done.
Qed.

(** The loops keep the array of pinned maps in place: same names, same files. *)
Definition same_request (pm pm' : bpf_pinned_map) : Prop :=
  pm_name pm' = pm_name pm /\ pm_filename pm' = pm_filename pm.

(** The descriptor came from opening that pinned file. *)
Definition opened (file : string) (fd : Z) : Prop :=
  0 < fd /\ exists w w', bpf_obj_get file w = (fd, w').

Lemma pin_new_spec m pms w m' pms' w' :
  pin_new m pms w = (m', pms', w') ->
  map_fd m' = map_fd m /\ map_name m' = map_name m /\
  Forall2 (fun pm pm' => same_request pm pm' /\
    (pm' = pm \/ (pm_name pm = map_name m /\ pm_fd pm = -1 /\ pm_fd pm' = map_fd m))) pms pms'.
Proof.
  assert (forall m p w e m1 w1, bpf_map__pin m p w = (e, m1, w1) ->
    map_fd m1 = map_fd m /\ map_name m1 = map_name m) as Hpin.
  { intros m0 p w0 e m1 w1. unfold bpf_map__pin, pin_at. intros Hp.
    repeat (case_match; simplify_eq/=); done. }
  revert m w m' pms' w'. induction pms as [|pm pms IH]; intros m w m' pms' w'; cbn [pin_new].
  { intros [= <- <- <-]. split; [done|]. split; [done|constructor]. }
  case_decide as Hn.
  { destruct (pin_new m pms w) as [[m1 l] w1] eqn:E. intros [= <- <- <-].
    apply IH in E as (? & ? & ?). split; [done|]. split; [done|]. constructor; [|done].
    split; [done|by left]. }
  destruct (Z.eqb_spec (pm_fd pm) (-1)) as [Hfd|]; cbn [negb].
  2: { destruct (pin_new m pms w) as [[m1 l] w1] eqn:E. intros [= <- <- <-].
       apply IH in E as (? & ? & ?). split; [done|]. split; [done|]. constructor; [|done].
       split; [done|by left]. }
  destruct (bpf_map__pin m _ w) as [[e m1] w1] eqn:Ep.
  apply Hpin in Ep as [Hf1 Hn1].
  destruct (pin_new m1 pms w1) as [[m2 l] w2] eqn:E. intros [= <- <- <-].
  apply IH in E as (Hf2 & Hn2 & HF). rewrite Hf1 in *. rewrite Hn1 in *.
  split; [done|]. split; [done|]. constructor; [|done].
  destruct (e =? 0); cbn [negb].
  - by split; [|right].
  - split; [done|by left].
Qed.

Lemma pin_new_all_spec ms pms w ms' pms' w' :
  pin_new_all ms pms w = (ms', pms', w') ->
  map_fd <$> ms' = map_fd <$> ms /\ map_name <$> ms' = map_name <$> ms /\
  Forall2 (fun pm pm' => same_request pm pm' /\
    (pm' = pm \/ (pm_fd pm = -1 /\ exists m, m ∈ ms /\ pm_name pm = map_name m /\
       pm_fd pm' = map_fd m))) pms pms'.
Proof.
  revert pms w ms' pms' w'. induction ms as [|m ms IH]; intros pms w ms' pms' w'; cbn [pin_new_all].
  { intros [= <- <- <-]. split; [done|]. split; [done|].
    induction pms; constructor; [by split; [|left]|done]. }
  destruct (pin_new m pms w) as [[m1 pms1] w1] eqn:E1.
  destruct (pin_new_all ms pms1 w1) as [[ms2 pms2] w2] eqn:E2. intros [= <- <- <-].
  apply pin_new_spec in E1 as (Hf1 & Hn1 & HF1). apply IH in E2 as (Hf2 & Hn2 & HF2).
  split; [cbn; congruence|]. split; [cbn; congruence|].
  clear -HF1 HF2. revert pms2 HF2.
  induction HF1 as [|pm pm1 pms pms1 [Hs1 Hc1] _ IH]; intros pms2 HF2;
    inversion HF2 as [|? pm2 ? pms2' [Hs2 Hc2] HF2']; subst; constructor; [|by apply IH].
  destruct Hs1 as [N1 F1], Hs2 as [N2 F2].
  split; [split; congruence|].
  destruct Hc2 as [->|(Hm1 & m2 & Hin & Hnm & Hfd)].
  - destruct Hc1 as [->|(Hnm & Hm1 & Hfd)]; [by left|right].
    split; [done|]. exists m. split; [by left|]. done.
  - right. destruct Hc1 as [->|(_ & Hm & _)].
    + split; [done|]. exists m2. split; [by right|]. done.
    + split; [done|]. exists m2. split; [by right|]. split; [congruence|done].
Qed.

Lemma reuse_pins_spec name valid m pms w m' pms' w' :
  reuse_pins name valid m pms w = Some (m', pms', w') ->
  Forall2 (fun pm pm' => same_request pm pm' /\ (pm' = pm \/ opened (pm_filename pm) (pm_fd pm'))) pms pms'.
Proof.
  revert valid m w m' pms' w'. induction pms as [|pm pms IH]; intros valid m w m' pms' w';
    cbn [reuse_pins]; [intros [= <- <- <-]; constructor|].
  destruct valid; cbn [negb]; [|done]. case_decide.
  { destruct (reuse_pins name true m pms w) as [[[m1 l] w1]|] eqn:E; cbn [mbind option_bind];
      [|done]. intros [= <- <- <-]. apply IH in E. constructor; [|done]. by split; [|left]. }
  destruct (bpf_obj_get (pm_filename pm) w) as [fd w1] eqn:Eg. destruct (Z.ltb_spec 0 fd).
  - destruct (bpf_map__reuse_fd m fd w1) as [[e m1] w2].
    destruct (reuse_pins name _ m1 pms w2) as [[[m2 l] w3]|] eqn:E; cbn [mbind option_bind];
      [|done]. intros [= <- <- <-]. apply IH in E. constructor; [|done].
    split; [done|right]. split; [done|by eexists _, _].
  - destruct (reuse_pins name true m pms w1) as [[[m2 l] w3]|] eqn:E; cbn [mbind option_bind];
      [|done]. intros [= <- <- <-]. apply IH in E. constructor; [|done]. by split; [|left].
Qed.

Lemma reuse_all_spec ix ms pms w ms' pms' w' :
  reuse_all ix ms pms w = Some (ms', pms', w') ->
  Forall2 (fun pm pm' => same_request pm pm' /\ (pm' = pm \/ opened (pm_filename pm) (pm_fd pm'))) pms pms'.
Proof.
  revert pms w ms' pms' w'. induction ms as [|m ms IH]; intros pms w ms' pms' w'; cbn [reuse_all].
  { intros [= <- <- <-]. induction pms; constructor; [by split; [|left]|done]. }
  destruct (reuse_pins _ _ _ pms w) as [[[m1 pms1] w1]|] eqn:E1; cbn [mbind option_bind]; [|done].
  destruct (reuse_all ix ms pms1 w1) as [[[ms2 pms2] w2]|] eqn:E2; cbn [mbind option_bind]; [|done].
  intros [= <- <- <-]. apply reuse_pins_spec in E1. apply IH in E2.
  clear -E1 E2. revert pms2 E2.
  induction E1 as [|pm pm1 pms pms1 [[N1 F1] Hc1] _ IH]; intros pms2 E2;
    inversion E2 as [|? pm2 ? pms2' [[N2 F2] Hc2] E2']; subst; constructor; [|by apply IH].
  split; [split; congruence|]. destruct Hc2 as [->|]; [done|right; congruence].
Qed.

(** After a successful load the caller's array asks for the same maps, and each
    descriptor in it was opened from the pinned file asked for, or is that of a map of the
    object with the name asked for, or -1. *)
Theorem pinned_maps_sound attr w o fd pms' w' :
  bpf_prog_load_xattr_maps (Some attr) w = Some (0, Some (o, fd), pms', w') ->
  Forall2 (fun pm pm' => same_request pm pm' /\
    (pm_fd pm' = -1 \/ opened (pm_filename pm) (pm_fd pm') \/
     exists m, m ∈ maps o /\ map_name m = pm_name pm /\ pm_fd pm' = map_fd m))
    (am_pinned_maps attr) pms'.
Proof.
  unfold bpf_prog_load_xattr_maps. cbn [mbind option_bind].
  destruct (am_file attr) as [file|]; [|done].
  destruct (object_open file w) as [[o0|] w0]; [|done].
  match goal with |- context [reuse_all ?ix ?ms ?ps ?w1] =>
    destruct (reuse_all ix ms ps w1) as [[[ms1 pms1] w2]|] eqn:E1 end; cbn [mbind option_bind];
    [|done].
  destruct (bpf_program__next None o0) as [first|]; [|done].
  destruct (bpf_object__load _ w2) as [[e o2] w3].
  destruct (Z.eqb_spec e 0) as [->|Hne]; cbn [negb]; [|by intros [= ? ? ? ?]].
  destruct (pin_new_all _ pms1 w3) as [[ms3 pms3] w4] eqn:E2. intros [= <- _ <- _].
  cbn [maps set_maps]. apply reuse_all_spec in E1.
  apply pin_new_all_spec in E2 as (Hf & Hn & E2).
  assert (forall m, m ∈ maps (default (set_maps (set_programs o0
      (prepare_prog attr o0 <$> programs o0)) ms1) o2) ->
    exists m', m' ∈ ms3 /\ map_name m' = map_name m /\ map_fd m' = map_fd m) as Hm.
  { intros m (i & Hi)%list_elem_of_lookup.
    assert (map_fd <$> ms3 !! i = Some (map_fd m)) as Hfi
      by (by rewrite <- list_lookup_fmap, Hf, list_lookup_fmap, Hi).
    assert (map_name <$> ms3 !! i = Some (map_name m)) as Hni
      by (by rewrite <- list_lookup_fmap, Hn, list_lookup_fmap, Hi).
    destruct (ms3 !! i) as [m'|] eqn:Ei; [|done]. exists m'.
    split; [by eapply list_elem_of_lookup_2|]. split; [by injection Hni|by injection Hfi]. }
  revert E2 Hm. clear -E1. generalize (maps (default (set_maps (set_programs o0
      (prepare_prog attr o0 <$> programs o0)) ms1) o2)) as ms.
  intros ms E2 Hm. revert pms3 E2. remember (set_map_fd (-1) <$> am_pinned_maps attr) as l eqn:El.
  revert El. generalize (am_pinned_maps attr) as pms.
  induction E1 as [|pm pm1 l pms1 [[N1 F1] Hc1] _ IH]; intros pms El pms3 E2;
    destruct pms as [|pm0 pms]; simplify_eq/=; inversion E2 as [|? pm2 ? ? [[N2 F2] Hc2] E2'];
    subst; constructor; [|by apply IH].
  split; [split; congruence|].
  destruct Hc2 as [->|(_ & m & Hin & Hnm & Hfd)].
  - destruct Hc1 as [->|]; [by left|right; by left].
  - right; right. destruct (Hm m Hin) as (m' & ? & ? & ?). exists m'.
    split; [done|]. split; congruence.
Qed.
End PinLoad.

(** ** Examples *)

Module PinLoadExamples.
Import PinFs.

Definition request (pms : list bpf_pinned_map) : bpf_prog_load_attr_maps :=
  LoadAttrMaps (Some "prog.o") BPF_PROG_TYPE_XDP 0 0 pms.
Definition want (name file : string) : bpf_pinned_map := PinnedMap name file 0.

(** "logger" is not pinned yet, "other" is not in the object. *)
Definition wanted : list bpf_pinned_map := [want "logger" "/bpf/logger"; want "other" "/bpf/other"].

Definition answer : Z * option (bpf_object * Z) * list bpf_pinned_map * t :=
  default (0, None, [], clean) (bpf_prog_load_xattr_maps (Some (request wanted)) clean).

Lemma pinned_maps_sound_witness :
  let o := match snd (fst (fst answer)) with Some (o, _) => o | None => object end in
  Forall2 (fun pm pm' => same_request pm pm' /\
    (pm_fd pm' = -1 \/ opened (pm_filename pm) (pm_fd pm') \/
     exists m, m ∈ maps o /\ map_name m = pm_name pm /\ pm_fd pm' = map_fd m))
    wanted [PinnedMap "logger" "/bpf/logger" 3; PinnedMap "other" "/bpf/other" (-1)].
Proof.
  apply (pinned_maps_sound (request wanted) clean _ 7 _ (snd answer)). reflexivity.
Defined.

Lemma reuse_reads_freed_name_witness :
  reuse_pins "logger" true (a_map 3 "logger")
    [want "logger" "/sys/fs/bpf/eth0/data"; want "data" "/bpf/data"] taken = None.
Proof.
  eapply (reuse_reads_freed_name (a_map 3 "logger") (want "logger" "/sys/fs/bpf/eth0/data")
            (want "data" "/bpf/data") [] taken 9);
    [reflexivity | reflexivity | lia | reflexivity].
Defined.
End PinLoadExamples.
