(* ===== verification/Stats.v ===== *)
(** * Statistics per XDP action

    Models [user+ebpf/main/common/xdp_stats_kern.h] and the record of
    [xdp_stats_kern_user.h].  The map is a per-CPU array and the program runs to
    completion on its CPU: the state is the array of one CPU. *)

From S2P Require Import Prelude.

Definition XDP_ABORTED : Z := 0.
Definition XDP_REDIRECT : Z := 4.
Definition XDP_ACTION_MAX : Z := XDP_REDIRECT + 1.

Record datarec := DataRec { rx_packets : Z; rx_bytes : Z }.

(** [data] and [data_end] are [__u32]; the counters are [__u64]. *)
Definition xdp_stats_record_action (xdp_stats_map : list datarec) (data data_end action : Z)
    : Z * list datarec :=
  if XDP_ACTION_MAX <=? action then (XDP_ABORTED, xdp_stats_map) else
  match xdp_stats_map !! Z.to_nat action with
  | None => (XDP_ABORTED, xdp_stats_map)
  | Some rec =>
      let rec := DataRec (u64 (rx_packets rec + 1)) (u64 (rx_bytes rec + u32 (data_end - data))) in
      (action, <[Z.to_nat action := rec]> xdp_stats_map)
  end.

(** ** A run of packets *)

(** Length of a packet and the action recorded for it. *)
Definition sample : Type := Z * Z.

Definition record_all (m : list datarec) (ps : list sample) : list datarec :=
  fold_left (fun m '(len, action) => snd (xdp_stats_record_action m 0 len action)) ps m.

Definition of_action (a : Z) (ps : list sample) : list sample :=
  List.filter (fun '(_, action) => action =? a) ps.
Definition bytes_of (ps : list sample) : Z := fold_right (fun '(len, _) n => len + n) 0 ps.

(** A packet is counted under its own action only; the answer is the action. *)
Lemma record_one m len action :
  0 <= action < XDP_ACTION_MAX -> 0 <= len < 2 ^ 32 -> Z.of_nat (length m) = XDP_ACTION_MAX ->
  exists rec, m !! Z.to_nat action = Some rec /\
    xdp_stats_record_action m 0 len action =
      (action, <[Z.to_nat action := DataRec (u64 (rx_packets rec + 1)) (u64 (rx_bytes rec + len))]> m).
Proof.
  intros Ha Hl Hm. destruct (lookup_lt_is_Some_2 m (Z.to_nat action)) as [rec E]; [lia|].
  exists rec. split; [done|]. unfold xdp_stats_record_action.
  rewrite (proj2 (Z.leb_gt _ _)), E by lia. by rewrite Z.sub_0_r, u32_id.
Qed.

(** After any run the record of an action holds the number and the bytes of the
    packets recorded for it, modulo the counters' width. *)
Theorem stats_count m ps a rec :
  Z.of_nat (length m) = XDP_ACTION_MAX ->
  Forall (fun '(len, action) => 0 <= len < 2 ^ 32 /\ 0 <= action < XDP_ACTION_MAX) ps ->
  0 <= a < XDP_ACTION_MAX -> m !! Z.to_nat a = Some rec ->
  0 <= rx_packets rec < 2 ^ 64 -> 0 <= rx_bytes rec < 2 ^ 64 ->
  record_all m ps !! Z.to_nat a =
    Some (DataRec (u64 (rx_packets rec + Z.of_nat (length (of_action a ps))))
                  (u64 (rx_bytes rec + bytes_of (of_action a ps)))).
Proof.
  intros Hm Hps Ha. revert m rec Hm. induction Hps as [|[len action] ps [Hl Hact] _ IH];
    intros m rec Hm Hrec Hp Hb; cbn [record_all fold_left of_action List.filter bytes_of].
  { rewrite Hrec. cbn. rewrite !Z.add_0_r, !u64_id by done. by destruct rec. }
  destruct (record_one m len action Hact Hl Hm) as (r & Er & ->). cbn [snd].
  set (m' := <[_ := _]> m). assert (Hm' : Z.of_nat (length m') = XDP_ACTION_MAX)
    by (unfold m'; by rewrite length_insert).
  destruct (Z.eqb_spec action a) as [->|Hne].
  - rewrite Hrec in Er. injection Er as <-.
    unfold record_all in IH. rewrite (IH m' _ Hm' (list_lookup_insert_eq _ _ _
      (lookup_lt_Some _ _ _ Hrec))) by (cbn; apply u64_range).
    cbn [rx_packets rx_bytes]. unfold of_action. fold (of_action a ps).
    rewrite !u64_add_l. cbn [length bytes_of fold_right]. fold (bytes_of (of_action a ps)).
    do 2 f_equal; f_equal; lia.
  - unfold record_all in IH. apply IH; [done| |done|done].
    unfold m'. rewrite list_lookup_insert_ne by lia. done.
Qed.

(** An action out of range is not counted at all. *)
Theorem stats_out_of_range m data data_end action :
  XDP_ACTION_MAX <= action -> xdp_stats_record_action m data data_end action = (XDP_ABORTED, m).
Proof. intros H. unfold xdp_stats_record_action. by rewrite (proj2 (Z.leb_le _ _)). Qed.

Lemma stats_count_witness :
  record_all (replicate 5 (DataRec 0 0)) [(60, 2); (1500, 1); (40, 2)] !! 2%nat = Some (DataRec 2 100).
Proof.
  apply (stats_count (replicate 5 (DataRec 0 0)) [(60, 2); (1500, 1); (40, 2)] 2 (DataRec 0 0));
    first [reflexivity | repeat constructor; vm_compute; intuition discriminate].
Defined.

Lemma stats_out_of_range_witness :
  xdp_stats_record_action [] 0 60 7 = (XDP_ABORTED, []).
Proof. apply stats_out_of_range. vm_compute. discriminate. Defined.
