(* ===== verification/Entropy.v ===== *)
(** * The detector of the user-space variant

    Models [calculate_ent] of [user+ebpf/main/xdp_loader.c]: once a second the
    loader reads every flow of the [logger] map, computes its entropy, looks for
    outliers and prepares the map for the next interval.  The kernel side
    ([UserKern]) may count meanwhile; the model runs the function on the map as
    it is between two packets.  Addresses are the four bytes of the key, as an
    unsigned number.  What [malloc] leaves in fresh memory is an input: some of
    it is read. *)

From S2P Require Import Prelude CFloat BpfMap.
From S2P Require UserKern.
Import UserKern (logger_value, LoggerValue, lv_prev, lv_cur, lv_entropy,
  data_value, DataValue, prev_interval_pkt, cur_interval_pkt).

(** Capacity of the arrays of [struct entpy] (as of [struct interval]). *)
Definition FLOW_MAX : nat := 1000 * 100.

(** Contents of the three blocks before they are written. *)
Record fresh := Fresh {
  fresh_data : data_value;
  fresh_ent : nat -> double;
  fresh_ip : nat -> Z;
  fresh_value : logger_value;
}.

(** What the function prints: a line per flow, and the summary. *)
Inductive line := FlowLine (ip prev cur : Z) | Summary (flows packets : Z).

(** The maps and the static variables [holder] and [beta]. *)
Record detector (M B : Type) := Detector {
  logger : M;
  data : option data_value;
  blacklist : B;
  holder : Z;
  beta : Z;
  printed : list line;
}.
Arguments Detector {M B}.
Arguments logger {M B}.
Arguments data {M B}.
Arguments blacklist {M B}.
Arguments holder {M B}.
Arguments beta {M B}.
Arguments printed {M B}.

Section Detector.
Context {M B : Type} `{!BpfHash M Z logger_value} (log2 : double -> double).

(** [-1 * log2(prev / total) + fabs(log2(cur / prev))], with the smaller count
    above in the second fraction. *)
Definition flow_entropy (v : logger_value) (prev_interval : Z) : double :=
  let prev := d_of_Z (lv_prev v) in
  let cur := d_of_Z (lv_cur v) in
  let share := d_mul (d_of_Z (-1)) (log2 (d_div prev (d_of_Z prev_interval))) in
  if lv_cur v <=? lv_prev v
  then d_add share (fabs (log2 (d_div cur prev)))
  else d_add share (fabs (log2 (d_div prev cur))).

(** The first loop, from index [i]: the index it ends with, the value last
    looked up, the entries, their sum, the lines. *)
Fixpoint flow_loop (fuel i : nat) (m : M) (prev_interval next_key : Z) (v : logger_value)
    (ent : list (double * Z)) (entropy_all : double) (out : list line)
    : nat * logger_value * list (double * Z) * double * list line :=
  match fuel with
  | O => (i, v, ent, entropy_all, out)
  | S fuel =>
      let v := default v (map_lookup_elem m next_key) in
      let entropy := flow_entropy v prev_interval in
      let out := out ++ [FlowLine next_key (lv_prev v) (lv_cur v)] in
      let ent := ent ++ [(entropy, next_key)] in
      let entropy_all := d_add entropy_all entropy in
      match map_get_next_key m next_key with
      | None => (i, v, ent, entropy_all, out)
      | Some next_key => flow_loop fuel (S i) m prev_interval next_key v ent entropy_all out
      end
  end.

(** Reading [entpy]: what was written, or what was there. *)
Definition ent_at (g : fresh) (ent : list (double * Z)) (k : nat) : double :=
  match ent !! k with Some (e, _) => e | None => fresh_ent g k end.
Definition ip_at (g : fresh) (ent : list (double * Z)) (k : nat) : Z :=
  match ent !! k with Some (_, ip) => ip | None => fresh_ip g k end.

Definition deviation (g : fresh) (ent : list (double * Z)) (i : nat) (avg : double) : double :=
  fold_left (fun dev k => d_add dev (d_sub (ent_at g ent k) avg)) (seq 0 i) (S754_zero false).

(** The loop over the outliers: the new [beta] and the addresses for which a
    blacklist key is built (and then not used: the update is commented out). *)
Fixpoint outliers (g : fresh) (ent : list (double * Z)) (avg std : double) (ks : list nat) (beta : Z)
    : option (Z * list Z) :=
  match ks with
  | [] => Some (beta, [])
  | k :: ks =>
      let e := ent_at g ent k in
      let d := fabs (d_sub e avg) in
      beta ← (if d_gt e (d_mul (d_lit 15 10) avg) then add32 beta 1
              else if d_lt e (d_mul (d_lit 5 10) avg) then sub32 beta 1
              else Some beta);
      '(beta', ips) ← outliers g ent avg std ks beta;
      Some (beta', if d_gt d (d_mul (d_of_Z beta) std) then ip_at g ent k :: ips else ips)
  end.

(** The end of the interval for one flow. *)
Definition settle_flow (key : Z) (v : logger_value) (m : M) : logger_value * M :=
  let v := default v (map_lookup_elem m key) in
  if lv_cur v =? 0 then (v, fst (map_delete_elem m key))
  else
    let v := LoggerValue (lv_cur v) 0 (lv_entropy v) in
    (v, fst (map_update_elem m key v BPF_ANY)).

Fixpoint settle (keys : list Z) (v : logger_value) (m : M) : logger_value * M :=
  match keys with
  | [] => (v, m)
  | key :: keys => let '(v, m) := settle_flow key v m in settle keys v m
  end.

(** [None]: an [int] overflows or the arrays are left.  The answer also lists
    the outliers. *)
Definition calculate_ent (g : fresh) (s : detector M B) : option (detector M B * list Z) :=
  let d := default (fresh_data g) (data s) in
  let '(i, v, ent, entropy_all, out) :=
    match map_get_next_key (logger s) 0 with
    | None => (1%nat, fresh_value g, [], S754_zero false, [])
    | Some next_key =>
        flow_loop FLOW_MAX 0 (logger s) (prev_interval_pkt d) next_key (fresh_value g) []
          (S754_zero false) []
    end in
  let out := out ++ [Summary (Z.of_nat i) (cur_interval_pkt d)] in
  holder ← add32 (holder s) (cur_interval_pkt d);
  let d := DataValue (cur_interval_pkt d) 0 in
  let data := match data s with Some _ => Some d | None => None end in
  let avg := d_div entropy_all (d_of_Z (Z.of_nat i)) in
  let dev := deviation g ent i avg in
  let std := d_sqrt (d_mul dev dev) in
  '(beta, ips) ← outliers g ent avg std (seq 0 i) (beta s);
  if decide (FLOW_MAX < S i)%nat then None else
  let '(_, m) := settle (ip_at g ent <$> seq 0 (S i)) v (logger s) in
  Some (Detector m data (blacklist s) holder beta (printed s ++ out), ips).
End Detector.

(** ** The enumeration *)

(** After the key at an index comes the key at the next one. *)
Lemma next_key_lookup {K} `{EqDecision K} (ks : list K) j k :
  NoDup ks -> ks !! j = Some k -> next_key ks k = ks !! S j.
Proof.
  intros Hnd Hj. unfold next_key. rewrite decide_True by (by eapply list_elem_of_lookup_2).
  revert j Hj. induction Hnd as [|x ks Hx _ IH]; intros j Hj; [done|].
  cbn [next_after]. destruct j as [|j]; cbn in Hj.
  - injection Hj as ->. rewrite decide_True by done. by destruct ks.
  - rewrite decide_False; [by apply (IH j)|]. intros ->. by apply Hx, (list_elem_of_lookup_2 _ j).
Qed.

Section Theorems.
Context {M B : Type} `{!BpfHash M Z logger_value} `{!BpfHashLaws M Z logger_value}.
Context (log2 : double -> double).

(** The first loop visits the keys one after the other and stops at the last. *)
Lemma flow_loop_spec (m : M) prev_interval fuel i next v ent sum out :
  map_keys m !! i = Some next -> ent.*2 = take i (map_keys m) ->
  (length (map_keys m) <= i + fuel)%nat ->
  exists v' ent' sum' out',
    flow_loop log2 fuel i m prev_interval next v ent sum out =
      ((length (map_keys m) - 1)%nat, v', ent', sum', out') /\ ent'.*2 = map_keys m.
Proof.
  revert i next v ent sum out. induction fuel as [|fuel IH];
    intros i next v ent sum out Hi Hent Hfuel.
  { apply lookup_lt_Some in Hi. lia. }
  cbn [flow_loop]. rewrite get_next_key_spec, (next_key_lookup _ i) by (done || apply keys_nodup).
  assert ((ent ++ [(flow_entropy log2 (default v (map_lookup_elem m next)) prev_interval, next)]).*2 =
          take (S i) (map_keys m)) as Hent'.
  { rewrite fmap_app, Hent. cbn. by rewrite (take_S_r _ _ next). }
  destruct (map_keys m !! S i) as [next'|] eqn:Hn.
  - apply IH; [done|done|lia].
  - apply lookup_ge_None in Hn. pose proof (lookup_lt_Some _ _ _ Hi).
    replace (length (map_keys m) - 1)%nat with i by lia. do 4 eexists. split; [done|].
    rewrite Hent', take_ge by lia. done.
Qed.

Lemma ip_at_entries g ent n :
  (n <= length ent)%nat -> ip_at g ent <$> seq 0 n = take n ent.*2.
Proof.
  intros Hn. apply list_eq. intros j. rewrite list_lookup_fmap.
  destruct (decide (j < n)%nat) as [Hj|Hj].
  - rewrite lookup_seq_lt, lookup_take_lt, list_lookup_fmap by done.
    cbn [fmap option_fmap option_map Nat.add]. unfold ip_at. destruct (lookup_lt_is_Some_2 ent j ltac:(lia)) as [[e ip] E]. rewrite E. reflexivity.
  - rewrite lookup_seq_ge, lookup_take_ge by lia. done.
Qed.

(** ** The end of the interval *)

(** A flow without packets is dropped, another one starts again from 0. *)
Definition settled (v : logger_value) : option logger_value :=
  if lv_cur v =? 0 then None else Some (LoggerValue (lv_cur v) 0 (lv_entropy v)).

(** Updating an element that exists succeeds. *)
Definition updates_in_place : Prop :=
  forall (m : M) k v, is_Some (map_lookup_elem m k) -> snd (map_update_elem m k v BPF_ANY) = 0.

Lemma settle_spec keys v (m : M) :
  updates_in_place -> NoDup keys -> (forall k, k ∈ keys -> is_Some (map_lookup_elem m k)) ->
  let m' := snd (settle keys v m) in
  forall k, map_lookup_elem m' k =
    if decide (k ∈ keys) then map_lookup_elem m k ≫= settled else map_lookup_elem m k.
Proof.
  intros Hup Hnd. revert v m. induction Hnd as [|x keys Hx _ IH]; intros v m Hin; cbn zeta.
  { intros k. by rewrite decide_False by apply not_elem_of_nil. }
  cbn [settle]. destruct (settle_flow x v m) as [v1 m1] eqn:E1.
  assert (forall k, map_lookup_elem m1 k =
    if decide (x = k) then map_lookup_elem m k ≫= settled else map_lookup_elem m k) as Hm1.
  { destruct (Hin x) as [vx Hvx]; [by left|]. revert E1. unfold settle_flow. rewrite Hvx.
    cbn [from_option id]. intros E1 k. unfold settled. destruct (lv_cur vx =? 0) eqn:Ec.
    - injection E1 as _ <-. rewrite lookup_delete_elem. case_decide as Hk; [|done]. subst k.
      rewrite Hvx. cbn. by rewrite Ec.
    - injection E1 as _ <-. destruct (map_update_elem m x _ BPF_ANY) as [m2 e] eqn:Eu.
      pose proof (Hup m x (LoggerValue (lv_cur vx) 0 (lv_entropy vx)) ltac:(eauto)) as He.
      rewrite Eu in He. cbn in He. subst e.
      apply lookup_update in Eu as [(_ & _ & Eu)|[? _]]; [|done]. cbn. rewrite Eu.
      case_decide as Hk; [|done]. subst k. rewrite Hvx. cbn. by rewrite Ec. }
  intros k. rewrite IH.
  - rewrite Hm1. destruct (decide (x = k)) as [<-|Hne].
    + rewrite decide_False by done. by rewrite decide_True by (by left).
    + apply decide_ext. rewrite elem_of_cons. naive_solver.
  - intros k' Hk'. rewrite Hm1. rewrite decide_False by (by intros ->). apply Hin. by right.
Qed.

(** ** Totality of the outlier loop *)

Lemma outliers_total g ent avg std ks b :
  - 2 ^ 31 + Z.of_nat (length ks) <= b < 2 ^ 31 - Z.of_nat (length ks) ->
  exists b' ips, outliers g ent avg std ks b = Some (b', ips) /\
    Z.abs (b' - b) <= Z.of_nat (length ks).
Proof.
  revert b. induction ks as [|k ks IH]; intros b Hb; cbn [outliers length] in *.
  { exists b, []. split; [done|lia]. }
  set (step := if d_gt _ _ then _ else _).
  assert (exists b1, step = Some b1 /\ Z.abs (b1 - b) <= 1) as (b1 & -> & Hb1).
  { unfold step. case_match; [rewrite add32_eq by lia|case_match; [rewrite sub32_eq by lia|]];
      eexists; (split; [done|lia]). }
  cbn [mbind option_bind]. destruct (IH b1 ltac:(lia)) as (b' & ips & -> & Hb').
  cbn [mbind option_bind]. do 2 eexists. split; [done|lia].
Qed.

Lemma lookup_omap_contents (m : M) k :
  omap settled (contents m) !! k = map_lookup_elem m k ≫= settled.
Proof. by rewrite lookup_omap, lookup_contents. Qed.

(** The effect of a run on the state, once the loop over the flows is known. *)
Lemma calculate_ent_run g (s : detector M B) d i v ent sum out :
  data s = Some d ->
  match map_get_next_key (logger s) 0 with
  | None => (1%nat, fresh_value g, [], S754_zero false, [])
  | Some next_key =>
      flow_loop log2 FLOW_MAX 0 (logger s) (prev_interval_pkt d) next_key (fresh_value g) []
        (S754_zero false) []
  end = (i, v, ent, sum, out) ->
  (i < FLOW_MAX)%nat ->
  - 2 ^ 31 <= holder s + cur_interval_pkt d < 2 ^ 31 ->
  - 2 ^ 31 + Z.of_nat i <= beta s < 2 ^ 31 - Z.of_nat i ->
  exists s' ips, calculate_ent log2 g s = Some (s', ips) /\
    logger s' = snd (settle (ip_at g ent <$> seq 0 (S i)) v (logger s)) /\
    data s' = Some (DataValue (cur_interval_pkt d) 0) /\
    holder s' = holder s + cur_interval_pkt d /\ blacklist s' = blacklist s /\
    Z.abs (beta s' - beta s) <= Z.of_nat i.
Proof.
  intros Hd Hloop Hi Hh Hb. unfold calculate_ent. rewrite Hd. cbn [from_option id].
  rewrite Hloop, add32_eq by done. cbn [mbind option_bind].
  match goal with |- context [outliers g ent ?avg ?std (seq 0 i) (beta s)] =>
    destruct (outliers_total g ent avg std (seq 0 i) (beta s)) as (b' & ips & E & Hb') end.
  { by rewrite length_seq. }
  rewrite E. cbn [mbind option_bind]. rewrite decide_False by lia.
  destruct (settle _ v (logger s)) as [v' m'] eqn:Es. rewrite length_seq in Hb'.
  do 2 eexists. split; [done|]. cbn [logger data holder blacklist beta snd]. done.
Qed.

(** C4. One run of the detector closes the interval: every flow that sent nothing is
    dropped, every other one moves its count to [prev] and starts again from 0,
    the interval's total moves to [prev_interval_pkt], and the packets are added
    to [holder].  It needs a map that is not empty, has no more flows than the
    arrays and no flow of address 0.0.0.0, which the enumeration starts from, whose
    updates in place succeed, the data element, and sums within an [int].  On an empty
    map it is not so ([empty_interval_adds_phantom]). *)
Theorem calculate_ent_closes_interval g (s : detector M B) d :
  updates_in_place -> data s = Some d ->
  map_keys (logger s) <> [] -> (length (map_keys (logger s)) <= FLOW_MAX)%nat ->
  map_lookup_elem (logger s) 0 = None ->
  - 2 ^ 31 <= holder s + cur_interval_pkt d < 2 ^ 31 ->
  - 2 ^ 31 + Z.of_nat FLOW_MAX <= beta s < 2 ^ 31 - Z.of_nat FLOW_MAX ->
  exists s' ips, calculate_ent log2 g s = Some (s', ips) /\
    contents (logger s') = omap settled (contents (logger s)) /\
    data s' = Some (DataValue (cur_interval_pkt d) 0) /\
    holder s' = holder s + cur_interval_pkt d /\ blacklist s' = blacklist s.
Proof.
  intros Hup Hd Hne Hmax H0 Hh Hb.
  set (ks := map_keys (logger s)) in *. set (n := length ks).
  assert (map_get_next_key (logger s) 0 = ks !! 0%nat) as Hfirst.
  { rewrite get_next_key_spec. fold ks. unfold next_key.
    rewrite decide_False; [by destruct ks|]. unfold ks. rewrite keys_spec, H0. by intros [? ?]. }
  destruct (ks !! 0%nat) as [k0|] eqn:E0; [|by destruct ks].
  destruct (flow_loop_spec (logger s) (prev_interval_pkt d) FLOW_MAX 0 k0 (fresh_value g) []
    (S754_zero false) []) as (v & ent & sum & out & Hloop & Hent); [done|done|done|].
  fold ks n in Hloop, Hent. assert (n <> 0)%nat by (unfold n; destruct ks; [done|by cbn]).
  destruct (calculate_ent_run g s d (n - 1) v ent sum out) as (s' & ips & Hrun & Hl & Hrest).
  - done.
  - by rewrite Hfirst.
  - unfold n. lia.
  - done.
  - lia.
  - exists s', ips. split; [done|]. split; [|tauto]. apply map_eq. intros k.
    rewrite lookup_omap_contents, lookup_contents, Hl.
    replace (S (n - 1)) with n by lia.
    assert (length ent = n) as Hle by (unfold n; by rewrite <- Hent, length_fmap).
    rewrite ip_at_entries by lia.
    rewrite Hent, take_ge by done.
    rewrite settle_spec; [|done|apply keys_nodup|by intros k'; rewrite <- keys_spec].
    case_decide as Hk; [done|]. unfold ks in Hk. rewrite keys_spec in Hk.
    destruct (map_lookup_elem (logger s) k); [|done]. destruct Hk. eauto.
Qed.

(** With no flow at all the loops still run, on memory nobody wrote: an address
    and a count found there become a flow of the map. *)
Theorem empty_interval_adds_phantom g (s : detector M B) d ip v m' :
  data s = Some d -> map_keys (logger s) = [] ->
  - 2 ^ 31 <= holder s + cur_interval_pkt d < 2 ^ 31 ->
  - 2 ^ 31 < beta s < 2 ^ 31 - 1 ->
  fresh_ip g 0 = ip -> fresh_ip g 1 <> ip -> fresh_value g = v -> lv_cur v <> 0 ->
  map_update_elem (logger s) ip (LoggerValue (lv_cur v) 0 (lv_entropy v)) BPF_ANY = (m', 0) ->
  exists s' ips, calculate_ent log2 g s = Some (s', ips) /\
    map_lookup_elem (logger s') ip = Some (LoggerValue (lv_cur v) 0 (lv_entropy v)).
Proof.
  intros Hd Hks Hh Hb Hip Hip1 Hv Hc Hup.
  assert (forall k, map_lookup_elem (logger s) k = None) as Hnone.
  { intros k. destruct (map_lookup_elem (logger s) k) eqn:E; [|done].
    assert (k ∈ map_keys (logger s)) as Hin by (apply keys_spec; eauto).
    rewrite Hks in Hin. by apply not_elem_of_nil in Hin. }
  destruct (calculate_ent_run g s d 1 v [] (S754_zero false) []) as (s' & ips & Hrun & Hl & _).
  - done.
  - rewrite get_next_key_spec, Hks, <- Hv. done.
  - unfold FLOW_MAX. lia.
  - done.
  - lia.
  - exists s', ips. split; [done|]. rewrite Hl. cbn [seq fmap list_fmap settle]. unfold settle_flow.
    unfold ip_at. cbn [lookup list_lookup]. rewrite Hip, Hnone. cbn [from_option id].
    rewrite (proj2 (Z.eqb_neq _ _) Hc), Hup. cbn [fst].
    apply lookup_update in Hup as [(_ & _ & Hup)|[? _]]; [|done].
    rewrite !Hup. rewrite decide_False by done. rewrite Hnone. cbn [from_option id lv_cur Z.eqb snd].
    rewrite lookup_delete_elem, decide_False, Hup by done. by rewrite decide_True.
Qed.
End Theorems.

(** ** Examples *)

Module EntropyExamples.
Import Capped.

(** A stand-in for the logarithm: the examples do not depend on its values. *)
Definition log2 (x : double) : double := x.

Definition junk : fresh :=
  Fresh (DataValue 0 0) (fun _ => S754_zero false) (fun k => if decide (k = 0%nat) then 77 else 78)
    (LoggerValue 1 9 0).

Definition two_flows : detector (Capped.t Z logger_value) unit :=
  Detector (Map 5 (<[11 := LoggerValue 4 6 0]> {[12 := LoggerValue 3 0 0]}))
    (Some (DataValue 7 6)) tt 10 1 [].
Definition no_flow : detector (Capped.t Z logger_value) unit :=
  Detector (Map 5 ∅) (Some (DataValue 7 0)) tt 10 1 [].

Lemma capped_updates : updates_in_place (M := Capped.t Z logger_value).
Proof. intros m k v [x Hx]. cbn in *. unfold update, lookup_elem in *. by rewrite Hx. Qed.

Lemma calculate_ent_closes_interval_witness :
  exists s' ips, calculate_ent log2 junk two_flows = Some (s', ips) /\
    contents (logger s') = omap settled (contents (logger two_flows)) /\
    data s' = Some (DataValue 6 0) /\ holder s' = 10 + 6 /\ blacklist s' = tt.
Proof.
  apply (calculate_ent_closes_interval log2 junk two_flows (DataValue 7 6));
    [exact capped_updates | reflexivity | discriminate | | reflexivity | vm_compute; intuition discriminate | ].
  - apply Nat.leb_le. vm_compute. reflexivity.
  - vm_compute; intuition discriminate.
Defined.

Lemma empty_interval_adds_phantom_witness :
  exists s' ips, calculate_ent log2 junk no_flow = Some (s', ips) /\
    map_lookup_elem (logger s') 77 = Some (LoggerValue 9 0 0).
Proof.
  eapply (empty_interval_adds_phantom log2 junk no_flow (DataValue 7 0) 77 (LoggerValue 1 9 0));
    try reflexivity; try (vm_compute; intuition discriminate).
Defined.
End EntropyExamples.
