(* ===== verification/Lpm.v ===== *)
(** * Maps of type [BPF_MAP_TYPE_LPM_TRIE]

    What the code relies on of a longest-prefix-match trie keyed by
    [struct lpm_v4_key] (as [blacklist] of [user+ebpf/main/xdp_prog_kern.c]), as its
    documentation has it: the trie stores prefixes; a lookup answers the value of the
    longest stored prefix of the key; an update stores a prefix or replaces the one
    stored, whatever the bits after the prefix; a deletion removes just that prefix,
    never a shorter one that covers it; the key after one whose prefix is not stored
    is the first.  Whether an update respects [BPF_NOEXIST] differs between kernels
    and is not assumed.  The instance keeps the prefixes in a list. *)

From S2P Require Import Prelude Packet BpfMap.
From S2P Require InKernel.
Import InKernel (lpm_v4_key, LpmKey, prefixlen, address).

#[export] Instance lpm_v4_key_eq_dec : EqDecision lpm_v4_key.
Proof. solve_decision. Defined.

(** ** Prefixes *)

Section Prefixes.
Context `{HostOrder}.
Implicit Types (k s : lpm_v4_key).

(** The first [n] bits of an address, which is in network order. *)
Definition lead (n a : Z) : Z := Z.shiftr (bpf_ntohl a) (32 - n).

Definition prefix_of k : Z * Z := (prefixlen k, lead (prefixlen k) (address k)).

Definition key_valid k : bool := (0 <=? prefixlen k) && (prefixlen k <=? 32).

(** The prefix [s] is no longer than that of [k] and [k] starts with it. *)
Definition covers s k : bool :=
  (prefixlen s <=? prefixlen k) && (lead (prefixlen s) (address s) =? lead (prefixlen s) (address k)).

Lemma covers_refl k : covers k k = true.
Proof. unfold covers. by rewrite Z.leb_refl, Z.eqb_refl. Qed.

Lemma covers_same s k : covers s k = true -> prefixlen k <= prefixlen s -> prefix_of s = prefix_of k.
Proof.
  unfold covers, prefix_of. intros [Hl%Z.leb_le Ha%Z.eqb_eq]%andb_prop Hle.
  assert (prefixlen s = prefixlen k) as E by lia. by rewrite Ha, E.
Qed.

Section Entries.
Context {V : Type}.
Implicit Types l : list (lpm_v4_key * V).

(** The longest stored prefix of a key. *)
Fixpoint longest l k : option (lpm_v4_key * V) :=
  match l with
  | [] => None
  | e :: l =>
      match longest l k with
      | None => if covers (fst e) k then Some e else None
      | Some e' => if covers (fst e) k && (prefixlen (fst e') <? prefixlen (fst e))
                   then Some e else Some e'
      end
  end.

Lemma longest_spec l k :
  match longest l k with
  | Some e => e ∈ l /\ covers (fst e) k = true /\
              forall e', e' ∈ l -> covers (fst e') k = true -> prefixlen (fst e') <= prefixlen (fst e)
  | None => forall e, e ∈ l -> covers (fst e) k = false
  end.
Proof.
  induction l as [|e l IH]; cbn [longest]; [by intros e ?%not_elem_of_nil|].
  destruct (longest l k) as [e'|].
  - destruct IH as (Hin & Hc & Hmax). destruct (covers (fst e) k) eqn:Ec; cbn [andb].
    + destruct (Z.ltb_spec (prefixlen (fst e')) (prefixlen (fst e))).
      * split; [by left|]. split; [done|]. intros e1 [->|He1]%elem_of_cons Hc1; [lia|].
        specialize (Hmax e1 He1 Hc1). lia.
      * split; [by right|]. split; [done|]. intros e1 [->|He1]%elem_of_cons Hc1; [lia|auto].
    + split; [by right|]. split; [done|]. intros e1 [->|He1]%elem_of_cons Hc1; [congruence|auto].
  - destruct (covers (fst e) k) eqn:Ec.
    + split; [by left|]. split; [done|]. intros e1 [->|He1]%elem_of_cons Hc1; [lia|].
      rewrite IH in Hc1; done.
    + intros e1 [->|He1]%elem_of_cons; auto.
Qed.

Definition distinct l : Prop := NoDup (prefix_of <$> l.*1).

Lemma distinct_inj l e e' :
  distinct l -> e ∈ l -> e' ∈ l -> prefix_of (fst e) = prefix_of (fst e') -> e = e'.
Proof.
  unfold distinct. induction l as [|x l IH]; cbn; [by intros _ ?%not_elem_of_nil|].
  intros [Hx Hnd]%list.NoDup_cons. rewrite !elem_of_cons.
  assert (forall y, y ∈ l -> prefix_of (fst x) <> prefix_of (fst y)) as Hne.
  { intros y Hy E. apply Hx. rewrite E. apply list_elem_of_fmap_2, list_elem_of_fmap_2, Hy. }
  intros [->|He] [->|He'] E; [done| | |by apply IH].
  - by apply Hne in E.
  - symmetry in E. by apply Hne in E.
Qed.

(** A stored prefix is found by itself, whatever shorter ones cover it. *)
Lemma longest_stored l k v : distinct l -> (k, v) ∈ l -> longest l k = Some (k, v).
Proof.
  intros Hd Hin. pose proof (longest_spec l k) as Hs. destruct (longest l k) as [e|].
  - destruct Hs as (He & Hc & Hmax). f_equal. apply (distinct_inj l); [done..|].
    apply covers_same; [done|]. by apply (Hmax (k, v) Hin), covers_refl.
  - specialize (Hs _ Hin). by rewrite covers_refl in Hs.
Qed.

(** The entries without the prefix of [k]. *)
Definition without k l : list (lpm_v4_key * V) :=
  filter (fun e => prefix_of (fst e) <> prefix_of k) l.

Lemma without_fresh l k : prefix_of k ∉ prefix_of <$> l.*1 -> without k l = l.
Proof.
  unfold without. induction l as [|x l IH]; [done|]. cbn [fmap list_fmap]. rewrite not_elem_of_cons.
  intros [Hx Hl]. rewrite filter_cons, decide_True by congruence. by rewrite IH.
Qed.

Lemma without_stored l k v : distinct l -> (k, v) ∈ l -> l ≡ₚ (k, v) :: without k l.
Proof.
  unfold distinct, without. induction l as [|x l IH]; cbn [fmap list_fmap]; [by intros _ ?%not_elem_of_nil|].
  intros [Hx Hnd]%list.NoDup_cons Hin. rewrite filter_cons. apply elem_of_cons in Hin as [<-|Hin].
  - rewrite decide_False by (cbn; naive_solver). f_equiv. by fold (without k l); rewrite without_fresh.
  - rewrite decide_True; [rewrite (IH Hnd Hin) at 1; apply Permutation_swap|].
    intros E. apply Hx. rewrite E. change k with (fst (k, v)). by apply list_elem_of_fmap_2, list_elem_of_fmap_2.
Qed.

Lemma without_absent l k : prefix_of k ∉ prefix_of <$> (without k l).*1.
Proof.
  unfold without. rewrite list_elem_of_fmap. intros (s & E & Hs).
  apply list_elem_of_fmap in Hs as (e & -> & [Hne _]%list_elem_of_filter). by apply Hne.
Qed.

Lemma without_distinct l k : distinct l -> distinct (without k l).
Proof.
  unfold distinct, without. intros Hd. eapply sublist_NoDup; [exact Hd|].
  apply fmap_sublist, fmap_sublist, sublist_filter.
Qed.

(** The key after [k] in an enumeration of prefixes, the first when that of [k] is
    not in it. *)
Fixpoint after_prefix (ks : list lpm_v4_key) k : option lpm_v4_key :=
  match ks with
  | [] => None
  | x :: ks => if decide (prefix_of x = prefix_of k) then head ks else after_prefix ks k
  end.

Definition next_prefix (ks : list lpm_v4_key) k : option lpm_v4_key :=
  if decide (prefix_of k ∈ prefix_of <$> ks) then after_prefix ks k else head ks.
End Entries.
End Prefixes.

(** ** The laws *)

Class LpmLaws `{HostOrder} (M V : Type) `{BpfHash M lpm_v4_key V} := {
  (** The prefixes and their values, in the order the kernel enumerates them. *)
  stored : M -> list (lpm_v4_key * V);
  stored_distinct (m : M) : distinct (stored m);
  stored_valid (m : M) : Forall (fun e => key_valid (fst e) = true) (stored m);
  lpm_lookup (m : M) (k : lpm_v4_key) :
    key_valid k = true -> map_lookup_elem m k = snd <$> longest (stored m) k;
  lpm_update (m : M) (k : lpm_v4_key) (v : V) flags (m' : M) e :
    map_update_elem m k v flags = (m', e) ->
    (e = 0 /\ key_valid k = true /\ stored m' ≡ₚ (k, v) :: without k (stored m)) \/
    (e < 0 /\ m' = m);
  lpm_delete (m : M) (k : lpm_v4_key) :
    stored (fst (map_delete_elem m k)) ≡ₚ without k (stored m);
  lpm_keys (m : M) : map_keys m = (stored m).*1;
  lpm_next_key (m : M) (k : lpm_v4_key) : map_get_next_key m k = next_prefix (map_keys m) k;
}.

Section Laws.
Context `{HostOrder} {M V : Type} `{LpmLaws M V}.
Implicit Types (m : M) (k : lpm_v4_key).

Lemma lookup_stored m k v : (k, v) ∈ stored m -> map_lookup_elem m k = Some v.
Proof.
  intros Hin. rewrite lpm_lookup.
  - by rewrite (longest_stored _ _ _ (stored_distinct m) Hin).
  - by apply (proj1 (list.Forall_forall _ _) (stored_valid m) _ Hin).
Qed.

Lemma head_keys m k : head (map_keys m) = Some k -> exists v, (k, v) ∈ stored m.
Proof.
  rewrite lpm_keys. destruct (stored m) as [|[k0 v] l]; cbn; [done|]. intros [= ->]. exists v. by left.
Qed.

Lemma head_keys_none m : head (map_keys m) = None -> stored m = [].
Proof. rewrite lpm_keys. by destruct (stored m). Qed.

(** After a deletion the kernel starts again from the first prefix. *)
Lemma next_of_deleted m k :
  let m' := fst (map_delete_elem m k) in map_get_next_key m' k = head (map_keys m').
Proof.
  cbn zeta. rewrite lpm_next_key. unfold next_prefix. rewrite decide_False; [done|].
  rewrite lpm_keys, lpm_delete. apply without_absent.
Qed.
End Laws.

(** ** An instance: the prefixes in a list, the last stored first *)

Module Trie32.
Definition ENOSPC : Z := 28.
Definition EINVAL : Z := 22.

Section Ops.
Context `{HostOrder} {V : Type}.

Definition entries_ok (l : list (lpm_v4_key * V)) : bool :=
  bool_decide (distinct l) && forallb (fun e => key_valid (fst e)) l.

Record t := Map { cap : nat; nodes : list (lpm_v4_key * V); nodes_ok : entries_ok nodes = true }.

Lemma entries_ok_iff l :
  entries_ok l = true <-> distinct l /\ Forall (fun e => key_valid (fst e) = true) l.
Proof.
  unfold entries_ok. rewrite andb_true_iff, bool_decide_eq_true, forallb_forall, list.Forall_forall.
  by setoid_rewrite list_elem_of_In.
Qed.

Lemma without_ok l k : entries_ok l = true -> entries_ok (without k l) = true.
Proof.
  rewrite !entries_ok_iff. intros [Hd Hv]. split; [by apply without_distinct|].
  rewrite list.Forall_forall in *. intros e [_ He]%list_elem_of_filter. auto.
Qed.

Lemma insert_ok l k v :
  key_valid k = true -> entries_ok l = true -> entries_ok ((k, v) :: without k l) = true.
Proof.
  intros Hk Hl. apply (without_ok _ k) in Hl. rewrite !entries_ok_iff in *. destruct Hl as [Hd Hv].
  split; [|by constructor]. apply list.NoDup_cons. split; [apply without_absent|done].
Qed.

Definition update (m : t) (k : lpm_v4_key) (v : V) (flags : Z) : t * Z :=
  match key_valid k as b return key_valid k = b -> t * Z with
  | true => fun E =>
      if bool_decide (length (without k (nodes m)) < cap m)%nat
      then (Map (cap m) ((k, v) :: without k (nodes m)) (insert_ok _ _ _ E (nodes_ok m)), 0)
      else (m, - ENOSPC)
  | false => fun _ => (m, - EINVAL)
  end eq_refl.

Definition remove (m : t) (k : lpm_v4_key) : t * Z :=
  (Map (cap m) (without k (nodes m)) (without_ok _ _ (nodes_ok m)),
   if decide (prefix_of k ∈ prefix_of <$> (nodes m).*1) then 0 else - ENOENT).

Definition lookup_elem (m : t) (k : lpm_v4_key) : option V :=
  if key_valid k then snd <$> longest (nodes m) k else None.

(** A write through the pointer to the value of the longest prefix. *)
Definition store_elem (m : t) (k : lpm_v4_key) (v : V) : t :=
  match longest (nodes m) k with Some e => fst (update m (fst e) v 0) | None => m end.

Fixpoint run {G} (cb : lpm_v4_key -> V -> t -> G -> option (t * G * Z))
    (ks : list lpm_v4_key) (m : t) (g : G) : option (t * G) :=
  match ks with
  | [] => Some (m, g)
  | k :: ks =>
      match lookup_elem m k with
      | None => run cb ks m g
      | Some v => '(m, g, r) ← cb k v m g;
                  if r =? 0 then run cb ks m g else Some (m, g)
      end
  end.

#[export] Instance trie : BpfHash t lpm_v4_key V := {
  map_lookup_elem := lookup_elem;
  map_store := store_elem;
  map_update_elem := update;
  map_delete_elem := remove;
  map_keys m := (nodes m).*1;
  map_get_next_key m := next_prefix (nodes m).*1;
  for_each_map_elem G cb m := run cb (nodes m).*1 m;
}.

Lemma update_spec m k v flags m' e :
  update m k v flags = (m', e) ->
  (e = 0 /\ key_valid k = true /\ nodes m' = (k, v) :: without k (nodes m)) \/ (e < 0 /\ m' = m).
Proof.
  unfold update. generalize (insert_ok (nodes m) k v). destruct (key_valid k); intros Hok.
  - case_bool_decide; intros [= <- <-]; [by left|right; by vm_compute].
  - intros [= <- <-]. right. by vm_compute.
Qed.

#[export, refine] Instance laws : LpmLaws t V := { stored := nodes }.
Proof.
  - intros m. exact (proj1 (proj1 (entries_ok_iff _) (nodes_ok m))).
  - intros m. exact (proj2 (proj1 (entries_ok_iff _) (nodes_ok m))).
  - intros m k Hk. cbn. unfold lookup_elem. by rewrite Hk.
  - intros m k v flags m' e Hu. apply update_spec in Hu as [(-> & Hk & ->)|[He ->]]; [by left|by right].
  - done.
  - done.
  - done.
Defined.
End Ops.
#[global] Arguments t {_} V.
#[global] Arguments Map {_ V} cap nodes nodes_ok.
End Trie32.
