(* ===== verification/Trie.v ===== *)
(** * The earlier detectors of the loader

    Models [check_trie], [calculate_entropy] and [calculate_entropy_csv] of
    [user+ebpf/main/xdp_loader.c], which [main] no longer calls.  They drain the
    map while they enumerate it, keep the flows of two intervals in arrays and
    block the outliers.  Maps keyed by [struct lpm_v4_key] are the tries of [Lpm].
    Fresh memory is an input, as in [Entropy]; C arithmetic that is undefined is
    [None]. *)

From S2P Require Import Prelude CFloat Packet BpfMap Lpm.
From S2P Require InKernel.
Import InKernel (lpm_v4_key, LpmKey, prefixlen, address).

(** Bound of the loops of [check_trie] and [calculate_entropy], of
    [calculate_entropy_csv], and capacity of [struct interval]. *)
Definition TRIE_MAX : nat := 100 * 100.
Definition CSV_MAX : nat := 100 * 10.

Section Drain.
Context {M V : Type} `{!BpfHash M lpm_v4_key V}.

(** [bpf_map_get_next_key] with a NULL key. *)
Definition first_key (m : M) : option lpm_v4_key := head (map_keys m).

(** The loop that reads an element, deletes it and asks for the key after it;
    it answers what it read, and whether it stopped at the end of the map. *)
Fixpoint drain (fuel : nat) (m : M) (next : lpm_v4_key) (value : V) (read : list (Z * V))
    : M * list (Z * V) * bool :=
  match fuel with
  | O => (m, read, false)
  | S fuel =>
      let value := default value (map_lookup_elem m next) in
      let read := read ++ [(address next, value)] in
      let m := fst (map_delete_elem m next) in
      match map_get_next_key m next with
      | None => (m, read, true)
      | Some next => drain fuel m next value read
      end
  end.

(** [check_trie]: the lines it prints.  [junk] is what [next] points to before
    it is written; index 10000 of the arrays is outside them. *)
Definition check_trie (junk : lpm_v4_key) (zero : V) (m : M) : option (M * list (Z * V)) :=
  let next := default junk (first_key m) in
  let '(m, read, ended) := drain TRIE_MAX m next zero [] in
  if ended then Some (m, read) else None.
End Drain.

(** ** The flow entropy detectors *)

(** [struct flow] and [struct interval]. *)
Record flow := Flow { ip_src : Z; ip_dest : Z; packet_count : Z; entropy : double }.
Definition interval : Type := nat -> flow.

Definition set_flow (inv : interval) (i : nat) (f : flow) : interval :=
  fun j => if decide (j = i) then f else inv j.

(** The static variables of the loader, and what is printed. *)
Inductive report :=
  | FlowReport (ip prev cur : Z) (etp : double)
  | Blocked (ip : Z)
  | BlockFailed (ip : Z)
  | TotalReport (packets : Z)
  | FetchError.

Record statics := Statics {
  packet_count_alltime : Z;
  cur_packet_count : Z;
  st_beta : Z;
  st_holder : Z;
  invl_prev : interval;
  reports : list report;
}.

Section Detectors.
Context {M B : Type} `{!BpfHash M lpm_v4_key Z} `{!BpfHash B lpm_v4_key Z}.
Context (log : double -> double).

Definition is_used (f : flow) : bool := negb (packet_count f =? 0).

(** [int += __u32]. *)
Definition add_u32 (a b : Z) : Z := i32 (u32 (u32 a + b)).

(** The flows before the first unused one, [fuel] at most, from index [i]. *)
Fixpoint used_flows (fuel i : nat) (inv : interval) : list nat :=
  match fuel with
  | O => []
  | S fuel => if is_used (inv i) then i :: used_flows fuel (S i) inv else []
  end.

(** Where the search for a flow of the same source stops, and [tau]. *)
Fixpoint find_tau (fuel j : nat) (prev : flow) (cur : interval) : nat * double :=
  match fuel with
  | O => (j, S754_zero false)
  | S fuel =>
      if ip_src prev =? ip_src (cur j) then
        let p := d_of_Z (packet_count prev) in
        let c := d_of_Z (packet_count (cur j)) in
        (j, if packet_count (cur j) <=? packet_count prev
            then log (d_div c p) else log (d_div p c))
      else if ip_src (cur j) =? 0 then (j, S754_zero false)
      else find_tau fuel (S j) prev cur
  end.

(** Entropy of flow [i]: [-1 * log(share) + |tau|]. *)
Definition flow_entropy (cur_packets : Z) (prev : flow) (cur : interval) : nat * double :=
  let p := d_div (d_of_Z (packet_count prev)) (d_of_Z cur_packets) in
  let value := d_mul (d_of_Z (-1)) (log p) in
  let '(j, tau) := find_tau TRIE_MAX 0 prev cur in
  let tau := if d_lt tau (d_of_Z 0) then d_mul (d_of_Z (-1)) tau else tau in
  (j, d_add value tau).

(** The entropy loop over the used flows. *)
Fixpoint entropy_loop (print : bool) (ix : list nat) (cur : interval) (s : statics) : statics :=
  match ix with
  | [] => s
  | i :: ix =>
      let f := invl_prev s i in
      let '(j, etp) := flow_entropy (cur_packet_count s) f cur in
      let line := FlowReport (ip_src f) (packet_count f) (packet_count (cur j)) etp in
      entropy_loop print ix cur
        (Statics (add_u32 (packet_count_alltime s) (packet_count f)) (cur_packet_count s) (st_beta s)
           (add_u32 (st_holder s) (packet_count f))
           (set_flow (invl_prev s) i (Flow (ip_src f) (ip_dest f) (packet_count f) etp))
           (if print then reports s ++ [line] else reports s))
  end.

(** [abs(x)] of a [double]: the argument is converted to [int]. *)
Definition abs_int (x : double) : option Z := z ← i32_of_float x; chk32 (Z.abs z).

(** The deviation is summed over one flow more than there are. *)
Fixpoint deviation_loop (ix : list nat) (inv : interval) (avg dev : double) : option double :=
  match ix with
  | [] => Some dev
  | i :: ix =>
      a ← abs_int (d_sub (entropy (inv i)) avg);
      sq ← mul32 a a;
      deviation_loop ix inv avg (d_add dev (d_of_Z sq))
  end.

(** The loop over the outliers, for one threshold [factor]; [shown i] is the
    flow whose address is printed. *)
Fixpoint block_loop (factor : double) (shown : nat -> nat) (avg std : double) (ix : list nat)
    (b : B) (s : statics) : option (B * statics) :=
  match ix with
  | [] => Some (b, s)
  | i :: ix =>
      let f := invl_prev s i in
      beta ← (if d_gt (entropy f) (d_mul factor avg) then add32 (st_beta s) 1
              else if d_lt (entropy f) (d_mul (d_lit 5 10) avg) then sub32 (st_beta s) 1
              else Some (st_beta s));
      a ← abs_int (d_sub avg (entropy f));
      let ip := ip_src (invl_prev s (shown i)) in
      let '(b, out) :=
        if d_gt (d_of_Z a) (d_mul (d_of_Z beta) std) then
          let '(b, e) := map_update_elem b (LpmKey 32 (ip_src f)) 0 BPF_NOEXIST in
          (b, [if e <? 0 then BlockFailed ip else Blocked ip])
        else (b, []) in
      block_loop factor shown avg std ix b
        (Statics (packet_count_alltime s) (cur_packet_count s) beta (st_holder s) (invl_prev s)
           (reports s ++ out))
  end.

(** The analysis both functions share: [bound] flows at most. *)
Definition analyse (bound : nat) (print : bool) (factor : double) (shown : nat -> nat)
    (cur : interval) (b : B) (s : statics) : option (B * statics) :=
  let used := used_flows bound 0 (invl_prev s) in
  let packets := fold_left (fun n i => add_u32 n (packet_count (invl_prev s i))) used
                   (cur_packet_count s) in
  let s := Statics (packet_count_alltime s) packets (st_beta s) (st_holder s) (invl_prev s)
             (reports s) in
  let s := entropy_loop print used cur s in
  let sum := fold_left (fun x i => d_add x (entropy (invl_prev s i))) used (S754_zero false) in
  let num_of_flow := length used in
  let avg := d_div sum (d_of_Z (Z.of_nat num_of_flow)) in
  dev ← deviation_loop (seq 0 (S num_of_flow)) (invl_prev s) avg (S754_zero false);
  let std := d_sqrt (d_div dev (d_of_Z (Z.of_nat num_of_flow))) in
  block_loop factor shown avg std (seq 0 (S num_of_flow)) b s.

(** The flows of the new interval, from what the map held. *)
Definition record_flow (inv : interval) (i : nat) (f : Z * Z) : interval :=
  set_flow inv i (Flow (fst f) (ip_dest (inv i)) (u32 (snd f)) (entropy (inv i))).
Fixpoint record_flows (inv : interval) (i : nat) (fs : list (Z * Z)) : interval :=
  match fs with [] => inv | f :: fs => record_flows (record_flow inv i f) (S i) fs end.

(** [junk_key] and [junk] are the fresh blocks [next] and [invl_cur]. *)
Definition calculate_entropy (junk_key : lpm_v4_key) (junk : interval) (m : M) (b : B) (s : statics)
    : option (M * B * statics) :=
  let next := default junk_key (first_key m) in
  let '(m, read, _) := drain TRIE_MAX m next 0 [] in
  let invl_cur := record_flows junk 0 read in
  '(b, s) ← analyse TRIE_MAX true (d_of_Z 2) (fun i => i) invl_cur b s;
  Some (m, b, Statics (packet_count_alltime s) 0 (st_beta s) (st_holder s) invl_cur
                (reports s ++ [TotalReport (cur_packet_count s)])).
End Detectors.

(** The version that reads two intervals from an array map: element 0 is the
    previous interval, element 1 the current one. *)
Section Csv.
Context {A B : Type} `{!BpfHash A Z interval} `{!BpfHash B lpm_v4_key Z}.
Context (log : double -> double).

(** [junk] is the fresh block written to element 1.  The local [invl_prev] hides
    the static one; the printed address is that of flow 0, whose index hides the
    loop's. *)
Definition calculate_entropy_csv (junk : interval) (a : A) (b : B) (s : statics)
    : option (A * B * statics) :=
  let fail := Statics (packet_count_alltime s) (cur_packet_count s) (st_beta s) (st_holder s)
                (invl_prev s) (reports s ++ [FetchError]) in
  match map_lookup_elem a 0 with
  | None => Some (a, b, fail)
  | Some prev =>
      match map_lookup_elem a 1 with
      | None => Some (a, b, fail)
      | Some cur =>
          let a := fst (map_update_elem a 1 junk BPF_ANY) in
          let local := Statics (packet_count_alltime s) (cur_packet_count s) (st_beta s)
                         (st_holder s) prev (reports s) in
          '(b, local) ← analyse log CSV_MAX false (d_lit 15 10) (fun _ => 0%nat) cur b local;
          let a := fst (map_update_elem a 0 cur BPF_ANY) in
          Some (a, b, Statics (packet_count_alltime local) 0 (st_beta local) (st_holder local)
                        (invl_prev s) (reports local))
      end
  end.
End Csv.

Section DrainTheorems.
Context `{HostOrder} {M V : Type} `{LpmLaws M V}.
Implicit Types (m : M) (k : lpm_v4_key) (v : V).

(** The address and the value of a stored prefix. *)
Definition shown (e : lpm_v4_key * V) : Z * V := (address (fst e), snd e).

(** Draining from a stored prefix reads every one once, with its own value, and
    leaves nothing, if the loop runs long enough. *)
Lemma drain_all fuel m next v0 read v :
  (next, v) ∈ stored m -> (length (stored m) <= fuel)%nat ->
  exists m' l, drain fuel m next v0 read = (m', read ++ l, true) /\ stored m' = [] /\
    l ≡ₚ shown <$> stored m.
Proof.
  revert m next v0 read v. induction fuel as [|fuel IH]; intros m next v0 read v Hv Hsize.
  { destruct (stored m); [by apply not_elem_of_nil in Hv|cbn in Hsize; lia]. }
  cbn [drain]. rewrite (lookup_stored _ _ _ Hv). cbn [from_option id]. rewrite next_of_deleted.
  assert (stored m ≡ₚ (next, v) :: stored (fst (map_delete_elem m next))) as Hperm.
  { rewrite lpm_delete. apply without_stored; [apply stored_distinct|done]. }
  set (m1 := fst (map_delete_elem m next)) in *.
  destruct (head (map_keys m1)) as [next'|] eqn:Eh.
  - destruct (head_keys _ _ Eh) as [v' Hv'].
    destruct (IH m1 next' v (read ++ [(address next, v)]) v' Hv') as (m' & l & -> & Hm' & Hl).
    { rewrite Hperm in Hsize. cbn in Hsize. lia. }
    exists m', ((address next, v) :: l). rewrite <- app_assoc. split; [done|]. split; [done|].
    rewrite Hperm, fmap_cons, Hl. done.
  - exists m1, [(address next, v)]. split; [done|]. apply head_keys_none in Eh. split; [done|].
    by rewrite Hperm, Eh.
Qed.

(** C38. [check_trie] prints every prefix stored in a trie of 1 to 10000 once, with its
    own value though others may cover it, and empties the trie: deleting the prefix
    it stands on makes the kernel start again from the first remaining one. *)
Theorem check_trie_drains junk zero m :
  stored m <> [] -> (length (stored m) <= TRIE_MAX)%nat ->
  exists m' l, check_trie junk zero m = Some (m', l) /\ stored m' = [] /\
    l ≡ₚ shown <$> stored m.
Proof.
  intros Hne Hs. unfold check_trie, first_key.
  destruct (head (map_keys m)) as [k|] eqn:Eh; [|by apply head_keys_none in Eh].
  destruct (head_keys _ _ Eh) as [v Hv]. cbn [from_option id].
  destruct (drain_all TRIE_MAX m k zero [] v Hv Hs) as (m' & l & -> & Hm' & Hl).
  by exists m', l.
Qed.
End DrainTheorems.

(** ** What the detectors block *)

Section Blocking.
Context `{HostOrder} {M B : Type} `{LpmLaws M Z}.
Context `{BpfHash B lpm_v4_key Z} `{!LpmLaws B Z} (log : double -> double).

(** [b'] is [b] with /32 rules for sources of [ips], which may replace those there. *)
Definition only_blocks (ips : list Z) (b b' : B) : Prop :=
  (forall k v, (k, v) ∈ stored b' -> (k, v) ∈ stored b \/ (v = 0 /\ exists ip, ip ∈ ips /\ k = LpmKey 32 ip)) /\
  (forall k v, (k, v) ∈ stored b ->
     (k, v) ∈ stored b' \/ exists ip, ip ∈ ips /\ prefix_of k = prefix_of (LpmKey 32 ip)).

Lemma only_blocks_refl ips b : only_blocks ips b b.
Proof. split; by left. Qed.

Lemma only_blocks_trans ips ips' b b1 b2 :
  only_blocks ips b b1 -> only_blocks ips' b1 b2 -> only_blocks (ips ++ ips') b b2.
Proof.
  intros [Hn1 Ho1] [Hn2 Ho2]. split; intros k v Hin.
  - apply Hn2 in Hin as [Hin|(-> & ip & Hip & ->)]; [|right; split; [done|exists ip; rewrite elem_of_app; auto]].
    apply Hn1 in Hin as [Hin|(-> & ip & Hip & ->)]; [by left|right; split; [done|exists ip; rewrite elem_of_app; auto]].
  - apply Ho1 in Hin as [Hin|(ip & Hip & Hk)]; [|right; exists ip; rewrite elem_of_app; auto].
    apply Ho2 in Hin as [Hin|(ip & Hip & Hk)]; [by left|right; exists ip; rewrite elem_of_app; auto].
Qed.

Lemma update_only_blocks b ip b' e :
  map_update_elem b (LpmKey 32 ip) 0 BPF_NOEXIST = (b', e) -> only_blocks [ip] b b'.
Proof.
  intros [(-> & _ & Hb)|[_ ->]]%lpm_update; [|apply only_blocks_refl]. split; intros k v.
  - rewrite Hb, elem_of_cons. intros [[= -> ->]|[_ Hin]%list_elem_of_filter]; [|by left].
    right. split; [done|]. exists ip. split; [by left|done].
  - intros Hin. destruct (decide (prefix_of k = prefix_of (LpmKey 32 ip))) as [E|Hne].
    + right. exists ip. split; [by left|done].
    + left. rewrite Hb. right. by apply list_elem_of_filter.
Qed.

Lemma block_loop_only factor shown avg std ix b s b' s' :
  block_loop factor shown avg std ix b s = Some (b', s') ->
  only_blocks (ip_src ∘ invl_prev s <$> ix) b b' /\ invl_prev s' = invl_prev s.
Proof.
  revert b s. induction ix as [|i ix IH]; intros b s; cbn [block_loop].
  { intros [= <- <-]. split; [apply only_blocks_refl|done]. }
  match goal with |- context [mbind _ ?e] => destruct e as [beta|] end; cbn [mbind option_bind];
    [|done].
  destruct (abs_int _) as [a|]; cbn [mbind option_bind]; [|done].
  match goal with |- context [let '(_, _) := ?e in _] => set (upd := e) end.
  assert (only_blocks [ip_src (invl_prev s i)] b (fst upd)) as Hupd.
  { unfold upd. destruct (d_gt _ _); [|apply only_blocks_refl].
    destruct (map_update_elem b _ 0 BPF_NOEXIST) as [b1 e] eqn:E. by eapply update_only_blocks. }
  destruct upd as [b1 out]. cbn [fst] in Hupd. intros Hrun. apply IH in Hrun as [Hblk Hprev].
  cbn [invl_prev] in *. split; [|done]. rewrite fmap_cons. by apply (only_blocks_trans [_] _ b b1).
Qed.

Lemma entropy_loop_ips print ix cur s i :
  ip_src (invl_prev (entropy_loop log print ix cur s) i) = ip_src (invl_prev s i).
Proof.
  revert s. induction ix as [|x ix IH]; intros s; cbn [entropy_loop]; [done|].
  destruct (flow_entropy log _ _ cur) as [j etp]. rewrite IH. cbn [invl_prev].
  unfold set_flow. by case_decide as E; [subst|].
Qed.

Lemma analyse_only bound print factor shown cur b s b' s' :
  analyse log bound print factor shown cur b s = Some (b', s') ->
  only_blocks (ip_src ∘ invl_prev s <$> seq 0 (S (length (used_flows bound 0 (invl_prev s))))) b b'.
Proof.
  unfold analyse. set (used := used_flows bound 0 (invl_prev s)). cbn zeta.
  set (s1 := entropy_loop _ _ _ _ _).
  destruct (deviation_loop _ _ _ _) as [dev|]; cbn [mbind option_bind]; [|done].
  intros [Hblk _]%block_loop_only.
  assert (ip_src ∘ invl_prev s1 <$> seq 0 (S (length used)) =
          ip_src ∘ invl_prev s <$> seq 0 (S (length used))) as <-; [|done].
  apply list_fmap_ext. intros _ i _. unfold compose, s1. by rewrite entropy_loop_ips.
Qed.

(** A run of [calculate_entropy] that is defined empties the map (of 1 to 10000
    prefixes), and all it stores in the blacklist are /32 rules for sources of the
    interval before, the slot after the last used one included; no other rule goes. *)
Theorem calculate_entropy_blocks junk_key junk (m : M) (b : B) s m' b' s' :
  stored m <> [] -> (length (stored m) <= TRIE_MAX)%nat ->
  calculate_entropy log junk_key junk m b s = Some (m', b', s') ->
  stored m' = [] /\
  only_blocks (ip_src ∘ invl_prev s <$>
                 seq 0 (S (length (used_flows TRIE_MAX 0 (invl_prev s))))) b b'.
Proof.
  intros Hne Hs. unfold calculate_entropy, first_key.
  destruct (head (map_keys m)) as [k|] eqn:Eh; [|by apply head_keys_none in Eh].
  destruct (head_keys _ _ Eh) as [v Hv]. cbn [from_option id].
  destruct (drain_all TRIE_MAX m k 0 [] v Hv Hs) as (m1 & l & -> & Hm1 & _). cbn [app].
  destruct (analyse log _ _ _ _ _ b s) as [[b1 s1]|] eqn:Ea; cbn [mbind option_bind]; [|done].
  intros [= <- <- _]. split; [done|]. by eapply analyse_only.
Qed.
End Blocking.

Module TrieExamples.
Import Trie32.
#[local] Instance order : HostOrder := LittleEndian.
Definition trie : Type := Trie32.t Z.

(** Two addresses of 10.0.0.0/8, the prefix 10.0.0.0/24 over both, and another address. *)
Definition some_map : trie :=
  Trie32.Map 9 [(LpmKey 32 0x0100000a, 3); (LpmKey 24 0x0000000a, 1); (LpmKey 32 0x0200000a, 8);
                (LpmKey 32 11, 4)] eq_refl.
Definition none : trie := Trie32.Map 9 [] eq_refl.

(** Two flows in the interval before: 10 and 11. *)
Definition before : interval := fun i =>
  match i with
  | 0%nat => Flow 10 0 6 (S754_zero false)
  | 1%nat => Flow 11 0 2 (S754_zero false)
  | _ => Flow 0 0 0 (S754_zero false)
  end.
Definition no_log (x : double) : double := d_of_Z 1.
Definition start : statics := Statics 0 0 1 0 before [].
Definition blank : interval := fun _ => Flow 0 0 0 (S754_zero false).

(** The longest prefix answers: the /24 for an address that is not stored. *)
Example covered : map_lookup_elem some_map (LpmKey 32 0x0300000a) = Some 1 /\
                  map_lookup_elem some_map (LpmKey 32 0x0200000a) = Some 8 /\
                  map_lookup_elem some_map (LpmKey 16 0x0000000a) = None.
Proof. vm_compute. done. Qed.

Example prints : snd <$> check_trie (LpmKey 0 0) 0 some_map =
  Some [(0x0100000a, 3); (0x0000000a, 1); (0x0200000a, 8); (11, 4)].
Proof. vm_compute. reflexivity. Qed.

Lemma check_trie_drains_witness :
  exists m' l, check_trie (LpmKey 0 0) 0 some_map = Some (m', l) /\ stored m' = [] /\
    l ≡ₚ shown <$> stored some_map.
Proof.
  apply (check_trie_drains (LpmKey 0 0) 0 some_map); [vm_compute; discriminate|].
  apply Nat.leb_le. vm_compute. reflexivity.
Defined.

Definition after : trie * trie * statics :=
  default (some_map, none, start)
    (calculate_entropy no_log (LpmKey 0 0) blank some_map none start).

Lemma calculate_entropy_blocks_witness :
  stored (fst (fst after)) = [] /\
  only_blocks (ip_src ∘ before <$> seq 0 3) none (snd (fst after)).
Proof.
  apply (calculate_entropy_blocks no_log (LpmKey 0 0) blank some_map none start _ _ (snd after));
    [vm_compute; discriminate | apply Nat.leb_le; vm_compute; reflexivity | reflexivity].
Defined.
End TrieExamples.
