(* ===== verification/Loader.v ===== *)
(** * The loader process

    Models the rest of [user+ebpf/main/xdp_loader.c]: loading and attaching,
    pinning, and [main], which sets the kernel up and then runs the detector
    ([Entropy]) once a second.  Other system calls are the class [ProcSys].
    Messages are left out, except the report of the main loop. *)

From S2P Require Import Prelude CFloat Packet BpfMap Params BpfObject XdpLink Entropy.
From S2P Require UserKern.
From Stdlib Require Import Ascii String.

Local Open Scope Z_scope.

Class ProcSys (W : Type) := {
  (** [access(path, F_OK) == 0]. *)
  sys_access : string -> W -> bool;
  (** [setrlimit(RLIMIT_MEMLOCK, RLIM_INFINITY)]. *)
  sys_setrlimit : W -> Z * W;
  (** [bpf_map_update_elem] on a descriptor. *)
  sys_map_update : Z -> Z -> Z -> Z -> W -> Z * W;
}.

Definition pin_basedir : string := "/sys/fs/bpf".
Definition map_name : string := "map".

Section Setup.
Context {W : Type} `{BpfSys W} `{LinkSys W} `{ProcSys W}.

(** The file name given is only printed. *)
Definition __load_bpf_object_file (filename : string) (ifindex : Z) (w : W)
    : option bpf_object * W :=
  let prog_load_attr := LoadAttr (Some "xdp_prog_kern.o") BPF_PROG_TYPE_XDP 0 ifindex in
  let '(err, r, w) := bpf_prog_load_xattr prog_load_attr w in
  if negb (err =? 0) then (None, w) else (fst <$> r, w).

Definition __load_bpf_and_xdp_attach (cfg : User.config) (w : W)
    : option (outcome bpf_object * W) :=
  let offload_ifindex := if negb (Z.land (User.xdp_flags cfg) XDP_FLAGS_HW_MODE =? 0)
                         then User.ifindex cfg else 0 in
  filename ← cstr (User.filename cfg);
  let '(bpf_obj, w) := __load_bpf_object_file filename offload_ifindex w in
  match bpf_obj with
  | None => Some (Exit EXIT_FAIL_BPF, w)
  | Some bpf_obj =>
      progsec ← cstr (User.progsec cfg);
      match bpf_object__find_program_by_title bpf_obj progsec ≫=
            fun i => programs bpf_obj !! i with
      | None => Some (Exit EXIT_FAIL_BPF, w)
      | Some prog =>
          let prog_fd := bpf_program__fd (Some prog) in
          if prog_fd <=? 0 then Some (Exit EXIT_FAIL_BPF, w) else
          let '(err, _, w) := xdp_link_attach (User.ifindex cfg) (User.xdp_flags cfg) prog_fd w in
          if negb (err =? 0) then Some (Exit err, w) else Some (Ret bpf_obj, w)
      end
  end.

(** [snprintf] into 4096 characters: the path may be cut. *)
Definition cut (s : string) : string := substring 0 4095 s.

Definition pin_maps_in_bpf_object (bpf_obj : bpf_object) (subdir : string) (w : W)
    : Z * bpf_object * W :=
  let pin_dir := cut (join_path pin_basedir subdir) in
  let map_filename := cut (join_path (join_path pin_basedir subdir) map_name) in
  let '(err, bpf_obj, w) :=
    if sys_access map_filename w then
      let '(err, o, w) := bpf_object__unpin_maps (Some bpf_obj) (Some pin_dir) w in
      (err, default bpf_obj o, w)
    else (0, bpf_obj, w) in
  if negb (err =? 0) then (EXIT_FAIL_BPF, bpf_obj, w) else
  let '(err, o, w) := bpf_object__pin_maps (Some bpf_obj) (Some pin_dir) w in
  (if negb (err =? 0) then EXIT_FAIL_BPF else 0, default bpf_obj o, w).

(** How [main] ends, or the descriptors its endless loop works on. *)
Inductive main_end :=
  | Returned (code : Z)
  | Exited_ (code : Z)
  | Running (obj : bpf_object) (logger_fd blacklist_fd data_fd : Z).

(** The initial configuration: the members not named are 0. *)
Definition main_cfg : User.config :=
  User.Config (Z.lor XDP_FLAGS_UPDATE_IF_NOEXIST XDP_FLAGS_DRV_MODE) (-1) false
    (replicate 16 NUL) 0 false (replicate 16 NUL) false false (replicate 512 NUL)
    (replicate 512 NUL) (strncpy "xdp_filter" 32) (replicate 18 NUL) (replicate 18 NUL) 0 0 false.

(** The successive maps of the object, each one found from the one before. *)
Definition next_fd (prev : option nat) (o : bpf_object) : option (nat * Z) :=
  i ← bpf_map__next prev o; Some (i, bpf_map__fd (maps o !! i)).

(** After parsing: [argc] tells whether there were arguments. *)
Definition main_run (cfg : User.config) (w : W) : option (main_end * W) :=
  if User.ifindex cfg =? -1 then Some (Returned EXIT_FAIL_OPTION, w) else
  let '(e, w) := sys_setrlimit w in
  if negb (e =? 0) then Some (Returned 1, w) else
  let cfg := User.set_filename (strncpy "xdp_prog_kern.o" 512) cfg in
  if User.do_unload cfg then
    let '(code, w) := xdp_link_detach (User.ifindex cfg) (User.xdp_flags cfg) 0 w in
    Some (Returned code, w)
  else
  '(r, w) ← __load_bpf_and_xdp_attach cfg w;
  match r with
  | Exit code => Some (Exited_ code, w)
  | Ret obj =>
      subdir ← cstr (User.ifname_buf cfg);
      let '(_, obj, w) := pin_maps_in_bpf_object obj subdir w in
      match next_fd None obj with
      | None => Some (Returned 1, w)
      | Some (logger, logger_fd) =>
      match next_fd (Some logger) obj with
      | None => Some (Returned 1, w)
      | Some (blacklist, blacklist_fd) =>
      match next_fd (Some blacklist) obj with
      | None => Some (Returned 1, w)
      | Some (data, data_fd) =>
      match next_fd (Some data) obj with
      | None => Some (Returned 1, w)
      | Some (_, tx_port_fd) =>
          let '(_, w) := sys_map_update tx_port_fd 0 4 0 w in
          Some (Running obj logger_fd blacklist_fd data_fd, w)
      end end end end
  end.

Definition main (if_nametoindex : string -> Z) (malloc_ok : bool) (evs : list event)
    (argv0 : string) (long_options : list option_wrapper) (w : W) : option (main_end * W) :=
  r ← User.parse_cmdline_args if_nametoindex malloc_ok evs argv0 "XDP sample packet" long_options
        main_cfg true;
  match r with
  | Exited code _ => Some (Exited_ code, w)
  | Parsed cfg _ => main_run cfg w
  end.
End Setup.

(** ** The main loop *)

Section Loop.
Context {M B : Type} `{!BpfHash M Z UserKern.logger_value} (log2 : double -> double).

(** One turn: the detector, the count of the turns, the report every 11 of them
    (the packets since the last report). *)
Definition turn (g : fresh) (s : detector M B) (count : Z)
    : option (detector M B * Z * option Z) :=
  '(s, _) ← calculate_ent log2 g s;
  count ← (if 0 <? holder s then add32 count 1 else Some count);
  if count =? 11
  then Some (Detector (logger s) (data s) (blacklist s) 0 (beta s) (printed s), 0, Some (holder s))
  else Some (s, count, None).
End Loop.

(** ** Theorems *)

Section SetupTheorems.
Context {W : Type} `{BpfSys W} `{LinkLaws W} `{ProcSys W}.

(** Without a device nothing is touched. *)
Theorem main_needs_device (w : W) cfg :
  User.ifindex cfg = -1 -> main_run cfg w = Some (Returned EXIT_FAIL_OPTION, w).
Proof. intros E. unfold main_run. by rewrite E. Qed.



End SetupTheorems.

(** *** Pinning leaves the devices alone *)

(** The calls on the BPF file system, and on an element of a map, attach nothing
    and detach nothing. *)
Class PinFrame (W : Type) `{BpfSys W} `{LinkLaws W} `{ProcSys W} : Prop := {
  pin_links fd path (w : W) : same_links w (snd (bpf_obj_pin fd path w));
  unlink_links path (w : W) : same_links w (snd (sys_unlink path w));
  mkdir_links path (w : W) : same_links w (snd (sys_mkdir path w));
  update_links fd k v fl (w : W) : same_links w (snd (sys_map_update fd k v fl w));
}.

Section Frame.
Context {W : Type} `{PinFrame W}.
Implicit Types (m : bpf_map) (o : bpf_object) (w : W).

#[local] Instance same_links_refl : Reflexive (same_links (W := W)).
Proof. by intros w ix m. Qed.

#[local] Instance same_links_trans : Transitive (same_links (W := W)).
Proof. intros w1 w2 w3 H12 H23 ix m. by rewrite H23. Qed.











End Frame.

(** ** Accounting of packets over the intervals *)

Section Accounting.
Context `{HostOrder} {M B : Type}.
Context `{!BpfHash M Z UserKern.logger_value} `{!BpfHashLaws M Z UserKern.logger_value}.
Context (blacklist_lookup : B -> InKernel.lpm_v4_key -> option Z) (redirect_map : Z -> Z -> Z).
Context (log2 : double -> double).
Local Abbreviation handler :=
  (UserKern.xdp_filter_func (M := M) blacklist_lookup redirect_map).

(** The packets the program counts: IPv4, with the whole of both headers. *)
Definition counted (pkt : list Z) : bool :=
  bool_decide (sizeof_ethhdr + sizeof_iphdr <= List.length pkt)%nat &&
  match read16 pkt off_h_proto with Some h => h =? bpf_htons ETH_P_IP | None => false end.

(** The packets of one interval, one after the other. *)
Fixpoint kernel_run (pkts : list (list Z)) (k : UserKern.kern M B) : option (UserKern.kern M B) :=
  match pkts with
  | [] => Some k
  | pkt :: pkts => '(k, _) ← handler pkt k; kernel_run pkts k
  end.

Definition num_counted (pkts : list (list Z)) : Z :=
  Z.of_nat (List.length (List.filter counted pkts)).

Lemma handler_counts pkt k k' r d :
  UserKern.data k = Some d -> handler pkt k = Some (k', r) ->
  UserKern.data k' = Some (UserKern.DataValue (UserKern.prev_interval_pkt d)
    (if counted pkt then i32 (UserKern.cur_interval_pkt d + 1) else UserKern.cur_interval_pkt d)).
Proof.
  intros Hd. assert (Some d = Some (UserKern.DataValue (UserKern.prev_interval_pkt d)
    (UserKern.cur_interval_pkt d))) as Hd' by (by destruct d).
  unfold UserKern.xdp_filter_func, counted. case_decide as Hl.
  { intros [= <- _]. rewrite bool_decide_false; [cbn [andb]; rewrite <- Hd'; exact Hd|].
    unfold sizeof_ethhdr, sizeof_iphdr in *. lia. }
  destruct (read16 pkt off_h_proto) as [h|]; cbn [mbind option_bind]; [|done].
  destruct (h =? bpf_htons ETH_P_IP); cbn [negb].
  2: { intros [= <- _]. rewrite andb_false_r, <- Hd'. exact Hd. }
  rewrite andb_true_r. case_decide as Hl2.
  { intros [= <- _]. rewrite bool_decide_false, <- Hd' by lia. exact Hd. }
  rewrite bool_decide_true by lia.
  destruct (read32 _ _) as [a|]; cbn [mbind option_bind]; [|done]. rewrite Hd.
  destruct (blacklist_lookup _ _); intros [= <- _]; done.
Qed.

Lemma kernel_run_counts pkts k k' d :
  UserKern.data k = Some d -> 0 <= UserKern.cur_interval_pkt d ->
  UserKern.cur_interval_pkt d + Z.of_nat (List.length pkts) < 2 ^ 31 ->
  kernel_run pkts k = Some k' ->
  UserKern.data k' = Some (UserKern.DataValue (UserKern.prev_interval_pkt d)
    (UserKern.cur_interval_pkt d + num_counted pkts)).
Proof.
  revert k d. induction pkts as [|pkt pkts IH]; intros k d Hd H0 Hmax; cbn [kernel_run].
  { intros [= <-]. unfold num_counted. cbn. rewrite Z.add_0_r, Hd. by destruct d. }
  destruct (handler pkt k) as [[k1 r]|] eqn:E; cbn [mbind option_bind]; [|done].
  pose proof (handler_counts _ _ _ _ _ Hd E) as Hd1. cbn [List.length] in Hmax.
  unfold num_counted. cbn [List.filter].
  destruct (counted pkt); cbn [List.length].
  - rewrite i32_id in Hd1 by lia. intros Hrun. rewrite (IH _ _ Hd1) by (done || cbn; lia). cbn.
    unfold num_counted. do 2 f_equal. lia.
  - intros Hrun. rewrite (IH _ _ Hd1) by (done || cbn; lia). done.
Qed.

Lemma calculate_ent_data g (s : detector M B) d s' ips :
  data s = Some d -> calculate_ent log2 g s = Some (s', ips) ->
  data s' = Some (UserKern.DataValue (UserKern.cur_interval_pkt d) 0) /\
  holder s' = holder s + UserKern.cur_interval_pkt d /\ blacklist s' = blacklist s.
Proof.
  intros Hd. unfold calculate_ent. rewrite Hd. cbn [from_option id].
  intros Hr. match type of Hr with context [match map_get_next_key ?m 0 with _ => _ end] =>
    destruct (match map_get_next_key m 0 with
              | None => (1%nat, fresh_value g, [], S754_zero false, [])
              | Some next_key =>
                  flow_loop log2 FLOW_MAX 0 m (UserKern.prev_interval_pkt d) next_key
                    (fresh_value g) [] (S754_zero false) []
              end) as [[[[i v] ent] sum] out] end.
  apply bind_Some in Hr as (h & Hh & Hr). unfold add32 in Hh.
  apply chk32_Some in Hh as [-> _].
  apply bind_Some in Hr as ([b l] & _ & Hr). case_decide; [done|].
  destruct (settle _ v (logger s)) as [v' m]. injection Hr as <- _. done.
Qed.

(** One second: the packets, then a turn of the loop. *)
Definition second (g : fresh) (pkts : list (list Z)) (s : detector M B) (count : Z)
    : option (detector M B * Z * option Z) :=
  k ← kernel_run pkts (UserKern.Kern (logger s) (blacklist s) (data s) []);
  turn log2 g (Detector (UserKern.logger k) (UserKern.data k) (UserKern.blacklist k) (holder s)
                 (beta s) (printed s)) count.

(** Any number of seconds: the reports printed. *)
Fixpoint seconds (run : list (fresh * list (list Z))) (s : detector M B) (count : Z)
    : option (detector M B * Z * list Z) :=
  match run with
  | [] => Some (s, count, [])
  | (g, pkts) :: run =>
      '(s, count, r) ← second g pkts s count;
      '(s, count, rs) ← seconds run s count;
      Some (s, count, match r with Some n => n :: rs | None => rs end)
  end.

Definition sum (ns : list Z) : Z := fold_right Z.add 0 ns.

(** C5. When packets come between the turns of the loader only, nothing is lost between the
    kernel's counts and the reports: over any run of seconds that is defined, with fewer
    than 2^31 packets in each and the interval counter at 0 at the start, what the loader
    has reported and still holds is what it held at the start and the packets the kernel
    has counted.  Packets that come during a turn may be lost ([Race.packets_lost]). *)
Theorem reports_account run s count s' count' rs d :
  data s = Some d -> UserKern.cur_interval_pkt d = 0 ->
  Forall (fun '(_, pkts) => Z.of_nat (List.length pkts) < 2 ^ 31) run ->
  seconds run s count = Some (s', count', rs) ->
  sum rs + holder s' = holder s + sum ((fun '(_, pkts) => num_counted pkts) <$> run).
Proof.
  intros Hd H0 Hrun. revert s count d Hd H0 rs.
  induction Hrun as [|[g pkts] run Hlen _ IH]; intros s count d Hd H0 rs; cbn [seconds].
  { intros [= <- _ <-]. cbn. lia. }
  intros Hr. apply bind_Some in Hr as ([[s1 c1] r] & Hsec & Hr).
  apply bind_Some in Hr as ([[s2 c2] rs2] & Hrest & Hr). injection Hr as -> -> <-.
  unfold second in Hsec. apply bind_Some in Hsec as (k & Hk & Hturn).
  apply (kernel_run_counts _ _ _ d) in Hk; [|done|lia|lia]. rewrite H0, Z.add_0_l in Hk.
  unfold turn in Hturn. apply bind_Some in Hturn as ([s3 ips] & Hent & Hturn).
  eapply (calculate_ent_data g _ (UserKern.DataValue (UserKern.prev_interval_pkt d)
    (num_counted pkts))) in Hent as (Hd3 & Hh3 & _); [|exact Hk].
  cbn [holder UserKern.cur_interval_pkt] in Hh3, Hd3.
  apply bind_Some in Hturn as (c & _ & Hturn). cbn [sum fold_right fmap list_fmap].
  destruct (c =? 11); injection Hturn as <- <- <-.
  - apply (IH _ _ (UserKern.DataValue (num_counted pkts) 0)) in Hrest; [|done|done].
    cbn [holder] in Hrest. unfold sum in *. cbn [fold_right fmap list_fmap] in *. lia.
  - apply (IH _ _ (UserKern.DataValue (num_counted pkts) 0)) in Hrest; [|done|done].
    unfold sum in *. cbn [fold_right fmap list_fmap] in *. lia.
Qed.
End Accounting.

(** ** Examples *)

Module LoaderExamples.
Import PinFs LinkExamples.

(** No map is pinned yet, and the updates go to the kernel. *)
#[export] Instance proc_sys : ProcSys t := {
  sys_access p w := bool_decide (is_Some (paths w !! p));
  sys_setrlimit w := (0, w);
  sys_map_update _ _ _ _ w := (0, w);
}.

Definition four_maps : list bpf_map :=
  [a_map 3 "logger"; a_map 4 "blacklist"; a_map 5 "data"; a_map 6 "tx_port"].

Definition booted : t :=
  Fs ∅ {["xdp_prog_kern.o" := BpfObject_ [a_program] four_maps false (-1) false]} ∅.


Lemma main_needs_device_witness :
  main_run main_cfg booted = Some (Returned EXIT_FAIL_OPTION, booted).
Proof. apply (main_needs_device booted main_cfg). reflexivity. Defined.


#[export] Instance pin_frame : PinFrame t.
Proof.
  split.
  - intros fd path w ix m. cbn. by destruct (paths w !! path).
  - intros path w ix m. cbn. by destruct (paths w !! path).
  - done.
  - done.
Qed.


Import EntropyExamples Capped.
Import (hints) UserKern.Examples.

(** Twelve seconds of two packets each: one report, of the first eleven. *)
Definition lpm (b : Z -> option Z) (k : InKernel.lpm_v4_key) : option Z := b (InKernel.address k).
Definition start : detector (Capped.t Z UserKern.logger_value) (Z -> option Z) :=
  Detector (Map 5 ∅) (Some (UserKern.DataValue 0 0)) (fun _ => None) 0 1 [].
Definition traffic : list (fresh * list (list Z)) :=
  replicate 12 (junk, [UserKern.Examples.frame; UserKern.Examples.frame]).
Definition reported : option (detector (Capped.t Z UserKern.logger_value) (Z -> option Z) * Z * list Z) :=
  seconds lpm (fun _ _ => InKernel.XDP_REDIRECT) log2 traffic start 0.

Lemma reports_account_witness :
  exists s' n rs, reported = Some (s', n, rs) /\ rs = [22] /\ sum rs + holder s' = 24.
Proof.
  destruct reported as [[[s' n] rs]|] eqn:E; [|vm_compute in E; discriminate].
  exists s', n, rs. split; [reflexivity|].
  split; [vm_compute in E; by injection E|].
  etransitivity.
  - apply (reports_account lpm (fun _ _ => InKernel.XDP_REDIRECT) log2 traffic start 0 s' n rs
             (UserKern.DataValue 0 0)); [reflexivity..| |exact E].
    repeat constructor.
  - vm_compute. reflexivity.
Defined.
End LoaderExamples.
