(* ===== verification/Race.v ===== *)
(** * The loader reading while the kernel counts

    [Loader] runs the packets of a second and then a turn of the loop.  In fact
    [calculate_ent] ([user+ebpf/main/xdp_loader.c]) looks the counters of the
    interval up at line 214 and writes them back, reset, at line 297, while the
    XDP program goes on counting.  This file models both sides as a step relation
    on the shared [data] map: the packets counted in between are lost, but the
    loader never reports a packet twice or one that was not counted. *)

From stdpp Require Import relations.
From S2P Require Import Prelude Packet BpfMap Entropy Loader.
From S2P Require UserKern.

(** Where the loader is: outside [calculate_ent], or in it with its copy of the
    counters. *)
Inductive phase := Sleeping | Holding (d : UserKern.data_value).

(** [reported] (what the reports add up to) and [seen] (the packets the program
    has counted) are ghosts. *)
Record rstate (M B : Type) := RState {
  kernel : UserKern.kern M B; at_ : phase; held : Z; reported : Z; seen : Z }.
#[global] Arguments RState {M B}.
#[global] Arguments kernel {M B}.
#[global] Arguments at_ {M B}.
#[global] Arguments held {M B}.
#[global] Arguments reported {M B}.
#[global] Arguments seen {M B}.

Section Race.
Context `{HostOrder} {M B : Type}.
Context `{!BpfHash M Z UserKern.logger_value} `{!BpfHashLaws M Z UserKern.logger_value}.
Context (blacklist_lookup : B -> InKernel.lpm_v4_key -> option Z) (redirect_map : Z -> Z -> Z).

Definition set_data (d : UserKern.data_value) (k : UserKern.kern M B) : UserKern.kern M B :=
  UserKern.Kern (UserKern.logger k) (UserKern.blacklist k) (Some d) (UserKern.trace k).

(** [calculate_ent] up to its lookup; from there to the update; the report of
    the main loop; a packet.  Fewer than [2 ^ 31] packets come in one interval. *)
Inductive rstep : rstate M B -> rstate M B -> Prop :=
  | rstep_packet s pkt d k r :
      UserKern.data (kernel s) = Some d -> UserKern.cur_interval_pkt d + 1 < 2 ^ 31 ->
      UserKern.xdp_filter_func blacklist_lookup redirect_map pkt (kernel s) = Some (k, r) ->
      rstep s (RState k (at_ s) (held s) (reported s) (if counted pkt then seen s + 1 else seen s))
  | rstep_lookup s d :
      at_ s = Sleeping -> UserKern.data (kernel s) = Some d ->
      rstep s (RState (kernel s) (Holding d) (held s) (reported s) (seen s))
  | rstep_update s d h :
      at_ s = Holding d -> add32 (held s) (UserKern.cur_interval_pkt d) = Some h ->
      rstep s (RState (set_data (UserKern.DataValue (UserKern.cur_interval_pkt d) 0) (kernel s))
                      Sleeping h (reported s) (seen s))
  | rstep_report s :
      at_ s = Sleeping ->
      rstep s (RState (kernel s) Sleeping 0 (reported s + held s) (seen s)).

Local Abbreviation runs := (rtc rstep).

(** The counters of the map, as the kernel has them. *)
Definition current (s : rstate M B) : Z :=
  match UserKern.data (kernel s) with Some d => UserKern.cur_interval_pkt d | None => 0 end.

(** What has been accounted for never exceeds what was counted, and the copy the
    loader holds is not ahead of the map. *)
Definition race_inv (s : rstate M B) : Prop :=
  is_Some (UserKern.data (kernel s)) /\ 0 <= current s /\
  reported s + held s + current s <= seen s /\
  match at_ s with
  | Sleeping => True
  | Holding d => 0 <= UserKern.cur_interval_pkt d <= current s
  end.

Lemma packet_inv s pkt d k r :
  race_inv s -> UserKern.data (kernel s) = Some d -> UserKern.cur_interval_pkt d + 1 < 2 ^ 31 ->
  UserKern.xdp_filter_func blacklist_lookup redirect_map pkt (kernel s) = Some (k, r) ->
  race_inv (RState k (at_ s) (held s) (reported s) (if counted pkt then seen s + 1 else seen s)).
Proof.
  intros (_ & H0 & Hsum & Hat) Hd Hlt Hh. unfold race_inv, current in *. rewrite Hd in *.
  apply (handler_counts _ _ _ _ _ _ _ Hd) in Hh. cbn [kernel at_ held reported seen]. rewrite Hh.
  cbn [UserKern.cur_interval_pkt]. split; [by eexists|].
  destruct (counted pkt); rewrite ?i32_id by lia; repeat split; try lia; destruct (at_ s); lia.
Qed.

Lemma race_step_inv s s' : race_inv s -> rstep s s' -> race_inv s'.
Proof.
  intros Hi. destruct 1 as [s pkt d k r Hd Hlt Hh|s d Hat Hd|s d h Hat Hh|s Hat].
  - by eapply packet_inv.
  - destruct Hi as (Hs & H0 & Hsum & _). unfold race_inv, current in *.
    cbn [kernel at_ held reported seen] in *. rewrite Hd in *. repeat split; try done; lia.
  - destruct Hi as (_ & H0 & Hsum & Hc). rewrite Hat in Hc. apply chk32_Some in Hh as [-> _].
    unfold race_inv, current in *. cbn. repeat split; [by eexists|lia..].
  - destruct Hi as (Hs & H0 & Hsum & _). unfold race_inv, current in *. cbn in *.
    repeat split; try done; lia.
Qed.

Lemma race_inv_runs s s' : race_inv s -> runs s s' -> race_inv s'.
Proof. intros Hi Hr. revert Hi. induction Hr; eauto using race_step_inv. Qed.

(** The packets of a run of the kernel, as steps. *)
Lemma runs_packets pkts s d k :
  UserKern.data (kernel s) = Some d -> 0 <= UserKern.cur_interval_pkt d ->
  UserKern.cur_interval_pkt d + Z.of_nat (List.length pkts) < 2 ^ 31 ->
  kernel_run blacklist_lookup redirect_map pkts (kernel s) = Some k ->
  runs s (RState k (at_ s) (held s) (reported s) (seen s + num_counted pkts)).
Proof.
  revert s d. induction pkts as [|pkt pkts IH]; intros s d Hd H0 Hmax; cbn [kernel_run].
  { intros [= <-]. unfold num_counted. cbn. rewrite Z.add_0_r. by destruct s. }
  destruct (UserKern.xdp_filter_func _ _ pkt (kernel s)) as [[k1 r]|] eqn:E;
    cbn [mbind option_bind]; [|done]. cbn [List.length] in Hmax. intros Hrun.
  pose proof (handler_counts _ _ _ _ _ _ _ Hd E) as Hd1.
  eapply rtc_l; [exact (rstep_packet s pkt d k1 r Hd ltac:(lia) E)|].
  eapply (IH (RState k1 (at_ s) (held s) (reported s) _)) in Hrun; [|exact Hd1|..];
    cbn [kernel at_ held reported seen UserKern.cur_interval_pkt] in *;
    [|destruct (counted pkt); rewrite ?i32_id by lia; lia..].
  replace (seen s + num_counted (pkt :: pkts))
    with ((if counted pkt then seen s + 1 else seen s) + num_counted pkts); [exact Hrun|].
  unfold num_counted. cbn [List.filter]. destruct (counted pkt); cbn [List.length]; lia.
Qed.

(** However the packets interleave with the detector, what the loader has reported
    and holds, with what the map still counts, is at most what the XDP program has
    counted: no packet is reported twice, even across the lookup and the reset. *)
Theorem never_overcounts s s' d :
  UserKern.data (kernel s) = Some d -> 0 <= UserKern.cur_interval_pkt d -> at_ s = Sleeping ->
  reported s + held s + UserKern.cur_interval_pkt d <= seen s -> runs s s' ->
  0 <= current s' /\ reported s' + held s' + current s' <= seen s'.
Proof.
  intros Hd H0 Hat Hle Hr.
  destruct (race_inv_runs s s') as (_ & ? & ? & _); [|done|done].
  unfold race_inv, current. rewrite Hd, Hat. by split; [eexists|].
Qed.

(** Every packet counted between the lookup and the update is lost: it is in no
    report and no longer in the map. *)
Theorem packets_lost s d pkts k h :
  UserKern.data (kernel s) = Some d -> 0 <= UserKern.cur_interval_pkt d -> at_ s = Sleeping ->
  reported s + held s + UserKern.cur_interval_pkt d = seen s ->
  UserKern.cur_interval_pkt d + Z.of_nat (List.length pkts) < 2 ^ 31 ->
  kernel_run blacklist_lookup redirect_map pkts (kernel s) = Some k ->
  add32 (held s) (UserKern.cur_interval_pkt d) = Some h ->
  exists s', runs s s' /\ at_ s' = Sleeping /\ seen s' = seen s + num_counted pkts /\
    reported s' + held s' + current s' = seen s' - num_counted pkts.
Proof.
  intros Hd H0 Hat Hsum Hmax Hk Hh. apply chk32_Some in Hh as [-> Hr].
  exists (RState (set_data (UserKern.DataValue (UserKern.cur_interval_pkt d) 0) k) Sleeping
            (held s + UserKern.cur_interval_pkt d) (reported s) (seen s + num_counted pkts)).
  split; [|unfold current; cbn; repeat split; lia].
  eapply rtc_l; [by apply (rstep_lookup s d)|].
  eapply rtc_r; [eapply (runs_packets pkts (RState _ _ _ _ _)); [exact Hd|..]; done|].
  eapply (rstep_update (RState _ _ _ _ _)); [done|].
  unfold add32. by apply chk32_id.
Qed.
End Race.

(** ** Example: two packets between the lookup and the update *)

Module RaceExamples.
Import Capped UserKern.Examples.

Definition busy : rstate (Capped.t Z UserKern.logger_value) (Z -> option Z) :=
  RState UserKern.Examples.state Sleeping 0 5 8.

(** One packet, seen by both sides. *)
Lemma never_overcounts_witness :
  exists k r, UserKern.Examples.after = Some (k, r) /\
  0 <= current (RState k Sleeping 0 5 9) /\ 5 + 0 + current (RState k Sleeping 0 5 9) <= 9.
Proof.
  destruct UserKern.Examples.after as [[k r]|] eqn:E; [|vm_compute in E; discriminate].
  exists k, r. split; [reflexivity|].
  apply (never_overcounts UserKern.Examples.lpm UserKern.Examples.redirect busy
    (RState k Sleeping 0 5 9) (UserKern.DataValue 9 3));
    [reflexivity | vm_compute; discriminate | reflexivity | vm_compute; discriminate |].
  apply rtc_once. exact (rstep_packet _ _ busy frame _ _ _ eq_refl ltac:(cbn; lia) E).
Defined.

Lemma packets_lost_witness :
  exists s', rtc (rstep lpm redirect) busy s' /\ at_ s' = Sleeping /\ seen s' = 10 /\
    reported s' + held s' + current s' = 8.
Proof.
  destruct (kernel_run lpm redirect [frame; frame] (kernel busy)) as [k|] eqn:E;
    [|vm_compute in E; discriminate].
  destruct (packets_lost lpm redirect busy (UserKern.DataValue 9 3) [frame; frame] k 3
    eq_refl ltac:(cbn; lia) eq_refl eq_refl ltac:(cbn; lia) E eq_refl) as (s' & ? & ? & Hs & Hr).
  change (num_counted [frame; frame]) with 2 in *. exists s'. cbn in Hs, Hr.
  split; [done|]. split; [done|]. rewrite Hr, Hs. split; reflexivity.
Defined.
End RaceExamples.

