(* ===== verification/Hashmap.v ===== *)
(** * The hash map of libbpf

    Models [libbpf/src/hashmap.c] and [hashmap.h].  The buckets are lists of
    entries, in the order of the [next] pointers; a pointer to a pointer to an
    entry is a position in its bucket.  [free] leaves the pointer to the buckets
    dangling, which is a value of its own here, and [None] is an access through it
    (or an index out of the array).  Whether an allocation succeeds is an input. *)

From S2P Require Import Prelude BpfMap.

Definition ENOMEM : Z := 12.

Inductive hashmap_insert_strategy := HASHMAP_ADD | HASHMAP_SET | HASHMAP_UPDATE | HASHMAP_APPEND.

#[export] Instance strategy_eq_dec : EqDecision hashmap_insert_strategy.
Proof. solve_decision. Defined.

Record hashmap_entry (K V : Type) := Entry { key : K; value : V }.
Arguments Entry {K V}.
Arguments key {K V}.
Arguments value {K V}.

(** [map->buckets]: NULL, an array, or a pointer to freed memory. *)
Inductive buckets (K V : Type) := Null | Live (l : list (list (hashmap_entry K V))) | Freed.
Arguments Null {K V}.
Arguments Live {K V}.
Arguments Freed {K V}.

Record hashmap (K V : Type) := HMap { bkts : buckets K V; cap : Z; cap_bits : Z; sz : Z }.
Arguments HMap {K V}.
Arguments bkts {K V}.
Arguments cap {K V}.
Arguments cap_bits {K V}.
Arguments sz {K V}.

Definition HASHMAP_MIN_CAP_BITS : Z := 2.

(** ** Operations *)

Section Hashmap.
Context {K V : Type} (hash_fn : K -> Z) (equal_fn : K -> K -> bool).
(** What a shift by the width gives on the machine (C leaves it undefined). *)
Context (shift_out : Z -> Z).
(** Whether [calloc] can give so many buckets. *)
Context (calloc_ok : Z -> bool).

Local Abbreviation entry := (hashmap_entry K V).
Local Abbreviation hmap := (hashmap K V).

Definition hash_bits (h bits : Z) : Z :=
  let p := u64 (h * 11400714819323198485) in
  if bits =? 0 then shift_out p else Z.shiftr p (64 - bits).

(** [hash_bits(map->hash_fn(key), bits)], as an index. *)
Definition slot (bits : Z) (k : K) : nat := Z.to_nat (hash_bits (hash_fn k) bits).

Definition hashmap_add_entry (h : nat) (e : entry) (l : list (list entry))
    : option (list (list entry)) :=
  b ← l !! h; Some (<[h := e :: b]> l).

Definition hashmap__init : hmap := HMap Null 0 0 0.

(** [free] of the buckets. *)
Definition free_buckets (b : buckets K V) : option (buckets K V) :=
  match b with Null => Some Null | Live _ => Some Freed | Freed => None end.

Definition hashmap__clear (map : hmap) : option hmap :=
  b ← free_buckets (bkts map); Some (HMap b 0 0 0).

(** [hashmap__new]: the map, or the encoded error. *)
Definition hashmap__new (malloc_ok : bool) : Z + hmap :=
  if malloc_ok then inr hashmap__init else inl (- ENOMEM).

(** [hashmap__free], of a pointer that may be NULL: whether it is defined. *)
Definition hashmap__free (map : option hmap) : option unit :=
  match map with
  | None => Some tt
  | Some map => _ ← hashmap__clear map; Some tt
  end.

Definition hashmap__size (map : hmap) : Z := sz map.
Definition hashmap__capacity (map : hmap) : Z := cap map.

Definition hashmap_needs_to_grow (map : hmap) : bool :=
  (cap map =? 0) || (cap map <? u64 ((sz map + 1) * 4) / 3).

(** [hashmap__for_each_entry]: [cap] buckets are visited. *)
Definition for_each_entry (map : hmap) : option (list entry) :=
  match bkts map with
  | Live l =>
      if decide (length l < Z.to_nat (cap map))%nat then None
      else Some (concat (take (Z.to_nat (cap map)) l))
  | _ => if cap map =? 0 then Some [] else None
  end.

(** The loop of [hashmap_grow]: every entry goes in front of its new bucket. *)
Fixpoint rehash (bits : Z) (es : list entry) (l : list (list entry)) : option (list (list entry)) :=
  match es with
  | [] => Some l
  | e :: es => l ← hashmap_add_entry (slot bits (key e)) e l; rehash bits es l
  end.

Definition hashmap_grow (map : hmap) : option (Z * hmap) :=
  let new_cap_bits := cap_bits map + 1 in
  let new_cap_bits := if new_cap_bits <? HASHMAP_MIN_CAP_BITS then HASHMAP_MIN_CAP_BITS
                      else new_cap_bits in
  let new_cap := Z.shiftl 1 new_cap_bits in
  if negb (calloc_ok new_cap) then Some (- ENOMEM, map) else
  es ← for_each_entry map;
  l ← rehash new_cap_bits es (replicate (Z.to_nat new_cap) []);
  _ ← free_buckets (bkts map);
  Some (0, HMap (Live l) new_cap new_cap_bits (sz map)).

(** The first entry of a bucket with an equal key, and where it is. *)
Fixpoint find_from (i : nat) (k : K) (b : list entry) : option (nat * entry) :=
  match b with
  | [] => None
  | e :: b => if equal_fn (key e) k then Some (i, e) else find_from (S i) k b
  end.

(** [None]: dangling buckets or an index outside; [Some None]: not found. *)
Definition hashmap_find_entry (map : hmap) (k : K) (hash : nat) : option (option (nat * entry)) :=
  match bkts map with
  | Null => Some None
  | Live l => b ← l !! hash; Some (find_from 0 k b)
  | Freed => None
  end.

(** Replacing entry [i] of bucket [h] by what [f] gives. *)
Definition alter_bucket (f : list entry -> list entry) (h : nat) (map : hmap) : option hmap :=
  match bkts map with
  | Live l => b ← l !! h; Some (HMap (Live (<[h := f b]> l)) (cap map) (cap_bits map) (sz map))
  | _ => None
  end.

Definition set_sz (n : Z) (map : hmap) : hmap := HMap (bkts map) (cap map) (cap_bits map) n.

(** The second half of [hashmap__insert]: a new entry.  [malloc_ok] tells whether
    its allocation succeeds. *)
Definition insert_new (malloc_ok : bool) (map : hmap) (k : K) (v : V) : option (Z * hmap) :=
  '(err, map) ← (if hashmap_needs_to_grow map then hashmap_grow map else Some (0, map));
  if negb (err =? 0) then Some (err, map) else
  if negb malloc_ok then Some (- ENOMEM, map) else
  map ← alter_bucket (cons (Entry k v)) (slot (cap_bits map) k) map;
  Some (0, set_sz (u64 (sz map + 1)) map).

(** The result code, the old entry ([*old_key], [*old_value]) and the map. *)
Definition hashmap__insert (malloc_ok : bool) (map : hmap) (k : K) (v : V)
    (strategy : hashmap_insert_strategy) : option (Z * option entry * hmap) :=
  let h := slot (cap_bits map) k in
  found ← match strategy with
          | HASHMAP_APPEND => Some None
          | _ => hashmap_find_entry map k h
          end;
  match found, strategy with
  | Some (i, e), (HASHMAP_SET | HASHMAP_UPDATE) =>
      map ← alter_bucket (fun b => <[i := Entry k v]> b) h map; Some (0, Some e, map)
  | Some (_, e), HASHMAP_ADD => Some (- EEXIST, Some e, map)
  | _, HASHMAP_UPDATE => Some (- ENOENT, None, map)
  | _, _ => '(err, map) ← insert_new malloc_ok map k v; Some (err, None, map)
  end.

Definition hashmap__add malloc_ok map k v := hashmap__insert malloc_ok map k v HASHMAP_ADD.
Definition hashmap__set malloc_ok map k v := hashmap__insert malloc_ok map k v HASHMAP_SET.
Definition hashmap__update malloc_ok map k v := hashmap__insert malloc_ok map k v HASHMAP_UPDATE.
Definition hashmap__append malloc_ok map k v := hashmap__insert malloc_ok map k v HASHMAP_APPEND.

Definition hashmap__find (map : hmap) (k : K) : option (option V) :=
  found ← hashmap_find_entry map k (slot (cap_bits map) k);
  Some (match found with Some (_, e) => Some (value e) | None => None end).

Definition hashmap__delete (map : hmap) (k : K) : option (option entry * hmap) :=
  let h := slot (cap_bits map) k in
  found ← hashmap_find_entry map k h;
  match found with
  | None => Some (None, map)
  | Some (i, e) =>
      map ← alter_bucket (delete i) h map; Some (Some e, set_sz (u64 (sz map - 1)) map)
  end.

(** [hashmap__for_each_key_entry]. *)
Definition for_each_key_entry (map : hmap) (k : K) : option (list entry) :=
  match bkts map with
  | Null => Some []
  | Live l => b ← l !! slot (cap_bits map) k; Some (List.filter (fun e => equal_fn (key e) k) b)
  | Freed => None
  end.
End Hashmap.

#[global] Arguments hash_bits : simpl never.

(** ** Lists of buckets *)

Section Buckets.
Context {A : Type} (p : A -> bool).

Lemma filter_nil_of (l : list A) : (forall x, x ∈ l -> p x = false) -> List.filter p l = [].
Proof.
  induction l as [|x l IH]; intros Hl; [done|]. cbn.
  rewrite (Hl x) by (by left). apply IH. intros y Hy. apply Hl. by right.
Qed.

Lemma filter_all_of (l : list A) : Forall (fun x => p x = true) l -> List.filter p l = l.
Proof. induction 1 as [|x l Hx _ IH]; [done|]. cbn. by rewrite Hx, IH. Qed.

(** When only one bucket has elements of interest, they are those of the whole. *)
Lemma filter_concat_at (l : list (list A)) h b :
  l !! h = Some b ->
  (forall j b', l !! j = Some b' -> j <> h -> forall x, x ∈ b' -> p x = false) ->
  List.filter p (concat l) = List.filter p b.
Proof.
  revert h. induction l as [|b0 l IH]; intros [|h] Hb Hother; cbn in Hb; [done|done| |].
  - injection Hb as ->. cbn. rewrite List.filter_app, (filter_nil_of (concat l)); [by rewrite app_nil_r|].
    intros x (b' & Hb' & Hx)%list_elem_of_In%in_concat.
    apply list_elem_of_In, list_elem_of_lookup in Hb' as [j Hj].
    eapply (Hother (S j) b'); [exact Hj|done|by apply list_elem_of_In].
  - cbn. rewrite List.filter_app, (filter_nil_of b0); [|by apply (Hother 0%nat)].
    cbn. apply (IH h Hb). intros j b' Hj Hne. apply (Hother (S j)); [exact Hj|congruence].
Qed.
End Buckets.

Lemma length_concat_insert {A} (l : list (list A)) h b b' :
  l !! h = Some b ->
  Z.of_nat (length (concat (<[h := b']> l))) =
    Z.of_nat (length (concat l)) + Z.of_nat (length b') - Z.of_nat (length b).
Proof.
  revert h. induction l as [|b0 l IH]; intros [|h] Hb; cbn in Hb; [done|done| |].
  - injection Hb as ->. cbn. rewrite !length_app. lia.
  - change (concat (<[S h := b']> (b0 :: l))) with (b0 ++ concat (<[h := b']> l)).
    cbn [concat]. rewrite !length_app, !Nat2Z.inj_add, (IH h Hb). lia.
Qed.

(** ** Well-formed maps *)

Section Invariant.
Context {K V : Type} (hash_fn : K -> Z) (equal_fn : K -> K -> bool).
Context (shift_out : Z -> Z) (calloc_ok : Z -> bool).
(** The user's functions: equality is an equivalence that the hash respects. *)
Context (equal_refl : forall k, equal_fn k k = true).
Context (equal_sym : forall k k', equal_fn k k' = true -> equal_fn k' k = true).
Context (equal_trans : forall k1 k2 k3,
  equal_fn k1 k2 = true -> equal_fn k2 k3 = true -> equal_fn k1 k3 = true).
Context (equal_hash : forall k k', equal_fn k k' = true -> hash_fn k = hash_fn k').
(** No allocation reaches half of the address space. *)
Context (calloc_bound : forall n, calloc_ok n = true -> n * 8 < 2 ^ 63).

Local Abbreviation entry := (hashmap_entry K V).
Local Abbreviation hmap := (hashmap K V).
Local Abbreviation slot := (slot hash_fn shift_out).

Definition matches (k : K) (e : entry) : bool := equal_fn (key e) k.

(** Every entry is in the bucket of its hash; the load is at most three quarters. *)
Definition placed (bits : Z) (l : list (list entry)) : Prop :=
  forall j b e, l !! j = Some b -> e ∈ b -> slot bits (key e) = j.

Definition wf (map : hmap) : Prop :=
  match bkts map with
  | Null => cap map = 0 /\ cap_bits map = 0 /\ sz map = 0
  | Live l => 2 <= cap_bits map < 60 /\ cap map = 2 ^ cap_bits map /\
      length l = Z.to_nat (cap map) /\ placed (cap_bits map) l /\
      sz map = Z.of_nat (length (concat l)) /\ sz map * 4 / 3 <= cap map
  | Freed => False
  end.

(** All entries, and those of a key, in the order of the buckets. *)
Definition entries (map : hmap) : list entry :=
  match bkts map with Live l => concat l | _ => [] end.
Definition chain (map : hmap) (k : K) : list entry := List.filter (matches k) (entries map).

Lemma slot_range bits k : 1 <= bits <= 64 -> (slot bits k < Z.to_nat (2 ^ bits))%nat.
Proof.
  intros Hb. unfold Hashmap.slot, hash_bits. rewrite (proj2 (Z.eqb_neq _ _)) by lia.
  set (p := u64 _). assert (0 <= p < 2 ^ 64) as Hp by apply u64_range.
  rewrite Z.shiftr_div_pow2 by lia.
  assert (p / 2 ^ (64 - bits) < 2 ^ bits).
  { apply Z.div_lt_upper_bound; [apply Z.pow_pos_nonneg; lia|].
    rewrite <- Z.pow_add_r by lia. replace (64 - bits + bits) with 64 by lia. lia. }
  pose proof (Z.div_pos p (2 ^ (64 - bits)) ltac:(lia) ltac:(apply Z.pow_pos_nonneg; lia)). lia.
Qed.

Lemma matches_slot bits k e : matches k e = true -> slot bits (key e) = slot bits k.
Proof. intros Hm. unfold Hashmap.slot. by rewrite (equal_hash _ _ Hm). Qed.

Lemma chain_bucket bits l k b :
  placed bits l -> l !! slot bits k = Some b ->
  List.filter (matches k) (concat l) = List.filter (matches k) b.
Proof.
  intros Hp Hb. apply (filter_concat_at _ _ _ _ Hb). intros j b' Hj Hne e He.
  destruct (matches k e) eqn:Hm; [|done].
  destruct Hne. rewrite <- (Hp j b' e Hj He). by apply matches_slot.
Qed.

(** Changing one bucket changes the chains of the keys of that bucket. *)
Lemma chain_insert bits l h b b' k :
  placed bits l -> placed bits (<[h := b']> l) -> l !! h = Some b ->
  (slot bits k < length l)%nat ->
  List.filter (matches k) (concat (<[h := b']> l)) =
    if decide (slot bits k = h) then List.filter (matches k) b'
    else List.filter (matches k) (concat l).
Proof.
  intros Hp Hp' Hb Hk. assert (h < length l)%nat by (by eapply lookup_lt_Some). case_decide as E.
  - eapply chain_bucket; [exact Hp'|]. rewrite E. by apply list_lookup_insert_eq.
  - destruct (lookup_lt_is_Some_2 l (slot bits k) Hk) as [bk Ek].
    rewrite (chain_bucket bits l k bk Hp Ek). apply (chain_bucket bits); [done|].
    by rewrite list_lookup_insert_ne by congruence.
Qed.

Lemma placed_insert bits l h b b' :
  placed bits l -> l !! h = Some b ->
  (forall e, e ∈ b' -> e ∈ b \/ slot bits (key e) = h) -> placed bits (<[h := b']> l).
Proof.
  intros Hp Hb Hin j bj e Hj He. destruct (decide (j = h)) as [->|Hne].
  - rewrite list_lookup_insert_eq in Hj by (by eapply lookup_lt_Some). injection Hj as <-.
    destruct (Hin e He); [by eapply Hp|done].
  - rewrite list_lookup_insert_ne in Hj by congruence. by eapply Hp.
Qed.

Lemma matches_equiv k k' e : equal_fn k k' = true -> matches k e = matches k' e.
Proof.
  intros E. unfold matches. apply Bool.eq_iff_eq_true.
  split; intros; eauto using equal_trans, equal_sym.
Qed.

Lemma filter_equiv k k' l :
  equal_fn k k' = true -> List.filter (matches k) l = List.filter (matches k') l.
Proof. intros E. apply List.filter_ext. intros e. by apply matches_equiv. Qed.

(** An entry that matches [k] matches exactly the keys equal to [k]. *)
Lemma matches_other k k' e : matches k e = true -> matches k' e = equal_fn k k'.
Proof.
  intros Hm. unfold matches in *. apply Bool.eq_iff_eq_true.
  split; intros; eauto using equal_trans, equal_sym.
Qed.

Lemma find_from_None i k b :
  find_from equal_fn i k b = None -> List.filter (matches k) b = [].
Proof.
  revert i. induction b as [|e b IH]; intros i; [done|]. cbn.
  change (matches k e) with (equal_fn (key e) k).
  destruct (equal_fn (key e) k); [done|]. apply IH.
Qed.

Lemma find_from_Some i k (b : list entry) j e :
  find_from equal_fn i k b = Some (j, e) ->
  exists b1 b2, b = b1 ++ e :: b2 /\ j = (i + length b1)%nat /\
    List.filter (matches k) b1 = [] /\ matches k e = true.
Proof.
  revert i. induction b as [|e0 b IH]; intros i; [done|]. cbn.
  destruct (equal_fn (key e0) k) eqn:E.
  - intros [= <- <-]. exists [], b. rewrite Nat.add_0_r. done.
  - intros (b1 & b2 & -> & -> & Hf & Hm)%IH. exists (e0 :: b1), b2.
    split; [done|]. split; [cbn; lia|]. split; [|done].
    cbn. change (matches k e0) with (equal_fn (key e0) k). by rewrite E.
Qed.

(** In a well-formed map the bucket of a key exists and holds its chain. *)
Lemma wf_bucket map l k :
  wf map -> bkts map = Live l ->
  exists b, l !! slot (cap_bits map) k = Some b /\ chain map k = List.filter (matches k) b.
Proof.
  unfold wf, chain, entries. intros Hwf E. rewrite E in *. destruct Hwf as (Hb & Hc & Hl & Hp & _).
  destruct (lookup_lt_is_Some_2 l (slot (cap_bits map) k)) as [b Eb].
  { rewrite Hl, Hc. apply slot_range. lia. }
  exists b. split; [done|]. by eapply chain_bucket.
Qed.

Lemma find_entry_spec map k :
  wf map ->
  exists f, hashmap_find_entry equal_fn map k (slot (cap_bits map) k) = Some f /\
    match f with
    | None => chain map k = []
    | Some (i, e) => exists l b1 b2, bkts map = Live l /\
        l !! slot (cap_bits map) k = Some (b1 ++ e :: b2) /\ i = length b1 /\
        List.filter (matches k) b1 = [] /\ matches k e = true
    end.
Proof.
  intros Hwf. unfold hashmap_find_entry. destruct (bkts map) as [|l|] eqn:E.
  - exists None. split; [done|]. unfold chain, entries. by rewrite E.
  - destruct (wf_bucket map l k Hwf E) as (b & Hb & Hc). rewrite Hb. cbn [mbind option_bind].
    exists (find_from equal_fn 0 k b). split; [done|].
    destruct (find_from equal_fn 0 k b) as [[i e]|] eqn:Ef.
    + apply find_from_Some in Ef as (b1 & b2 & -> & -> & Hf & Hm). by exists l, b1, b2.
    + apply find_from_None in Ef. by rewrite Hc.
  - unfold wf in Hwf. by rewrite E in Hwf.
Qed.

(** Replacing a bucket keeps a map well formed when the entries it gains hash to
    it and the size is kept up to date. *)
Lemma wf_replace map l k b b' n :
  wf map -> bkts map = Live l -> l !! slot (cap_bits map) k = Some b ->
  (forall e, e ∈ b' -> e ∈ b \/ slot (cap_bits map) (key e) = slot (cap_bits map) k) ->
  n = sz map + Z.of_nat (length b') - Z.of_nat (length b) -> n * 4 / 3 <= cap map ->
  let map' := HMap (Live (<[slot (cap_bits map) k := b']> l)) (cap map) (cap_bits map) n in
  wf map' /\ forall k', chain map' k' =
    if decide (slot (cap_bits map) k' = slot (cap_bits map) k) then List.filter (matches k') b'
    else chain map k'.
Proof.
  intros Hwf E Hb Hin Hn Hload map'. assert (Hwf' := Hwf).
  unfold wf in Hwf. rewrite E in Hwf. destruct Hwf as (Hbits & Hc & Hl & Hp & Hsz & _).
  assert (Hp' : placed (cap_bits map) (<[slot (cap_bits map) k := b']> l)) by (by eapply placed_insert).
  split.
  - unfold wf, map'. cbn. rewrite length_insert, (length_concat_insert _ _ _ _ Hb).
    repeat split; try done; lia.
  - intros k'. unfold chain, entries, map'. cbn [bkts]. rewrite E.
    eapply chain_insert; try done. rewrite Hl, Hc. apply slot_range. lia.
Qed.

(** Replacing the first entry of a key by [mid] (entries of that key). *)
Lemma replace_first map k l b1 e b2 mid n :
  wf map -> bkts map = Live l -> l !! slot (cap_bits map) k = Some (b1 ++ e :: b2) ->
  List.filter (matches k) b1 = [] -> matches k e = true -> Forall (fun x => matches k x = true) mid ->
  n = sz map + Z.of_nat (length mid) - 1 -> n <= sz map ->
  let map' := HMap (Live (<[slot (cap_bits map) k := b1 ++ mid ++ b2]> l)) (cap map)
                (cap_bits map) n in
  wf map' /\ head (chain map k) = Some e /\ forall k', chain map' k' =
    if equal_fn k k' then mid ++ tail (chain map k') else chain map k'.
Proof.
  intros Hwf E Hb H1 He Hmid Hn Hle map'.
  destruct (wf_bucket map l k Hwf E) as (b & Hb' & Hk). rewrite Hb in Hb'. injection Hb' as <-.
  assert (sz map * 4 / 3 <= cap map).
  { unfold wf in Hwf. rewrite E in Hwf. by destruct Hwf as (_ & _ & _ & _ & _ & ?). }
  destruct (wf_replace map l k (b1 ++ e :: b2) (b1 ++ mid ++ b2) n Hwf E Hb) as [Hwf' Hc].
  { intros x [Hx|[Hx|Hx]%elem_of_app]%elem_of_app; [left; set_solver| |left; set_solver].
    right. apply matches_slot. rewrite Forall_forall in Hmid. by apply Hmid, list_elem_of_In. }
  { rewrite Hn, !length_app. cbn. lia. }
  { etransitivity; [apply Z.div_le_mono; [lia|]|done]. lia. }
  split; [done|]. rewrite List.filter_app in Hk. cbn in Hk. rewrite H1, He in Hk. cbn in Hk.
  split; [by rewrite Hk|]. intros k'. rewrite Hc. clear Hc.
  destruct (equal_fn k k') eqn:Ek.
  - rewrite decide_True by (unfold Hashmap.slot; by rewrite (equal_hash _ _ Ek)).
    assert (chain map k' = chain map k) as ->
      by (symmetry; exact (filter_equiv k k' _ Ek)).
    rewrite Hk, <- (filter_equiv k k' _ Ek), !List.filter_app, H1. cbn.
    by rewrite (filter_all_of _ mid Hmid).
  - case_decide as Hs; [|done].
    destruct (wf_bucket map l k' Hwf E) as (b & Hb' & ->). rewrite Hs, Hb in Hb'. injection Hb' as <-.
    rewrite !List.filter_app. cbn. rewrite (matches_other k k' e He), Ek. f_equal.
    replace (List.filter (matches k') mid) with (@nil entry); [done|]. symmetry.
    apply filter_nil_of. intros x Hx. rewrite (matches_other k k' x); [done|].
    rewrite Forall_forall in Hmid. by apply Hmid, list_elem_of_In.
Qed.

(** ** Growing *)

Lemma for_each_entry_all map : wf map -> for_each_entry map = Some (entries map).
Proof.
  unfold wf, for_each_entry, entries. destruct (bkts map) as [|l|]; [|intros (_ & _ & Hl & _)|done].
  - intros (-> & _). done.
  - rewrite decide_False by lia. by rewrite <- Hl, firstn_all.
Qed.

Lemma add_entry_spec bits e l :
  1 <= bits <= 64 -> length l = Z.to_nat (2 ^ bits) -> placed bits l ->
  exists l', hashmap_add_entry (slot bits (key e)) e l = Some l' /\
    length l' = length l /\ placed bits l' /\
    Z.of_nat (length (concat l')) = Z.of_nat (length (concat l)) + 1 /\
    forall k, List.filter (matches k) (concat l') =
      (if matches k e then [e] else []) ++ List.filter (matches k) (concat l).
Proof.
  intros Hbits Hl Hp. unfold hashmap_add_entry.
  destruct (lookup_lt_is_Some_2 l (slot bits (key e))) as [b Hb]; [rewrite Hl; by apply slot_range|].
  rewrite Hb. cbn [mbind option_bind]. eexists. split; [done|].
  assert (placed bits (<[slot bits (key e) := e :: b]> l)) as Hp'.
  { eapply placed_insert; [done..|]. intros x [->|Hx]%elem_of_cons; [by right|by left]. }
  split; [by rewrite length_insert|]. split; [done|].
  split; [rewrite (length_concat_insert _ _ _ _ Hb); cbn; lia|].
  intros k. rewrite (chain_insert bits l _ b (e :: b) k) by (try done; rewrite Hl; by apply slot_range).
  destruct (matches k e) eqn:Hm.
  - pose proof (matches_slot bits k e Hm) as Es. rewrite decide_True by done. cbn. rewrite Hm.
    rewrite Es in Hb. by rewrite (chain_bucket bits l k b).
  - case_decide as Es; [|done]. cbn. rewrite Hm. rewrite <- Es in Hb. by rewrite (chain_bucket bits l k b).
Qed.

Lemma rehash_spec bits es l :
  1 <= bits <= 64 -> length l = Z.to_nat (2 ^ bits) -> placed bits l ->
  exists l', rehash hash_fn shift_out bits es l = Some l' /\
    length l' = length l /\ placed bits l' /\
    Z.of_nat (length (concat l')) = Z.of_nat (length es) + Z.of_nat (length (concat l)) /\
    forall k, List.filter (matches k) (concat l') =
      rev (List.filter (matches k) es) ++ List.filter (matches k) (concat l).
Proof.
  intros Hbits. revert l. induction es as [|e es IH]; intros l Hl Hp; cbn [rehash].
  { exists l. split; [done|]. split; [done|]. split; [done|]. split; [cbn; lia|done]. }
  destruct (add_entry_spec bits e l Hbits Hl Hp) as (l1 & -> & Hl1 & Hp1 & Hn1 & Hc1).
  cbn [mbind option_bind].
  destruct (IH l1) as (l2 & -> & Hl2 & Hp2 & Hn2 & Hc2); [congruence|done|].
  exists l2. split; [done|]. split; [congruence|]. split; [done|]. split; [cbn [length]; lia|].
  intros k. rewrite Hc2, Hc1. cbn. destruct (matches k e); [|done].
  cbn. by rewrite <- app_assoc.
Qed.

Lemma concat_replicate_nil {A} n : concat (replicate n (@nil A)) = [].
Proof. by induction n. Qed.

(** Growing succeeds when the allocation does; it reverses the chain of every key
    and leaves room. *)
Lemma grow_spec map :
  wf map ->
  hashmap_grow hash_fn shift_out calloc_ok map = Some (- ENOMEM, map) \/
  exists map', hashmap_grow hash_fn shift_out calloc_ok map = Some (0, map') /\ wf map' /\
    (forall k, chain map' k = rev (chain map k)) /\ sz map' = sz map /\
    (exists l, bkts map' = Live l) /\ (sz map' + 1) * 4 / 3 <= cap map'.
Proof.
  intros Hwf. unfold hashmap_grow. set (nb := if _ <? _ then _ else _).
  assert (Hnb : 2 <= nb /\ cap map * 2 <= 2 ^ nb /\ sz map * 4 / 3 <= cap map /\
                sz map = Z.of_nat (length (entries map))).
  { unfold wf, entries, nb, HASHMAP_MIN_CAP_BITS in *.
    destruct (bkts map) as [|l|]; [destruct Hwf as (-> & -> & ->)| |done].
    - vm_compute. intuition discriminate.
    - destruct Hwf as (? & -> & _ & _ & -> & ?). rewrite (proj2 (Z.ltb_ge _ _)) by lia.
      rewrite Z.pow_add_r by lia. repeat split; lia. }
  destruct Hnb as (Hnb & Hcap & Hload & Hsz). clearbody nb.
  rewrite Z.shiftl_1_l. destruct (calloc_ok (2 ^ nb)) eqn:Ec; cbn [negb]; [|by left]. right.
  assert (nb < 60).
  { apply calloc_bound in Ec. apply (Z.pow_lt_mono_r_iff 2); lia. }
  rewrite for_each_entry_all by done. cbn [mbind option_bind].
  destruct (rehash_spec nb (entries map) (replicate (Z.to_nat (2 ^ nb)) []))
    as (l & -> & Hl & Hp & Hn & Hc); [lia|by rewrite length_replicate| |].
  { intros j b e Hj He. apply lookup_replicate in Hj as [-> _]. by apply not_elem_of_nil in He. }
  rewrite length_replicate in Hl. rewrite concat_replicate_nil in *. cbn in Hn.
  assert (4 <= 2 ^ nb) by (apply (Z.pow_le_mono_r 2 2); lia).
  assert ((sz map + 1) * 4 / 3 <= 2 ^ nb).
  { assert ((sz map + 1) * 4 / 3 <= sz map * 4 / 3 + 2); [|lia].
    rewrite <- Z.div_add by lia. apply Z.div_le_mono; lia. }
  assert (exists b, free_buckets (bkts map) = Some b) as [b ->].
  { unfold wf in Hwf. destruct (bkts map); [by eexists..|done]. }
  cbn [mbind option_bind]. eexists. split; [done|]. split; [|split; [|split; [done|split; [by exists l|done]]]].
  - unfold wf. cbn. repeat split; try done; lia.
  - intros k. unfold chain. cbn [entries bkts]. rewrite Hc. cbn. by rewrite app_nil_r.
Qed.

(** ** The operations on well-formed maps *)

(** The size is that of the lists, far below the width of [size_t]. *)
Lemma wf_small map : wf map -> 0 <= sz map < 2 ^ 61.
Proof.
  unfold wf. destruct (bkts map) as [|l|]; [lia| |done].
  intros (Hb & Hcap & _ & _ & Hsz & Hload).
  assert (2 ^ cap_bits map <= 2 ^ 59) by (apply Z.pow_le_mono_r; lia).
  pose proof (Z.div_mod (sz map * 4) 3 ltac:(lia)). pose proof (Z.mod_pos_bound (sz map * 4) 3). lia.
Qed.

(** The map to which the new entry is added: there is room in it. *)
Lemma make_room map :
  wf map ->
  let r := if hashmap_needs_to_grow map then hashmap_grow hash_fn shift_out calloc_ok map
           else Some (0, map) in
  r = Some (- ENOMEM, map) \/
  exists map1 l, r = Some (0, map1) /\ wf map1 /\ bkts map1 = Live l /\
    (sz map1 + 1) * 4 / 3 <= cap map1 /\ forall k', chain map1 k' ≡ₚ chain map k'.
Proof.
  intros Hwf. cbv zeta. destruct (hashmap_needs_to_grow map) eqn:En.
  - destruct (grow_spec map Hwf) as [Hg|(map1 & Hg & Hwf1 & Hc & Hs & [l Hl] & Hroom)]; rewrite Hg.
    + by left.
    + right. exists map1, l. repeat split; try done. intros k'. rewrite Hc. symmetry.
      apply Permutation_rev.
  - right. unfold hashmap_needs_to_grow in En. apply orb_false_iff in En as [E0 En].
    apply Z.eqb_neq in E0. apply Z.ltb_ge in En. pose proof (wf_small map Hwf).
    rewrite u64_id in En by lia. destruct (bkts map) as [|l|] eqn:El.
    + unfold wf in Hwf. rewrite El in Hwf. lia.
    + exists map, l. by repeat split.
    + unfold wf in Hwf. by rewrite El in Hwf.
Qed.

(** Adding an entry in front of its bucket. *)
Lemma add_front map l k v :
  wf map -> bkts map = Live l -> (sz map + 1) * 4 / 3 <= cap map ->
  exists map', alter_bucket (cons (Entry k v)) (slot (cap_bits map) k) map = Some map' /\
    sz map' = sz map /\ wf (set_sz (u64 (sz map' + 1)) map') /\
    forall k', chain (set_sz (u64 (sz map' + 1)) map') k' =
      (if equal_fn k k' then [Entry k v] else []) ++ chain map k'.
Proof.
  intros Hwf El Hroom. destruct (wf_bucket map l k Hwf El) as (b & Hb & Hk).
  unfold alter_bucket. rewrite El, Hb. cbn [mbind option_bind].
  destruct (wf_replace map l k b (Entry k v :: b) (sz map + 1) Hwf El Hb) as [Hwf2 Hc];
    [intros x [->|Hx]%elem_of_cons; [by right|by left]|cbn; lia|done|].
  pose proof (wf_small map Hwf). eexists. split; [done|].
  unfold set_sz. cbn [bkts cap cap_bits sz]. rewrite u64_id by lia.
  split; [done|]. split; [exact Hwf2|]. intros k'. rewrite Hc. clear Hc.
  destruct (equal_fn k k') eqn:Ek.
  - rewrite decide_True by (unfold Hashmap.slot; by rewrite (equal_hash _ _ Ek)).
    cbn. unfold matches at 1. cbn. rewrite Ek, <- (filter_equiv k k' b Ek), <- Hk.
    cbn. f_equal. exact (filter_equiv k k' _ Ek).
  - case_decide as Hs; [|done]. cbn. unfold matches at 1. cbn. rewrite Ek.
    destruct (wf_bucket map l k' Hwf El) as (b' & Hb' & ->). rewrite Hs, Hb in Hb'. by injection Hb' as <-.
Qed.

Lemma insert_new_spec malloc_ok map k v :
  wf map ->
  exists err map', insert_new hash_fn shift_out calloc_ok malloc_ok map k v = Some (err, map') /\
    wf map' /\
    ((err = 0 /\ forall k', chain map' k' ≡ₚ
        (if equal_fn k k' then [Entry k v] else []) ++ chain map k') \/
     (err = - ENOMEM /\ forall k', chain map' k' ≡ₚ chain map k')).
Proof.
  intros Hwf. unfold insert_new.
  destruct (make_room map Hwf) as [Hr|(map1 & l & Hr & Hwf1 & El & Hroom & Hperm)];
    rewrite Hr; cbn [mbind option_bind].
  { exists (- ENOMEM), map. split; [done|]. split; [done|]. by right. }
  cbn [Z.eqb negb]. destruct malloc_ok; cbn [negb].
  2: { exists (- ENOMEM), map1. split; [done|]. split; [done|]. by right. }
  destruct (add_front map1 l k v Hwf1 El Hroom) as (map2 & -> & _ & Hwf2 & Hc).
  cbn [mbind option_bind]. eexists 0, _. split; [done|]. split; [done|]. left.
  split; [done|]. intros k'. by rewrite Hc, Hperm.
Qed.

Lemma replace_entry map k i e v :
  wf map -> hashmap_find_entry equal_fn map k (slot (cap_bits map) k) = Some (Some (i, e)) ->
  head (chain map k) = Some e /\
  (exists map', alter_bucket (fun b => <[i := Entry k v]> b) (slot (cap_bits map) k) map = Some map' /\
    wf map' /\ forall k', chain map' k' =
      if equal_fn k k' then Entry k v :: tail (chain map k') else chain map k') /\
  exists map', alter_bucket (delete i) (slot (cap_bits map) k) map = Some map' /\ sz map' = sz map /\
    wf (set_sz (u64 (sz map' - 1)) map') /\ forall k', chain (set_sz (u64 (sz map' - 1)) map') k' =
      if equal_fn k k' then tail (chain map k') else chain map k'.
Proof.
  intros Hwf Hf. destruct (find_entry_spec map k Hwf) as (f & Ef & Hfound).
  rewrite Ef in Hf. injection Hf as ->. destruct Hfound as (l & b1 & b2 & El & Hb & -> & H1 & He).
  unfold alter_bucket. rewrite El, Hb. cbn [mbind option_bind].
  pose proof (wf_small map Hwf) as Hsmall.
  assert (Hone : sz map >= 1).
  { unfold wf in Hwf. rewrite El in Hwf. destruct Hwf as (_ & _ & _ & _ & -> & _).
    pose proof (length_concat_insert _ _ _ [] Hb) as Hn. rewrite length_app in Hn. cbn in Hn. lia. }
  assert (matches k (Entry k v) = true) as Hkv by apply equal_refl.
  destruct (replace_first map k l b1 e b2 [Entry k v] (sz map) Hwf El Hb H1 He)
    as (Hwf1 & Hhead & Hc1); [by constructor|cbn; lia|lia|].
  destruct (replace_first map k l b1 e b2 [] (sz map - 1) Hwf El Hb H1 He)
    as (Hwf2 & _ & Hc2); [done|cbn; lia|lia|].
  split; [done|]. split.
  - eexists. split; [done|]. rewrite (insert_app_r_alt b1 _ (length b1)) by lia.
    rewrite Nat.sub_diag. split; [exact Hwf1|exact Hc1].
  - eexists. split; [done|]. unfold set_sz. cbn [bkts cap cap_bits sz].
    rewrite delete_middle, u64_id by lia. split; [done|]. split; [exact Hwf2|exact Hc2].
Qed.

(** ** Operations as values *)

Inductive op := Insert (strategy : hashmap_insert_strategy) (k : K) (v : V) | Find (k : K) | Delete (k : K).

Inductive result :=
  | Inserted (err : Z) (old : option entry) | Found (v : option V) | Deleted (old : option entry).

(** [malloc_ok]: the answer to the next allocation of an entry. *)
Definition exec (malloc_ok : bool) (o : op) (map : hmap) : option (result * hmap) :=
  match o with
  | Insert s k v =>
      '(err, old, map) ← hashmap__insert hash_fn equal_fn shift_out calloc_ok malloc_ok map k v s;
      Some (Inserted err old, map)
  | Find k => v ← hashmap__find hash_fn equal_fn shift_out map k; Some (Found v, map)
  | Delete k => '(old, map) ← hashmap__delete hash_fn equal_fn shift_out map k; Some (Deleted old, map)
  end.

Fixpoint run (ops : list (bool * op)) (map : hmap) : option (list result * hmap) :=
  match ops with
  | [] => Some ([], map)
  | (malloc_ok, o) :: ops =>
      '(r, map) ← exec malloc_ok o map; '(rs, map) ← run ops map; Some (r :: rs, map)
  end.

(** ** The abstract map: at most one entry per key *)

Definition amap : Type := K -> option entry.

Definition upd (k : K) (o : option entry) (a : amap) : amap :=
  fun k' => if equal_fn k k' then o else a k'.

(** What the comments of [hashmap.h] promise of each strategy; an insertion may
    fail for want of memory and then changes nothing. *)
Inductive spec_step (a : amap) : op -> result -> amap -> Prop :=
  | spec_add_old k v e : a k = Some e ->
      spec_step a (Insert HASHMAP_ADD k v) (Inserted (- EEXIST) (Some e)) a
  | spec_set_old k v e : a k = Some e ->
      spec_step a (Insert HASHMAP_SET k v) (Inserted 0 (Some e)) (upd k (Some (Entry k v)) a)
  | spec_update_old k v e : a k = Some e ->
      spec_step a (Insert HASHMAP_UPDATE k v) (Inserted 0 (Some e)) (upd k (Some (Entry k v)) a)
  | spec_update_new k v : a k = None ->
      spec_step a (Insert HASHMAP_UPDATE k v) (Inserted (- ENOENT) None) a
  | spec_new s k v : s = HASHMAP_ADD \/ s = HASHMAP_SET -> a k = None ->
      spec_step a (Insert s k v) (Inserted 0 None) (upd k (Some (Entry k v)) a)
  | spec_new_failed s k v : s = HASHMAP_ADD \/ s = HASHMAP_SET -> a k = None ->
      spec_step a (Insert s k v) (Inserted (- ENOMEM) None) a
  | spec_find k : spec_step a (Find k) (Found (value <$> a k)) a
  | spec_delete k : spec_step a (Delete k) (Deleted (a k)) (upd k None a).

Inductive spec_run : amap -> list op -> list result -> amap -> Prop :=
  | spec_nil a : spec_run a [] [] a
  | spec_cons a o r a1 os rs a2 :
      spec_step a o r a1 -> spec_run a1 os rs a2 -> spec_run a (o :: os) (r :: rs) a2.

(** The refinement relation: every chain holds what the abstract map has. *)
Definition implements (map : hmap) (a : amap) : Prop :=
  wf map /\ forall k, chain map k = option_list (a k).

Lemma option_list_perm (l : list entry) (o : option entry) : l ≡ₚ option_list o -> l = option_list o.
Proof.
  destruct o as [e|]; cbn; [apply Permutation_singleton_r|apply Permutation_nil_r].
Qed.

Lemma find_implements map a k :
  implements map a ->
  exists f, hashmap_find_entry equal_fn map k (slot (cap_bits map) k) = Some f /\ (snd <$> f) = a k.
Proof.
  intros [Hwf Ha]. destruct (find_entry_spec map k Hwf) as (f & Ef & Hf). exists f. split; [done|].
  specialize (Ha k). destruct f as [[i e]|].
  - destruct (replace_entry map k i e (value e) Hwf Ef) as (Hh & _ & _). rewrite Ha in Hh.
    destruct (a k); [|done]. by injection Hh as ->.
  - rewrite Hf in Ha. by destruct (a k).
Qed.

Lemma insert_new_implements malloc_ok map a k v :
  implements map a -> a k = None ->
  exists err map', insert_new hash_fn shift_out calloc_ok malloc_ok map k v = Some (err, map') /\
    ((err = 0 /\ implements map' (upd k (Some (Entry k v)) a)) \/ (err = - ENOMEM /\ implements map' a)).
Proof.
  intros [Hwf Ha] Hk. destruct (insert_new_spec malloc_ok map k v Hwf) as (err & map' & E & Hwf' & H).
  exists err, map'. split; [done|].
  destruct H as [[-> Hc]|[-> Hc]]; [left|right]; (split; [done|]); (split; [done|]); intros k'.
  - apply option_list_perm. rewrite Hc, Ha. unfold upd. destruct (equal_fn k k') eqn:Ek; [|done].
    assert (chain map k' = chain map k) as E' by (symmetry; exact (filter_equiv k k' _ Ek)).
    rewrite !Ha, Hk in E'. destruct (a k'); [done|]. done.
  - apply option_list_perm. by rewrite Hc, Ha.
Qed.

Lemma upd_implements map map' a k o :
  implements map a -> wf map' ->
  (forall k', chain map' k' = if equal_fn k k' then option_list o else chain map k') ->
  implements map' (upd k o a).
Proof.
  intros [_ Ha] Hwf Hc. split; [done|]. intros k'. rewrite Hc, Ha. unfold upd.
  by destruct (equal_fn k k').
Qed.

Lemma tail_option_list (o : option entry) : tail (option_list o) = [].
Proof. by destruct o. Qed.

(** The step of each operation, from a map that implements [a]. *)
Definition simulates (malloc_ok : bool) (o : op) (map : hmap) (a : amap) : Prop :=
  exists r map' a', exec malloc_ok o map = Some (r, map') /\ spec_step a o r a' /\ implements map' a'.

Lemma insert_old_implements malloc_ok s map a k v i e :
  s <> HASHMAP_APPEND -> implements map a ->
  hashmap_find_entry equal_fn map k (slot (cap_bits map) k) = Some (Some (i, e)) -> a k = Some e ->
  simulates malloc_ok (Insert s k v) map a.
Proof.
  intros Hs Himp Ef Hk. assert (Himp' := Himp). destruct Himp' as [Hwf Ha].
  destruct (replace_entry map k i e v Hwf Ef) as (_ & (m1 & E1 & Hwf1 & Hc1) & _).
  assert (implements m1 (upd k (Some (Entry k v)) a)) as Himp1.
  { apply (upd_implements map); [done..|]. intros k'. rewrite Hc1, Ha, tail_option_list.
    by destruct (equal_fn k k'). }
  unfold simulates. cbn [exec]. unfold hashmap__insert.
  destruct s; [..|done]; rewrite Ef; cbn [mbind option_bind]; rewrite ?E1; cbn [mbind option_bind];
    do 3 eexists; (split; [done|]); (split; [by constructor|done]).
Qed.

Lemma insert_none_implements malloc_ok s map a k v :
  s <> HASHMAP_APPEND -> implements map a ->
  hashmap_find_entry equal_fn map k (slot (cap_bits map) k) = Some None -> a k = None ->
  simulates malloc_ok (Insert s k v) map a.
Proof.
  intros Hs Himp Ef Hk. unfold simulates. cbn [exec]. unfold hashmap__insert.
  destruct (decide (s = HASHMAP_UPDATE)) as [->|Hu].
  { rewrite Ef. cbn [mbind option_bind]. do 3 eexists. split; [done|]. split; [by constructor|done]. }
  destruct (insert_new_implements malloc_ok map a k v Himp Hk) as (err & m1 & E1 & H1).
  assert (s = HASHMAP_ADD \/ s = HASHMAP_SET) as Hs' by (destruct s; auto; done).
  destruct s; [| |done|done]; rewrite Ef; cbn [mbind option_bind]; rewrite E1; cbn [mbind option_bind];
    (destruct H1 as [[-> H1]|[-> H1]]; do 3 eexists; (split; [done|]); split;
      [by apply spec_new|done|by apply spec_new_failed|done]).
Qed.

Lemma exec_implements malloc_ok o map a :
  match o with Insert HASHMAP_APPEND _ _ => False | _ => True end -> implements map a ->
  simulates malloc_ok o map a.
Proof.
  intros Ho Himp. assert (Himp' := Himp). destruct Himp' as [Hwf Ha].
  destruct o as [s k v|k|k]; destruct (find_implements map a k Himp) as (f & Ef & Hf).
  - destruct f as [[i e]|]; cbn in Hf.
    + eapply insert_old_implements; [by intros ->|done..].
    + apply insert_none_implements; [by intros ->|done..].
  - unfold simulates. cbn [exec]. unfold hashmap__find. rewrite Ef. cbn [mbind option_bind].
    exists (Found (value <$> a k)), map, a. split; [|by split; [constructor|]].
    rewrite <- Hf. by destruct f as [[i e]|].
  - unfold simulates. cbn [exec]. unfold hashmap__delete. rewrite Ef. cbn [mbind option_bind].
    destruct f as [[i e]|]; cbn in Hf.
    + destruct (replace_entry map k i e (value e) Hwf Ef) as (_ & _ & (m1 & E1 & _ & Hwf1 & Hc1)).
      rewrite E1. cbn [mbind option_bind]. do 3 eexists. split; [done|].
      split; [rewrite Hf; constructor|]. apply (upd_implements map); [done..|].
      intros k'. by rewrite Hc1, Ha, tail_option_list.
    + do 3 eexists. split; [done|]. split; [rewrite Hf; constructor|].
      apply (upd_implements map); [done..|]. intros k'. destruct (equal_fn k k') eqn:Ek; [|done].
      rewrite <- (filter_equiv k k' (entries map) Ek : chain map k = chain map k'), Ha, <- Hf. done.
Qed.

(** C25. From an empty map, any sequence of additions, sets, updates (no [HASHMAP_APPEND]),
    searches and deletions is defined (no index out of the buckets, nothing freed is read) and
    answers what a finite map with one entry per key would, growth included; only
    an insertion may fail, for want of memory, and then it changes nothing. *)
Theorem hashmap_refines ops :
  Forall (fun bo => match snd bo with Insert HASHMAP_APPEND _ _ => False | _ => True end) ops ->
  exists rs map a, run ops hashmap__init = Some (rs, map) /\
    spec_run (fun _ => None) (snd <$> ops) rs a /\ implements map a.
Proof.
  intros Hops. assert (implements hashmap__init (fun _ => None)) as Himp by (by repeat split).
  revert Himp. generalize (fun _ : K => @None entry) as a. generalize (@hashmap__init K V) as map.
  induction Hops as [|[ok o] ops Ho _ IH]; intros map a Himp.
  { exists [], map, a. split; [done|]. split; [constructor|done]. }
  destruct (exec_implements ok o map a Ho Himp) as (r & m1 & a1 & E1 & H1 & Himp1).
  destruct (IH m1 a1 Himp1) as (rs & m2 & a2 & E2 & H2 & Himp2).
  exists (r :: rs), m2, a2. cbn [run]. rewrite E1. cbn [mbind option_bind]. rewrite E2.
  split; [done|]. split; [|done]. cbn. by econstructor.
Qed.

(** C31. Every insertion (with any strategy), look-up and deletion, with any outcome of the
    allocations, is defined on a well-formed map and leaves one: each entry in the bucket
    of its hash, [sz] the number of entries, [cap] a power of two, and at most three
    quarters of it filled.  Clearing does not ([cleared_map_undefined]). *)
Theorem hashmap_ops_wf malloc_ok o map :
  wf map -> exists r map', exec malloc_ok o map = Some (r, map') /\ wf map'.
Proof.
  intros Hwf. destruct o as [s k v|k|k]; destruct (find_entry_spec map k Hwf) as (f & Ef & _);
    cbn [exec].
  - destruct (insert_new_spec malloc_ok map k v Hwf) as (err & m1 & E1 & Hwf1 & _).
    unfold hashmap__insert. destruct f as [[i e]|].
    + destruct (replace_entry map k i e v Hwf Ef) as (_ & (m2 & E2 & Hwf2 & _) & _).
      destruct s; rewrite ?Ef; cbn [mbind option_bind]; rewrite ?E1, ?E2; by do 2 eexists.
    + destruct s; rewrite ?Ef; cbn [mbind option_bind]; rewrite ?E1; by do 2 eexists.
  - unfold hashmap__find. rewrite Ef. by do 2 eexists.
  - unfold hashmap__delete. rewrite Ef. cbn [mbind option_bind]. destruct f as [[i e]|]; [|by do 2 eexists].
    destruct (replace_entry map k i e (value e) Hwf Ef) as (_ & _ & (m1 & E1 & _ & Hwf1 & _)).
    rewrite E1. by do 2 eexists.
Qed.

(** [hashmap__clear] leaves the pointer to the freed buckets: searching a map after
    it has held anything and been cleared reads freed memory. *)
Theorem cleared_map_undefined (map map' : hmap) l k :
  bkts map = Live l -> hashmap__clear map = Some map' ->
  hashmap__find hash_fn equal_fn shift_out map' k = None /\
  hashmap__clear map' = None.
Proof. intros E. unfold hashmap__clear at 1. rewrite E. cbn. by intros [= <-]. Qed.
End Invariant.

(** ** Example: numbers, hashed by themselves *)

Module HashmapExamples.
Definition hash (k : Z) : Z := k.
Definition shift_out (p : Z) : Z := p.
Definition calloc_ok (n : Z) : bool := n <=? 1024.

Lemma calloc_limit n : calloc_ok n = true -> n * 8 < 2 ^ 63.
Proof. unfold calloc_ok. intros ?%Z.leb_le. lia. Qed.
Lemma eqb_sym_true k k' : (k =? k') = true -> (k' =? k) = true.
Proof. by rewrite Z.eqb_sym. Qed.
Lemma eqb_trans_true k1 k2 k3 : (k1 =? k2) = true -> (k2 =? k3) = true -> (k1 =? k3) = true.
Proof. rewrite !Z.eqb_eq. congruence. Qed.
Lemma eqb_hash k k' : (k =? k') = true -> hash k = hash k'.
Proof. by rewrite Z.eqb_eq. Qed.

(** Enough insertions to grow the map twice. *)
Definition ops : list (bool * op (K := Z) (V := Z)) :=
  ((fun k => (true, Insert HASHMAP_ADD (Z.of_nat k) 7)) <$> seq 0 9) ++
  [(true, Insert HASHMAP_SET 3 8); (true, Find 3); (true, Delete 4); (true, Find 4);
   (false, Insert HASHMAP_SET 20 1)].

Lemma hashmap_refines_witness :
  exists rs map a, run hash Z.eqb shift_out calloc_ok ops hashmap__init = Some (rs, map) /\
    spec_run Z.eqb (fun _ => None) (snd <$> ops) rs a /\ implements hash Z.eqb shift_out map a.
Proof.
  apply (hashmap_refines hash Z.eqb shift_out calloc_ok Z.eqb_refl eqb_sym_true eqb_trans_true
           eqb_hash calloc_limit ops).
  repeat constructor.
Defined.

Definition after : option (list (result (K := Z) (V := Z)) * hashmap Z Z) :=
  run hash Z.eqb shift_out calloc_ok ops hashmap__init.

Lemma after_grown : exists rs map, after = Some (rs, map) /\ sz map = 8 /\ cap map = 16 /\
  drop 10 rs = [Found (Some 8); Deleted (Some (Entry 4 7)); Found None; Inserted (- ENOMEM) None].
Proof. do 2 eexists. split; [vm_compute; reflexivity|]. vm_compute. by repeat split. Qed.

Lemma hashmap_ops_wf_witness :
  exists r map', exec hash Z.eqb shift_out calloc_ok true (Insert HASHMAP_APPEND 5 6) hashmap__init =
    Some (r, map') /\ wf hash shift_out map'.
Proof.
  apply (hashmap_ops_wf hash Z.eqb shift_out calloc_ok Z.eqb_refl eqb_sym_true eqb_trans_true
           eqb_hash calloc_limit true (Insert HASHMAP_APPEND 5 6) hashmap__init).
  by repeat split.
Defined.

Lemma cleared_map_undefined_witness :
  hashmap__find hash Z.eqb shift_out (HMap (V := Z) Freed 0 0 0) 5 = None /\
  hashmap__clear (HMap (K := Z) (V := Z) Freed 0 0 0) = None.
Proof.
  apply (cleared_map_undefined hash Z.eqb shift_out (HMap (Live (replicate 4 [])) 4 2 0)
           (HMap Freed 0 0 0) (replicate 4 []) 5); reflexivity.
Defined.
End HashmapExamples.
