(* ===== verification/Nlattr.v ===== *)
(** * Netlink attributes

    Models [libbpf/src/nlattr.c] and [nlattr.h].  A message is in a buffer of
    bytes, a [struct nlattr *] is an offset into it, and an access outside the
    buffer is [None].  The table a parser fills is a list of optional offsets.
    Warnings are left out. *)

From S2P Require Import Prelude Packet.

(** [struct nlattr]: [nla_len] and [nla_type], 16 bits each. *)
Definition NLA_HDRLEN : Z := 4.
Definition NLA_ALIGN (len : Z) : Z := Z.land (len + 4 - 1) (Z.lnot (4 - 1)).
(** [~(NLA_F_NESTED | NLA_F_NET_BYTEORDER)] *)
Definition NLA_TYPE_MASK : Z := Z.lnot (Z.lor (Z.shiftl 1 15) (Z.shiftl 1 14)).

Definition LIBBPF_NLA_UNSPEC : Z := 0.
Definition LIBBPF_NLA_U32 : Z := 3.
Definition LIBBPF_NLA_STRING : Z := 5.
Definition LIBBPF_NLA_TYPE_MAX : Z := 8.

(** [struct libbpf_nla_policy]. *)
Record libbpf_nla_policy := Policy { pt_type : Z; pt_minlen : Z; pt_maxlen : Z }.

(** Indexed by type; the last two are not named in the initialiser. *)
Definition nla_attr_minlen : list Z := [0; 1; 2; 4; 8; 1; 0; 0; 0].

Section Attributes.
Context `{HostOrder}.

Definition nla_len_field (buf : list Z) (nla : nat) : option Z := read16 buf nla.

(** The step of [libbpf_nla_for_each_attr]: the next attribute and what remains. *)
Definition nla_next (buf : list Z) (nla : nat) (remaining : Z) : option (nat * Z) :=
  len ← nla_len_field buf nla;
  let totlen := NLA_ALIGN len in
  Some ((nla + Z.to_nat totlen)%nat, remaining - totlen).

(** [sizeof] is unsigned, so that a negative [remaining] passes the first test. *)
Definition nla_ok (buf : list Z) (nla : nat) (remaining : Z) : option bool :=
  if u64 remaining <? 4 then Some false else
  len ← nla_len_field buf nla;
  Some ((4 <=? len) && (len <=? remaining)).

Definition nla_type (buf : list Z) (nla : nat) : option Z :=
  t ← read16 buf (nla + 2); Some (Z.land t NLA_TYPE_MASK).

Definition libbpf_nla_data (nla : nat) : nat := nla + 4.
Definition libbpf_nla_len (buf : list Z) (nla : nat) : option Z :=
  len ← nla_len_field buf nla; Some (len - NLA_HDRLEN).

Definition libbpf_nla_getattr_u8 (buf : list Z) (nla : nat) : option Z :=
  read8 buf (libbpf_nla_data nla).
Definition libbpf_nla_getattr_u32 (buf : list Z) (nla : nat) : option Z :=
  read32 buf (libbpf_nla_data nla).

Definition validate_nla (buf : list Z) (nla : nat) (maxtype : Z) (policy : list libbpf_nla_policy)
    : option Z :=
  type ← nla_type buf nla;
  if (type <? 0) || (maxtype <? type) then Some 0 else
  pt ← policy !! Z.to_nat type;
  if LIBBPF_NLA_TYPE_MAX <? pt_type pt then Some 0 else
  minlen ← (if negb (pt_minlen pt =? 0) then Some (pt_minlen pt)
            else if negb (pt_type pt =? LIBBPF_NLA_UNSPEC)
            then nla_attr_minlen !! Z.to_nat (pt_type pt) else Some 0);
  len ← libbpf_nla_len buf nla;
  if u32 len <? minlen then Some (-1) else
  if negb (pt_maxlen pt =? 0) && (pt_maxlen pt <? len) then Some (-1) else
  if pt_type pt =? LIBBPF_NLA_STRING then
    last_byte ← read8 buf (libbpf_nla_data nla + Z.to_nat (len - 1));
    Some (if negb (last_byte =? 0) then -1 else 0)
  else Some 0.

(** The table: where the attribute of each type is. *)
Definition table : Type := list (option nat).

(** The loop of [libbpf_nla_parse]: the error code and the table. *)
Fixpoint parse_loop (fuel : nat) (buf : list Z) (maxtype : Z)
    (policy : option (list libbpf_nla_policy)) (nla : nat) (rem : Z) (tb : table)
    : option (Z * table) :=
  match fuel with
  | O => None
  | S fuel =>
      ok ← nla_ok buf nla rem;
      if negb ok then Some (0, tb) else
      type ← nla_type buf nla;
      '(next, rem') ← nla_next buf nla rem;
      if maxtype <? type then parse_loop fuel buf maxtype policy next rem' tb else
      err ← match policy with Some p => validate_nla buf nla maxtype p | None => Some 0 end;
      if err <? 0 then Some (err, tb) else
      parse_loop fuel buf maxtype policy next rem' (<[Z.to_nat type := Some nla]> tb)
  end.

(** Every round takes at least 4 bytes: the length is fuel enough. *)
Definition libbpf_nla_parse (buf : list Z) (maxtype : Z) (head : nat) (len : Z)
    (policy : option (list libbpf_nla_policy)) : option (Z * table) :=
  parse_loop (S (Z.to_nat len)) buf maxtype policy head len
    (replicate (Z.to_nat (maxtype + 1)) None).

Definition libbpf_nla_parse_nested (buf : list Z) (maxtype : Z) (nla : nat)
    (policy : option (list libbpf_nla_policy)) : option (Z * table) :=
  len ← libbpf_nla_len buf nla;
  libbpf_nla_parse buf maxtype (libbpf_nla_data nla) len policy.

(** The attribute of a type in a table. *)
Definition tb_at (tb : table) (type : Z) : option nat := tb !! Z.to_nat type ≫= id.

(** ** Messages ([struct nlmsghdr], [linux/netlink.h]) *)

Definition NLMSG_HDRLEN : Z := 16.
Definition NLMSG_ALIGN (len : Z) : Z := Z.land (len + 4 - 1) (Z.lnot (4 - 1)).
Definition NLM_F_CAPPED : Z := 0x100.
Definition NLM_F_ACK_TLVS : Z := 0x200.
Definition NLMSGERR_ATTR_MSG : Z := 1.
Definition NLMSGERR_ATTR_OFFS : Z := 2.
Definition NLMSGERR_ATTR_MAX : Z := 3.

Definition nlmsg_len_field (buf : list Z) (nlh : nat) : option Z := read32 buf nlh.
Definition nlmsg_type_field (buf : list Z) (nlh : nat) : option Z := read16 buf (nlh + 4).
Definition nlmsg_flags_field (buf : list Z) (nlh : nat) : option Z := read16 buf (nlh + 6).
Definition nlmsg_seq_field (buf : list Z) (nlh : nat) : option Z := read32 buf (nlh + 8).
Definition nlmsg_pid_field (buf : list Z) (nlh : nat) : option Z := read32 buf (nlh + 12).
Definition NLMSG_DATA (nlh : nat) : nat := nlh + 16.

Definition nlmsg_len (buf : list Z) (nlh : nat) : option Z :=
  n ← nlmsg_len_field buf nlh; Some (i32 (n - NLMSG_HDRLEN)).

(** The policy of the extended acknowledgement. *)
Definition extack_policy : list libbpf_nla_policy :=
  [Policy 0 0 0; Policy LIBBPF_NLA_STRING 0 0; Policy LIBBPF_NLA_U32 0 0; Policy 0 0 0].

(** What is reported of an extended acknowledgement: nothing, that it could not be
    parsed, or a message (NULL when there is none). *)
Inductive extack := NoTlvs | Malformed | KernelMessage (msg : option nat).

(** [struct nlmsgerr] is the error and the header of the request: 20 bytes.  The
    attributes are after it (and after the request, unless it was capped); [alen]
    counts from the header of the message and not from its data. *)
Definition libbpf_nla_dump_errormsg (buf : list Z) (nlh : nat) : option extack :=
  flags ← nlmsg_flags_field buf nlh;
  if Z.land flags NLM_F_ACK_TLVS =? 0 then Some NoTlvs else
  let err := NLMSG_DATA nlh in
  hlen ← (if Z.land flags NLM_F_CAPPED =? 0
          then n ← nlmsg_len buf (err + 4); add32 20 n else Some 20);
  len ← nlmsg_len_field buf nlh;
  let attr := Z.of_nat err + hlen in
  let alen := i32 (len - hlen) in
  if attr <? 0 then None else
  '(r, tb) ← libbpf_nla_parse buf NLMSGERR_ATTR_MAX (Z.to_nat attr) alen (Some extack_policy);
  Some (if negb (r =? 0) then Malformed
        else KernelMessage (libbpf_nla_data <$> tb_at tb NLMSGERR_ATTR_MSG)).
End Attributes.

(** ** Arithmetic of the macros *)

Lemma NLA_ALIGN_eq n : NLA_ALIGN n = (n + 3) / 4 * 4.
Proof.
  unfold NLA_ALIGN. change (Z.lnot (4 - 1)) with (Z.lnot (Z.ones 2)).
  rewrite <- Z.ldiff_land, Z.ldiff_ones_r, Z.shiftl_mul_pow2, Z.shiftr_div_pow2 by lia.
  by replace (n + 4 - 1) with (n + 3) by lia.
Qed.

Lemma NLA_ALIGN_bounds n :
  n <= NLA_ALIGN n <= n + 3 /\ NLA_ALIGN n mod 4 = 0.
Proof. rewrite NLA_ALIGN_eq. Z.to_euclidean_division_equations. lia. Qed.

(** The type is in the low 14 bits. *)
Lemma type_mask t : 0 <= t < 2 ^ 16 -> Z.land t NLA_TYPE_MASK = t mod 2 ^ 14.
Proof.
  intros Ht. rewrite <- (Z.mod_small t (2 ^ 16)) at 1 by done.
  rewrite <- (Z.land_ones t 16), <- (Z.land_ones t 14), <- Z.land_assoc by lia. done.
Qed.

Section Reads.
Context `{HostOrder} (buf : list Z) (Hbuf : Forall byte_ok buf).

Lemma read16_in off : (off + 2 <= length buf)%nat -> exists v, read16 buf off = Some v /\ 0 <= v < 2 ^ 16.
Proof.
  intros Hoff. unfold read16. destruct (read_bytes buf off 2) as [bs|] eqn:E.
  - exists (load bs). split; [done|]. pose proof (load_bounds bs (read_bytes_ok _ _ _ _ Hbuf E)) as Hb.
    by rewrite (read_bytes_length _ _ _ _ E) in Hb.
  - by rewrite read_bytes_Some in E.
Qed.

Lemma read8_in off : (off + 1 <= length buf)%nat -> is_Some (read8 buf off).
Proof. intros Hoff. unfold read8. rewrite read_bytes_Some by done. by eexists. Qed.

(** An attribute lies between [head] and [fin]. *)
Definition attr_within (head : nat) (fin : Z) (p : nat) (type : Z) : Prop :=
  (head <= p)%nat /\ nla_type buf p = Some type /\
  exists len, nla_len_field buf p = Some len /\ 4 <= len /\ Z.of_nat p + len <= fin.

(** Room for the test of the loop: the attributes fill whole words, or the buffer
    goes on for 5 bytes after them. *)
Definition room (fin rem : Z) : Prop :=
  -3 <= rem /\ (rem mod 4 = 0 /\ fin <= Z.of_nat (length buf) \/ fin + 5 <= Z.of_nat (length buf)).

Lemma nla_ok_in nla rem :
  room (Z.of_nat nla + rem) rem -> rem < 2 ^ 31 ->
  nla_ok buf nla rem = Some false \/
  exists len type, nla_ok buf nla rem = Some true /\ nla_len_field buf nla = Some len /\
    4 <= len <= rem /\ len < 2 ^ 16 /\ nla_type buf nla = Some type /\ 0 <= type < 2 ^ 14.
Proof.
  intros [Hlow Hroom] Hmax. unfold nla_ok. destruct (Z.ltb_spec (u64 rem) 4) as [|Hu]; [by left|].
  assert (rem < 0 \/ 4 <= rem) as Hrem.
  { destruct (Z.lt_ge_cases rem 0); [by left|right]. by rewrite u64_id in Hu by lia. }
  destruct (read16_in nla) as (len & Hlen & ?).
  { destruct Hroom as [[Hm ?]|?]; [|lia]. destruct Hrem as [?|?]; [|lia].
    Z.to_euclidean_division_equations. lia. }
  unfold nla_len_field. rewrite Hlen. cbn [mbind option_bind].
  destruct (Z.leb_spec 4 len); cbn [andb]; [|by left].
  destruct (Z.leb_spec len rem); [right|by left].
  destruct (read16_in (nla + 2)) as (t & Ht & ?); [lia|].
  exists len, (t mod 2 ^ 14). unfold nla_type. rewrite Ht. cbn [mbind option_bind].
  rewrite type_mask by done. pose proof (Z.mod_pos_bound t (2 ^ 14)). repeat split; try done; try lia.
Qed.

(** The validation only reads the attribute. *)
Definition policy_ok (maxtype : Z) (policy : list libbpf_nla_policy) : Prop :=
  Z.of_nat (length policy) = maxtype + 1 /\
  forall pt, pt ∈ policy -> 0 <= pt_type pt /\ 0 <= pt_minlen pt /\ 0 <= pt_maxlen pt.

Lemma extack_policy_ok : policy_ok NLMSGERR_ATTR_MAX extack_policy.
Proof. split; [done|]. by apply list.Forall_forall; repeat constructor. Qed.

Lemma validate_in nla maxtype policy len type :
  policy_ok maxtype policy -> nla_type buf nla = Some type -> nla_len_field buf nla = Some len ->
  4 <= len < 2 ^ 16 -> (nla + Z.to_nat len <= length buf)%nat -> is_Some (validate_nla buf nla maxtype policy).
Proof.
  intros [Hlen Hpol] Ht Hl H4 Hin. unfold validate_nla, libbpf_nla_len. rewrite Ht, Hl.
  cbn [mbind option_bind]. destruct (Z.ltb_spec type 0); [by eexists|].
  destruct (Z.ltb_spec maxtype type); [by eexists|]. cbn [orb].
  destruct (lookup_lt_is_Some_2 policy (Z.to_nat type)) as [pt Hpt]; [lia|]. rewrite Hpt.
  cbn [mbind option_bind]. apply list_elem_of_lookup_2 in Hpt. destruct (Hpol pt Hpt) as (? & ? & ?).
  destruct (Z.ltb_spec LIBBPF_NLA_TYPE_MAX (pt_type pt)) as [|Hmax]; [by eexists|].
  unfold LIBBPF_NLA_TYPE_MAX in Hmax.
  assert (exists m, (if negb (pt_minlen pt =? 0) then Some (pt_minlen pt)
            else if negb (pt_type pt =? LIBBPF_NLA_UNSPEC)
            then nla_attr_minlen !! Z.to_nat (pt_type pt) else Some 0) = Some m /\
            (pt_type pt = LIBBPF_NLA_STRING -> 1 <= m)) as (m & -> & Hm).
  { destruct (Z.eqb_spec (pt_minlen pt) 0); cbn [negb]; [|exists (pt_minlen pt); split; [done|lia]].
    destruct (Z.eqb_spec (pt_type pt) LIBBPF_NLA_UNSPEC) as [->|]; cbn [negb]; [by exists 0|].
    destruct (lookup_lt_is_Some_2 nla_attr_minlen (Z.to_nat (pt_type pt))) as [m Hm]; [cbn; lia|].
    exists m. split; [done|]. intros E. rewrite E in Hm. by injection Hm as <-. }
  cbn [mbind option_bind]. destruct (Z.ltb_spec (u32 (len - NLA_HDRLEN)) m) as [|Hu]; [by eexists|].
  destruct (negb (pt_maxlen pt =? 0) && (pt_maxlen pt <? len - NLA_HDRLEN)); [by eexists|].
  destruct (Z.eqb_spec (pt_type pt) LIBBPF_NLA_STRING) as [E|]; [|by eexists].
  specialize (Hm E). rewrite u32_id in Hu by (unfold NLA_HDRLEN; lia). unfold NLA_HDRLEN in *. unfold libbpf_nla_data.
  destruct (read8_in (nla + 4 + Z.to_nat (len - 4 - 1))) as [b ->]; [lia|]. by eexists.
Qed.

Definition table_ok (head : nat) (fin maxtype : Z) (tb : table) : Prop :=
  Z.of_nat (length tb) = maxtype + 1 /\
  forall i p, tb !! i = Some (Some p) -> attr_within head fin p (Z.of_nat i).

Lemma parse_loop_safe fuel maxtype policy head nla rem tb :
  0 <= maxtype -> (Z.to_nat rem < fuel)%nat -> rem < 2 ^ 31 ->
  match policy with Some p => policy_ok maxtype p | None => True end ->
  room (Z.of_nat nla + rem) rem -> (head <= nla)%nat ->
  table_ok head (Z.of_nat nla + rem) maxtype tb ->
  exists err tb', parse_loop fuel buf maxtype policy nla rem tb = Some (err, tb') /\
    table_ok head (Z.of_nat nla + rem) maxtype tb'.
Proof.
  intros Hmax. revert nla rem tb.
  induction fuel as [|fuel IH]; intros nla rem tb Hfuel Hrem Hpol Hroom Hhead Htb; [lia|].
  cbn [parse_loop]. destruct (nla_ok_in nla rem Hroom Hrem) as
    [->|(len & type & -> & Hlen & Hl & Hlmax & Htype & Ht)]; cbn [mbind option_bind negb].
  { by exists 0, tb. }
  unfold nla_next. rewrite Htype, Hlen. cbn [mbind option_bind].
  pose proof (NLA_ALIGN_bounds len) as [Hal Hmod].
  set (fin := Z.of_nat nla + rem) in *.
  assert (Hfin : fin = Z.of_nat (nla + Z.to_nat (NLA_ALIGN len)) + (rem - NLA_ALIGN len)) by lia.
  assert (room fin (rem - NLA_ALIGN len)) as Hroom'.
  { destruct Hroom as [_ Hroom]. split; [lia|]. destruct Hroom as [[Hm ?]|?]; [left|by right].
    split; [|done]. Z.to_euclidean_division_equations. lia. }
  assert (Hnext : forall tb', table_ok head fin maxtype tb' ->
    exists err tb'', parse_loop fuel buf maxtype policy (nla + Z.to_nat (NLA_ALIGN len))
      (rem - NLA_ALIGN len) tb' = Some (err, tb'') /\ table_ok head fin maxtype tb'').
  { intros tb' Htb'. rewrite Hfin in *. apply IH; try done; lia. }
  destruct (Z.ltb_spec maxtype type) as [|Hle]; [by apply Hnext|].
  assert (exists err, match policy with Some p => validate_nla buf nla maxtype p | None => Some 0 end
    = Some err) as [err ->].
  { destruct policy as [pol|]; [|by eexists].
    apply (validate_in nla maxtype pol len type); try done; [lia|].
    destruct Hroom as [_ [[_ ?]|?]]; lia. }
  cbn [mbind option_bind]. destruct (err <? 0); [by exists err, tb|]. apply Hnext.
  destruct Htb as [Hn Htb]. unfold table in *. split; [by rewrite length_insert|]. intros i p Hi.
  apply list_lookup_insert_Some in Hi as [(<- & [= <-] & _)|[_ Hi]]; [|by apply Htb].
  rewrite Z2Nat.id by lia. split; [done|]. split; [done|]. exists len. split; [done|lia].
Qed.

(** C30. [libbpf_nla_parse] ends, whatever the bytes, without an access outside the
    buffer, provided the attributes fill whole words (netlink pads them) or 5 bytes
    of the buffer follow them; every attribute it enters in the table has the type
    of its entry and lies between the head and the end it was given. *)
Theorem nla_parse_safe maxtype policy head len :
  0 <= maxtype -> 0 <= len < 2 ^ 31 ->
  match policy with Some p => policy_ok maxtype p | None => True end ->
  room (Z.of_nat head + len) len ->
  exists err tb, libbpf_nla_parse buf maxtype head len policy = Some (err, tb) /\
    Z.of_nat (length tb) = maxtype + 1 /\
    forall i p, tb !! i = Some (Some p) -> attr_within head (Z.of_nat head + len) p (Z.of_nat i).
Proof.
  intros Hmax Hlen Hpol Hroom. unfold libbpf_nla_parse.
  apply parse_loop_safe; try done; [lia..|]. split; [rewrite length_replicate; lia|].
  intros i p Hi. by apply lookup_replicate in Hi as [? _].
Qed.
End Reads.

(** ** Encoded attributes *)

Section Encoding.
Context `{HostOrder}.

(** An attribute as the kernel writes it: header, payload, padding. *)
Definition enc_attr (a : Z * list Z) : list Z :=
  let len := 4 + Z.of_nat (length (snd a)) in
  store 2 len ++ store 2 (fst a) ++ snd a ++ replicate (Z.to_nat (NLA_ALIGN len - len)) 0.

Definition enc_attrs (l : list (Z * list Z)) : list Z := concat (enc_attr <$> l).

Definition encodable (a : Z * list Z) : Prop :=
  0 <= fst a < 2 ^ 16 /\ 4 + Z.of_nat (length (snd a)) < 2 ^ 16.

(** The payload of the attribute a table has for a type. *)
Definition payload (buf : list Z) (tb : table) (type : Z) : option (list Z) :=
  p ← tb_at tb type;
  len ← libbpf_nla_len buf p;
  read_bytes buf (libbpf_nla_data p) (Z.to_nat len).

Definition of_type (type : Z) (a : Z * list Z) : bool := fst a mod 2 ^ 14 =? type.

Lemma length_enc_attr a :
  Z.of_nat (length (enc_attr a)) = NLA_ALIGN (4 + Z.of_nat (length (snd a))).
Proof.
  unfold enc_attr. pose proof (NLA_ALIGN_bounds (4 + Z.of_nat (length (snd a)))).
  rewrite !length_app, !length_store, length_replicate. lia.
Qed.

Lemma enc_attrs_aligned l : Z.of_nat (length (enc_attrs l)) mod 4 = 0.
Proof.
  induction l as [|a l IH]; [done|]. change (enc_attrs (a :: l)) with (enc_attr a ++ enc_attrs l).
  rewrite length_app. pose proof (length_enc_attr a).
  pose proof (NLA_ALIGN_bounds (4 + Z.of_nat (length (snd a)))) as [_ Hm].
  Z.to_euclidean_division_equations. lia.
Qed.

Lemma enc_attrs_bytes l : Forall (fun a => Forall byte_ok (snd a)) l -> Forall byte_ok (enc_attrs l).
Proof.
  induction 1 as [|a l Ha _ IH]; [done|]. change (enc_attrs (a :: l)) with (enc_attr a ++ enc_attrs l).
  unfold enc_attr. repeat (apply Forall_app; split); try apply store_ok; try done.
  apply Forall_replicate. unfold byte_ok. lia.
Qed.

Lemma enc_attr_fields pre a post :
  encodable a ->
  let buf := pre ++ enc_attr a ++ post in
  nla_len_field buf (length pre) = Some (4 + Z.of_nat (length (snd a))) /\
  nla_type buf (length pre) = Some (fst a mod 2 ^ 14) /\
  read_bytes buf (length pre + 4) (length (snd a)) = Some (snd a).
Proof.
  destruct a as [t d]. intros [Ht Hd] buf. cbn [fst snd] in *. unfold buf, enc_attr. cbn [fst snd].
  rewrite <- !app_assoc. split; [|split].
  - unfold nla_len_field. rewrite read16_store by done. by rewrite Z.mod_small by lia.
  - unfold nla_type. rewrite (app_assoc pre), read16_store by (rewrite length_app, length_store; lia).
    cbn [mbind option_bind]. rewrite Z.mod_small by lia. by rewrite type_mask.
  - rewrite (app_assoc pre), (app_assoc (pre ++ _)). apply read_bytes_app; [|done].
    rewrite !length_app, !length_store. lia.
Qed.

Lemma tb_at_insert tb type p t :
  0 <= type < Z.of_nat (length tb) -> 0 <= t ->
  tb_at (<[Z.to_nat type := Some p]> tb) t = if type =? t then Some p else tb_at tb t.
Proof.
  intros Htype Ht. unfold tb_at, table in *. destruct (Z.eqb_spec type t) as [->|Hne].
  - by rewrite list_lookup_insert_eq by lia.
  - by rewrite list_lookup_insert_ne by lia.
Qed.

(** What a table has for a type: an attribute with this payload, or nothing. *)
Definition has (buf : list Z) (tb : table) (type : Z) (value : option (list Z)) : Prop :=
  match value with Some v => payload buf tb type = Some v | None => tb_at tb type = None end.

Lemma last_filter_cons {A} (f : A -> bool) a l :
  list.last (List.filter f (a :: l)) =
    match list.last (List.filter f l) with
    | Some x => Some x
    | None => if f a then Some a else None
    end.
Proof. cbn. destruct (f a); [|by destruct (list.last _)]. destruct (List.filter f l); [done|]. by rewrite last_cons_cons; destruct (list.last _) eqn:E; [|apply last_None in E]. Qed.

Lemma parse_loop_encoded fuel pre attrs post maxtype tb :
  Forall encodable attrs -> (length (enc_attrs attrs) < fuel)%nat ->
  Z.of_nat (length (enc_attrs attrs)) < 2 ^ 31 -> 0 <= maxtype -> Z.of_nat (length tb) = maxtype + 1 ->
  let buf := pre ++ enc_attrs attrs ++ post in
  exists tb', parse_loop fuel buf maxtype None (length pre) (Z.of_nat (length (enc_attrs attrs))) tb
      = Some (0, tb') /\
    forall t, 0 <= t <= maxtype ->
      match list.last (List.filter (of_type t) attrs) with
      | Some a => payload buf tb' t = Some (snd a)
      | None => tb_at tb' t = tb_at tb t
      end.
Proof.
  intros Henc. revert fuel pre tb.
  induction Henc as [|a attrs Ha Hattrs IH]; intros fuel pre tb Hfuel Hlen Hmax Htb buf.
  { destruct fuel as [|fuel]; [cbn in Hfuel; lia|]. by exists tb. }
  change (enc_attrs (a :: attrs)) with (enc_attr a ++ enc_attrs attrs) in *.
  rewrite length_app in *. pose proof (length_enc_attr a) as Hla.
  pose proof (NLA_ALIGN_bounds (4 + Z.of_nat (length (snd a)))) as [Hal _].
  destruct fuel as [|fuel]; [lia|].
  assert (Hbuf : buf = (pre ++ enc_attr a) ++ enc_attrs attrs ++ post)
    by (unfold buf; by rewrite <- !app_assoc).
  assert (Hfields := enc_attr_fields pre a (enc_attrs attrs ++ post) Ha).
  replace (pre ++ enc_attr a ++ enc_attrs attrs ++ post) with buf in Hfields
    by (unfold buf; by rewrite <- !app_assoc).
  destruct Hfields as (Hl & Ht & Hd).
  set (rem := Z.of_nat (length (enc_attr a) + length (enc_attrs attrs))%nat) in *.
  assert (nla_ok buf (length pre) rem = Some true) as Hok.
  { unfold nla_ok. rewrite u64_id by lia. rewrite (proj2 (Z.ltb_ge _ _)), Hl by lia.
    cbn [mbind option_bind]. by rewrite !(proj2 (Z.leb_le _ _)) by lia. }
  assert (nla_next buf (length pre) rem =
    Some (length (pre ++ enc_attr a), Z.of_nat (length (enc_attrs attrs)))) as Hnext.
  { unfold nla_next. rewrite Hl. cbn [mbind option_bind]. rewrite length_app. do 2 f_equal; lia. }
  cbn [parse_loop]. rewrite Hok, Ht, Hnext. cbn [mbind option_bind negb]. rewrite Hbuf.
  destruct (Z.ltb_spec maxtype (fst a mod 2 ^ 14)) as [Hbig|Hsmall].
  - destruct (IH fuel (pre ++ enc_attr a) tb) as (tb' & -> & Hp); try done; try lia.
    exists tb'. split; [done|]. intros t Hrange. specialize (Hp t Hrange). rewrite last_filter_cons.
    assert (of_type t a = false) as -> by (unfold of_type; apply Z.eqb_neq; lia). by destruct (list.last _).
  - pose proof (Z.mod_pos_bound (fst a) (2 ^ 14) ltac:(lia)) as Hpos.
    destruct (IH fuel (pre ++ enc_attr a) (<[Z.to_nat (fst a mod 2 ^ 14) := Some (length pre)]> tb))
      as (tb' & Hrun & Hp); try done; try lia; [by rewrite length_insert|].
    exists tb'. split; [exact Hrun|]. intros t Hrange. specialize (Hp t Hrange). rewrite last_filter_cons.
    rewrite <- Hbuf in *. destruct (list.last (List.filter _ attrs)); [done|].
    rewrite tb_at_insert in Hp by lia. unfold of_type. destruct (_ =? t); [|done].
    unfold payload. rewrite Hp. cbn [mbind option_bind]. unfold libbpf_nla_len. rewrite Hl.
    cbn [mbind option_bind]. unfold NLA_HDRLEN, libbpf_nla_data. rewrite <- Hd. f_equal. lia.
Qed.

Lemma encoded_parse pre attrs post maxtype :
  Forall encodable attrs -> Z.of_nat (length (enc_attrs attrs)) < 2 ^ 31 -> 0 <= maxtype ->
  let buf := pre ++ enc_attrs attrs ++ post in
  exists tb,
    libbpf_nla_parse buf maxtype (length pre) (Z.of_nat (length (enc_attrs attrs))) None = Some (0, tb) /\
    forall t, 0 <= t <= maxtype -> has buf tb t (snd <$> list.last (List.filter (of_type t) attrs)).
Proof.
  intros Henc Hlen Hmax buf. subst buf. unfold libbpf_nla_parse. rewrite Nat2Z.id.
  destruct (parse_loop_encoded (S (length (enc_attrs attrs))) pre attrs post maxtype
    (replicate (Z.to_nat (maxtype + 1)) None)) as (tb & Hrun & Hp); try done; [lia|rewrite length_replicate; lia|].
  exists tb. split; [exact Hrun|]. intros t Ht. specialize (Hp t Ht). destruct (list.last _); [done|].
  cbn [fmap option_fmap option_map has]. rewrite Hp. unfold tb_at, table. by rewrite lookup_replicate_2 by lia.
Qed.

(** C29. Parsing undoes encoding: from any list of attributes the kernel may have
    written, anywhere in a buffer, the parser answers for each type up to the bound
    the payload of the last attribute of the type, and nothing for a type that does
    not occur; the two flag bits of the type are ignored. *)
Theorem nla_parse_encoded pre attrs post maxtype :
  Forall encodable attrs -> Z.of_nat (length (enc_attrs attrs)) < 2 ^ 31 -> 0 <= maxtype ->
  let buf := pre ++ enc_attrs attrs ++ post in
  exists tb,
    libbpf_nla_parse buf maxtype (length pre) (Z.of_nat (length (enc_attrs attrs))) None = Some (0, tb) /\
    forall t, 0 <= t <= maxtype -> has buf tb t (snd <$> list.last (List.filter (of_type t) attrs)).
Proof. apply encoded_parse. Qed.

(** An attribute whose payload is a list of attributes. *)
Lemma nested_encoded buf tb type attrs maxtype :
  payload buf tb type = Some (enc_attrs attrs) -> attrs <> [] -> Forall encodable attrs ->
  Z.of_nat (length (enc_attrs attrs)) < 2 ^ 31 -> 0 <= maxtype ->
  exists p tb', tb_at tb type = Some p /\ libbpf_nla_parse_nested buf maxtype p None = Some (0, tb') /\
    forall t, 0 <= t <= maxtype -> has buf tb' t (snd <$> list.last (List.filter (of_type t) attrs)).
Proof.
  unfold payload at 1. intros Hp Hne Henc Hlen Hmax. destruct (tb_at tb type) as [p|]; [|done].
  cbn [mbind option_bind] in Hp. destruct (libbpf_nla_len buf p) as [len|] eqn:El; [|done].
  cbn [mbind option_bind] in Hp. pose proof (read_bytes_length _ _ _ _ Hp) as Hlp.
  assert (0 < length (enc_attrs attrs))%nat as Hpos.
  { destruct attrs as [|a attrs]; [done|]. change (enc_attrs (a :: attrs)) with (enc_attr a ++ enc_attrs attrs).
    rewrite length_app. pose proof (length_enc_attr a).
    pose proof (NLA_ALIGN_bounds (4 + Z.of_nat (length (snd a)))). lia. }
  destruct (read_bytes_split _ _ _ _ Hp) as (pre & post & -> & Hpre).
  destruct (encoded_parse pre attrs post maxtype) as (tb' & Hrun & Hall); try done.
  exists p, tb'. split; [done|]. split; [|exact Hall]. unfold libbpf_nla_parse_nested. rewrite El.
  cbn [mbind option_bind]. rewrite <- Hpre. by replace len with (Z.of_nat (length (enc_attrs attrs))) by lia.
Qed.

(** Values read through a table. *)
Definition table_u32 (buf : list Z) (tb : table) (type : Z) : option Z :=
  p ← tb_at tb type; libbpf_nla_getattr_u32 buf p.
Definition table_u8 (buf : list Z) (tb : table) (type : Z) : option Z :=
  p ← tb_at tb type; libbpf_nla_getattr_u8 buf p.

Lemma payload_read buf tb type bs n :
  payload buf tb type = Some bs -> length bs = n -> exists p, tb_at tb type = Some p /\
    read_bytes buf (libbpf_nla_data p) n = Some bs.
Proof.
  unfold payload. destruct (tb_at tb type) as [p|]; [|done]. cbn [mbind option_bind].
  destruct (libbpf_nla_len buf p) as [len|]; [|done]. cbn [mbind option_bind]. intros Hr Hn.
  exists p. split; [done|]. by rewrite <- Hn, (read_bytes_length _ _ _ _ Hr).
Qed.

Lemma payload_u32 buf tb type v :
  payload buf tb type = Some (store 4 v) -> table_u32 buf tb type = Some (u32 v).
Proof.
  intros Hp. destruct (payload_read _ _ _ _ 4 Hp (length_store 4 v)) as (p & Ht & Hr).
  unfold table_u32, libbpf_nla_getattr_u32, read32. rewrite Ht. cbn [mbind option_bind]. rewrite Hr.
  cbn [fmap option_fmap option_map]. by rewrite load_store.
Qed.

Lemma payload_u8 buf tb type b :
  payload buf tb type = Some [b] -> table_u8 buf tb type = Some b.
Proof.
  intros Hp. destruct (payload_read _ _ _ _ 1 Hp eq_refl) as (p & Ht & Hr).
  unfold table_u8, libbpf_nla_getattr_u8, read8. rewrite Ht. cbn [mbind option_bind]. rewrite Hr.
  cbn [fmap option_fmap option_map]. f_equal. unfold le_val. lia.
Qed.

End Encoding.

Module NlattrExamples.

#[local] Instance host : HostOrder := LittleEndian.

(** A string attribute of type 1 and a word of type 2, padded; then one byte more. *)
Definition attrs : list (Z * list Z) := [(1, [101; 114; 114; 0]); (Z.shiftl 1 15 + 2, [7; 0; 0; 0]); (1, [120; 0])].
Definition message : list Z := [9; 9] ++ enc_attrs attrs ++ [5].

Lemma message_ok : Forall byte_ok message.
Proof. repeat constructor; vm_compute; discriminate. Qed.

Lemma nla_parse_safe_witness :
  exists err tb, libbpf_nla_parse message 3 2 24 (Some extack_policy) = Some (err, tb) /\
    tb_at tb 1 = Some 18%nat.
Proof.
  destruct (nla_parse_safe message message_ok 3 (Some extack_policy) 2 24)
    as (err & tb & Hrun & _).
  - lia.
  - lia.
  - exact extack_policy_ok.
  - split; [lia|]. left. split; [done|]. vm_compute. discriminate.
  - exists err, tb. split; [exact Hrun|]. vm_compute in Hrun. by injection Hrun as <- <-.
Defined.

Lemma nla_parse_encoded_witness :
  exists tb, libbpf_nla_parse message 3 2 24 None = Some (0, tb) /\
    payload message tb 1 = Some [120; 0] /\ payload message tb 2 = Some [7; 0; 0; 0] /\
    tb_at tb 3 = None.
Proof.
  destruct (nla_parse_encoded [9; 9] attrs [5] 3) as (tb & Hrun & Hp).
  - repeat constructor; vm_compute; first [discriminate|reflexivity].
  - by vm_compute.
  - lia.
  - exists tb. split; [exact Hrun|]. split; [|split]; [apply (Hp 1)|apply (Hp 2)|apply (Hp 3)]; lia.
Defined.
End NlattrExamples.
