(* ===== verification/Netlink.v ===== *)
(** * The netlink socket

    Models [libbpf/src/netlink.c] up to the queries of XDP programs ([NetlinkXdp]):
    opening the socket, receiving, setting the program of an interface, the dumps.
    The socket calls are the class [NlSys].  The receive buffer is on the stack and
    keeps what it held where a datagram is shorter; its first contents are an
    input.  Warnings are left out; an access outside the buffer is [None]. *)

From S2P Require Import Prelude Packet Nlattr.

Definition LIBBPF_ERRNO__INTERNAL : Z := 4004.
Definition LIBBPF_ERRNO__WRNGPID : Z := 4011.
Definition LIBBPF_ERRNO__INVSEQ : Z := 4012.
Definition LIBBPF_ERRNO__NLPARSE : Z := 4013.

Definition AF_UNSPEC : Z := 0.
Definition AF_PACKET : Z := 17.
Definition NLMSG_ERROR : Z := 2.
Definition NLMSG_DONE : Z := 3.
Definition NLM_F_REQUEST : Z := 1.
Definition NLM_F_MULTI : Z := 2.
Definition NLM_F_ACK : Z := 4.
Definition NLM_F_DUMP : Z := 0x300.
(** [linux/rtnetlink.h] *)
Definition RTM_GETLINK : Z := 18.
Definition RTM_SETLINK : Z := 19.
Definition RTM_GETQDISC : Z := 38.
Definition RTM_GETTCLASS : Z := 42.
Definition RTM_GETTFILTER : Z := 46.
(** [linux/if_link.h] *)
Definition NLA_F_NESTED : Z := Z.shiftl 1 15.
Definition IFLA_XDP : Z := 43.
Definition IFLA_MAX : Z := 53.
Definition IFLA_XDP_FD : Z := 1.
Definition IFLA_XDP_FLAGS : Z := 3.
Definition IFLA_XDP_MAX : Z := 7.

(** ** The socket calls

    A call that fails answers minus its [errno]. *)
Class NlSys (W : Type) := {
  sys_socket : W -> Z * W;
  sys_setsockopt : Z -> W -> Z * W;
  sys_bind : Z -> W -> Z * W;
  (** The result, the [nl_pid] and the length of the address. *)
  sys_getsockname : Z -> W -> Z * Z * Z * W;
  sys_send : Z -> list Z -> W -> Z * W;
  (** At most so many bytes; the result and the bytes. *)
  sys_recv : Z -> nat -> W -> Z * list Z * W;
  sys_close : Z -> W -> W;
  sys_time : W -> Z;
}.

Section Socket.
Context {W : Type} `{NlSys W} `{HostOrder}.

Definition sizeof_sockaddr_nl : Z := 12.

(** An error, or the socket and the [nl_pid] stored. *)
Definition libbpf_netlink_open (w : W) : (Z + Z * Z) * W :=
  let '(sock, w) := sys_socket w in
  if sock <? 0 then (inl sock, w) else
  let '(_, w) := sys_setsockopt sock w in
  let '(ret, w) := sys_bind sock w in
  if ret <? 0 then (inl ret, sys_close sock w) else
  let '(ret, nl_pid, addrlen, w) := sys_getsockname sock w in
  if ret <? 0 then (inl ret, sys_close sock w) else
  if negb (addrlen =? sizeof_sockaddr_nl)
  then (inl (- LIBBPF_ERRNO__INTERNAL), sys_close sock w) else
  (inr (sock, nl_pid), w).

(** ** Receiving *)

(** [_fn] with its [fn] and its cookie: what it does with the message at an offset
    of the buffer. *)
Definition msg_fn (C : Type) : Type := list Z -> nat -> C -> option (Z * C).

(** How the loop over the messages of a datagram ends: the datagram is used up, or
    the function returns. *)
Inductive flow := UsedUp (multipart : bool) | Return (ret : Z).

Definition NLMSG_OK (buf : list Z) (nh : nat) (len : Z) : option bool :=
  if len <? NLMSG_HDRLEN then Some false else
  n ← nlmsg_len_field buf nh;
  Some ((NLMSG_HDRLEN <=? n) && (n <=? len)).

Section Receive.
Context {C : Type} (_fn : option (msg_fn C)) (nl_pid seq : Z).

Fixpoint messages (fuel : nat) (buf : list Z) (nh : nat) (len : Z) (multipart : bool) (cookie : C)
    : option (flow * C) :=
  match fuel with
  | O => None
  | S fuel =>
      ok ← NLMSG_OK buf nh len;
      if negb ok then Some (UsedUp multipart, cookie) else
      n ← nlmsg_len_field buf nh;
      pid ← nlmsg_pid_field buf nh;
      if negb (pid =? nl_pid) then Some (Return (- LIBBPF_ERRNO__WRNGPID), cookie) else
      s ← nlmsg_seq_field buf nh;
      if negb (s =? u32 seq) then Some (Return (- LIBBPF_ERRNO__INVSEQ), cookie) else
      flags ← nlmsg_flags_field buf nh;
      let multipart := multipart || negb (Z.land flags NLM_F_MULTI =? 0) in
      type ← nlmsg_type_field buf nh;
      let next := messages fuel buf (nh + Z.to_nat (NLMSG_ALIGN n)) (len - NLMSG_ALIGN n) multipart in
      if type =? NLMSG_ERROR then
        error ← i32 <$> read32 buf (NLMSG_DATA nh);
        if error =? 0 then next cookie else
        _ ← libbpf_nla_dump_errormsg buf nh;
        Some (Return error, cookie)
      else if type =? NLMSG_DONE then Some (Return 0, cookie)
      else match _fn with
           | Some _fn =>
               '(ret, cookie) ← _fn buf nh cookie;
               if negb (ret =? 0) then Some (Return ret, cookie) else next cookie
           | None => next cookie
           end
  end.

Definition sizeof_buf : nat := 4096.

(** A round takes a datagram; [fuel] bounds their number, which the peer chooses.
    The result, the cookie and the world. *)
Fixpoint bpf_netlink_recv (fuel : nat) (sock : Z) (buf : list Z) (cookie : C) (w : W)
    : option (Z * C * W) :=
  match fuel with
  | O => None
  | S fuel =>
      let '(len, bytes, w) := sys_recv sock sizeof_buf w in
      if len <? 0 then Some (len, cookie, w) else
      if len =? 0 then Some (0, cookie, w) else
      let buf := bytes ++ drop (length bytes) buf in
      '(fl, cookie) ← messages (S (Z.to_nat len)) buf 0 len false cookie;
      match fl with
      | Return ret => Some (ret, cookie, w)
      | UsedUp false => Some (0, cookie, w)
      | UsedUp true => bpf_netlink_recv fuel sock buf cookie w
      end
  end.
End Receive.

(** ** Setting the program of an interface *)

(** [nla_xdp = nla + nla->nla_len], its fields, and [nla->nla_len] grown by it. *)
Definition put_nested (req : list Z) (nla : nat) (type : Z) (value : list Z) : option (list Z) :=
  nla_len ← nla_len_field req nla;
  let nla_xdp := (nla + Z.to_nat nla_len)%nat in
  req ← write16 req (nla_xdp + 2) type;
  req ← write16 req nla_xdp (NLA_HDRLEN + 4);
  req ← write_bytes req (nla_xdp + 4) value;
  xdp_len ← nla_len_field req nla_xdp;
  write16 req nla (u16 (nla_len + xdp_len)).

(** The request: header (16 bytes), [struct ifinfomsg] (16), room for attributes (64). *)
Definition set_link_request (ifindex fd flags seq : Z) : option (list Z) :=
  let req := replicate 96 0 in
  req ← write32 req 0 (NLMSG_HDRLEN + 16);
  req ← write16 req 6 (Z.lor NLM_F_REQUEST NLM_F_ACK);
  req ← write16 req 4 RTM_SETLINK;
  req ← write32 req 12 0;
  req ← write32 req 8 seq;
  req ← write_bytes req 16 [AF_UNSPEC];
  req ← write32 req 20 ifindex;
  len ← nlmsg_len_field req 0;
  let nla := Z.to_nat (NLMSG_ALIGN len) in
  req ← write16 req (nla + 2) (Z.lor NLA_F_NESTED IFLA_XDP);
  req ← write16 req nla NLA_HDRLEN;
  req ← put_nested req nla IFLA_XDP_FD (store 4 fd);
  req ← (if flags =? 0 then Some req else put_nested req nla IFLA_XDP_FLAGS (store 4 flags));
  nla_len ← nla_len_field req nla;
  write32 req 0 (u32 (len + NLA_ALIGN nla_len)).

(** What [send] gets of a request: [nlmsg_len] bytes. *)
Definition sent (req : list Z) : option (list Z) :=
  n ← nlmsg_len_field req 0; read_bytes req 0 (Z.to_nat n).

Definition bpf_set_link_xdp_fd (fuel : nat) (stack : list Z) (ifindex fd flags : Z) (w : W)
    : option (Z * W) :=
  let '(opened, w) := libbpf_netlink_open w in
  match opened with
  | inl err => Some (err, w)
  | inr (sock, nl_pid) =>
      let seq := 1 in
      req ← set_link_request ifindex fd flags seq;
      msg ← sent req;
      let '(ret, w) := sys_send sock msg w in
      if ret <? 0 then Some (ret, sys_close sock w) else
      '(ret, _, w) ← bpf_netlink_recv None nl_pid seq fuel sock stack tt w;
      Some (ret, sys_close sock w)
  end.

(** ** The dumps *)

(** [libbpf_dump_nlmsg_t]: the buffer, where the body of the message is, the table
    of its attributes and the cookie. *)
Definition libbpf_dump_nlmsg_t (C : Type) : Type := list Z -> nat -> table -> C -> option (Z * C).

Section Dumps.
Context {C : Type}.

(** The four [__dump_*_nlmsg] differ in the size of the body and the table. *)
Definition __dump_nlmsg (body_size : nat) (maxtype : Z) (dump : libbpf_dump_nlmsg_t C) : msg_fn C :=
  fun buf nlh cookie =>
    let body := NLMSG_DATA nlh in
    n ← nlmsg_len_field buf nlh;
    let len := i32 (n - (Z.of_nat body_size + NLMSG_HDRLEN)) in
    let attr := (body + Z.to_nat (NLMSG_ALIGN (Z.of_nat body_size)))%nat in
    '(err, tb) ← libbpf_nla_parse buf maxtype attr len None;
    if negb (err =? 0) then Some (- LIBBPF_ERRNO__NLPARSE, cookie) else dump buf body tb cookie.

Definition sizeof_ifinfomsg : nat := 16.
Definition sizeof_tcmsg : nat := 20.

Definition __dump_link_nlmsg : libbpf_dump_nlmsg_t C -> msg_fn C := __dump_nlmsg sizeof_ifinfomsg IFLA_MAX.

(** [TCA_MAX] is in a header outside the repository. *)
Definition __dump_class_nlmsg (TCA_MAX : Z) : libbpf_dump_nlmsg_t C -> msg_fn C :=
  __dump_nlmsg sizeof_tcmsg TCA_MAX.
Definition __dump_qdisc_nlmsg (TCA_MAX : Z) : libbpf_dump_nlmsg_t C -> msg_fn C :=
  __dump_nlmsg sizeof_tcmsg TCA_MAX.
Definition __dump_filter_nlmsg (TCA_MAX : Z) : libbpf_dump_nlmsg_t C -> msg_fn C :=
  __dump_nlmsg sizeof_tcmsg TCA_MAX.

(** A dump request: header and body. *)
Definition dump_request (type seq : Z) (body : list Z) : list Z :=
  store 4 (Z.of_nat (length body) + NLMSG_HDRLEN) ++ store 2 type ++
  store 2 (Z.lor NLM_F_DUMP NLM_F_REQUEST) ++ store 4 seq ++ store 4 0 ++ body.

Definition ifinfomsg (family index : Z) : list Z :=
  [family; 0] ++ store 2 0 ++ store 4 index ++ store 4 0 ++ store 4 0.
Definition tcmsg (family ifindex handle parent : Z) : list Z :=
  [family; 0] ++ store 2 0 ++ store 4 ifindex ++ store 4 handle ++ store 4 parent ++ store 4 0.

(** Sending a request and receiving with the handler. *)
Definition request_dump (fuel : nat) (stack : list Z) (sock nl_pid type : Z) (body : list Z)
    (fn : msg_fn C) (cookie : C) (w : W) : option (Z * C * W) :=
  let seq := i32 (sys_time w) in
  let '(ret, w) := sys_send sock (dump_request type seq body) w in
  if ret <? 0 then Some (ret, cookie, w) else
  bpf_netlink_recv (Some fn) nl_pid seq fuel sock stack cookie w.

Definition libbpf_nl_get_link fuel stack (sock nl_pid : Z) dump_link_nlmsg :=
  request_dump fuel stack sock nl_pid RTM_GETLINK (ifinfomsg AF_PACKET 0)
    (__dump_link_nlmsg dump_link_nlmsg).

Definition libbpf_nl_get_class (TCA_MAX : Z) fuel stack (sock nl_pid ifindex : Z) dump_class_nlmsg :=
  request_dump fuel stack sock nl_pid RTM_GETTCLASS (tcmsg AF_UNSPEC ifindex 0 0)
    (__dump_class_nlmsg TCA_MAX dump_class_nlmsg).

Definition libbpf_nl_get_qdisc (TCA_MAX : Z) fuel stack (sock nl_pid ifindex : Z) dump_qdisc_nlmsg :=
  request_dump fuel stack sock nl_pid RTM_GETQDISC (tcmsg AF_UNSPEC ifindex 0 0)
    (__dump_qdisc_nlmsg TCA_MAX dump_qdisc_nlmsg).

Definition libbpf_nl_get_filter (TCA_MAX : Z) fuel stack (sock nl_pid ifindex handle : Z) dump_filter_nlmsg :=
  request_dump fuel stack sock nl_pid RTM_GETTFILTER (tcmsg AF_UNSPEC ifindex 0 handle)
    (__dump_filter_nlmsg TCA_MAX dump_filter_nlmsg).
End Dumps.
End Socket.

(** ** Messages *)

(** What a datagram holds: a list of messages. *)
Record nlmsg := Msg { m_type : Z; m_flags : Z; m_seq : Z; m_pid : Z; m_body : list Z }.

Definition nlmsg_size (m : nlmsg) : Z := NLMSG_HDRLEN + Z.of_nat (length (m_body m)).

(** The offset of what follows a list of fields. *)
Ltac solve_offset := rewrite !length_app, ?length_store; lia.

Section Messages.
Context `{HostOrder}.

Definition enc_msg (m : nlmsg) : list Z :=
  store 4 (nlmsg_size m) ++ store 2 (m_type m) ++ store 2 (m_flags m) ++ store 4 (m_seq m) ++
  store 4 (m_pid m) ++ m_body m ++ replicate (Z.to_nat (NLMSG_ALIGN (nlmsg_size m) - nlmsg_size m)) 0.

Definition enc_msgs (ms : list nlmsg) : list Z := concat (enc_msg <$> ms).

Definition is_multi (m : nlmsg) : bool := negb (Z.land (m_flags m) NLM_F_MULTI =? 0).

(** The error of an acknowledgement. *)
Definition m_error (m : nlmsg) : Z := i32 (load (take 4 (m_body m))).

(** An acknowledgement the kernel sends: the error, and the request it is about
    (its header at least) with whatever follows. *)
Definition error_ok (m : nlmsg) : Prop :=
  exists n, read32 (m_body m) 4 = Some n /\ NLMSG_HDRLEN <= n /\ n + 4 <= Z.of_nat (length (m_body m)).

Definition msg_ok (m : nlmsg) : Prop :=
  0 <= m_type m < 2 ^ 16 /\ 0 <= m_flags m < 2 ^ 16 /\ 0 <= m_seq m < 2 ^ 32 /\
  0 <= m_pid m < 2 ^ 32 /\ Forall byte_ok (m_body m) /\
  (m_type m = NLMSG_ERROR -> error_ok m).

(** ** What the loop means

    [handle] is what [_fn] does with a message, bytes aside. *)
Section Meaning.
Context {C : Type} (handle : option (nlmsg -> C -> Z * C)) (nl_pid seq : Z).

Fixpoint read_messages (ms : list nlmsg) (multipart : bool) (c : C) : flow * C :=
  match ms with
  | [] => (UsedUp multipart, c)
  | m :: ms =>
      if negb (m_pid m =? nl_pid) then (Return (- LIBBPF_ERRNO__WRNGPID), c) else
      if negb (m_seq m =? u32 seq) then (Return (- LIBBPF_ERRNO__INVSEQ), c) else
      let next := read_messages ms (multipart || is_multi m) in
      if m_type m =? NLMSG_ERROR then
        (if m_error m =? 0 then next c else (Return (m_error m), c))
      else if m_type m =? NLMSG_DONE then (Return 0, c)
      else match handle with
           | Some h => let '(ret, c) := h m c in if negb (ret =? 0) then (Return ret, c) else next c
           | None => next c
           end
  end.

(** [None]: the datagrams end and the function waits for another. *)
Fixpoint read_datagrams (ds : list (list nlmsg)) (c : C) : option (Z * C) :=
  match ds with
  | [] => None
  | d :: ds =>
      let '(fl, c) := read_messages d false c in
      match fl with
      | Return ret => Some (ret, c)
      | UsedUp false => Some (0, c)
      | UsedUp true => read_datagrams ds c
      end
  end.
End Meaning.

(** The socket delivers the datagrams one by one. *)
Fixpoint delivers {W} `{NlSys W} (sock : Z) (ds : list (list Z)) (w w' : W) : Prop :=
  match ds with
  | [] => w = w'
  | d :: ds => exists w1, sys_recv sock sizeof_buf w = (Z.of_nat (length d), d, w1) /\
      (0 < length d <= sizeof_buf)%nat /\ delivers sock ds w1 w'
  end.

(** [_fn] does on the bytes what [handle] does on the messages (those it is
    called on). *)
Definition handles {C} (P : nlmsg -> Prop) (_fn : option (msg_fn C))
    (handle : option (nlmsg -> C -> Z * C)) : Prop :=
  match _fn, handle with
  | None, None => True
  | Some f, Some h => forall pre m post c, msg_ok m -> P m ->
      m_type m <> NLMSG_ERROR -> m_type m <> NLMSG_DONE ->
      Z.of_nat (length pre) + nlmsg_size m <= Z.of_nat sizeof_buf ->
      f (pre ++ enc_msg m ++ post) (length pre) c = Some (h m c)
  | _, _ => False
  end.

(** *** The fields of an encoded message *)

Lemma NLMSG_ALIGN_bounds n : n <= NLMSG_ALIGN n <= n + 3.
Proof. apply NLA_ALIGN_bounds. Qed.

Lemma length_enc_msg m : Z.of_nat (length (enc_msg m)) = NLMSG_ALIGN (nlmsg_size m).
Proof.
  unfold enc_msg. pose proof (NLMSG_ALIGN_bounds (nlmsg_size m)) as Hal.
  rewrite !length_app, !length_store, length_replicate.
  unfold nlmsg_size, NLMSG_HDRLEN in *. lia.
Qed.

Lemma enc_msg_at pre m post :
  exists pad, pre ++ enc_msg m ++ post =
    pre ++ store 4 (nlmsg_size m) ++ store 2 (m_type m) ++ store 2 (m_flags m) ++
    store 4 (m_seq m) ++ store 4 (m_pid m) ++ m_body m ++ pad ++ post.
Proof.
  exists (replicate (Z.to_nat (NLMSG_ALIGN (nlmsg_size m) - nlmsg_size m)) 0).
  unfold enc_msg. by rewrite <- !app_assoc.
Qed.

Lemma enc_msg_fields pre m post :
  msg_ok m -> nlmsg_size m < 2 ^ 32 ->
  let buf := pre ++ enc_msg m ++ post in let nh := length pre in
  nlmsg_len_field buf nh = Some (nlmsg_size m) /\ nlmsg_type_field buf nh = Some (m_type m) /\
  nlmsg_flags_field buf nh = Some (m_flags m) /\ nlmsg_seq_field buf nh = Some (m_seq m) /\
  nlmsg_pid_field buf nh = Some (m_pid m) /\
  read_bytes buf (NLMSG_DATA nh) (length (m_body m)) = Some (m_body m).
Proof.
  intros (? & ? & ? & ? & _) Hsize buf nh.
  assert (0 <= nlmsg_size m) by (unfold nlmsg_size, NLMSG_HDRLEN; lia).
  destruct (enc_msg_at pre m post) as [pad Hbuf]. unfold buf. rewrite Hbuf. unfold nh.
  unfold nlmsg_len_field, nlmsg_type_field, nlmsg_flags_field, nlmsg_seq_field, nlmsg_pid_field, NLMSG_DATA.
  repeat split.
  - rewrite read32_store by done. by rewrite Z.mod_small by lia.
  - do 1 rewrite app_assoc. rewrite read16_store by solve_offset. by rewrite Z.mod_small by lia.
  - do 2 rewrite app_assoc. rewrite read16_store by solve_offset. by rewrite Z.mod_small by lia.
  - do 3 rewrite app_assoc. rewrite read32_store by solve_offset. by rewrite Z.mod_small by lia.
  - do 4 rewrite app_assoc. rewrite read32_store by solve_offset. by rewrite Z.mod_small by lia.
  - do 5 rewrite app_assoc. apply read_bytes_app; [solve_offset|done].
Qed.

(** A message whose body is a header and attributes, read with the parser. *)
Lemma body_parse pre m post hdr attrs maxtype :
  msg_ok m -> nlmsg_size m < 2 ^ 31 -> m_body m = hdr ++ enc_attrs attrs ->
  Forall encodable attrs -> 0 <= maxtype ->
  let buf := pre ++ enc_msg m ++ post in
  read_bytes buf (NLMSG_DATA (length pre)) (length hdr) = Some hdr /\
  exists tb, libbpf_nla_parse buf maxtype (NLMSG_DATA (length pre) + length hdr)
      (Z.of_nat (length (enc_attrs attrs))) None = Some (0, tb) /\
    forall t, 0 <= t <= maxtype -> has buf tb t (snd <$> list.last (List.filter (of_type t) attrs)).
Proof.
  intros Hm Hsize Hbody Henc Hmax buf.
  destruct (enc_msg_fields pre m post Hm ltac:(lia)) as (_ & _ & _ & _ & _ & Hb). fold buf in Hb.
  unfold nlmsg_size, NLMSG_HDRLEN in Hsize. rewrite Hbody in Hb, Hsize. rewrite length_app in Hsize. split.
  - replace (NLMSG_DATA (length pre)) with (NLMSG_DATA (length pre) + 0)%nat by lia.
    apply (read_bytes_within _ _ _ _ _ _ Hb). by apply (read_bytes_app []).
  - assert (read_bytes buf (NLMSG_DATA (length pre) + length hdr) (length (enc_attrs attrs))
      = Some (enc_attrs attrs)) as Hr.
    { apply (read_bytes_within _ _ _ _ _ _ Hb).
      rewrite <- (app_nil_r (enc_attrs attrs)) at 1. by apply read_bytes_app. }
    destruct (read_bytes_split _ _ _ _ Hr) as (pre' & post' & -> & <-).
    apply encoded_parse; [done|lia|done].
Qed.

(** The room the parser of extended acknowledgements may need after a message:
    the 16 bytes it counts too many and one more header. *)
Definition slack : nat := 21.

Lemma dump_errormsg_defined pre m post :
  msg_ok m -> m_type m = NLMSG_ERROR -> Forall byte_ok (pre ++ enc_msg m ++ post) ->
  Z.of_nat (length (pre ++ enc_msg m ++ post)) < 2 ^ 31 -> (slack <= length post)%nat ->
  exists x, libbpf_nla_dump_errormsg (pre ++ enc_msg m ++ post) (length pre) = Some x.
Proof.
  intros Hm Herr Hbytes Hlen Hpost. set (buf := pre ++ enc_msg m ++ post) in *.
  assert (Hfit : Z.of_nat (length pre) + nlmsg_size m + 21 <= Z.of_nat (length buf)).
  { unfold buf. rewrite !length_app. pose proof (length_enc_msg m). pose proof (NLMSG_ALIGN_bounds (nlmsg_size m)).
    unfold slack in Hpost. lia. }
  destruct (enc_msg_fields pre m post Hm ltac:(lia)) as (Hl & _ & Hf & _ & _ & Hb). fold buf in Hl, Hf, Hb.
  destruct Hm as (_ & _ & _ & _ & _ & Herrok). destruct (Herrok Herr) as (n & Hn & Hn16 & Hnlen).
  unfold libbpf_nla_dump_errormsg. rewrite Hf. cbn [mbind option_bind].
  destruct (Z.land (m_flags m) NLM_F_ACK_TLVS =? 0); [by eexists|].
  unfold nlmsg_size, NLMSG_HDRLEN in *.
  assert (exists hlen, (if Z.land (m_flags m) NLM_F_CAPPED =? 0
    then n ← nlmsg_len buf (NLMSG_DATA (length pre) + 4); add32 20 n else Some 20) = Some hlen /\
    20 <= hlen <= Z.of_nat (length (m_body m))) as (hlen & -> & Hhlen).
  { destruct (_ =? 0); [|exists 20; split; [done|lia]].
    assert (nlmsg_len_field buf (NLMSG_DATA (length pre) + 4) = Some n) as Hreq.
    { unfold nlmsg_len_field, read32 in *. destruct (read_bytes (m_body m) 4 4) as [bs|] eqn:E; [|done].
      by rewrite (read_bytes_within _ _ _ _ _ _ Hb E). }
    exists (20 + (n - 16)). unfold nlmsg_len, NLMSG_HDRLEN. rewrite Hreq. cbn [mbind option_bind].
    rewrite i32_id by lia. split; [|lia]. apply add32_eq. lia. }
  cbn [mbind option_bind]. rewrite Hl. cbn [mbind option_bind]. unfold NLMSG_DATA in *.
  rewrite (proj2 (Z.ltb_ge _ _)) by lia. rewrite i32_id by lia.
  destruct (nla_parse_safe buf Hbytes NLMSGERR_ATTR_MAX (Some extack_policy)
    (Z.to_nat (Z.of_nat (length pre + 16) + hlen)) (16 + Z.of_nat (length (m_body m)) - hlen))
    as (r & tb & -> & _); [done|lia|exact extack_policy_ok|split; [lia|right; lia]|].
  by eexists.
Qed.

Lemma error_read pre m post :
  msg_ok m -> nlmsg_size m < 2 ^ 32 -> m_type m = NLMSG_ERROR ->
  i32 <$> read32 (pre ++ enc_msg m ++ post) (NLMSG_DATA (length pre)) = Some (m_error m).
Proof.
  intros Hm Hsize Herr. destruct (enc_msg_fields pre m post Hm Hsize) as (_ & _ & _ & _ & _ & Hb).
  destruct Hm as (_ & _ & _ & _ & _ & Herrok). destruct (Herrok Herr) as (n & Hn & _ & Hlen).
  assert (length (m_body m) >= 4)%nat.
  { unfold read32, read_bytes in Hn. case_decide; [lia|done]. }
  unfold read32, m_error. replace (NLMSG_DATA (length pre)) with (NLMSG_DATA (length pre) + 0)%nat by lia.
  by rewrite (read_bytes_within _ _ _ 0 4 (take 4 (m_body m)) Hb) by (by rewrite read_bytes_Some by lia).
Qed.

(** A message of error 0, or another message: the loop goes on or returns as the
    meaning says. *)
Definition room_for_errors (ms : list nlmsg) (room : nat) : Prop :=
  Forall (fun m => m_type m <> NLMSG_ERROR) ms \/ (slack <= room)%nat.

Lemma messages_read {C} P (_fn : option (msg_fn C)) handle nl_pid seq ms fuel pre post multipart c :
  handles P _fn handle -> Forall msg_ok ms -> Forall P ms ->
  (length (enc_msgs ms) < fuel)%nat -> Forall byte_ok (pre ++ enc_msgs ms ++ post) ->
  length (pre ++ enc_msgs ms ++ post) = sizeof_buf -> room_for_errors ms (length post) ->
  messages _fn nl_pid seq fuel (pre ++ enc_msgs ms ++ post) (length pre)
    (Z.of_nat (length (enc_msgs ms))) multipart c =
  Some (read_messages handle nl_pid seq ms multipart c).
Proof.
  intros Hfn Hms. revert fuel pre multipart c.
  induction Hms as [|m ms Hm Hms IH]; intros fuel pre multipart c HP Hfuel Hbytes Hlen Hroom.
  { destruct fuel; [cbn in Hfuel; lia|done]. }
  apply Forall_cons_iff in HP as [Pm HP].
  change (enc_msgs (m :: ms)) with (enc_msg m ++ enc_msgs ms) in *.
  rewrite <- app_assoc in *. pose proof (length_enc_msg m) as Hlm.
  pose proof (NLMSG_ALIGN_bounds (nlmsg_size m)) as Hal.
  assert (Hfit : Z.of_nat (length pre) + nlmsg_size m <= Z.of_nat sizeof_buf)
    by (rewrite !length_app in Hlen; lia).
  rewrite length_app in Hfuel. rewrite length_app.
  set (rem := Z.of_nat (length (enc_msg m) + length (enc_msgs ms))).
  destruct fuel as [|fuel]; [lia|]. cbn [messages read_messages].
  assert (0 <= Z.of_nat (length pre)) by lia. unfold sizeof_buf in Hfit.
  assert (16 <= nlmsg_size m) by (unfold nlmsg_size, NLMSG_HDRLEN; lia).
  destruct (enc_msg_fields pre m (enc_msgs ms ++ post) Hm ltac:(lia)) as (Hl & Ht & Hf & Hs & Hp & _).
  set (buf := pre ++ enc_msg m ++ enc_msgs ms ++ post) in *.
  assert (NLMSG_OK buf (length pre) rem = Some true) as ->.
  { unfold NLMSG_OK, NLMSG_HDRLEN. rewrite (proj2 (Z.ltb_ge _ _)), Hl by lia. cbn [mbind option_bind].
    by rewrite !(proj2 (Z.leb_le _ _)) by lia. }
  cbn [mbind option_bind negb]. rewrite Hl, Hp, Hs, Hf, Ht. cbn [mbind option_bind].
  destruct (negb (m_pid m =? nl_pid)); [done|]. destruct (negb (m_seq m =? u32 seq)); [done|].
  assert (Hnext : forall mp c, messages _fn nl_pid seq fuel buf
    (length pre + Z.to_nat (NLMSG_ALIGN (nlmsg_size m))) (rem - NLMSG_ALIGN (nlmsg_size m)) mp c =
    Some (read_messages handle nl_pid seq ms mp c)).
  { intros mp c'. replace (length pre + _)%nat with (length (pre ++ enc_msg m)) by (rewrite length_app; lia).
    replace (rem - _) with (Z.of_nat (length (enc_msgs ms))) by lia.
    assert (buf = (pre ++ enc_msg m) ++ enc_msgs ms ++ post) as Hbuf
      by (unfold buf; by rewrite <- app_assoc).
    rewrite Hbuf in *. apply IH; try done; [lia|].
    destruct Hroom as [Hroom|]; [left; by apply Forall_cons_iff in Hroom as [_ ?]|by right]. }
  rewrite !Hnext. destruct (Z.eqb_spec (m_type m) NLMSG_ERROR) as [Herr|].
  - assert (Herror := error_read pre m (enc_msgs ms ++ post) Hm ltac:(lia) Herr). fold buf in Herror.
    rewrite Herror. cbn [mbind option_bind].
    destruct (m_error m =? 0); [done|].
    destruct (dump_errormsg_defined pre m (enc_msgs ms ++ post)) as [x Hx]; try done.
    + fold buf. rewrite Hlen. done.
    + destruct Hroom as [Hroom|]; [by apply Forall_cons_iff in Hroom as [? _]|rewrite length_app; lia].
    + fold buf in Hx. by rewrite Hx.
  - destruct (Z.eqb_spec (m_type m) NLMSG_DONE) as [|Hdone]; [done|]. unfold handles in Hfn.
    destruct _fn as [f|], handle as [h|]; try done. specialize (Hfn pre m (enc_msgs ms ++ post) c Hm Pm ltac:(done) Hdone Hfit). fold buf in Hfn.
    rewrite Hfn. cbn [mbind option_bind]. destruct (h m c) as [ret c']. rewrite Hnext. by destruct (negb (ret =? 0)).
Qed.

(** A datagram the kernel may send. *)
Definition datagram_ok (P : nlmsg -> Prop) (d : list nlmsg) : Prop :=
  d <> [] /\ Forall msg_ok d /\ Forall P d /\ (length (enc_msgs d) <= sizeof_buf)%nat /\
  room_for_errors d (sizeof_buf - length (enc_msgs d)).

Lemma enc_msg_bytes m : msg_ok m -> Forall byte_ok (enc_msg m).
Proof.
  intros (_ & _ & _ & _ & Hb & _). unfold enc_msg.
  repeat (apply Forall_app; split); try apply store_ok; [done|].
  apply Forall_replicate. unfold byte_ok. lia.
Qed.

Lemma enc_msgs_bytes ms : Forall msg_ok ms -> Forall byte_ok (enc_msgs ms).
Proof. induction 1; [done|]. apply Forall_app. split; [by apply enc_msg_bytes|done]. Qed.

(** The loop of [bpf_netlink_recv] over bytes does what its meaning says of the
    messages: it answers as soon as the meaning does, having received one datagram
    after the other, whatever the stack held. *)
Lemma netlink_recv_reads {W} `{NlSys W} {C} P (_fn : option (msg_fn C)) handle nl_pid seq sock ds :
  handles P _fn handle -> Forall (datagram_ok P) ds ->
  forall fuel stack c w w' ret c', delivers sock (enc_msgs <$> ds) w w' ->
  length stack = sizeof_buf -> Forall byte_ok stack -> (length ds <= fuel)%nat ->
  read_datagrams handle nl_pid seq ds c = Some (ret, c') ->
  exists n w'', bpf_netlink_recv _fn nl_pid seq fuel sock stack c w = Some (ret, c', w'') /\
    (0 < n <= length ds)%nat /\ delivers sock (enc_msgs <$> take n ds) w w''.
Proof.
  intros Hfn Hds. induction Hds as [|d ds Hd Hds IH]; [done|].
  intros fuel stack c w w' ret c' (w1 & Hrecv & [Hpos Hmax] & Hdel) Hstack Hbytes Hfuel Hread.
  destruct fuel as [|fuel]; [cbn in Hfuel; lia|]. cbn [bpf_netlink_recv]. rewrite Hrecv.
  rewrite (proj2 (Z.ltb_ge _ _)), (proj2 (Z.eqb_neq _ _)) by lia.
  destruct Hd as (_ & Hms & HP & _ & Hroom). set (post := drop (length (enc_msgs d)) stack).
  assert (length post = sizeof_buf - length (enc_msgs d))%nat as Hpost
    by (unfold post; rewrite length_drop; lia).
  assert (Hbuf : Forall byte_ok (enc_msgs d ++ post)).
  { apply Forall_app. split; [by apply enc_msgs_bytes|by apply Forall_drop]. }
  assert (Hlen : length (enc_msgs d ++ post) = sizeof_buf) by (rewrite length_app; lia).
  pose proof (messages_read P _fn handle nl_pid seq d (S (Z.to_nat (Z.of_nat (length (enc_msgs d)))))
    [] post false c Hfn Hms HP ltac:(lia) Hbuf Hlen) as Hrun.
  cbn [app length] in Hrun. rewrite Hrun by (by rewrite Hpost). cbn [mbind option_bind].
  cbn [read_datagrams] in Hread. destruct (read_messages _ _ _ d false c) as [fl c1].
  assert (Hone : delivers sock (enc_msgs <$> take 1 (d :: ds)) w w1) by (by exists w1).
  destruct fl as [[|]|r].
  - destruct (IH fuel _ c1 w1 w' ret c' Hdel Hlen Hbuf) as (n & w'' & Hrest & Hn & Hdel'); [cbn in Hfuel; lia|done|].
    exists (S n), w''. split; [exact Hrest|]. split; [cbn; lia|]. by exists w1.
  - injection Hread as <- <-. exists 1%nat, w1. repeat split; [cbn; lia..|done].
  - injection Hread as <- <-. exists 1%nat, w1. repeat split; [cbn; lia..|done].
Qed.

(** C28. [bpf_netlink_recv] over bytes implements its meaning over messages: when the
    socket delivers the datagrams [ds], it answers what [read_datagrams] says (the
    port, the sequence number, an error, the end of a dump, what the handler
    answers), having received them one after the other and no more than it needed;
    whatever the buffer on the stack held before. *)
Theorem netlink_recv_refines {W} `{NlSys W} {C} P (_fn : option (msg_fn C)) handle nl_pid seq sock ds
    fuel stack c w w' ret c' :
  handles P _fn handle -> Forall (datagram_ok P) ds -> delivers sock (enc_msgs <$> ds) w w' ->
  length stack = sizeof_buf -> Forall byte_ok stack -> (length ds <= fuel)%nat ->
  read_datagrams handle nl_pid seq ds c = Some (ret, c') ->
  exists n w'', bpf_netlink_recv _fn nl_pid seq fuel sock stack c w = Some (ret, c', w'') /\
    (0 < n <= length ds)%nat /\ delivers sock (enc_msgs <$> take n ds) w w''.
Proof. intros. by eapply netlink_recv_reads. Qed.

(** ** The request of [bpf_set_link_xdp_fd] *)

(** The attributes nested in [IFLA_XDP]. *)
Definition xdp_attrs (fd flags : Z) : list (Z * list Z) :=
  (IFLA_XDP_FD, store 4 fd) :: (if flags =? 0 then [] else [(IFLA_XDP_FLAGS, store 4 flags)]).

Definition set_link_attrs (fd flags : Z) : list (Z * list Z) :=
  [(Z.lor NLA_F_NESTED IFLA_XDP, enc_attrs (xdp_attrs fd flags))].

Definition set_link_msg (ifindex fd flags seq : Z) : nlmsg :=
  Msg RTM_SETLINK (Z.lor NLM_F_REQUEST NLM_F_ACK) seq 0
    (ifinfomsg AF_UNSPEC ifindex ++ enc_attrs (set_link_attrs fd flags)).

Lemma list4 {A} (l : list A) : length l = 4%nat -> exists a b c d, l = [a; b; c; d].
Proof. destruct l as [|a [|b [|c [|d [|]]]]]; try done. by exists a, b, c, d. Qed.

(** The bytes the function builds in place are those of the message. *)
Lemma set_link_request_sent ifindex fd flags seq :
  (set_link_request ifindex fd flags seq ≫= sent) = Some (enc_msg (set_link_msg ifindex fd flags seq)).
Proof.
  unfold set_link_request, sent, set_link_msg, set_link_attrs, xdp_attrs, enc_msg, nlmsg_size, ifinfomsg, write32.
  cbn [m_type m_flags m_seq m_pid m_body].
  destruct (list4 _ (length_store 4 ifindex)) as (a0 & a1 & a2 & a3 & ->).
  destruct (list4 _ (length_store 4 fd)) as (b0 & b1 & b2 & b3 & ->).
  destruct (list4 _ (length_store 4 seq)) as (s0 & s1 & s2 & s3 & ->).
  destruct (list4 _ (length_store 4 flags)) as (c0 & c1 & c2 & c3 & ->).
  destruct (flags =? 0); match goal with h : HostOrder |- _ => destruct h end; vm_compute; reflexivity.
Qed.

Lemma ifinfomsg_length family index : length (ifinfomsg family index) = 16%nat.
Proof. unfold ifinfomsg. by rewrite !length_app, !length_store. Qed.

Lemma set_link_attrs_encodable fd flags :
  Forall encodable (set_link_attrs fd flags) /\ Forall encodable (xdp_attrs fd flags) /\
  (length (enc_attrs (set_link_attrs fd flags)) <= 20)%nat /\
  (length (enc_attrs (xdp_attrs fd flags)) <= 16)%nat.
Proof.
  assert (Hx : Forall encodable (xdp_attrs fd flags) /\ (length (enc_attrs (xdp_attrs fd flags)) <= 16)%nat).
  { unfold xdp_attrs, encodable, enc_attrs, enc_attr.
    destruct (list4 _ (length_store 4 fd)) as (b0 & b1 & b2 & b3 & ->).
    destruct (list4 _ (length_store 4 flags)) as (c0 & c1 & c2 & c3 & ->).
    destruct (flags =? 0); (split; [repeat constructor; vm_compute; discriminate || done|]);
      cbn [fmap list_fmap concat]; rewrite !length_app, !length_store; vm_compute; lia. }
  destruct Hx as [Hx Hl]. repeat split; try done.
  - unfold set_link_attrs. constructor; [|done]. unfold encodable. cbn [fst snd]. split; [by vm_compute|lia].
  - change (enc_attrs (set_link_attrs fd flags)) with
      (enc_attr (Z.lor NLA_F_NESTED IFLA_XDP, enc_attrs (xdp_attrs fd flags)) ++ []). rewrite app_nil_r.
    pose proof (length_enc_attr (Z.lor NLA_F_NESTED IFLA_XDP, enc_attrs (xdp_attrs fd flags))) as E.
    cbn [snd] in E.
    pose proof (NLA_ALIGN_bounds (4 + Z.of_nat (length (enc_attrs (xdp_attrs fd flags))))) as [Hb Hm].
    set (n := NLA_ALIGN _) in *. Z.to_euclidean_division_equations. lia.
Qed.

Lemma ifinfomsg_ok family index : byte_ok family -> Forall byte_ok (ifinfomsg family index).
Proof.
  intros. unfold ifinfomsg. cbn [app]. constructor; [done|]. constructor; [unfold byte_ok; lia|].
  repeat (apply Forall_app; split); apply store_ok.
Qed.

Lemma set_link_msg_ok ifindex fd flags seq :
  0 <= seq < 2 ^ 32 -> msg_ok (set_link_msg ifindex fd flags seq).
Proof.
  intros Hseq. unfold msg_ok, set_link_msg. cbn [m_type m_flags m_seq m_pid m_body].
  repeat split; try done; try lia. apply Forall_app. split; [by apply ifinfomsg_ok|].
  apply enc_attrs_bytes. constructor; [|done]. apply enc_attrs_bytes. unfold xdp_attrs.
  constructor; [apply store_ok|]. destruct (flags =? 0); [done|]. constructor; [apply store_ok|done].
Qed.

Lemma set_link_msg_length ifindex fd flags seq :
  let m := set_link_msg ifindex fd flags seq in
  nlmsg_size m = 32 + Z.of_nat (length (enc_attrs (set_link_attrs fd flags))) /\
  Z.of_nat (length (enc_msg m)) = nlmsg_size m.
Proof.
  set (attrs := set_link_attrs fd flags). intros m.
  assert (Hsize : nlmsg_size m = 32 + Z.of_nat (length (enc_attrs attrs))).
  { unfold nlmsg_size, m, set_link_msg. cbn [m_body]. rewrite length_app, ifinfomsg_length.
    unfold NLMSG_HDRLEN, attrs. lia. }
  split; [done|]. rewrite length_enc_msg, Hsize.
  pose proof (NLA_ALIGN_bounds (32 + Z.of_nat (length (enc_attrs attrs)))) as [Hb Hm].
  pose proof (enc_attrs_aligned attrs). change NLMSG_ALIGN with NLA_ALIGN. set (n := NLA_ALIGN _) in *.
  Z.to_euclidean_division_equations. lia.
Qed.

(** What [bpf_set_link_xdp_fd] sends, read back with the parser of the library (as
    the kernel reads it): a request to set the link [ifindex], whose nested XDP
    attributes are the descriptor, and the flags exactly when they are not 0. *)
Theorem set_link_request_decodes ifindex fd flags seq :
  0 <= seq < 2 ^ 32 ->
  exists msg tb p xdp_tb, (set_link_request ifindex fd flags seq ≫= sent) = Some msg /\
    nlmsg_len_field msg 0 = Some (Z.of_nat (length msg)) /\ nlmsg_type_field msg 0 = Some RTM_SETLINK /\
    nlmsg_seq_field msg 0 = Some seq /\ read32 msg (NLMSG_DATA 0 + 4) = Some (u32 ifindex) /\
    libbpf_nla_parse msg IFLA_MAX (NLMSG_DATA 0 + sizeof_ifinfomsg) (Z.of_nat (length msg) - 32) None
      = Some (0, tb) /\
    tb_at tb IFLA_XDP = Some p /\
    libbpf_nla_parse_nested msg IFLA_XDP_MAX p None = Some (0, xdp_tb) /\
    table_u32 msg xdp_tb IFLA_XDP_FD = Some (u32 fd) /\
    (if flags =? 0 then tb_at xdp_tb IFLA_XDP_FLAGS = None
     else table_u32 msg xdp_tb IFLA_XDP_FLAGS = Some (u32 flags)).
Proof.
  intros Hseq. destruct (set_link_attrs_encodable fd flags) as (He & Hx & Hl & Hlx).
  destruct (set_link_msg_length ifindex fd flags seq) as [Hsize Hlen].
  pose proof (set_link_msg_ok ifindex fd flags seq Hseq) as Hm.
  set (m := set_link_msg ifindex fd flags seq) in *. set (attrs := set_link_attrs fd flags) in *.
  destruct (enc_msg_fields [] m [] Hm ltac:(lia)) as (Hlf & Htf & _ & Hsf & _ & Hb).
  clear Hb. rewrite app_nil_r in *. change (length []) with 0%nat in *.
  destruct (body_parse [] m [] (ifinfomsg AF_UNSPEC ifindex) attrs IFLA_MAX) as (Hhdr & tb & Hrun & Hall);
    try done; try lia.
  cbn [app] in *. rewrite app_nil_r in *. change (length []) with 0%nat in *.
  rewrite ifinfomsg_length in *.
  assert (payload (enc_msg m) tb IFLA_XDP = Some (enc_attrs (xdp_attrs fd flags))) as Hxdp
    by (apply (Hall IFLA_XDP); by vm_compute).
  destruct (nested_encoded _ _ _ _ IFLA_XDP_MAX Hxdp) as (p & xtb & Hp & Hnested & Hvals); try done; try lia.
  exists (enc_msg m), tb, p, xtb. split; [apply set_link_request_sent|].
  split; [by rewrite Hlen|]. split; [done|]. split; [done|]. split.
  { unfold read32. rewrite (read_bytes_within _ _ (ifinfomsg AF_UNSPEC ifindex) 4 4 (store 4 ifindex)).
    - cbn [fmap option_fmap option_map]. by rewrite load_store.
    - by rewrite ifinfomsg_length.
    - unfold ifinfomsg. rewrite app_assoc. apply read_bytes_app; [|apply length_store].
      by rewrite length_app, length_store. }
  rewrite Hlen, Hsize. replace (32 + Z.of_nat (length (enc_attrs attrs)) - 32)
    with (Z.of_nat (length (enc_attrs attrs))) by lia.
  split; [exact Hrun|]. split; [done|]. split; [done|].
  assert (Hfd := Hvals IFLA_XDP_FD). assert (Hfl := Hvals IFLA_XDP_FLAGS).
  unfold xdp_attrs in Hfd, Hfl. destruct (flags =? 0).
  - split; [apply payload_u32, Hfd; by vm_compute|apply Hfl; by vm_compute].
  - split; [apply payload_u32, Hfd; by vm_compute|apply payload_u32, Hfl; by vm_compute].
Qed.
End Messages.

(** ** Setting the program: the answer *)

(** The calls and the sockets of the process. *)
Class NlLaws (W : Type) `{NlSys W} := {
  open_socks : W -> gset Z;
  socket_opens : forall w s w', sys_socket w = (s, w') -> 0 <= s ->
    (s ∉ open_socks w) /\ open_socks w' = {[ s ]} ∪ open_socks w;
  socket_fails : forall w s w', sys_socket w = (s, w') -> s < 0 -> open_socks w' = open_socks w;
  setsockopt_keeps : forall s w r w', sys_setsockopt s w = (r, w') -> open_socks w' = open_socks w;
  bind_keeps : forall s w r w', sys_bind s w = (r, w') -> open_socks w' = open_socks w;
  getsockname_keeps : forall s w r p l w', sys_getsockname s w = (r, p, l, w') -> open_socks w' = open_socks w;
  send_keeps : forall s b w r w', sys_send s b w = (r, w') -> open_socks w' = open_socks w;
  recv_keeps : forall s n w r b w', sys_recv s n w = (r, b, w') -> open_socks w' = open_socks w;
  close_closes : forall s w, open_socks (sys_close s w) = open_socks w ∖ {[ s ]};
}.

Section Answers.
Context {W : Type} `{NlLaws W} `{HostOrder}.

Lemma close_opened s w w' :
  s ∉ open_socks w -> open_socks w' = {[ s ]} ∪ open_socks w -> open_socks (sys_close s w') = open_socks w.
Proof. intros Hs Hw. rewrite close_closes, Hw. set_solver. Qed.

(** Opening leaves a new socket, or the sockets as they were. *)
Lemma netlink_open_socks w r w' :
  libbpf_netlink_open w = (r, w') ->
  match r with
  | inl _ => open_socks w' = open_socks w
  | inr (s, _) => (s ∉ open_socks w) /\ open_socks w' = {[ s ]} ∪ open_socks w
  end.
Proof.
  unfold libbpf_netlink_open. destruct (sys_socket w) as [s w1] eqn:E1.
  destruct (Z.ltb_spec s 0) as [Hs|Hs]; [intros [= <- <-]; by eapply socket_fails|].
  destruct (socket_opens _ _ _ E1 Hs) as [Hnew Hw1].
  destruct (sys_setsockopt s w1) as [r2 w2] eqn:E2. apply setsockopt_keeps in E2.
  destruct (sys_bind s w2) as [r3 w3] eqn:E3. apply bind_keeps in E3.
  destruct (r3 <? 0); [intros [= <- <-]; apply close_opened; congruence|].
  destruct (sys_getsockname s w3) as [[[r4 p] l] w4] eqn:E4. apply getsockname_keeps in E4.
  destruct (r4 <? 0); [intros [= <- <-]; apply close_opened; congruence|].
  destruct (negb _); intros [= <- <-]; [apply close_opened; congruence|]. split; congruence.
Qed.

Lemma netlink_recv_socks {C} (_fn : option (msg_fn C)) nl_pid seq fuel sock stack c w r c' w' :
  bpf_netlink_recv _fn nl_pid seq fuel sock stack c w = Some (r, c', w') -> open_socks w' = open_socks w.
Proof.
  revert stack c w. induction fuel as [|fuel IH]; intros stack c w; [done|]. cbn [bpf_netlink_recv].
  destruct (sys_recv sock sizeof_buf w) as [[len bytes] w1] eqn:E. apply recv_keeps in E.
  destruct (len <? 0); [by intros [= <- <- <-]|]. destruct (len =? 0); [by intros [= <- <- <-]|].
  destruct (messages _ _ _ _ _ _ _ _ _) as [[[[|]|] c1]|]; cbn [mbind option_bind]; try done;
    [|by intros [= <- <- <-]..].
  intros Hrest. rewrite <- E. by eapply IH.
Qed.

(** [bpf_set_link_xdp_fd] leaves no socket open behind it, however it ends: when
    the socket cannot be set up, when the request cannot be sent, whatever comes
    back. *)
Theorem set_link_no_socket_leak fuel stack ifindex fd flags w ret w' :
  bpf_set_link_xdp_fd fuel stack ifindex fd flags w = Some (ret, w') -> open_socks w' = open_socks w.
Proof.
  unfold bpf_set_link_xdp_fd. destruct (libbpf_netlink_open w) as [opened w1] eqn:E1.
  apply netlink_open_socks in E1. destruct opened as [err|[sock pid]]; [by intros [= <- <-]|].
  destruct E1 as [Hnew Hw1]. destruct (set_link_request _ _ _ _) as [req|]; [|done].
  cbn [mbind option_bind]. destruct (sent req) as [msg|]; [|done]. cbn [mbind option_bind].
  destruct (sys_send sock msg w1) as [r w2] eqn:E2. apply send_keeps in E2.
  destruct (r <? 0); [intros [= <- <-]; apply close_opened; congruence|].
  destruct (bpf_netlink_recv _ _ _ _ _ _ _ _) as [[[r3 c3] w3]|] eqn:E3; [|done].
  apply netlink_recv_socks in E3. cbn [mbind option_bind]. intros [= <- <-]. apply close_opened; congruence.
Qed.
End Answers.

Section Acknowledged.
Context {W : Type} `{NlSys W} `{HostOrder}.

(** When the socket opens and the kernel answers the request (with the sequence
    number 1 and the port of the socket) by one acknowledgement, the call sends the
    request for these arguments, answers the error of the acknowledgement, 0 for
    success, and closes the socket; this for any contents of the stack. *)
Theorem set_link_acknowledged fuel stack ifindex fd flags sock nl_pid n ack w w1 w2 w3 :
  libbpf_netlink_open w = (inr (sock, nl_pid), w1) ->
  sys_send sock (enc_msg (set_link_msg ifindex fd flags 1)) w1 = (n, w2) -> 0 <= n ->
  delivers sock [enc_msg ack] w2 w3 -> datagram_ok (fun _ => True) [ack] ->
  m_type ack = NLMSG_ERROR -> m_seq ack = 1 -> m_pid ack = nl_pid -> is_multi ack = false ->
  length stack = sizeof_buf -> Forall byte_ok stack -> (1 <= fuel)%nat ->
  bpf_set_link_xdp_fd fuel stack ifindex fd flags w = Some (m_error ack, sys_close sock w3).
Proof.
  intros Hopen Hsend Hn Hdel Hack Htype Hseq Hpid Hmulti Hstack Hbytes Hfuel.
  unfold bpf_set_link_xdp_fd. rewrite Hopen. pose proof (set_link_request_sent ifindex fd flags 1) as Hreq.
  destruct (set_link_request ifindex fd flags 1) as [req|]; [|done]. cbn [mbind option_bind] in Hreq |- *.
  rewrite Hreq. cbn [mbind option_bind]. rewrite Hsend, (proj2 (Z.ltb_ge _ _)) by lia.
  assert (Hmean : read_datagrams (C := unit) None nl_pid 1 [[ack]] tt = Some (m_error ack, tt)).
  { cbn [read_datagrams read_messages]. rewrite Hpid, Hseq, Htype, Hmulti, !Z.eqb_refl.
    change (u32 1) with 1. cbn [negb Z.eqb orb]. by destruct (Z.eqb_spec (m_error ack) 0) as [->|]. }
  assert (Hdel' : delivers sock (enc_msgs <$> [[ack]]) w2 w3).
  { cbn [fmap list_fmap]. unfold enc_msgs. cbn [fmap list_fmap concat]. by rewrite app_nil_r. }
  destruct (netlink_recv_reads (fun _ => True) None None nl_pid 1 sock [[ack]] I
    ltac:(by constructor) fuel stack tt w2 w3 _ _ Hdel' Hstack Hbytes Hfuel Hmean) as (k & w4 & -> & Hn1 & Hk).
  assert (k = 1%nat) as -> by (cbn in Hn1; lia). cbn [mbind option_bind]. do 3 f_equal.
  destruct Hdel' as (w5 & Hr5 & _ & Hd5). destruct Hk as (w6 & Hr6 & _ & Hd6).
  cbn in Hd5, Hd6. congruence.
Qed.
End Acknowledged.

(** ** A scripted socket *)

Module NetlinkExamples.

#[local] Instance host : HostOrder := LittleEndian.

(** The sockets open, what was sent, and the datagrams to come. *)
Record net := Net { socks : gset Z; outbox : list (list Z); inbox : list (list Z) }.

Definition nl_port : Z := 4711.
(** No less than any descriptor open. *)
Definition fresh_fd (w : net) : Z := Z.max 3 (set_fold (fun s m => Z.max (s + 1) m) 3 (socks w)).

#[export] Instance net_sys : NlSys net := {
  sys_socket w :=
    if decide (fresh_fd w ∈ socks w) then (-24, w)
    else (fresh_fd w, Net ({[ fresh_fd w ]} ∪ socks w) (outbox w) (inbox w));
  sys_setsockopt _ w := (0, w);
  sys_bind _ w := (0, w);
  sys_getsockname _ w := (0, nl_port, sizeof_sockaddr_nl, w);
  sys_send _ msg w := (Z.of_nat (length msg), Net (socks w) (outbox w ++ [msg]) (inbox w));
  sys_recv _ n w :=
    match inbox w with
    | [] => (-11, [], w)
    | d :: ds => let d := take n d in (Z.of_nat (length d), d, Net (socks w) (outbox w) ds)
    end;
  sys_close s w := Net (socks w ∖ {[ s ]}) (outbox w) (inbox w);
  sys_time _ := 1700000000;
}.

#[export] Instance net_laws : NlLaws net.
Proof.
  refine {| open_socks := socks |}; cbn; intros; repeat case_decide; repeat case_match; simplify_eq; try done.
  unfold fresh_fd in *. lia.
Defined.

(** The kernel refuses with EBUSY; the request follows the error. *)
Definition ack : nlmsg :=
  Msg NLMSG_ERROR 0 1 nl_port (store 4 (-16) ++ enc_msg (set_link_msg 2 7 1 1)).
Definition before : net := Net ∅ [] [enc_msg ack].
Definition stack : list Z := replicate 4096 165.

Lemma stack_ok : length stack = sizeof_buf /\ Forall byte_ok stack.
Proof. split; [done|]. apply Forall_replicate. by vm_compute. Qed.

Lemma ack_ok : datagram_ok (fun _ => True) [ack].
Proof.
  unfold datagram_ok. split; [done|]. split.
  { constructor; [|done]. unfold msg_ok. repeat split; try (by vm_compute).
    - apply Forall_app. split; [apply store_ok|]. by apply enc_msg_bytes, set_link_msg_ok.
    - intros _. eexists. split; [by vm_compute|]. by vm_compute. }
  split; [by repeat constructor|]. split; [vm_compute; lia|]. right. vm_compute. lia.
Qed.

Lemma set_link_request_decodes_witness :
  0 <= 1 < 2 ^ 32 /\ exists msg, (set_link_request 2 7 1 1 ≫= sent) = Some msg /\ nlmsg_seq_field msg 0 = Some 1.
Proof.
  split; [lia|]. destruct (set_link_request_decodes 2 7 1 1) as (msg & tb & p & xtb & Hm & _ & _ & Hs & _); [lia|].
  exact (ex_intro _ msg (conj Hm Hs)).
Defined.

Lemma set_link_acknowledged_witness :
  exists w, bpf_set_link_xdp_fd 1 stack 2 7 1 before = Some (-16, w) /\ inbox w = [] /\ socks w = ∅.
Proof.
  destruct (libbpf_netlink_open before) as [opened w1] eqn:E1. vm_compute in E1. injection E1 as <- E1.
  eexists. split.
  - refine (set_link_acknowledged 1 stack 2 7 1 3 nl_port _ ack before w1
      (snd (sys_send 3 (enc_msg (set_link_msg 2 7 1 1)) w1)) _ _ _ _ _ ack_ok _ _ _ _ _ _ _).
    + subst w1. by vm_compute.
    + done.
    + lia.
    + subst w1. eexists. split; [by vm_compute|]. split; [vm_compute; lia|done].
    + done.
    + done.
    + done.
    + done.
    + apply stack_ok.
    + apply stack_ok.
    + lia.
  - by vm_compute.
Defined.

Lemma set_link_no_socket_leak_witness :
  exists w, bpf_set_link_xdp_fd 1 stack 2 7 1 before = Some (-16, w) /\ open_socks w = ∅.
Proof.
  assert (exists w, bpf_set_link_xdp_fd 1 stack 2 7 1 before = Some (-16, w)) as [w Hw]
    by (eexists; vm_compute; reflexivity).
  exists w. split; [exact Hw|]. exact (set_link_no_socket_leak 1 stack 2 7 1 before (-16) w Hw).
Defined.

(** A dump in two datagrams, counted by the handler. *)
Definition probe_msg (i : Z) : nlmsg := Msg 16 NLM_F_MULTI 5 nl_port (ifinfomsg AF_UNSPEC i).
Definition done_msg : nlmsg := Msg NLMSG_DONE NLM_F_MULTI 5 nl_port (store 4 0).
Definition dump : list (list nlmsg) := [[probe_msg 1; probe_msg 2]; [probe_msg 3; done_msg]].

Lemma dump_ok : Forall (datagram_ok (fun _ => True)) dump.
Proof.
  unfold dump, datagram_ok. repeat constructor; try done; try (vm_compute; lia);
    repeat (constructor || done); unfold probe_msg, done_msg; cbn [m_type m_flags m_seq m_pid m_body]; try (by vm_compute);
    try apply ifinfomsg_ok; try apply store_ok; by vm_compute.
Qed.

Lemma netlink_recv_refines_witness :
  exists w, bpf_netlink_recv (Some (fun _ _ n => Some (0, n + 1))) nl_port 5 2 3 stack 0
    (Net ∅ [] (enc_msgs <$> dump)) = Some (0, 3, w).
Proof.
  destruct (netlink_recv_refines (fun _ => True) (Some (fun _ _ n => Some (0, n + 1)))
    (Some (fun _ n => (0, n + 1))) nl_port 5 3 dump 2 stack 0 (Net ∅ [] (enc_msgs <$> dump)) (Net ∅ [] [])
    0 3) as (n & w & Hrun & _).
  - done.
  - apply dump_ok.
  - eexists. split; [vm_compute; reflexivity|]. split; [vm_compute; lia|].
    eexists. split; [vm_compute; reflexivity|]. split; [vm_compute; lia|done].
  - apply stack_ok.
  - apply stack_ok.
  - done.
  - by vm_compute.
  - by exists w.
Defined.
End NetlinkExamples.
