(* ===== verification/NetlinkXdp.v ===== *)
(** * The XDP program of an interface

    Models the queries of [libbpf/src/netlink.c]: [bpf_get_link_xdp_info] and
    [bpf_get_link_xdp_id], which dump the links of the host and keep what the
    message of an interface says of its XDP programs. *)

From S2P Require Import Prelude BpfObject Params Packet Nlattr Netlink.

(** [linux/if_link.h] *)
Definition XDP_FLAGS_MASK : Z := Z.lor XDP_FLAGS_UPDATE_IF_NOEXIST XDP_FLAGS_MODES.
Definition XDP_ATTACHED_NONE : Z := 0.
Definition XDP_ATTACHED_MULTI : Z := 4.
Definition IFLA_XDP_ATTACHED : Z := 2.
Definition IFLA_XDP_PROG_ID : Z := 4.
Definition IFLA_XDP_DRV_PROG_ID : Z := 5.
Definition IFLA_XDP_SKB_PROG_ID : Z := 6.
Definition IFLA_XDP_HW_PROG_ID : Z := 7.

Record xdp_link_info :=
  Info { prog_id : Z; drv_prog_id : Z; hw_prog_id : Z; skb_prog_id : Z; attach_mode : Z }.

Record xdp_id_md := Md { ifindex : Z; flags : Z; info : xdp_link_info }.

Definition set_attach_mode (v : Z) (i : xdp_link_info) : xdp_link_info :=
  Info (prog_id i) (drv_prog_id i) (hw_prog_id i) (skb_prog_id i) v.
Definition set_prog_id (v : Z) (i : xdp_link_info) : xdp_link_info :=
  Info v (drv_prog_id i) (hw_prog_id i) (skb_prog_id i) (attach_mode i).
Definition set_skb_prog_id (v : Z) (i : xdp_link_info) : xdp_link_info :=
  Info (prog_id i) (drv_prog_id i) (hw_prog_id i) v (attach_mode i).
Definition set_drv_prog_id (v : Z) (i : xdp_link_info) : xdp_link_info :=
  Info (prog_id i) v (hw_prog_id i) (skb_prog_id i) (attach_mode i).
Definition set_hw_prog_id (v : Z) (i : xdp_link_info) : xdp_link_info :=
  Info (prog_id i) (drv_prog_id i) v (skb_prog_id i) (attach_mode i).

Definition no_info : xdp_link_info := Info 0 0 0 0 0.

Definition get_xdp_id (info : xdp_link_info) (flags : Z) : Z :=
  if negb (attach_mode info =? XDP_ATTACHED_MULTI) then prog_id info else
  if negb (Z.land flags XDP_FLAGS_DRV_MODE =? 0) then drv_prog_id info else
  if negb (Z.land flags XDP_FLAGS_HW_MODE =? 0) then hw_prog_id info else
  if negb (Z.land flags XDP_FLAGS_SKB_MODE =? 0) then skb_prog_id info else 0.

Section Queries.
Context `{HostOrder}.

(** [if (xdp_tb[type]) field = libbpf_nla_getattr_u32(xdp_tb[type])]. *)
Definition field_u32 (buf : list Z) (xdp_tb : table) (type : Z)
    (set : Z -> xdp_link_info -> xdp_link_info) (i : xdp_link_info) : option xdp_link_info :=
  match tb_at xdp_tb type with
  | Some nla => v ← libbpf_nla_getattr_u32 buf nla; Some (set v i)
  | None => Some i
  end.

(** [get_xdp_info] once it has the XDP attribute. *)
Definition read_xdp_attr (buf : list Z) (nla : nat) (xdp_id : xdp_id_md) : option (Z * xdp_id_md) :=
  '(ret, xdp_tb) ← libbpf_nla_parse_nested buf IFLA_XDP_MAX nla None;
  if negb (ret =? 0) then Some (ret, xdp_id) else
  match tb_at xdp_tb IFLA_XDP_ATTACHED with
  | None => Some (0, xdp_id)
  | Some nla =>
      mode ← libbpf_nla_getattr_u8 buf nla;
      let i := set_attach_mode mode (info xdp_id) in
      i ← (if mode =? XDP_ATTACHED_NONE then Some i else
           i ← field_u32 buf xdp_tb IFLA_XDP_PROG_ID set_prog_id i;
           i ← field_u32 buf xdp_tb IFLA_XDP_SKB_PROG_ID set_skb_prog_id i;
           i ← field_u32 buf xdp_tb IFLA_XDP_DRV_PROG_ID set_drv_prog_id i;
           field_u32 buf xdp_tb IFLA_XDP_HW_PROG_ID set_hw_prog_id i);
      Some (0, Md (ifindex xdp_id) (flags xdp_id) i)
  end.

Definition get_xdp_info : libbpf_dump_nlmsg_t xdp_id_md := fun buf msg tb xdp_id =>
  other ← (if ifindex xdp_id =? 0 then Some false
           else ifi_index ← i32 <$> read32 buf (msg + 4); Some (negb (ifindex xdp_id =? ifi_index)));
  if (other : bool) then Some (0, xdp_id) else
  match tb_at tb IFLA_XDP with
  | None => Some (0, xdp_id)
  | Some nla => read_xdp_attr buf nla xdp_id
  end.

(** [struct xdp_link_info] in memory: 20 bytes, the last three padding. *)
Definition store_info (i : xdp_link_info) : list Z :=
  store 4 (prog_id i) ++ store 4 (drv_prog_id i) ++ store 4 (hw_prog_id i) ++
  store 4 (skb_prog_id i) ++ [attach_mode i; 0; 0; 0].

Definition load_info (bs : list Z) : option xdp_link_info :=
  p ← read32 bs 0; d ← read32 bs 4; h ← read32 bs 8; s ← read32 bs 12; m ← read8 bs 16;
  Some (Info p d h s m).

Definition sizeof_xdp_link_info : Z := 20.

Context {W : Type} `{NlSys W}.

(** The result, what was stored at [info], the world. *)
Definition bpf_get_link_xdp_info (fuel : nat) (stack : list Z) (ifindex info_size flags : Z) (w : W)
    : option (Z * option (list Z) * W) :=
  if negb (Z.land flags (Z.lnot XDP_FLAGS_MASK) =? 0) || (info_size =? 0)
  then Some (- EINVAL, None, w) else
  let flags := Z.land flags XDP_FLAGS_MODES in
  let mask := u32 (flags - 1) in
  if negb (flags =? 0) && negb (Z.land flags mask =? 0) then Some (- EINVAL, None, w) else
  let '(opened, w) := libbpf_netlink_open w in
  match opened with
  | inl err => Some (err, None, w)
  | inr (sock, nl_pid) =>
      '(ret, xdp_id, w) ←
        libbpf_nl_get_link fuel stack sock nl_pid get_xdp_info (Md ifindex flags no_info) w;
      let stored :=
        if ret =? 0 then
          let sz := Z.min info_size sizeof_xdp_link_info in
          Some (take (Z.to_nat sz) (store_info (info xdp_id)) ++ replicate (Z.to_nat (info_size - sz)) 0)
        else None in
      Some (ret, stored, sys_close sock w)
  end.

(** The result and what was stored at [prog_id]. *)
Definition bpf_get_link_xdp_id (fuel : nat) (stack : list Z) (ifindex flags : Z) (w : W)
    : option (Z * option Z * W) :=
  '(ret, stored, w) ← bpf_get_link_xdp_info fuel stack ifindex sizeof_xdp_link_info flags w;
  if ret =? 0 then
    bs ← stored;
    i ← load_info bs;
    Some (ret, Some (get_xdp_id i flags), w)
  else Some (ret, None, w).
End Queries.

(** ** What the kernel tells of a link *)

Definition RTM_NEWLINK : Z := 16.

(** A link: its [struct ifinfomsg], and its attributes, among them what its XDP
    attribute holds. *)
Record link := Link {
  l_type : Z; l_index : Z; l_flags : Z; l_change : Z;
  l_before : list (Z * list Z); l_xdp : option (list (Z * list Z)); l_after : list (Z * list Z);
}.

(** The payload of the last attribute of a type. *)
Definition value_of (type : Z) (l : list (Z * list Z)) : option (list Z) :=
  snd <$> list.last (List.filter (of_type type) l).

Section Links.
Context `{HostOrder}.

Definition l_header (l : link) : list Z :=
  [AF_UNSPEC; 0] ++ store 2 (l_type l) ++ store 4 (l_index l) ++ store 4 (l_flags l) ++ store 4 (l_change l).

Definition l_attrs (l : link) : list (Z * list Z) :=
  l_before l ++
  match l_xdp l with Some x => [(Z.lor NLA_F_NESTED IFLA_XDP, enc_attrs x)] | None => [] end ++
  l_after l.

Definition link_msg (nl_pid seq : Z) (l : link) : nlmsg :=
  Msg RTM_NEWLINK NLM_F_MULTI seq nl_pid (l_header l ++ enc_attrs (l_attrs l)).

(** The identifiers are words and the mode is a byte, where they are there. *)
Definition xdp_ok (x : list (Z * list Z)) : Prop :=
  x <> [] /\ Forall encodable x /\ Forall (fun a => Forall byte_ok (snd a)) x /\
  (forall v, value_of IFLA_XDP_ATTACHED x = Some v -> length v = 1%nat) /\
  forall t v, IFLA_XDP_PROG_ID <= t <= IFLA_XDP_HW_PROG_ID ->
    value_of t x = Some v -> length v = 4%nat.

Definition link_ok (l : link) : Prop :=
  - 2 ^ 31 <= l_index l < 2 ^ 31 /\ Forall encodable (l_attrs l) /\
  Forall (fun a => of_type IFLA_XDP a = false) (l_before l ++ l_after l) /\
  match l_xdp l with Some x => xdp_ok x | None => True end.

(** What [get_xdp_info] keeps of a link. *)
Definition read_id (x : list (Z * list Z)) (type : Z) (set : Z -> xdp_link_info -> xdp_link_info)
    (i : xdp_link_info) : xdp_link_info :=
  match value_of type x with Some v => set (load v) i | None => i end.

Definition xdp_info (x : list (Z * list Z)) (i : xdp_link_info) : xdp_link_info :=
  match value_of IFLA_XDP_ATTACHED x with
  | None => i
  | Some v =>
      let mode := le_val v in
      let i := set_attach_mode mode i in
      if mode =? XDP_ATTACHED_NONE then i else
      read_id x IFLA_XDP_HW_PROG_ID set_hw_prog_id
        (read_id x IFLA_XDP_DRV_PROG_ID set_drv_prog_id
          (read_id x IFLA_XDP_SKB_PROG_ID set_skb_prog_id
            (read_id x IFLA_XDP_PROG_ID set_prog_id i)))
  end.

Definition note_link (l : link) (c : xdp_id_md) : xdp_id_md :=
  if negb (ifindex c =? 0) && negb (ifindex c =? l_index l) then c else
  match l_xdp l with
  | None => c
  | Some x => Md (ifindex c) (flags c) (xdp_info x (info c))
  end.

(** *** One link *)

Lemma l_header_length l : length (l_header l) = 16%nat.
Proof. unfold l_header. by rewrite !length_app, !length_store. Qed.

Lemma read_index buf off l :
  - 2 ^ 31 <= l_index l < 2 ^ 31 -> read_bytes buf off (length (l_header l)) = Some (l_header l) ->
  i32 <$> read32 buf (off + 4) = Some (l_index l).
Proof.
  intros Hl Hr. unfold read32. rewrite (read_bytes_within _ _ _ 4 4 (store 4 (l_index l)) Hr).
  - cbn [fmap option_fmap option_map]. rewrite load_store. f_equal. unfold i32.
    change (2 ^ (8 * Z.of_nat 4)) with (2 ^ 32). rewrite Zplus_mod_idemp_l, Z.mod_small by lia. lia.
  - unfold l_header. rewrite app_assoc. apply read_bytes_app; [|apply length_store].
    by rewrite length_app, length_store.
Qed.

Lemma value_of_xdp l :
  Forall (fun a => of_type IFLA_XDP a = false) (l_before l ++ l_after l) ->
  value_of IFLA_XDP (l_attrs l) = enc_attrs <$> l_xdp l.
Proof.
  intros Hno. apply Forall_app in Hno as [Hb Ha]. unfold value_of, l_attrs.
  assert (Hnil : forall k, Forall (fun a => of_type IFLA_XDP a = false) k ->
    List.filter (of_type IFLA_XDP) k = []).
  { intros k. induction 1 as [|a k Hak _ IH]; [done|]. cbn. by rewrite Hak. }
  rewrite !List.filter_app, (Hnil _ Hb), (Hnil _ Ha), app_nil_r. cbn [app]. by destruct (l_xdp l).
Qed.

Lemma field_u32_read buf xtb x type set i :
  has buf xtb type (value_of type x) -> (forall v, value_of type x = Some v -> length v = 4%nat) ->
  field_u32 buf xtb type set i = Some (read_id x type set i).
Proof.
  unfold field_u32, read_id. destruct (value_of type x) as [v|]; cbn [has]; intros Hv Hlen.
  - destruct (payload_read _ _ _ _ 4 Hv (Hlen v eq_refl)) as (p & -> & Hr).
    unfold libbpf_nla_getattr_u32, read32. rewrite Hr. done.
  - by rewrite Hv.
Qed.

Lemma read_xdp_attr_info buf tb c x :
  payload buf tb IFLA_XDP = Some (enc_attrs x) -> xdp_ok x -> Z.of_nat (length (enc_attrs x)) < 2 ^ 31 ->
  exists nla, tb_at tb IFLA_XDP = Some nla /\
    read_xdp_attr buf nla c = Some (0, Md (ifindex c) (flags c) (xdp_info x (info c))).
Proof.
  intros Hx (Hne & Henc & _ & Hatt & Hids) Hlen.
  destruct (nested_encoded _ _ _ _ IFLA_XDP_MAX Hx Hne Henc Hlen) as (nla & xtb & Hp & Hrun & Hvals); [done|].
  exists nla. split; [done|]. unfold read_xdp_attr. rewrite Hrun. cbn [mbind option_bind negb].
  unfold xdp_info. change (negb (0 =? 0)) with false. cbn [xorb].
  pose proof (Hvals IFLA_XDP_ATTACHED ltac:(by vm_compute)) as Ha.
  change (snd <$> list.last (List.filter (of_type IFLA_XDP_ATTACHED) x)) with
    (value_of IFLA_XDP_ATTACHED x) in Ha.
  destruct (value_of IFLA_XDP_ATTACHED x) as [v|] eqn:Ev; cbn [has] in Ha.
  2: { rewrite Ha. by destruct c. }
  destruct (payload_read _ _ _ _ 1 Ha (Hatt v eq_refl)) as (a & -> & Hr).
  unfold libbpf_nla_getattr_u8, read8. rewrite Hr. cbn [fmap option_fmap option_map mbind option_bind].
  destruct (le_val v =? XDP_ATTACHED_NONE); [done|].
  assert (Hfield : forall t set i, IFLA_XDP_PROG_ID <= t <= IFLA_XDP_HW_PROG_ID ->
    field_u32 buf xtb t set i = Some (read_id x t set i)).
  { intros t set i Ht. apply field_u32_read; [|intros v'; by apply Hids].
    apply Hvals. unfold IFLA_XDP_PROG_ID, IFLA_XDP_HW_PROG_ID, IFLA_XDP_MAX in *. lia. }
  do 4 (rewrite Hfield by (split; discriminate); cbn [mbind option_bind]). done.
Qed.

Lemma get_xdp_info_link buf msg tb c l :
  link_ok l -> read_bytes buf msg (length (l_header l)) = Some (l_header l) ->
  (forall t, 0 <= t <= IFLA_MAX -> has buf tb t (value_of t (l_attrs l))) ->
  get_xdp_info buf msg tb c = Some (0, note_link l c).
Proof.
  intros (Hix & Henc & Hno & Hxdp) Hhdr Htb. unfold get_xdp_info, note_link.
  rewrite (read_index _ _ l) by done. pose proof (Htb IFLA_XDP ltac:(by vm_compute)) as Hx.
  rewrite (value_of_xdp l Hno) in Hx.
  assert (match tb_at tb IFLA_XDP with None => Some (0, c) | Some nla => read_xdp_attr buf nla c end =
    Some (0, match l_xdp l with None => c | Some x => Md (ifindex c) (flags c) (xdp_info x (info c)) end))
    as ->.
  { unfold l_attrs in Henc. destruct (l_xdp l) as [x|]; cbn [fmap option_fmap option_map has] in Hx; [|by rewrite Hx].
    apply Forall_app in Henc as [_ Henc]. apply Forall_app in Henc as [Henc _].
    apply Forall_cons_iff in Henc as [[_ Hlen] _]. cbn [snd] in Hlen.
    destruct (read_xdp_attr_info buf tb c x Hx Hxdp ltac:(lia)) as (nla & -> & Hrun). exact Hrun. }
  destruct (ifindex c =? 0); cbn [mbind option_bind negb andb]; [done|].
  by destruct (negb (ifindex c =? l_index l)).
Qed.

(** *** The dump *)

Lemma dump_link_reads pre l post c nl_pid seq :
  link_ok l -> msg_ok (link_msg nl_pid seq l) -> nlmsg_size (link_msg nl_pid seq l) < 2 ^ 31 ->
  __dump_link_nlmsg get_xdp_info (pre ++ enc_msg (link_msg nl_pid seq l) ++ post) (length pre) c =
    Some (0, note_link l c).
Proof.
  intros Hl Hm Hsize. set (m := link_msg nl_pid seq l) in *.
  destruct (enc_msg_fields pre m post Hm ltac:(lia)) as (Hlen & _).
  destruct (body_parse pre m post (l_header l) (l_attrs l) IFLA_MAX) as (Hhdr & tb & Hrun & Hvals);
    try done; [apply Hl|].
  unfold __dump_link_nlmsg, __dump_nlmsg. rewrite Hlen. cbn [mbind option_bind].
  assert (nlmsg_size m = 32 + Z.of_nat (length (enc_attrs (l_attrs l)))) as Hn.
  { unfold nlmsg_size, m, link_msg, NLMSG_HDRLEN. cbn [m_body]. rewrite length_app, l_header_length. lia. }
  rewrite Hn in *. change (Z.of_nat sizeof_ifinfomsg + NLMSG_HDRLEN) with 32. rewrite i32_id by lia.
  rewrite l_header_length in Hrun. change (Z.to_nat (NLMSG_ALIGN (Z.of_nat sizeof_ifinfomsg))) with 16%nat.
  replace (32 + _ - _) with (Z.of_nat (length (enc_attrs (l_attrs l)))) by lia.
  rewrite Hrun. cbn [mbind option_bind]. change (negb (0 =? 0)) with false. cbv iota.
  by apply get_xdp_info_link.
Qed.

Definition is_done (m : nlmsg) : Prop := m_type m = NLMSG_DONE.
Definition link_or_done (nl_pid seq : Z) (m : nlmsg) : Prop :=
  is_done m \/ exists l, link_ok l /\ m = link_msg nl_pid seq l.

(** The handler on a message by itself. *)
Definition handle_link (m : nlmsg) (c : xdp_id_md) : Z * xdp_id_md :=
  default (0, c) (__dump_link_nlmsg get_xdp_info (enc_msg m) 0%nat c).

Lemma handle_link_note l c nl_pid seq :
  link_ok l -> msg_ok (link_msg nl_pid seq l) -> nlmsg_size (link_msg nl_pid seq l) < 2 ^ 31 ->
  handle_link (link_msg nl_pid seq l) c = (0, note_link l c).
Proof.
  intros Hl Hm Hsize. unfold handle_link. pose proof (dump_link_reads [] l [] c nl_pid seq Hl Hm Hsize) as E.
  cbn [app length] in E. rewrite app_nil_r in E. by rewrite E.
Qed.

Lemma links_handled nl_pid seq :
  handles (link_or_done nl_pid seq) (Some (__dump_link_nlmsg get_xdp_info)) (Some handle_link).
Proof.
  intros pre m post c Hm [Hd|(l & Hl & ->)] _ Hnd Hsize; [done|]. unfold sizeof_buf in Hsize.
  rewrite dump_link_reads, handle_link_note by (done || lia). done.
Qed.

(** A dump split over datagrams reads as its messages in a row. *)
Definition returned {C} (r : flow * C) : option (Z * C) :=
  match r with (Return ret, c) => Some (ret, c) | (UsedUp _, _) => None end.

Section Flat.
Context {C : Type} (h : option (nlmsg -> C -> Z * C)) (nl_pid seq : Z).

Lemma read_messages_app ms1 ms2 b c :
  read_messages h nl_pid seq (ms1 ++ ms2) b c =
    match read_messages h nl_pid seq ms1 b c with
    | (UsedUp b', c') => read_messages h nl_pid seq ms2 b' c'
    | r => r
    end.
Proof.
  revert b c. induction ms1 as [|m ms1 IH]; intros b c; [done|]. cbn [app read_messages].
  destruct (negb _); [done|]. destruct (negb _); [done|].
  destruct (_ =? NLMSG_ERROR); [destruct (_ =? 0); [apply IH|done]|].
  destruct (_ =? NLMSG_DONE); [done|]. destruct h as [f|]; [|apply IH].
  destruct (f m c) as [ret c']. destruct (negb _); [done|apply IH].
Qed.

Lemma read_multi ms b c :
  Forall (fun m => is_multi m = true) ms ->
  returned (read_messages h nl_pid seq ms b c) = returned (read_messages h nl_pid seq ms true c).
Proof. destruct 1 as [|m ms Hm _]; [done|]. cbn [read_messages]. rewrite Hm. by rewrite orb_true_r. Qed.

Lemma read_multi_flag ms b c b' c' :
  Forall (fun m => is_multi m = true) ms -> ms <> [] \/ b = true ->
  read_messages h nl_pid seq ms b c = (UsedUp b', c') -> b' = true.
Proof.
  intros Hms. revert b c. induction Hms as [|m ms Hm Hms IH]; intros b c Hne; cbn [read_messages].
  - intros [= <- <-]. by destruct Hne.
  - rewrite Hm, orb_true_r. destruct (negb _); [done|]. destruct (negb _); [done|].
    destruct (_ =? NLMSG_ERROR); [destruct (_ =? 0); [apply IH; by right|done]|].
    destruct (_ =? NLMSG_DONE); [done|]. destruct h as [f|]; [|apply IH; by right].
    destruct (f m c) as [ret c1]. destruct (negb _); [done|apply IH; by right].
Qed.

Lemma read_datagrams_flat ds c :
  Forall (fun d => d <> [] /\ Forall (fun m => is_multi m = true) d) ds ->
  read_datagrams h nl_pid seq ds c = returned (read_messages h nl_pid seq (concat ds) false c).
Proof.
  intros Hds. revert c. induction Hds as [|d ds [Hne Hd] Hds IH]; intros c; [done|].
  cbn [read_datagrams concat]. rewrite read_messages_app.
  destruct (read_messages h nl_pid seq d false c) as [fl c1] eqn:E. destruct fl as [b|r]; [|done].
  rewrite (read_multi_flag d false c b c1 Hd (or_introl Hne) E). rewrite IH. apply read_multi.
  apply Forall_concat. eapply Forall_impl; [|exact Hds]. by intros x [_ Hx].
Qed.
End Flat.

(** The links of a dump, noted one after the other. *)
Lemma read_links nl_pid seq ls b c dn :
  Forall link_ok ls -> Forall (fun l => msg_ok (link_msg nl_pid (u32 seq) l) /\
    nlmsg_size (link_msg nl_pid (u32 seq) l) < 2 ^ 31) ls ->
  is_done dn -> m_pid dn = nl_pid -> m_seq dn = u32 seq ->
  read_messages (Some handle_link) nl_pid seq ((link_msg nl_pid (u32 seq) <$> ls) ++ [dn]) b c =
    (Return 0, fold_left (fun c l => note_link l c) ls c).
Proof.
  intros Hls Hms Hd Hp Hs. revert b c.
  induction Hls as [|l ls Hl Hls IH]; intros b c; cbn [fmap list_fmap app read_messages fold_left].
  - by rewrite Hp, Hs, Hd, !Z.eqb_refl.
  - apply Forall_cons_iff in Hms as [[Hm Hsize] Hms]. rewrite (handle_link_note l c nl_pid (u32 seq)) by done.
    unfold link_msg at 1 2 3 4 5 6. cbn [m_pid m_seq m_type].
    rewrite !Z.eqb_refl. cbn [negb]. change (RTM_NEWLINK =? NLMSG_ERROR) with false.
    change (RTM_NEWLINK =? NLMSG_DONE) with false. change (negb (0 =? 0)) with false. cbv iota. by apply IH.
Qed.

(** The links of other interfaces leave no trace. *)
Lemma note_others ls c :
  ifindex c <> 0 -> (forall l, l ∈ ls -> l_index l <> ifindex c) ->
  fold_left (fun c l => note_link l c) ls c = c.
Proof.
  intros Hc. induction ls as [|l ls IH]; intros Hls; [done|]. cbn [fold_left].
  unfold note_link at 2. rewrite (proj2 (Z.eqb_neq (ifindex c) 0)) by done.
  rewrite (proj2 (Z.eqb_neq (ifindex c) (l_index l))) by (apply not_eq_sym, Hls; by left).
  cbn [negb andb]. apply IH. intros l' Hl'. apply Hls. by right.
Qed.

Lemma note_one ls l c :
  NoDup (l_index <$> ls) -> l ∈ ls -> l_index l = ifindex c -> ifindex c <> 0 ->
  fold_left (fun c l => note_link l c) ls c =
    match l_xdp l with None => c | Some x => Md (ifindex c) (flags c) (xdp_info x (info c)) end.
Proof.
  intros Hnd Hin Hix Hc. apply list_elem_of_split in Hin as (l1 & l2 & ->).
  rewrite fmap_app, fmap_cons in Hnd. apply list.NoDup_app in Hnd as (_ & Hl1 & Hnd).
  apply list.NoDup_cons in Hnd as [Hl2 _]. rewrite fold_left_app. cbn [fold_left].
  rewrite (note_others l1) by (done || (intros l' Hl' E; apply (Hl1 (l_index l'));
    [by apply list_elem_of_fmap_2|rewrite E, <- Hix; by left])).
  assert (note_link l c = match l_xdp l with None => c
    | Some x => Md (ifindex c) (flags c) (xdp_info x (info c)) end) as Hl.
  { unfold note_link. rewrite Hix, Z.eqb_refl. by rewrite andb_false_r. }
  assert (ifindex (note_link l c) = ifindex c) as Hi by (rewrite Hl; by destruct (l_xdp l)).
  rewrite note_others, Hl; [done|by rewrite Hi|].
  intros l' Hl' E. apply Hl2. rewrite Hi, <- Hix in E. rewrite <- E. by apply list_elem_of_fmap_2.
Qed.

(** *** The structure in memory *)

Definition info_ok (i : xdp_link_info) : Prop :=
  0 <= prog_id i < 2 ^ 32 /\ 0 <= drv_prog_id i < 2 ^ 32 /\ 0 <= hw_prog_id i < 2 ^ 32 /\
  0 <= skb_prog_id i < 2 ^ 32 /\ byte_ok (attach_mode i).

Lemma load_store_info i : info_ok i -> load_info (store_info i) = Some i.
Proof.
  intros (? & ? & ? & ? & Hm). unfold load_info, store_info.
  assert (Hread : forall pre v post off, length pre = off -> 0 <= v < 2 ^ 32 ->
    read32 (pre ++ store 4 v ++ post) off = Some v).
  { intros pre v post off Hoff Hv. rewrite read32_store by done. by rewrite Z.mod_small. }
  set (a := store 4 (prog_id i)). set (b := store 4 (drv_prog_id i)). set (c := store 4 (hw_prog_id i)).
  set (d := store 4 (skb_prog_id i)). set (bs := a ++ b ++ c ++ d ++ [attach_mode i; 0; 0; 0]).
  assert (read32 bs 0 = Some (prog_id i)) as -> by (by apply (Hread [])).
  assert (read32 bs 4 = Some (drv_prog_id i)) as -> by (apply Hread; [apply length_store|done]).
  assert (read32 bs 8 = Some (hw_prog_id i)) as ->.
  { unfold bs. rewrite (app_assoc a). apply Hread; [unfold a, b; solve_offset|done]. }
  assert (read32 bs 12 = Some (skb_prog_id i)) as ->.
  { unfold bs. rewrite (app_assoc a), (app_assoc (a ++ b)). apply Hread; [unfold a, b, c; solve_offset|done]. }
  assert (read8 bs 16 = Some (attach_mode i)) as ->.
  { unfold bs, read8. rewrite (app_assoc a), (app_assoc (a ++ b)), (app_assoc ((a ++ b) ++ c)).
    rewrite (read_bytes_app _ [attach_mode i] [0; 0; 0]) by ((unfold a, b, c, d; solve_offset) || done).
    cbn [fmap option_fmap option_map]. f_equal. unfold le_val. lia. }
  by destruct i.
Qed.

Lemma value_of_bytes t x v :
  Forall (fun a => Forall byte_ok (snd a)) x -> value_of t x = Some v -> Forall byte_ok v.
Proof.
  unfold value_of. intros Hx. destruct (list.last _) as [a|] eqn:E; [|done]. intros [= <-].
  apply last_Some in E as [l' E]. assert (In a (List.filter (of_type t) x)) as Hin
    by (rewrite E; apply in_or_app; right; by left).
  apply filter_In in Hin as [Hin _]. rewrite List.Forall_forall in Hx. by apply Hx.
Qed.

Lemma xdp_info_ok x : xdp_ok x -> info_ok (xdp_info x no_info).
Proof.
  intros (_ & _ & Hb & Hatt & Hids). unfold xdp_info.
  destruct (value_of IFLA_XDP_ATTACHED x) as [v|] eqn:Ev; [|by vm_compute].
  assert (Hmode : byte_ok (le_val v)).
  { pose proof (le_val_bounds v (value_of_bytes _ _ _ Hb Ev)) as Hv. by rewrite (Hatt v eq_refl) in Hv. }
  assert (Hid : forall t w, IFLA_XDP_PROG_ID <= t <= IFLA_XDP_HW_PROG_ID -> value_of t x = Some w ->
    0 <= load w < 2 ^ 32).
  { intros t w Ht Hw. pose proof (load_bounds w (value_of_bytes _ _ _ Hb Hw)) as Hv.
    by rewrite (Hids t w Ht Hw) in Hv. }
  destruct (le_val v =? XDP_ATTACHED_NONE); [by repeat split; try apply Hmode|].
  unfold read_id, info_ok.
  destruct (value_of IFLA_XDP_PROG_ID x) eqn:?, (value_of IFLA_XDP_SKB_PROG_ID x) eqn:?,
    (value_of IFLA_XDP_DRV_PROG_ID x) eqn:?, (value_of IFLA_XDP_HW_PROG_ID x) eqn:?;
    cbn [prog_id drv_prog_id hw_prog_id skb_prog_id attach_mode set_prog_id set_skb_prog_id
      set_drv_prog_id set_hw_prog_id set_attach_mode no_info];
    repeat split; first [lia | apply Hmode | eapply Hid; [|eassumption]; split; discriminate].
Qed.

(** The program of a link for a mode: what the kernel told in the attribute of the
    mode when there are several, else in the attribute of the only one; 0 is none. *)
Definition installed (l : link) (flags : Z) : Z :=
  match l_xdp l with
  | None => 0
  | Some x =>
      let id t := match value_of t x with Some v => load v | None => 0 end in
      match value_of IFLA_XDP_ATTACHED x with
      | None => 0
      | Some v =>
          if le_val v =? XDP_ATTACHED_NONE then 0 else
          if negb (le_val v =? XDP_ATTACHED_MULTI) then id IFLA_XDP_PROG_ID else
          if negb (Z.land flags XDP_FLAGS_DRV_MODE =? 0) then id IFLA_XDP_DRV_PROG_ID else
          if negb (Z.land flags XDP_FLAGS_HW_MODE =? 0) then id IFLA_XDP_HW_PROG_ID else
          if negb (Z.land flags XDP_FLAGS_SKB_MODE =? 0) then id IFLA_XDP_SKB_PROG_ID else 0
      end
  end.

Lemma installed_info l fl :
  get_xdp_id (match l_xdp l with None => no_info | Some x => xdp_info x no_info end) fl = installed l fl.
Proof.
  unfold installed. destruct (l_xdp l) as [x|]; [|done]. unfold xdp_info.
  destruct (value_of IFLA_XDP_ATTACHED x) as [v|]; [|done].
  destruct (Z.eqb_spec (le_val v) XDP_ATTACHED_NONE) as [E|]; [by unfold get_xdp_id; rewrite E|].
  unfold read_id, get_xdp_id.
  destruct (value_of IFLA_XDP_PROG_ID x), (value_of IFLA_XDP_SKB_PROG_ID x),
    (value_of IFLA_XDP_DRV_PROG_ID x), (value_of IFLA_XDP_HW_PROG_ID x); done.
Qed.
End Links.

Section Query.
Context {W : Type} `{NlSys W} `{HostOrder}.

(** The flags of a query: no bit outside the mask and at most one mode. *)
Definition query_flags (flags : Z) : Prop :=
  Z.land flags (Z.lnot XDP_FLAGS_MASK) = 0 /\
  Z.land flags XDP_FLAGS_MODES ∈ [0; XDP_FLAGS_SKB_MODE; XDP_FLAGS_DRV_MODE; XDP_FLAGS_HW_MODE].

(** A dump: the links, split over datagrams in any way, and the end. *)
Definition link_dump (nl_pid seq : Z) (ls : list link) (ds : list (list nlmsg)) : Prop :=
  exists dn, concat ds = (link_msg nl_pid seq <$> ls) ++ [dn] /\
    is_done dn /\ m_pid dn = nl_pid /\ m_seq dn = seq /\ is_multi dn = true.

Lemma link_dump_datagrams nl_pid seq ls ds :
  link_dump nl_pid seq ls ds -> Forall link_ok ls -> Forall (datagram_ok (fun _ => True)) ds ->
  Forall (datagram_ok (link_or_done nl_pid seq)) ds /\
  Forall (fun d => d <> [] /\ Forall (fun m => is_multi m = true) d) ds /\
  Forall (fun l => msg_ok (link_msg nl_pid seq l) /\ nlmsg_size (link_msg nl_pid seq l) < 2 ^ 31) ls.
Proof.
  intros (dn & Hc & Hd & _ & _ & Hm) Hls Hds. rewrite !List.Forall_forall in *.
  assert (Hall : forall d m, In d ds -> In m d -> link_or_done nl_pid seq m /\ is_multi m = true).
  { intros d m Hdin Hmin. assert (In m (concat ds)) as Hin by (apply in_concat; by exists d).
    rewrite Hc in Hin. apply in_app_or in Hin as [Hin|[<-|[]]]; [|split; [by left|done]].
    apply in_map_iff in Hin as (l & <- & Hl). split; [right; exists l; split; [by apply Hls|done]|done]. }
  split; [|split].
  - intros d Hdin. destruct (Hds d Hdin) as (? & ? & _ & ? & ?). split; [done|]. split; [done|].
    split; [|done]. apply List.Forall_forall. intros m Hmin. by eapply Hall.
  - intros d Hdin. split; [by apply Hds|]. apply List.Forall_forall. intros m Hmin. by eapply Hall.
  - intros l Hl. assert (In (link_msg nl_pid seq l) (concat ds)) as Hin
      by (rewrite Hc; apply in_or_app; left; by apply (in_map (link_msg nl_pid seq))).
    apply in_concat in Hin as (d & Hdin & Hmin). destruct (Hds d Hdin) as (_ & Hok & _ & Hsz & _).
    rewrite List.Forall_forall in Hok. split; [by apply Hok|].
    apply in_split in Hmin as (d1 & d2 & ->). unfold enc_msgs in Hsz.
    rewrite fmap_app, fmap_cons, concat_app in Hsz. cbn [concat] in Hsz. rewrite !length_app in Hsz.
    pose proof (length_enc_msg (link_msg nl_pid seq l)). pose proof (NLMSG_ALIGN_bounds (nlmsg_size (link_msg nl_pid seq l))).
    unfold sizeof_buf in Hsz. lia.
Qed.

(** The query dumps the links. *)
Lemma get_link_dumps fuel stack ix fl sock nl_pid n w w1 w2 ls ds :
  let seq := i32 (sys_time w) in
  sys_send sock (dump_request RTM_GETLINK seq (ifinfomsg AF_PACKET 0)) w = (n, w1) -> 0 <= n ->
  delivers sock (enc_msgs <$> ds) w1 w2 -> Forall (datagram_ok (fun _ => True)) ds ->
  link_dump nl_pid (u32 seq) ls ds -> Forall link_ok ls ->
  length stack = sizeof_buf -> Forall byte_ok stack -> (length ds <= fuel)%nat ->
  exists w', libbpf_nl_get_link fuel stack sock nl_pid get_xdp_info (Md ix fl no_info) w =
    Some (0, fold_left (fun c l => note_link l c) ls (Md ix fl no_info), w').
Proof.
  intros seq Hsend Hn Hdel Hds Hdump Hls Hstack Hbytes Hfuel.
  destruct (link_dump_datagrams _ _ _ _ Hdump Hls Hds) as (HP & Hmulti & Hms).
  destruct Hdump as (dn & Hc & Hd & Hp & Hs & _).
  unfold libbpf_nl_get_link, request_dump. fold seq. rewrite Hsend, (proj2 (Z.ltb_ge _ _)) by lia.
  set (c := Md ix fl no_info).
  assert (Hmean : read_datagrams (Some handle_link) nl_pid seq ds c =
    Some (0, fold_left (fun c l => note_link l c) ls c)).
  { rewrite read_datagrams_flat, Hc by done. by rewrite read_links. }
  destruct (netlink_recv_reads _ _ _ nl_pid seq sock ds (links_handled nl_pid (u32 seq)) HP fuel stack c
    w1 w2 _ _ Hdel Hstack Hbytes Hfuel Hmean) as (k & w' & Hrun & _).
  by exists w'.
Qed.

(** C26. [bpf_get_link_xdp_id] answers the identifier of the program the kernel has on
    the interface, 0 if it has none; the mode asked for matters only when the interface
    says that it has programs in several modes (0 when none is asked for), otherwise the
    answer is the one program it has, whatever its mode: when
    the socket opens and the kernel answers with a dump of its links (which name an
    interface once), however the dump is split over datagrams and in whatever order
    the links come. *)
Theorem get_link_xdp_id_answers fuel stack ix fl sock nl_pid n w w1 w2 w3 ls l ds :
  let seq := i32 (sys_time w1) in
  query_flags fl -> libbpf_netlink_open w = (inr (sock, nl_pid), w1) ->
  sys_send sock (dump_request RTM_GETLINK seq (ifinfomsg AF_PACKET 0)) w1 = (n, w2) -> 0 <= n ->
  delivers sock (enc_msgs <$> ds) w2 w3 -> Forall (datagram_ok (fun _ => True)) ds ->
  link_dump nl_pid (u32 seq) ls ds -> Forall link_ok ls -> NoDup (l_index <$> ls) ->
  l ∈ ls -> l_index l = ix -> ix <> 0 ->
  length stack = sizeof_buf -> Forall byte_ok stack -> (length ds <= fuel)%nat ->
  exists w', bpf_get_link_xdp_id fuel stack ix fl w = Some (0, Some (installed l fl), w').
Proof.
  intros seq [Hmask Hmode] Hopen Hsend Hn Hdel Hds Hdump Hls Hnd Hl Hix Hne Hstack Hbytes Hfuel.
  destruct (get_link_dumps fuel stack ix (Z.land fl XDP_FLAGS_MODES) sock nl_pid n w1 w2 w3 ls ds
    Hsend Hn Hdel Hds Hdump Hls Hstack Hbytes Hfuel) as [w' Hrun].
  exists (sys_close sock w'). unfold bpf_get_link_xdp_id, bpf_get_link_xdp_info.
  rewrite Hmask. change (negb (0 =? 0) || (sizeof_xdp_link_info =? 0)) with false. cbv iota.
  assert (negb (Z.land fl XDP_FLAGS_MODES =? 0) &&
    negb (Z.land (Z.land fl XDP_FLAGS_MODES) (u32 (Z.land fl XDP_FLAGS_MODES - 1)) =? 0) = false) as ->.
  { rewrite !elem_of_cons, elem_of_nil in Hmode. by destruct Hmode as [-> | [-> | [-> | [-> | []]]]]. }
  rewrite Hopen, Hrun, (note_one ls l) by done. cbn [mbind option_bind ifindex flags info].
  change (0 =? 0) with true. cbv iota. cbn [mbind option_bind].
  change (Z.min sizeof_xdp_link_info sizeof_xdp_link_info) with 20.
  change (replicate (Z.to_nat (sizeof_xdp_link_info - 20)) 0) with (@nil Z). rewrite app_nil_r.
  set (i := match l_xdp l with None => no_info | Some x => xdp_info x no_info end).
  assert (info (match l_xdp l with None => Md ix (Z.land fl XDP_FLAGS_MODES) no_info
    | Some x => Md ix (Z.land fl XDP_FLAGS_MODES) (xdp_info x no_info) end) = i) as ->
    by (unfold i; by destruct (l_xdp l)).
  assert (length (store_info i) = 20%nat) as Hlen by (unfold store_info; by rewrite !length_app, !length_store).
  rewrite firstn_all2 by (rewrite Hlen; vm_compute; lia). rewrite load_store_info.
  - cbn [mbind option_bind]. by rewrite <- installed_info.
  - unfold i. rewrite List.Forall_forall in Hls. destruct (Hls l) as (_ & _ & _ & Hx);
      [by apply list_elem_of_In|]. destruct (l_xdp l); [by apply xdp_info_ok|by vm_compute].
Qed.
End Query.

(** The query leaves no socket open either. *)
Lemma get_link_xdp_info_socks {W} `{NlLaws W} `{HostOrder} fuel stack ix size fl w ret stored w' :
  bpf_get_link_xdp_info fuel stack ix size fl w = Some (ret, stored, w') -> open_socks w' = open_socks w.
Proof.
  unfold bpf_get_link_xdp_info. destruct (_ || _); [by intros [= <- <- <-]|].
  destruct (_ && _); [by intros [= <- <- <-]|].
  destruct (libbpf_netlink_open w) as [opened w1] eqn:E1. apply netlink_open_socks in E1.
  destruct opened as [err|[sock pid]]; [by intros [= <- <- <-]|]. destruct E1 as [Hnew Hw1].
  unfold libbpf_nl_get_link, request_dump. destruct (sys_send _ _ w1) as [r w2] eqn:E2. apply send_keeps in E2.
  destruct (r <? 0); cbn [mbind option_bind]; [intros [= <- <- <-]; apply close_opened; congruence|].
  destruct (bpf_netlink_recv _ _ _ _ _ _ _ _) as [[[r3 c3] w3]|] eqn:E3; [|done].
  apply netlink_recv_socks in E3. cbn [mbind option_bind]. intros [= <- <- <-]. apply close_opened; congruence.
Qed.

Module NetlinkXdpExamples.
Import NetlinkExamples.
#[local] Existing Instance NetlinkExamples.host.

(** The loopback interface, and one with program 9 in generic mode. *)
Definition lo : link := Link 772 1 73 0 [(3, [108; 111; 0])] None [].
Definition eth0 : link := Link 1 2 4163 0 [(3, [101; 116; 104; 48; 0])]
  (Some [(IFLA_XDP_SKB_PROG_ID, store 4 9); (IFLA_XDP_ATTACHED, [2]); (IFLA_XDP_PROG_ID, store 4 9)])
  [(16, [6])].
Definition links : list link := [lo; eth0].
Definition last_msg : nlmsg := Msg NLMSG_DONE NLM_F_MULTI 1700000000 nl_port (store 4 0).
Definition datagrams : list (list nlmsg) :=
  [[link_msg nl_port 1700000000 lo]; [link_msg nl_port 1700000000 eth0; last_msg]].

Lemma lo_ok : link_ok lo.
Proof. unfold link_ok, encodable. repeat split; try (by vm_compute); repeat constructor; by vm_compute. Qed.

Lemma eth0_ok : link_ok eth0.
Proof.
  unfold link_ok, xdp_ok, encodable. repeat split; try (by vm_compute).
  1-4: repeat constructor; by vm_compute.
  - intros v E. vm_compute in E. by injection E as <-.
  - intros t v Ht. assert (t = 4 \/ t = 5 \/ t = 6 \/ t = 7) as [-> | [-> | [-> | ->]]]
      by (unfold IFLA_XDP_PROG_ID, IFLA_XDP_HW_PROG_ID in Ht; lia);
      intros E; vm_compute in E; first [discriminate|by injection E as <-].
Qed.

Lemma datagrams_ok : Forall (datagram_ok (fun _ => True)) datagrams.
Proof.
  unfold datagrams, datagram_ok. repeat constructor; try done; try (vm_compute; lia);
    repeat (constructor || done); by vm_compute.
Qed.

Lemma get_link_xdp_id_answers_witness :
  exists w', bpf_get_link_xdp_id 2 stack 2 XDP_FLAGS_SKB_MODE (Net ∅ [] (enc_msgs <$> datagrams)) =
    Some (0, Some 9, w').
Proof.
  refine (get_link_xdp_id_answers 2 stack 2 XDP_FLAGS_SKB_MODE 3 nl_port 32
    (Net ∅ [] (enc_msgs <$> datagrams)) (Net {[ 3 ]} [] (enc_msgs <$> datagrams))
    (Net {[ 3 ]} [dump_request RTM_GETLINK 1700000000 (ifinfomsg AF_PACKET 0)] (enc_msgs <$> datagrams))
    (Net {[ 3 ]} [dump_request RTM_GETLINK 1700000000 (ifinfomsg AF_PACKET 0)] [])
    links eth0 datagrams _ _ _ _ _ datagrams_ok _ _ _ _ _ _ _ _ _).
  - split; [done|]. rewrite !elem_of_cons. by right; left.
  - by vm_compute.
  - by vm_compute.
  - lia.
  - eexists. split; [vm_compute; reflexivity|]. split; [vm_compute; lia|].
    eexists. split; [vm_compute; reflexivity|]. split; [vm_compute; lia|done].
  - by exists last_msg.
  - constructor; [apply lo_ok|constructor; [apply eth0_ok|constructor]].
  - by apply NoDup_ListNoDup; repeat constructor; cbn; intuition discriminate.
  - by right; left.
  - done.
  - done.
  - apply stack_ok.
  - apply stack_ok.
  - done.
Defined.
End NetlinkXdpExamples.
