(* ===== verification/XskRing.v ===== *)
(** * AF_XDP rings

    Models the rings of [libbpf/src/xsk.h] and how [xsk.c] sets them up: arrays
    shared with the kernel, a free-running 32-bit index for each side, and what the
    process last saw of the other one.  The kernel is the other side: it takes the
    oldest entry of a ring the process fills ([fill], [tx]) and puts entries in a
    ring the process empties ([rx], [comp]).  The accesses are sequentially
    consistent, as the barriers of the source are there to make them appear. *)

From S2P Require Import Prelude.

(** The private half of a ring: [struct xsk_ring_prod], [struct xsk_ring_cons]. *)
Record ring := Ring { cached_prod : Z; cached_cons : Z; mask : Z; size : Z }.

(** The half shared with the kernel: what [producer], [consumer] and [ring] point to. *)
Record shared (A : Type) := Shared { producer : Z; consumer : Z; entries : list A }.
Arguments Shared {A}.
Arguments producer {A}.
Arguments consumer {A}.
Arguments entries {A}.

Definition set_cached_prod (v : Z) (r : ring) : ring := Ring v (cached_cons r) (mask r) (size r).
Definition set_cached_cons (v : Z) (r : ring) : ring := Ring (cached_prod r) v (mask r) (size r).

(** [xsk_umem__create] and [xsk_socket__create] on a ring the caller zeroed. *)
Definition init_prod (ring_size : Z) : ring := Ring 0 ring_size (u32 (ring_size - 1)) ring_size.
Definition init_cons (ring_size : Z) : ring := Ring 0 0 (u32 (ring_size - 1)) ring_size.

(** [&ring[idx & mask]]: [xsk_ring_prod__fill_addr], [xsk_ring_cons__comp_addr],
    [xsk_ring_prod__tx_desc], [xsk_ring_cons__rx_desc]. *)
Definition entry_at (r : ring) (idx : Z) : nat := Z.to_nat (Z.land idx (mask r)).

Section Operations.
Context {A : Type}.

Definition xsk_prod_nb_free (r : ring) (s : shared A) (nb : Z) : Z * ring :=
  let free_entries := u32 (cached_cons r - cached_prod r) in
  if nb <=? free_entries then (free_entries, r) else
  let r := set_cached_cons (u32 (consumer s + size r)) r in
  (u32 (cached_cons r - cached_prod r), r).

(** [nb] is a [size_t]; the result, [*idx] when it is set, the ring. *)
Definition xsk_ring_prod__reserve (r : ring) (s : shared A) (nb : Z) : Z * option Z * ring :=
  let '(free_entries, r) := xsk_prod_nb_free r s (u32 nb) in
  if free_entries <? nb then (0, None, r) else
  (nb, Some (cached_prod r), set_cached_prod (u32 (cached_prod r + nb)) r).

Definition xsk_ring_prod__submit (s : shared A) (nb : Z) : shared A :=
  Shared (u32 (producer s + nb)) (consumer s) (entries s).

Definition xsk_cons_nb_avail (r : ring) (s : shared A) (nb : Z) : Z * ring :=
  let entries := u32 (cached_prod r - cached_cons r) in
  let '(entries, r) :=
    if entries =? 0 then
      let r := set_cached_prod (producer s) r in (u32 (cached_prod r - cached_cons r), r)
    else (entries, r) in
  (if nb <? entries then nb else entries, r).

Definition xsk_ring_cons__peek (r : ring) (s : shared A) (nb : Z) : Z * option Z * ring :=
  let '(entries, r) := xsk_cons_nb_avail r s (u32 nb) in
  if 0 <? entries
  then (entries, Some (cached_cons r), set_cached_cons (u32 (cached_cons r + entries)) r)
  else (entries, None, r).

Definition xsk_ring_cons__release (s : shared A) (nb : Z) : shared A :=
  Shared (producer s) (u32 (consumer s + nb)) (entries s).
End Operations.

(** ** Addresses in the unaligned mode *)

Definition XSK_UNALIGNED_BUF_OFFSET_SHIFT : Z := 48.
Definition XSK_UNALIGNED_BUF_ADDR_MASK : Z := Z.shiftl 1 XSK_UNALIGNED_BUF_OFFSET_SHIFT - 1.

Definition xsk_umem__extract_addr (addr : Z) : Z := Z.land addr XSK_UNALIGNED_BUF_ADDR_MASK.
Definition xsk_umem__extract_offset (addr : Z) : Z := Z.shiftr addr XSK_UNALIGNED_BUF_OFFSET_SHIFT.
Definition xsk_umem__add_offset_to_addr (addr : Z) : Z :=
  u64 (xsk_umem__extract_addr addr + xsk_umem__extract_offset addr).

(** ** Indices *)

Section Indices.
Context (k : Z) (Hk : 0 <= k <= 31).

(** A ring of [2 ^ k] entries. *)
Definition ring_of (r : ring) : Prop := size r = 2 ^ k /\ mask r = 2 ^ k - 1.

Lemma size_bounds : 1 <= 2 ^ k <= 2 ^ 31.
Proof.
  pose proof (Z.pow_pos_nonneg 2 k ltac:(lia) ltac:(lia)).
  pose proof (Z.pow_le_mono_r 2 k 31 ltac:(lia) ltac:(lia)). lia.
Qed.

Lemma init_prod_ring : ring_of (init_prod (2 ^ k)).
Proof. pose proof size_bounds. split; [done|]. cbn. apply u32_id. lia. Qed.

Lemma init_cons_ring : ring_of (init_cons (2 ^ k)).
Proof. apply init_prod_ring. Qed.

(** The place of an index that has run for a long time. *)
Lemma entry_at_u32 r i : ring_of r -> 0 <= i -> entry_at r (u32 i) = Z.to_nat (i mod 2 ^ k).
Proof.
  intros [_ Hm] Hi. unfold entry_at, u32. rewrite Hm.
  replace (2 ^ k - 1) with (Z.ones k) by (rewrite Z.ones_equiv; lia).
  rewrite Z.land_ones by lia. f_equal. apply Z.mod_mod_divide.
  exists (2 ^ (32 - k)). rewrite <- Z.pow_add_r by lia. f_equal. lia.
Qed.

Lemma mod_differs i j : 0 < j - i < 2 ^ k -> i mod 2 ^ k <> j mod 2 ^ k.
Proof.
  intros Hij E. pose proof size_bounds. assert ((j - i) mod 2 ^ k = 0) as Hz.
  { rewrite Zminus_mod, E, Z.sub_diag. apply Z.mod_0_l. lia. }
  rewrite Z.mod_small in Hz by lia. lia.
Qed.

(** The distance of two indices survives the wrap-around. *)
Lemma u32_distance a b : 0 <= a - b < 2 ^ 32 -> u32 (u32 a - u32 b) = a - b.
Proof. intros H. unfold u32. rewrite <- Zminus_mod. by apply Z.mod_small. Qed.

Lemma u32_add a b : u32 (u32 a + b) = u32 (a + b).
Proof. apply Zplus_mod_idemp_l. Qed.
End Indices.

(** ** What the slots hold *)

Section Slots.
Context {A : Type} (k : Z) (Hk : 0 <= k <= 31) (r : ring) (Hr : ring_of k r).

(** The slots of the indices from [lo] to [hi] hold the entries of the log. *)
Definition holds (es : list A) (log : list A) (lo hi : nat) : Prop :=
  forall i, (lo <= i < hi)%nat -> es !! entry_at r (u32 (Z.of_nat i)) = log !! i.

Lemma entry_at_in i : (entry_at r (u32 (Z.of_nat i)) < Z.to_nat (2 ^ k))%nat.
Proof.
  rewrite (entry_at_u32 k Hk) by (done || lia). pose proof (size_bounds k Hk).
  pose proof (Z.mod_pos_bound (Z.of_nat i) (2 ^ k)). lia.
Qed.

Lemma entry_at_differs i j : (i < j)%nat -> Z.of_nat j < Z.of_nat i + 2 ^ k ->
  entry_at r (u32 (Z.of_nat i)) <> entry_at r (u32 (Z.of_nat j)).
Proof.
  intros Hij Hsize E. rewrite !(entry_at_u32 k Hk) in E by (done || lia). pose proof (size_bounds k Hk).
  pose proof (Z.mod_pos_bound (Z.of_nat i) (2 ^ k)). pose proof (Z.mod_pos_bound (Z.of_nat j) (2 ^ k)).
  apply (mod_differs k Hk (Z.of_nat i) (Z.of_nat j)); lia.
Qed.

(** Writing the slot of an index after them, less than a round ahead. *)
Lemma holds_write es log lo hi j a :
  holds es log lo hi -> (hi <= j)%nat -> Z.of_nat j < Z.of_nat lo + 2 ^ k ->
  holds (<[entry_at r (u32 (Z.of_nat j)) := a]> es) log lo hi.
Proof.
  intros Hh Hj Hsize i Hi. rewrite list_lookup_insert_ne; [by apply Hh|].
  apply not_eq_sym, entry_at_differs; lia.
Qed.

Lemma holds_append es log xs lo :
  holds es log lo (length log) -> holds es (log ++ xs) (length log) (length (log ++ xs)) ->
  holds es (log ++ xs) lo (length (log ++ xs)).
Proof.
  intros H1 H2 i Hi. destruct (decide (i < length log)%nat) as [Hlt|Hge].
  - rewrite lookup_app_l by done. apply H1. lia.
  - apply H2. lia.
Qed.

Lemma holds_shrink es log lo hi lo' hi' :
  holds es log lo hi -> (lo <= lo')%nat -> (hi' <= hi)%nat -> holds es log lo' hi'.
Proof. intros Hh ? ? i Hi. apply Hh. lia. Qed.

Lemma holds_read es log lo : holds es log lo (length log) -> (lo < length log)%nat ->
  exists a, es !! entry_at r (u32 (Z.of_nat lo)) = Some a /\ log !! lo = Some a.
Proof.
  intros Hh Hlo. destruct (lookup_lt_is_Some_2 log lo Hlo) as [a Ha].
  exists a. split; [|done]. rewrite <- Ha. apply Hh. lia.
Qed.

(** The entries of [n] indices from [lo] on. *)
Definition read_from (es : list A) (lo n : nat) : option (list A) :=
  mapM (fun j => es !! entry_at r (u32 (Z.of_nat (lo + j)))) (seq 0 n).

Lemma read_from_lookup es lo n xs : read_from es lo n = Some xs ->
  length xs = n /\ forall j, (j < n)%nat -> es !! entry_at r (u32 (Z.of_nat (lo + j))) = xs !! j.
Proof.
  intros Hx. apply mapM_Some in Hx. pose proof (list.Forall2_length _ _ _ Hx) as Hl. rewrite length_seq in Hl.
  split; [done|]. intros j Hj. destruct (lookup_lt_is_Some_2 xs j ltac:(lia)) as [x Hxj]. rewrite Hxj.
  destruct (list.Forall2_lookup_r _ _ _ _ _ Hx Hxj) as (j' & Hj' & He).
  apply lookup_seq in Hj' as [-> _]. done.
Qed.

Lemma read_from_holds es log lo n xs : holds es log lo (lo + n) -> (lo + n <= length log)%nat ->
  read_from es lo n = Some xs -> xs = take n (drop lo log).
Proof.
  intros Hh Hlen Hx. destruct (read_from_lookup _ _ _ _ Hx) as [Hl Hj]. apply list_eq. intros j.
  destruct (decide (j < n)%nat) as [Hlt|Hge].
  - rewrite <- (Hj j Hlt), lookup_take_lt, lookup_drop by done. apply Hh. lia.
  - rewrite (lookup_ge_None_2 xs) by lia. symmetry. apply lookup_ge_None_2. rewrite length_take. lia.
Qed.
End Slots.

(** ** A ring the process fills *)

Section Filling.
Context {A : Type} (k : Z) (Hk : 0 <= k <= 31).

(** The ring, and what cannot be seen in it: the entries submitted, those the
    kernel has taken, how many places were ever reserved. *)
Record filling := Filling { f_ring : ring; f_mem : shared A; sent : list A; taken : list A; reserved : nat }.

Definition f_start (es : list A) : filling :=
  Filling (init_prod (2 ^ k)) (Shared 0 0 es) [] [] 0.

(** The process reserves any number of places, writes those it has reserved and not
    submitted in any order and as often as it likes, and submits some of them; the
    kernel takes the oldest entry when the indices differ. *)
Inductive f_step : filling -> filling -> Prop :=
  | FReserve r s sn tk rs nb n idx r' :
      0 <= nb < 2 ^ 64 -> xsk_ring_prod__reserve r s nb = (n, idx, r') ->
      f_step (Filling r s sn tk rs) (Filling r' s sn tk (rs + Z.to_nat n))
  | FWrite r s sn tk rs j a :
      (length sn <= j < rs)%nat ->
      f_step (Filling r s sn tk rs)
        (Filling r (Shared (producer s) (consumer s)
                      (<[entry_at r (u32 (Z.of_nat j)) := a]> (entries s))) sn tk rs)
  | FSubmit r s sn tk rs n xs :
      (length sn + n <= rs)%nat -> read_from r (entries s) (length sn) n = Some xs ->
      f_step (Filling r s sn tk rs)
        (Filling r (xsk_ring_prod__submit s (Z.of_nat n)) (sn ++ xs) tk rs)
  | FTake r s sn tk rs a :
      producer s <> consumer s -> entries s !! entry_at r (consumer s) = Some a ->
      f_step (Filling r s sn tk rs)
        (Filling r (Shared (producer s) (u32 (consumer s + 1)) (entries s)) sn (tk ++ [a]) rs).

Record f_inv (f : filling) : Prop := {
  f_ring_of : ring_of k (f_ring f);
  f_entries : Z.of_nat (length (entries (f_mem f))) = 2 ^ k;
  f_producer : producer (f_mem f) = u32 (Z.of_nat (length (sent f)));
  f_consumer : consumer (f_mem f) = u32 (Z.of_nat (length (taken f)));
  f_cached_prod : cached_prod (f_ring f) = u32 (Z.of_nat (reserved f));
  f_cached_cons : exists K, cached_cons (f_ring f) = u32 K /\
    Z.of_nat (reserved f) <= K <= Z.of_nat (length (taken f)) + 2 ^ k;
  f_order : (length (taken f) <= length (sent f) <= reserved f)%nat;
  f_holds : holds (f_ring f) (entries (f_mem f)) (sent f) (length (taken f)) (length (sent f));
  f_taken : taken f = take (length (taken f)) (sent f);
}.

Lemma f_start_inv es : Z.of_nat (length es) = 2 ^ k -> f_inv (f_start es).
Proof.
  intros Hes. pose proof (size_bounds k Hk). constructor; cbn; try done; [by apply init_prod_ring| |].
  - exists (2 ^ k). cbn. rewrite u32_id by lia. split; [done|lia].
  - intros i Hi. lia.
Qed.

(** [reserve] gives all the places asked for when there are so many, counting those
    the kernel has freed by now, and none otherwise; they are the next indices. *)
Lemma reserve_places f nb :
  f_inv f -> 0 <= nb < 2 ^ 64 ->
  let free := Z.of_nat (length (taken f)) + 2 ^ k - Z.of_nat (reserved f) in
  exists r', ring_of k r' /\
    (exists K, cached_cons r' = u32 K /\
       Z.of_nat (reserved f) + (if nb <=? free then nb else 0) <= K <= Z.of_nat (length (taken f)) + 2 ^ k) /\
    cached_prod r' = u32 (Z.of_nat (reserved f) + if nb <=? free then nb else 0) /\
    xsk_ring_prod__reserve (f_ring f) (f_mem f) nb =
      if nb <=? free then (nb, Some (u32 (Z.of_nat (reserved f))), r') else (0, None, r').
Proof.
  intros [Hring _ _ Hcons Hcp (K & Hcc & HK) Hord _ _] Hnb free. pose proof (size_bounds k Hk).
  unfold xsk_ring_prod__reserve, xsk_prod_nb_free. rewrite Hcc, Hcp, Hcons.
  assert (Hfree : u32 (u32 K - u32 (Z.of_nat (reserved f))) = K - Z.of_nat (reserved f))
    by (apply u32_distance; lia).
  assert (Hnb32 : 0 <= u32 nb <= nb).
  { unfold u32. pose proof (Z.mod_pos_bound nb (2 ^ 32)). pose proof (Z.mod_le nb (2 ^ 32)). lia. }
  destruct Hring as [Hsize Hmask]. rewrite Hfree, Hsize.
  set (C := Z.of_nat (length (taken f))) in *. set (R := Z.of_nat (reserved f)) in *.
  assert (Hrefresh : u32 (u32 (u32 C + 2 ^ k) - u32 R) = free).
  { rewrite u32_add, u32_distance; unfold free; lia. }
  assert (Hbig : u32 nb = nb \/ 2 ^ 32 <= nb)
    by (destruct (Z.lt_ge_cases nb (2 ^ 32)); [left; apply u32_id; lia|by right]).
  assert (Hfr : K - R <= free < 2 ^ 32) by (unfold free, R, C in *; lia).
  destruct (Z.leb_spec (u32 nb) (K - R)) as [Hle|Hgt].
  - destruct (Z.ltb_spec (K - R) nb) as [Hlt|Hge].
    + rewrite (proj2 (Z.leb_gt nb free)) by lia. exists (f_ring f). split; [done|].
      split; [exists K; split; [done|lia]|]. rewrite Z.add_0_r. done.
    + rewrite (proj2 (Z.leb_le nb free)) by lia. exists (set_cached_prod (u32 (u32 R + nb)) (f_ring f)).
      split; [done|]. split; [exists K; split; [done|lia]|]. split; [cbn; by rewrite u32_add|].
      by rewrite Hcp.
  - cbn [cached_cons cached_prod set_cached_cons]. rewrite Hcp, Hrefresh.
    destruct (Z.ltb_spec free nb) as [Hlt|Hge].
    + rewrite (proj2 (Z.leb_gt nb free)) by lia. eexists. split; [|split; [|split; [|reflexivity]]]; [done| |].
      * exists (C + 2 ^ k). cbn. rewrite u32_add. split; [done|lia].
      * cbn. by rewrite Z.add_0_r.
    + rewrite (proj2 (Z.leb_le nb free)) by lia. eexists. split; [|split; [|split; [|reflexivity]]]; [done| |].
      * exists (C + 2 ^ k). cbn. rewrite u32_add. split; [done|unfold free in Hge; lia].
      * cbn. by rewrite u32_add.
Qed.

Lemma f_step_inv f f' : f_inv f -> f_step f f' -> f_inv f'.
Proof.
  intros Hinv Hstep. pose proof (size_bounds k Hk) as Hsz.
  destruct Hstep as [r s sn tk rs nb n idx r' Hnb Hres|r s sn tk rs j a Hj|r s sn tk rs n xs Hn Hread
    |r s sn tk rs a Hne Ha].
  - destruct (reserve_places _ nb Hinv Hnb) as (r2 & Hr2 & Hcc2 & Hcp2 & Hrun). cbn in *.
    rewrite Hrun in Hres. destruct Hinv as [Hring Hes Hp Hc Hcp _ Hord Hh Ht]. cbn in *.
    set (m := if nb <=? Z.of_nat (length tk) + 2 ^ k - Z.of_nat rs then nb else 0) in *.
    assert (r' = r2 /\ n = m) as [-> ->] by (unfold m; destruct (_ <=? _); by injection Hres).
    assert (0 <= m) by (unfold m; case_match; lia).
    assert (Z.of_nat (rs + Z.to_nat m) = Z.of_nat rs + m) as Hrs by lia.
    constructor; cbn; rewrite ?Hrs; try done; [lia|].
    intros i Hi. rewrite (entry_at_u32 k Hk) by (done || lia). rewrite <- (entry_at_u32 k Hk r) by (done || lia).
    by apply Hh.
  - destruct Hinv as [Hring Hes Hp Hc Hcp (K & Hcc & HK) Hord Hh Ht]. cbn in *.
    constructor; cbn; try done; [by rewrite length_insert|by exists K|].
    apply (holds_write k Hk); [done|done|lia|lia].
  - destruct Hinv as [Hring Hes Hp Hc Hcp Hcc Hord Hh Ht]. cbn in *.
    destruct (read_from_lookup _ _ _ _ _ Hread) as [Hl Hj].
    assert (length (sn ++ xs) = length sn + n)%nat as Hlen by (rewrite length_app; lia).
    constructor; cbn; rewrite ?Hlen; try done.
    + rewrite Hp, u32_add. f_equal. lia.
    + lia.
    + rewrite <- Hlen. apply holds_append; [done|]. intros i Hi. rewrite Hlen in Hi.
      replace i with (length sn + (i - length sn))%nat by lia. rewrite (Hj (i - length sn)%nat) by lia.
      rewrite lookup_app_r by lia. f_equal. lia.
    + rewrite take_app_le by lia. done.
  - destruct Hinv as [Hring Hes Hp Hc Hcp (K & Hcc & HK) Hord Hh Ht]. cbn in *.
    assert (length tk < length sn)%nat as Hlt.
    { assert (length tk <> length sn); [|lia]. intros E. rewrite E in Hc. congruence. }
    destruct (holds_read r _ _ _ Hh Hlt) as (b & Hb & Hsn). rewrite <- Hc, Ha in Hb. injection Hb as <-.
    assert (length (tk ++ [a]) = S (length tk)) as Hlen by (rewrite length_app; cbn; lia).
    constructor; cbn; rewrite ?Hlen; try done.
    + rewrite Hc, u32_add. f_equal. lia.
    + exists K. split; [done|lia].
    + lia.
    + eapply holds_shrink; [exact Hh|lia|lia].
    + rewrite (take_S_r _ _ a) by done. by rewrite <- Ht.
Qed.

Lemma f_reachable es f : Z.of_nat (length es) = 2 ^ k -> rtc f_step (f_start es) f -> f_inv f.
Proof.
  intros Hes Hsteps. pose proof (f_start_inv es Hes) as Hinv. induction Hsteps as [|x y z Hxy _ IH]; [done|].
  by eapply IH, f_step_inv.
Qed.

(** C37. A ring of any power of two up to 2^31 that the process fills is a bounded queue:
    after any interleaving of reserving, writing, submitting and the kernel's
    taking, for as long as the 32-bit indices run, the kernel has taken the first of
    the entries submitted, in order and as they were submitted; the others are still
    in their slots, no more than the ring has places. *)
Theorem filled_ring_fifo es f :
  Z.of_nat (length es) = 2 ^ k -> rtc f_step (f_start es) f ->
  taken f = take (length (taken f)) (sent f) /\
  Z.of_nat (length (sent f)) <= Z.of_nat (length (taken f)) + 2 ^ k /\
  forall i, (length (taken f) <= i < length (sent f))%nat ->
    entries (f_mem f) !! entry_at (f_ring f) (u32 (Z.of_nat i)) = sent f !! i.
Proof.
  intros Hes Hsteps. destruct (f_reachable es f Hes Hsteps) as [_ _ _ _ _ (K & _ & HK) Hord Hh Ht].
  split; [done|]. split; [lia|exact Hh].
Qed.

(** [xsk_ring_prod__reserve] succeeds exactly when the ring has the places, those the
    kernel has freed since the process last looked included, and then gives the index
    after the last place reserved. *)
Theorem reserve_exact es f nb :
  Z.of_nat (length es) = 2 ^ k -> rtc f_step (f_start es) f -> 0 <= nb < 2 ^ 64 ->
  exists r', xsk_ring_prod__reserve (f_ring f) (f_mem f) nb =
    if nb <=? Z.of_nat (length (taken f)) + 2 ^ k - Z.of_nat (reserved f)
    then (nb, Some (u32 (Z.of_nat (reserved f))), r') else (0, None, r').
Proof.
  intros Hes Hsteps Hnb.
  destruct (reserve_places f nb (f_reachable es f Hes Hsteps) Hnb) as (r' & _ & _ & _ & Hrun). by exists r'.
Qed.
End Filling.

(** ** A ring the process empties *)

Section Emptying.
Context {A : Type} (k : Z) (Hk : 0 <= k <= 31).

(** Besides the ring: the entries the kernel put in, those the process has read and
    released, and how many it was ever shown. *)
Record emptying := Emptying { e_ring : ring; e_mem : shared A; put : list A; released : list A; shown : nat }.

Definition e_start (es : list A) : emptying :=
  Emptying (init_cons (2 ^ k)) (Shared 0 0 es) [] [] 0.

(** The kernel puts an entry in while there is a place; the process peeks, reads
    what it was shown, and releases some of it, oldest first. *)
Inductive e_step : emptying -> emptying -> Prop :=
  | EPut r s pt rl sh a :
      u32 (producer s - consumer s) < 2 ^ k ->
      e_step (Emptying r s pt rl sh)
        (Emptying r (Shared (u32 (producer s + 1)) (consumer s)
                       (<[entry_at r (producer s) := a]> (entries s))) (pt ++ [a]) rl sh)
  | EPeek r s pt rl sh nb n idx r' :
      0 <= nb < 2 ^ 64 -> xsk_ring_cons__peek r s nb = (n, idx, r') ->
      e_step (Emptying r s pt rl sh) (Emptying r' s pt rl (sh + Z.to_nat n))
  | ERelease r s pt rl sh n xs :
      (length rl + n <= sh)%nat -> read_from r (entries s) (length rl) n = Some xs ->
      e_step (Emptying r s pt rl sh)
        (Emptying r (xsk_ring_cons__release s (Z.of_nat n)) pt (rl ++ xs) sh).

Record e_inv (e : emptying) : Prop := {
  e_ring_of : ring_of k (e_ring e);
  e_entries : Z.of_nat (length (entries (e_mem e))) = 2 ^ k;
  e_producer : producer (e_mem e) = u32 (Z.of_nat (length (put e)));
  e_consumer : consumer (e_mem e) = u32 (Z.of_nat (length (released e)));
  e_cached_cons : cached_cons (e_ring e) = u32 (Z.of_nat (shown e));
  e_cached_prod : exists K, cached_prod (e_ring e) = u32 (Z.of_nat K) /\ (shown e <= K <= length (put e))%nat;
  e_order : (length (released e) <= shown e)%nat /\
    Z.of_nat (length (put e)) <= Z.of_nat (length (released e)) + 2 ^ k;
  e_holds : holds (e_ring e) (entries (e_mem e)) (put e) (length (released e)) (length (put e));
  e_released : released e = take (length (released e)) (put e);
}.

Lemma e_start_inv es : Z.of_nat (length es) = 2 ^ k -> e_inv (e_start es).
Proof.
  intros Hes. pose proof (size_bounds k Hk). constructor; cbn; try done; [by apply init_cons_ring|by exists 0%nat|lia|].
  intros i Hi. lia.
Qed.

(** [peek] shows entries in order from the first not shown; some if there are any
    (and any are asked for), never more than there are or than asked. *)
Lemma peek_entries e nb :
  e_inv e ->
  let avail := Z.of_nat (length (put e)) - Z.of_nat (shown e) in
  exists n r', ring_of k r' /\ 0 <= n <= avail /\ n <= u32 nb /\ (n = 0 -> avail = 0 \/ u32 nb = 0) /\
    cached_cons r' = u32 (Z.of_nat (shown e) + n) /\
    (exists K, cached_prod r' = u32 (Z.of_nat K) /\ Z.of_nat (shown e) + n <= Z.of_nat K <= Z.of_nat (length (put e))) /\
    xsk_ring_cons__peek (e_ring e) (e_mem e) nb =
      (n, if 0 <? n then Some (u32 (Z.of_nat (shown e))) else None, r').
Proof.
  intros [Hring _ Hp _ Hcc (K & Hcp & HK) [Hsh Hsz] _ _] avail. pose proof (size_bounds k Hk).
  unfold xsk_ring_cons__peek, xsk_cons_nb_avail. rewrite Hcc, Hcp, Hp.
  assert (0 <= u32 nb) by (apply Z.mod_pos_bound; lia). set (req := u32 nb) in *.
  assert (Hold : u32 (u32 (Z.of_nat K) - u32 (Z.of_nat (shown e))) = Z.of_nat K - Z.of_nat (shown e))
    by (apply u32_distance; lia).
  assert (Hnew : u32 (u32 (Z.of_nat (length (put e))) - u32 (Z.of_nat (shown e))) = avail)
    by (apply u32_distance; lia).
  rewrite Hold. set (m := Z.of_nat K - Z.of_nat (shown e)) in *.
  assert (exists K' r1, ring_of k r1 /\ cached_cons r1 = u32 (Z.of_nat (shown e)) /\
    cached_prod r1 = u32 (Z.of_nat K') /\ (shown e <= K' <= length (put e))%nat /\
    (Z.of_nat K' - Z.of_nat (shown e) = 0 -> avail = 0) /\
    (if m =? 0 then (u32 (cached_prod (set_cached_prod (u32 (Z.of_nat (length (put e)))) (e_ring e)) -
        cached_cons (set_cached_prod (u32 (Z.of_nat (length (put e)))) (e_ring e))),
        set_cached_prod (u32 (Z.of_nat (length (put e)))) (e_ring e)) else (m, e_ring e)) =
    (Z.of_nat K' - Z.of_nat (shown e), r1)) as (K' & r1 & Hr1 & Hcc1 & Hcp1 & HK' & Hz & ->).
  { destruct (Z.eqb_spec m 0) as [E|E].
    - exists (length (put e)), (set_cached_prod (u32 (Z.of_nat (length (put e)))) (e_ring e)).
      cbn [cached_prod cached_cons set_cached_prod]. rewrite Hcc, Hnew. repeat split; try done; try apply Hring; lia.
    - exists K, (e_ring e). repeat split; try done; try apply Hring; lia. }
  set (cnt := Z.of_nat K' - Z.of_nat (shown e)) in *.
  set (n := if req <? cnt then req else cnt).
  assert (0 <= n <= cnt /\ n <= req /\ (n = 0 -> cnt = 0 \/ req = 0)) as (Hn1 & Hn2 & Hn3)
    by (unfold n; destruct (Z.ltb_spec req cnt); lia).
  assert (cnt <= avail) by (unfold cnt, avail; lia). rewrite Hcc1.
  destruct (Z.ltb_spec 0 n) as [Hpos|Hzero].
  - exists n, (set_cached_cons (u32 (u32 (Z.of_nat (shown e)) + n)) r1).
    assert (Z.of_nat (shown e) + n <= Z.of_nat K') by lia.
    split; [done|]. split; [lia|]. split; [lia|]. split; [lia|].
    split; [cbn; by rewrite u32_add|]. split; [exists K'; split; [done|lia]|].
    rewrite (proj2 (Z.ltb_lt 0 n)) by lia. done.
  - exists n, r1. split; [done|]. split; [lia|]. split; [lia|]. split; [intros E; destruct (Hn3 E); auto|].
    split; [rewrite Hcc1; f_equal; lia|]. split; [exists K'; split; [done|lia]|].
    by rewrite (proj2 (Z.ltb_ge 0 n)) by lia.
Qed.

Lemma e_step_inv e e' : e_inv e -> e_step e e' -> e_inv e'.
Proof.
  intros Hinv Hstep. pose proof (size_bounds k Hk) as Hsz.
  destruct Hstep as [r s pt rl sh a Hroom|r s pt rl sh nb n idx r' Hnb Hpeek|r s pt rl sh n xs Hn Hread].
  - destruct Hinv as [Hring Hes Hp Hc Hcc (K & Hcp & HK) [Ho1 Ho2] Hh Ht]. cbn in *.
    rewrite Hp, Hc, u32_distance in Hroom by lia.
    assert (length (pt ++ [a]) = S (length pt)) as Hlen by (rewrite length_app; cbn; lia).
    constructor; cbn; rewrite ?Hlen; try done.
    + by rewrite length_insert.
    + rewrite Hp, u32_add. f_equal. lia.
    + exists K. split; [done|lia].
    + lia.
    + rewrite <- Hlen. rewrite Hp. apply holds_append; [|].
      * apply (holds_write k Hk); [done|done|lia|lia].
      * intros i Hi. rewrite Hlen in Hi. replace i with (length pt) by lia.
        rewrite list_lookup_insert_eq by (pose proof (entry_at_in k Hk r Hring (length pt)); lia).
        by rewrite list_lookup_middle.
    + rewrite take_app_le by lia. done.
  - destruct (peek_entries _ nb Hinv) as (n2 & r2 & Hr2 & Hn0 & _ & _ & Hcc2 & (K & Hcp2 & HK2) & Hrun).
    cbn in *. rewrite Hrun in Hpeek. injection Hpeek as <- _ <-.
    destruct Hinv as [Hring Hes Hp Hc Hcc _ [Ho1 Ho2] Hh Ht]. cbn in *.
    assert (Z.of_nat (sh + Z.to_nat n2) = Z.of_nat sh + n2) as Hsh by lia.
    constructor; cbn; rewrite ?Hsh; try done.
    + exists K. split; [done|lia].
    + lia.
    + intros i Hi. rewrite (entry_at_u32 k Hk) by (done || lia). rewrite <- (entry_at_u32 k Hk r) by (done || lia).
      by apply Hh.
  - destruct Hinv as [Hring Hes Hp Hc Hcc (K & Hcp & HK) [Ho1 Ho2] Hh Ht]. cbn in *.
    destruct (read_from_lookup _ _ _ _ _ Hread) as [Hl _].
    assert (length (rl ++ xs) = length rl + n)%nat as Hlen by (rewrite length_app; lia).
    constructor; cbn; rewrite ?Hlen; try done.
    + rewrite Hc, u32_add. f_equal. lia.
    + by exists K.
    + lia.
    + eapply holds_shrink; [exact Hh|lia|lia].
    + assert (xs = take n (drop (length rl) pt)) as ->.
      { apply (read_from_holds r (entries s)); [eapply holds_shrink; [exact Hh|lia|lia]|lia|done]. }
      rewrite Ht at 1. rewrite <- take_take_drop. by f_equal.
Qed.

Lemma e_reachable es e : Z.of_nat (length es) = 2 ^ k -> rtc e_step (e_start es) e -> e_inv e.
Proof.
  intros Hes Hsteps. pose proof (e_start_inv es Hes) as Hinv. induction Hsteps as [|x y z Hxy _ IH]; [done|].
  by eapply IH, e_step_inv.
Qed.

(** A ring that the process empties is a bounded queue: after any interleaving of
    the kernel's putting, peeking, reading and releasing, what the process released
    is the first of what the kernel put in, in order; and every entry it was shown
    and has not released is in its slot as the kernel put it there. *)
Theorem emptied_ring_fifo es e :
  Z.of_nat (length es) = 2 ^ k -> rtc e_step (e_start es) e ->
  released e = take (length (released e)) (put e) /\
  (length (released e) <= shown e <= length (put e))%nat /\
  forall i, (length (released e) <= i < shown e)%nat ->
    entries (e_mem e) !! entry_at (e_ring e) (u32 (Z.of_nat i)) = put e !! i.
Proof.
  intros Hes Hsteps. destruct (e_reachable es e Hes Hsteps) as [_ _ _ _ _ (K & _ & HK) [Ho1 _] Hh Ht].
  split; [done|]. split; [lia|]. intros i Hi. apply Hh. lia.
Qed.

End Emptying.

Module XskRingExamples.

(** A ring of two places: both are reserved, written and submitted, the kernel takes
    one, and the one it freed is found by the next reservation. *)
Definition slots : list Z := [0; 0].
Definition full : filling := Filling (Ring 2 2 1 2) (Shared 2 1 [10; 11]) [10; 11] [10] 2.

Lemma full_reachable : rtc f_step (f_start (A := Z) 1 slots) full.
Proof.
  eapply rtc_l; [by apply (FReserve _ _ _ _ _ 2 2 (Some 0) (Ring 2 2 1 2))|].
  eapply rtc_l; [apply (FWrite _ _ _ _ _ 1 11); cbn; lia|].
  eapply rtc_l; [apply (FWrite _ _ _ _ _ 0 10); cbn; lia|].
  eapply rtc_l; [apply (FSubmit _ _ _ _ _ 2 [10; 11]); [cbn; lia|reflexivity]|].
  eapply rtc_l; [by apply (FTake _ _ _ _ _ 10)|]. reflexivity.
Qed.

Lemma filled_ring_fifo_witness :
  taken full = take 1 (sent full) /\ entries (f_mem full) !! entry_at (f_ring full) (u32 (Z.of_nat 1)) = Some 11.
Proof.
  destruct (filled_ring_fifo 1 ltac:(lia) slots full eq_refl full_reachable) as (Ht & _ & Hs).
  split; [exact Ht|]. apply (Hs 1%nat). vm_compute. lia.
Defined.

Lemma reserve_exact_witness :
  exists r, xsk_ring_prod__reserve (f_ring full) (f_mem full) 1 = (1, Some 2, r).
Proof.
  destruct (reserve_exact 1 ltac:(lia) slots full 1 eq_refl full_reachable) as (r & Hr); [lia|].
  exists r. exact Hr.
Defined.

Definition shown_one : emptying := Emptying (Ring 2 1 1 2) (Shared 2 0 [20; 21]) [20; 21] [] 1.

Lemma shown_one_reachable : rtc (e_step 1) (e_start (A := Z) 1 slots) shown_one.
Proof.
  eapply rtc_l; [by apply (EPut _ _ _ _ _ _ 20)|].
  eapply rtc_l; [by apply (EPut _ _ _ _ _ _ 21)|].
  eapply rtc_l; [by apply (EPeek _ _ _ _ _ _ 1 1 (Some 0) (Ring 2 1 1 2))|]. reflexivity.
Qed.

Lemma emptied_ring_fifo_witness :
  entries (e_mem shown_one) !! entry_at (e_ring shown_one) (u32 (Z.of_nat 0)) = Some 20.
Proof.
  destruct (emptied_ring_fifo 1 ltac:(lia) slots shown_one eq_refl shown_one_reachable) as (_ & _ & Hs).
  apply (Hs 0%nat). vm_compute. lia.
Defined.
End XskRingExamples.
