(* ===== verification/FlowRace.v ===== *)
(** * The flows, read while the kernel counts

    [Race] interleaves the interval counter; this file does the same for the counts
    of the flows.  [calculate_ent] ([user+ebpf/main/xdp_loader.c]) walks the
    [logger] map key by key (lines 224 to 249), then takes each key again: it looks
    its value up and writes it back with the count moved to [prev], or deletes it
    when the count is 0 (lines 332 to 343).  Packets come between any two of these
    calls, and between the lookup of a flow and what is done with it.  When the map has
    no first key the walk is skipped, and the second pass takes two addresses that
    nothing wrote (the counter is 1 before the walk, and the pass runs to [k <= i])
    with a buffer that nothing wrote: what they held is in [FStartEmpty].  A walk of
    more than 100000 flows writes past its arrays and has no step. *)

From stdpp Require Import relations.
From S2P Require Import Prelude Packet BpfMap Flows Entropy Loader.
From S2P Require UserKern InKernel.
Import UserKern (logger_value, LoggerValue, lv_prev, lv_cur, lv_entropy).
#[local] Existing Instances UserKern.logger_flow UserKern.logger_flow_laws.

(** Where the loader is, with the addresses kept so far and what its buffer
    [logger_value] holds: outside; about to look [next_key] up; having looked it up;
    about to take the first of the addresses again; having looked [key] up. *)
Inductive fphase :=
  | Outside
  | Visiting (next_key : Z) (ips : list Z) (v : logger_value)
  | Noting (next_key : Z) (ips : list Z) (v : logger_value)
  | Settling (ips : list Z) (v : logger_value)
  | Deciding (key : Z) (ips : list Z) (v : logger_value).

(** [credited], what the closed intervals were given, [passed], the packets the
    program has counted, and [phantom], the counts that fresh memory held when the
    map was found empty, are ghosts. *)
Record fstate (M B : Type) := FState {
  fkern : UserKern.kern M B; fphase_of : fphase; credited : Z; passed : Z; phantom : Z }.
#[global] Arguments FState {M B}.
#[global] Arguments fkern {M B}.
#[global] Arguments fphase_of {M B}.
#[global] Arguments credited {M B}.
#[global] Arguments passed {M B}.
#[global] Arguments phantom {M B}.

Section Interleaving.
Context `{HostOrder} {M B : Type}.
Context `{!BpfHash M Z logger_value} `{!BpfHashLaws M Z logger_value}.
Context (blacklist_lookup : B -> InKernel.lpm_v4_key -> option Z) (redirect_map : Z -> Z -> Z).

Definition set_logger (m : M) (k : UserKern.kern M B) : UserKern.kern M B :=
  UserKern.Kern m (UserKern.blacklist k) (UserKern.data k) (UserKern.trace k).

(** The value of the buffer after a lookup: unchanged when the key is not there. *)
Definition looked_up (m : M) (key : Z) (v : logger_value) : logger_value :=
  default v (map_lookup_elem m key).

Definition moved (v : logger_value) : logger_value := LoggerValue (lv_cur v) 0 (lv_entropy v).

(** A packet; the loader writing the interval counters; the calls of the walk (its
    buffer comes from [malloc]); the calls of the second pass, which deletes and
    updates as it was told by the value in its buffer. *)
Inductive fstep : fstate M B -> fstate M B -> Prop :=
  | FPacket s pkt k r :
      flow_total (UserKern.logger (fkern s)) + 1 < 2 ^ 31 ->
      UserKern.xdp_filter_func blacklist_lookup redirect_map pkt (fkern s) = Some (k, r) ->
      fstep s (FState k (fphase_of s) (credited s) (if counted pkt then passed s + 1 else passed s) (phantom s))
  | FData s d :
      fstep s (FState (UserKern.Kern (UserKern.logger (fkern s)) (UserKern.blacklist (fkern s)) d
                         (UserKern.trace (fkern s))) (fphase_of s) (credited s) (passed s) (phantom s))
  | FStart s next_key v :
      fphase_of s = Outside -> map_get_next_key (UserKern.logger (fkern s)) 0 = Some next_key ->
      fstep s (FState (fkern s) (Visiting next_key [] v) (credited s) (passed s) (phantom s))
  | FStartEmpty s a b v :
      fphase_of s = Outside -> map_get_next_key (UserKern.logger (fkern s)) 0 = None ->
      fstep s (FState (fkern s) (Settling [a; b] v) (credited s) (passed s)
                 (phantom s + Z.max 0 (lv_cur v)))
  | FVisit s key ips v :
      fphase_of s = Visiting key ips v ->
      fstep s (FState (fkern s) (Noting key ips (looked_up (UserKern.logger (fkern s)) key v))
                 (credited s) (passed s) (phantom s))
  | FNext s key next_key ips v :
      fphase_of s = Noting key ips v -> (S (length ips) < FLOW_MAX)%nat ->
      map_get_next_key (UserKern.logger (fkern s)) key = Some next_key ->
      fstep s (FState (fkern s) (Visiting next_key (ips ++ [key]) v) (credited s) (passed s) (phantom s))
  | FLast s key ips v :
      fphase_of s = Noting key ips v ->
      map_get_next_key (UserKern.logger (fkern s)) key = None ->
      fstep s (FState (fkern s) (Settling (ips ++ [key]) v) (credited s) (passed s) (phantom s))
  | FLookup s key ips v :
      fphase_of s = Settling (key :: ips) v ->
      fstep s (FState (fkern s) (Deciding key ips (looked_up (UserKern.logger (fkern s)) key v))
                 (credited s) (passed s) (phantom s))
  | FDelete s key ips v :
      fphase_of s = Deciding key ips v -> lv_cur v = 0 ->
      fstep s (FState (set_logger (fst (map_delete_elem (UserKern.logger (fkern s)) key)) (fkern s))
                 (Settling ips v) (credited s) (passed s) (phantom s))
  | FUpdate s key ips v m e :
      fphase_of s = Deciding key ips v -> lv_cur v <> 0 ->
      map_update_elem (UserKern.logger (fkern s)) key (moved v) BPF_ANY = (m, e) ->
      fstep s (FState (set_logger m (fkern s)) (Settling ips (moved v))
                 (if e =? 0 then credited s + lv_cur v else credited s) (passed s) (phantom s))
  | FDone s v :
      fphase_of s = Settling [] v ->
      fstep s (FState (fkern s) Outside (credited s) (passed s) (phantom s)).

(** The count of a flow, 0 when it is not in the map. *)
Definition cur_of (m : M) (key : Z) : Z :=
  match map_lookup_elem m key with Some v => lv_cur v | None => 0 end.

Definition present (m : M) (ips : list Z) : Prop := Forall (fun k => is_Some (map_lookup_elem m k)) ips.

(** What the loader relies on, with [a] what may still be credited without a packet:
    the keys of a walk are in the map until they are taken again, and the value in
    the buffer is ahead of the flow it is written to by no more than [a]. *)
Definition phase_ok (m : M) (a : Z) (p : fphase) : Prop :=
  match p with
  | Outside => True
  | Visiting key ips v | Noting key ips v => present m (key :: ips)
  | Settling ips v => lv_cur v <= a \/ present m ips
  | Deciding key ips v => lv_cur v <= a + cur_of m key
  end.

Definition flow_inv (s : fstate M B) : Prop :=
  let m := UserKern.logger (fkern s) in
  exists a, 0 <= a /\ counts_ok m /\ phase_ok m a (fphase_of s) /\
            credited s + flow_total m + a <= passed s + phantom s.

(** *** The packets *)

Lemma handler_logger pkt (k k' : UserKern.kern M B) r :
  UserKern.xdp_filter_func blacklist_lookup redirect_map pkt k = Some (k', r) ->
  UserKern.logger k' = UserKern.logger k \/
  (counted pkt = true /\ exists saddr, UserKern.logger k' = bump_flow saddr (UserKern.logger k)).
Proof.
  unfold UserKern.xdp_filter_func, counted. case_decide as Hl; [intros [= <- _]; by left|].
  destruct (read16 pkt off_h_proto) as [h|]; cbn [mbind option_bind]; [|done].
  destruct (h =? bpf_htons ETH_P_IP); cbn [negb]; [|intros [= <- _]; by left].
  case_decide as Hl2; [intros [= <- _]; by left|]. rewrite bool_decide_true by lia.
  destruct (read32 _ _) as [a|]; cbn [mbind option_bind]; [|done].
  destruct (UserKern.data k) as [d|]; [|intros [= <- _]; by left].
  destruct (blacklist_lookup _ _); intros [= <- _]; right; (split; [done|]; by exists a).
Qed.

(** A packet removes no flow and takes nothing from its count. *)
Lemma bump_keeps (m : M) saddr key :
  counts_ok m -> flow_total m + 1 < 2 ^ 31 ->
  (is_Some (map_lookup_elem m key) -> is_Some (map_lookup_elem (bump_flow saddr m) key)) /\
  cur_of m key <= cur_of (bump_flow saddr m) key.
Proof.
  intros Hm Ht. unfold cur_of. rewrite bump_flow_lookup. case_decide as E; [subst key|by split; [|lia]].
  destruct (map_lookup_elem m saddr) as [v|] eqn:Ev.
  - split; [by eexists|]. pose proof (Hm saddr v Ev) as Hv. pose proof (flow_le_total m saddr v Hm Ev) as Hle.
    change (flow_cur v) with (lv_cur v) in *. cbn [lv_cur flow_bump UserKern.logger_flow].
    rewrite i32_id by lia. lia.
  - split; [by intros [? ?]|]. destruct (_ =? 0); [by vm_compute|lia].
Qed.

Lemma bump_phase (m : M) saddr a p :
  counts_ok m -> flow_total m + 1 < 2 ^ 31 -> phase_ok m a p -> phase_ok (bump_flow saddr m) a p.
Proof.
  intros Hm Ht. assert (Hpres : forall ips, present m ips -> present (bump_flow saddr m) ips).
  { intros ips. apply Forall_impl. intros k. by apply bump_keeps. }
  destruct p as [|key ips v|key ips v|ips v|key ips v]; cbn; [done|apply Hpres|apply Hpres|naive_solver|].
  pose proof (proj2 (bump_keeps m saddr key Hm Ht)). lia.
Qed.

(** *** The loader *)

Lemma next_after_elem {K} `{EqDecision K} (ks : list K) k k' : next_after ks k = Some k' -> k' ∈ ks.
Proof.
  induction ks as [|x ks IH]; [done|]. cbn [next_after]. case_decide; intros Hn; right; [|by apply IH].
  destruct ks; [done|]. injection Hn as ->. by left.
Qed.

Lemma next_key_elem {K} `{EqDecision K} (ks : list K) k k' : next_key ks k = Some k' -> k' ∈ ks.
Proof.
  unfold next_key. case_decide; [apply next_after_elem|]. destruct ks; [done|]. intros [= ->]. by left.
Qed.

Lemma delete_counts (m : M) key :
  counts_ok m -> counts_ok (fst (map_delete_elem m key)) /\
  flow_total (fst (map_delete_elem m key)) = flow_total m - cur_of m key.
Proof.
  intros Hm. split.
  - intros k v. rewrite lookup_delete_elem. case_decide; [done|apply Hm].
  - unfold flow_total, cur_of. rewrite contents_delete, <- lookup_contents.
    destruct (contents m !! key) as [v|] eqn:E.
    + rewrite (total_delete _ _ _ _ E). cbn. lia.
    + rewrite total_delete_none by done. lia.
Qed.

Lemma update_counts (m m' : M) key v e :
  counts_ok m -> map_update_elem m key (moved v) BPF_ANY = (m', e) ->
  counts_ok m' /\ flow_total m' = if e =? 0 then flow_total m - cur_of m key else flow_total m.
Proof.
  intros Hm Hu. assert (Hc := contents_update _ _ _ _ _ _ Hu). split.
  - intros k w. apply lookup_update in Hu as [(_ & _ & Hl)|[_ ->]]; [|apply Hm].
    rewrite Hl. case_decide; [intros [= <-]; cbn; lia|apply Hm].
  - unfold flow_total, cur_of in *. rewrite Hc. destruct (e =? 0); [|done].
    rewrite <- lookup_contents. destruct (contents m !! key) as [w|] eqn:E.
    + rewrite (total_update _ _ _ _ _ E). cbn. lia.
    + rewrite total_insert_fresh by done. cbn. lia.
Qed.

Lemma first_key_present (m : M) k k' :
  map_get_next_key m k = Some k' -> is_Some (map_lookup_elem m k').
Proof. rewrite get_next_key_spec. intros Hk. apply keys_spec. by eapply next_key_elem. Qed.

Lemma looked_up_ahead (m : M) a key ips v :
  0 <= a -> phase_ok m a (Settling (key :: ips) v) ->
  phase_ok m a (Deciding key ips (looked_up m key v)).
Proof.
  cbn. unfold looked_up, cur_of. intros Ha Hor.
  destruct (map_lookup_elem m key) as [u|] eqn:E; cbn [default]; [cbn; lia|].
  destruct Hor as [Hz|Hpres]; [cbn; lia|]. inversion Hpres as [|? ? [? ?] _]. congruence.
Qed.

Lemma fstep_inv s s' : flow_inv s -> fstep s s' -> flow_inv s'.
Proof.
  intros (a & Ha & Hm & Hp & Hsum) Hstep. unfold flow_inv.
  destruct Hstep as [s pkt k r Ht Hh|s d|s nk v Hat Hnk|s x y v Hat Hnk|s key ips v Hat|s key nk ips v Hat Hlen Hnk
    |s key ips v Hat Hnk|s key ips v Hat|s key ips v Hat Hz|s key ips v m e Hat Hnz Hu|s v Hat];
    cbn [fkern fphase_of credited passed phantom set_logger UserKern.logger]; try rewrite Hat in Hp; cbn [phase_ok] in Hp.
  - exists a. split; [done|]. apply handler_logger in Hh as [->|[-> [saddr ->]]].
    + split; [done|]. split; [done|]. destruct (counted pkt); lia.
    + split; [apply bump_flow_ok; done|]. split; [by apply bump_phase|].
      pose proof (bump_flow_total_bounds saddr _ Hm Ht). lia.
  - by exists a.
  - exists a. split; [done|]. split; [done|]. split; [|done]. constructor; [|done]. by eapply first_key_present.
  - exists (a + Z.max 0 (lv_cur v)). split; [lia|]. split; [done|]. split; [left|]; lia.
  - by exists a.
  - exists a. split; [done|]. split; [done|]. split; [|done]. inversion Hp; subst. constructor.
    + by eapply first_key_present.
    + apply Forall_app. by repeat constructor.
  - exists a. split; [done|]. split; [done|]. split; [|done]. inversion Hp; subst. right.
    apply Forall_app. by repeat constructor.
  - exists a. split; [done|]. split; [done|]. split; [by apply looked_up_ahead|done].
  - exists a. destruct (delete_counts _ key Hm) as [Hm' Ht]. split; [done|]. split; [done|].
    split; [left; lia|]. assert (0 <= cur_of (UserKern.logger (fkern s)) key); [|lia].
    unfold cur_of. destruct (map_lookup_elem _ key) as [u|] eqn:E; [apply (Hm key u E)|lia].
  - destruct (update_counts _ _ _ _ _ Hm Hu) as [Hm' Ht].
    exists (if e =? 0 then a + cur_of (UserKern.logger (fkern s)) key - lv_cur v else a).
    destruct (e =? 0); (split; [lia|]); (split; [done|]); (split; [left; cbn; lia|lia]).
  - by exists a.
Qed.

(** C36. However the packets come between the calls of [calculate_ent], while the flows
    count fewer than 2^31, what the closed intervals were given and what the flows count
    now is never more than the packets counted and the counts that fresh memory held on
    the turns that found the map empty: although the counts are written back from values
    read before, no packet is in two intervals, and on the turns that find a flow none is
    made up. *)
Theorem flows_never_overcount s s' :
  counts_ok (UserKern.logger (fkern s)) -> fphase_of s = Outside ->
  credited s + flow_total (UserKern.logger (fkern s)) <= passed s + phantom s -> rtc fstep s s' ->
  counts_ok (UserKern.logger (fkern s')) /\
  credited s' + flow_total (UserKern.logger (fkern s')) <= passed s' + phantom s'.
Proof.
  intros Hm Hat Hsum Hsteps. assert (flow_inv s) as Hinv.
  { exists 0. split; [lia|]. split; [done|]. rewrite Hat. split; [done|lia]. }
  assert (flow_inv s') as (a & ? & ? & _ & ?); [|split; [done|lia]].
  clear Hm Hat Hsum. induction Hsteps; eauto using fstep_inv.
Qed.
End Interleaving.

(** ** Example: a packet between the two passes, one between a lookup and its update *)

Module FlowRaceExamples.
Import Capped UserKern.Examples.

Definition quiet : fstate (Capped.t Z logger_value) (Z -> option Z) := FState state Outside 0 2 0.

Definition kern_after (k : UserKern.kern (Capped.t Z logger_value) (Z -> option Z)) :=
  match UserKern.xdp_filter_func lpm redirect frame k with Some (k', _) => k' | None => k end.

Definition k1 := kern_after state.
Definition k2 := kern_after k1.
Definition v0 : logger_value := LoggerValue 4 2 0.
Definition v1 : logger_value := LoggerValue 4 3 0.
Definition k3 := set_logger (fst (map_update_elem (UserKern.logger k2) saddr (moved v1) BPF_ANY)) k2.

(** The second packet is in no interval. *)
Lemma quiet_run : rtc (fstep lpm redirect) quiet (FState k3 Outside 3 4 0).
Proof.
  apply (rtc_l _ _ (FState state (Visiting saddr [] v0) 0 2 0)).
  { apply (FStart lpm redirect quiet saddr v0); [done|vm_compute; reflexivity]. }
  apply (rtc_l _ _ (FState state (Noting saddr [] v0) 0 2 0)).
  { assert (looked_up (UserKern.logger state) saddr v0 = v0) as E by (vm_compute; reflexivity).
    rewrite <- E at 2. by apply (FVisit lpm redirect (FState state (Visiting saddr [] v0) 0 2 0) saddr [] v0). }
  apply (rtc_l _ _ (FState state (Settling [saddr] v0) 0 2 0)).
  { apply (FLast lpm redirect (FState state (Noting saddr [] v0) 0 2 0) saddr [] v0); [done|vm_compute; reflexivity]. }
  apply (rtc_l _ _ (FState k1 (Settling [saddr] v0) 0 3 0)).
  { replace 3 with (if counted frame then 2 + 1 else 2) by (vm_compute; reflexivity).
    apply (FPacket lpm redirect (FState state (Settling [saddr] v0) 0 2 0) frame k1 InKernel.XDP_DROP);
      vm_compute; reflexivity. }
  apply (rtc_l _ _ (FState k1 (Deciding saddr [] v1) 0 3 0)).
  { assert (looked_up (UserKern.logger k1) saddr v0 = v1) as <- by (vm_compute; reflexivity).
    by apply (FLookup lpm redirect (FState k1 (Settling [saddr] v0) 0 3 0) saddr [] v0). }
  apply (rtc_l _ _ (FState k2 (Deciding saddr [] v1) 0 4 0)).
  { replace 4 with (if counted frame then 3 + 1 else 3) by (vm_compute; reflexivity).
    apply (FPacket lpm redirect (FState k1 (Deciding saddr [] v1) 0 3 0) frame k2 InKernel.XDP_DROP);
      vm_compute; reflexivity. }
  apply (rtc_l _ _ (FState k3 (Settling [] (moved v1)) 3 4 0)).
  { apply (FUpdate lpm redirect (FState k2 (Deciding saddr [] v1) 0 4 0) saddr [] v1
      (fst (map_update_elem (UserKern.logger k2) saddr (moved v1) BPF_ANY)) 0);
      [done|vm_compute; discriminate|vm_compute; reflexivity]. }
  apply (rtc_l _ _ (FState k3 Outside 3 4 0)); [|apply rtc_refl].
  by apply (FDone lpm redirect (FState k3 (Settling [] (moved v1)) 3 4 0) (moved v1)).
Qed.

Lemma flows_never_overcount_witness :
  credited (FState k3 Outside 3 4 0) + flow_total (UserKern.logger k3) <= 4 + 0.
Proof.
  apply (flows_never_overcount lpm redirect quiet (FState k3 Outside 3 4 0));
    [exact (proj1 user_state_inv) | reflexivity | vm_compute; discriminate | exact quiet_run].
Defined.
End FlowRaceExamples.
