(* ===== verification/BpfCalls.v ===== *)
(** * The bpf system call wrappers of libbpf

    Models [libbpf/src/bpf.c].  The system call itself is the class [BpfKern]: one
    operation per command, on the fields of [union bpf_attr] the command reads and
    the fields and buffers it writes back.  A buffer behind a pointer is its
    content, NULL is [None].  Like the C functions, the wrappers return what the
    system call returns ([-1] on failure) and leave the reason in [errno].  Memory
    allocation is taken to succeed. *)

From S2P Require Import Prelude.
From Stdlib Require Import Ascii String.

Local Open Scope Z_scope.

#[local] Abbreviation bytes := (list Z).

Definition EAGAIN : Z := 11.
Definition E2BIG : Z := 7.
Definition EINVAL : Z := 22.
Definition BPF_OBJ_NAME_LEN : nat := 16.
Definition BPF_F_NUMA_NODE : Z := 4.
Definition BPF_PROG_TYPE_TRACING : Z := 26.

(** [struct bpf_insn]. *)
Record bpf_insn := BpfInsn { code : Z; dst_reg : Z; src_reg : Z; off : Z; imm : Z }.

#[export] Instance bpf_insn_eq_dec : EqDecision bpf_insn.
Proof. solve_decision. Defined.

(** ** Attributes *)

(** The part of [union bpf_attr] of BPF_MAP_CREATE. *)
Record map_attr := MapAttr {
  ma_map_type : Z; ma_key_size : Z; ma_value_size : Z; ma_max_entries : Z; ma_map_flags : Z;
  ma_inner_map_fd : Z; ma_numa_node : Z; ma_map_name : string; ma_map_ifindex : Z;
  ma_btf_fd : Z; ma_btf_key_type_id : Z; ma_btf_value_type_id : Z;
}.

(** [struct bpf_create_map_attr]. *)
Record bpf_create_map_attr := CreateMapAttr {
  ca_name : option string; ca_map_type : Z; ca_map_flags : Z; ca_key_size : Z; ca_value_size : Z;
  ca_max_entries : Z; ca_numa_node : Z; ca_btf_fd : Z; ca_btf_key_type_id : Z;
  ca_btf_value_type_id : Z; ca_map_ifindex : Z; ca_inner_map_fd : Z;
}.

(** The part of [union bpf_attr] of BPF_PROG_LOAD. *)
Record prog_attr := ProgAttr {
  pa_prog_type : Z; pa_insn_cnt : Z; pa_insns : list bpf_insn; pa_license : string;
  pa_log_level : Z; pa_log_size : Z; pa_log_buf : option string; pa_kern_version : Z;
  pa_prog_flags : Z; pa_prog_name : string; pa_prog_ifindex : Z; pa_expected_attach_type : Z;
  pa_prog_btf_fd : Z; pa_func_info_rec_size : Z; pa_func_info : bytes; pa_func_info_cnt : Z;
  pa_line_info_rec_size : Z; pa_line_info : bytes; pa_line_info_cnt : Z; pa_attach_btf_id : Z;
}.

(** [struct bpf_load_program_attr]; [la_ifindex_or_btf_id] is the anonymous union
    of [prog_ifindex] and [attach_btf_id]. *)
Record bpf_load_program_attr := LoadProgramAttr {
  la_prog_type : Z; la_expected_attach_type : Z; la_name : option string;
  la_insns : list bpf_insn; la_insns_cnt : Z; la_license : string; la_kern_version : Z;
  la_ifindex_or_btf_id : Z; la_prog_btf_fd : Z;
  la_func_info_rec_size : Z; la_func_info : bytes; la_func_info_cnt : Z;
  la_line_info_rec_size : Z; la_line_info : bytes; la_line_info_cnt : Z;
  la_log_level : Z; la_prog_flags : Z;
}.

(** What the kernel writes on BPF_PROG_LOAD: the record sizes it knows (with
    E2BIG) and the content of the log buffer, when the attributes give it one. *)
Record prog_reply := ProgReply {
  pr_func_info_rec_size : Z; pr_line_info_rec_size : Z; pr_log : string;
}.

(** The BPF_MAP_*_ELEM commands. *)
Inductive elem_cmd :=
  | BPF_MAP_LOOKUP_ELEM | BPF_MAP_UPDATE_ELEM | BPF_MAP_DELETE_ELEM
  | BPF_MAP_GET_NEXT_KEY | BPF_MAP_LOOKUP_AND_DELETE_ELEM.

(** Their attributes; [ea_value] is the union of [value] and [next_key]. *)
Record elem_attr := ElemAttr {
  ea_map_fd : Z; ea_key : option bytes; ea_value : option bytes; ea_flags : Z;
}.

(** The part of BPF_PROG_ATTACH and BPF_PROG_DETACH. *)
Record attach_attr := AttachAttr {
  aa_target_fd : Z; aa_attach_bpf_fd : Z; aa_attach_type : Z; aa_attach_flags : Z;
}.

(** [query]: of BPF_PROG_QUERY. *)
Record query_attr := QueryAttr {
  qa_target_fd : Z; qa_attach_type : Z; qa_query_flags : Z; qa_attach_flags : Z;
  qa_prog_ids : list Z; qa_prog_cnt : Z;
}.

(** [test]: of BPF_PROG_TEST_RUN. *)
Record test_attr := TestAttr {
  ta_prog_fd : Z; ta_retval : Z; ta_data_size_in : Z; ta_data_size_out : Z;
  ta_data_in : bytes; ta_data_out : option bytes; ta_repeat : Z; ta_duration : Z;
  ta_ctx_size_in : Z; ta_ctx_size_out : Z; ta_ctx_in : bytes; ta_ctx_out : option bytes;
}.

Inductive id_cmd := BPF_PROG_GET_NEXT_ID | BPF_MAP_GET_NEXT_ID | BPF_BTF_GET_NEXT_ID.
Inductive fd_cmd := BPF_PROG_GET_FD_BY_ID | BPF_MAP_GET_FD_BY_ID | BPF_BTF_GET_FD_BY_ID.

(** The part of BPF_BTF_LOAD. *)
Record btf_attr := BtfAttr {
  ba_btf : bytes; ba_btf_size : Z; ba_log_level : Z; ba_log_size : Z; ba_log_buf : option string;
}.

(** [task_fd_query]. *)
Record task_attr := TaskAttr {
  tq_pid : Z; tq_fd : Z; tq_flags : Z; tq_buf : string; tq_buf_len : Z; tq_prog_id : Z;
  tq_fd_type : Z; tq_probe_offset : Z; tq_probe_addr : Z;
}.

(** ** The system call *)

Class BpfKern (W : Type) := {
  errno : W -> Z;
  sys_map_create : map_attr -> W -> Z * W;
  sys_prog_load : prog_attr -> W -> Z * prog_reply * W;
  sys_elem : elem_cmd -> elem_attr -> W -> Z * option bytes * W;
  sys_map_freeze : Z -> W -> Z * W;
  sys_obj_pin : string -> Z -> W -> Z * W;
  sys_obj_get : string -> W -> Z * W;
  sys_prog_attach : attach_attr -> W -> Z * W;
  sys_prog_detach : attach_attr -> W -> Z * W;
  sys_prog_query : query_attr -> W -> Z * query_attr * W;
  sys_prog_test_run : test_attr -> W -> Z * test_attr * W;
  sys_get_next_id : id_cmd -> Z -> W -> Z * Z * W;
  sys_get_fd_by_id : fd_cmd -> Z -> W -> Z * W;
  sys_obj_get_info_by_fd : Z -> Z -> W -> Z * bytes * Z * W;
  sys_raw_tracepoint_open : option string -> Z -> W -> Z * W;
  sys_btf_load : btf_attr -> W -> Z * string * W;
  sys_task_fd_query : task_attr -> W -> Z * task_attr * W;
}.

(** [memcpy(attr.name, name, min(strlen(name), BPF_OBJ_NAME_LEN - 1))] into zeros. *)
Definition obj_name (name : option string) : string :=
  match name with
  | None => EmptyString
  | Some s => substring 0 (Nat.min (String.length s) (BPF_OBJ_NAME_LEN - 1)) s
  end.

(** A record as the loop body leaves it: what the kernel knows, then zeros. *)
Definition zero_tail (record : bytes) (actual expected : nat) : bytes :=
  take expected record ++ replicate (actual - expected) 0.

(** Each record of [actual_rec_size] bytes with the bytes past
    [expected_rec_size] cleared; the caller has checked that the second is less. *)
Fixpoint alloc_zero_tailing_info (orecord : bytes) (cnt actual_rec_size expected_rec_size : nat)
    : bytes :=
  match cnt with
  | O => []
  | S cnt =>
      zero_tail (take actual_rec_size orecord) actual_rec_size expected_rec_size ++
      alloc_zero_tailing_info (drop actual_rec_size orecord) cnt actual_rec_size expected_rec_size
  end.

Section Calls.
Context {W : Type} `{BpfKern W}.

(** ** Maps *)

Definition bpf_create_map_xattr (a : bpf_create_map_attr) (w : W) : Z * W :=
  sys_map_create
    (MapAttr (ca_map_type a) (ca_key_size a) (ca_value_size a) (ca_max_entries a)
       (ca_map_flags a) (ca_inner_map_fd a) (ca_numa_node a) (obj_name (ca_name a))
       (ca_map_ifindex a) (ca_btf_fd a) (ca_btf_key_type_id a) (ca_btf_value_type_id a)) w.

Definition bpf_create_map_node (map_type : Z) (name : option string)
    (key_size value_size max_entries map_flags node : Z) (w : W) : Z * W :=
  bpf_create_map_xattr
    (CreateMapAttr name map_type
       (if 0 <=? node then Z.lor map_flags BPF_F_NUMA_NODE else map_flags)
       (u32 key_size) (u32 value_size) (u32 max_entries)
       (if 0 <=? node then node else 0) 0 0 0 0 0) w.

Definition bpf_create_map (map_type key_size value_size max_entries map_flags : Z) (w : W)
    : Z * W :=
  bpf_create_map_xattr
    (CreateMapAttr None map_type map_flags (u32 key_size) (u32 value_size) (u32 max_entries)
       0 0 0 0 0 0) w.

Definition bpf_create_map_name (map_type : Z) (name : option string)
    (key_size value_size max_entries map_flags : Z) (w : W) : Z * W :=
  bpf_create_map_xattr
    (CreateMapAttr name map_type map_flags (u32 key_size) (u32 value_size) (u32 max_entries)
       0 0 0 0 0 0) w.

Definition bpf_create_map_in_map_node (map_type : Z) (name : option string)
    (key_size inner_map_fd max_entries map_flags node : Z) (w : W) : Z * W :=
  sys_map_create
    (MapAttr map_type (u32 key_size) 4 (u32 max_entries)
       (if 0 <=? node then Z.lor map_flags BPF_F_NUMA_NODE else map_flags)
       (u32 inner_map_fd) (if 0 <=? node then node else 0) (obj_name name) 0 0 0 0) w.

Definition bpf_create_map_in_map (map_type : Z) (name : option string)
    (key_size inner_map_fd max_entries map_flags : Z) (w : W) : Z * W :=
  bpf_create_map_in_map_node map_type name key_size inner_map_fd max_entries map_flags (-1) w.

Definition elem_call (cmd : elem_cmd) (fd : Z) (key value : option bytes) (flags : Z) (w : W)
    : Z * option bytes * W :=
  sys_elem cmd (ElemAttr (u32 fd) key value flags) w.

Definition bpf_map_update_elem (fd : Z) (key value : bytes) (flags : Z) (w : W) : Z * W :=
  let '(ret, _, w) := elem_call BPF_MAP_UPDATE_ELEM fd (Some key) (Some value) flags w in (ret, w).

(** The lookups fill the caller's [value]. *)
Definition bpf_map_lookup_elem (fd : Z) (key value : bytes) (w : W) : Z * bytes * W :=
  let '(ret, v, w) := elem_call BPF_MAP_LOOKUP_ELEM fd (Some key) (Some value) 0 w in
  (ret, default value v, w).
Definition bpf_map_lookup_elem_flags (fd : Z) (key value : bytes) (flags : Z) (w : W)
    : Z * bytes * W :=
  let '(ret, v, w) := elem_call BPF_MAP_LOOKUP_ELEM fd (Some key) (Some value) flags w in
  (ret, default value v, w).
Definition bpf_map_lookup_and_delete_elem (fd : Z) (key value : bytes) (w : W) : Z * bytes * W :=
  let '(ret, v, w) := elem_call BPF_MAP_LOOKUP_AND_DELETE_ELEM fd (Some key) (Some value) 0 w in
  (ret, default value v, w).
Definition bpf_map_delete_elem (fd : Z) (key : bytes) (w : W) : Z * W :=
  let '(ret, _, w) := elem_call BPF_MAP_DELETE_ELEM fd (Some key) None 0 w in (ret, w).
(** [key] may be NULL, which asks for the first key. *)
Definition bpf_map_get_next_key (fd : Z) (key : option bytes) (next_key : bytes) (w : W)
    : Z * bytes * W :=
  let '(ret, v, w) := elem_call BPF_MAP_GET_NEXT_KEY fd key (Some next_key) 0 w in
  (ret, default next_key v, w).
Definition bpf_map_freeze (fd : Z) (w : W) : Z * W := sys_map_freeze (u32 fd) w.

(** ** Programs *)

(** The loop [do ... while (fd < 0 && errno == EAGAIN)]; [fuel] bounds the calls. *)
Fixpoint sys_bpf_prog_load (fuel : nat) (a : prog_attr) (w : W) : option (Z * prog_reply * W) :=
  match fuel with
  | O => None
  | S fuel =>
      let '(fd, r, w) := sys_prog_load a w in
      if (fd <? 0) && (errno w =? EAGAIN) then sys_bpf_prog_load fuel a w else Some (fd, r, w)
  end.

(** The attributes after a call: the kernel has written the sizes and the log. *)
Definition replied (a : prog_attr) (r : prog_reply) : prog_attr :=
  ProgAttr (pa_prog_type a) (pa_insn_cnt a) (pa_insns a) (pa_license a) (pa_log_level a)
    (pa_log_size a) ((fun _ => pr_log r) <$> pa_log_buf a) (pa_kern_version a) (pa_prog_flags a) (pa_prog_name a)
    (pa_prog_ifindex a) (pa_expected_attach_type a) (pa_prog_btf_fd a)
    (pr_func_info_rec_size r) (pa_func_info a) (pa_func_info_cnt a)
    (pr_line_info_rec_size r) (pa_line_info a) (pa_line_info_cnt a) (pa_attach_btf_id a).

Definition set_func_info (a : prog_attr) (rec_size : Z) (info : bytes) : prog_attr :=
  ProgAttr (pa_prog_type a) (pa_insn_cnt a) (pa_insns a) (pa_license a) (pa_log_level a)
    (pa_log_size a) (pa_log_buf a) (pa_kern_version a) (pa_prog_flags a) (pa_prog_name a)
    (pa_prog_ifindex a) (pa_expected_attach_type a) (pa_prog_btf_fd a)
    rec_size info (pa_func_info_cnt a)
    (pa_line_info_rec_size a) (pa_line_info a) (pa_line_info_cnt a) (pa_attach_btf_id a).

Definition set_line_info (a : prog_attr) (rec_size : Z) (info : bytes) : prog_attr :=
  ProgAttr (pa_prog_type a) (pa_insn_cnt a) (pa_insns a) (pa_license a) (pa_log_level a)
    (pa_log_size a) (pa_log_buf a) (pa_kern_version a) (pa_prog_flags a) (pa_prog_name a)
    (pa_prog_ifindex a) (pa_expected_attach_type a) (pa_prog_btf_fd a)
    (pa_func_info_rec_size a) (pa_func_info a) (pa_func_info_cnt a)
    rec_size info (pa_line_info_cnt a) (pa_attach_btf_id a).

Definition set_log (a : prog_attr) (level size : Z) (buf : option string) : prog_attr :=
  ProgAttr (pa_prog_type a) (pa_insn_cnt a) (pa_insns a) (pa_license a) level
    size buf (pa_kern_version a) (pa_prog_flags a) (pa_prog_name a)
    (pa_prog_ifindex a) (pa_expected_attach_type a) (pa_prog_btf_fd a)
    (pa_func_info_rec_size a) (pa_func_info a) (pa_func_info_cnt a)
    (pa_line_info_rec_size a) (pa_line_info a) (pa_line_info_cnt a) (pa_attach_btf_id a).

Definition fix_func_info (la : bpf_load_program_attr) (a : prog_attr) : prog_attr :=
  set_func_info a (la_func_info_rec_size la)
    (alloc_zero_tailing_info (la_func_info la) (Z.to_nat (la_func_info_cnt la))
       (Z.to_nat (la_func_info_rec_size la)) (Z.to_nat (pa_func_info_rec_size a))).
Definition fix_line_info (la : bpf_load_program_attr) (a : prog_attr) : prog_attr :=
  set_line_info a (la_line_info_rec_size la)
    (alloc_zero_tailing_info (la_line_info la) (Z.to_nat (la_line_info_cnt la))
       (Z.to_nat (la_line_info_rec_size la)) (Z.to_nat (pa_line_info_rec_size a))).

(** The loop on E2BIG.  [finfo] and [linfo] say whether the records were replaced;
    [agains] bounds the calls that answer EAGAIN.  The result is the descriptor, the
    attributes, the content of their log buffer and whether [done] was reached. *)
Fixpoint fix_info_loop (fuel agains : nat) (la : bpf_load_program_attr) (finfo linfo : bool)
    (fd : Z) (a : prog_attr) (w : W) : option (Z * prog_attr * bool * W) :=
  match fuel with
  | O => None
  | S fuel =>
      if negb ((errno w =? E2BIG) && (negb finfo || negb linfo)) then Some (fd, a, false, w) else
      let retry finfo linfo a :=
        '(fd, r, w) ← sys_bpf_prog_load agains a w;
        let a := replied a r in
        if 0 <=? fd then Some (fd, a, true, w)
        else fix_info_loop fuel agains la finfo linfo fd a w in
      if negb finfo && negb (pa_func_info_cnt a =? 0) &&
         (pa_func_info_rec_size a <? la_func_info_rec_size la)
      then retry true linfo (fix_func_info la a) else
      if negb linfo && negb (pa_line_info_cnt a =? 0) &&
         (pa_line_info_rec_size a <? la_line_info_rec_size la)
      then retry finfo true (fix_line_info la a) else
      Some (fd, a, false, w)
  end.

(** The attributes of the first call. *)
Definition load_attributes (la : bpf_load_program_attr) (log_buf : option string)
    (log_buf_sz : Z) : prog_attr :=
  let tracing := la_prog_type la =? BPF_PROG_TYPE_TRACING in
  let logging := negb (la_log_level la =? 0) in
  ProgAttr (la_prog_type la) (u32 (la_insns_cnt la)) (la_insns la) (la_license la)
    (la_log_level la) (if logging then u32 log_buf_sz else 0) (if logging then log_buf else None)
    (la_kern_version la) (la_prog_flags la) (obj_name (la_name la))
    (if tracing then 0 else la_ifindex_or_btf_id la) (la_expected_attach_type la)
    (la_prog_btf_fd la) (la_func_info_rec_size la) (la_func_info la) (la_func_info_cnt la)
    (la_line_info_rec_size la) (la_line_info la) (la_line_info_cnt la)
    (if tracing then la_ifindex_or_btf_id la else 0).

(** The content a call leaves in the caller's buffer: the kernel writes only into
    a buffer the attributes give it. *)
Definition log_after (a : prog_attr) (log_buf : option string) : option string :=
  match pa_log_buf a with Some _ as b => b | None => log_buf end.

(** The result, what the log buffer holds, the world. *)
Definition bpf_load_program_xattr (agains : nat) (la : bpf_load_program_attr)
    (log_buf : option string) (log_buf_sz : Z) (w : W) : option (Z * option string * W) :=
  let has_buf := bool_decide (is_Some log_buf) in
  if negb (Bool.eqb has_buf (negb (log_buf_sz =? 0))) then Some (- EINVAL, log_buf, w) else
  let log_level := la_log_level la in
  if (7 <? log_level) || (negb (log_level =? 0) && negb has_buf)
  then Some (- EINVAL, log_buf, w) else
  let a := load_attributes la log_buf log_buf_sz in
  '(fd, r, w) ← sys_bpf_prog_load agains a w;
  let a := replied a r in
  if 0 <=? fd then Some (fd, log_after a log_buf, w) else
  '(fd, a, done, w) ← fix_info_loop 3 agains la false false fd a w;
  if (done : bool) || negb (log_level =? 0) || negb has_buf
  then Some (fd, log_after a log_buf, w) else
  let a := set_log a 1 (u32 log_buf_sz) (Some EmptyString) in
  '(fd, r, w) ← sys_bpf_prog_load agains a w;
  Some (fd, Some (pr_log r), w).

Definition bpf_load_program (agains : nat) (type : Z) (insns : list bpf_insn) (insns_cnt : Z)
    (license : string) (kern_version : Z) (log_buf : option string) (log_buf_sz : Z) (w : W)
    : option (Z * option string * W) :=
  bpf_load_program_xattr agains
    (LoadProgramAttr type 0 None insns insns_cnt license kern_version 0 0 0 [] 0 0 [] 0 0 0)
    log_buf log_buf_sz w.

(** Writes into the log buffer, so it must not be NULL: [None]. *)
Definition bpf_verify_program (agains : nat) (type : Z) (insns : list bpf_insn) (insns_cnt : Z)
    (prog_flags : Z) (license : string) (kern_version : Z) (log_buf : option string)
    (log_buf_sz log_level : Z) (w : W) : option (Z * option string * W) :=
  _ ← log_buf;
  '(fd, r, w) ← sys_bpf_prog_load agains
    (ProgAttr type (u32 insns_cnt) insns license (u32 log_level) (u32 log_buf_sz)
       (Some EmptyString) kern_version prog_flags EmptyString 0 0 0 0 [] 0 0 [] 0 0) w;
  Some (fd, Some (pr_log r), w).

(** ** Objects, attachment, queries *)

Definition bpf_obj_pin (fd : Z) (pathname : string) (w : W) : Z * W :=
  sys_obj_pin pathname (u32 fd) w.
Definition bpf_obj_get (pathname : string) (w : W) : Z * W := sys_obj_get pathname w.

Definition bpf_prog_attach (prog_fd target_fd type flags : Z) (w : W) : Z * W :=
  sys_prog_attach (AttachAttr (u32 target_fd) (u32 prog_fd) type flags) w.
Definition bpf_prog_detach (target_fd type : Z) (w : W) : Z * W :=
  sys_prog_detach (AttachAttr (u32 target_fd) 0 type 0) w.
Definition bpf_prog_detach2 (prog_fd target_fd type : Z) (w : W) : Z * W :=
  sys_prog_detach (AttachAttr (u32 target_fd) (u32 prog_fd) type 0) w.

(** The result, [attach_flags], [prog_ids] and [prog_cnt]. *)
Definition bpf_prog_query (target_fd type query_flags : Z) (prog_ids : list Z) (prog_cnt : Z)
    (w : W) : Z * (Z * list Z * Z) * W :=
  let '(ret, q, w) :=
    sys_prog_query (QueryAttr (u32 target_fd) type query_flags 0 prog_ids prog_cnt) w in
  (ret, (qa_attach_flags q, qa_prog_ids q, qa_prog_cnt q), w).

(** The result, then [size_out], [retval] and [duration]. *)
Definition bpf_prog_test_run (prog_fd repeat : Z) (data : bytes) (size : Z)
    (data_out : option bytes) (w : W) : Z * (option bytes * Z * Z * Z) * W :=
  let '(ret, t, w) :=
    sys_prog_test_run
      (TestAttr (u32 prog_fd) 0 size 0 data data_out (u32 repeat) 0 0 0 [] None) w in
  (ret, (ta_data_out t, ta_data_size_out t, ta_retval t, ta_duration t), w).

(** The four fields the kernel answers are copied back. *)
Definition bpf_prog_test_run_xattr (t : test_attr) (w : W) : Z * test_attr * W :=
  if bool_decide (ta_data_out t = None) && (0 <? ta_data_size_out t)
  then (- EINVAL, t, w) else
  let '(ret, t', w) :=
    sys_prog_test_run
      (TestAttr (u32 (ta_prog_fd t)) 0 (ta_data_size_in t) (ta_data_size_out t) (ta_data_in t)
         (ta_data_out t) (u32 (ta_repeat t)) 0 (ta_ctx_size_in t) (ta_ctx_size_out t)
         (ta_ctx_in t) (ta_ctx_out t)) w in
  (ret, TestAttr (ta_prog_fd t) (ta_retval t') (ta_data_size_in t) (ta_data_size_out t')
          (ta_data_in t) (ta_data_out t') (ta_repeat t) (ta_duration t') (ta_ctx_size_in t)
          (ta_ctx_size_out t') (ta_ctx_in t) (ta_ctx_out t'), w).

(** The identifier is written only on success. *)
Definition bpf_obj_get_next_id (start_id next_id : Z) (cmd : id_cmd) (w : W) : Z * Z * W :=
  let '(err, id, w) := sys_get_next_id cmd start_id w in
  (err, if err =? 0 then id else next_id, w).
Definition bpf_prog_get_next_id (start_id next_id : Z) (w : W) : Z * Z * W :=
  bpf_obj_get_next_id start_id next_id BPF_PROG_GET_NEXT_ID w.
Definition bpf_map_get_next_id (start_id next_id : Z) (w : W) : Z * Z * W :=
  bpf_obj_get_next_id start_id next_id BPF_MAP_GET_NEXT_ID w.
Definition bpf_btf_get_next_id (start_id next_id : Z) (w : W) : Z * Z * W :=
  bpf_obj_get_next_id start_id next_id BPF_BTF_GET_NEXT_ID w.

Definition bpf_prog_get_fd_by_id (id : Z) (w : W) : Z * W :=
  sys_get_fd_by_id BPF_PROG_GET_FD_BY_ID id w.
Definition bpf_map_get_fd_by_id (id : Z) (w : W) : Z * W :=
  sys_get_fd_by_id BPF_MAP_GET_FD_BY_ID id w.
Definition bpf_btf_get_fd_by_id (id : Z) (w : W) : Z * W :=
  sys_get_fd_by_id BPF_BTF_GET_FD_BY_ID id w.

(** The result, the content of [info] and [info_len]. *)
Definition bpf_obj_get_info_by_fd (prog_fd info_len : Z) (w : W) : Z * bytes * Z * W :=
  let '(err, info, len, w) := sys_obj_get_info_by_fd (u32 prog_fd) info_len w in
  (err, info, if err =? 0 then len else info_len, w).

Definition bpf_raw_tracepoint_open (name : option string) (prog_fd : Z) (w : W) : Z * W :=
  sys_raw_tracepoint_open name (u32 prog_fd) w.

(** The second call, with the log, after a first one without. *)
Definition bpf_load_btf (btf : bytes) (btf_size : Z) (log_buf : option string)
    (log_buf_size : Z) (do_log : bool) (w : W) : Z * option string * W :=
  let can_log := bool_decide (is_Some log_buf) && negb (log_buf_size =? 0) in
  let logged w :=
    let '(fd, b, w) := sys_btf_load (BtfAttr btf btf_size 1 log_buf_size log_buf) w in
    (fd, Some b, w) in
  if do_log && can_log then logged w else
  let '(fd, _, w) := sys_btf_load (BtfAttr btf btf_size 0 0 None) w in
  if (fd =? -1) && negb do_log && can_log then logged w else (fd, log_buf, w).

(** The result and what [task_fd_query] holds after the call. *)
Definition bpf_task_fd_query (pid fd flags : Z) (buf : string) (buf_len : Z) (w : W)
    : Z * task_attr * W :=
  sys_task_fd_query (TaskAttr (u32 pid) (u32 fd) flags buf buf_len 0 0 0 0) w.
End Calls.

(** ** Records the kernel does not know *)

Section Records.
Context (actual expected : nat) (Hle : (expected <= actual)%nat).

Lemma zero_tail_length record :
  List.length record = actual -> List.length (zero_tail record actual expected) = actual.
Proof. intros. unfold zero_tail. rewrite List.length_app, length_take, length_replicate. lia. Qed.

Lemma zero_tail_lookup record j :
  List.length record = actual -> (j < actual)%nat ->
  zero_tail record actual expected !! j = if decide (j < expected)%nat then record !! j else Some 0.
Proof.
  intros Hlen Hj. unfold zero_tail. case_decide as E.
  - rewrite lookup_app_l by (rewrite length_take; lia). by apply lookup_take_lt.
  - rewrite lookup_app_r; rewrite length_take, Nat.min_l by lia; [|lia].
    apply lookup_replicate_2. lia.
Qed.

Lemma tailing_length cnt info :
  (cnt * actual <= List.length info)%nat ->
  List.length (alloc_zero_tailing_info info cnt actual expected) = (cnt * actual)%nat.
Proof.
  revert info. induction cnt as [|cnt IH]; intros info Hlen; [done|].
  cbn. rewrite List.length_app, zero_tail_length by (rewrite length_take; lia).
  rewrite IH; [done|]. rewrite length_drop. lia.
Qed.

Lemma tailing_lookup cnt info i j :
  (cnt * actual <= List.length info)%nat -> (i < cnt)%nat -> (j < actual)%nat ->
  alloc_zero_tailing_info info cnt actual expected !! (i * actual + j)%nat =
  if decide (j < expected)%nat then info !! (i * actual + j)%nat else Some 0.
Proof.
  revert info i. induction cnt as [|cnt IH]; intros info i Hlen Hi Hj; [lia|].
  cbn [alloc_zero_tailing_info].
  assert (List.length (take actual info) = actual) as Ht by (rewrite length_take; lia).
  destruct i as [|i]; cbn [Nat.mul Nat.add].
  - rewrite lookup_app_l by (rewrite zero_tail_length; lia).
    rewrite zero_tail_lookup by done. case_decide; [|done]. apply lookup_take_lt. lia.
  - rewrite lookup_app_r; rewrite zero_tail_length by done; [|lia].
    replace (actual + i * actual + j - actual)%nat with (i * actual + j)%nat by lia.
    rewrite IH by (rewrite ?length_drop; lia). case_decide; [|done].
    rewrite lookup_drop. f_equal. lia.
Qed.
End Records.

(** ** Loading a program: every submission, and the end *)

(** What a submission says of the program, the records and the log aside. *)
Definition program_of (a : prog_attr) : prog_attr :=
  set_log (set_func_info (set_line_info a 0 []) 0 []) 0 0 None.

Section Loads.
Context {W : Type} `{BpfKern W}.

(** A call that submits the program [p] and fails. *)
Definition fails (p : prog_attr) (w w' : W) : Prop :=
  exists a fd r, program_of a = p /\ sys_prog_load a w = (fd, r, w') /\ fd < 0.

(** [fd] is the answer to a submission of [p] after failed ones, or an error after
    failed ones. *)
Definition answers (p : prog_attr) (fd : Z) (w w' : W) : Prop :=
  fd < 0 /\ rtc (fails p) w w' \/
  0 <= fd /\ exists w1 a r, rtc (fails p) w w1 /\ program_of a = p /\
    sys_prog_load a w1 = (fd, r, w').

Lemma answers_after p fd w w1 w' :
  rtc (fails p) w w1 -> answers p fd w1 w' -> answers p fd w w'.
Proof.
  intros Hw [[Hfd Hw1]|(Hfd & w2 & a & r & Hw1 & E)]; [left|right].
  - split; [done|]. by etrans.
  - split; [done|]. exists w2, a, r. split; [by etrans|done].
Qed.

Lemma answers_failed p fd w w' : answers p fd w w' -> fd < 0 -> rtc (fails p) w w'.
Proof. intros [[_ ?]|[? _]] ?; [done|lia]. Qed.

Lemma prog_load_answers fuel a w fd r w' :
  sys_bpf_prog_load fuel a w = Some (fd, r, w') -> answers (program_of a) fd w w'.
Proof.
  revert w. induction fuel as [|fuel IH]; intros w; [done|]. cbn.
  destruct (sys_prog_load a w) as [[fd1 r1] w1] eqn:E.
  destruct (Z.ltb_spec fd1 0) as [Hneg|Hpos]; cbn [andb].
  - assert (fails (program_of a) w w1) as Hf by (by exists a, fd1, r1).
    destruct (errno w1 =? EAGAIN).
    + intros Hrun. eapply answers_after; [by apply rtc_once|]. by apply IH.
    + intros [= <- <- <-]. left. split; [done|]. by apply rtc_once.
  - intros [= <- <- <-]. right. split; [done|]. exists w, a, r1. by split; [apply rtc_refl|].
Qed.

Lemma fix_loop_answers fuel agains la finfo linfo fd a w fd' a' d w' :
  fix_info_loop fuel agains la finfo linfo fd a w = Some (fd', a', d, w') -> fd < 0 ->
  program_of a' = program_of a /\ answers (program_of a) fd' w w' /\ d = (0 <=? fd').
Proof.
  revert finfo linfo fd a w. induction fuel as [|fuel IH]; intros finfo linfo fd a w; [done|].
  cbn [fix_info_loop].
  assert (forall a1 fi li,
    program_of a1 = program_of a ->
    ('(fd, r, w) ← sys_bpf_prog_load agains a1 w;
     if 0 <=? fd then Some (fd, replied a1 r, true, w)
     else fix_info_loop fuel agains la fi li fd (replied a1 r) w) = Some (fd', a', d, w') ->
    program_of a' = program_of a /\ answers (program_of a) fd' w w' /\ d = (0 <=? fd')) as Hretry.
  { intros a1 fi li Ha Hrun. apply bind_Some in Hrun as ([[fd1 r] w1] & Hl & Hrun).
    apply prog_load_answers in Hl. rewrite Ha in Hl.
    destruct (Z.leb_spec 0 fd1) as [Hpos|Hneg].
    - injection Hrun as <- <- <- <-. split; [done|]. split; [done|].
      symmetry. by apply Z.leb_le.
    - apply IH in Hrun as (Hp & Hans & Hd); [|done].
      change (program_of (replied a1 r)) with (program_of a1) in *. rewrite Ha in Hp, Hans.
      split; [done|]. split; [|done]. eapply answers_after; [|done].
      by eapply answers_failed. }
  assert (fd < 0 -> Some (fd, a, false, w) = Some (fd', a', d, w') ->
    program_of a' = program_of a /\ answers (program_of a) fd' w w' /\ d = (0 <=? fd')) as Hstop.
  { intros Hfd [= <- <- <- <-]. split; [done|]. split; [by left|].
    symmetry. by apply Z.leb_gt. }
  intros Hrun Hfd. destruct (negb (_ && _)); [by auto|].
  destruct (negb finfo && _ && _); [by apply Hretry in Hrun|].
  destruct (negb linfo && _ && _); [by apply Hretry in Hrun|]. by auto.
Qed.

(** Whatever calls [bpf_load_program_xattr] repeats, each submits the program of
    its attributes, and only the last one can succeed, with the descriptor answered. *)
Theorem load_program_answers agains la log_buf sz w fd b w' :
  bpf_load_program_xattr agains la log_buf sz w = Some (fd, b, w') ->
  answers (program_of (load_attributes la log_buf sz)) fd w w'.
Proof.
  unfold bpf_load_program_xattr.
  destruct (negb (Bool.eqb _ _)). { intros [= <- _ <-]. left. by split; [|apply rtc_refl]. }
  destruct (_ || _). { intros [= <- _ <-]. left. by split; [|apply rtc_refl]. }
  intros Hrun. apply bind_Some in Hrun as ([[fd1 r1] w1] & Hl & Hrun).
  apply prog_load_answers in Hl. destruct (Z.leb_spec 0 fd1) as [Hpos|Hneg].
  { by injection Hrun as <- <- <-. }
  apply bind_Some in Hrun as ([[[fd2 a2] d] w2] & Hloop & Hrun).
  apply fix_loop_answers in Hloop as (Hp & Hans & Hd); [|done].
  change (program_of (replied ?a _)) with (program_of a) in *.
  assert (answers (program_of (load_attributes la log_buf sz)) fd2 w w2) as Hans2
    by (eapply answers_after; [by eapply answers_failed|done]).
  destruct (d || _ || _) eqn:Hd2; [by injection Hrun as <- <- <-|].
  apply orb_false_iff in Hd2 as [[-> _]%orb_false_iff _].
  symmetry in Hd. apply Z.leb_gt in Hd.
  apply bind_Some in Hrun as ([[fd3 r3] w3] & Hl3 & [= <- <- <-]).
  apply prog_load_answers in Hl3.
  change (program_of (set_log a2 _ _ _)) with (program_of a2) in Hl3. rewrite Hp in Hl3.
  eapply answers_after; [by eapply answers_failed|done].
Qed.
End Loads.

(** The kernel answers EAGAIN at most so many times in a row of loads. *)
Class PatientKern (W : Type) `{BpfKern W} := {
  patience : W -> nat;
  patience_load : forall a w fd r w', sys_prog_load a w = (fd, r, w') ->
    (patience w' <= patience w)%nat;
  patience_again : forall a w fd r w', sys_prog_load a w = (fd, r, w') ->
    fd < 0 -> errno w' = EAGAIN -> (patience w' < patience w)%nat;
}.

Section Ends.
Context {W : Type} `{PatientKern W}.

Lemma prog_load_ends fuel a w :
  (patience w < fuel)%nat -> exists fd r w', sys_bpf_prog_load fuel a w = Some (fd, r, w') /\
    (patience w' <= patience w)%nat.
Proof.
  revert w. induction fuel as [|fuel IH]; intros w Hf; [lia|]. cbn.
  destruct (sys_prog_load a w) as [[fd r] w1] eqn:E.
  pose proof (patience_load _ _ _ _ _ E) as Hle.
  destruct (Z.ltb_spec fd 0); cbn [andb]; [|by eauto].
  destruct (Z.eqb_spec (errno w1) EAGAIN); [|by eauto].
  pose proof (patience_again _ _ _ _ _ E) as Hlt.
  destruct (IH w1) as (fd' & r' & w' & -> & Hw'); [lia|]. eexists _, _, _. split; [done|]. lia.
Qed.

Lemma fix_loop_ends fuel agains la finfo linfo fd a w :
  (Nat.b2n (negb finfo) + Nat.b2n (negb linfo) < fuel)%nat -> (patience w < agains)%nat ->
  exists fd' a' d w', fix_info_loop fuel agains la finfo linfo fd a w = Some (fd', a', d, w') /\
    (patience w' <= patience w)%nat.
Proof.
  revert finfo linfo fd a w. induction fuel as [|fuel IH]; intros finfo linfo fd a w Hf Hp; [lia|].
  cbn [fix_info_loop].
  assert (forall a1 fi li, (Nat.b2n (negb fi) + Nat.b2n (negb li) < fuel)%nat ->
    exists fd' a' d w',
      ('(fd, r, w) ← sys_bpf_prog_load agains a1 w;
       if 0 <=? fd then Some (fd, replied a1 r, true, w)
       else fix_info_loop fuel agains la fi li fd (replied a1 r) w) = Some (fd', a', d, w') /\
      (patience w' <= patience w)%nat) as Hretry.
  { intros a1 fi li Hb. destruct (prog_load_ends agains a1 w Hp) as (fd1 & r & w1 & -> & Hw1).
    cbn [mbind option_bind]. destruct (0 <=? fd1); [by eauto 10|].
    edestruct (IH fi li) as (fd' & a' & d & w' & -> & Hw'); [done|lia|].
    eexists _, _, _, _. split; [done|]. lia. }
  destruct (negb (_ && _)); [by eauto 10|].
  destruct finfo; cbn [negb andb] in *; [|destruct (_ && _)].
  - destruct linfo; cbn [negb andb] in *; [by eauto 10|].
    destruct (_ && _); [|by eauto 10]. apply Hretry. cbn in *. lia.
  - apply Hretry. cbn in *. lia.
  - destruct linfo; cbn [negb andb] in *; [by eauto 10|].
    destruct (_ && _); [|by eauto 10]. apply Hretry. cbn in *. lia.
Qed.

(** [bpf_load_program_xattr] ends: the records are replaced at most once each. *)
Theorem load_program_ends agains la log_buf sz w :
  (patience w < agains)%nat ->
  exists fd b w', bpf_load_program_xattr agains la log_buf sz w = Some (fd, b, w').
Proof.
  intros Hp. unfold bpf_load_program_xattr. destruct (negb (Bool.eqb _ _)); [by eauto|].
  destruct (_ || _); [by eauto|].
  destruct (prog_load_ends agains (load_attributes la log_buf sz) w Hp)
    as (fd1 & r1 & w1 & -> & Hw1).
  cbn [mbind option_bind]. destruct (0 <=? fd1); [by eauto|].
  edestruct (fix_loop_ends 3 agains la false false) as (fd2 & a2 & d & w2 & -> & Hw2);
    [cbn; lia|lia|].
  cbn [mbind option_bind]. destruct (_ || _ || _); [by eauto|].
  edestruct prog_load_ends as (fd3 & r3 & w3 & -> & Hw3); [|by cbn; eauto]. lia.
Qed.
End Ends.
