(* ===== verification/SectionNames.v ===== *)
(** * Program types from section names

    Models the table [section_names] of [libbpf/src/libbpf.c] and the functions that
    search it.  The pointer arguments a function fills are part of its result. *)

From S2P Require Import Prelude BpfObject.
From Stdlib Require Import Ascii String.

Local Open Scope Z_scope.

Definition ESRCH : Z := 3.

(** ** [enum bpf_prog_type] and [enum bpf_attach_type] *)

Module Uapi.
Definition BPF_PROG_TYPE_SOCKET_FILTER : Z := 1.
Definition BPF_PROG_TYPE_KPROBE : Z := 2.
Definition BPF_PROG_TYPE_SCHED_CLS : Z := 3.
Definition BPF_PROG_TYPE_SCHED_ACT : Z := 4.
Definition BPF_PROG_TYPE_TRACEPOINT : Z := 5.
Definition BPF_PROG_TYPE_PERF_EVENT : Z := 7.
Definition BPF_PROG_TYPE_CGROUP_SKB : Z := 8.
Definition BPF_PROG_TYPE_CGROUP_SOCK : Z := 9.
Definition BPF_PROG_TYPE_LWT_IN : Z := 10.
Definition BPF_PROG_TYPE_LWT_OUT : Z := 11.
Definition BPF_PROG_TYPE_LWT_XMIT : Z := 12.
Definition BPF_PROG_TYPE_SOCK_OPS : Z := 13.
Definition BPF_PROG_TYPE_SK_SKB : Z := 14.
Definition BPF_PROG_TYPE_CGROUP_DEVICE : Z := 15.
Definition BPF_PROG_TYPE_SK_MSG : Z := 16.
Definition BPF_PROG_TYPE_RAW_TRACEPOINT : Z := 17.
Definition BPF_PROG_TYPE_CGROUP_SOCK_ADDR : Z := 18.
Definition BPF_PROG_TYPE_LWT_SEG6LOCAL : Z := 19.
Definition BPF_PROG_TYPE_LIRC_MODE2 : Z := 20.
Definition BPF_PROG_TYPE_FLOW_DISSECTOR : Z := 22.
Definition BPF_PROG_TYPE_CGROUP_SYSCTL : Z := 23.
Definition BPF_PROG_TYPE_CGROUP_SOCKOPT : Z := 25.
Definition BPF_PROG_TYPE_TRACING : Z := 26.

Definition BPF_CGROUP_INET_INGRESS : Z := 0.
Definition BPF_CGROUP_INET_EGRESS : Z := 1.
Definition BPF_CGROUP_INET_SOCK_CREATE : Z := 2.
Definition BPF_CGROUP_SOCK_OPS : Z := 3.
Definition BPF_SK_SKB_STREAM_PARSER : Z := 4.
Definition BPF_SK_SKB_STREAM_VERDICT : Z := 5.
Definition BPF_CGROUP_DEVICE : Z := 6.
Definition BPF_SK_MSG_VERDICT : Z := 7.
Definition BPF_CGROUP_INET4_BIND : Z := 8.
Definition BPF_CGROUP_INET6_BIND : Z := 9.
Definition BPF_CGROUP_INET4_CONNECT : Z := 10.
Definition BPF_CGROUP_INET6_CONNECT : Z := 11.
Definition BPF_CGROUP_INET4_POST_BIND : Z := 12.
Definition BPF_CGROUP_INET6_POST_BIND : Z := 13.
Definition BPF_CGROUP_UDP4_SENDMSG : Z := 14.
Definition BPF_CGROUP_UDP6_SENDMSG : Z := 15.
Definition BPF_LIRC_MODE2 : Z := 16.
Definition BPF_FLOW_DISSECTOR : Z := 17.
Definition BPF_CGROUP_SYSCTL : Z := 18.
Definition BPF_CGROUP_UDP4_RECVMSG : Z := 19.
Definition BPF_CGROUP_UDP6_RECVMSG : Z := 20.
Definition BPF_CGROUP_GETSOCKOPT : Z := 21.
Definition BPF_CGROUP_SETSOCKOPT : Z := 22.
Definition BPF_TRACE_RAW_TP : Z := 23.
End Uapi.
Import Uapi.

(** ** The table *)

(** An element of [section_names]; [len] is the length of [sec]. *)
Record section_def := SectionDef {
  sec : string;
  sec_prog_type : Z;
  sec_expected_attach_type : Z;
  is_attachable : bool;
  is_attach_btf : bool;
  sec_attach_type : Z;
}.

Definition BPF_PROG_SEC (s : string) (ptype : Z) : section_def :=
  SectionDef s ptype 0 false false 0.
Definition BPF_APROG_SEC (s : string) (ptype atype : Z) : section_def :=
  SectionDef s ptype 0 true false atype.
Definition BPF_EAPROG_SEC (s : string) (ptype eatype : Z) : section_def :=
  SectionDef s ptype eatype true false eatype.
Definition BPF_PROG_BTF (s : string) (ptype eatype : Z) : section_def :=
  SectionDef s ptype eatype false true 0.
Definition BPF_APROG_COMPAT (s : string) (ptype : Z) : section_def := BPF_PROG_SEC s ptype.

Definition section_names : list section_def := [
  BPF_PROG_SEC "socket" BPF_PROG_TYPE_SOCKET_FILTER;
  BPF_PROG_SEC "kprobe/" BPF_PROG_TYPE_KPROBE;
  BPF_PROG_SEC "uprobe/" BPF_PROG_TYPE_KPROBE;
  BPF_PROG_SEC "kretprobe/" BPF_PROG_TYPE_KPROBE;
  BPF_PROG_SEC "uretprobe/" BPF_PROG_TYPE_KPROBE;
  BPF_PROG_SEC "classifier" BPF_PROG_TYPE_SCHED_CLS;
  BPF_PROG_SEC "action" BPF_PROG_TYPE_SCHED_ACT;
  BPF_PROG_SEC "tracepoint/" BPF_PROG_TYPE_TRACEPOINT;
  BPF_PROG_SEC "tp/" BPF_PROG_TYPE_TRACEPOINT;
  BPF_PROG_SEC "raw_tracepoint/" BPF_PROG_TYPE_RAW_TRACEPOINT;
  BPF_PROG_SEC "raw_tp/" BPF_PROG_TYPE_RAW_TRACEPOINT;
  BPF_PROG_BTF "tp_btf/" BPF_PROG_TYPE_TRACING BPF_TRACE_RAW_TP;
  BPF_PROG_SEC "xdp" BPF_PROG_TYPE_XDP;
  BPF_PROG_SEC "perf_event" BPF_PROG_TYPE_PERF_EVENT;
  BPF_PROG_SEC "lwt_in" BPF_PROG_TYPE_LWT_IN;
  BPF_PROG_SEC "lwt_out" BPF_PROG_TYPE_LWT_OUT;
  BPF_PROG_SEC "lwt_xmit" BPF_PROG_TYPE_LWT_XMIT;
  BPF_PROG_SEC "lwt_seg6local" BPF_PROG_TYPE_LWT_SEG6LOCAL;
  BPF_APROG_SEC "cgroup_skb/ingress" BPF_PROG_TYPE_CGROUP_SKB BPF_CGROUP_INET_INGRESS;
  BPF_APROG_SEC "cgroup_skb/egress" BPF_PROG_TYPE_CGROUP_SKB BPF_CGROUP_INET_EGRESS;
  BPF_APROG_COMPAT "cgroup/skb" BPF_PROG_TYPE_CGROUP_SKB;
  BPF_APROG_SEC "cgroup/sock" BPF_PROG_TYPE_CGROUP_SOCK BPF_CGROUP_INET_SOCK_CREATE;
  BPF_EAPROG_SEC "cgroup/post_bind4" BPF_PROG_TYPE_CGROUP_SOCK BPF_CGROUP_INET4_POST_BIND;
  BPF_EAPROG_SEC "cgroup/post_bind6" BPF_PROG_TYPE_CGROUP_SOCK BPF_CGROUP_INET6_POST_BIND;
  BPF_APROG_SEC "cgroup/dev" BPF_PROG_TYPE_CGROUP_DEVICE BPF_CGROUP_DEVICE;
  BPF_APROG_SEC "sockops" BPF_PROG_TYPE_SOCK_OPS BPF_CGROUP_SOCK_OPS;
  BPF_APROG_SEC "sk_skb/stream_parser" BPF_PROG_TYPE_SK_SKB BPF_SK_SKB_STREAM_PARSER;
  BPF_APROG_SEC "sk_skb/stream_verdict" BPF_PROG_TYPE_SK_SKB BPF_SK_SKB_STREAM_VERDICT;
  BPF_APROG_COMPAT "sk_skb" BPF_PROG_TYPE_SK_SKB;
  BPF_APROG_SEC "sk_msg" BPF_PROG_TYPE_SK_MSG BPF_SK_MSG_VERDICT;
  BPF_APROG_SEC "lirc_mode2" BPF_PROG_TYPE_LIRC_MODE2 BPF_LIRC_MODE2;
  BPF_APROG_SEC "flow_dissector" BPF_PROG_TYPE_FLOW_DISSECTOR BPF_FLOW_DISSECTOR;
  BPF_EAPROG_SEC "cgroup/bind4" BPF_PROG_TYPE_CGROUP_SOCK_ADDR BPF_CGROUP_INET4_BIND;
  BPF_EAPROG_SEC "cgroup/bind6" BPF_PROG_TYPE_CGROUP_SOCK_ADDR BPF_CGROUP_INET6_BIND;
  BPF_EAPROG_SEC "cgroup/connect4" BPF_PROG_TYPE_CGROUP_SOCK_ADDR BPF_CGROUP_INET4_CONNECT;
  BPF_EAPROG_SEC "cgroup/connect6" BPF_PROG_TYPE_CGROUP_SOCK_ADDR BPF_CGROUP_INET6_CONNECT;
  BPF_EAPROG_SEC "cgroup/sendmsg4" BPF_PROG_TYPE_CGROUP_SOCK_ADDR BPF_CGROUP_UDP4_SENDMSG;
  BPF_EAPROG_SEC "cgroup/sendmsg6" BPF_PROG_TYPE_CGROUP_SOCK_ADDR BPF_CGROUP_UDP6_SENDMSG;
  BPF_EAPROG_SEC "cgroup/recvmsg4" BPF_PROG_TYPE_CGROUP_SOCK_ADDR BPF_CGROUP_UDP4_RECVMSG;
  BPF_EAPROG_SEC "cgroup/recvmsg6" BPF_PROG_TYPE_CGROUP_SOCK_ADDR BPF_CGROUP_UDP6_RECVMSG;
  BPF_EAPROG_SEC "cgroup/sysctl" BPF_PROG_TYPE_CGROUP_SYSCTL BPF_CGROUP_SYSCTL;
  BPF_EAPROG_SEC "cgroup/getsockopt" BPF_PROG_TYPE_CGROUP_SOCKOPT BPF_CGROUP_GETSOCKOPT;
  BPF_EAPROG_SEC "cgroup/setsockopt" BPF_PROG_TYPE_CGROUP_SOCKOPT BPF_CGROUP_SETSOCKOPT
].

(** ** Searching it *)

(** [strncmp(name, sec, strlen(sec)) == 0]. *)
Definition matches (nm : string) (d : section_def) : bool := String.prefix (sec d) nm.

Definition search (keep : section_def -> bool) (nm : string) : option section_def :=
  List.find (fun d => keep d && matches nm d) section_names.

Definition MAX_TYPE_NAME_SIZE : nat := 32.

(** [strcat] of a space and the name; [None] for NULL when the buffer is too small. *)
Fixpoint add_names (len : nat) (buf : string) (ds : list section_def) : option string :=
  match ds with
  | [] => Some buf
  | d :: ds =>
      if (len <? String.length buf + String.length (sec d) + 2)%nat then None
      else add_names len (buf +:+ " " +:+ sec d)%string ds
  end.

Definition libbpf_get_type_names (attach_type : bool) : option string :=
  add_names (List.length section_names * MAX_TYPE_NAME_SIZE) EmptyString
    (List.filter (fun d => negb (attach_type && negb (is_attachable d))) section_names).

(** The error, or the type and the expected attach type. *)
Definition libbpf_prog_type_by_name (nm : option string) : Z + Z * Z :=
  match nm with
  | None => inl (- EINVAL)
  | Some nm =>
      match search (fun _ => true) nm with
      | Some d => inr (sec_prog_type d, sec_expected_attach_type d)
      | None => inl (- ESRCH)
      end
  end.

Definition libbpf_attach_type_by_name (nm : option string) : Z + Z :=
  match nm with
  | None => inl (- EINVAL)
  | Some nm =>
      match search (fun _ => true) nm with
      | Some d => if negb (is_attachable d) then inl (- EINVAL) else inr (sec_attach_type d)
      | None => inl (- EINVAL)
      end
  end.

Definition BTF_PREFIX : string := "btf_trace_".

(** [sizeof(raw_tp_btf_name) - sizeof(BTF_PREFIX)]: what [strncat] may append. *)
Definition raw_tp_room : nat := 117.

(** [kernel_btf] is the search of a name in the kernel's BTF, [None] without it. *)
Definition libbpf_attach_btf_id_by_name (kernel_btf : option (string -> Z)) (nm : option string)
    : Z + Z :=
  match kernel_btf with
  | None => inl (- EINVAL)
  | Some find_by_name =>
      match nm with
      | None => inl (- EINVAL)
      | Some nm =>
          match search is_attach_btf nm with
          | None => inl (- ESRCH)
          | Some d =>
              let rest := substring (String.length (sec d)) raw_tp_room nm in
              let ret := find_by_name (BTF_PREFIX +:+ rest)%string in
              if ret <=? 0 then inl (- EINVAL) else inr ret
          end
      end
  end.

(** ** The search takes the longest name *)

Lemma prefix_spec s t : String.prefix s t = true <-> exists r, t = (s +:+ r)%string.
Proof.
  split.
  - revert t. induction s as [|c s IH]; intros t; [by exists t|]. destruct t as [|c' t]; cbn; [done|].
    destruct (ascii_dec c c') as [->|]; [|done]. intros [r ->]%IH. by exists r.
  - intros [r ->]. induction s as [|c s IH]; [by destruct r|].
    change ((if ascii_dec c c then String.prefix s (s +:+ r)%string else false) = true).
    destruct (ascii_dec c c); [exact IH|congruence].
Qed.

(** Of two prefixes of a string the shorter is a prefix of the longer. *)
Lemma prefix_common s t u :
  String.prefix s u = true -> String.prefix t u = true ->
  (String.length s <= String.length t)%nat -> String.prefix s t = true.
Proof.
  revert t u. induction s as [|c s IH]; intros t u; [by destruct t|].
  destruct u as [|c' u]; cbn; [done|]. destruct (ascii_dec c c') as [->|]; [|done].
  intros Hs. destruct t as [|c2 t]; cbn; [lia|]. destruct (ascii_dec c2 c') as [->|]; [|done].
  intros Ht Hl. destruct (ascii_dec c' c'); [|congruence]. eapply IH; [done|done|lia].
Qed.

(** No name of the table is a proper prefix of a later one. *)
Fixpoint ordered (ds : list section_def) : bool :=
  match ds with
  | [] => true
  | d :: ds => forallb (fun e => negb (String.prefix (sec d) (sec e))) ds && ordered ds
  end.

Lemma section_names_ordered : ordered section_names = true.
Proof. vm_compute. reflexivity. Qed.

Lemma find_longest nm ds d e :
  ordered ds = true -> List.find (fun d => matches nm d) ds = Some d ->
  In e ds -> matches nm e = true -> e = d \/ (String.length (sec e) < String.length (sec d))%nat.
Proof.
  unfold matches. induction ds as [|a ds IH]; cbn; [done|].
  intros [Ha Ho]%andb_true_iff. destruct (String.prefix (sec a) nm) eqn:Hm.
  - intros [= <-] [->|Hin] He; [by left|]. right. rewrite forallb_forall in Ha.
    specialize (Ha e Hin). apply negb_true_iff in Ha.
    destruct (le_lt_dec (String.length (sec a)) (String.length (sec e))) as [Hl|]; [|done].
    by rewrite (prefix_common _ _ _ Hm He Hl) in Ha.
  - intros Hf [->|Hin] He; [congruence|]. by apply IH.
Qed.

(** The type guessed from a section's name is that of the longest name of the table
    that starts it, whatever their order; without one there is no guess. *)
Theorem prog_type_longest nm :
  match libbpf_prog_type_by_name (Some nm) with
  | inr (t, eat) => exists d, In d section_names /\ String.prefix (sec d) nm = true /\
      t = sec_prog_type d /\ eat = sec_expected_attach_type d /\
      forall e, In e section_names -> String.prefix (sec e) nm = true ->
        e = d \/ (String.length (sec e) < String.length (sec d))%nat
  | inl err => err = - ESRCH /\
      forall e, In e section_names -> String.prefix (sec e) nm = false
  end.
Proof.
  unfold libbpf_prog_type_by_name, search. cbn [andb].
  destruct (List.find _ section_names) as [d|] eqn:Hf.
  - exists d. pose proof (find_some _ _ Hf) as [Hin Hm]. split; [done|]. split; [done|].
    split; [done|]. split; [done|]. intros e He.
    apply (find_longest nm section_names); [apply section_names_ordered|done|done].
  - split; [done|]. intros e He. by apply (find_none _ _ Hf).
Qed.

(** A section named after [xdp] holds an XDP program. *)
Theorem xdp_sections nm :
  libbpf_prog_type_by_name (Some ("xdp" +:+ nm))%string = inr (BPF_PROG_TYPE_XDP, 0).
Proof. by destruct nm. Qed.

(** The list of names fits its buffer. *)
Theorem type_names_fit b : libbpf_get_type_names b <> None.
Proof. destruct b; vm_compute; discriminate. Qed.
