(* ===== verification/BpfLoad.v ===== *)
(** * Loading an object into the kernel

    Models the load path of [libbpf/src/libbpf.c]: collecting the relocations of
    the ELF file, creating or reusing the maps, patching the instructions, loading
    the programs, and what is undone on failure.  The records extend those of
    [BpfObject] by the fields the load path uses.  An access outside an array, or
    to a relocation left uninitialised, is [None].  libelf is the symbol table and
    the relocation entries it delivers; the BTF reader is the class [BtfOps], the CO-RE
    relocations the class [CoreOps]; system calls are [BpfSys] and [BpfKern].  Memory allocation is taken to succeed. *)

From S2P Require Import Prelude BpfMap BpfCalls BpfObject.
From Stdlib Require Import Ascii String.

Local Open Scope Z_scope.

#[local] Abbreviation bytes := (list Z).

Definition EBUSY : Z := 16.
Definition ENOSPC : Z := 28.
Definition LIBBPF_ERRNO__FORMAT : Z := 4001.
Definition LIBBPF_ERRNO__INTERNAL : Z := 4004.
Definition LIBBPF_ERRNO__RELOC : Z := 4005.
Definition LIBBPF_ERRNO__VERIFY : Z := 4007.
Definition LIBBPF_ERRNO__PROG2BIG : Z := 4008.
Definition LIBBPF_ERRNO__PROGTYPE : Z := 4010.

Definition SHN_LORESERVE : Z := 65280.
Definition STB_GLOBAL : Z := 1.
Definition SHT_REL : Z := 9.
Definition BPF_PSEUDO_CALL : Z := 1.
Definition BPF_PSEUDO_MAP_FD : Z := 1.
Definition BPF_PSEUDO_MAP_VALUE : Z := 2.
(** [BPF_JMP | BPF_CALL] and [BPF_LD | BPF_IMM | BPF_DW]. *)
Definition JMP_CALL : Z := 133.
Definition LD_IMM_DW : Z := 24.
Definition BPF_MAXINSNS : Z := 4096.
Definition BPF_LOG_BUF_SIZE : Z := 16777215.
Definition BPF_PROG_TYPE_KPROBE : Z := 2.
Definition BPF_MAP_TYPE_ARRAY_OF_MAPS : Z := 12.
Definition BPF_MAP_TYPE_HASH_OF_MAPS : Z := 13.

(** ** Data *)

Inductive reloc_type := RELO_LD64 | RELO_CALL | RELO_DATA.

(** [struct reloc_desc]; [target] is the union of [map_idx] and [text_off]. *)
Record reloc_desc := RelocDesc { rtype : reloc_type; insn_idx : Z; target : Z }.

Inductive libbpf_map_type :=
  LIBBPF_MAP_UNSPEC | LIBBPF_MAP_DATA | LIBBPF_MAP_BSS | LIBBPF_MAP_RODATA.

#[export] Instance reloc_type_eq_dec : EqDecision reloc_type.
Proof. solve_decision. Defined.
#[export] Instance libbpf_map_type_eq_dec : EqDecision libbpf_map_type.
Proof. solve_decision. Defined.

(** [struct bpf_map]. *)
Record full_map := FullMap {
  mbase : bpf_map;
  sec_idx : Z;
  sec_offset : Z;
  inner_map_fd : Z;
  btf_key_type_id : Z;
  btf_value_type_id : Z;
  libbpf_type : libbpf_map_type;
}.

(** [func_info] or [line_info] of a program with its two sizes; NULL is [None]. *)
Record prog_info := ProgInfo { info_ptr : option bytes; info_rec_size : Z; info_cnt : Z }.

(** [struct bpf_program].  [reloc_desc] is NULL or an array whose entries may be
    uninitialised; the preprocessor answers an error and new instructions (none
    for NULL or a count of 0), its [pfd] being the client's business. *)
Record full_program := FullProgram {
  pbase : bpf_program;
  name : string;
  insns : list bpf_insn;
  main_prog_cnt : Z;
  relocs : option (list (option reloc_desc));
  log_level : Z;
  preprocessor : option (Z -> list bpf_insn -> Z * list bpf_insn);
  attach_btf_id : Z;
  func_info : prog_info;
  line_info : prog_info;
  prog_flags : Z;
}.

(** The section indices of [efile]. *)
Record efile := Efile {
  maps_shndx : Z; btf_maps_shndx : Z; ef_text_shndx : Z;
  data_shndx : Z; rodata_shndx : Z; bss_shndx : Z;
}.

Record bpf_capabilities := Caps {
  cap_name : bool; cap_global_data : bool; cap_btf_func : bool; cap_btf_datasec : bool;
}.

(** What the load path calls of [btf.c], on the types of [struct btf] and
    [struct btf_ext] ([None]: it would read outside them). *)
Class BtfOps (B X : Type) := {
  btf__fd : B -> Z;
  btf__get_map_kv_tids : B -> string -> Z -> Z -> option (Z * Z * Z);
  btf__find_by_name : B -> string -> option Z;
  btf_ext__reloc_func_info : B -> X -> string -> Z -> prog_info -> option (Z * prog_info);
  btf_ext__func_info_rec_size : X -> Z;
  btf_ext__reloc_line_info : B -> X -> string -> Z -> prog_info -> option (Z * prog_info);
  btf_ext__line_info_rec_size : X -> Z;
  field_reloc_len : X -> Z;
}.

(** [struct bpf_object]: [btf_ext] comes with its [btf]. *)
Record full_object {B X : Type} := FullObject {
  fprograms : list full_program;
  fmaps : list full_map;
  license : string;
  kern_version : Z;
  sec_data : bytes;
  sec_rodata : bytes;
  floaded : bool;
  fhas_pseudo_calls : bool;
  ef : efile;
  btf : option B;
  btf_ext : option (B * X);
  caps : bpf_capabilities;
  relaxed_core_relocs : bool;
}.
#[global] Arguments full_object : clear implicits.

(** The CO-RE relocations of an object: the error, or the new instructions of its
    programs. *)
Class CoreOps (B X W : Type) := {
  bpf_core_reloc_fields : full_object B X -> B -> X -> option string -> W ->
    option ((Z + list (list bpf_insn)) * W);
}.

(** The object of [BpfObject] in it. *)
Definition erase {B X} (o : full_object B X) : bpf_object :=
  BpfObject_ (pbase <$> fprograms o) (mbase <$> fmaps o) (floaded o) (ef_text_shndx (ef o))
    (fhas_pseudo_calls o).

(** ** Setters *)

Definition set_mbase (m : full_map) (b : bpf_map) : full_map :=
  FullMap b (sec_idx m) (sec_offset m) (inner_map_fd m) (btf_key_type_id m)
    (btf_value_type_id m) (libbpf_type m).
Definition set_btf_ids (m : full_map) (key value : Z) : full_map :=
  FullMap (mbase m) (sec_idx m) (sec_offset m) (inner_map_fd m) key value (libbpf_type m).
Definition set_map_fd (b : bpf_map) (fd : Z) : bpf_map :=
  BpfMap_ fd (map_name b) (map_ifindex b) (def b) (pin_path b) (pinned b) (reused b).
Definition set_fd (m : full_map) (fd : Z) : full_map := set_mbase m (set_map_fd (mbase m) fd).
Definition fd_of (m : full_map) : Z := map_fd (mbase m).

Definition set_pbase (p : full_program) (b : bpf_program) : full_program :=
  FullProgram b (name p) (insns p) (main_prog_cnt p) (relocs p) (log_level p)
    (preprocessor p) (attach_btf_id p) (func_info p) (line_info p) (prog_flags p).
Definition set_insns (p : full_program) (l : list bpf_insn) : full_program :=
  FullProgram (pbase p) (name p) l (main_prog_cnt p) (relocs p) (log_level p)
    (preprocessor p) (attach_btf_id p) (func_info p) (line_info p) (prog_flags p).
Definition set_main_prog_cnt (p : full_program) (n : Z) : full_program :=
  FullProgram (pbase p) (name p) (insns p) n (relocs p) (log_level p)
    (preprocessor p) (attach_btf_id p) (func_info p) (line_info p) (prog_flags p).
Definition set_relocs (p : full_program) (r : option (list (option reloc_desc))) : full_program :=
  FullProgram (pbase p) (name p) (insns p) (main_prog_cnt p) r (log_level p)
    (preprocessor p) (attach_btf_id p) (func_info p) (line_info p) (prog_flags p).
Definition set_log_level (p : full_program) (l : Z) : full_program :=
  FullProgram (pbase p) (name p) (insns p) (main_prog_cnt p) (relocs p) l
    (preprocessor p) (attach_btf_id p) (func_info p) (line_info p) (prog_flags p).
Definition set_infos (p : full_program) (f l : prog_info) : full_program :=
  FullProgram (pbase p) (name p) (insns p) (main_prog_cnt p) (relocs p) (log_level p)
    (preprocessor p) (attach_btf_id p) f l (prog_flags p).
Definition set_instances (p : full_program) (fds : list Z) : full_program :=
  set_pbase p (BpfProgram (prog_idx (pbase p)) (section_name (pbase p)) (prog_ifindex (pbase p))
    (prog_type (pbase p)) (expected_attach_type (pbase p)) fds).

Definition set_fprograms {B X} (o : full_object B X) (ps : list full_program) : full_object B X :=
  FullObject B X ps (fmaps o) (license o) (kern_version o) (sec_data o) (sec_rodata o)
    (floaded o) (fhas_pseudo_calls o) (ef o) (btf o) (btf_ext o) (caps o) (relaxed_core_relocs o).
Definition set_fmaps {B X} (o : full_object B X) (ms : list full_map) : full_object B X :=
  FullObject B X (fprograms o) ms (license o) (kern_version o) (sec_data o) (sec_rodata o)
    (floaded o) (fhas_pseudo_calls o) (ef o) (btf o) (btf_ext o) (caps o) (relaxed_core_relocs o).
Definition set_floaded {B X} (o : full_object B X) (b : bool) : full_object B X :=
  FullObject B X (fprograms o) (fmaps o) (license o) (kern_version o) (sec_data o) (sec_rodata o)
    b (fhas_pseudo_calls o) (ef o) (btf o) (btf_ext o) (caps o) (relaxed_core_relocs o).
Definition set_pseudo_calls {B X} (o : full_object B X) (b : bool) : full_object B X :=
  FullObject B X (fprograms o) (fmaps o) (license o) (kern_version o) (sec_data o) (sec_rodata o)
    (floaded o) b (ef o) (btf o) (btf_ext o) (caps o) (relaxed_core_relocs o).

(** ** Errors and undefined accesses *)

(** [None]: undefined; [inl]: an error code; [inr]: a value. *)
Definition rbind {A C} (m : option (Z + A)) (f : A -> option (Z + C)) : option (Z + C) :=
  match m with
  | None => None
  | Some (inl err) => Some (inl err)
  | Some (inr a) => f a
  end.
#[local] Notation "x <-- m ; k" := (rbind m (fun x => k))
  (at level 100, m at next level, k at level 200, right associativity).
#[local] Abbreviation Err e := (Some (inl (- e))).
#[local] Abbreviation Ok a := (Some (inr a)).

(** [l[i]] at an [int]. *)
Definition znth {A} (l : list A) (i : Z) : option A := if i <? 0 then None else l !! Z.to_nat i.

(** ** Collecting relocations *)

(** [GElf_Sym], [GElf_Rel], and a relocation section with its header. *)
Record GElf_Sym := Sym { st_name : Z; st_info : Z; st_shndx : Z; st_value : Z }.
Record GElf_Rel := Rel { r_offset : Z; r_info : Z }.
Record rel_section := RelSection {
  sh_type : Z; sh_info : Z; sh_size : Z; sh_entsize : Z; entries : list GElf_Rel;
}.

Definition GELF_R_SYM (info : Z) : Z := Z.shiftr info 32.
Definition GELF_ST_BIND (info : Z) : Z := Z.shiftr info 4.

Section Reloc.
Context {B X : Type} `{BtfOps B X}.

Definition bpf_object__shndx_is_data (o : full_object B X) (shndx : Z) : bool :=
  (shndx =? data_shndx (ef o)) || (shndx =? bss_shndx (ef o)) || (shndx =? rodata_shndx (ef o)).
Definition bpf_object__shndx_is_maps (o : full_object B X) (shndx : Z) : bool :=
  (shndx =? maps_shndx (ef o)) || (shndx =? btf_maps_shndx (ef o)).
Definition bpf_object__relo_in_known_section (o : full_object B X) (shndx : Z) : bool :=
  (shndx =? ef_text_shndx (ef o)) || bpf_object__shndx_is_maps o shndx ||
  bpf_object__shndx_is_data o shndx.

Definition bpf_object__section_to_libbpf_map_type (o : full_object B X) (shndx : Z)
    : libbpf_map_type :=
  if shndx =? data_shndx (ef o) then LIBBPF_MAP_DATA else
  if shndx =? bss_shndx (ef o) then LIBBPF_MAP_BSS else
  if shndx =? rodata_shndx (ef o) then LIBBPF_MAP_RODATA else LIBBPF_MAP_UNSPEC.

(** The condition under which the search for the map stops. *)
Definition map_matches (type : libbpf_map_type) (sym : GElf_Sym) (m : full_map) : bool :=
  bool_decide (libbpf_type m = type) &&
  (bool_decide (type <> LIBBPF_MAP_UNSPEC) ||
   ((sec_idx m =? st_shndx sym) && (sec_offset m =? st_value sym))).

Definition find_map (o : full_object B X) (type : libbpf_map_type) (sym : GElf_Sym) : option nat :=
  fst <$> list_find (fun m => map_matches type sym m = true) (fmaps o).

(** The body of the loop: the descriptor, left uninitialised when no branch writes
    it, and whether a call was seen. *)
Definition collect_entry (o : full_object B X) (symbols : list GElf_Sym) (p : full_program)
    (rel : GElf_Rel) : option (Z + option reloc_desc * bool) :=
  match symbols !! Z.to_nat (GELF_R_SYM (r_info rel)) with
  | None => Err LIBBPF_ERRNO__FORMAT
  | Some sym =>
      let shdr_idx := st_shndx sym in
      let insn_idx := u32 (r_offset rel / 8) in
      if SHN_LORESERVE <=? shdr_idx
      then _ ← znth (insns p) insn_idx; Err LIBBPF_ERRNO__RELOC else
      if negb (bpf_object__relo_in_known_section o shdr_idx) then Err LIBBPF_ERRNO__RELOC else
      insn ← znth (insns p) insn_idx;
      if code insn =? JMP_CALL then
        if negb (src_reg insn =? BPF_PSEUDO_CALL) then Err LIBBPF_ERRNO__RELOC
        else Ok (Some (RelocDesc RELO_CALL (i32 insn_idx) (i32 (st_value sym))), true)
      else
      if negb (code insn =? LD_IMM_DW) then Err LIBBPF_ERRNO__RELOC else
      if bpf_object__shndx_is_maps o shdr_idx || bpf_object__shndx_is_data o shdr_idx then
        let type := bpf_object__section_to_libbpf_map_type o shdr_idx in
        let internal := bool_decide (type <> LIBBPF_MAP_UNSPEC) in
        if internal && (GELF_ST_BIND (st_info sym) =? STB_GLOBAL) then Err LIBBPF_ERRNO__RELOC else
        if internal && negb (cap_global_data (caps o)) then Err LIBBPF_ERRNO__RELOC else
        match find_map o type sym with
        | None => Err LIBBPF_ERRNO__RELOC
        | Some map_idx =>
            Ok (Some (RelocDesc (if internal then RELO_DATA else RELO_LD64) (i32 insn_idx)
                        (Z.of_nat map_idx)), false)
        end
      else Ok (None, false)
  end.

(** [n] iterations over the entries of the section. *)
Fixpoint collect_loop (o : full_object B X) (symbols : list GElf_Sym) (p : full_program)
    (n : nat) (rels : list GElf_Rel) : option (Z + list (option reloc_desc) * bool) :=
  match n with
  | O => Ok ([], false)
  | S n =>
      match rels with
      | [] => Err LIBBPF_ERRNO__FORMAT
      | rel :: rels =>
          d <-- collect_entry o symbols p rel;
          ds <-- collect_loop o symbols p n rels;
          Ok (fst d :: fst ds, snd d || snd ds)
      end
  end.

Definition bpf_program__collect_reloc (p : full_program) (shdr : rel_section)
    (symbols : list GElf_Sym) (o : full_object B X) : option (Z + full_program * bool) :=
  nrels ← divu64 (sh_size shdr) (sh_entsize shdr);
  ds <-- collect_loop o symbols p (Z.to_nat (i32 nrels)) (entries shdr);
  Ok (set_relocs p (Some (fst ds)), snd ds).

Definition bpf_object__find_prog_by_idx (o : full_object B X) (idx : Z) : option nat :=
  fst <$> list_find (fun p => prog_idx (pbase p) = idx) (fprograms o).

(** On an error only its number is kept: the caller closes the object. *)
Fixpoint collect_sections (o : full_object B X) (symbols : list GElf_Sym) (ss : list rel_section)
    : option (Z + full_object B X) :=
  match ss with
  | [] => Ok o
  | shdr :: ss =>
      if negb (sh_type shdr =? SHT_REL) then Err LIBBPF_ERRNO__INTERNAL else
      match bpf_object__find_prog_by_idx o (sh_info shdr) with
      | None => Err LIBBPF_ERRNO__RELOC
      | Some i =>
          p ← fprograms o !! i;
          r <-- bpf_program__collect_reloc p shdr symbols o;
          collect_sections
            (set_pseudo_calls (set_fprograms o (<[i := fst r]> (fprograms o)))
               (fhas_pseudo_calls o || snd r)) symbols ss
      end
  end.

Definition bpf_object__collect_reloc (elf_valid : bool) (o : full_object B X)
    (symbols : list GElf_Sym) (reloc : list rel_section) : option (Z + full_object B X) :=
  if negb elf_valid then Err LIBBPF_ERRNO__INTERNAL else collect_sections o symbols reloc.

(** ** Patching the instructions *)

Definition check_btf_ext_reloc_err (err : Z) (info : option bytes) : Z :=
  if negb (err =? - ENOENT) then err else
  match info with Some _ => err | None => 0 end.

(** The error, 0 for none, and the program. *)
Definition bpf_program_reloc_btf_ext (p : full_program) (b : B) (x : X) (section : string)
    (insn_offset : Z) : option (Z * full_program) :=
  let line (p : full_program) :=
    if (insn_offset =? 0) || bool_decide (is_Some (info_ptr (line_info p))) then
      '(err, i) ← btf_ext__reloc_line_info b x section insn_offset (line_info p);
      if negb (err =? 0)
      then Some (check_btf_ext_reloc_err err (info_ptr i), set_infos p (func_info p) i)
      else Some (0, set_infos p (func_info p)
                      (ProgInfo (info_ptr i) (btf_ext__line_info_rec_size x) (info_cnt i)))
    else Some (0, p) in
  if (insn_offset =? 0) || bool_decide (is_Some (info_ptr (func_info p))) then
    '(err, i) ← btf_ext__reloc_func_info b x section insn_offset (func_info p);
    if negb (err =? 0)
    then Some (check_btf_ext_reloc_err err (info_ptr i), set_infos p i (line_info p))
    else line (set_infos p (ProgInfo (info_ptr i) (btf_ext__func_info_rec_size x) (info_cnt i))
                 (line_info p))
  else line p.

(** The step both relocations start with: nothing without [btf_ext]. *)
Definition reloc_ext (p : full_program) (o : full_object B X) (section : string)
    (insn_offset : Z) : option (Z + full_program) :=
  match btf_ext o with
  | None => Ok p
  | Some (b, x) =>
      '(err, p) ← bpf_program_reloc_btf_ext p b x section (u32 insn_offset);
      if negb (err =? 0) then Some (inl err) else Ok p
  end.

Definition insns_cnt (p : full_program) : Z := Z.of_nat (List.length (insns p)).

Definition add_imm (i : bpf_insn) (d : Z) : bpf_insn :=
  BpfInsn (code i) (dst_reg i) (src_reg i) (off i) (i32 (imm i + d)).
Definition set_imm (i : bpf_insn) (v : Z) : bpf_insn :=
  BpfInsn (code i) (dst_reg i) (src_reg i) (off i) v.
Definition set_src_imm (i : bpf_insn) (s v : Z) : bpf_insn :=
  BpfInsn (code i) (dst_reg i) s (off i) v.

(** Append [.text] to the program, once. *)
Definition append_text (p : full_program) (o : full_object B X) : option (Z + full_program) :=
  if negb (main_prog_cnt p =? 0) then Ok p else
  match bpf_object__find_prog_by_idx o (ef_text_shndx (ef o)) ≫= fun i => fprograms o !! i with
  | None => Err LIBBPF_ERRNO__RELOC
  | Some text =>
      p <-- reloc_ext p o (section_name (pbase text)) (insns_cnt p);
      Ok (set_main_prog_cnt (set_insns p (insns p ++ insns text)) (insns_cnt p))
  end.

Definition bpf_program__reloc_text (p : full_program) (o : full_object B X) (relo : reloc_desc)
    : option (Z + full_program) :=
  if negb (bool_decide (rtype relo = RELO_CALL)) then Err LIBBPF_ERRNO__RELOC else
  if prog_idx (pbase p) =? ef_text_shndx (ef o) then Err LIBBPF_ERRNO__RELOC else
  p <-- append_text p o;
  insn ← znth (insns p) (insn_idx relo);
  Ok (set_insns p (<[Z.to_nat (insn_idx relo) :=
                     add_imm insn (main_prog_cnt p - insn_idx relo)]> (insns p))).

(** A reference to a map, or to data in the map of a data section. *)
Definition reloc_map (p : full_program) (o : full_object B X) (relo : reloc_desc)
    : option (Z + full_program) :=
  let i := insn_idx relo in
  if insns_cnt p <=? i + 1 then Err LIBBPF_ERRNO__RELOC else
  insn ← znth (insns p) i;
  m ← znth (fmaps o) (target relo);
  if bool_decide (rtype relo = RELO_LD64)
  then Ok (set_insns p (<[Z.to_nat i := set_src_imm insn BPF_PSEUDO_MAP_FD (fd_of m)]> (insns p)))
  else
    next ← znth (insns p) (i + 1);
    Ok (set_insns p (<[Z.to_nat i := set_src_imm insn BPF_PSEUDO_MAP_VALUE (fd_of m)]>
                       (<[Z.to_nat (i + 1) := set_imm next (imm insn)]> (insns p)))).

Fixpoint relocate_loop (p : full_program) (o : full_object B X) (ds : list (option reloc_desc))
    : option (Z + full_program) :=
  match ds with
  | [] => Ok p
  | d :: ds =>
      relo ← d;
      p <-- (if bool_decide (rtype relo = RELO_CALL) then bpf_program__reloc_text p o relo
             else reloc_map p o relo);
      relocate_loop p o ds
  end.

Definition bpf_program__relocate (p : full_program) (o : full_object B X)
    : option (Z + full_program) :=
  p <-- reloc_ext p o (section_name (pbase p)) 0;
  match relocs p with
  | None => Ok p
  | Some ds => p <-- relocate_loop p o ds; Ok (set_relocs p None)
  end.

(** The programs of the indices [idxs], each seeing those before it relocated. *)
Fixpoint relocate_progs (o : full_object B X) (idxs : list nat) : option (Z + full_object B X) :=
  match idxs with
  | [] => Ok o
  | i :: idxs =>
      p ← fprograms o !! i;
      p <-- bpf_program__relocate p o;
      relocate_progs (set_fprograms o (<[i := p]> (fprograms o))) idxs
  end.

Context {W : Type} `{CoreOps B X W}.

Definition bpf_object__relocate_core (o : full_object B X) (targ_btf_path : option string) (w : W)
    : option ((Z + full_object B X) * W) :=
  match btf_ext o with
  | Some (b, x) =>
      if field_reloc_len x =? 0 then Some (inr o, w) else
      '(r, w) ← bpf_core_reloc_fields o b x targ_btf_path w;
      Some (match r with
            | inl err => inl err
            | inr ls => inr (set_fprograms o (zip_with set_insns (fprograms o) ls))
            end, w)
  | None => Some (inr o, w)
  end.

(** On an error only its number is kept: the object cannot be loaded again. *)
Definition bpf_object__relocate (o : full_object B X) (targ_btf_path : option string) (w : W)
    : option ((Z + full_object B X) * W) :=
  '(r, w) ← bpf_object__relocate_core o targ_btf_path w;
  match r with
  | inl err => Some (inl err, w)
  | inr o => r ← relocate_progs o (seq 0 (List.length (fprograms o))); Some (r, w)
  end.
End Reloc.

(** ** Creating the maps *)

Definition bpf_map_type__is_map_in_map (type : Z) : bool :=
  (type =? BPF_MAP_TYPE_ARRAY_OF_MAPS) || (type =? BPF_MAP_TYPE_HASH_OF_MAPS).
Definition bpf_map__is_internal (m : full_map) : bool :=
  negb (bool_decide (libbpf_type m = LIBBPF_MAP_UNSPEC)).

Definition libbpf_type_to_btf_name (t : libbpf_map_type) : string :=
  match t with
  | LIBBPF_MAP_DATA => ".data" | LIBBPF_MAP_BSS => ".bss" | LIBBPF_MAP_RODATA => ".rodata"
  | LIBBPF_MAP_UNSPEC => EmptyString
  end.

Definition set_max_entries (d : bpf_map_def) (n : Z) : bpf_map_def :=
  MapDef (type d) (key_size d) (value_size d) n (map_flags d).

Definition bpf_map__resize (m : option full_map) (max_entries : Z) : Z * option full_map :=
  match m with
  | None => (- EINVAL, None)
  | Some m =>
      if max_entries =? 0 then (- EINVAL, Some m) else
      if 0 <=? fd_of m then (- EBUSY, Some m) else
      let b := mbase m in
      (0, Some (set_mbase m (BpfMap_ (map_fd b) (map_name b) (map_ifindex b)
                  (set_max_entries (def b) max_entries) (pin_path b) (pinned b) (reused b))))
  end.

Section Load.
Context {B X W : Type} `{BtfOps B X} `{CoreOps B X W} `{BpfSys W} `{BpfKern W}.

(** What [malloc] leaves in a log buffer of a size, the BTF ids the kernel reports
    of a map, and the number of processors. *)
Context (junk : Z -> string) (info_btf_ids : Z -> W -> Z * Z) (num_possible_cpus : W -> Z).
(** The bound on calls answered EAGAIN, see [BpfCalls]. *)
Context (agains : nat).

Definition map_is_reuse_compat (m : full_map) (map_fd : Z) (w : W) : bool :=
  match obj_info map_fd w with
  | inl _ => false
  | inr info =>
      let d := def (mbase m) in
      let i := info_def info in
      (type i =? type d) && (key_size i =? key_size d) && (value_size i =? value_size d) &&
      (max_entries i =? max_entries d) && (map_flags i =? map_flags d)
  end.

(** [BpfObject.bpf_map__reuse_fd] and the two fields it leaves aside. *)
Definition reuse_fd (m : full_map) (fd : Z) (w : W) : Z * full_map * W :=
  let '(key, value) := info_btf_ids fd w in
  let '(err, b, w) := bpf_map__reuse_fd (mbase m) fd w in
  let m := set_mbase m b in
  (err, if err =? 0 then set_btf_ids m key value else m, w).

Definition bpf_object__reuse_map (m : full_map) (path : string) (w : W) : Z * full_map * W :=
  let '(pin_fd, w) := bpf_obj_get path w in
  if pin_fd <? 0 then (if pin_fd =? - ENOENT then 0 else pin_fd, m, w) else
  if negb (map_is_reuse_compat m pin_fd w)
  then let '(_, w) := sys_close pin_fd w in (- EINVAL, m, w) else
  let '(err, m, w) := reuse_fd m pin_fd w in
  if negb (err =? 0) then let '(_, w) := sys_close pin_fd w in (err, m, w) else
  (0, set_mbase m (set_pin (mbase m) (pin_path (mbase m)) true), w).

Definition bpf_object__populate_internal_map (o : full_object B X) (m : full_map) (w : W)
    : Z * W :=
  if bool_decide (libbpf_type m = LIBBPF_MAP_BSS) then (0, w) else
  let data := if bool_decide (libbpf_type m = LIBBPF_MAP_DATA) then sec_data o else sec_rodata o in
  let '(err, w) := bpf_map_update_elem (fd_of m) [0; 0; 0; 0] data 0 w in
  if (err =? 0) && bool_decide (libbpf_type m = LIBBPF_MAP_RODATA)
  then let '(_, w) := bpf_map_freeze (fd_of m) w in (0, w)
  else (err, w).

Definition bpf_map_find_btf_info (o : full_object B X) (b : B) (m : full_map)
    : option (Z * full_map) :=
  if sec_idx m =? btf_maps_shndx (ef o) then Some (0, m) else
  if negb (bpf_map__is_internal m) then
    let d := def (mbase m) in
    '(ret, key, value) ←
      btf__get_map_kv_tids b (map_name (mbase m)) (key_size d) (value_size d);
    Some (if ret <? 0 then (ret, m) else (0, set_btf_ids m key value))
  else
    ret ← btf__find_by_name b (libbpf_type_to_btf_name (libbpf_type m));
    Some (if ret <? 0 then (ret, m) else (0, set_btf_ids m 0 ret)).

(** The loop over the maps before the one that failed. *)
Fixpoint zclose_all (ms : list full_map) (w : W) : list full_map * W :=
  match ms with
  | [] => ([], w)
  | m :: ms =>
      let '(_, w) := zclose (fd_of m) w in
      let '(ms, w) := zclose_all ms w in (set_fd m (-1) :: ms, w)
  end.

Definition roll_back (err : Z) (before rest : list full_map) (w : W) : Z * list full_map * W :=
  let '(before, w) := zclose_all before w in (err, before ++ rest, w).

(** The attributes of the map; [inner] and [max] are what [create_attr] holds. *)
Definition create_attr_of (o : full_object B X) (m : full_map) (inner max fd key value : Z)
    : bpf_create_map_attr :=
  let d := def (mbase m) in
  CreateMapAttr (if cap_name (caps o) then Some (map_name (mbase m)) else None)
    (type d) (map_flags d) (key_size d) (value_size d) max 0 fd key value
    (u32 (map_ifindex (mbase m))) inner.

(** One creation, repeated without BTF when it fails with BTF types. *)
Definition create_map (o : full_object B X) (m : full_map) (inner max : Z) (w : W)
    : option (full_map * W) :=
  '(with_btf, m) ←
    match btf o with
    | Some b => '(err, m) ← bpf_map_find_btf_info o b m;
                Some (if err =? 0 then Some b else None, m)
    | None => Some (None, m)
    end;
  let '(bfd, key, value) :=
    match with_btf with
    | Some b => (u32 (btf__fd b), btf_key_type_id m, btf_value_type_id m)
    | None => (0, 0, 0)
    end in
  let '(fd, w) := bpf_create_map_xattr (create_attr_of o m inner max bfd key value) w in
  if (fd <? 0) && (negb (key =? 0) || negb (value =? 0)) then
    let m := set_btf_ids m 0 0 in
    let '(fd, w) := bpf_create_map_xattr (create_attr_of o m inner max 0 0 0) w in
    Some (set_fd m fd, w)
  else Some (set_fd m fd, w).

(** The error, all the maps, the world.  [create_attr] and [nr_cpus] outlive an
    iteration: [inner] is what the last map of maps left in [inner_map_fd]. *)
Fixpoint create_loop (o : full_object B X) (before rest : list full_map) (inner nr_cpus : Z)
    (w : W) : option (Z * list full_map * W) :=
  match rest with
  | [] => Some (0, before, w)
  | m :: rest =>
      let '(err, m, w) := match pin_path (mbase m) with
                          | Some path => bpf_object__reuse_map m path w
                          | None => (0, m, w)
                          end in
      if negb (err =? 0) then Some (err, before ++ m :: rest, w) else
      if 0 <=? fd_of m then create_loop o (before ++ [m]) rest inner nr_cpus w else
      let d := def (mbase m) in
      let per_cpu := (type d =? BPF_MAP_TYPE_PERF_EVENT_ARRAY) && (max_entries d =? 0) in
      let nr_cpus := if per_cpu && (nr_cpus =? 0) then num_possible_cpus w else nr_cpus in
      if per_cpu && (nr_cpus <? 0) then Some (roll_back nr_cpus before (m :: rest) w) else
      let inner := if bpf_map_type__is_map_in_map (type d) && (0 <=? inner_map_fd m)
                   then inner_map_fd m else inner in
      '(m, w) ← create_map o m inner (if per_cpu then nr_cpus else max_entries d) w;
      if fd_of m <? 0 then Some (roll_back (- errno w) before (m :: rest) w) else
      let '(err, w) := if bpf_map__is_internal m then bpf_object__populate_internal_map o m w
                       else (0, w) in
      if err <? 0 then
        let '(_, w) := zclose (fd_of m) w in Some (roll_back err before (set_fd m (-1) :: rest) w)
      else
      let '(err, m, w) :=
        if bool_decide (is_Some (pin_path (mbase m))) && negb (pinned (mbase m))
        then let '(err, b, w) := bpf_map__pin (mbase m) None w in (err, set_mbase m b, w)
        else (0, m, w) in
      if negb (err =? 0) then Some (err, before ++ m :: rest, w) else
      create_loop o (before ++ [m]) rest inner nr_cpus w
  end.

Definition bpf_object__create_maps (o : full_object B X) (w : W)
    : option (Z * full_object B X * W) :=
  '(err, ms, w) ← create_loop o [] (fmaps o) 0 0 w; Some (err, set_fmaps o ms, w).

(** ** Loading the programs *)

(** The attributes [load_program] fills; the union of [prog_ifindex] and
    [attach_btf_id] keeps the last one written. *)
Definition load_attr_of (o : full_object B X) (p : full_program) (code : list bpf_insn)
    : BpfCalls.bpf_load_program_attr :=
  let btf_fd := match btf_ext o, btf o with Some _, Some b => btf__fd b | _, _ => -1 end in
  LoadProgramAttr (prog_type (pbase p)) (expected_attach_type (pbase p))
    (if cap_name (caps o) then Some (name p) else None) code (Z.of_nat (List.length code))
    (license o) (kern_version o) (attach_btf_id p) (if 0 <=? btf_fd then btf_fd else 0)
    (info_rec_size (func_info p)) (default [] (info_ptr (func_info p))) (info_cnt (func_info p))
    (info_rec_size (line_info p)) (default [] (info_ptr (line_info p))) (info_cnt (line_info p))
    (u32 (log_level p)) (prog_flags p).

Definition as_kprobe (la : BpfCalls.bpf_load_program_attr) : BpfCalls.bpf_load_program_attr :=
  LoadProgramAttr BPF_PROG_TYPE_KPROBE 0 (la_name la) (la_insns la) (la_insns_cnt la)
    (la_license la) (la_kern_version la) (la_ifindex_or_btf_id la) (la_prog_btf_fd la)
    (la_func_info_rec_size la) (la_func_info la) (la_func_info_cnt la)
    (la_line_info_rec_size la) (la_line_info la) (la_line_info_cnt la)
    (la_log_level la) (la_prog_flags la).

(** The label [retry_load]: while the log does not fit, with twice the buffer.  A
    size that does not fit an [int] is undefined.  The result is the error code, the
    descriptor written to [*pfd] if one is, the world. *)
Fixpoint load_retry (fuel : nat) (la : BpfCalls.bpf_load_program_attr) (log_buf_size : Z) (w : W)
    : option (Z * option Z * W) :=
  match fuel with
  | O => None
  | S fuel =>
      '(ret, log_buf, w) ←
        bpf_load_program_xattr agains la (Some (junk log_buf_size)) log_buf_size w;
      if 0 <=? ret then Some (0, Some ret, w) else
      if errno w =? ENOSPC then
        size ← chk32 (2 * log_buf_size);
        load_retry fuel la size w
      else
      let ret := - errno w in
      if negb (bool_decide (default EmptyString log_buf = EmptyString))
      then Some (- LIBBPF_ERRNO__VERIFY, None, w) else
      if BPF_MAXINSNS <=? la_insns_cnt la then Some (- LIBBPF_ERRNO__PROG2BIG, None, w) else
      if negb (la_prog_type la =? BPF_PROG_TYPE_KPROBE) then
        '(fd, _, w) ← bpf_load_program_xattr agains (as_kprobe la) None 0 w;
        if 0 <=? fd
        then let '(_, w) := sys_close fd w in Some (- LIBBPF_ERRNO__PROGTYPE, None, w)
        else Some (ret, None, w)
      else Some (ret, None, w)
  end.

(** Eight sizes fit an [int]. *)
Definition load_program (o : full_object B X) (p : full_program) (code : list bpf_insn) (w : W)
    : option (Z * option Z * W) :=
  match code with
  | [] => Some (- EINVAL, None, w)
  | _ => load_retry 9 (load_attr_of o p code) BPF_LOG_BUF_SIZE w
  end.

(** The loop over the instances of a program with a preprocessor: the error, the
    descriptors from the [i]-th on. *)
Fixpoint load_instances (o : full_object B X) (p : full_program)
    (prep : Z -> list bpf_insn -> Z * list bpf_insn) (i : Z) (fds : list Z) (w : W)
    : option (Z * list Z * W) :=
  match fds with
  | [] => Some (0, [], w)
  | fd0 :: fds =>
      let '(err, code) := prep i (insns p) in
      if negb (err =? 0) then Some (err, fd0 :: fds, w) else
      match code with
      | [] =>
          '(err, fds, w) ← load_instances o p prep (i + 1) fds w;
          Some (err, -1 :: fds, w)
      | _ =>
          '(err, pfd, w) ← load_program o p code w;
          if negb (err =? 0) then Some (err, fd0 :: fds, w) else
          fd ← pfd;
          '(err, fds, w) ← load_instances o p prep (i + 1) fds w;
          Some (err, fd :: fds, w)
      end
  end.

(** The instructions are freed at the end. *)
Definition bpf_program__load (o : full_object B X) (p : full_program) (w : W)
    : option (Z * full_program * W) :=
  let fds := instances (pbase p) in
  let fresh := bool_decide (fds = []) in
  match preprocessor p with
  | Some prep =>
      if fresh then Some (- LIBBPF_ERRNO__INTERNAL, p, w) else
      '(err, fds, w) ← load_instances o p prep 0 fds w;
      Some (err, set_insns (set_instances p fds) [], w)
  | None =>
      let fds := if fresh then [-1] else fds in
      '(err, pfd, w) ← load_program o p (insns p) w;
      if negb (err =? 0) then Some (err, set_insns (set_instances p fds) [], w) else
      fd ← pfd;
      Some (0, set_insns (set_instances p (<[O := fd]> fds)) [], w)
  end.

Fixpoint load_progs (o : full_object B X) (before rest : list full_program) (level : Z) (w : W)
    : option (Z * list full_program * W) :=
  match rest with
  | [] => Some (0, before, w)
  | p :: rest =>
      if bpf_program__is_function_storage (pbase p) (erase o)
      then load_progs o (before ++ [p]) rest level w else
      '(err, p, w) ← bpf_program__load o (set_log_level p (Z.lor (log_level p) level)) w;
      if negb (err =? 0) then Some (err, before ++ p :: rest, w) else
      load_progs o (before ++ [p]) rest level w
  end.

Definition bpf_object__load_progs (o : full_object B X) (level : Z) (w : W)
    : option (Z * full_object B X * W) :=
  '(err, ps, w) ← load_progs o [] (fprograms o) level w;
  Some (err, set_fprograms o ps, w).

(** [bpf_object__unload], on the base records, and the freeing of the records of
    the programs. *)
Definition unload (o : full_object B X) (w : W) : full_object B X * W :=
  let '(b, w) := bpf_object__unload (erase o) w in
  let o := set_fmaps o (zip_with set_mbase (fmaps o) (maps b)) in
  let forget i := ProgInfo None (info_rec_size i) (info_cnt i) in
  (set_fprograms o
     (zip_with (fun p q => set_infos (set_pbase p q) (forget (func_info p)) (forget (line_info p)))
        (fprograms o) (programs b)), w).

(** The label [out]: unpin the maps pinned while loading, close everything. *)
Definition load_failed (err : Z) (o : full_object B X) (w : W) : Z * option (full_object B X) * W :=
  let '(ms, w) := unpin_auto (mbase <$> fmaps o) w in
  let '(o, w) := unload (set_fmaps o (zip_with set_mbase (fmaps o) ms)) w in
  (err, Some o, w).

(** The fields of [struct bpf_object_load_attr] are the arguments; [o] NULL is [None]. *)
Definition bpf_object__load_xattr (o : option (full_object B X)) (level : Z)
    (target_btf_path : option string) (w : W) : option (Z * option (full_object B X) * W) :=
  match o with
  | None => Some (- EINVAL, None, w)
  | Some o =>
      if floaded o then Some (- EINVAL, Some o, w) else
      let o := set_floaded o true in
      '(err, o, w) ← bpf_object__create_maps o w;
      if negb (err =? 0) then Some (load_failed err o w) else
      '(r, w) ← bpf_object__relocate o target_btf_path w;
      match r with
      | inl err => Some (load_failed err o w)
      | inr o =>
          '(err, o, w) ← bpf_object__load_progs o level w;
          if negb (err =? 0) then Some (load_failed err o w) else Some (0, Some o, w)
      end
  end.

Definition bpf_object__load (o : option (full_object B X)) (w : W)
    : option (Z * option (full_object B X) * W) := bpf_object__load_xattr o 0 None w.
End Load.

(** ** What relocation does to the instructions *)

Lemma rbind_Some {A C} (m : option (Z + A)) (f : A -> option (Z + C)) c :
  rbind m f = Some (inr c) <-> exists a, m = Some (inr a) /\ f a = Some (inr c).
Proof.
  destruct m as [[e|a]|]; cbn; split; try done; try (by intros (? & ? & ?)); eauto.
  by intros (a' & [= ->] & ?).
Qed.

Lemma znth_Some {A} (l : list A) i x :
  znth l i = Some x <-> 0 <= i /\ l !! Z.to_nat i = Some x.
Proof. unfold znth. destruct (Z.ltb_spec i 0); intuition (done || lia). Qed.

(** Turn a run that succeeded into the runs of its parts. *)
Ltac rinv :=
  repeat match goal with
  | H : rbind _ _ = Some (inr _) |- _ => apply rbind_Some in H as (? & ? & ?)
  | H : _ ≫= _ = Some _ |- _ => apply bind_Some in H as (? & ? & ?)
  | H : Some (inr _) = Some (inr _) |- _ => injection H as H; subst
  | H : (if ?b then _ else _) = Some (inr _) |- _ => destruct b eqn:?; [try done|try done]
  | H : znth _ _ = Some _ |- _ => apply znth_Some in H as [? ?]
  | H : bool_decide _ = true |- _ => apply bool_decide_eq_true in H
  | H : bool_decide _ = false |- _ => apply bool_decide_eq_false in H
  | H : negb _ = true |- _ => apply negb_true_iff in H
  | H : negb _ = false |- _ => apply negb_false_iff in H
  | H : (_ =? _) = true |- _ => apply Z.eqb_eq in H
  | H : (_ =? _) = false |- _ => apply Z.eqb_neq in H
  | H : (_ <=? _) = true |- _ => apply Z.leb_le in H
  | H : (_ <=? _) = false |- _ => apply Z.leb_gt in H
  end.

Section Relocated.
Context {B X : Type} `{BtfOps B X}.
Implicit Types (o : full_object B X) (p : full_program) (d : reloc_desc).

(** The instructions of the first program in section [.text]. *)
Definition text_insns o : option (list bpf_insn) :=
  i ← bpf_object__find_prog_by_idx o (ef_text_shndx (ef o)); insns <$> fprograms o !! i.

(** The instructions a relocation rewrites. *)
Definition touched d : list nat :=
  Z.to_nat (insn_idx d) ::
  match rtype d with RELO_DATA => [Z.to_nat (insn_idx d + 1)] | _ => [] end.

(** The effect of a relocation on its instruction [i], in a program whose [.text]
    starts at [start]: [at_] reads the new instructions. *)
Definition resolved o (old new : list bpf_insn) (start : Z) d : Prop :=
  exists i, old !! Z.to_nat (insn_idx d) = Some i /\
  match rtype d with
  | RELO_LD64 => exists m, znth (fmaps o) (target d) = Some m /\
      new !! Z.to_nat (insn_idx d) = Some (set_src_imm i BPF_PSEUDO_MAP_FD (fd_of m))
  | RELO_DATA => exists m next, znth (fmaps o) (target d) = Some m /\
      old !! Z.to_nat (insn_idx d + 1) = Some next /\
      new !! Z.to_nat (insn_idx d) = Some (set_src_imm i BPF_PSEUDO_MAP_VALUE (fd_of m)) /\
      new !! Z.to_nat (insn_idx d + 1) = Some (set_imm next (imm i))
  | RELO_CALL => new !! Z.to_nat (insn_idx d) = Some (add_imm i (start - insn_idx d))
  end.

(** The rest of the program: what relocation leaves alone. *)
Definition same_rest p p' : Prop :=
  pbase p' = pbase p /\ name p' = name p /\ log_level p' = log_level p /\
  preprocessor p' = preprocessor p /\ attach_btf_id p' = attach_btf_id p /\
  prog_flags p' = prog_flags p /\ relocs p' = relocs p.

#[export] Instance same_rest_preorder : PreOrder same_rest.
Proof. split; unfold same_rest; [done|]. intros ???. intuition congruence. Qed.

Lemma reloc_btf_ext_rest p b x s n err p1 :
  bpf_program_reloc_btf_ext p b x s n = Some (err, p1) ->
  same_rest p p1 /\ insns p1 = insns p /\ main_prog_cnt p1 = main_prog_cnt p.
Proof.
  unfold bpf_program_reloc_btf_ext. cbv zeta. intros Hrun.
  repeat match type of Hrun with
  | (if ?c then _ else _) = _ => destruct c
  | (_ ≫= _) = _ => apply bind_Some in Hrun as ([? ?] & _ & Hrun)
  | Some _ = _ => injection Hrun as _ <-
  end; by unfold same_rest.
Qed.

Lemma reloc_ext_spec p o s n p1 :
  reloc_ext p o s n = Some (inr p1) ->
  same_rest p p1 /\ insns p1 = insns p /\ main_prog_cnt p1 = main_prog_cnt p.
Proof.
  unfold reloc_ext. destruct (btf_ext o) as [[b x]|]; [|by intros [= ->]].
  intros ([err p2] & Hrest%reloc_btf_ext_rest & Hrun)%bind_Some.
  destruct (negb (err =? 0)); [done|]. by injection Hrun as <-.
Qed.

Lemma append_text_spec p o p1 :
  append_text p o = Some (inr p1) ->
  same_rest p p1 /\
  (main_prog_cnt p <> 0 /\ p1 = p \/
   main_prog_cnt p = 0 /\ main_prog_cnt p1 = insns_cnt p /\
   exists text, text_insns o = Some text /\ insns p1 = insns p ++ text).
Proof.
  unfold append_text, text_insns. intros Hrun. rinv; [split; [done|]; by left|].
  destruct (bpf_object__find_prog_by_idx o _) as [i|]; cbn [mbind option_bind] in *; [|done].
  destruct (fprograms o !! i) as [text|]; [|done]. rinv.
  match goal with Hr : reloc_ext _ _ _ _ = _ |- _ => apply reloc_ext_spec in Hr as (Hs & Hi & Hm) end.
  split; [done|]. right. split; [done|]. cbn. unfold insns_cnt. rewrite Hi.
  split; [done|]. by exists (insns text).
Qed.

(** [resolved] speaks of the touched instructions only. *)
Lemma resolved_agree o old new old' new' start d :
  (forall k x, k ∈ touched d -> old !! k = Some x -> old' !! k = Some x) ->
  (forall k x, k ∈ touched d -> new !! k = Some x -> new' !! k = Some x) ->
  resolved o old new start d -> resolved o old' new' start d.
Proof.
  unfold resolved, touched. intros Hold Hnew (i & Hi & Hd).
  exists i. split; [apply Hold; [by left|done]|]. destruct (rtype d).
  - destruct Hd as (m & Hm & Hn). exists m. split; [done|]. apply Hnew; [by left|done].
  - apply Hnew; [by left|done].
  - destruct Hd as (m & next & Hm & Hx & Hn & Hn'). exists m, next. split; [done|].
    split; [apply Hold; [by right; left|done]|].
    split; apply Hnew; [by left|done|by right; left|done].
Qed.

(** How the program grew: not, or by the text it calls. *)
Definition grown o p ext p' : Prop :=
  ext = [] /\ main_prog_cnt p' = main_prog_cnt p \/
  main_prog_cnt p = 0 /\ main_prog_cnt p' = insns_cnt p /\ text_insns o = Some ext.

(** A program that calls [.text] has it appended. *)
Definition calls_text p' (ds : list reloc_desc) : Prop :=
  Forall (fun d => rtype d = RELO_CALL -> main_prog_cnt p' <> 0) ds.

(** What relocating [ds] does, relative to the instructions of [p] and [ext]. *)
Definition relocated o p ext p' (ds : list reloc_desc) : Prop :=
  grown o p ext p' /\ List.length (insns p') = List.length (insns p ++ ext) /\
  Forall (resolved o (insns p ++ ext) (insns p') (main_prog_cnt p')) ds /\
  (forall k, k ∉ List.concat (touched <$> ds) -> insns p' !! k = (insns p ++ ext) !! k).

Definition relocate_one p o d : option (Z + full_program) :=
  if bool_decide (rtype d = RELO_CALL) then bpf_program__reloc_text p o d else reloc_map p o d.

Lemma reloc_map_step o p d p1 :
  rtype d <> RELO_CALL -> reloc_map p o d = Some (inr p1) ->
  same_rest p p1 /\ relocated o p [] p1 [d].
Proof.
  unfold reloc_map, relocated, grown, insns_cnt. intros Ht Hrun. rewrite app_nil_r.
  cbn [fmap list_fmap List.concat]. rewrite app_nil_r. unfold touched. rinv.
  - split; [done|]. split; [by left|]. cbn. rewrite length_insert.
    match goal with Hr : rtype d = _ |- _ => rewrite Hr end.
    split; [done|]. split.
    + constructor; [|done].
      match goal with Hi : insns p !! _ = Some ?i |- _ => exists i; split; [exact Hi|] end.
      match goal with Hr : rtype d = _ |- _ => rewrite Hr end.
      eexists. split; [by apply znth_Some|]. apply list_lookup_insert_eq. lia.
    + intros k Hk. apply list_lookup_insert_ne. set_solver.
  - assert (rtype d = RELO_DATA) as Hr by (by destruct (rtype d)).
    split; [done|]. split; [by left|]. cbn. rewrite Hr, !length_insert.
    split; [done|]. split.
    + constructor; [|done].
      match goal with Hi : insns p !! Z.to_nat (insn_idx d) = Some ?i |- _ =>
        exists i; split; [exact Hi|] end.
      rewrite Hr. eexists _, _. split; [by apply znth_Some|]. split; [done|]. split.
      * apply list_lookup_insert_eq. rewrite length_insert. lia.
      * rewrite list_lookup_insert_ne by lia. apply list_lookup_insert_eq. lia.
    + intros k Hk. rewrite !list_lookup_insert_ne; [done|set_solver|set_solver].
Qed.

Lemma reloc_text_step o p d p1 :
  bpf_program__reloc_text p o d = Some (inr p1) ->
  same_rest p p1 /\ (insns p <> [] -> main_prog_cnt p1 <> 0) /\
  exists ext, relocated o p ext p1 [d].
Proof.
  unfold bpf_program__reloc_text, relocated, grown. intros Hrun. rinv.
  match goal with Happ : append_text _ _ = _ |- _ =>
    apply append_text_spec in Happ as (Hs & Ha) end.
  match goal with Hi : insns ?p0 !! _ = Some ?i |- _ => rename p0 into q; rename i into insn end.
  split; [done|]. cbn [fmap list_fmap List.concat]. unfold touched.
  match goal with Hr : rtype d = _ |- _ => rewrite Hr; rename Hr into Hty end.
  cbn -[insns_cnt]. rewrite length_insert.
  assert (forall old, insns q = old ->
    Forall (resolved o old (<[Z.to_nat (insn_idx d) :=
      add_imm insn (main_prog_cnt q - insn_idx d)]> (insns q)) (main_prog_cnt q)) [d]) as Hres.
  { intros old <-. constructor; [|done]. exists insn. split; [done|]. rewrite Hty.
    apply list_lookup_insert_eq. by eapply lookup_lt_Some. }
  assert (forall k, k ∉ [Z.to_nat (insn_idx d)] ->
    <[Z.to_nat (insn_idx d) := add_imm insn (main_prog_cnt q - insn_idx d)]> (insns q) !! k =
    insns q !! k) as Hother by (intros k Hk; apply list_lookup_insert_ne; set_solver).
  destruct Ha as [[Hm ->]|(Hm & Hm' & text & Ht & Hi)].
  - split; [done|]. exists []. rewrite app_nil_r. split; [by left|]. split; [done|]. by eauto.
  - split. { intros Hne. rewrite Hm'. unfold insns_cnt. by destruct (insns p). }
    exists text. split; [by right|]. rewrite Hi in *. split; [done|]. by eauto.
Qed.

Lemma relocate_step o p d p1 :
  relocate_one p o d = Some (inr p1) ->
  same_rest p p1 /\ (insns p <> [] -> rtype d = RELO_CALL -> main_prog_cnt p1 <> 0) /\
  exists ext, relocated o p ext p1 [d].
Proof.
  unfold relocate_one. case_bool_decide as Ht; intros Hrun.
  - apply reloc_text_step in Hrun as (? & ? & ?). by split; [|split; [auto|]].
  - apply reloc_map_step in Hrun as (? & ?); [|done]. split; [done|]. split; [done|]. by exists [].
Qed.

(** The order of composition: what the first step did stays, as the next steps touch
    other instructions, and [.text] is appended once. *)
Lemma relocated_cons o p d p1 ds p2 ext1 ext2 :
  insns p <> [] -> (rtype d = RELO_CALL -> main_prog_cnt p1 <> 0) ->
  relocated o p ext1 p1 [d] -> relocated o p1 ext2 p2 ds ->
  (forall k, k ∈ touched d -> k ∉ List.concat (touched <$> ds)) ->
  relocated o p (ext1 ++ ext2) p2 (d :: ds).
Proof.
  intros Hne Hcall (Hg1 & Hl1 & Hd & Ho1) (Hg2 & Hl2 & Hds & Ho2) Hdisj.
  cbn [fmap list_fmap List.concat] in Ho1. rewrite app_nil_r in Ho1.
  assert (0 < insns_cnt p) as Hpos by (unfold insns_cnt; destruct (insns p); [done|cbn; lia]).
  assert (forall k x, k ∉ touched d -> (insns p1 ++ ext2) !! k = Some x ->
            (insns p ++ ext1 ++ ext2) !! k = Some x) as Hstep.
  { intros k x Hk Hx. rewrite app_assoc. destruct (decide (k < List.length (insns p1))%nat).
    - rewrite lookup_app_l in Hx by done. rewrite lookup_app_l by lia. by rewrite <- Ho1.
    - rewrite lookup_app_r in Hx by lia. rewrite lookup_app_r by lia. by rewrite <- Hl1. }
  apply Forall_cons_iff in Hd as [Hd _].
  split.
  { destruct Hg1 as [[-> Hm1]|(Hm0 & Hm1 & Ht)], Hg2 as [[-> Hm2]|(Hm3 & Hm2 & Ht2)].
    - left. split; [done|congruence].
    - right. cbn. split; [congruence|]. split; [|done].
      rewrite Hm2. unfold insns_cnt. by rewrite Hl1, app_nil_r.
    - right. rewrite app_nil_r. split; [done|]. split; [congruence|done].
    - lia. }
  split. { rewrite Hl2, app_assoc, !List.length_app. rewrite List.length_app in Hl1. lia. }
  split.
  - constructor.
    + assert (resolved o (insns p ++ ext1) (insns p1) (main_prog_cnt p2) d) as Hd2.
      { destruct (decide (rtype d = RELO_CALL)) as [Ht|Ht].
        - destruct Hg2 as [[_ ->]|(Hm3 & _)]; [done|]. by destruct (Hcall Ht).
        - destruct Hd as (i & Hi & Hd). exists i. split; [done|]. by destruct (rtype d). }
      revert Hd2. apply resolved_agree; intros k x Hk Hx.
      * rewrite app_assoc. by apply lookup_app_l_Some.
      * rewrite Ho2 by auto. by apply lookup_app_l_Some.
    + apply Forall_forall. intros d' Hd'. rewrite List.Forall_forall in Hds.
      generalize (Hds d' Hd'). apply resolved_agree; [|done].
      intros k x Hk. apply Hstep. intros Hk'. apply (Hdisj k Hk').
      apply list_elem_of_In, in_concat. exists (touched d'). split; [|by apply list_elem_of_In].
      by apply in_map.
  - intros k Hk. cbn [fmap list_fmap List.concat] in Hk. rewrite not_elem_of_app in Hk. destruct Hk as [Hk Hk'].
    rewrite Ho2 by done. rewrite app_assoc. destruct (decide (k < List.length (insns p1))%nat).
    + rewrite !lookup_app_l by lia. by apply Ho1.
    + rewrite !lookup_app_r by lia. by rewrite Hl1.
Qed.

Lemma relocate_loop_spec o p ds p' :
  insns p <> [] -> NoDup (List.concat (touched <$> ds)) ->
  relocate_loop p o (Some <$> ds) = Some (inr p') ->
  same_rest p p' /\ calls_text p' ds /\ exists ext, relocated o p ext p' ds.
Proof.
  revert p. induction ds as [|d ds IH]; intros p Hne Hnd; cbn [fmap list_fmap relocate_loop].
  { intros [= <-]. split; [done|]. split; [by apply Forall_nil|]. exists []. unfold relocated, grown. rewrite app_nil_r.
    split; [by left|]. split; [done|]. by split; [apply Forall_nil|]. }
  cbn [mbind option_bind].
  change (if bool_decide (rtype d = RELO_CALL) then bpf_program__reloc_text p o d
          else reloc_map p o d) with (relocate_one p o d).
  intros (p1 & Hstep & Hrun)%rbind_Some.
  cbn [fmap list_fmap List.concat] in Hnd. apply list.NoDup_app in Hnd as (_ & Hdisj & Hnd).
  apply relocate_step in Hstep as (Hs1 & Hcall & ext1 & Hr1).
  apply IH in Hrun as (Hs2 & Hc2 & ext2 & Hr2); [|intros E|done].
  - split; [by etrans|]. split.
    { constructor; [|done]. intros Ht E. specialize (Hcall Hne Ht).
      destruct Hr2 as ([[_ E2]|(? & _)] & _); congruence. }
    exists (ext1 ++ ext2). eapply relocated_cons; eauto.
  - destruct Hr1 as (_ & Hl & _). rewrite E in Hl. by destruct (insns p).
Qed.

(** A program whose relocations touch different instructions comes out with each of
    them resolved: references to maps hold the descriptors of their maps, calls are
    moved to the copy of [.text] behind the program, everything else is as before. *)
Theorem relocate_resolves o p ds p' :
  relocs p = Some (Some <$> ds) -> insns p <> [] -> NoDup (List.concat (touched <$> ds)) ->
  bpf_program__relocate p o = Some (inr p') ->
  relocs p' = None /\ pbase p' = pbase p /\ calls_text p' ds /\
  exists ext, relocated o p ext p' ds.
Proof.
  unfold bpf_program__relocate. intros Hds Hne Hnd (p0 & Hext & Hrun)%rbind_Some.
  apply reloc_ext_spec in Hext as (Hs & Hi & Hm).
  assert (relocs p0 = relocs p) as Hr by apply Hs. rewrite Hr, Hds in Hrun.
  apply rbind_Some in Hrun as (p1 & Hrun & [= <-]).
  apply relocate_loop_spec in Hrun as (Hs1 & Hc & ext & Hrel); [|by rewrite Hi|done].
  split; [done|]. split; [by destruct Hs as [<- _], Hs1 as [<- _]|]. split; [done|]. exists ext.
  unfold relocated, grown, insns_cnt in *. rewrite Hi, Hm in Hrel. exact Hrel.
Qed.
End Relocated.

(** ** From the symbol table to the instructions *)

Section Symbols.
Context {B X : Type} `{BtfOps B X}.
Implicit Types (o : full_object B X) (p : full_program) (d : reloc_desc).

(** [m], at [i], is the first map the symbol denotes. *)
Definition first_map o (sym : GElf_Sym) (i : nat) (m : full_map) : Prop :=
  let type := bpf_object__section_to_libbpf_map_type o (st_shndx sym) in
  fmaps o !! i = Some m /\ map_matches type sym m = true /\
  forall j mj, (j < i)%nat -> fmaps o !! j = Some mj -> map_matches type sym mj = false.

Definition is_data_symbol o (sym : GElf_Sym) : Prop :=
  bpf_object__section_to_libbpf_map_type o (st_shndx sym) <> LIBBPF_MAP_UNSPEC.

(** What a descriptor says of the instruction and the symbol of its entry. *)
Definition denotes o (sym : GElf_Sym) (insn : bpf_insn) d : Prop :=
  match rtype d with
  | RELO_CALL => code insn = JMP_CALL
  | t => code insn = LD_IMM_DW /\ (t = RELO_DATA <-> is_data_symbol o sym) /\
         exists i m, target d = Z.of_nat i /\ first_map o sym i m
  end.

Lemma find_map_spec o sym i :
  find_map o (bpf_object__section_to_libbpf_map_type o (st_shndx sym)) sym = Some i ->
  exists m, first_map o sym i m.
Proof.
  unfold find_map, first_map. intros ([j m] & Hfind & E)%fmap_Some. cbn in E. subst j.
  apply list_find_Some in Hfind as (Hi & Hm & Hbefore). exists m. split; [done|]. split; [done|].
  intros j mj Hj Hmj. apply not_true_is_false. by eapply Hbefore.
Qed.

Lemma collect_entry_spec o symbols p rel d c :
  insns_cnt p <= 2 ^ 31 -> collect_entry o symbols p rel = Some (inr (Some d, c)) ->
  exists sym insn, symbols !! Z.to_nat (GELF_R_SYM (r_info rel)) = Some sym /\
    insn_idx d = u32 (r_offset rel / 8) /\ 0 <= insn_idx d /\
    insns p !! Z.to_nat (insn_idx d) = Some insn /\ denotes o sym insn d.
Proof.
  unfold collect_entry, denotes, insns_cnt. intros Hcnt Hrun.
  destruct (symbols !! _) as [sym|] eqn:Hsym; [|done]. exists sym. rinv.
  all: try match goal with Hf : context [match find_map ?o ?t ?s with _ => _ end] |- _ =>
    destruct (find_map o t s) as [i|] eqn:Hfind; [|done] end.
  all: simplify_eq.
  all: cbn [rtype insn_idx target].
  all: match goal with Hi : insns ?q !! Z.to_nat ?k = Some ?x |- _ =>
    assert (i32 k = k) as Hk by
      (apply lookup_lt_Some in Hi; apply i32_id; lia);
    exists x; rewrite Hk; split; [done|]; split; [done|]; split; [done|]; split; [done|] end.
  - done.
  - apply find_map_spec in Hfind as (m & Hm). unfold is_data_symbol.
    case_bool_decide as Hd; (split; [done|]; split; [done|]; by exists i, m).
Qed.

Lemma collect_loop_spec o symbols p n rels ds c :
  collect_loop o symbols p n rels = Some (inr (ds, c)) ->
  forall k rel, (k < n)%nat -> rels !! k = Some rel ->
  exists od c', ds !! k = Some od /\ collect_entry o symbols p rel = Some (inr (od, c')).
Proof.
  revert rels ds c. induction n as [|n IH]; intros rels ds c; cbn; [lia|].
  destruct rels as [|rel0 rels]; [done|].
  intros ([d0 c0] & Hd & ([ds1 c1] & Hds & [= <- _])%rbind_Some)%rbind_Some [|k] rel Hk Hrel.
  - injection Hrel as <-. by exists d0, c0.
  - exact (IH _ _ _ Hds k rel ltac:(lia) Hrel).
Qed.

(** The copy of [.text] is untouched when the relocations are inside the program. *)
Lemma relocated_text o p ext p' ds :
  relocated o p ext p' ds ->
  Forall (fun d => Forall (fun k => (k < List.length (insns p))%nat) (touched d)) ds ->
  forall j, insns p' !! (List.length (insns p) + j)%nat = ext !! j.
Proof.
  intros (_ & _ & _ & Ho) Hin j. rewrite Ho.
  - rewrite lookup_app_r by lia. f_equal. lia.
  - intros (l & (d & <- & Hd)%in_map_iff & Hk)%list_elem_of_In%in_concat.
    rewrite List.Forall_forall in Hin. specialize (Hin d Hd).
    rewrite List.Forall_forall in Hin. specialize (Hin _ Hk). cbn in Hin. lia.
Qed.

(** The relocations of a program stay inside it. *)
Definition inside p (ds : list reloc_desc) : Prop :=
  Forall (fun d => Forall (fun k => (k < List.length (insns p))%nat) (touched d)) ds.

(** The descriptor of an entry. *)
Lemma entry_collected o p p1 calls shdr symbols nrels ds n rel sym insn :
  divu64 (sh_size shdr) (sh_entsize shdr) = Some nrels ->
  bpf_program__collect_reloc p shdr symbols o = Some (inr (p1, calls)) ->
  relocs p1 = Some (Some <$> ds) -> insns_cnt p <= 2 ^ 31 ->
  (n < Z.to_nat (i32 nrels))%nat -> entries shdr !! n = Some rel ->
  symbols !! Z.to_nat (GELF_R_SYM (r_info rel)) = Some sym ->
  insns p !! Z.to_nat (u32 (r_offset rel / 8)) = Some insn ->
  p1 = set_relocs p (Some (Some <$> ds)) /\
  exists d, In d ds /\ 0 <= insn_idx d /\ insn_idx d = u32 (r_offset rel / 8) /\
    denotes o sym insn d.
Proof.
  intros Hdiv Hcollect Hds Hcnt Hn Hentry Hsym Hinsn.
  unfold bpf_program__collect_reloc in Hcollect. rewrite Hdiv in Hcollect.
  cbn [mbind option_bind] in Hcollect.
  apply rbind_Some in Hcollect as ([ds0 c] & Hloop & [= <- _]). cbn in Hds. injection Hds as ->.
  split; [done|].
  destruct (collect_loop_spec _ _ _ _ _ _ _ Hloop n rel Hn Hentry) as (od & c' & Hod & Hone).
  rewrite list_lookup_fmap in Hod. apply fmap_Some in Hod as (d & Hd & ->).
  apply collect_entry_spec in Hone as (sym' & insn' & Hsym' & Hidx & Hpos & Hi' & Hden); [|done].
  rewrite Hsym in Hsym'. injection Hsym' as <-. rewrite Hidx, Hinsn in Hi'. injection Hi' as <-.
  exists d. split; [by apply list_elem_of_In, list_elem_of_lookup_2 with n|done].
Qed.

(** C7. Collecting the relocations of a program, creating the maps ([o'] is the object
    with their descriptors) and relocating: each entry of the section is resolved
    from its symbol. *)
Theorem symbols_resolved o o' p p1 p2 calls shdr symbols nrels ds n rel sym insn :
  divu64 (sh_size shdr) (sh_entsize shdr) = Some nrels ->
  bpf_program__collect_reloc p shdr symbols o = Some (inr (p1, calls)) ->
  relocs p1 = Some (Some <$> ds) -> NoDup (List.concat (touched <$> ds)) -> inside p ds ->
  insns_cnt p <= 2 ^ 31 -> main_prog_cnt p = 0 ->
  bpf_program__relocate p1 o' = Some (inr p2) ->
  (n < Z.to_nat (i32 nrels))%nat -> entries shdr !! n = Some rel ->
  symbols !! Z.to_nat (GELF_R_SYM (r_info rel)) = Some sym ->
  let k := Z.to_nat (u32 (r_offset rel / 8)) in
  insns p !! k = Some insn ->
  (code insn = JMP_CALL ->
     insns p2 !! k = Some (add_imm insn (insns_cnt p - Z.of_nat k)) /\
     exists text, text_insns o' = Some text /\
       forall j, insns p2 !! (List.length (insns p) + j)%nat = text !! j) /\
  (code insn <> JMP_CALL ->
     exists i m m', first_map o sym i m /\ fmaps o' !! i = Some m' /\
     (~ is_data_symbol o sym ->
        insns p2 !! k = Some (set_src_imm insn BPF_PSEUDO_MAP_FD (fd_of m'))) /\
     (is_data_symbol o sym ->
        insns p2 !! k = Some (set_src_imm insn BPF_PSEUDO_MAP_VALUE (fd_of m')) /\
        exists next, insns p !! S k = Some next /\
          insns p2 !! S k = Some (set_imm next (imm insn)))).
Proof.
  intros Hdiv Hcollect Hds Hnd Hin Hcnt Hmain Hrel Hn Hentry Hsym k Hinsn.
  destruct (entry_collected _ _ _ _ _ _ _ _ _ _ _ _ Hdiv Hcollect Hds Hcnt Hn Hentry Hsym Hinsn)
    as (-> & d & Hd & Hpos & Hidx & Hden).
  assert (insns p <> []) as Hne by (by intros E; rewrite E in Hinsn).
  apply relocate_resolves with (ds := ds) in Hrel as (_ & _ & Hcalls & ext & Hrel); [|done..].
  pose proof (relocated_text _ _ _ _ _ Hrel Hin) as Htext.
  destruct Hrel as (Hg & _ & Hres & _).
  change (insns (set_relocs ?p _)) with (insns p) in *.
  unfold inside in Hin. unfold calls_text in Hcalls. rewrite List.Forall_forall in Hres, Hin, Hcalls.
  specialize (Hres d Hd). specialize (Hin d Hd). specialize (Hcalls d Hd).
  destruct Hres as (i & Hi & Hres). rewrite Hidx in Hi, Hres. fold k in Hi, Hres.
  assert (k = Z.to_nat (insn_idx d)) as Hk by (by rewrite Hidx).
  assert (Z.to_nat (u32 (r_offset rel / 8) + 1) = S k) as HSk by lia. rewrite HSk in Hres.
  rewrite (lookup_app_l_Some _ _ _ _ Hinsn) in Hi. injection Hi as <-.
  unfold denotes in Hden. unfold touched in Hin. destruct (rtype d).
  - destruct Hden as (Hc & Hdata & j & m & Hj & Hfirst). rewrite Hc. split; [done|]. intros _.
    destruct Hres as (m' & Hm' & Hnew). rewrite Hj in Hm'. apply znth_Some in Hm' as [_ Hm'].
    rewrite Nat2Z.id in Hm'. exists j, m, m'. split; [done|]. split; [done|]. split; [done|].
    by intros Hd'%Hdata.
  - rewrite Hden. split; [intros _|done].
    destruct Hg as [[_ Hm]|(_ & Hm & Ht)].
    { cbn in Hm. rewrite Hmain in Hm. by destruct Hcalls. }
    rewrite Hm, <- Hidx in Hres. split; [|by exists ext].
    rewrite Hk, Z2Nat.id by done. by rewrite <- Hk.
  - destruct Hden as (Hc & Hdata & j & m & Hj & Hfirst). rewrite Hc. split; [done|]. intros _.
    destruct Hres as (m' & next & Hm' & Hnext & Hnew & Hnew'). rewrite Hj in Hm'.
    apply znth_Some in Hm' as [_ Hm']. rewrite Nat2Z.id in Hm'. exists j, m, m'.
    split; [done|]. split; [done|]. split; [by intros []; apply Hdata|]. intros _.
    split; [done|]. exists next. split; [|done].
    apply Forall_cons_iff in Hin as [_ Hin]. apply Forall_cons_iff in Hin as [Hin _].
    rewrite Hidx, HSk in Hin. by rewrite lookup_app_l in Hnext.
Qed.
End Symbols.
