(* ===== verification/LoadFds.v ===== *)
(** * Descriptors while an object is loaded

    What the load path of [BpfLoad] does to the open descriptors of the process:
    on success exactly the maps and programs of the object hold the new ones, on
    failure none is left, whatever failed.  The laws are what the kernel documents
    of each call.  The reuse of pinned maps is the exception, shown apart. *)

From S2P Require Import Prelude BpfMap BpfCalls BpfObject BpfLoad.
From Stdlib Require Import Ascii String.

Local Open Scope Z_scope.

(** A call that answers [fd] opens it, or changes nothing when it fails. *)
Definition opens (fd : Z) (s s' : gset Z) : Prop :=
  if fd <? 0 then s' = s else (fd ∉ s) /\ s' = {[fd]} ∪ s.

Class FdLaws (W : Type) `{BpfSys W} `{BpfKern W} := {
  opened : W -> gset Z;
  map_create_opens : forall a w fd w', sys_map_create a w = (fd, w') ->
    opens fd (opened w) (opened w');
  prog_load_opens : forall a w fd r w', sys_prog_load a w = (fd, r, w') ->
    opens fd (opened w) (opened w');
  obj_get_opens : forall p w fd w', bpf_obj_get p w = (fd, w') ->
    opens fd (opened w) (opened w');
  open_root_opens : forall w fd w', sys_open_root w = (fd, w') ->
    opens fd (opened w) (opened w');
  dup3_opens : forall old new w fd w', sys_dup3 old new w = (fd, w') ->
    fd < 0 /\ opened w' = opened w \/ fd = new /\ opened w' = {[new]} ∪ opened w;
  close_closes : forall fd w r w', sys_close fd w = (r, w') -> opened w' = opened w ∖ {[fd]};
  elem_keeps : forall c a w r v w', sys_elem c a w = (r, v, w') -> opened w' = opened w;
  freeze_keeps : forall fd w r w', sys_map_freeze fd w = (r, w') -> opened w' = opened w;
  unlink_keeps : forall p w r w', sys_unlink p w = (r, w') -> opened w' = opened w;
}.

(** The descriptors that are open among those an object records. *)
Definition valid (fds : list Z) : list Z := List.filter (fun fd => 0 <=? fd) fds.
Definition map_fds (ms : list full_map) : list Z := valid (fd_of <$> ms).
Definition prog_fds (ps : list full_program) : list Z :=
  valid (List.concat ((fun p => instances (pbase p)) <$> ps)).
Definition held {B X} (o : full_object B X) : list Z :=
  map_fds (fmaps o) ++ prog_fds (fprograms o).

Lemma valid_app l1 l2 : valid (l1 ++ l2) = valid l1 ++ valid l2.
Proof. apply List.filter_app. Qed.
Lemma valid_neg l : Forall (fun fd => fd < 0) l -> valid l = [].
Proof.
  induction 1 as [|fd l Hfd _ IH]; [done|]. cbn. by rewrite (proj2 (Z.leb_gt _ _) Hfd).
Qed.
Lemma map_fds_app l1 l2 : map_fds (l1 ++ l2) = map_fds l1 ++ map_fds l2.
Proof. unfold map_fds. by rewrite fmap_app, valid_app. Qed.
Lemma map_fds_cons m ms : map_fds (m :: ms) = valid [fd_of m] ++ map_fds ms.
Proof. apply (map_fds_app [m]). Qed.
Lemma prog_fds_app l1 l2 : prog_fds (l1 ++ l2) = prog_fds l1 ++ prog_fds l2.
Proof. unfold prog_fds. by rewrite fmap_app, List.concat_app, valid_app. Qed.
Lemma prog_fds_cons p ps : prog_fds (p :: ps) = valid (instances (pbase p)) ++ prog_fds ps.
Proof. unfold prog_fds. cbn. by rewrite valid_app. Qed.

Section Accounts.
Context {W : Type} `{FdLaws W}.
Implicit Types (U : gset Z) (l : list Z) (w : W).

(** Beside [U], exactly the descriptors [l] are open, each once. *)
Definition account U l w : Prop :=
  NoDup l /\ opened w = U ∪ list_to_set l /\ forall fd, fd ∈ l -> fd ∉ U.

Lemma account_perm U l l' w : account U l w -> l ≡ₚ l' -> account U l' w.
Proof.
  intros (Hnd & Ho & Hd) Hp. split; [by rewrite <- Hp|]. split.
  - rewrite Ho. f_equal. by apply list_to_set_perm_L.
  - intros fd. rewrite <- Hp. apply Hd.
Qed.

Lemma account_same U l w w' : opened w' = opened w -> account U l w -> account U l w'.
Proof. unfold account. by intros ->. Qed.

(** The account after a call that may open a descriptor. *)
Lemma account_open U l w w' fd :
  account U l w -> opens fd (opened w) (opened w') -> account U (valid [fd] ++ l) w'.
Proof.
  intros (Hnd & Ho & Hd) Hopens. unfold opens in Hopens. cbn.
  destruct (Z.ltb_spec fd 0) as [Hneg|Hpos].
  - rewrite (proj2 (Z.leb_gt _ _)) by done. by apply (account_same U l w).
  - rewrite (proj2 (Z.leb_le _ _)) by done. destruct Hopens as [Hfd Hw'].
    rewrite Ho, not_elem_of_union, not_elem_of_list_to_set in Hfd. destruct Hfd as [HU Hl].
    split; [by constructor|]. split; [rewrite Hw', Ho; cbn; set_solver|].
    intros fd' [->|?]%elem_of_cons; auto.
Qed.

Lemma account_closed U l w w' fd :
  account U (fd :: l) w -> opened w' = opened w ∖ {[fd]} -> account U l w'.
Proof.
  intros (Hnd & Ho & Hd) Hc. apply list.NoDup_cons in Hnd as [Hfd Hnd].
  split; [done|]. split; [|intros fd' Hfd'; apply Hd; by right].
  rewrite Hc, Ho. cbn. pose proof (Hd fd ltac:(by left)).
  apply set_eq. intros x. rewrite elem_of_difference, !elem_of_union, elem_of_singleton.
  split; [set_solver|]. intros [?|Hx%elem_of_list_to_set]; split; set_solver.
Qed.

Lemma account_close U l w w' fd r :
  account U (fd :: l) w -> sys_close fd w = (r, w') -> account U l w'.
Proof. intros Ha Hc%close_closes. by eapply account_closed. Qed.

Lemma account_zclose U l w w' fd r :
  account U (valid [fd] ++ l) w -> zclose fd w = (r, w') -> account U l w'.
Proof.
  unfold zclose. cbn. destruct (0 <=? fd); [apply account_close|]. by intros ? [= _ <-].
Qed.
End Accounts.

(** The CO-RE relocations close what they open. *)
Class CoreLaws (B X W : Type) `{CoreOps B X W} `{FdLaws W} := {
  core_keeps : forall o b x path w r w', bpf_core_reloc_fields o b x path w = Some (r, w') ->
    opened w' = opened w;
}.

Section Runs.
Context {B X W : Type} `{BtfOps B X} `{CoreLaws B X W}.
Context (junk : Z -> string) (info_btf_ids : Z -> W -> Z * Z) (num_possible_cpus : W -> Z).
Context (agains : nat).
Implicit Types (U : gset Z) (l : list Z) (w : W) (o : full_object B X).

(** ** Loading programs *)

Lemma fails_opened p w w' : rtc (fails p) w w' -> opened w' = opened w.
Proof.
  induction 1 as [|w1 w2 w3 (a & fd & r & _ & E & Hfd) _ IH]; [done|].
  rewrite IH. apply prog_load_opens in E. unfold opens in E.
  by rewrite (proj2 (Z.ltb_lt _ _) Hfd) in E.
Qed.

Lemma answers_opens p fd w w' : answers p fd w w' -> opens fd (opened w) (opened w').
Proof.
  intros [[Hfd Hf]|(Hfd & w1 & a & r & Hf & _ & E)]; apply fails_opened in Hf.
  - unfold opens. by rewrite (proj2 (Z.ltb_lt _ _) Hfd).
  - apply prog_load_opens in E. by rewrite Hf in E.
Qed.

Lemma account_load U l w la b sz fd b' w' :
  account U l w -> bpf_load_program_xattr agains la b sz w = Some (fd, b', w') ->
  account U (valid [fd] ++ l) w'.
Proof. intros Ha Hl%load_program_answers%answers_opens. by eapply account_open. Qed.

Lemma load_retry_account U l fuel la size w err pfd w' :
  account U l w -> load_retry junk agains fuel la size w = Some (err, pfd, w') ->
  account U (valid (option_list pfd) ++ l) w'.
Proof.
  revert size w. induction fuel as [|fuel IH]; intros size w Ha; [done|]. cbn [load_retry].
  intros (((ret & b) & w1) & Hl & Hrun)%bind_Some. apply (account_load U l) in Hl; [|done].
  destruct (Z.leb_spec 0 ret) as [Hpos|Hneg]; [by injection Hrun as <- <- <-|].
  rewrite valid_neg in Hl by (by constructor). cbn [app] in Hl.
  destruct (errno w1 =? ENOSPC). { apply bind_Some in Hrun as (s & _ & Hrun). by eapply IH. }
  destruct (negb _); [by injection Hrun as <- <- <-|].
  destruct (BPF_MAXINSNS <=? _); [by injection Hrun as <- <- <-|].
  destruct (negb _); [|by injection Hrun as <- <- <-].
  apply bind_Some in Hrun as (((fd & b2) & w2) & Hk & Hrun).
  apply (account_load U l) in Hk; [|done].
  destruct (Z.leb_spec 0 fd) as [Hfd|Hfd].
  - destruct (sys_close fd w2) as [r w3] eqn:Hc. injection Hrun as <- <- <-.
    unfold valid in Hk. cbn in Hk. rewrite (proj2 (Z.leb_le _ _)) in Hk by done.
    by eapply account_close.
  - injection Hrun as <- <- <-. by rewrite valid_neg in Hk by (by constructor).
Qed.

Lemma load_program_account U l o p code w err pfd w' :
  account U l w -> load_program junk agains o p code w = Some (err, pfd, w') ->
  account U (valid (option_list pfd) ++ l) w'.
Proof.
  unfold load_program. destruct code; [by intros ? [= <- <- <-]|]. apply load_retry_account.
Qed.

(** A failed load wrote no descriptor. *)
Lemma load_retry_error fuel la size w err pfd w' :
  load_retry junk agains fuel la size w = Some (err, pfd, w') -> err <> 0 -> pfd = None.
Proof.
  revert size w. induction fuel as [|fuel IH]; intros size w; [done|]. cbn [load_retry].
  intros (((ret & b) & w1) & _ & Hrun)%bind_Some.
  destruct (0 <=? ret); [by injection Hrun as <- <- <-|].
  destruct (errno w1 =? ENOSPC). { apply bind_Some in Hrun as (s & _ & Hrun). by eapply IH. }
  destruct (negb _); [by injection Hrun as <- <- <-|].
  destruct (BPF_MAXINSNS <=? _); [by injection Hrun as <- <- <-|].
  destruct (negb _); [|by injection Hrun as <- <- <-].
  apply bind_Some in Hrun as (((fd & b2) & w2) & _ & Hrun).
  destruct (0 <=? fd); [|by injection Hrun as <- <- <-].
  destruct (sys_close fd w2). by injection Hrun as <- <- <-.
Qed.

Lemma load_program_error o p code w err pfd w' :
  load_program junk agains o p code w = Some (err, pfd, w') -> err <> 0 -> pfd = None.
Proof. unfold load_program. destruct code; [by intros [= <- <- <-]|]. apply load_retry_error. Qed.

Lemma load_instances_account U l o p prep i fds w err fds' w' :
  account U l w -> Forall (fun fd => fd < 0) fds ->
  load_instances junk agains o p prep i fds w = Some (err, fds', w') ->
  account U (valid fds' ++ l) w'.
Proof.
  intros Ha Hneg. revert i l w err fds' w' Ha.
  induction Hneg as [|fd0 fds Hfd Hneg IH]; intros i l w err fds' w' Ha; cbn [load_instances].
  { by intros [= _ <- <-]. }
  assert (account U (valid (fd0 :: fds) ++ l) w) as Ha0
    by (by rewrite valid_neg by (by constructor)).
  destruct (prep i (insns p)) as [e code]. destruct (negb (e =? 0)).
  { by intros [= _ <- <-]. }
  destruct code as [|c code].
  - intros (((e1 & fds1) & w1) & Hrun & [= <- <- <-])%bind_Some.
    change (-1 :: fds1) with ([-1] ++ fds1). rewrite valid_app, (valid_neg [-1]) by by constructor.
    by eapply IH.
  - intros (((e1 & pfd) & w1) & Hl & Hrun)%bind_Some.
    destruct (Z.eqb_spec e1 0) as [->|He]; cbn [negb] in Hrun.
    + apply bind_Some in Hrun as (fd & -> & Hrun).
      apply (load_program_account U l) in Hl; [|done].
      apply bind_Some in Hrun as (((e2 & fds2) & w2) & Hrun & [= <- <- <-]).
      eapply IH in Hrun; [|exact Hl]. cbn [option_list] in Hrun.
      eapply account_perm; [exact Hrun|].
      change (fd :: fds2) with ([fd] ++ fds2). rewrite valid_app, <- app_assoc.
      by rewrite Permutation_app_swap_app.
    + injection Hrun as <- <- <-. pose proof (load_program_error _ _ _ _ _ _ _ Hl He) as ->.
      apply (load_program_account U l) in Hl; [|done]. cbn in Hl.
      by rewrite valid_neg by (by constructor).
Qed.

(** No instance holds a descriptor yet. *)
Definition unloaded (p : full_program) : Prop := Forall (fun fd => fd < 0) (instances (pbase p)).

Lemma prog_fds_unloaded ps : Forall unloaded ps -> prog_fds ps = [].
Proof.
  induction 1 as [|p ps Hp _ IH]; [done|]. by rewrite prog_fds_cons, IH, valid_neg.
Qed.

Lemma program_load_account U l o p w err p' w' :
  account U l w -> unloaded p ->
  bpf_program__load junk agains o p w = Some (err, p', w') ->
  account U (valid (instances (pbase p')) ++ l) w'.
Proof.
  unfold bpf_program__load, unloaded. intros Ha Hneg.
  destruct (preprocessor p) as [prep|].
  - case_bool_decide as E; [intros [= _ <- <-]; by rewrite E|].
    intros (((e & fds) & w1) & Hrun & [= _ <- <-])%bind_Some. by eapply load_instances_account.
  - intros (((e & pfd) & w1) & Hl & Hrun)%bind_Some.
    pose proof (load_program_account U l _ _ _ _ _ _ _ Ha Hl) as Ha'.
    set (fds := if bool_decide (instances (pbase p) = []) then [-1] else instances (pbase p)) in *.
    assert (exists fd rest, fds = fd :: rest /\ fd < 0 /\ Forall (fun fd => fd < 0) rest)
      as (fd0 & rest & Hfds & Hfd0 & Hrest).
    { subst fds. destruct (instances (pbase p)) as [|fd rest]; cbn; [by exists (-1), []|].
      apply Forall_cons_iff in Hneg as [??]. by exists fd, rest. }
    rewrite Hfds in Hrun. destruct (Z.eqb_spec e 0) as [->|He]; cbn [negb] in Hrun.
    + apply bind_Some in Hrun as (fd & -> & [= _ <- <-]). cbn [instances pbase set_insns
        set_instances set_pbase insert list_insert]. change (fd :: rest) with ([fd] ++ rest).
      by rewrite valid_app, (valid_neg rest), app_nil_r.
    + rewrite (load_program_error _ _ _ _ _ _ _ Hl He) in Ha'. injection Hrun as _ <- <-.
      cbn [instances pbase set_insns set_instances set_pbase].
      by rewrite valid_neg by (by constructor).
Qed.

Lemma load_progs_account U l o before rest level w err ps w' :
  account U (prog_fds before ++ l) w -> Forall unloaded rest ->
  load_progs junk agains o before rest level w = Some (err, ps, w') ->
  account U (prog_fds ps ++ l) w'.
Proof.
  intros Ha Hrest. revert before w Ha.
  induction Hrest as [|p rest Hp Hrest IH]; intros before w Ha; cbn [load_progs].
  { by intros [= _ <- <-]. }
  destruct (bpf_program__is_function_storage _ _).
  - apply IH. rewrite prog_fds_app, prog_fds_cons, (valid_neg (instances _)) by done.
    cbn [app]. by rewrite app_nil_r.
  - intros (((e & p1) & w1) & Hl & Hrun)%bind_Some.
    apply (program_load_account U (prog_fds before ++ l)) in Hl; [|done|done].
    assert (account U (prog_fds (before ++ [p1]) ++ l) w1) as Ha1.
    { eapply account_perm; [exact Hl|]. rewrite prog_fds_app, prog_fds_cons. cbn.
      rewrite app_nil_r, <- app_assoc. by rewrite Permutation_app_swap_app. }
    destruct (negb (e =? 0)).
    + injection Hrun as _ <- <-. replace (before ++ p1 :: rest) with ((before ++ [p1]) ++ rest)
        by (by rewrite <- app_assoc).
      by rewrite prog_fds_app, (prog_fds_unloaded rest), app_nil_r.
    + by eapply IH.
Qed.

(** ** Relocation opens nothing *)

Lemma relocate_bases o ds p p' :
  relocate_loop p o ds = Some (inr p') -> pbase p' = pbase p.
Proof.
  revert p. induction ds as [|d ds IH]; intros p; cbn [relocate_loop]; [by intros [= ->]|].
  intros (relo & _ & (p1 & Hstep & Hrun)%rbind_Some)%bind_Some.
  rewrite (IH _ Hrun). by apply relocate_step in Hstep as ((-> & _) & _).
Qed.

Lemma relocate_base o p p' : bpf_program__relocate p o = Some (inr p') -> pbase p' = pbase p.
Proof.
  unfold bpf_program__relocate. intros (p0 & ((<- & _) & _)%reloc_ext_spec & Hrun)%rbind_Some.
  destruct (relocs p0) as [ds|]; [|by injection Hrun as ->].
  apply rbind_Some in Hrun as (p1 & Hrun%relocate_bases & [= <-]). done.
Qed.

Lemma relocate_progs_unloaded o idxs o' :
  Forall unloaded (fprograms o) -> relocate_progs o idxs = Some (inr o') ->
  Forall unloaded (fprograms o') /\ fmaps o' = fmaps o.
Proof.
  revert o. induction idxs as [|i idxs IH]; intros o Hu; cbn [relocate_progs].
  { by intros [= <-]. }
  intros (p & Hp & (p1 & Hrel%relocate_base & Hrun)%rbind_Some)%bind_Some.
  apply IH in Hrun; [done|]. cbn. apply Forall_insert; [done|].
  unfold unloaded. rewrite Hrel. exact (Forall_lookup_1 _ _ _ _ Hu Hp).
Qed.

Lemma relocate_unloaded o path w o' w' :
  Forall unloaded (fprograms o) -> bpf_object__relocate o path w = Some (inr o', w') ->
  Forall unloaded (fprograms o') /\ fmaps o' = fmaps o.
Proof.
  unfold bpf_object__relocate, bpf_object__relocate_core. intros Hu.
  intros ([[e|o1] w1] & Hcore & Hrun)%bind_Some; [done|].
  apply bind_Some in Hrun as ([e|o2] & Hrun & [= -> ->]).
  destruct (btf_ext o) as [[b x]|]; [|injection Hcore as <- <-; by apply relocate_progs_unloaded in Hrun].
  destruct (field_reloc_len x =? 0); [injection Hcore as <- <-; by apply relocate_progs_unloaded in Hrun|].
  apply bind_Some in Hcore as ([[e|ls] w2] & _ & Hcore); [done|]. injection Hcore as <- <-.
  apply relocate_progs_unloaded in Hrun; [done|]. clear Hrun. cbn.
  revert ls. induction Hu as [|p ps Hp _ IH]; intros [|c ls]; cbn; try constructor; auto.
Qed.

Lemma relocate_opened o path w r w' :
  bpf_object__relocate o path w = Some (r, w') -> opened w' = opened w.
Proof.
  unfold bpf_object__relocate, bpf_object__relocate_core.
  intros ([r1 w1] & Hcore & Hrun)%bind_Some.
  assert (w' = w1) as -> by (destruct r1; [by injection Hrun|by apply bind_Some in Hrun as (? & _ & [= _ <-])]).
  destruct (btf_ext o) as [[b x]|]; [|by injection Hcore as _ <-].
  destruct (field_reloc_len x =? 0); [by injection Hcore as _ <-|].
  apply bind_Some in Hcore as ([r2 w2] & Hc & [= _ <-]). by eapply core_keeps.
Qed.

(** ** Creating maps *)

Definition no_pin (m : full_map) : Prop := pin_path (mbase m) = None.

Lemma zclose_all_account U l ms w ms' w' :
  account U (map_fds ms ++ l) w -> zclose_all ms w = (ms', w') ->
  account U l w' /\ map_fds ms' = [].
Proof.
  revert w ms' w'. induction ms as [|m ms IH]; intros w ms' w' Ha; cbn [zclose_all].
  { by intros [= <- <-]. }
  destruct (zclose (fd_of m) w) as [r w1] eqn:Hc.
  rewrite map_fds_cons, <- app_assoc in Ha. eapply account_zclose in Ha; [|exact Hc].
  destruct (zclose_all ms w1) as [ms1 w2] eqn:Hall. intros [= <- <-].
  destruct (IH _ _ _ Ha Hall) as [? E]. split; [done|]. by rewrite map_fds_cons, E.
Qed.

Lemma roll_back_account U err before rest w e ms w' :
  account U (map_fds (before ++ rest)) w -> roll_back err before rest w = (e, ms, w') ->
  account U (map_fds ms) w'.
Proof.
  unfold roll_back. rewrite map_fds_app. intros Ha.
  destruct (zclose_all before w) as [ms1 w1] eqn:Hc. intros [= _ <- <-].
  destruct (zclose_all_account _ _ _ _ _ _ Ha Hc) as [? E]. by rewrite map_fds_app, E.
Qed.

Lemma find_btf_info_base o b m err m' :
  bpf_map_find_btf_info o b m = Some (err, m') -> mbase m' = mbase m.
Proof.
  unfold bpf_map_find_btf_info. destruct (_ =? _); [by intros [= _ <-]|].
  destruct (negb _).
  - intros (((ret & key) & value) & _ & Hrun)%bind_Some. by destruct (ret <? 0); injection Hrun as _ <-.
  - intros (ret & _ & Hrun)%bind_Some. by destruct (ret <? 0); injection Hrun as _ <-.
Qed.

Lemma create_map_account U l o m inner max w m' w' :
  account U l w -> create_map o m inner max w = Some (m', w') ->
  account U (valid [fd_of m'] ++ l) w' /\ (no_pin m -> no_pin m').
Proof.
  unfold create_map. intros Ha ([with_btf m1] & Hfound & Hrun)%bind_Some.
  assert (mbase m1 = mbase m) as Hbase.
  { destruct (btf o) as [b|]; [|by injection Hfound as _ <-].
    apply bind_Some in Hfound as ([err m2] & Hm%find_btf_info_base & [= _ <-]). done. }
  destruct (match with_btf with Some _ => _ | None => _ end) as [[bfd key] value].
  destruct (bpf_create_map_xattr _ w) as [fd w1] eqn:E1.
  apply map_create_opens in E1. apply (account_open U l) in E1; [|done].
  destruct ((fd <? 0) && _) eqn:Eretry.
  - apply andb_true_iff in Eretry as [Hneg%Z.ltb_lt _]. rewrite valid_neg in E1 by (by constructor).
    destruct (bpf_create_map_xattr _ w1) as [fd2 w2] eqn:E2.
    apply map_create_opens in E2. apply (account_open U l) in E2; [|done].
    injection Hrun as <- <-. split; [done|]. unfold no_pin. cbn. by rewrite Hbase.
  - injection Hrun as <- <-. split; [done|]. unfold no_pin. cbn. by rewrite Hbase.
Qed.

Lemma populate_opened o m w err w' :
  bpf_object__populate_internal_map o m w = (err, w') -> opened w' = opened w.
Proof.
  unfold bpf_object__populate_internal_map, bpf_map_update_elem, elem_call, bpf_map_freeze.
  case_bool_decide; [by intros [= _ <-]|].
  destruct (sys_elem _ _ w) as [[e v] w1] eqn:E1. apply elem_keeps in E1.
  destruct (_ && _); [|by intros [= _ <-]].
  destruct (sys_map_freeze _ w1) as [r w2] eqn:E2. apply freeze_keeps in E2.
  intros [= _ <-]. congruence.
Qed.

(** Whatever happens, the maps hold what the loop opened and did not close again. *)
Lemma create_loop_account U o before rest inner nr_cpus w err ms w' :
  account U (map_fds (before ++ rest)) w -> Forall no_pin rest ->
  create_loop info_btf_ids num_possible_cpus o before rest inner nr_cpus w = Some (err, ms, w') ->
  account U (map_fds ms) w'.
Proof.
  intros Ha Hrest. revert before inner nr_cpus w Ha.
  induction Hrest as [|m rest Hm Hrest IH]; intros before inner nr_cpus w Ha; cbn [create_loop].
  { rewrite app_nil_r in Ha. by intros [= _ <- <-]. }
  rewrite Hm. cbn [negb Z.eqb]. change (before ++ m :: rest) with (before ++ [m] ++ rest) in Ha.
  destruct (Z.leb_spec 0 (fd_of m)) as [Hfd|Hfd]; [apply IH; by rewrite <- app_assoc|].
  set (per_cpu := _ && (_ =? 0)).
  set (n := if per_cpu && (nr_cpus =? 0) then _ else nr_cpus).
  destruct (per_cpu && (n <? 0)); [intros [= Hrun]; by eapply roll_back_account|].
  set (inner' := if _ && (0 <=? inner_map_fd m) then _ else inner).
  intros ([m1 w1] & Ecreate & Hrun)%bind_Some. revert Hrun.
  apply (create_map_account U (map_fds (before ++ rest))) in Ecreate as [Ha1 Hpin].
  2: { rewrite !map_fds_app in Ha. unfold map_fds at 2 in Ha. cbn [fmap list_fmap] in Ha.
       rewrite (valid_neg [fd_of m]) in Ha by (by constructor). by rewrite map_fds_app. }
  assert (forall m2, fd_of m2 = fd_of m1 ->
    forall w2, opened w2 = opened w1 -> account U (map_fds (before ++ m2 :: rest)) w2) as Hacc.
  { intros m2 E2 w2 Ew. apply (account_same _ _ w1); [done|]. eapply account_perm; [exact Ha1|].
    rewrite !map_fds_app, map_fds_cons, E2. by rewrite Permutation_app_swap_app. }
  specialize (Hpin Hm).
  destruct (fd_of m1 <? 0); [intros [= Hrun]; eapply roll_back_account; [by apply Hacc|exact Hrun]|].
  destruct (if bpf_map__is_internal m1 then _ else _) as [e w2] eqn:Epop.
  assert (opened w2 = opened w1) as Ew2.
  { destruct (bpf_map__is_internal m1); [by eapply populate_opened|by injection Epop as _ <-]. }
  destruct (e <? 0).
  - destruct (zclose (fd_of m1) w2) as [r w3] eqn:Hc.
    apply (account_zclose U (map_fds (before ++ rest))) in Hc.
    2: { by apply (account_same _ _ w1). }
    intros [= Hrun]. eapply roll_back_account; [|exact Hrun]. by rewrite !map_fds_app in *.
  - rewrite Hpin, bool_decide_false by (by intros [??]). cbn [andb negb Z.eqb].
    apply IH. rewrite <- app_assoc. by apply Hacc.
Qed.

(** ** Unloading *)

Lemma close_fds_account U l fds w :
  account U (valid fds ++ l) w -> account U l (close_fds fds w).
Proof.
  revert w. induction fds as [|fd fds IH]; intros w Ha; cbn [close_fds]; [done|].
  destruct (zclose fd w) as [r w1] eqn:Hc. apply IH.
  change (fd :: fds) with ([fd] ++ fds) in Ha. rewrite valid_app, <- app_assoc in Ha.
  by eapply account_zclose.
Qed.

Lemma unpin_opened m w err m' w' :
  bpf_map__unpin m None w = (err, m', w') -> opened w' = opened w.
Proof.
  unfold bpf_map__unpin.
  repeat match goal with
  | |- context [sys_unlink ?p ?w] =>
      let E := fresh in destruct (sys_unlink p w) as [??] eqn:E; apply unlink_keeps in E
  | |- context [if ?c then _ else _] => destruct c
  | |- context [match pin_path m with _ => _ end] => destruct (pin_path m)
  end; intros [= _ _ <-]; congruence.
Qed.

Lemma unpin_fd m w err m' w' :
  bpf_map__unpin m None w = (err, m', w') -> map_fd m' = map_fd m.
Proof.
  unfold bpf_map__unpin.
  repeat match goal with
  | |- context [sys_unlink ?p ?w] => destruct (sys_unlink p w) as [??]
  | |- context [if ?c then _ else _] => destruct c
  | |- context [match pin_path m with _ => _ end] => destruct (pin_path m)
  end; by intros [= _ <- _].
Qed.

Lemma unpin_auto_spec ms w ms' w' :
  unpin_auto ms w = (ms', w') -> opened w' = opened w /\ map_fd <$> ms' = map_fd <$> ms.
Proof.
  revert w ms' w'. induction ms as [|m ms IH]; intros w ms' w'; cbn [unpin_auto].
  { by intros [= <- <-]. }
  destruct (pinned m && negb (reused m)).
  - destruct (bpf_map__unpin m None w) as [[e m1] w1] eqn:E.
    destruct (unpin_auto ms w1) as [ms1 w2] eqn:Hrest. intros [= <- <-].
    destruct (IH _ _ _ Hrest) as [-> Hfds]. cbn. rewrite Hfds.
    by rewrite (unpin_fd _ _ _ _ _ E), (unpin_opened _ _ _ _ _ E).
  - destruct (unpin_auto ms w) as [ms1 w2] eqn:Hrest. intros [= <- <-].
    destruct (IH _ _ _ Hrest) as [-> Hfds]. cbn. by rewrite Hfds.
Qed.

Lemma zip_fds (ms : list full_map) (bs : list bpf_map) :
  List.length bs = List.length ms -> fd_of <$> zip_with set_mbase ms bs = map_fd <$> bs.
Proof.
  revert bs. induction ms as [|m ms IH]; intros [|b bs] Hl; try done. cbn. f_equal. apply IH.
  by injection Hl.
Qed.

Lemma unload_account U o w o' w' :
  account U (held o) w -> unload o w = (o', w') -> account U [] w' /\ held o' = [].
Proof.
  unfold unload, held. intros Ha. cbn [bpf_object__unload erase maps programs]. intros [= <- <-].
  split.
  - apply close_fds_account. rewrite app_nil_r.
    replace (instances <$> (pbase <$> fprograms o)) with
      ((fun p => instances (pbase p)) <$> fprograms o) by (by rewrite <- list_fmap_compose).
    apply close_fds_account.
    replace (map_fd <$> (mbase <$> fmaps o)) with (fd_of <$> fmaps o)
      by (by rewrite <- list_fmap_compose). exact Ha.
  - cbn [fmaps fprograms set_fmaps set_fprograms]. unfold map_fds.
    rewrite zip_fds by (by rewrite !length_fmap). rewrite valid_neg; cbn [app].
    + apply prog_fds_unloaded. unfold unloaded.
      generalize (fprograms o). intros ps. induction ps as [|p ps IH]; constructor; [done|].
      exact IH.
    + rewrite <- !list_fmap_compose. apply Forall_fmap, Forall_true. done.
Qed.

Lemma load_failed_account U err o w e res w' :
  account U (held o) w -> load_failed err o w = (e, res, w') ->
  e = err /\ exists o1, res = Some o1 /\ account U [] w' /\ held o1 = [].
Proof.
  unfold load_failed. intros Ha.
  destruct (unpin_auto (mbase <$> fmaps o) w) as [ms w1] eqn:Hun.
  apply unpin_auto_spec in Hun as [Hw1 Hfds].
  destruct (unload _ w1) as [o1 w2] eqn:Hul. intros [= <- <- <-]. split; [done|]. exists o1.
  split; [done|]. eapply unload_account; [|exact Hul].
  apply (account_same _ _ w); [done|]. unfold held, map_fds in *. cbn [fmaps fprograms set_fmaps].
  rewrite zip_fds, Hfds, <- list_fmap_compose; [exact Ha|].
  apply (f_equal List.length) in Hfds. by rewrite !length_fmap in Hfds.
Qed.

(** ** The whole load *)

(** C8. However the load of an object that was not loaded before ends, when none of its
    maps is to be pinned while loading and its programs have no descriptors, the
    descriptors open beside [U] are those the object holds, each once; when it fails the
    object holds none.  Maps the client preset may be in the object before.  A pinned
    map that is reused does leak ([reuse_leaks]). *)
Theorem load_no_leak U o level path w err res w' :
  floaded o = false -> Forall no_pin (fmaps o) -> Forall unloaded (fprograms o) ->
  account U (map_fds (fmaps o)) w ->
  bpf_object__load_xattr junk info_btf_ids num_possible_cpus agains (Some o) level path w =
    Some (err, res, w') ->
  exists o1, res = Some o1 /\ account U (held o1) w' /\ (err <> 0 -> held o1 = []).
Proof.
  unfold bpf_object__load_xattr, bpf_object__create_maps. intros -> Hpin Hu Ha.
  intros ([[e o0] w1] & (((e0 & ms) & w0) & Hcreate & [= -> <- ->])%bind_Some & Hrun)%bind_Some.
  revert Hrun. apply (create_loop_account U) in Hcreate; [|done|done].
  set (o1 := set_fmaps (set_floaded o true) ms).
  assert (account U (held o1) w1) as Ha1.
  { unfold held, o1. cbn [fmaps fprograms set_fmaps set_floaded].
    by rewrite (prog_fds_unloaded (fprograms o)), app_nil_r. }
  assert (forall e o2 w2, account U (held o2) w2 -> load_failed e o2 w2 = (err, res, w') ->
    exists o1, res = Some o1 /\ account U (held o1) w' /\ (err <> 0 -> held o1 = [])) as Hfail.
  { intros e0 o2 w2 Ha2 (_ & o3 & -> & Ha3 & E)%(load_failed_account U); [|done].
    exists o3. rewrite E. done. }
  destruct (negb (e =? 0)); [intros [= Hf]; by eapply Hfail|].
  intros ([r w1'] & Hrel & Hrun)%bind_Some. pose proof Hrel as Hw1%relocate_opened.
  apply (account_same _ _ w1 w1') in Ha1, Hcreate; [|done..]. destruct r as [e1|o2].
  { injection Hrun as Hf. by eapply Hfail. }
  apply relocate_unloaded in Hrel as [Hu2 Hm2]; [|done].
  apply bind_Some in Hrun as (((e2 & o3) & w3) & Hprogs & Hrun).
  unfold bpf_object__load_progs in Hprogs.
  apply bind_Some in Hprogs as (((e3 & ps) & w4) & Hprogs & [= <- <- <-]).
  apply (load_progs_account U (map_fds (fmaps o2))) in Hprogs; [|by rewrite Hm2; cbn|done].
  assert (account U (held (set_fprograms o2 ps)) w4) as Ha4
    by (eapply account_perm; [exact Hprogs|apply Permutation_app_comm]).
  destruct (Z.eqb_spec e3 0) as [->|He]; cbn [negb] in Hrun.
  - injection Hrun as <- <- <-. eexists. split; [done|]. split; [exact Ha4|]. done.
  - injection Hrun as Hf. by eapply Hfail.
Qed.
End Runs.

(** ** What a successful load gives *)

(** A failed creation says why. *)
Class ErrnoLaws (W : Type) `{BpfKern W} := {
  create_errno : forall a w fd w', sys_map_create a w = (fd, w') -> fd < 0 -> 0 < errno w';
}.

(** An error is never the number 0. *)
Class CoreErrors (B X W : Type) `{CoreOps B X W} := {
  core_honest : forall o b x path w w', bpf_core_reloc_fields o b x path w <> Some (inl 0, w');
}.

(** An error is never the number 0. *)
Definition honest {A} (m : option (Z + A)) : Prop := m <> Some (inl 0).

Lemma honest_rbind {A C} (m : option (Z + A)) (f : A -> option (Z + C)) :
  honest m -> (forall a, honest (f a)) -> honest (rbind m f).
Proof. unfold honest. destruct m as [[e|a]|]; cbn; [|auto|done]. by intros ? _ [= ->]. Qed.

Lemma honest_bind {A C} (m : option A) (f : A -> option (Z + C)) :
  (forall a, honest (f a)) -> honest (m ≫= f).
Proof. intros Hf. by destruct m; [apply Hf|]. Qed.

(** An error passed on. *)
Lemma honest_pass {A C} (m : option (Z + A)) (f : A -> option (Z + C)) :
  honest m -> (forall a, honest (f a)) ->
  honest (r ← m; match r with inl e => Some (inl e) | inr a => f a end).
Proof. unfold honest. destruct m as [[e|a]|]; cbn; [congruence|auto|done]. Qed.

Ltac honest :=
  repeat match goal with
  | |- honest (rbind _ _) => apply honest_rbind; [|intros ?]
  | |- honest (_ ≫= _) => first [apply honest_pass; [|intros ?]|apply honest_bind; intros ?]
  | |- honest (if ?c then _ else _) => destruct c eqn:?
  | |- honest (match ?c with _ => _ end) => destruct c eqn:?
  end; try done.

Section Success.
Context {B X W : Type} `{BtfOps B X} `{CoreErrors B X W} `{BpfSys W} `{ErrnoLaws W}.
Context (junk : Z -> string) (info_btf_ids : Z -> W -> Z * Z) (num_possible_cpus : W -> Z).
Context (agains : nat).
Implicit Types (w : W) (o : full_object B X).

Lemma load_retry_fd fuel la size w err fd w' :
  load_retry junk agains fuel la size w = Some (err, Some fd, w') -> 0 <= fd.
Proof.
  revert size w. induction fuel as [|fuel IH]; intros size w; [done|]. cbn [load_retry].
  intros (((ret & b) & w1) & _ & Hrun)%bind_Some.
  destruct (Z.leb_spec 0 ret); [by injection Hrun as _ <- _|].
  destruct (errno w1 =? ENOSPC). { apply bind_Some in Hrun as (s & _ & Hrun). by eapply IH. }
  destruct (negb _); [done|]. destruct (BPF_MAXINSNS <=? _); [done|]. destruct (negb _); [|done].
  apply bind_Some in Hrun as (((k & b2) & w2) & _ & Hrun).
  destruct (0 <=? k); [|done]. by destruct (sys_close k w2).
Qed.

Lemma pin_keeps_fd m w err m' w' : bpf_map__pin m None w = (err, m', w') -> map_fd m' = map_fd m.
Proof.
  unfold bpf_map__pin, pin_at.
  repeat match goal with
  | |- context [make_parent_dir ?p ?w] => destruct (make_parent_dir p w) as [??]
  | |- context [bpf_obj_pin ?f ?p ?w] => destruct (bpf_obj_pin f p w) as [??]
  | |- context [if ?c then _ else _] => destruct c
  | |- context [match pin_path m with _ => _ end] => destruct (pin_path m)
  end; by intros [= _ <- _].
Qed.

(** A map that can be used. *)
Definition created (m : full_map) : Prop := 0 <= fd_of m.

(** The instances [fds] from the [i]-th on, of a program whose instructions were [code]:
    each one the preprocessor gave instructions is loaded, the others are -1. *)
Definition instances_loaded (prep : Z -> list bpf_insn -> Z * list bpf_insn) (code : list bpf_insn)
    (i : Z) (fds : list Z) : Prop :=
  forall j fd, fds !! j = Some fd -> fst (prep (i + Z.of_nat j) code) = 0 /\
    match snd (prep (i + Z.of_nat j) code) with [] => fd = -1 | _ => 0 <= fd end.

(** A program that is loaded: the storage of functions is not, as it is copied into the
    others. *)
Definition runs o (p : full_program) : Prop :=
  bpf_program__is_function_storage (pbase p) (erase o) = true \/
  match preprocessor p with
  | None => exists fd, instances (pbase p) !! O = Some fd /\ 0 <= fd
  | Some prep => instances (pbase p) <> [] /\ exists code, instances_loaded prep code 0 (instances (pbase p))
  end.

Lemma create_map_errno o m inner max w m' w' :
  create_map o m inner max w = Some (m', w') -> fd_of m' < 0 -> 0 < errno w'.
Proof.
  unfold create_map. intros ([with_btf m1] & _ & Hrun)%bind_Some. revert Hrun.
  destruct (match with_btf with Some _ => _ | None => _ end) as [[bfd key] value].
  destruct (bpf_create_map_xattr _ w) as [fd w1] eqn:E1.
  pose proof (create_errno _ _ _ _ E1) as He1.
  destruct (_ && _); [|by intros [= <- <-]].
  destruct (bpf_create_map_xattr _ w1) as [fd2 w2] eqn:E2.
  pose proof (create_errno _ _ _ _ E2) as He2.
  by intros [= <- <-].
Qed.

Lemma roll_back_error err before rest w e ms w' : roll_back err before rest w = (e, ms, w') -> e = err.
Proof. unfold roll_back. destruct (zclose_all before w). by intros [= -> _ _]. Qed.

Lemma create_loop_created o before rest inner nr_cpus w ms w' :
  Forall created before ->
  create_loop info_btf_ids num_possible_cpus o before rest inner nr_cpus w = Some (0, ms, w') ->
  Forall created ms.
Proof.
  revert before inner nr_cpus w. induction rest as [|m rest IH];
    intros before inner nr_cpus w Hb; cbn [create_loop]; [by intros [= <- _]|].
  destruct (match pin_path (mbase m) with Some _ => _ | None => _ end) as [[e m1] w1].
  destruct (Z.eqb_spec e 0) as [->|He]; cbn [negb]; [|intros [= E _ _]; done].
  assert (forall m2, 0 <= fd_of m2 -> Forall created (before ++ [m2])) as Hone.
  { intros m2 Hm2. apply list.Forall_app. split; [done|]. by constructor. }
  destruct (Z.leb_spec 0 (fd_of m1)); [by apply IH, Hone|].
  set (per_cpu := _ && (_ =? 0)).
  set (n := if per_cpu && (nr_cpus =? 0) then _ else nr_cpus).
  destruct (per_cpu && (n <? 0)) eqn:Hn.
  { apply andb_true_iff in Hn as [_ Hn%Z.ltb_lt]. intros [= ?%roll_back_error]. lia. }
  intros ([m2 w2] & Hc & Hrun)%bind_Some. revert Hrun.
  destruct (Z.ltb_spec (fd_of m2) 0) as [Hfd|Hfd].
  { apply create_map_errno in Hc; [|done]. intros [= ?%roll_back_error]. lia. }
  destruct (if bpf_map__is_internal m2 then _ else _) as [e w3].
  destruct (Z.ltb_spec e 0); [destruct (zclose _ w3); intros [= ?%roll_back_error]; lia|].
  destruct (if _ && negb (pinned _) then _ else _) as [[e2 m3] w4] eqn:Hp.
  assert (fd_of m3 = fd_of m2) as E3.
  { destruct (_ && negb _); [|by injection Hp as _ <- _].
    destruct (bpf_map__pin (mbase m2) None w3) as [[e3 b] w5] eqn:Epin.
    injection Hp as _ <- _. by apply pin_keeps_fd in Epin. }
  destruct (Z.eqb_spec e2 0) as [->|He2]; cbn [negb]; [|intros [= E _ _]; done].
  apply IH, Hone. by rewrite E3.
Qed.

Lemma load_program_fd o p code w fd w' :
  load_program junk agains o p code w = Some (0, Some fd, w') -> 0 <= fd.
Proof. unfold load_program. destruct code; [done|]. apply load_retry_fd. Qed.

Lemma load_instances_loaded o p prep i fds w fds' w' :
  load_instances junk agains o p prep i fds w = Some (0, fds', w') ->
  List.length fds' = List.length fds /\ instances_loaded prep (insns p) i fds'.
Proof.
  revert i w fds' w'. induction fds as [|fd0 fds IH]; intros i w fds' w'; cbn [load_instances].
  { by intros [= <- _]. }
  assert (forall fd l, fst (prep i (insns p)) = 0 ->
    match snd (prep i (insns p)) with [] => fd = -1 | _ => 0 <= fd end ->
    List.length l = List.length fds /\ instances_loaded prep (insns p) (i + 1) l ->
    List.length (fd :: l) = List.length (fd0 :: fds) /\ instances_loaded prep (insns p) i (fd :: l)) as Hcons.
  { intros fd l He Hfd [Hlen Hl]. split; [cbn; by rewrite Hlen|]. intros [|j] x Hx.
    - injection Hx as <-. by rewrite Z.add_0_r.
    - specialize (Hl j x Hx). by replace (i + Z.of_nat (S j)) with (i + 1 + Z.of_nat j) by lia. }
  destruct (prep i (insns p)) as [err code] eqn:Hp. cbn [fst snd] in Hcons.
  destruct (Z.eqb_spec err 0) as [->|]; cbn [negb]; [|by intros [= ? _ _]]. destruct code as [|c code].
  - intros (((e & l) & w1) & Hl & [= -> <- _])%bind_Some. apply Hcons; [done..|]. by eapply IH.
  - intros (((e & pfd) & w1) & Hload & Hrun)%bind_Some.
    destruct (Z.eqb_spec e 0) as [->|]; cbn [negb] in Hrun; [|by injection Hrun].
    apply bind_Some in Hrun as (fd & -> & (((e2 & l) & w2) & Hl & [= -> <- _])%bind_Some).
    apply load_program_fd in Hload. apply Hcons; [done..|]. by eapply IH.
Qed.

Lemma program_load_runs o p w p' w' :
  bpf_program__load junk agains o p w = Some (0, p', w') ->
  match preprocessor p' with
  | None => exists fd, instances (pbase p') !! O = Some fd /\ 0 <= fd
  | Some prep => instances (pbase p') <> [] /\ exists code, instances_loaded prep code 0 (instances (pbase p'))
  end.
Proof.
  unfold bpf_program__load. destruct (preprocessor p) as [prep|] eqn:Hprep.
  - case_bool_decide as Hne; [done|]. intros (((e & fds) & w1) & Hl & [= -> <- _])%bind_Some.
    cbn. rewrite Hprep. apply load_instances_loaded in Hl as [Hlen Hl]. split; [|by exists (insns p)].
    intros ->. by destruct (instances (pbase p)).
  - intros (((e & pfd) & w1) & Hl & Hrun)%bind_Some.
    destruct (Z.eqb_spec e 0) as [->|He]; cbn [negb] in Hrun; [|by injection Hrun].
    apply bind_Some in Hrun as (fd & -> & [= <- _]). cbn. rewrite Hprep. exists fd.
    apply load_program_fd in Hl. split; [|done]. by destruct (instances (pbase p)).
Qed.

Lemma load_progs_runs o before rest level w ps w' :
  Forall (runs o) before -> load_progs junk agains o before rest level w = Some (0, ps, w') ->
  Forall (runs o) ps.
Proof.
  revert before w. induction rest as [|p rest IH]; intros before w Hb; cbn [load_progs].
  { by intros [= <- _]. }
  assert (forall p2, runs o p2 -> Forall (runs o) (before ++ [p2])) as Hone.
  { intros p2 Hp2. apply list.Forall_app. split; [done|]. by constructor. }
  destruct (bpf_program__is_function_storage _ _) eqn:Hs; [by apply IH, Hone; left|].
  intros (((e & p1) & w1) & Hl & Hrun)%bind_Some.
  destruct (Z.eqb_spec e 0) as [->|He]; cbn [negb] in Hrun; [|by injection Hrun].
  apply IH in Hrun; [done|]. apply Hone. right. by eapply program_load_runs.
Qed.

Lemma relocate_keeps o path w o' w' :
  bpf_object__relocate o path w = Some (inr o', w') ->
  fmaps o' = fmaps o /\ ef o' = ef o /\ fhas_pseudo_calls o' = fhas_pseudo_calls o.
Proof.
  assert (forall idxs o1 o2, relocate_progs o1 idxs = Some (inr o2) ->
    fmaps o2 = fmaps o1 /\ ef o2 = ef o1 /\ fhas_pseudo_calls o2 = fhas_pseudo_calls o1) as Hprogs.
  { induction idxs as [|i idxs IH]; intros o1 o2; cbn [relocate_progs]; [by intros [= <-]|].
    intros (p & _ & (p1 & _ & Hrun)%rbind_Some)%bind_Some. by apply IH in Hrun. }
  unfold bpf_object__relocate. intros ([[e|o1] w1] & Hcore & Hrun)%bind_Some; [done|].
  apply bind_Some in Hrun as ([e|o2] & Hrun & [= -> ->]). apply Hprogs in Hrun.
  unfold bpf_object__relocate_core in Hcore.
  destruct (btf_ext o) as [[b x]|]; [|by injection Hcore as <- _].
  destruct (field_reloc_len x =? 0); [by injection Hcore as <- _|].
  apply bind_Some in Hcore as ([[e|ls] w2] & _ & Hcore); [done|]. by injection Hcore as <- _.
Qed.

Lemma reloc_ext_honest o p s n : honest (reloc_ext p o s n).
Proof.
  unfold reloc_ext. honest. intros [= ->].
  match goal with Hz : negb (0 =? 0) = true |- _ => discriminate Hz end.
Qed.

Lemma relocate_loop_honest o p ds : honest (relocate_loop p o ds).
Proof.
  revert p. induction ds as [|d ds IH]; intros p; cbn [relocate_loop]; honest.
  - unfold bpf_program__reloc_text, append_text. honest. apply reloc_ext_honest.
  - unfold reloc_map. honest.
Qed.

Lemma relocate_honest o p : honest (bpf_program__relocate p o).
Proof.
  unfold bpf_program__relocate. honest; [apply reloc_ext_honest|apply relocate_loop_honest].
Qed.

Lemma relocate_object_honest o path w r w' :
  bpf_object__relocate o path w = Some (r, w') -> r <> inl 0.
Proof.
  unfold bpf_object__relocate. intros ([[e|o1] w1] & Hcore & Hrun)%bind_Some.
  { injection Hrun as <- _. revert Hcore. unfold bpf_object__relocate_core.
    destruct (btf_ext o) as [[b x]|]; [|done]. destruct (field_reloc_len x =? 0); [done|].
    intros ([[e2|ls] w2] & Hc & [= -> _])%bind_Some. intros [= ->]. by eapply core_honest. }
  apply bind_Some in Hrun as (r1 & Hr1 & [= <- _]). intros ->. revert Hr1.
  change (honest (relocate_progs o1 (seq 0 (List.length (fprograms o1))))).
  clear Hcore. generalize (seq 0 (List.length (fprograms o1))). intros idxs.
  revert o1. induction idxs as [|i idxs IH]; intros o1; cbn [relocate_progs]; honest.
  apply relocate_honest.
Qed.

(** C9. When a run of loading that is defined succeeds, every map has a descriptor, and so
    has every program but the storage of functions: its first instance, or, with a
    preprocessor, each instance that the preprocessor gave instructions (the others are
    -1).  The run is not defined when a descriptor nobody wrote is taken
    ([refused_log_level]). *)
Theorem load_success o level path w res w' :
  bpf_object__load_xattr junk info_btf_ids num_possible_cpus agains (Some o) level path w =
    Some (0, res, w') ->
  exists o1, res = Some o1 /\ Forall created (fmaps o1) /\ Forall (runs o1) (fprograms o1).
Proof.
  unfold bpf_object__load_xattr, bpf_object__create_maps. destruct (floaded o); [done|].
  intros ([[e o0] w1] & (((e0 & ms) & w0) & Hcreate & [= -> <- ->])%bind_Some & Hrun)%bind_Some.
  revert Hrun. assert (forall e o2 w2, load_failed e o2 w2 = (0, res, w') -> e = 0) as Hfail.
  { intros e2 o2 w2. unfold load_failed. destruct (unpin_auto _ w2). destruct (unload _ _).
    by intros [= -> _ _]. }
  destruct (Z.eqb_spec e 0) as [->|He]; cbn [negb]; [|by intros [= ?%Hfail]].
  apply create_loop_created in Hcreate; [|done].
  intros ([r w1'] & Hrel & Hrun)%bind_Some. destruct r as [e1|o2].
  { injection Hrun as ->%Hfail. by apply relocate_object_honest in Hrel. }
  apply relocate_keeps in Hrel as (Hm & Hef & Hpc).
  apply bind_Some in Hrun as (((e2 & o3) & w3) & Hprogs & Hrun).
  unfold bpf_object__load_progs in Hprogs.
  apply bind_Some in Hprogs as (((e3 & ps) & w4) & Hprogs & [= <- <- <-]).
  destruct (Z.eqb_spec e3 0) as [->|He]; cbn [negb] in Hrun; [|by injection Hrun as ?%Hfail].
  injection Hrun as <- <-. eexists. split; [done|]. cbn [fmaps fprograms set_fprograms].
  split; [by rewrite Hm|]. by apply load_progs_runs in Hprogs.
Qed.
End Success.

(** ** Where the code does not do what it means to *)

Section Departures.
Context {B X W : Type} `{BtfOps B X} `{FdLaws W}.
Context (junk : Z -> string) (info_btf_ids : Z -> W -> Z * Z) (agains : nat).
Implicit Types (w : W) (o : full_object B X).

(** A pinned map that is reused leaves two descriptors of it open: the one of the
    object and the one [bpf_obj_get] gave, which nobody closes. *)
Theorem reuse_leaks m path w fd w1 m' w' :
  bpf_obj_get path w = (fd, w1) -> 0 <= fd -> fd_of m < 0 ->
  bpf_object__reuse_map info_btf_ids m path w = (0, m', w') ->
  fd ∈ opened w' /\ fd_of m' ∈ opened w' /\ fd_of m' <> fd.
Proof.
  intros Hget Hfd Hm. unfold bpf_object__reuse_map. rewrite Hget.
  rewrite (proj2 (Z.ltb_ge _ _)) by done.
  apply obj_get_opens in Hget. unfold opens in Hget. rewrite (proj2 (Z.ltb_ge _ _)) in Hget by done.
  destruct Hget as [_ Hw1].
  destruct (map_is_reuse_compat m fd w1) eqn:Hcompat; cbn [negb];
    [|by destruct (sys_close fd w1)].
  unfold map_is_reuse_compat in Hcompat.
  unfold reuse_fd. destruct (info_btf_ids fd w1) as [key value]. unfold bpf_map__reuse_fd.
  destruct (obj_info fd w1) as [e|info]; [done|].
  destruct (sys_open_root w1) as [new w2] eqn:Hroot. apply open_root_opens in Hroot.
  unfold opens in Hroot. destruct (Z.ltb_spec new 0) as [Hnew|Hnew].
  { cbn. rewrite (proj2 (Z.eqb_neq _ _)) by lia. cbn. destruct (sys_close fd w2).
    intros [= ? _ _]. lia. }
  destruct Hroot as [Hfresh Hw2].
  destruct (sys_dup3 fd new w2) as [new' w3] eqn:Hdup.
  apply dup3_opens in Hdup as [[Hneg _]|[-> Hw3]].
  { rewrite (proj2 (Z.ltb_lt _ _)) by done. destruct (sys_close new' w3) as [r w4].
    cbn. rewrite (proj2 (Z.eqb_neq _ _)) by lia. cbn. destruct (sys_close fd w4).
    intros [= ? _ _]. lia. }
  rewrite (proj2 (Z.ltb_ge _ _)) by done. unfold zclose.
  rewrite (proj2 (Z.leb_gt _ _)) by exact Hm. cbn. intros [= <- <-].
  cbn [fd_of mbase set_mbase set_btf_ids map_fd set_pin]. rewrite Hw3, Hw2, Hw1 in *.
  unfold fd_of. cbn. set_solver.
Qed.

(** The interface a program is to be offloaded to does not reach the kernel: it
    shares its place in the attributes with [attach_btf_id], written after it. *)
Theorem offload_ifindex_lost o p code buf sz :
  prog_type (pbase p) <> BPF_PROG_TYPE_TRACING ->
  pa_prog_ifindex (load_attributes (load_attr_of o p code) buf sz) = attach_btf_id p.
Proof. intros Ht. cbn. by rewrite (proj2 (Z.eqb_neq _ _)). Qed.

Lemma load_refused la buf sz w :
  7 < la_log_level la -> bpf_load_program_xattr agains la buf sz w = Some (- BpfCalls.EINVAL, buf, w).
Proof.
  intros Hlog. unfold bpf_load_program_xattr. destruct (negb _); [done|].
  by rewrite (proj2 (Z.ltb_lt _ _)).
Qed.

Lemma load_retry_refused n la size w :
  7 < la_log_level la -> errno w = 0 -> junk size = EmptyString ->
  la_insns_cnt la < BPF_MAXINSNS -> la_prog_type la <> BPF_PROG_TYPE_KPROBE ->
  load_retry junk agains (S n) la size w = Some (0, None, w).
Proof.
  intros Hlog Hw Hj Hcnt Hkp. cbn [load_retry]. rewrite load_refused by exact Hlog.
  cbn [mbind option_bind]. rewrite Hj, Hw. change (0 =? ENOSPC) with false.
  rewrite (proj2 (Z.leb_gt BPF_MAXINSNS _)), (proj2 (Z.eqb_neq (la_prog_type la) _)) by done.
  by rewrite load_refused.
Qed.

(** A log level the library refuses is reported through an [errno] nobody set: when
    it is 0 the program counts as loaded, with a descriptor never written. *)
Theorem refused_log_level o p w :
  preprocessor p = None -> insns p <> [] -> insns_cnt p < BPF_MAXINSNS ->
  7 < u32 (log_level p) -> prog_type (pbase p) <> BPF_PROG_TYPE_KPROBE ->
  errno w = 0 -> junk BPF_LOG_BUF_SIZE = EmptyString ->
  load_program junk agains o p (insns p) w = Some (0, None, w) /\
  bpf_program__load junk agains o p w = None.
Proof.
  intros Hprep Hne Hcnt Hlog Hkp Hw Hj.
  assert (load_program junk agains o p (insns p) w = Some (0, None, w)) as Hl.
  { unfold load_program. unfold insns_cnt in Hcnt.
    destruct (insns p) as [|i code]; [done|]. by apply load_retry_refused. }
  split; [done|]. unfold bpf_program__load. rewrite Hprep, Hl. done.
Qed.

(** A relocation of a load against a symbol of the section of [.text], which is also
    the section of undefined symbols when there is no [.text], is accepted but not
    recorded; relocating reads the entry nobody wrote. *)
Theorem text_relocation_undefined o symbols p rel sym insn :
  symbols !! Z.to_nat (GELF_R_SYM (r_info rel)) = Some sym ->
  st_shndx sym = ef_text_shndx (ef o) -> st_shndx sym < SHN_LORESERVE ->
  bpf_object__shndx_is_maps o (st_shndx sym) = false ->
  bpf_object__shndx_is_data o (st_shndx sym) = false ->
  znth (insns p) (u32 (r_offset rel / 8)) = Some insn -> code insn = LD_IMM_DW ->
  collect_entry o symbols p rel = Some (inr (None, false)) /\
  forall q ds, relocate_loop q o (None :: ds) = None.
Proof.
  intros Hsym Htext Hres Hmaps Hdata Hinsn Hcode. split; [|done].
  unfold collect_entry. rewrite Hsym, (proj2 (Z.leb_gt _ _)) by done.
  unfold bpf_object__relo_in_known_section. rewrite Hmaps, Hdata, Htext, Z.eqb_refl.
  cbn [negb orb]. by rewrite Hinsn; cbn [mbind option_bind]; rewrite Hcode.
Qed.
End Departures.
