(* ===== verification/LoadExamples.v ===== *)
(** * Loading, on a concrete kernel

    A kernel that meets the laws of [LoadFds], an object with two maps, a program
    that refers to one of them and calls into [.text], and the theorems of
    [BpfCalls], [BpfLoad] and [LoadFds] on it. *)

From S2P Require Import Prelude BpfMap BpfCalls BpfObject BpfLoad LoadFds.
From Stdlib Require Import Ascii String.

Local Open Scope Z_scope.

Module LoadExamples.

(** ** A kernel *)

(** The open descriptors, [errno], whether programs are refused, and how many times
    yet a load is answered EAGAIN. *)
Record kern := Kern { fds : list Z; err : Z; refuse : bool; busy : nat }.

Definition next_fd (w : kern) : Z := foldr Z.max 2 (fds w) + 1.
Definition open_fd (w : kern) : Z * kern :=
  (next_fd w, Kern (next_fd w :: fds w) (err w) (refuse w) (busy w)).
Definition fail (e : Z) (w : kern) : Z * kern := (-1, Kern (fds w) e (refuse w) (busy w)).
Definition close_fd (fd : Z) (w : kern) : kern :=
  Kern (filter (fun x => x <> fd) (fds w)) (err w) (refuse w) (busy w).

Definition load_prog (a : prog_attr) (w : kern) : Z * prog_reply * kern :=
  match busy w with
  | S n => (-1, ProgReply 0 0 EmptyString, Kern (fds w) EAGAIN (refuse w) n)
  | O =>
      if refuse w then
        let '(r, w) := fail 13 w in (r, ProgReply 0 0 "invalid access", w)
      else let '(fd, w) := open_fd w in (fd, ProgReply 0 0 EmptyString, w)
  end.

#[export] Instance kern_calls : BpfKern kern := {
  errno := err;
  sys_map_create a w := if bool_decide (ma_map_name a = "full"%string) then fail 12 w else open_fd w;
  sys_prog_load := load_prog;
  sys_elem c a w := (0, ea_value a, w);
  sys_map_freeze fd w := (0, w);
  sys_obj_pin p fd w := (0, w);
  sys_obj_get p w := open_fd w;
  sys_prog_attach a w := (0, w);
  sys_prog_detach a w := (0, w);
  sys_prog_query q w := (0, q, w);
  sys_prog_test_run t w := (0, t, w);
  sys_get_next_id c id w := (0, id + 1, w);
  sys_get_fd_by_id c id w := open_fd w;
  sys_obj_get_info_by_fd fd len w := (0, [], len, w);
  sys_raw_tracepoint_open n fd w := open_fd w;
  sys_btf_load a w := let '(fd, w) := open_fd w in (fd, EmptyString, w);
  sys_task_fd_query t w := (0, t, w);
}.

Definition a_def : bpf_map_def := MapDef 1 4 8 1024 0.

#[export] Instance kern_sys : BpfSys kern := {
  bpf_obj_get p w := if bool_decide (p = "/sys/fs/bpf/data"%string) then open_fd w else (- ENOENT, w);
  bpf_obj_pin fd p w := (0, w);
  sys_unlink p w := (0, w);
  sys_mkdir p w := (0, w);
  sys_statfs p w := inr true;
  obj_info fd w := inr (MapInfo "data"%string a_def);
  sys_open_root := open_fd;
  sys_dup3 old new w :=
    if new <? 0 then fail 9 w else (new, Kern (new :: fds w) (err w) (refuse w) (busy w));
  sys_close fd w := (0, close_fd fd w);
  object_open f w := (None, w);
  kernel_load o w := (0, o, w);
}.

Lemma next_fd_fresh w : 0 <= next_fd w /\ next_fd w ∉ fds w.
Proof.
  unfold next_fd.
  assert (2 <= foldr Z.max 2 (fds w) /\ forall fd, fd ∈ fds w -> fd <= foldr Z.max 2 (fds w))
    as [? Hmax].
  { induction (fds w) as [|fd l [IH1 IH2]]; cbn; [split; [lia|by intros fd ?%elem_of_nil]|].
    split; [lia|]. intros fd' [->|Hin]%elem_of_cons; [lia|]. specialize (IH2 _ Hin). lia. }
  split; [lia|]. intros Hin%Hmax. lia.
Qed.

(** The descriptors that are open: a negative number is none. *)
Definition open_set (w : kern) : gset Z := list_to_set (filter (fun x => 0 <= x) (fds w)).

Lemma elem_of_open_set x w : x ∈ open_set w <-> 0 <= x /\ x ∈ fds w.
Proof. unfold open_set. by rewrite elem_of_list_to_set, list_elem_of_filter. Qed.

Lemma open_set_cons fd w l : 0 <= fd -> fds w = fd :: l ->
  open_set w = {[fd]} ∪ list_to_set (filter (fun x => 0 <= x) l).
Proof. intros Hfd E. unfold open_set. by rewrite E, filter_cons_True. Qed.

Lemma open_opens w : opens (fst (open_fd w)) (open_set w) (open_set (snd (open_fd w))).
Proof.
  destruct (next_fd_fresh w) as [? Hfresh]. unfold opens. cbn [open_fd fst snd].
  rewrite (proj2 (Z.ltb_ge _ _)) by done. split; [by rewrite elem_of_open_set; intros [_ ?]|].
  by erewrite open_set_cons.
Qed.

Lemma open_opens_eq w fd w' : open_fd w = (fd, w') -> opens fd (open_set w) (open_set w').
Proof. intros E. pose proof (open_opens w) as Ho. by rewrite E in Ho. Qed.

#[export] Instance kern_laws : FdLaws kern.
Proof.
  refine {| opened := open_set |}.
  - intros a w fd w'. cbn. case_bool_decide; [by intros [= <- <-]|apply open_opens_eq].
  - intros a w fd r w'. cbn. unfold load_prog. destruct (busy w); [|by intros [= <- _ <-]].
    destruct (refuse w); [by intros [= <- _ <-]|].
    destruct (open_fd w) as [fd1 w1] eqn:E. intros [= <- _ <-]. by apply open_opens_eq.
  - intros p w fd w'. cbn. case_bool_decide; [apply open_opens_eq|by intros [= <- <-]].
  - intros w fd w'. apply open_opens_eq.
  - intros old new w fd w'. cbn. destruct (Z.ltb_spec new 0); intros [= <- <-]; [by left|right].
    split; [done|]. by erewrite open_set_cons.
  - intros fd w r w' [= _ <-]. apply set_eq. intros x.
    rewrite elem_of_difference, elem_of_singleton, !elem_of_open_set. cbn.
    rewrite list_elem_of_filter. intuition.
  - by intros c a w r v w' [= _ _ <-].
  - by intros fd w r w' [= _ <-].
  - by intros p w r w' [= _ <-].
Defined.

#[export] Instance kern_errno : ErrnoLaws kern.
Proof.
  constructor. intros a w fd w'. cbn. case_bool_decide; [by intros [= <- <-]|].
  intros [= <- <-] Hneg. destruct (next_fd_fresh w) as [? _]. lia.
Qed.

#[export] Instance kern_patient : PatientKern kern.
Proof.
  refine {| patience := busy |}.
  - intros a w fd r w'. cbn. unfold load_prog. destruct (busy w) eqn:E; [|intros [= _ _ <-]; cbn; lia].
    destruct (refuse w); intros [= _ _ <-]; cbn; lia.
  - intros a w fd r w'. cbn. unfold load_prog. destruct (busy w) eqn:E; [|intros [= _ _ <-]; cbn; lia].
    destruct (refuse w); intros [= <- _ <-]; cbn; [done|].
    destruct (next_fd_fresh w) as [? _]. lia.
Defined.

(** ** An object *)

#[export] Instance no_btf : BtfOps unit unit := {
  btf__fd _ := -1;
  btf__get_map_kv_tids _ _ _ _ := Some (-1, 0, 0);
  btf__find_by_name _ _ := Some (-1);
  btf_ext__reloc_func_info _ _ _ _ i := Some (0, i);
  btf_ext__func_info_rec_size _ := 0;
  btf_ext__reloc_line_info _ _ _ _ i := Some (0, i);
  btf_ext__line_info_rec_size _ := 0;
  field_reloc_len _ := 0;
}.

(** No program asks for CO-RE relocations. *)
#[export] Instance no_core {B X} : CoreOps B X kern := {
  bpf_core_reloc_fields o _ _ _ w := Some (inr (insns <$> fprograms o), w);
}.

#[export] Instance no_core_laws {B X} : CoreLaws B X kern.
Proof. constructor. by intros o b x path w r w' [= _ <-]. Defined.

#[export] Instance no_core_errors {B X} : CoreErrors B X kern.
Proof. by constructor. Defined.

Definition a_map (nm : string) (offset : Z) : full_map :=
  FullMap (BpfMap_ (-1) nm 0 a_def None false false) 5 offset (-1) 0 0 LIBBPF_MAP_UNSPEC.

Definition no_info : prog_info := ProgInfo None 0 0.

Definition a_program (idx : Z) (section nm : string) (code : list bpf_insn) : full_program :=
  FullProgram (BpfProgram idx section 0 BPF_PROG_TYPE_XDP 0 []) nm code 0 None 0 None 0
    no_info no_info 0.

(** [r1 = &map; call f; exit] and [f: r0 = 2; exit]. *)
Definition main_code : list bpf_insn :=
  [BpfInsn LD_IMM_DW 1 0 0 0; BpfInsn 0 0 0 0 0; BpfInsn JMP_CALL 0 1 0 (-1); BpfInsn 149 0 0 0 0].
Definition text_code : list bpf_insn := [BpfInsn 183 0 0 0 2; BpfInsn 149 0 0 0 0].

Definition text : full_program := a_program 1 ".text" ".text" text_code.
Definition filter_prog : full_program := a_program 3 "xdp" "xdp_filter" main_code.

Definition object_of (second : string) : full_object unit unit :=
  FullObject unit unit [text; filter_prog] [a_map "data" 0; a_map second 20] "GPL" 0 [] [] false
    false (Efile 5 (-1) 1 (-1) (-1) (-1)) None None (Caps true true false false) false.

(** The second symbol is the second map, the third is the function. *)
Definition symbols : list GElf_Sym := [Sym 0 0 0 0; Sym 1 16 5 20; Sym 0 18 1 0].
Definition relocations : rel_section :=
  RelSection SHT_REL 3 32 16 [Rel 0 (2 ^ 32 + 1); Rel 16 (2 * 2 ^ 32 + 10)].

Definition collected : option (Z + full_object unit unit) :=
  bpf_object__collect_reloc true (object_of "flows") symbols [relocations].
Definition ready (second : string) : full_object unit unit :=
  match bpf_object__collect_reloc true (object_of second) symbols [relocations] with
  | Some (inr o) => o
  | _ => object_of second
  end.

Definition calm : kern := Kern [0; 1; 2] 0 false 1.
Definition strict : kern := Kern [0; 1; 2] 0 true 0.

Definition load (second : string) (w : kern) : option (Z * option (full_object unit unit) * kern) :=
  bpf_object__load_xattr (fun _ => EmptyString) (fun _ _ => (0, 0)) (fun _ => 4) 2
    (Some (ready second)) 0 None w.

(** The result, the descriptors the object holds and those that are open. *)
Definition outcome (second : string) (w : kern) : option (Z * list Z * list Z) :=
  match load second w with
  | Some (r, Some o, w) => Some (r, held o, fds w)
  | _ => None
  end.

Example loaded_fds : outcome "flows" calm = Some (0, [3; 4; 5], [5; 4; 3; 0; 1; 2]).
Proof. vm_compute. reflexivity. Qed.

(** The second map cannot be created; the programs are refused. *)
Example failed_fds :
  outcome "full" calm = Some (-12, [], [0; 1; 2]) /\
  outcome "flows" strict = Some (- LIBBPF_ERRNO__VERIFY, [], [0; 1; 2]).
Proof. split; vm_compute; reflexivity. Qed.

(** The relocated program: the descriptor of "flows" and a call into the copy. *)
Definition patched : option (list bpf_insn) :=
  match bpf_object__relocate (ready "flows") None calm with
  | Some (inr o, _) => insns <$> fprograms o !! 1%nat
  | _ => None
  end.
Example patched_code :
  patched = Some ([BpfInsn LD_IMM_DW 1 1 0 (-1); BpfInsn 0 0 0 0 0; BpfInsn JMP_CALL 0 1 0 1;
                   BpfInsn 149 0 0 0 0] ++ text_code).
Proof. vm_compute. reflexivity. Qed.

(** ** The theorems on them *)

Definition an_attr : bpf_load_program_attr :=
  LoadProgramAttr BPF_PROG_TYPE_XDP 0 None main_code 4 "GPL" 0 0 0 0 [] 0 0 [] 0 0 0.

Lemma load_program_answers_witness :
  bpf_load_program_xattr 2 an_attr (Some EmptyString) 64 calm =
    Some (3, Some EmptyString, Kern [3; 0; 1; 2] EAGAIN false 0) /\
  answers (program_of (load_attributes an_attr (Some EmptyString) 64)) 3 calm
    (Kern [3; 0; 1; 2] EAGAIN false 0).
Proof.
  assert (bpf_load_program_xattr 2 an_attr (Some EmptyString) 64 calm =
    Some (3, Some EmptyString, Kern [3; 0; 1; 2] EAGAIN false 0)) as E by (vm_compute; reflexivity).
  split; [exact E|]. exact (load_program_answers 2 _ _ 64 calm _ _ _ E).
Defined.

Lemma load_program_ends_witness :
  exists fd b w', bpf_load_program_xattr 2 an_attr (Some EmptyString) 64 calm = Some (fd, b, w').
Proof. apply load_program_ends. cbn. lia. Defined.

(** The object after loading it with "flows". *)
Definition result (second : string) (w : kern) : Z * option (full_object unit unit) * kern :=
  default (-1, None, w) (load second w).

Lemma no_account (w : kern) : account (opened w) [] w.
Proof.
  split; [constructor|]. split; [|by intros fd ?%elem_of_nil]. apply set_eq. set_solver.
Qed.

Lemma load_no_leak_witness :
  (result "flows" strict).1.1 = - LIBBPF_ERRNO__VERIFY /\
  exists o1, (result "flows" strict).1.2 = Some o1 /\
    account (opened strict) (held o1) (result "flows" strict).2 /\
    ((result "flows" strict).1.1 <> 0 -> held o1 = []).
Proof.
  split; [vm_compute; reflexivity|].
  apply (load_no_leak (fun _ => EmptyString) (fun _ _ => (0, 0)) (fun _ => 4) 2
           (opened strict) (ready "flows") 0 None strict).
  - vm_compute. reflexivity.
  - repeat constructor.
  - repeat constructor.
  - exact (no_account strict).
  - vm_compute. reflexivity.
Defined.

Lemma load_success_witness :
  (result "flows" calm).1.1 = 0 /\
  exists o1, (result "flows" calm).1.2 = Some o1 /\ Forall created (fmaps o1) /\
    Forall (runs o1) (fprograms o1).
Proof.
  split; [vm_compute; reflexivity|].
  apply (load_success (fun _ => EmptyString) (fun _ _ => (0, 0)) (fun _ => 4) 2
           (ready "flows") 0 None calm _ (result "flows" calm).2).
  vm_compute. reflexivity.
Defined.

(** The program with its relocations, the object with its maps created, and the
    program relocated in it. *)
Definition collected_relocs : list reloc_desc := [RelocDesc RELO_LD64 0 1; RelocDesc RELO_CALL 2 0].
Definition with_maps : full_object unit unit :=
  let o := ready "flows" in
  set_fmaps o [set_fd (a_map "data" 0) 3; set_fd (a_map "flows" 20) 4].
Definition relocated_prog : full_program :=
  set_main_prog_cnt (set_insns filter_prog
    ([BpfInsn LD_IMM_DW 1 1 0 4; BpfInsn 0 0 0 0 0; BpfInsn JMP_CALL 0 1 0 1;
      BpfInsn 149 0 0 0 0] ++ text_code)) 4.

Lemma symbols_resolved_witness :
  insns relocated_prog !! O = Some (BpfInsn LD_IMM_DW 1 BPF_PSEUDO_MAP_FD 0 4) /\
  (code (BpfInsn LD_IMM_DW 1 0 0 0) <> JMP_CALL ->
     exists i m m', first_map (object_of "flows") (Sym 1 16 5 20) i m /\
     fmaps with_maps !! i = Some m' /\
     (~ is_data_symbol (object_of "flows") (Sym 1 16 5 20) ->
        insns relocated_prog !! O =
          Some (set_src_imm (BpfInsn LD_IMM_DW 1 0 0 0) BPF_PSEUDO_MAP_FD (fd_of m'))) /\
     (is_data_symbol (object_of "flows") (Sym 1 16 5 20) ->
        insns relocated_prog !! O =
          Some (set_src_imm (BpfInsn LD_IMM_DW 1 0 0 0) BPF_PSEUDO_MAP_VALUE (fd_of m')) /\
        exists next, insns filter_prog !! 1%nat = Some next /\
          insns relocated_prog !! 1%nat = Some (set_imm next 0))).
Proof.
  split; [reflexivity|].
  refine (proj2 (symbols_resolved (object_of "flows") with_maps filter_prog
    (set_relocs filter_prog (Some (Some <$> collected_relocs))) relocated_prog true relocations
    symbols 2 collected_relocs 0 (Rel 0 (2 ^ 32 + 1)) (Sym 1 16 5 20) (BpfInsn LD_IMM_DW 1 0 0 0)
    _ _ _ _ _ _ _ _ _ _ _ _)).
  - vm_compute. reflexivity.
  - vm_compute. reflexivity.
  - reflexivity.
  - vm_compute. apply (bool_decide_unpack (NoDup [0%nat; 2%nat])). vm_compute. exact I.
  - unfold inside, collected_relocs. repeat constructor; cbn; lia.
  - vm_compute. discriminate.
  - reflexivity.
  - vm_compute. reflexivity.
  - vm_compute. lia.
  - reflexivity.
  - vm_compute. reflexivity.
  - vm_compute. reflexivity.
Defined.
End LoadExamples.
