(* ===== verification/XskProg.v ===== *)
(** * The XDP program of AF_XDP sockets

    Models the program [xsk_load_xdp_prog] of [libbpf/src/xsk.c] builds with the
    macros of [include/linux/filter.h]: its instructions, an interpreter of the BPF
    instructions it uses, and the C program its comment gives.  The two helpers are
    parameters, with what kernels before and after 5.3 document of them. *)

From S2P Require Import Prelude BpfCalls BpfLoad InKernel.

Local Open Scope Z_scope.

(** ** Codes: [uapi/linux/bpf_common.h], [uapi/linux/bpf.h] *)

Definition BPF_LD : Z := 0.
Definition BPF_LDX : Z := 1.
Definition BPF_STX : Z := 3.
Definition BPF_JMP : Z := 5.
Definition BPF_JMP32 : Z := 6.
Definition BPF_ALU64 : Z := 7.
Definition BPF_W : Z := 0.
Definition BPF_DW : Z := 24.
Definition BPF_IMM : Z := 0.
Definition BPF_MEM : Z := 96.
Definition BPF_ADD : Z := 0.
Definition BPF_MOV : Z := 176.
Definition BPF_JEQ : Z := 16.
Definition BPF_JSGT : Z := 96.
Definition BPF_CALL : Z := 128.
Definition BPF_EXIT : Z := 144.
Definition BPF_K : Z := 0.
Definition BPF_X : Z := 8.
Definition BPF_OP (code : Z) : Z := Z.land code 240.
Definition BPF_SIZE (code : Z) : Z := Z.land code 24.

Definition BPF_FUNC_map_lookup_elem : Z := 1.
Definition BPF_FUNC_redirect_map : Z := 51.

(** ** Instructions: [linux/filter.h] *)

Definition BPF_ALU64_IMM (OP DST IMM : Z) : bpf_insn :=
  BpfInsn (Z.lor (Z.lor BPF_ALU64 (BPF_OP OP)) BPF_K) DST 0 0 IMM.
Definition BPF_MOV64_IMM (DST IMM : Z) : bpf_insn :=
  BpfInsn (Z.lor (Z.lor BPF_ALU64 BPF_MOV) BPF_K) DST 0 0 IMM.
Definition BPF_EXIT_INSN : bpf_insn := BpfInsn (Z.lor BPF_JMP BPF_EXIT) 0 0 0 0.
Definition BPF_EMIT_CALL (FUNC : Z) : bpf_insn := BpfInsn (Z.lor BPF_JMP BPF_CALL) 0 0 0 FUNC.
Definition BPF_LDX_MEM (SIZE DST SRC OFF : Z) : bpf_insn :=
  BpfInsn (Z.lor (Z.lor BPF_LDX (BPF_SIZE SIZE)) BPF_MEM) DST SRC OFF 0.
Definition BPF_STX_MEM (SIZE DST SRC OFF : Z) : bpf_insn :=
  BpfInsn (Z.lor (Z.lor BPF_STX (BPF_SIZE SIZE)) BPF_MEM) DST SRC OFF 0.
Definition BPF_MOV64_REG (DST SRC : Z) : bpf_insn :=
  BpfInsn (Z.lor (Z.lor BPF_ALU64 BPF_MOV) BPF_X) DST SRC 0 0.
Definition BPF_LD_IMM64_RAW_FULL (DST SRC OFF1 OFF2 IMM1 IMM2 : Z) : list bpf_insn :=
  [BpfInsn (Z.lor (Z.lor BPF_LD BPF_DW) BPF_IMM) DST SRC OFF1 IMM1; BpfInsn 0 0 0 OFF2 IMM2].
Definition BPF_LD_MAP_FD (DST MAP_FD : Z) : list bpf_insn :=
  BPF_LD_IMM64_RAW_FULL DST BPF_PSEUDO_MAP_FD 0 0 MAP_FD 0.
Definition BPF_JMP_IMM (OP DST IMM OFF : Z) : bpf_insn :=
  BpfInsn (Z.lor (Z.lor BPF_JMP (BPF_OP OP)) BPF_K) DST 0 OFF IMM.
Definition BPF_JMP32_IMM (OP DST IMM OFF : Z) : bpf_insn :=
  BpfInsn (Z.lor (Z.lor BPF_JMP32 (BPF_OP OP)) BPF_K) DST 0 OFF IMM.

(** The program: registers are numbers, 10 is the frame pointer. *)
Definition xdp_sock_insns (xsks_map_fd : Z) : list bpf_insn :=
  [BPF_LDX_MEM BPF_W 2 1 16;
   BPF_STX_MEM BPF_W 10 2 (-4)] ++
  BPF_LD_MAP_FD 1 xsks_map_fd ++
  [BPF_MOV64_IMM 3 2;
   BPF_EMIT_CALL BPF_FUNC_redirect_map;
   BPF_JMP32_IMM BPF_JSGT 0 0 13;
   BPF_MOV64_REG 2 10;
   BPF_ALU64_IMM BPF_ADD 2 (-4)] ++
  BPF_LD_MAP_FD 1 xsks_map_fd ++
  [BPF_EMIT_CALL BPF_FUNC_map_lookup_elem;
   BPF_MOV64_REG 1 0;
   BPF_MOV64_IMM 0 2;
   BPF_JMP_IMM BPF_JEQ 1 0 5;
   BPF_LDX_MEM BPF_W 2 10 (-4)] ++
  BPF_LD_MAP_FD 1 xsks_map_fd ++
  [BPF_MOV64_IMM 3 0;
   BPF_EMIT_CALL BPF_FUNC_redirect_map;
   BPF_EXIT_INSN].

(** ** The machine

    What a register holds: a 64-bit number, the context, a place in the frame, a
    map, or the address of an element of a map, which is not NULL. *)
Inductive val := Num (z : Z) | Ctx | Frame (o : Z) | Map (fd : Z) | Elem.

(** Registers, and words of the frame by their offset: [None] was never written.
    [calls] are the redirections asked for: the map, the index, the flags. *)
Record machine := Machine {
  regs : Z -> option val; stack : Z -> option Z; calls : list (Z * Z * Z);
}.

Definition write {A} (k : Z) (v : option A) (f : Z -> option A) : Z -> option A :=
  fun k' => if k' =? k then v else f k'.

Definition set_reg (r : Z) (v : val) (m : machine) : machine :=
  Machine (write r (Some v) (regs m)) (stack m) (calls m).

(** A call leaves its result, and nothing in the registers of arguments. *)
Definition returns (v : val) (m : machine) : machine :=
  Machine (write 0 (Some v) (fun r => if (1 <=? r) && (r <=? 5) then None else regs m r))
    (stack m) (calls m).

(** The signed comparison of the low halves. *)
Definition jsgt32 (z v : Z) : bool := v <? i32 z.

Inductive outcome := Next (pc : Z) (m : machine) | Done (r0 : Z) (m : machine).

Section Machine.
(** The queue of the packet; [bpf_redirect_map]; whether an element is there. *)
Context (rx_queue_index : Z) (redirect : Z -> Z -> Z -> Z) (present : Z -> Z -> bool).

Definition load_word (v : val) (o : Z) (m : machine) : option Z :=
  match v with
  | Ctx => if o =? 16 then Some rx_queue_index else None
  | Frame f => stack m (f + o)
  | _ => None
  end.

Definition call_helper (f : Z) (m : machine) : option machine :=
  if f =? BPF_FUNC_redirect_map then
    match regs m 1, regs m 2, regs m 3 with
    | Some (Map fd), Some (Num key), Some (Num flags) =>
        let m := Machine (regs m) (stack m) (calls m ++ [(fd, u32 key, flags)]) in
        Some (returns (Num (u64 (redirect fd (u32 key) flags))) m)
    | _, _, _ => None
    end
  else if f =? BPF_FUNC_map_lookup_elem then
    match regs m 1, regs m 2 with
    | Some (Map fd), Some (Frame o) =>
        key ← stack m o;
        Some (returns (if present fd key then Elem else Num 0) m)
    | _, _ => None
    end
  else None.

(** One instruction; [None] when the verifier would refuse it, or it is not one of
    those the program uses. *)
Definition exec (i : bpf_insn) (pc : Z) (m : machine) : option outcome :=
  let dst := dst_reg i in let src := src_reg i in
  let jump (taken : bool) := Some (Next (if taken then pc + 1 + off i else pc + 1) m) in
  match code i with
  | 97 (* LDX | W | MEM *) =>
      v ← regs m src; z ← load_word v (off i) m; Some (Next (pc + 1) (set_reg dst (Num z) m))
  | 99 (* STX | W | MEM *) =>
      match regs m dst, regs m src with
      | Some (Frame f), Some (Num z) =>
          Some (Next (pc + 1) (Machine (regs m) (write (f + off i) (Some (u32 z)) (stack m)) (calls m)))
      | _, _ => None
      end
  | 24 (* LD | DW | IMM *) =>
      if src =? BPF_PSEUDO_MAP_FD then Some (Next (pc + 2) (set_reg dst (Map (imm i)) m)) else None
  | 183 (* ALU64 | MOV | K *) => Some (Next (pc + 1) (set_reg dst (Num (u64 (imm i))) m))
  | 191 (* ALU64 | MOV | X *) => v ← regs m src; Some (Next (pc + 1) (set_reg dst v m))
  | 7 (* ALU64 | ADD | K *) =>
      match regs m dst with
      | Some (Num z) => Some (Next (pc + 1) (set_reg dst (Num (u64 (z + imm i))) m))
      | Some (Frame f) => Some (Next (pc + 1) (set_reg dst (Frame (f + imm i)) m))
      | _ => None
      end
  | 102 (* JMP32 | JSGT | K *) =>
      match regs m dst with Some (Num z) => jump (jsgt32 z (imm i)) | _ => None end
  | 21 (* JMP | JEQ | K *) =>
      match regs m dst with
      | Some (Num z) => jump (z =? u64 (imm i))
      | Some Elem => if imm i =? 0 then jump false else None
      | _ => None
      end
  | 133 (* JMP | CALL *) => m ← call_helper (imm i) m; Some (Next (pc + 1) m)
  | 149 (* JMP | EXIT *) =>
      match regs m 0 with Some (Num z) => Some (Done z m) | _ => None end
  | _ => None
  end.

Definition fetch (prog : list bpf_insn) (pc : Z) : option bpf_insn :=
  if pc <? 0 then None else prog !! Z.to_nat pc.

(** The fuel bounds the instructions run. *)
Fixpoint run (fuel : nat) (prog : list bpf_insn) (pc : Z) (m : machine) : option (Z * list (Z * Z * Z)) :=
  match fuel with
  | O => None
  | S fuel =>
      i ← fetch prog pc;
      r ← exec i pc m;
      match r with
      | Next pc m => run fuel prog pc m
      | Done r0 m => Some (u32 r0, calls m)
      end
  end.

Definition start : machine := Machine (write 1 (Some Ctx) (write 10 (Some (Frame 0)) (fun _ => None))) (fun _ => None) [].

(** The verdict of a program on a packet, and the redirections it asked for. *)
Definition run_xdp (fuel : nat) (prog : list bpf_insn) : option (Z * list (Z * Z * Z)) :=
  run fuel prog 0 start.

(** ** The C program of the comment *)

Definition xdp_sock_prog (xsks_map : Z) : Z * list (Z * Z * Z) :=
  let index := rx_queue_index in
  let r1 := redirect xsks_map index XDP_PASS in
  let ret := i32 r1 in
  if 0 <? ret then (u32 r1, [(xsks_map, index, XDP_PASS)]) else
  if present xsks_map index
  then (u32 (redirect xsks_map index 0), [(xsks_map, index, XDP_PASS); (xsks_map, index, 0)])
  else (XDP_PASS, [(xsks_map, index, XDP_PASS)]).
End Machine.

(** ** What the kernel documents of the helpers

    Since 5.3 the low bits of the flags are the answer when nothing is there; before,
    flags are an error. *)
Record redirect_ok (has_default : bool) (redirect : Z -> Z -> Z -> Z) (present : Z -> Z -> bool) := {
  redirect_hit : forall fd i, present fd i = true -> redirect fd i 0 = XDP_REDIRECT;
  redirect_default : has_default = true -> forall fd i fl, 0 <= fl < 4 ->
    redirect fd i fl = if present fd i then XDP_REDIRECT else fl;
  redirect_flags : has_default = false -> forall fd i fl, fl <> 0 -> redirect fd i fl = XDP_ABORTED;
}.

Section Program.
Context (q : Z) (redirect : Z -> Z -> Z -> Z) (present : Z -> Z -> bool) (fd : Z).

Lemma u32_u64 z : u32 (u64 z) = u32 z.
Proof. unfold u32, u64. apply Z.mod_mod_divide. by exists (2 ^ 32). Qed.

(** The instructions compute what the C program says. *)
Lemma run_xdp_prog :
  0 <= q < 2 ^ 32 ->
  run_xdp q redirect present 21 (xdp_sock_insns fd) = Some (xdp_sock_prog q redirect present fd).
Proof.
  intros Hq. unfold run_xdp. lazy -[u32 i32 u64 jsgt32 xdp_sock_prog].
  rewrite !(u32_id q) by done. change (u64 2) with 2. change (u64 0) with 0.
  unfold xdp_sock_prog. change XDP_PASS with 2.
  assert (jsgt32 (u64 (redirect fd q 2)) 0 = (0 <? i32 (redirect fd q 2))) as ->.
  { unfold jsgt32. by rewrite i32_u64. }
  destruct (0 <? i32 (redirect fd q 2)).
  - lazy -[u32 i32 u64]. by rewrite u32_u64.
  - destruct (present fd q).
    + lazy -[u32 i32 u64]. rewrite !(u32_id q), u32_u64 by done. done.
    + by lazy.
Qed.

(** C27. On a packet of queue [q] the program asks for a redirection to the socket of
    that queue when the map has one, and passes the packet on otherwise, on kernels
    before and after 5.3. *)
Theorem xdp_sock_delivers has_default :
  0 <= q < 2 ^ 32 -> redirect_ok has_default redirect present ->
  exists asked, run_xdp q redirect present 21 (xdp_sock_insns fd) =
    Some (if present fd q then XDP_REDIRECT else XDP_PASS, asked) /\
    Forall (fun c => fst c = (fd, q)) asked /\ asked <> [].
Proof.
  intros Hq [Hhit Hnew Hold]. rewrite run_xdp_prog by done. unfold xdp_sock_prog.
  destruct has_default.
  - rewrite Hnew by done. destruct (present fd q);
      (eexists; split; [reflexivity|]; split; [by repeat constructor|done]).
  - rewrite Hold by done. destruct (present fd q) eqn:Ep; [rewrite Hhit by done|];
      (eexists; split; [reflexivity|]; split; [by repeat constructor|done]).
Qed.

(** A negative 32-bit answer falls through to the lookup, although the comment on the
    jump says it is taken on any answer but 0. *)
Lemma negative_falls_through e :
  0 <= q < 2 ^ 32 -> - 2 ^ 31 <= e < 0 -> redirect fd q XDP_PASS = e -> present fd q = false ->
  run_xdp q redirect present 21 (xdp_sock_insns fd) = Some (XDP_PASS, [(fd, q, XDP_PASS)]).
Proof.
  intros Hq He Hr Hp. rewrite run_xdp_prog by done. unfold xdp_sock_prog.
  rewrite Hr, Hp, i32_id by lia. by rewrite (proj2 (Z.ltb_ge 0 e)) by lia.
Qed.
End Program.

Module XskProgExamples.
(** A map with a socket for queue 3, on a kernel with defaults and one without. *)
Definition bound (fd i : Z) : bool := (fd =? 7) && (i =? 3).
Definition redirect_53 (fd i fl : Z) : Z := if bound fd i then XDP_REDIRECT else Z.land fl 3.
Definition redirect_52 (fd i fl : Z) : Z := if fl =? 0 then XDP_REDIRECT else XDP_ABORTED.

Lemma redirect_53_ok : redirect_ok true redirect_53 bound.
Proof.
  split; [|intros _ fd i fl Hfl|done]; unfold redirect_53.
  - by intros fd i ->.
  - destruct (bound fd i); [done|]. change 3 with (Z.ones 2). rewrite Z.land_ones by lia.
    apply Z.mod_small. lia.
Qed.

Lemma redirect_52_ok : redirect_ok false redirect_52 bound.
Proof.
  split; [done|done|]. intros _ fd i fl Hfl. unfold redirect_52. by rewrite (proj2 (Z.eqb_neq _ _) Hfl).
Qed.

Example verdicts : run_xdp 3 redirect_52 bound 21 (xdp_sock_insns 7) =
    Some (XDP_REDIRECT, [(7, 3, XDP_PASS); (7, 3, 0)]) /\
  run_xdp 4 redirect_52 bound 21 (xdp_sock_insns 7) = Some (XDP_PASS, [(7, 4, XDP_PASS)]) /\
  run_xdp 3 redirect_53 bound 21 (xdp_sock_insns 7) = Some (XDP_REDIRECT, [(7, 3, XDP_PASS)]).
Proof. vm_compute. done. Qed.

Lemma xdp_sock_delivers_witness :
  exists asked, run_xdp 3 redirect_52 bound 21 (xdp_sock_insns 7) =
    Some (XDP_REDIRECT, asked) /\ Forall (fun c => fst c = (7, 3)) asked /\ asked <> [].
Proof.
  apply (xdp_sock_delivers 3 redirect_52 bound 7 false); [lia|exact redirect_52_ok].
Defined.
End XskProgExamples.
