(* ===== verification/XskSocket.v ===== *)
(** * AF_XDP sockets

    Models [libbpf/src/xsk.c]: user memory areas and sockets, with their rings, maps
    and XDP program.  The [struct]s behind pointers live in [heap], a pointer is its
    address with 0 for NULL; reading where there is none is undefined ([None]).  The
    rings belong to the caller.  Descriptors and mappings are the world's. *)

From S2P Require Import Prelude BpfMap BpfCalls BpfObject XdpLink Packet XskRing BpfLoad XskProg.
From Stdlib Require Import Ascii String.

Local Open Scope Z_scope.

#[local] Abbreviation bytes := (list Z).

(** ** Constants: [xsk.h], [uapi/linux/if_xdp.h] *)

Definition EFAULT : Z := 14.
Definition ENOMEM : Z := 12.
Definition IFNAMSIZ : nat := 16.
Definition XSK_RING_CONS__DEFAULT_NUM_DESCS : Z := 2048.
Definition XSK_RING_PROD__DEFAULT_NUM_DESCS : Z := 2048.
Definition XSK_UMEM__DEFAULT_FRAME_SHIFT : Z := 12.
Definition XSK_UMEM__DEFAULT_FRAME_SIZE : Z := Z.shiftl 1 XSK_UMEM__DEFAULT_FRAME_SHIFT.
Definition XSK_UMEM__DEFAULT_FRAME_HEADROOM : Z := 0.
Definition XSK_UMEM__DEFAULT_FLAGS : Z := 0.
Definition XSK_LIBBPF_FLAGS__INHIBIT_PROG_LOAD : Z := Z.shiftl 1 0.
Definition XDP_SHARED_UMEM : Z := 1.
Definition XDP_PGOFF_RX_RING : Z := 0.
Definition XDP_PGOFF_TX_RING : Z := 2 ^ 31.
Definition XDP_UMEM_PGOFF_FILL_RING : Z := 2 ^ 32.
Definition XDP_UMEM_PGOFF_COMPLETION_RING : Z := 2 ^ 32 + 2 ^ 31.
Definition PF_XDP : Z := 44.
Definition BPF_MAP_TYPE_XSKMAP : Z := 17.
Definition BPF_PROG_TYPE_XDP : Z := 6.
Definition sizeof_u64 : Z := 8.
Definition sizeof_xdp_desc : Z := 16.
Definition MAP_FAILED : Z := -1.

(** ** Data *)

(** [struct xdp_ring_offset], [struct xdp_mmap_offsets]. *)
Record ring_offset := RingOffset { o_producer : Z; o_consumer : Z; o_desc : Z; o_flags : Z }.
Record mmap_offsets := MmapOffsets {
  of_rx : ring_offset; of_tx : ring_offset; of_fr : ring_offset; of_cr : ring_offset;
}.

(** [struct xdp_umem_reg]. *)
Record umem_reg := UmemReg {
  mr_addr : Z; mr_len : Z; mr_chunk_size : Z; mr_headroom : Z; mr_flags : Z;
}.

(** [struct sockaddr_xdp]. *)
Record sockaddr_xdp := SockaddrXdp {
  sxdp_family : Z; sxdp_flags : Z; sxdp_ifindex : Z; sxdp_queue_id : Z; sxdp_shared_umem_fd : Z;
}.

(** The options set with [setsockopt]: their values. *)
Inductive xdp_option :=
  | XDP_UMEM_REG (mr : umem_reg) | XDP_UMEM_FILL_RING (n : Z) | XDP_UMEM_COMPLETION_RING (n : Z)
  | XDP_RX_RING (n : Z) | XDP_TX_RING (n : Z).

(** [struct xsk_ring_prod] and [struct xsk_ring_cons]: the indices and the pointers. *)
Record xring := XRing {
  r_idx : ring; r_producer : Z; r_consumer : Z; r_slots : Z; r_flags : Z;
}.

(** [struct xsk_umem_config], [struct xsk_socket_config]. *)
Record umem_config := UmemConfig {
  fill_size : Z; comp_size : Z; frame_size : Z; frame_headroom : Z; um_flags : Z;
}.
Record socket_config := SocketConfig {
  rx_size : Z; tx_size : Z; libbpf_flags : Z; sc_xdp_flags : Z; bind_flags : Z;
}.

(** [struct xsk_umem]: [u_fill] and [u_comp] point to rings. *)
Record xsk_umem := Umem {
  u_fill : Z; u_comp : Z; umem_area : Z; u_config : umem_config; u_fd : Z; refcount : Z;
}.

(** [struct xsk_socket]; [x_umem] points to a [xsk_umem], [x_rx] and [x_tx] to rings. *)
Record xsk_socket := Xsk {
  x_rx : Z; x_tx : Z; outstanding_tx : Z; x_umem : Z; x_config : socket_config; x_fd : Z;
  x_ifindex : Z; x_prog_fd : Z; xsks_map_fd : Z; x_queue_id : Z; x_ifname : bytes;
}.

Record heap := Heap {
  rings : gmap Z xring; umems : gmap Z xsk_umem; socks : gmap Z xsk_socket;
}.

(** ** The system *)

Class XskSys (W : Type) := {
  (** [calloc], [free]; 0 is NULL. *)
  sys_calloc : W -> Z * W;
  sys_free : Z -> W -> W;
  getpagesize : Z;
  (** [socket(AF_XDP, SOCK_RAW, 0)] and [socket(AF_INET, SOCK_DGRAM, 0)]. *)
  sys_socket_xdp : W -> Z * W;
  sys_socket_inet : W -> Z * W;
  sys_setsockopt_xdp : Z -> xdp_option -> W -> Z * W;
  (** [getsockopt(fd, SOL_XDP, XDP_MMAP_OFFSETS)] of at most 128 bytes: the result, the
      length and the 64-bit words written. *)
  sys_mmap_offsets : Z -> W -> Z * Z * list Z * W;
  (** [mmap] of so many bytes at an offset of a descriptor. *)
  sys_mmap : Z -> Z -> Z -> W -> Z * W;
  sys_munmap : Z -> Z -> W -> W;
  sys_bind_xdp : Z -> sockaddr_xdp -> W -> Z * W;
  (** Of the bytes of a name, which end at the first 0. *)
  if_nametoindex : bytes -> W -> Z * W;
  (** [SIOCETHTOOL] with ETHTOOL_GCHANNELS: the result and [max_combined]. *)
  sys_ethtool_channels : Z -> bytes -> W -> Z * Z * W;
  (** [bpf_obj_get_info_by_fd] of a program with room for so many map identifiers: the
      result, [nr_map_ids] and the identifiers written. *)
  sys_prog_map_ids : Z -> Z -> W -> Z * Z * list Z * W;
}.

Definition set_refcount (n : Z) (u : xsk_umem) : xsk_umem :=
  Umem (u_fill u) (u_comp u) (umem_area u) (u_config u) (u_fd u) n.
Definition set_rings (rs : gmap Z xring) (h : heap) : heap := Heap rs (umems h) (socks h).
Definition set_umem (p : Z) (u : xsk_umem) (h : heap) : heap :=
  Heap (rings h) (<[p := u]> (umems h)) (socks h).
Definition set_sock (p : Z) (x : xsk_socket) (h : heap) : heap :=
  Heap (rings h) (umems h) (<[p := x]> (socks h)).

Definition set_xsks_map_fd (v : Z) (x : xsk_socket) : xsk_socket :=
  Xsk (x_rx x) (x_tx x) (outstanding_tx x) (x_umem x) (x_config x) (x_fd x) (x_ifindex x)
    (x_prog_fd x) v (x_queue_id x) (x_ifname x).
Definition set_prog_fd (v : Z) (x : xsk_socket) : xsk_socket :=
  Xsk (x_rx x) (x_tx x) (outstanding_tx x) (x_umem x) (x_config x) (x_fd x) (x_ifindex x)
    v (xsks_map_fd x) (x_queue_id x) (x_ifname x).

(** ** Accessors and configurations *)

Definition xsk_umem__fd (h : heap) (umem : Z) : option Z :=
  if umem =? 0 then Some (- EINVAL) else u_fd <$> umems h !! umem.
Definition xsk_socket__fd (h : heap) (xsk : Z) : option Z :=
  if xsk =? 0 then Some (- EINVAL) else x_fd <$> socks h !! xsk.

Definition xsk_set_umem_config (usr_cfg : option umem_config) : umem_config :=
  match usr_cfg with
  | None => UmemConfig XSK_RING_PROD__DEFAULT_NUM_DESCS XSK_RING_CONS__DEFAULT_NUM_DESCS
              XSK_UMEM__DEFAULT_FRAME_SIZE XSK_UMEM__DEFAULT_FRAME_HEADROOM XSK_UMEM__DEFAULT_FLAGS
  | Some c => UmemConfig (fill_size c) (comp_size c) (frame_size c) (frame_headroom c) (um_flags c)
  end.

Definition xsk_set_xdp_socket_config (usr_cfg : option socket_config) : Z + socket_config :=
  match usr_cfg with
  | None => inr (SocketConfig XSK_RING_CONS__DEFAULT_NUM_DESCS XSK_RING_PROD__DEFAULT_NUM_DESCS 0 0 0)
  | Some c =>
      if negb (Z.land (libbpf_flags c) (Z.lnot XSK_LIBBPF_FLAGS__INHIBIT_PROG_LOAD) =? 0)
      then inl (- EINVAL)
      else inr (SocketConfig (rx_size c) (tx_size c) (libbpf_flags c) (sc_xdp_flags c) (bind_flags c))
  end.

(** The sixteen words of [struct xdp_mmap_offsets]. *)
Definition read_offsets (ws : list Z) : option mmap_offsets :=
  match ws with
  | [rp; rc; rd; rf; tp; tc; td; tf; fp; fc; fd; ff; cp; cc; cd; cf] =>
      Some (MmapOffsets (RingOffset rp rc rd rf) (RingOffset tp tc td tf)
              (RingOffset fp fc fd ff) (RingOffset cp cc cd cf))
  | _ => None
  end.

(** The twelve of [struct xdp_mmap_offsets_v1]: the flags follow the consumer. *)
Definition xsk_mmap_offsets_v1 (ws : list Z) : option mmap_offsets :=
  match ws with
  | [rp; rc; rd; tp; tc; td; fp; fc; fd; cp; cc; cd] =>
      Some (MmapOffsets (RingOffset rp rc rd (u64 (rc + 4))) (RingOffset tp tc td (u64 (tc + 4)))
              (RingOffset fp fc fd (u64 (fc + 4))) (RingOffset cp cc cd (u64 (cc + 4))))
  | _ => None
  end.

Section Sockets.
Context {W : Type} `{BpfSys W} `{BpfKern W} `{LinkSys W} `{XskSys W} `{HostOrder}.
(** How often loading the program may be asked to try again. *)
Context (agains : nat).

Definition xsk_page_aligned (buffer : Z) : bool := Z.land buffer (getpagesize - 1) =? 0.

Definition sizeof_mmap_offsets : Z := 128.
Definition sizeof_mmap_offsets_v1 : Z := 96.

(** The error or the offsets; [None] when the kernel wrote less than it says. *)
Definition xsk_get_mmap_offsets (fd : Z) (w : W) : option ((Z + mmap_offsets) * W) :=
  let '(err, optlen, ws, w) := sys_mmap_offsets fd w in
  if negb (err =? 0) then Some (inl err, w) else
  if optlen =? sizeof_mmap_offsets then off ← read_offsets ws; Some (inr off, w) else
  if optlen =? sizeof_mmap_offsets_v1 then off ← xsk_mmap_offsets_v1 ws; Some (inr off, w) else
  Some (inl (- EINVAL), w).

(** ** User memory *)

(** The bytes of a ring: [off.desc + n * size]. *)
Definition ring_bytes (o : ring_offset) (n entry_size : Z) : Z := u64 (o_desc o + n * entry_size).

(** A ring mapped at [map]; a producer starts with all its entries free. *)
Definition map_ring (o : ring_offset) (n map : Z) (producer : bool) (r : xring) : xring :=
  XRing (Ring (cached_prod (r_idx r)) (if producer then n else cached_cons (r_idx r)) (u32 (n - 1)) n)
    (map + o_producer o) (map + o_consumer o) (map + o_desc o) (map + o_flags o).

Definition store_ring (p : Z) (f : xring -> xring) (h : heap) : option heap :=
  r ← rings h !! p; Some (set_rings (<[p := f r]> (rings h)) h).

(** [out_socket] and [out_umem_alloc]: the result, [*umem_ptr], the heap, the world. *)
Definition umem_fails (err umem fd : Z) (h : heap) (w : W) : option (Z * option Z * heap * W) :=
  let '(_, w) := sys_close fd w in Some (err, None, h, sys_free umem w).

Definition xsk_umem__create_v0_0_4 (umem_ptr umem_area size fill comp : Z)
    (usr_config : option umem_config) (h : heap) (w : W) : option (Z * option Z * heap * W) :=
  if (umem_area =? 0) || (umem_ptr =? 0) || (fill =? 0) || (comp =? 0)
  then Some (- EFAULT, None, h, w) else
  if (size =? 0) && negb (xsk_page_aligned umem_area) then Some (- EINVAL, None, h, w) else
  let '(umem, w) := sys_calloc w in
  if umem =? 0 then Some (- ENOMEM, None, h, w) else
  let '(fd, w) := sys_socket_xdp w in
  if fd <? 0 then Some (- errno w, None, h, sys_free umem w) else
  let config := xsk_set_umem_config usr_config in
  let mr := UmemReg umem_area size (frame_size config) (frame_headroom config) (um_flags config) in
  let '(err, w) := sys_setsockopt_xdp fd (XDP_UMEM_REG mr) w in
  if negb (err =? 0) then umem_fails (- errno w) umem fd h w else
  let '(err, w) := sys_setsockopt_xdp fd (XDP_UMEM_FILL_RING (fill_size config)) w in
  if negb (err =? 0) then umem_fails (- errno w) umem fd h w else
  let '(err, w) := sys_setsockopt_xdp fd (XDP_UMEM_COMPLETION_RING (comp_size config)) w in
  if negb (err =? 0) then umem_fails (- errno w) umem fd h w else
  '(off, w) ← xsk_get_mmap_offsets fd w;
  match off with
  | inl err => umem_fails (- errno w) umem fd h w
  | inr off =>
      let fill_len := ring_bytes (of_fr off) (fill_size config) sizeof_u64 in
      let '(map, w) := sys_mmap fill_len fd XDP_UMEM_PGOFF_FILL_RING w in
      if map =? MAP_FAILED then umem_fails (- errno w) umem fd h w else
      h ← store_ring fill (map_ring (of_fr off) (fill_size config) map true) h;
      let '(map, w) := sys_mmap (ring_bytes (of_cr off) (comp_size config) sizeof_u64) fd
                         XDP_UMEM_PGOFF_COMPLETION_RING w in
      if map =? MAP_FAILED then
        let err := - errno w in
        let w := sys_munmap map fill_len w in
        umem_fails err umem fd h w else
      h ← store_ring comp (map_ring (of_cr off) (comp_size config) map false) h;
      Some (0, Some umem, set_umem umem (Umem fill comp umem_area config fd 0) h, w)
  end.

(** [memcpy] of the configuration of the first version, which may not be NULL. *)
Definition xsk_umem__create_v0_0_2 (umem_ptr umem_area size fill comp : Z)
    (usr_config : option umem_config) (h : heap) (w : W) : option (Z * option Z * heap * W) :=
  c ← usr_config;
  let config := UmemConfig (fill_size c) (comp_size c) (frame_size c) (frame_headroom c) 0 in
  xsk_umem__create_v0_0_4 umem_ptr umem_area size fill comp (Some config) h w.

Definition xsk_umem__delete (umem : Z) (h : heap) (w : W) : option (Z * heap * W) :=
  if umem =? 0 then Some (0, h, w) else
  u ← umems h !! umem;
  if negb (refcount u =? 0) then Some (- EBUSY, h, w) else
  '(off, w) ← xsk_get_mmap_offsets (u_fd u) w;
  w ← match off with
      | inl _ => Some w
      | inr off =>
          fill ← rings h !! u_fill u;
          let w := sys_munmap (r_slots fill - o_desc (of_fr off))
                     (ring_bytes (of_fr off) (fill_size (u_config u)) sizeof_u64) w in
          comp ← rings h !! u_comp u;
          Some (sys_munmap (r_slots comp - o_desc (of_cr off))
                  (ring_bytes (of_cr off) (comp_size (u_config u)) sizeof_u64) w)
      end;
  let '(_, w) := sys_close (u_fd u) w in
  Some (0, Heap (rings h) (delete umem (umems h)) (socks h), sys_free umem w).

(** ** The XDP program of a socket *)

(** The error, the socket, the world. *)
Definition xsk_load_xdp_prog (x : xsk_socket) (w : W) : option (Z * xsk_socket * W) :=
  let prog := xdp_sock_insns (xsks_map_fd x) in
  '(prog_fd, _, w) ← bpf_load_program agains BPF_PROG_TYPE_XDP prog (Z.of_nat (List.length prog))
                       "LGPL-2.1 or BSD-2-Clause" 0 (Some EmptyString) (16 * 1024) w;
  if prog_fd <? 0 then Some (prog_fd, x, w) else
  let '(err, w) := bpf_set_link_xdp_fd (x_ifindex x) prog_fd (sc_xdp_flags (x_config x)) w in
  if negb (err =? 0) then let '(_, w) := sys_close prog_fd w in Some (err, x, w) else
  Some (0, set_prog_fd prog_fd x, w).

Definition xsk_get_max_queues (x : xsk_socket) (w : W) : Z * W :=
  let '(fd, w) := sys_socket_inet w in
  if fd <? 0 then (- errno w, w) else
  let '(err, max_combined, w) :=
    sys_ethtool_channels fd (take (IFNAMSIZ - 1) (x_ifname x) ++ [0]) w in
  let ret :=
    if negb (err =? 0) && negb (errno w =? EOPNOTSUPP) then - errno w
    else if negb (err =? 0) || (max_combined =? 0) then 1
    else i32 max_combined in
  let '(_, w) := sys_close fd w in (ret, w).

Definition xsk_create_bpf_maps (x : xsk_socket) (w : W) : Z * xsk_socket * W :=
  let '(max_queues, w) := xsk_get_max_queues x w in
  if max_queues <? 0 then (max_queues, x, w) else
  let '(fd, w) := bpf_create_map_name BPF_MAP_TYPE_XSKMAP (Some "xsks_map"%string) 4 4 max_queues 0 w in
  if fd <? 0 then (fd, x, w) else (0, set_xsks_map_fd fd x, w).

Definition xsk_delete_bpf_maps (x : xsk_socket) (w : W) : W :=
  let '(_, w) := bpf_map_delete_elem (xsks_map_fd x) (store 4 (x_queue_id x)) w in
  let '(_, w) := sys_close (xsks_map_fd x) w in w.

(** The loop over the maps of the program: the descriptor of the last one of the name. *)
Fixpoint find_xsks_map (ids : list Z) (found : Z) (w : W) : Z * W :=
  match ids with
  | [] => (found, w)
  | id :: ids =>
      let '(fd, w) := bpf_map_get_fd_by_id id w in
      if fd <? 0 then find_xsks_map ids found w else
      match obj_info fd w with
      | inl _ => let '(_, w) := sys_close fd w in find_xsks_map ids found w
      | inr info =>
          if String.eqb (info_name info) "xsks_map" then find_xsks_map ids fd w
          else let '(_, w) := sys_close fd w in find_xsks_map ids found w
      end
  end.

(** [None] when the kernel reports more maps than there is room for. *)
Definition xsk_lookup_bpf_maps (x : xsk_socket) (w : W) : option (Z * xsk_socket * W) :=
  let '(err, num_maps, _, w) := sys_prog_map_ids (x_prog_fd x) 0 w in
  if negb (err =? 0) then Some (err, x, w) else
  let '(map_ids, w) := sys_calloc w in
  if map_ids =? 0 then Some (- ENOMEM, x, w) else
  let '(err, nr_map_ids, ids, w) := sys_prog_map_ids (x_prog_fd x) num_maps w in
  if negb (err =? 0) then Some (err, x, sys_free map_ids w) else
  if num_maps <? nr_map_ids then None else
  let ids := take (Z.to_nat nr_map_ids) (ids ++ replicate (Z.to_nat num_maps - List.length ids) 0) in
  let '(fd, w) := find_xsks_map ids (-1) w in
  Some (if fd =? -1 then - ENOENT else 0, set_xsks_map_fd fd x, sys_free map_ids w).

Definition xsk_set_bpf_maps (x : xsk_socket) (w : W) : Z * W :=
  bpf_map_update_elem (xsks_map_fd x) (store 4 (x_queue_id x)) (store 4 (x_fd x)) 0 w.

(** The branches of [xsk_setup_xdp_prog]: no program on the interface, or one; with
    the error it returns at once, if any. *)
Definition xsk_own_prog (x : xsk_socket) (w : W) : option (option Z * xsk_socket * W) :=
  let '(err, x, w) := xsk_create_bpf_maps x w in
  if negb (err =? 0) then Some (Some err, x, w) else
  '(err, x, w) ← xsk_load_xdp_prog x w;
  if negb (err =? 0) then Some (Some err, x, xsk_delete_bpf_maps x w) else Some (None, x, w).

Definition xsk_found_prog (prog_id : Z) (x : xsk_socket) (w : W) : option (option Z * xsk_socket * W) :=
  let '(prog_fd, w) := bpf_prog_get_fd_by_id prog_id w in
  let x := set_prog_fd prog_fd x in
  if prog_fd <? 0 then Some (Some (- errno w), x, w) else
  '(err, x, w) ← xsk_lookup_bpf_maps x w;
  if negb (err =? 0) then let '(_, w) := sys_close (x_prog_fd x) w in Some (Some err, x, w) else
  Some (None, x, w).

Definition xsk_setup_xdp_prog (x : xsk_socket) (w : W) : option (Z * xsk_socket * W) :=
  let '(err, prog_id) := bpf_get_link_xdp_id (x_ifindex x) (sc_xdp_flags (x_config x)) w in
  if negb (err =? 0) then Some (err, x, w) else
  '(ret, x, w) ← (if prog_id =? 0 then xsk_own_prog x w else xsk_found_prog prog_id x w);
  match ret with
  | Some err => Some (err, x, w)
  | None =>
      let '(err, w) := if x_rx x =? 0 then (0, w) else xsk_set_bpf_maps x w in
      if negb (err =? 0) then
        let w := xsk_delete_bpf_maps x w in
        let '(_, w) := sys_close (x_prog_fd x) w in Some (err, x, w)
      else Some (0, x, w)
  end.

(** ** Sockets *)

Definition put_refcount (umem n : Z) (h : heap) : option heap :=
  u ← umems h !! umem; Some (set_umem umem (set_refcount n u) h).

(** [out_socket] and [out_xsk_alloc]. *)
Definition socket_fails (err umem xsk fd : Z) (h : heap) (w : W) : option (Z * option Z * heap * W) :=
  u ← umems h !! umem;
  n ← sub32 (refcount u) 1;
  h ← put_refcount umem n h;
  let w := if n =? 0 then w else snd (sys_close fd w) in
  Some (err, None, h, sys_free xsk w).

(** [if (p) setsockopt(...)]. *)
Definition set_ring_size (p fd : Z) (opt : xdp_option) (w : W) : Z * W :=
  if p =? 0 then (0, w) else sys_setsockopt_xdp fd opt w.

(** [if (p) mmap(...)] with the fields of the ring: the mapping, NULL when there is
    no ring. *)
Definition map_socket_ring (p fd : Z) (o : ring_offset) (n pgoff : Z) (producer : bool) (h : heap) (w : W)
    : option (Z * heap * W) :=
  if p =? 0 then Some (0, h, w) else
  let '(map, w) := sys_mmap (ring_bytes o n sizeof_xdp_desc) fd pgoff w in
  if map =? MAP_FAILED then Some (map, h, w) else
  h ← store_ring p (map_ring o n map producer) h;
  Some (map, h, w).

Definition unmap_socket_ring (p map : Z) (o : ring_offset) (n : Z) (w : W) : W :=
  if p =? 0 then w else sys_munmap map (ring_bytes o n sizeof_xdp_desc) w.

(** The address the socket is bound to. *)
Definition bind_address (x : xsk_socket) (u : xsk_umem) : sockaddr_xdp :=
  if 1 <? refcount u
  then SockaddrXdp PF_XDP XDP_SHARED_UMEM (x_ifindex x) (x_queue_id x) (u_fd u)
  else SockaddrXdp PF_XDP (bind_flags (x_config x)) (x_ifindex x) (x_queue_id x) 0.

Definition inhibits (c : socket_config) : bool :=
  negb (Z.land (libbpf_flags c) XSK_LIBBPF_FLAGS__INHIBIT_PROG_LOAD =? 0).

(** From [bind] on: the error it fails with, if any. *)
Definition xsk_bind_socket (x : xsk_socket) (h : heap) (w : W) : option (option Z * xsk_socket * W) :=
  u ← umems h !! x_umem x;
  let '(err, w) := sys_bind_xdp (x_fd x) (bind_address x u) w in
  if negb (err =? 0) then Some (Some (- errno w), x, w) else
  let x := set_prog_fd (-1) x in
  if inhibits (x_config x) then Some (None, x, w) else
  '(err, x, w) ← xsk_setup_xdp_prog x w;
  Some (if err =? 0 then None else Some err, x, w).

(** From the sizes of the rings on, with a socket that has its descriptor and name. *)
Definition xsk_socket_rings (xsk : Z) (x : xsk_socket) (h : heap) (w : W)
    : option (Z * option Z * heap * W) :=
  let c := x_config x in let fd := x_fd x in let rx := x_rx x in let tx := x_tx x in
  let umem := x_umem x in
  let '(err, w) := set_ring_size rx fd (XDP_RX_RING (rx_size c)) w in
  if negb (err =? 0) then socket_fails (- errno w) umem xsk fd h w else
  let '(err, w) := set_ring_size tx fd (XDP_TX_RING (tx_size c)) w in
  if negb (err =? 0) then socket_fails (- errno w) umem xsk fd h w else
  '(off, w) ← xsk_get_mmap_offsets fd w;
  match off with
  | inl _ => socket_fails (- errno w) umem xsk fd h w
  | inr off =>
      '(rx_map, h, w) ← map_socket_ring rx fd (of_rx off) (rx_size c) XDP_PGOFF_RX_RING false h w;
      if rx_map =? MAP_FAILED then socket_fails (- errno w) umem xsk fd h w else
      '(tx_map, h, w) ← map_socket_ring tx fd (of_tx off) (tx_size c) XDP_PGOFF_TX_RING true h w;
      if tx_map =? MAP_FAILED then
        let err := - errno w in
        socket_fails err umem xsk fd h (unmap_socket_ring rx rx_map (of_rx off) (rx_size c) w) else
      '(failed, x, w) ← xsk_bind_socket x h w;
      match failed with
      | Some err =>
          let w := unmap_socket_ring tx tx_map (of_tx off) (tx_size c) w in
          socket_fails err umem xsk fd h (unmap_socket_ring rx rx_map (of_rx off) (rx_size c) w)
      | None => Some (0, Some xsk, set_sock xsk x h, w)
      end
  end.

(** [ifname] is the memory from the pointer on: 15 bytes of it are copied. *)
Definition xsk_socket__create (xsk_ptr : Z) (ifname : bytes) (queue_id umem rx tx : Z)
    (usr_config : option socket_config) (h : heap) (w : W) : option (Z * option Z * heap * W) :=
  if (umem =? 0) || (xsk_ptr =? 0) || ((rx =? 0) && (tx =? 0))
  then Some (- EFAULT, None, h, w) else
  let '(xsk, w) := sys_calloc w in
  if xsk =? 0 then Some (- ENOMEM, None, h, w) else
  match xsk_set_xdp_socket_config usr_config with
  | inl err => Some (err, None, h, sys_free xsk w)
  | inr config =>
      u ← umems h !! umem;
      if negb (refcount u =? 0) && negb (inhibits config)
      then Some (- EBUSY, None, h, sys_free xsk w) else
      n ← add32 (refcount u) 1;
      h ← put_refcount umem n h;
      let '(fd, w) := if 0 <? refcount u then sys_socket_xdp w else (u_fd u, w) in
      if (0 <? refcount u) && (fd <? 0) then Some (- errno w, None, h, sys_free xsk w) else
      let '(ifindex, w) := if_nametoindex ifname w in
      if ifindex =? 0 then socket_fails (- errno w) umem xsk fd h w else
      if (List.length ifname <? IFNAMSIZ - 1)%nat then None else
      let name := take (IFNAMSIZ - 1) ifname ++ [0] in
      xsk_socket_rings xsk (Xsk rx tx 0 umem config fd ifindex 0 0 queue_id name) h w
  end.

Definition xsk_socket__delete (xsk : Z) (h : heap) (w : W) : option (heap * W) :=
  if xsk =? 0 then Some (h, w) else
  x ← socks h !! xsk;
  let c := x_config x in
  let w := if x_prog_fd x =? -1 then w
           else let w := xsk_delete_bpf_maps x w in snd (sys_close (x_prog_fd x) w) in
  '(off, w) ← xsk_get_mmap_offsets (x_fd x) w;
  w ← match off with
      | inl _ => Some w
      | inr off =>
          w ← (if x_rx x =? 0 then Some w else
               r ← rings h !! x_rx x;
               Some (sys_munmap (r_slots r - o_desc (of_rx off))
                       (ring_bytes (of_rx off) (rx_size c) sizeof_xdp_desc) w));
          if x_tx x =? 0 then Some w else
          r ← rings h !! x_tx x;
          Some (sys_munmap (r_slots r - o_desc (of_tx off))
                  (ring_bytes (of_tx off) (tx_size c) sizeof_xdp_desc) w)
      end;
  u ← umems h !! x_umem x;
  n ← sub32 (refcount u) 1;
  h ← put_refcount (x_umem x) n h;
  let w := if x_fd x =? u_fd u then w else snd (sys_close (x_fd x) w) in
  Some (Heap (rings h) (umems h) (delete xsk (socks h)), sys_free xsk w).
End Sockets.
