(* ===== verification/XskFds.v ===== *)
(** * What AF_XDP sockets hold

    The descriptors, mappings and memory of the process around the functions of
    [XskSocket]: a failure leaves what was there, a deletion gives back what the
    creation took.  The laws are what the kernel documents of each call.  The calls
    that break this are shown with their causes. *)

From S2P Require Import Prelude BpfMap BpfCalls BpfObject XdpLink Packet XskRing BpfLoad LoadFds XskProg XskSocket.
From Stdlib Require Import Ascii String.

Local Open Scope Z_scope.

(** ** Sets that grow and shrink *)

Section Owns.
Context {A : Type} `{Countable A}.
Implicit Types (U S : gset A) (l : list A) (x : A).

(** Beside [U], [S] has exactly the elements of [l], each once. *)
Definition owns U S l : Prop :=
  NoDup l /\ S = U ∪ list_to_set l /\ forall x, x ∈ l -> x ∉ U.

Lemma owns_nil S : owns S S [].
Proof. split; [constructor|]. split; [cbn; set_solver|]. by intros x ?%elem_of_nil. Qed.

Lemma owns_nothing U S : owns U S [] -> S = U.
Proof. intros (_ & -> & _). cbn. set_solver. Qed.

Lemma owns_perm U S l l' : l ≡ₚ l' -> owns U S l -> owns U S l'.
Proof.
  intros Hp (Hnd & -> & Hd). split; [by rewrite <- Hp|]. split.
  - f_equal. by apply list_to_set_perm_L.
  - intros x. rewrite <- Hp. apply Hd.
Qed.

Lemma owns_add U S l x : x ∉ S -> owns U S l -> owns U ({[x]} ∪ S) (x :: l).
Proof.
  intros Hx (Hnd & -> & Hd). apply not_elem_of_union in Hx as [HU Hl]. rewrite not_elem_of_list_to_set in Hl.
  split; [by apply list.NoDup_cons|]. split; [cbn; set_solver|].
  intros y [->|?]%elem_of_cons; auto.
Qed.

Lemma owns_remove U S l x : owns U S (x :: l) -> owns U (S ∖ {[x]}) l.
Proof.
  intros (Hnd & -> & Hd). apply list.NoDup_cons in Hnd as [Hx Hnd].
  split; [done|]. split; [|intros y Hy; apply Hd; by right].
  pose proof (Hd x ltac:(by left)). cbn. apply set_eq. intros y.
  rewrite elem_of_difference, !elem_of_union, elem_of_singleton.
  split; [set_solver|]. intros [?|Hy%elem_of_list_to_set]; split; set_solver.
Qed.
End Owns.

(** ** What the kernel documents *)

Class XskLaws (W : Type) `{FdLaws W} `{LinkSys W} `{XskSys W} := {
  (** The mappings of the process, with their lengths, and its memory. *)
  mappings : W -> gset (Z * Z);
  allocated : W -> gset Z;
  fd_by_id_opens : forall c id w fd w', sys_get_fd_by_id c id w = (fd, w') ->
    opens fd (opened w) (opened w');
  set_link_opened : forall i fd fl w r w', bpf_set_link_xdp_fd i fd fl w = (r, w') -> opened w' = opened w;
  (** The calls on descriptors change neither mappings nor memory. *)
  rest w := (mappings w, allocated w);
  map_create_rest : forall a w fd w', sys_map_create a w = (fd, w') -> rest w' = rest w;
  prog_load_rest : forall a w fd r w', sys_prog_load a w = (fd, r, w') -> rest w' = rest w;
  elem_rest : forall c a w r v w', sys_elem c a w = (r, v, w') -> rest w' = rest w;
  fd_by_id_errno : forall c id w fd w', sys_get_fd_by_id c id w = (fd, w') -> fd < 0 -> errno w' <> 0;
  fd_by_id_rest : forall c id w fd w', sys_get_fd_by_id c id w = (fd, w') -> rest w' = rest w;
  close_rest : forall fd w r w', sys_close fd w = (r, w') -> rest w' = rest w;
  set_link_rest : forall i fd fl w r w', bpf_set_link_xdp_fd i fd fl w = (r, w') -> rest w' = rest w;
  (** Sockets are opened. *)
  socket_xdp_opens : forall w fd w', sys_socket_xdp w = (fd, w') ->
    opens fd (opened w) (opened w') /\ rest w' = rest w;
  socket_inet_opens : forall w fd w', sys_socket_inet w = (fd, w') ->
    opens fd (opened w) (opened w') /\ rest w' = rest w;
  (** Queries and options leave all as it is. *)
  quiet w w' := opened w' = opened w /\ rest w' = rest w;
  setsockopt_quiet : forall fd o w r w', sys_setsockopt_xdp fd o w = (r, w') -> quiet w w';
  offsets_quiet : forall fd w r n ws w', sys_mmap_offsets fd w = (r, n, ws, w') -> quiet w w';
  bind_quiet : forall fd a w r w', sys_bind_xdp fd a w = (r, w') -> quiet w w';
  ifindex_quiet : forall nm w r w', if_nametoindex nm w = (r, w') -> quiet w w';
  ethtool_quiet : forall fd nm w r n w', sys_ethtool_channels fd nm w = (r, n, w') -> quiet w w';
  map_ids_quiet : forall fd k w r n ids w', sys_prog_map_ids fd k w = (r, n, ids, w') -> quiet w w';
  (** Memory and mappings are given where there are none. *)
  calloc_spec : forall w p w', sys_calloc w = (p, w') ->
    opened w' = opened w /\ mappings w' = mappings w /\
    (p = 0 /\ allocated w' = allocated w \/
     p <> 0 /\ (p ∉ allocated w) /\ allocated w' = {[p]} ∪ allocated w);
  free_spec : forall p w, opened (sys_free p w) = opened w /\ mappings (sys_free p w) = mappings w /\
    allocated (sys_free p w) = allocated w ∖ {[p]};
  mmap_spec : forall n fd o w m w', sys_mmap n fd o w = (m, w') ->
    opened w' = opened w /\ allocated w' = allocated w /\
    (m = MAP_FAILED /\ mappings w' = mappings w \/
     m <> MAP_FAILED /\ ((m, n) ∉ mappings w) /\ mappings w' = {[(m, n)]} ∪ mappings w);
  munmap_spec : forall m n w, opened (sys_munmap m n w) = opened w /\
    allocated (sys_munmap m n w) = allocated w /\ mappings (sys_munmap m n w) = mappings w ∖ {[(m, n)]};
  map_failed : forall n w, (MAP_FAILED, n) ∉ mappings w;
  (** The layout of the rings is the kernel's, the same for all its sockets. *)
  offsets_same : forall fd w n ws w' fd2 v n2 ws2 v',
    sys_mmap_offsets fd w = (0, n, ws, w') -> sys_mmap_offsets fd2 v = (0, n2, ws2, v') ->
    n = n2 /\ ws = ws2;
}.

Section Accounts.
Context {W : Type} `{XskLaws W} `{HostOrder} (agains : nat).
Implicit Types (w : W) (F A : list Z) (M : list (Z * Z)) (x : xsk_socket) (h : heap).

(** What is held beside what a first state held. *)
Definition acct (w0 : W) F M A (w : W) : Prop :=
  owns (opened w0) (opened w) F /\ owns (mappings w0) (mappings w) M /\ owns (allocated w0) (allocated w) A.

Lemma acct_start w : acct w [] [] [] w.
Proof. split; [|split]; apply owns_nil. Qed.

Lemma acct_perm w0 F F' M M' A w :
  F ≡ₚ F' -> M ≡ₚ M' -> acct w0 F M A w -> acct w0 F' M' A w.
Proof. intros HF HM (? & ? & ?). split; [|split]; [by eapply owns_perm|by eapply owns_perm|done]. Qed.

Lemma acct_rest w0 F F' M A w w' :
  acct w0 F M A w -> rest w' = rest w -> owns (opened w0) (opened w') F' -> acct w0 F' M A w'.
Proof. intros (_ & ? & ?) [= Em Ea] ?. unfold acct. by rewrite Em, Ea. Qed.

Lemma acct_quiet w0 F M A w w' : acct w0 F M A w -> quiet w w' -> acct w0 F M A w'.
Proof. intros Ha [Ho Hr]. eapply acct_rest; [done|done|]. rewrite Ho. apply Ha. Qed.

Lemma acct_opens w0 F M A w w' fd :
  acct w0 F M A w -> opens fd (opened w) (opened w') -> rest w' = rest w ->
  acct w0 (valid [fd] ++ F) M A w'.
Proof.
  intros Ha Ho Hr. eapply acct_rest; [done|done|]. revert Ho. unfold opens. cbn.
  destruct (Z.ltb_spec fd 0) as [Hlt|Hge].
  - rewrite (proj2 (Z.leb_gt _ _) Hlt). intros ->. apply Ha.
  - rewrite (proj2 (Z.leb_le _ _) Hge). intros [Hfd ->]. apply owns_add; [done|]. apply Ha.
Qed.

Lemma valid_pos fd : 0 <= fd -> valid [fd] = [fd].
Proof. intros Hfd. cbn. by rewrite (proj2 (Z.leb_le _ _) Hfd). Qed.

Lemma acct_opened w0 F M A w w' fd :
  acct w0 F M A w -> opens fd (opened w) (opened w') -> rest w' = rest w -> 0 <= fd ->
  acct w0 (fd :: F) M A w'.
Proof. intros Ha Ho Hr Hfd. rewrite <- (app_nil_l F), app_comm_cons, <- valid_pos by done. by eapply acct_opens. Qed.

Lemma acct_refused w0 F M A w w' fd :
  acct w0 F M A w -> opens fd (opened w) (opened w') -> rest w' = rest w -> fd < 0 ->
  acct w0 F M A w'.
Proof.
  intros Ha Ho Hr Hfd. pose proof (acct_opens _ _ _ _ _ _ _ Ha Ho Hr) as Ha'. cbn in Ha'.
  by rewrite (proj2 (Z.leb_gt _ _) Hfd) in Ha'.
Qed.

Lemma acct_close w0 F M A w fd r w' :
  acct w0 (fd :: F) M A w -> sys_close fd w = (r, w') -> acct w0 F M A w'.
Proof.
  intros Ha Hc. eapply acct_rest; [done|by eapply close_rest|].
  rewrite (close_closes _ _ _ _ Hc). apply owns_remove, Ha.
Qed.

Lemma acct_calloc w0 F M A w p w' :
  acct w0 F M A w -> sys_calloc w = (p, w') -> if p =? 0 then acct w0 F M A w' else acct w0 F M (p :: A) w'.
Proof.
  intros (HF & HM & HA) (Ho & Hm & Hp)%calloc_spec. unfold acct. rewrite Ho, Hm.
  destruct (Z.eqb_spec p 0), Hp as [[? ->]|(? & ? & ->)]; try done.
  split; [done|]. split; [done|]. by apply owns_add.
Qed.

Lemma acct_free w0 F M A w p : acct w0 F M (p :: A) w -> acct w0 F M A (sys_free p w).
Proof.
  intros (HF & HM & HA). destruct (free_spec p w) as (Ho & Hm & Hp). unfold acct.
  rewrite Ho, Hm, Hp. split; [done|]. split; [done|]. by apply owns_remove.
Qed.

Lemma acct_mmap w0 F M A w n fd o m w' :
  acct w0 F M A w -> sys_mmap n fd o w = (m, w') ->
  if m =? MAP_FAILED then acct w0 F M A w' else acct w0 F ((m, n) :: M) A w'.
Proof.
  intros (HF & HM & HA) (Ho & Hm & Hp)%mmap_spec. unfold acct. rewrite Ho, Hm.
  destruct (Z.eqb_spec m MAP_FAILED), Hp as [[? ->]|(? & ? & ->)]; try done.
  split; [done|]. split; [|done]. by apply owns_add.
Qed.

Lemma acct_munmap w0 F M A w m n :
  acct w0 F ((m, n) :: M) A w -> acct w0 F M A (sys_munmap m n w).
Proof.
  intros (HF & HM & HA). destruct (munmap_spec m n w) as (Ho & Ha & Hm). unfold acct.
  rewrite Ho, Ha, Hm. split; [done|]. split; [|done]. by apply owns_remove.
Qed.

(** [munmap] of what is no mapping. *)
Lemma acct_munmap_failed w0 F M A w n : acct w0 F M A w -> acct w0 F M A (sys_munmap MAP_FAILED n w).
Proof.
  intros (HF & HM & HA). destruct (munmap_spec MAP_FAILED n w) as (Ho & Ha & Hm). unfold acct.
  rewrite Ho, Ha, Hm. split; [done|]. split; [|done].
  replace (mappings w ∖ {[(MAP_FAILED, n)]}) with (mappings w); [done|].
  pose proof (map_failed n w). set_solver.
Qed.

Lemma get_offsets_quiet fd w off w' : xsk_get_mmap_offsets fd w = Some (off, w') -> quiet w w'.
Proof.
  unfold xsk_get_mmap_offsets. destruct (sys_mmap_offsets fd w) as [[[err n] ws] w1] eqn:E.
  apply offsets_quiet in E. destruct (negb (err =? 0)); [by intros [= _ <-]|].
  destruct (n =? sizeof_mmap_offsets).
  { destruct (read_offsets ws); [|done]. by intros [= _ <-]. }
  destruct (n =? sizeof_mmap_offsets_v1); [|by intros [= _ <-]].
  destruct (xsk_mmap_offsets_v1 ws); [|done]. by intros [= _ <-].
Qed.

Lemma get_offsets_same fd w off w' fd2 v off2 v' :
  xsk_get_mmap_offsets fd w = Some (inr off, w') ->
  xsk_get_mmap_offsets fd2 v = Some (inr off2, v') -> off = off2.
Proof.
  unfold xsk_get_mmap_offsets.
  destruct (sys_mmap_offsets fd w) as [[[err n] ws] w1] eqn:E.
  destruct (sys_mmap_offsets fd2 v) as [[[err2 n2] ws2] v1] eqn:E2.
  destruct (Z.eqb_spec err 0) as [->|]; [|done]. destruct (Z.eqb_spec err2 0) as [->|]; [|done].
  destruct (offsets_same _ _ _ _ _ _ _ _ _ _ E E2) as [-> ->].
  cbn [negb]. destruct (n2 =? _); [|destruct (n2 =? _); [|done]];
    [destruct (read_offsets ws2)|destruct (xsk_mmap_offsets_v1 ws2)]; cbn; congruence.
Qed.

(** ** User memory *)

Lemma umem_fails_acct w0 F M A err p fd h w r :
  acct w0 (fd :: F) M (p :: A) w -> umem_fails err p fd h w = Some r ->
  exists w', r = (err, None, h, w') /\ acct w0 F M A w'.
Proof.
  unfold umem_fails. intros Ha. destruct (sys_close fd w) as [c w1] eqn:E. intros [= <-].
  eexists. split; [done|]. by eapply acct_free, acct_close.
Qed.

Lemma store_ring_spec p f h h' :
  store_ring p f h = Some h' ->
  exists r, rings h !! p = Some r /\ h' = set_rings (<[p := f r]> (rings h)) h.
Proof. unfold store_ring. destruct (rings h !! p) as [r|] eqn:E; [|done]. intros [= <-]. by exists r. Qed.

(** A ring of the heap that is mapped at [m]. *)
Definition mapped_at h (p : Z) (o : ring_offset) (m : Z) : Prop :=
  exists r, rings h !! p = Some r /\ r_slots r = m + o_desc o.

(** A user memory area as [xsk_umem__create] leaves it, and its mappings. *)
Definition umem_mapped (off : mmap_offsets) h (p : Z) (u : xsk_umem) (fill_map comp_map : Z) : Prop :=
  umems h !! p = Some u /\ mapped_at h (u_fill u) (of_fr off) fill_map /\
  mapped_at h (u_comp u) (of_cr off) comp_map.

Definition umem_mappings (off : mmap_offsets) (u : xsk_umem) (fill_map comp_map : Z) : list (Z * Z) :=
  [(fill_map, ring_bytes (of_fr off) (fill_size (u_config u)) sizeof_u64);
   (comp_map, ring_bytes (of_cr off) (comp_size (u_config u)) sizeof_u64)].

(** What a creation may answer, from a state with [F], [M] and [A]. *)
Definition umem_outcome w0 F M A (fill comp : Z) h (r : Z * option Z * heap * W) : Prop :=
  let '(ret, stored, h', w') := r in
  (exists p u off m1 m2 v v' fd, ret = 0 /\ stored = Some p /\ p <> 0 /\ refcount u = 0 /\
     u_fill u = fill /\ u_comp u = comp /\ 0 <= u_fd u /\
     xsk_get_mmap_offsets fd v = Some (inr off, v') /\
     umems h' = <[p := u]> (umems h) /\ (fill <> comp -> umem_mapped off h' p u m1 m2) /\
     socks h' = socks h /\
     acct w0 (u_fd u :: F) (umem_mappings off u m1 m2 ++ M) (p :: A) w') \/
  (stored = None /\ umems h' = umems h /\ socks h' = socks h /\
   exists leaked : list (Z * Z), (List.length leaked <= 1)%nat /\ acct w0 F (leaked ++ M) A w').

Lemma umem_fails_outcome w0 F M A fill comp err p fd h h' w leaked r :
  acct w0 (fd :: F) (leaked ++ M) (p :: A) w -> (List.length leaked <= 1)%nat ->
  umems h' = umems h -> socks h' = socks h ->
  umem_fails err p fd h' w = Some r -> umem_outcome w0 F M A fill comp h r.
Proof.
  intros Ha Hl Hu Hs Hr. destruct (umem_fails_acct _ _ _ _ _ _ _ _ _ _ Ha Hr) as (w' & -> & Ha').
  right. split; [done|]. split; [done|]. split; [done|]. by exists leaked.
Qed.

(** The creation, from [setsockopt] on the new socket on. *)
Lemma umem_create_outcome w0 F M A umem_ptr area size fill comp cfg h w r :
  acct w0 F M A w ->
  xsk_umem__create_v0_0_4 umem_ptr area size fill comp cfg h w = Some r ->
  umem_outcome w0 F M A fill comp h r.
Proof.
  intros Ha. unfold xsk_umem__create_v0_0_4.
  assert (forall err w', acct w0 F M A w' -> umem_outcome w0 F M A fill comp h (err, None, h, w')) as Hnone.
  { intros err w' Hw'. right. repeat split. by exists []; split; [cbn; lia|]. }
  destruct (_ || _ || _ || _); [intros [= <-]; by apply Hnone|].
  destruct (_ && _); [intros [= <-]; by apply Hnone|].
  destruct (sys_calloc w) as [p w1] eqn:E1. apply (acct_calloc _ _ _ _ _ _ _ Ha) in E1.
  destruct (Z.eqb_spec p 0) as [Hp|Hp]; [intros [= <-]; by apply Hnone|].
  destruct (sys_socket_xdp w1) as [fd w2] eqn:E2. apply socket_xdp_opens in E2 as [Ho2 Hr2].
  destruct (Z.ltb_spec fd 0) as [Hfd|Hfd].
  { intros [= <-]. apply Hnone, acct_free. by eapply acct_refused. }
  eapply acct_opened in E1; [|exact Ho2|exact Hr2|exact Hfd].
  set (c := xsk_set_umem_config cfg).
  assert (forall err w', acct w0 (fd :: F) M (p :: A) w' -> umem_fails err p fd h w' = Some r ->
    umem_outcome w0 F M A fill comp h r) as Hfail.
  { intros err w' Hw'. by apply (umem_fails_outcome _ _ _ _ _ _ _ _ _ _ _ _ []); [|cbn; lia|..]. }
  do 3 (match goal with |- context [sys_setsockopt_xdp fd ?o ?v] =>
    let E := fresh "E" in destruct (sys_setsockopt_xdp fd o v) as [? ?] eqn:E;
    apply setsockopt_quiet in E; eapply acct_quiet in E; [|eassumption] end;
    destruct (negb _); [by apply Hfail|]).
  destruct (xsk_get_mmap_offsets fd _) as [[off w6]|] eqn:Eoff; [|done]. cbn [mbind option_bind].
  apply get_offsets_quiet in Eoff as Hq. eapply acct_quiet in Hq; [|eassumption].
  destruct off as [e|off]; [by apply Hfail|].
  destruct (sys_mmap _ fd XDP_UMEM_PGOFF_FILL_RING _) as [m1 w7] eqn:E7.
  eapply acct_mmap in E7; [|eassumption].
  destruct (Z.eqb_spec m1 MAP_FAILED) as [?|Hm1]; [by apply Hfail|].
  destruct (store_ring fill _ h) as [h1|] eqn:Es1; [|done]. cbn [mbind option_bind].
  apply store_ring_spec in Es1 as (r1 & Er1 & ->).
  destruct (sys_mmap _ fd XDP_UMEM_PGOFF_COMPLETION_RING _) as [m2 w8] eqn:E8.
  eapply acct_mmap in E8; [|eassumption].
  destruct (Z.eqb_spec m2 MAP_FAILED) as [->|Hm2].
  { apply (umem_fails_outcome w0 F M A fill comp _ _ _ h _ _ [(m1, ring_bytes (of_fr off) (fill_size c) sizeof_u64)]);
      [by apply acct_munmap_failed|cbn; lia|done|done]. }
  destruct (store_ring comp _ _) as [h2|] eqn:Es2; [|done]. cbn [mbind option_bind].
  apply store_ring_spec in Es2 as (r2 & Er2 & ->). intros [= <-]. left.
  match type of Eoff with xsk_get_mmap_offsets _ ?v = Some (_, ?v1) =>
    exists p, (Umem fill comp area c fd 0), off, m1, m2, v, v1, fd end.
  repeat (split; [done|]). split; [|split; [done|]].
  - intros Hne. split; [apply lookup_insert_eq|]. split; eexists; cbn [rings set_rings set_umem u_fill u_comp].
    + rewrite lookup_insert_ne by done. rewrite lookup_insert_eq. done.
    + rewrite lookup_insert_eq. done.
  - eapply acct_perm; [done| |exact E8]. apply perm_swap.
Qed.

(** The deletion, when the kernel answers for the layout: what the area held is
    given back, and its record with it. *)
Lemma umem_delete_releases w0 F M A off u m1 m2 p h w fd v v' off2 w1 :
  acct w0 (u_fd u :: F) (umem_mappings off u m1 m2 ++ M) (p :: A) w ->
  umem_mapped off h p u m1 m2 -> p <> 0 -> refcount u = 0 ->
  xsk_get_mmap_offsets fd v = Some (inr off, v') ->
  xsk_get_mmap_offsets (u_fd u) w = Some (inr off2, w1) ->
  exists w', xsk_umem__delete p h w = Some (0, Heap (rings h) (delete p (umems h)) (socks h), w') /\
    acct w0 F M A w'.
Proof.
  intros Ha (Hu & (rf & Hrf & Ef) & (rc & Hrc & Ec)) Hp Hn Hoff Hoff2.
  apply get_offsets_quiet in Hoff2 as Hq. eapply acct_quiet in Hq; [|exact Ha].
  rewrite (get_offsets_same _ _ _ _ _ _ _ _ Hoff2 Hoff) in Hoff2.
  unfold xsk_umem__delete. rewrite (proj2 (Z.eqb_neq _ _) Hp), Hu. cbn [mbind option_bind].
  rewrite Hn. cbn [Z.eqb negb]. rewrite Hoff2. cbn [mbind option_bind].
  rewrite Hrf, Hrc. cbn [mbind option_bind]. rewrite Ef, Ec, !Z.add_simpl_r.
  destruct (sys_close (u_fd u) _) as [c w3] eqn:E3. eexists. split; [done|].
  eapply acct_free, acct_close; [|exact E3]. by apply acct_munmap, acct_munmap.
Qed.

Lemma acct_nothing w0 w : acct w0 [] [] [] w ->
  opened w = opened w0 /\ mappings w = mappings w0 /\ allocated w = allocated w0.
Proof. intros (?%owns_nothing & ?%owns_nothing & ?%owns_nothing). done. Qed.

Lemma acct_leaked w0 n M w : acct w0 [] M [] w -> (List.length M <= n)%nat ->
  opened w = opened w0 /\ allocated w = allocated w0 /\
  exists leaked, (List.length leaked <= n)%nat /\ mappings w = mappings w0 ∪ list_to_set leaked.
Proof. intros (?%owns_nothing & (_ & ? & _) & ?%owns_nothing) Hn. repeat split; [done..|]. by exists M. Qed.

(** Creating a user memory area opens a socket, takes memory and maps two rings,
    and [xsk_umem__delete] gives all of it back; a creation that fails leaves the
    descriptors, the memory and the areas as they were, and the mappings too, but for
    one at most. *)
Theorem umem_lifecycle umem_ptr area size fill comp cfg h w ret stored h1 w1 :
  fill <> comp ->
  xsk_umem__create_v0_0_4 umem_ptr area size fill comp cfg h w = Some (ret, stored, h1, w1) ->
  match stored with
  | None => opened w1 = opened w /\ allocated w1 = allocated w /\ umems h1 = umems h /\
      exists leaked, (List.length leaked <= 1)%nat /\ mappings w1 = mappings w ∪ list_to_set leaked
  | Some p => ret = 0 /\ forall fd off v, xsk_umem__fd h1 p = Some fd ->
      xsk_get_mmap_offsets fd w1 = Some (inr off, v) ->
      exists h2 w2, xsk_umem__delete p h1 w1 = Some (0, h2, w2) /\
        opened w2 = opened w /\ mappings w2 = mappings w /\ allocated w2 = allocated w /\
        umems h2 = delete p (umems h)
  end.
Proof.
  intros Hne Hc. apply (umem_create_outcome w [] [] []) in Hc; [|apply acct_start].
  destruct Hc as [(p & u & off & m1 & m2 & v & v' & fd & -> & -> & Hp & Hn & Hf & Hcm & Hfd & Hoff & Hum & Hmap & _ & Ha)|
                  (-> & Hum & _ & leaked & Hl & Ha)].
  - specialize (Hmap Hne). split; [done|]. intros fd' off' v2 Hfd' Hoff'.
    assert (fd' = u_fd u) as ->.
    { revert Hfd'. unfold xsk_umem__fd. rewrite (proj2 (Z.eqb_neq _ _) Hp), (proj1 Hmap). by intros [= <-]. }
    destruct (umem_delete_releases w [] [] [] off u m1 m2 p h1 w1 fd v v' off' v2) as (w' & -> & Ha'); [done..|].
    eexists _, w'. split; [done|]. apply acct_nothing in Ha' as (? & ? & ?).
    repeat (split; [done|]). cbn [umems]. by rewrite Hum, delete_insert_eq.
  - rewrite app_nil_r in Ha. destruct (acct_leaked _ 1 _ _ Ha Hl) as (? & ? & ?). done.
Qed.

(** ** The XDP program of a socket *)

Lemma fails_rest p w w' : rtc (fails p) w w' -> rest w' = rest w.
Proof.
  induction 1 as [|v1 v2 v3 (a & fd & r & _ & E & _) _ IH]; [done|]. rewrite IH. by eapply prog_load_rest.
Qed.

Lemma answers_rest p fd w w' : answers p fd w w' -> rest w' = rest w.
Proof.
  intros [[_ Hf]|(_ & v1 & a & r & Hf & _ & E)]; apply fails_rest in Hf; [done|].
  rewrite <- Hf. by eapply prog_load_rest.
Qed.

(** What a step that sets up the program and the map may leave. *)
Definition prog_outcome w0 F M A (x : xsk_socket) (r : option Z * xsk_socket * W) : Prop :=
  let '(ret, x', w') := r in
  (exists err, ret = Some err /\ err <> 0 /\ acct w0 F M A w') \/
  (ret = None /\ exists pfd mfd, 0 <= pfd /\ 0 <= mfd /\ x' = set_prog_fd pfd (set_xsks_map_fd mfd x) /\
     acct w0 (pfd :: mfd :: F) M A w').

Lemma load_xdp_prog_acct w0 F M A x w err x' w' :
  acct w0 F M A w -> xsk_load_xdp_prog agains x w = Some (err, x', w') ->
  (err <> 0 /\ x' = x /\ acct w0 F M A w') \/
  (err = 0 /\ exists fd, 0 <= fd /\ x' = set_prog_fd fd x /\ acct w0 (fd :: F) M A w').
Proof.
  intros Ha. unfold xsk_load_xdp_prog, bpf_load_program.
  destruct (bpf_load_program_xattr _ _ _ _ w) as [[[fd b] w1]|] eqn:El; [|done].
  cbn [mbind option_bind]. apply load_program_answers in El as Hans.
  apply answers_rest in Hans as Hr. apply answers_opens in Hans as Ho.
  destruct (Z.ltb_spec fd 0) as [Hfd|Hfd].
  { intros [= <- <- <-]. left. split; [lia|]. split; [done|]. by eapply acct_refused. }
  eapply acct_opened in Ha; [|exact Ho|exact Hr|exact Hfd].
  destruct (bpf_set_link_xdp_fd _ fd _ w1) as [e w2] eqn:Es.
  apply set_link_opened in Es as Hs. apply set_link_rest in Es as Hs'.
  eapply acct_quiet in Ha; [|by split].
  destruct (Z.eqb_spec e 0) as [->|He]; cbn [negb].
  - intros [= <- <- <-]. right. split; [done|]. by exists fd.
  - destruct (sys_close fd w2) as [c w3] eqn:Ec. intros [= <- <- <-]. left.
    split; [done|]. split; [done|]. by eapply acct_close.
Qed.

Lemma max_queues_acct w0 F M A x w n w' :
  acct w0 F M A w -> xsk_get_max_queues x w = (n, w') -> acct w0 F M A w'.
Proof.
  intros Ha. unfold xsk_get_max_queues. destruct (sys_socket_inet w) as [fd w1] eqn:E1.
  apply socket_inet_opens in E1 as [Ho Hr].
  destruct (Z.ltb_spec fd 0); [intros [= _ <-]; by eapply acct_refused|].
  eapply acct_opened in Ha; [|exact Ho|exact Hr|done].
  destruct (sys_ethtool_channels fd _ w1) as [[e m] w2] eqn:E2. apply ethtool_quiet in E2.
  eapply acct_quiet in Ha; [|exact E2].
  destruct (sys_close fd w2) as [c w3] eqn:E3. intros [= _ <-]. by eapply acct_close.
Qed.

Lemma create_maps_acct w0 F M A x w err x' w' :
  acct w0 F M A w -> xsk_create_bpf_maps x w = (err, x', w') ->
  (err <> 0 /\ acct w0 F M A w') \/
  (err = 0 /\ exists fd, 0 <= fd /\ x' = set_xsks_map_fd fd x /\ acct w0 (fd :: F) M A w').
Proof.
  intros Ha. unfold xsk_create_bpf_maps. destruct (xsk_get_max_queues x w) as [n w1] eqn:E1.
  eapply max_queues_acct in E1; [|exact Ha].
  destruct (Z.ltb_spec n 0); [intros [= <- <- <-]; left; by split; [lia|]|].
  unfold bpf_create_map_name, bpf_create_map_xattr. destruct (sys_map_create _ w1) as [fd w2] eqn:E2.
  apply map_create_opens in E2 as Ho. apply map_create_rest in E2 as Hr.
  destruct (Z.ltb_spec fd 0).
  - intros [= <- <- <-]. left. split; [lia|]. by eapply acct_refused.
  - intros [= <- <- <-]. right. split; [done|]. exists fd. split; [done|]. split; [done|]. by eapply acct_opened.
Qed.

Lemma delete_maps_acct w0 F M A x w :
  acct w0 (xsks_map_fd x :: F) M A w -> acct w0 F M A (xsk_delete_bpf_maps x w).
Proof.
  intros Ha. unfold xsk_delete_bpf_maps, bpf_map_delete_elem, elem_call.
  destruct (sys_elem _ _ w) as [[r v] w1] eqn:E1. apply elem_keeps in E1 as Ho. apply elem_rest in E1 as Hr.
  eapply acct_quiet in Ha; [|by split].
  destruct (sys_close _ w1) as [c w2] eqn:E2. by eapply acct_close.
Qed.

Lemma own_prog_acct w0 F M A x w r :
  acct w0 F M A w -> xsk_own_prog agains x w = Some r -> prog_outcome w0 F M A x r.
Proof.
  intros Ha. unfold xsk_own_prog. destruct (xsk_create_bpf_maps x w) as [[e x1] w1] eqn:E1.
  eapply create_maps_acct in E1 as [[He Ha1]|(-> & mfd & Hm & -> & Ha1)]; [| |exact Ha].
  { rewrite (proj2 (Z.eqb_neq _ _) He). intros [= <-]. left. by exists e. }
  cbn [Z.eqb negb]. destruct (xsk_load_xdp_prog _ _ w1) as [[[e2 x2] w2]|] eqn:E2; [|done].
  cbn [mbind option_bind].
  eapply load_xdp_prog_acct in E2 as [(He & -> & Ha2)|(-> & pfd & Hp & -> & Ha2)]; [| |exact Ha1].
  - rewrite (proj2 (Z.eqb_neq _ _) He). intros [= <-]. left. exists e2. repeat (split; [done|]).
    by apply delete_maps_acct.
  - intros [= <-]. right. split; [done|]. by exists pfd, mfd.
Qed.

Definition found_ok (fd : Z) : Prop := fd = -1 \/ 0 <= fd.

(** The search keeps the descriptor of the map it found last; those it found before
    stay open. *)
Lemma find_map_acct w0 F M A ids found w fd w' :
  acct w0 (valid [found] ++ F) M A w -> find_xsks_map ids found w = (fd, w') -> found_ok found ->
  found_ok fd /\ exists leaked, acct w0 (valid [fd] ++ leaked ++ F) M A w' /\
    (List.length leaked + List.length (valid [fd]) <= List.length ids + List.length (valid [found]))%nat /\
    (fd = -1 -> found = -1 /\ leaked = []).
Proof.
  revert F found w. induction ids as [|id ids IH]; intros F found w Ha; cbn [find_xsks_map].
  { intros [= <- <-] Hf. split; [done|]. exists []. by split; [|split; [lia|]]. }
  unfold bpf_map_get_fd_by_id. destruct (sys_get_fd_by_id _ id w) as [fd1 w1] eqn:E1.
  apply fd_by_id_opens in E1 as Ho. apply fd_by_id_rest in E1 as Hr.
  assert (forall v, acct w0 (valid [found] ++ F) M A v -> find_xsks_map ids found v = (fd, w') ->
    found_ok found -> found_ok fd /\ exists leaked, acct w0 (valid [fd] ++ leaked ++ F) M A w' /\
      (List.length leaked + List.length (valid [fd]) <= S (List.length ids) + List.length (valid [found]))%nat /\
      (fd = -1 -> found = -1 /\ leaked = [])) as Hskip.
  { intros v Hv Hfind Hok. destruct (IH F found v Hv Hfind Hok) as (? & leaked & ? & ? & ?).
    split; [done|]. exists leaked. split; [done|]. split; [lia|done]. }
  destruct (Z.ltb_spec fd1 0); [by apply Hskip; eapply acct_refused|].
  eapply acct_opened in Ha; [|exact Ho|exact Hr|done].
  assert (forall v, (let '(_, w2) := sys_close fd1 w1 in find_xsks_map ids found w2) = v ->
    exists w2, acct w0 (valid [found] ++ F) M A w2 /\ find_xsks_map ids found w2 = v) as Hclose.
  { intros v. destruct (sys_close fd1 w1) as [c w2] eqn:E2. intros <-.
    exists w2. split; [by eapply acct_close|done]. }
  destruct (obj_info fd1 w1) as [e|info]; [intros (v & ? & ?)%Hclose; by apply (Hskip v)|].
  destruct (String.eqb _ _); [|intros (v & ? & ?)%Hclose; by apply (Hskip v)].
  intros Hfind Hok. destruct (IH (valid [found] ++ F) fd1 w1) as (? & leaked & Ha' & Hl & Hno); [|done|by right|].
  { by rewrite valid_pos. }
  split; [done|]. exists (leaked ++ valid [found]). rewrite length_app. split; [by rewrite <- app_assoc|].
  rewrite (valid_pos fd1) in Hl by done. cbn [List.length] in *. split; [lia|]. intros Hfd. apply Hno in Hfd as [-> _]. lia.
Qed.

(** Programs with one map at most, like the one libbpf loads itself. *)
Definition one_map : Prop :=
  forall fd k w r n ids w', sys_prog_map_ids fd k w = (r, n, ids, w') -> n <= 1.

Lemma lookup_maps_acct w0 F M A x w err x' w' :
  one_map -> acct w0 F M A w -> xsk_lookup_bpf_maps x w = Some (err, x', w') ->
  x_prog_fd x' = x_prog_fd x /\
  ((err <> 0 /\ acct w0 F M A w') \/
   (err = 0 /\ exists fd, 0 <= fd /\ x' = set_xsks_map_fd fd x /\ acct w0 (fd :: F) M A w')).
Proof.
  intros Hone Ha. unfold xsk_lookup_bpf_maps.
  destruct (sys_prog_map_ids _ 0 w) as [[[e n] i0] w1] eqn:E1.
  apply map_ids_quiet in E1 as Hq. eapply acct_quiet in Ha; [|exact Hq].
  destruct (Z.eqb_spec e 0) as [->|He]; cbn [negb]; [|intros [= <- <- <-]; by split; [|left]].
  destruct (sys_calloc w1) as [p w2] eqn:E2. eapply acct_calloc in E2; [|exact Ha].
  destruct (p =? 0); [intros [= <- <- <-]; by split; [|left]|].
  destruct (sys_prog_map_ids _ n w2) as [[[e2 n2] ids] w3] eqn:E3.
  apply map_ids_quiet in E3 as Hq3. eapply acct_quiet in E2; [|exact Hq3]. apply Hone in E3.
  destruct (Z.eqb_spec e2 0) as [->|He2]; cbn [negb].
  2: { intros [= <- <- <-]. split; [done|]. left. split; [done|]. by apply acct_free. }
  destruct (n <? n2); [done|].
  set (l := take _ _). destruct (find_xsks_map l (-1) w3) as [fd w4] eqn:E4.
  eapply (find_map_acct w0 F) in E4 as ([->|Hfd] & leaked & Ha4 & Hl & Hno); [| |exact E2|by left].
  - intros [= <- <- <-]. split; [done|]. left. split; [done|]. destruct (Hno eq_refl) as [_ ->]. by apply acct_free.
  - intros [= <- <- <-]. split; [done|]. right. rewrite (proj2 (Z.eqb_neq fd (-1))) by lia. split; [done|].
    exists fd. split; [done|]. split; [done|]. rewrite valid_pos in Ha4, Hl by done. cbn in Hl.
    assert (List.length l <= 1)%nat by (unfold l; rewrite length_take; lia).
    destruct leaked; cbn in Hl; [|lia]. by apply acct_free.
Qed.

Lemma found_prog_acct w0 F M A id x w r :
  one_map -> acct w0 F M A w -> xsk_found_prog id x w = Some r -> prog_outcome w0 F M A x r.
Proof.
  intros Hone Ha. unfold xsk_found_prog, bpf_prog_get_fd_by_id.
  destruct (sys_get_fd_by_id _ id w) as [pfd w1] eqn:E1.
  apply fd_by_id_opens in E1 as Ho. apply fd_by_id_rest in E1 as Hr.
  destruct (Z.ltb_spec pfd 0) as [Hp|Hp].
  { intros [= <-]. left. exists (- errno w1). split; [done|]. apply fd_by_id_errno in E1; [|done].
    split; [lia|]. by eapply acct_refused. }
  eapply acct_opened in Ha; [|exact Ho|exact Hr|exact Hp].
  destruct (xsk_lookup_bpf_maps _ w1) as [[[e x2] w2]|] eqn:E2; [|done]. cbn [mbind option_bind].
  eapply lookup_maps_acct in E2 as (Hpf & [[He Ha2]|(-> & mfd & Hm & -> & Ha2)]); [| |done|exact Ha].
  - rewrite (proj2 (Z.eqb_neq _ _) He). cbn [negb]. rewrite Hpf. cbn [x_prog_fd set_prog_fd].
    destruct (sys_close pfd w2) as [c w3] eqn:Ec. intros [= <-]. left. exists e.
    repeat (split; [done|]). by eapply acct_close.
  - cbn [Z.eqb negb]. intros [= <-]. right. split; [done|]. exists pfd, mfd. repeat (split; [done|]).
    eapply acct_perm; [apply perm_swap|done|exact Ha2].
Qed.

(** The error of [xsk_setup_xdp_prog], and what it took. *)
Lemma setup_prog_acct w0 F M A x w err x' w' :
  one_map -> acct w0 F M A w -> xsk_setup_xdp_prog agains x w = Some (err, x', w') ->
  (err <> 0 /\ acct w0 F M A w') \/
  (err = 0 /\ exists pfd mfd, 0 <= pfd /\ 0 <= mfd /\ x' = set_prog_fd pfd (set_xsks_map_fd mfd x) /\
     acct w0 (pfd :: mfd :: F) M A w').
Proof.
  intros Hone Ha. unfold xsk_setup_xdp_prog.
  destruct (bpf_get_link_xdp_id _ _ w) as [e id].
  destruct (Z.eqb_spec e 0) as [->|He]; cbn [negb]; [|intros [= <- <- <-]; by left].
  destruct (if id =? 0 then _ else _) as [[[ret x1] w1]|] eqn:E1; [|done].
  assert (prog_outcome w0 F M A x (ret, x1, w1)) as Hout.
  { destruct (id =? 0); [by eapply own_prog_acct|by eapply found_prog_acct]. }
  cbn [mbind option_bind]. destruct Hout as [(err1 & -> & He & Ha1)|(-> & pfd & mfd & Hp & Hm & -> & Ha1)].
  { intros [= <- <- <-]. by left. }
  set (x2 := set_prog_fd pfd (set_xsks_map_fd mfd x)) in *.
  destruct (if x_rx x2 =? 0 then _ else _) as [e2 w2] eqn:E2.
  assert (acct w0 (pfd :: mfd :: F) M A w2) as Ha2.
  { revert E2. destruct (x_rx x2 =? 0); [by intros [= _ <-]|].
    unfold xsk_set_bpf_maps, bpf_map_update_elem, elem_call.
    destruct (sys_elem _ _ w1) as [[r v] w3] eqn:E3. intros [= _ <-].
    apply elem_keeps in E3 as Ho. apply elem_rest in E3 as Hr. eapply acct_quiet; [exact Ha1|by split]. }
  destruct (Z.eqb_spec e2 0) as [->|He2]; cbn [negb].
  - intros [= <- <- <-]. right. split; [done|]. by exists pfd, mfd.
  - destruct (sys_close _ _) as [c w3] eqn:E3. intros [= <- <- <-]. left. split; [done|].
    change (x_prog_fd x2) with pfd in E3. eapply acct_close; [|exact E3]. apply delete_maps_acct.
    eapply acct_perm; [apply perm_swap|done|exact Ha2].
Qed.

(** ** Sockets *)

(** What a socket took: its program and map, if libbpf set them up; a mapping for
    each of its rings. *)
Definition xdp_fds (x : xsk_socket) : list Z :=
  if x_prog_fd x =? -1 then [] else [x_prog_fd x; xsks_map_fd x].
Definition ring_maps (p m : Z) (o : ring_offset) (n : Z) : list (Z * Z) :=
  if p =? 0 then [] else [(m, ring_bytes o n sizeof_xdp_desc)].

(** The same socket but for its program. *)
Definition but_prog (x x' : xsk_socket) : Prop :=
  x' = set_prog_fd (x_prog_fd x') (set_xsks_map_fd (xsks_map_fd x') x).

Lemma but_prog_fields x x' : but_prog x x' ->
  x_umem x' = x_umem x /\ x_fd x' = x_fd x /\ x_rx x' = x_rx x /\ x_tx x' = x_tx x /\
  x_config x' = x_config x.
Proof. intros Hx. repeat split; by rewrite Hx. Qed.

Lemma map_ring_acct w0 F M A p fd o n pgoff prod h w m h' w' :
  acct w0 F M A w -> map_socket_ring p fd o n pgoff prod h w = Some (m, h', w') ->
  umems h' = umems h /\ socks h' = socks h /\
  if m =? MAP_FAILED then acct w0 F M A w' else
    acct w0 F (ring_maps p m o n ++ M) A w' /\ (p <> 0 -> mapped_at h' p o m) /\
    forall p', p' <> p -> rings h' !! p' = rings h !! p'.
Proof.
  intros Ha. unfold map_socket_ring, ring_maps. destruct (Z.eqb_spec p 0) as [->|Hp].
  { intros [= <- <- <-]. done. }
  destruct (sys_mmap _ fd pgoff w) as [m1 w1] eqn:E1. eapply acct_mmap in E1; [|exact Ha].
  destruct (Z.eqb_spec m1 MAP_FAILED) as [Hm|Hm].
  { intros [= <- <- <-]. by rewrite (proj2 (Z.eqb_eq _ _) Hm). }
  destruct (store_ring p _ h) as [h1|] eqn:Es; [|done]. cbn [mbind option_bind]. intros [= <- <- <-].
  rewrite (proj2 (Z.eqb_neq _ _) Hm). apply store_ring_spec in Es as (r & Hr & ->).
  split; [done|]. split; [done|]. split; [done|]. split.
  - intros _. eexists. cbn [rings set_rings]. by rewrite lookup_insert_eq.
  - intros p' Hp'. cbn [rings set_rings]. by rewrite lookup_insert_ne.
Qed.

Lemma unmap_ring_acct w0 F M A p m o n w :
  acct w0 F (ring_maps p m o n ++ M) A w -> acct w0 F M A (unmap_socket_ring p m o n w).
Proof. unfold ring_maps, unmap_socket_ring. destruct (p =? 0); [done|]. apply acct_munmap. Qed.

Lemma bind_socket_acct w0 F M A x h w r :
  one_map -> acct w0 F M A w -> xsk_bind_socket agains x h w = Some r ->
  let '(failed, x', w') := r in
  match failed with
  | Some _ => acct w0 F M A w'
  | None => but_prog x x' /\ acct w0 (xdp_fds x' ++ F) M A w'
  end.
Proof.
  intros Hone Ha. unfold xsk_bind_socket. destruct (umems h !! x_umem x) as [u|]; [|done].
  cbn [mbind option_bind]. destruct (sys_bind_xdp _ _ w) as [e w1] eqn:E1. apply bind_quiet in E1.
  eapply acct_quiet in Ha; [|exact E1].
  destruct (negb (e =? 0)); [by intros [= <-]|].
  destruct (inhibits _); [by intros [= <-]; split|].
  destruct (xsk_setup_xdp_prog _ _ w1) as [[[e2 x2] w2]|] eqn:E2; [|done]. cbn [mbind option_bind].
  intros [= <-].
  eapply setup_prog_acct in E2 as [[He Ha2]|(-> & pfd & mfd & Hp & Hm & -> & Ha2)]; [| |done|exact Ha].
  - by rewrite (proj2 (Z.eqb_neq _ _) He).
  - cbn [Z.eqb]. split; [done|]. unfold xdp_fds. cbn [x_prog_fd xsks_map_fd set_prog_fd set_xsks_map_fd].
    by rewrite (proj2 (Z.eqb_neq pfd (-1))) by lia.
Qed.

(** A socket being made on the area [u]: its own descriptor when it is not the first,
    the count one higher. *)
Definition socket_fd (u : xsk_umem) (fd : Z) : list Z := if refcount u =? 0 then [] else [fd].
Definition counted (um : gmap Z xsk_umem) (p : Z) (u : xsk_umem) h : Prop :=
  um !! p = Some u /\ 0 <= refcount u < 2 ^ 31 - 1 /\
  umems h = <[p := set_refcount (refcount u + 1) u]> um.

Lemma set_refcount_back n u : set_refcount (refcount u) (set_refcount n u) = u.
Proof. by destruct u. Qed.

Lemma socket_fails_acct w0 F M A err um p u xsk fd h w r :
  counted um p u h -> acct w0 (socket_fd u fd ++ F) M (xsk :: A) w ->
  socket_fails err p xsk fd h w = Some r ->
  exists h' w', r = (err, None, h', w') /\ acct w0 F M A w' /\ umems h' = um /\ socks h' = socks h.
Proof.
  intros (Hu & Hn & Hh) Ha. unfold socket_fails, put_refcount.
  rewrite Hh, lookup_insert_eq. cbn [mbind option_bind refcount set_refcount].
  rewrite sub32_eq by lia. cbn [mbind option_bind]. intros [= <-]. eexists _, _. split; [done|].
  rewrite Z.add_simpl_r. unfold socket_fd in Ha. split; [|split; [|done]].
  - apply acct_free. destruct (refcount u =? 0); [done|].
    destruct (sys_close fd w) as [c w1] eqn:Ec. by eapply acct_close.
  - cbn [umems set_umem]. rewrite Hh, insert_insert_eq, set_refcount_back. by apply insert_id.
Qed.

Lemma set_size_quiet p fd o w e w' : set_ring_size p fd o w = (e, w') -> quiet w w'.
Proof. unfold set_ring_size. destruct (p =? 0); [by intros [= _ <-]|]. apply setsockopt_quiet. Qed.

(** What the creation of a socket may answer. *)
Definition socket_outcome w0 F M A (um : gmap Z xsk_umem) (umem : Z) (u : xsk_umem) (xsk fd rx tx : Z) h
    (r : Z * option Z * heap * W) : Prop :=
  let '(ret, stored, h', w') := r in
  (exists x off m1 m2 v v' fd', ret = 0 /\ stored = Some xsk /\ x_umem x = umem /\ x_fd x = fd /\
     x_rx x = rx /\ x_tx x = tx /\ counted um umem u h' /\ socks h' = <[xsk := x]> (socks h) /\
     xsk_get_mmap_offsets fd' v = Some (inr off, v') /\
     (rx <> tx -> (rx <> 0 -> mapped_at h' rx (of_rx off) m1) /\ (tx <> 0 -> mapped_at h' tx (of_tx off) m2)) /\
     acct w0 (xdp_fds x ++ socket_fd u fd ++ F)
       (ring_maps tx m2 (of_tx off) (tx_size (x_config x)) ++
        ring_maps rx m1 (of_rx off) (rx_size (x_config x)) ++ M) (xsk :: A) w') \/
  (stored = None /\ acct w0 F M A w' /\ umems h' = um /\ socks h' = socks h).

Lemma counted_same um p u h h' : counted um p u h -> umems h' = umems h -> counted um p u h'.
Proof. unfold counted. by intros (? & ? & ?) ->. Qed.

Lemma fails_outcome w0 F M A um umem u xsk fd rx tx err h h' w r :
  counted um umem u h' -> socks h' = socks h -> acct w0 (socket_fd u fd ++ F) M (xsk :: A) w ->
  socket_fails err umem xsk fd h' w = Some r -> socket_outcome w0 F M A um umem u xsk fd rx tx h r.
Proof.
  intros Hc Hs Ha Hr. destruct (socket_fails_acct _ _ _ _ _ _ _ _ _ _ _ _ _ Hc Ha Hr) as (h2 & w2 & -> & Ha2 & Hu & Hs2).
  right. split; [done|]. split; [done|]. split; [done|]. congruence.
Qed.

Lemma socket_rings_outcome w0 F M A um u xsk x h w r :
  one_map -> counted um (x_umem x) u h -> acct w0 (socket_fd u (x_fd x) ++ F) M (xsk :: A) w ->
  xsk_socket_rings agains xsk x h w = Some r ->
  socket_outcome w0 F M A um (x_umem x) u xsk (x_fd x) (x_rx x) (x_tx x) h r.
Proof.
  intros Hone Hc Ha. unfold xsk_socket_rings.
  destruct (set_ring_size (x_rx x) _ _ w) as [e1 w1] eqn:E1. apply set_size_quiet in E1.
  eapply acct_quiet in Ha; [|exact E1]. destruct (negb (e1 =? 0)); [by apply fails_outcome|].
  destruct (set_ring_size (x_tx x) _ _ w1) as [e2 w2] eqn:E2. apply set_size_quiet in E2.
  eapply acct_quiet in Ha; [|exact E2]. destruct (negb (e2 =? 0)); [by apply fails_outcome|].
  destruct (xsk_get_mmap_offsets _ w2) as [[off w3]|] eqn:E3; [|done]. cbn [mbind option_bind].
  apply get_offsets_quiet in E3 as Hq. eapply acct_quiet in Ha; [|exact Hq].
  destruct off as [e|off]; [by apply fails_outcome|].
  destruct (map_socket_ring (x_rx x) _ _ _ _ _ h w3) as [[[m1 h1] w4]|] eqn:E4; [|done]. cbn [mbind option_bind].
  eapply map_ring_acct in E4 as (Hu1 & Hs1 & Hr4); [|exact Ha].
  pose proof (counted_same _ _ _ _ _ Hc Hu1) as Hc1.
  destruct (m1 =? MAP_FAILED); [by apply fails_outcome|]. destruct Hr4 as (Ha4 & Hm1 & _).
  destruct (map_socket_ring (x_tx x) _ _ _ _ _ h1 w4) as [[[m2 h2] w5]|] eqn:E5; [|done]. cbn [mbind option_bind].
  eapply map_ring_acct in E5 as (Hu2 & Hs2 & Hr5); [|exact Ha4].
  pose proof (counted_same _ _ _ _ _ Hc1 Hu2) as Hc2. rewrite Hs1 in Hs2.
  destruct (m2 =? MAP_FAILED).
  { apply fails_outcome; [done|done|]. by apply unmap_ring_acct. }
  destruct Hr5 as (Ha5 & Hm2 & Hk2).
  destruct (xsk_bind_socket _ x h2 w5) as [[[failed x2] w6]|] eqn:E6; [|done]. cbn [mbind option_bind].
  eapply bind_socket_acct in E6; [|done|exact Ha5].
  destruct failed as [err|].
  { apply fails_outcome; [done|done|]. by apply unmap_ring_acct, unmap_ring_acct. }
  destruct E6 as [(Eu & Ef & Er & Et & Ec)%but_prog_fields Ha6]. intros [= <-]. left.
  exists x2, off, m1, m2, w2, w3, (x_fd x). rewrite Ec.
  split; [done|]. split; [done|]. repeat (split; [done|]). split; [by rewrite <- Hs2|]. split; [done|].
  split; [|done]. intros Hne. split; [|done]. intros Hrx. destruct (Hm1 Hrx) as (rr & Hrr & Hsl). exists rr.
  split; [|done]. rewrite <- Hrr. by apply Hk2.
Qed.

Lemma socket_create_outcome w0 F M A xsk_ptr ifname queue_id umem rx tx cfg h w u ret stored h1 w1 :
  one_map -> umems h !! umem = Some u -> 0 <= refcount u < 2 ^ 31 - 1 -> acct w0 F M A w ->
  xsk_socket__create agains xsk_ptr ifname queue_id umem rx tx cfg h w = Some (ret, stored, h1, w1) ->
  (exists xsk fd, xsk <> 0 /\ (if refcount u =? 0 then fd = u_fd u else fd ∉ opened w) /\
     socket_outcome w0 F M A (umems h) umem u xsk fd rx tx h (ret, stored, h1, w1)) \/
  (stored = None /\ acct w0 F M A w1 /\ socks h1 = socks h /\
   (umems h1 = umems h \/
    refcount u <> 0 /\ umems h1 = <[umem := set_refcount (refcount u + 1) u]> (umems h))).
Proof.
  intros Hone Hu Hn Ha. unfold xsk_socket__create.
  destruct (_ || _ || _); [intros [= _ <- <- <-]; right; repeat (split; [done|]); by left|].
  destruct (sys_calloc w) as [xsk w2] eqn:E1. apply calloc_spec in E1 as Hcal.
  apply (acct_calloc _ _ _ _ _ _ _ Ha) in E1.
  destruct (Z.eqb_spec xsk 0) as [Hx|Hx]; [intros [= _ <- <- <-]; right; repeat (split; [done|]); by left|].
  destruct (xsk_set_xdp_socket_config cfg) as [e|config].
  { intros [= _ <- <- <-]. right. split; [done|]. split; [by apply acct_free|]. by split; [|left]. }
  rewrite Hu. cbn [mbind option_bind].
  destruct (_ && _). { intros [= _ <- <- <-]. right. split; [done|]. split; [by apply acct_free|]. by split; [|left]. }
  rewrite add32_eq by lia. unfold put_refcount at 1. rewrite Hu. cbn [mbind option_bind].
  set (h2 := set_umem umem (set_refcount (refcount u + 1) u) h).
  assert (counted (umems h) umem u h2) as Hc by done.
  destruct (if 0 <? refcount u then sys_socket_xdp w2 else (u_fd u, w2)) as [fd w3] eqn:E2.
  assert (if (0 <? refcount u) && (fd <? 0) then acct w0 F M (xsk :: A) w3 /\ refcount u <> 0 else
    (if refcount u =? 0 then fd = u_fd u else fd ∉ opened w) /\
    acct w0 (socket_fd u fd ++ F) M (xsk :: A) w3) as Hfd.
  { revert E2. unfold socket_fd. destruct (Z.ltb_spec 0 (refcount u)) as [Hlt|Hge]; cbn [andb].
    - intros [Ho Hr]%socket_xdp_opens. destruct (Z.ltb_spec fd 0) as [Hneg|Hpos].
      + split; [by eapply acct_refused|lia].
      + rewrite (proj2 (Z.eqb_neq (refcount u) 0)) by lia. split; [|by eapply acct_opened].
        unfold opens in Ho. rewrite (proj2 (Z.ltb_ge _ _)) in Ho by done. destruct Hcal as (<- & _). apply Ho.
    - intros [= <- <-]. by rewrite (proj2 (Z.eqb_eq (refcount u) 0)) by lia. }
  destruct (_ && _).
  { destruct Hfd as [Ha3 Hn0]. intros [= _ <- <- <-]. right. split; [done|].
    split; [by apply acct_free|]. split; [done|]. by right. }
  destruct Hfd as [Hfd Ha3].
  destruct (if_nametoindex ifname w3) as [ifi w4] eqn:E4. apply ifindex_quiet in E4.
  eapply acct_quiet in Ha3; [|exact E4].
  destruct (ifi =? 0).
  { intros Hf. left. exists xsk, fd. split; [done|]. split; [done|]. by eapply fails_outcome. }
  destruct (_ <? _)%nat; [done|]. intros Hf. left. exists xsk, fd. split; [done|]. split; [done|].
  by eapply socket_rings_outcome in Hf.
Qed.

(** A mapped ring given back. *)
Lemma unmap_mapped w0 F M A h p m o n w :
  acct w0 F (ring_maps p m o n ++ M) A w -> (p <> 0 -> mapped_at h p o m) ->
  exists w', (if p =? 0 then Some w else
    r ← rings h !! p; Some (sys_munmap (r_slots r - o_desc o) (ring_bytes o n sizeof_xdp_desc) w)) = Some w' /\
    acct w0 F M A w'.
Proof.
  intros Ha Hm. unfold ring_maps in Ha. destruct (Z.eqb_spec p 0) as [|Hp]; [by exists w|].
  destruct (Hm Hp) as (r & Hr & Es). rewrite Hr. cbn [mbind option_bind]. rewrite Es, Z.add_simpl_r.
  eexists. split; [done|]. by apply acct_munmap.
Qed.

Lemma socket_delete_releases w0 F M A um umem u xsk x off m1 m2 h w :
  counted um umem u h -> socks h !! xsk = Some x -> xsk <> 0 -> x_umem x = umem ->
  (if refcount u =? 0 then x_fd x = u_fd u else x_fd x <> u_fd u) ->
  (x_rx x <> 0 -> mapped_at h (x_rx x) (of_rx off) m1) -> (x_tx x <> 0 -> mapped_at h (x_tx x) (of_tx off) m2) ->
  (forall v, exists v', xsk_get_mmap_offsets (x_fd x) v = Some (inr off, v')) ->
  acct w0 (xdp_fds x ++ socket_fd u (x_fd x) ++ F)
    (ring_maps (x_tx x) m2 (of_tx off) (tx_size (x_config x)) ++
     ring_maps (x_rx x) m1 (of_rx off) (rx_size (x_config x)) ++ M) (xsk :: A) w ->
  exists h' w', xsk_socket__delete xsk h w = Some (h', w') /\ acct w0 F M A w' /\
    umems h' = um /\ socks h' = delete xsk (socks h).
Proof.
  intros (Hu & Hn & Hh) Hx Hp Hum Hfd Hrx Htx Hoff Ha. unfold xsk_socket__delete.
  rewrite (proj2 (Z.eqb_neq _ _) Hp), Hx. cbn [mbind option_bind].
  set (w1 := if x_prog_fd x =? -1 then w else _).
  assert (acct w0 (socket_fd u (x_fd x) ++ F)
    (ring_maps (x_rx x) m1 (of_rx off) (rx_size (x_config x)) ++
     ring_maps (x_tx x) m2 (of_tx off) (tx_size (x_config x)) ++ M) (xsk :: A) w1) as Ha1.
  { eapply acct_perm; [reflexivity|apply Permutation_app_swap_app|].
    unfold w1, xdp_fds in *. destruct (x_prog_fd x =? -1); [done|].
    destruct (sys_close (x_prog_fd x) _) as [c w2] eqn:E2. cbn [snd]. eapply acct_close; [|exact E2].
    apply delete_maps_acct. eapply acct_perm; [apply perm_swap|reflexivity|exact Ha]. }
  destruct (Hoff w1) as (w2 & E2). rewrite E2. cbn [mbind option_bind].
  apply get_offsets_quiet in E2. eapply acct_quiet in Ha1; [|exact E2].
  destruct (unmap_mapped _ _ _ _ h _ _ _ _ _ Ha1 Hrx) as (w3 & -> & Ha3). cbn [mbind option_bind].
  destruct (unmap_mapped _ _ _ _ h _ _ _ _ _ Ha3 Htx) as (w4 & -> & Ha4). cbn [mbind option_bind].
  unfold put_refcount. rewrite Hum, Hh, lookup_insert_eq. cbn [mbind option_bind refcount set_refcount u_fd].
  rewrite sub32_eq by lia. cbn [mbind option_bind]. rewrite Z.add_simpl_r.
  eexists _, _. split; [done|]. split; [|split; [|done]].
  - apply acct_free. unfold socket_fd in Ha4. destruct (refcount u =? 0).
    + by rewrite Hfd, Z.eqb_refl.
    + rewrite (proj2 (Z.eqb_neq _ _) Hfd). destruct (sys_close (x_fd x) w4) as [c w5] eqn:E5. by eapply acct_close.
  - cbn [umems set_umem]. rewrite Hh, insert_insert_eq, set_refcount_back. by apply insert_id.
Qed.

(** C13. Making a socket on a user memory area and deleting it again leaves the
    descriptors, mappings, memory and areas of the process as they were, whether
    libbpf sets up its program or finds one, and whether the area is shared; a failure
    leaves them so at once, except that an area whose second socket cannot be opened
    stays counted as in use.  The area has its descriptor open and fewer than 2^31 - 1
    users, the rings are two, a program in place has one map of sockets at most
    ([one_map]), and the offsets of the rings can be read when the socket is deleted.
    Nothing is said of the program attached to the device, which may stay. *)
Theorem socket_lifecycle xsk_ptr ifname queue_id umem rx tx cfg h w u ret stored h1 w1 :
  one_map -> umems h !! umem = Some u -> 0 <= refcount u < 2 ^ 31 - 1 -> u_fd u ∈ opened w -> rx <> tx ->
  xsk_socket__create agains xsk_ptr ifname queue_id umem rx tx cfg h w = Some (ret, stored, h1, w1) ->
  match stored with
  | None => opened w1 = opened w /\ mappings w1 = mappings w /\ allocated w1 = allocated w /\
      socks h1 = socks h /\
      (umems h1 = umems h \/
       refcount u <> 0 /\ umems h1 = <[umem := set_refcount (refcount u + 1) u]> (umems h))
  | Some p => ret = 0 /\ forall fd off, xsk_socket__fd h1 p = Some fd ->
      (forall v, exists v', xsk_get_mmap_offsets fd v = Some (inr off, v')) ->
      exists h2 w2, xsk_socket__delete p h1 w1 = Some (h2, w2) /\
        opened w2 = opened w /\ mappings w2 = mappings w /\ allocated w2 = allocated w /\
        umems h2 = umems h /\ socks h2 = delete p (socks h)
  end.
Proof.
  intros Hone Hu Hn Hopen Hne Hc.
  apply (socket_create_outcome w [] [] []) with (u := u) in Hc; [|done..|apply acct_start].
  destruct Hc as [(xsk & fd & Hp & Hfd & [(x & off & m1 & m2 & v & v' & fd' & -> & -> & Eu & Ef & Er & Et & Hc & Hs & Ho & Hm & Ha)|
                    (-> & Ha & Hum & Hs)])|(-> & Ha & Hs & Hum)].
  - split; [done|]. intros fd1 off1 Hfd1 Hoff1.
    assert (socks h1 !! xsk = Some x) as Hx by (by rewrite Hs, lookup_insert_eq).
    assert (fd1 = fd) as ->.
    { revert Hfd1. unfold xsk_socket__fd. rewrite (proj2 (Z.eqb_neq _ _) Hp), Hx. cbn. congruence. }
    destruct (Hoff1 v) as (v1 & Hv1). rewrite (get_offsets_same _ _ _ _ _ _ _ _ Hv1 Ho) in Hoff1.
    destruct (Hm Hne) as [Hm1 Hm2]. subst fd rx tx.
    destruct (socket_delete_releases w [] [] [] (umems h) umem u xsk x off m1 m2 h1 w1)
      as (h2 & w2 & Hd & Ha2 & Hum2 & Hs2); [done..| |done|done|done|done|].
    { destruct (refcount u =? 0); [done|]. by intros E; rewrite E in Hfd. }
    exists h2, w2. apply acct_nothing in Ha2 as (? & ? & ?). repeat (split; [done|]).
    by rewrite Hs2, Hs, delete_insert_eq.
  - apply acct_nothing in Ha as (? & ? & ?). repeat (split; [done|]). by left.
  - apply acct_nothing in Ha as (? & ? & ?). done.
Qed.
End Accounts.
