(* ===== verification/XskExamples.v ===== *)
(** * AF_XDP sockets, on a concrete kernel

    A kernel that meets the laws of [XskFds], the functions of [XskSocket] run on it,
    and the calls that leave something behind or report a failure as success. *)

From S2P Require Import Prelude BpfMap BpfCalls BpfObject XdpLink Packet XskRing BpfLoad LoadFds.
From S2P Require Import LoadExamples XskProg XskSocket XskFds.
From Stdlib Require Import Ascii String.
From stdpp Require Import list.

Local Open Scope Z_scope.

Module XskExamples.

#[local] Existing Instances LoadExamples.kern_calls LoadExamples.kern_sys LoadExamples.kern_laws.

(** ** A kernel

    What does not change: the answer to XDP_MMAP_OFFSETS and the maps of the programs. *)
Class Plan := { layout : Z * list Z; prog_maps : list Z }.

(** Descriptors, mappings, memory, the program of the interface; how many mappings
    and sockets are still granted, whether maps can be written. *)
Record xkern := XKern {
  base : LoadExamples.kern; maps : list (Z * Z); mem : list Z; link : Z;
  mmaps : nat; sockets : nat; writable : bool;
}.

Definition set_base (k : LoadExamples.kern) (w : xkern) : xkern :=
  XKern k (maps w) (mem w) (link w) (mmaps w) (sockets w) (writable w).
Definition lift {A} (f : LoadExamples.kern -> A * LoadExamples.kern) (w : xkern) : A * xkern :=
  let '(a, k) := f (base w) in (a, set_base k w).

#[export] Instance x_calls : BpfKern xkern := {
  errno w := errno (base w);
  sys_map_create a := lift (sys_map_create a);
  sys_prog_load a := lift (sys_prog_load a);
  sys_elem c a w := if writable w then lift (sys_elem c a) w
                    else let '(r, w) := lift (LoadExamples.fail 7) w in (r, None, w);
  sys_map_freeze fd := lift (sys_map_freeze fd);
  sys_obj_pin p fd := lift (sys_obj_pin p fd);
  sys_obj_get p := lift (sys_obj_get p);
  sys_prog_attach a := lift (sys_prog_attach a);
  sys_prog_detach a := lift (sys_prog_detach a);
  sys_prog_query q := lift (sys_prog_query q);
  sys_prog_test_run t := lift (sys_prog_test_run t);
  sys_get_next_id c id := lift (sys_get_next_id c id);
  sys_get_fd_by_id c id := lift (sys_get_fd_by_id c id);
  sys_obj_get_info_by_fd fd n := lift (sys_obj_get_info_by_fd fd n);
  sys_raw_tracepoint_open n fd := lift (sys_raw_tracepoint_open n fd);
  sys_btf_load a := lift (sys_btf_load a);
  sys_task_fd_query t := lift (sys_task_fd_query t);
}.

#[export] Instance x_sys : BpfSys xkern := {
  bpf_obj_get p := lift (BpfObject.bpf_obj_get p);
  bpf_obj_pin fd p := lift (BpfObject.bpf_obj_pin fd p);
  sys_unlink p := lift (sys_unlink p);
  sys_mkdir p := lift (sys_mkdir p);
  sys_statfs p w := sys_statfs p (base w);
  obj_info fd w := inr (MapInfo "xsks_map"%string (MapDef 4 4 4 1024 0));
  sys_open_root := lift sys_open_root;
  sys_dup3 o n := lift (sys_dup3 o n);
  sys_close fd := lift (sys_close fd);
  object_open f w := (None, w);
  kernel_load o := lift (kernel_load o);
}.

#[export] Instance x_link : LinkSys xkern := {
  bpf_set_link_xdp_fd i fd fl w :=
    (0, XKern (base w) (maps w) (mem w) (fd + 100) (mmaps w) (sockets w) (writable w));
  bpf_get_link_xdp_id i fl w := (0, link w);
}.

Definition next (l : list Z) : Z := foldr Z.max 0 l + 4096.

Definition grant_map (n : Z) (w : xkern) : Z * xkern :=
  match mmaps w with
  | O => let '(_, w) := lift (LoadExamples.fail 12) w in (MAP_FAILED, w)
  | S k => (next (fst <$> maps w), XKern (base w) ((next (fst <$> maps w), n) :: maps w) (mem w) (link w) k
              (sockets w) (writable w))
  end.

Definition grant_socket (w : xkern) : Z * xkern :=
  match sockets w with
  | O => lift (LoadExamples.fail 24) w
  | S k => lift LoadExamples.open_fd (XKern (base w) (maps w) (mem w) (link w) (mmaps w) k (writable w))
  end.

#[export] Instance x_xsk `{Plan} : XskSys xkern := {
  sys_calloc w := (next (mem w), XKern (base w) (maps w) (next (mem w) :: mem w) (link w) (mmaps w) (sockets w) (writable w));
  sys_free p w := XKern (base w) (maps w) (filter (fun x => x <> p) (mem w)) (link w) (mmaps w) (sockets w) (writable w);
  getpagesize := 4096;
  sys_socket_xdp := grant_socket;
  sys_socket_inet := lift LoadExamples.open_fd;
  sys_setsockopt_xdp fd o w := (0, w);
  sys_mmap_offsets fd w := (0, fst layout, snd layout, w);
  sys_mmap n fd o w := grant_map n w;
  sys_munmap m n w := XKern (base w) (filter (fun x => x <> (m, n)) (maps w)) (mem w) (link w) (mmaps w) (sockets w) (writable w);
  sys_bind_xdp fd a w := (0, w);
  if_nametoindex nm w := (2, w);
  sys_ethtool_channels fd nm w := (0, 4, w);
  sys_prog_map_ids fd k w := (0, Z.of_nat (List.length prog_maps), take (Z.to_nat k) prog_maps, w);
}.

(** The mappings and memory there are: none at negative addresses, none at NULL. *)
Definition map_set (w : xkern) : gset (Z * Z) := list_to_set (filter (fun x => 0 <= fst x) (maps w)).
Definition mem_set (w : xkern) : gset Z := list_to_set (filter (fun x => x <> 0) (mem w)).

Lemma lift_inv {A} (f : LoadExamples.kern -> A * LoadExamples.kern) w a w' :
  lift f w = (a, w') -> f (base w) = (a, base w') /\ w' = set_base (base w') w.
Proof. unfold lift. destruct (f (base w)) as [b k]. by intros [= <- <-]. Qed.

Lemma next_fresh l : 0 < next l /\ next l ∉ l.
Proof.
  unfold next. assert (0 <= foldr Z.max 0 l /\ forall x, x ∈ l -> x <= foldr Z.max 0 l) as [? Hmax].
  { induction l as [|x l [IH1 IH2]]; cbn; [split; [lia|by intros x ?%elem_of_nil]|].
    split; [lia|]. intros y [->|Hy]%elem_of_cons; [lia|]. specialize (IH2 _ Hy). lia. }
  split; [lia|]. intros Hin%Hmax. lia.
Qed.

#[local] Arguments lift : simpl never.

(** Every lifted call keeps the rest. *)
Lemma lift_rest {A} (f : LoadExamples.kern -> A * LoadExamples.kern) w a w' :
  lift f w = (a, w') -> maps w' = maps w /\ mem w' = mem w.
Proof. intros [_ ->]%lift_inv. done. Qed.

Lemma open_lifted w fd w' : lift LoadExamples.open_fd w = (fd, w') ->
  opens fd (LoadExamples.open_set (base w)) (LoadExamples.open_set (base w')).
Proof. intros [E _]%lift_inv. by apply LoadExamples.open_opens_eq. Qed.

Lemma fail_lifted e w r w' : lift (LoadExamples.fail e) w = (r, w') ->
  r = -1 /\ LoadExamples.fds (base w') = LoadExamples.fds (base w) /\ maps w' = maps w /\ mem w' = mem w.
Proof. unfold lift. cbn. by intros [= <- <-]. Qed.

Lemma fds_open_set w w' : LoadExamples.fds (base w') = LoadExamples.fds (base w) ->
  LoadExamples.open_set (base w') = LoadExamples.open_set (base w).
Proof. unfold LoadExamples.open_set. by intros ->. Qed.

#[export] Instance x_fd_laws : FdLaws xkern.
Proof.
  refine {| opened w := LoadExamples.open_set (base w) |}.
  - intros a w fd w' [E _]%lift_inv. exact (map_create_opens _ _ _ _ E).
  - intros a w fd r w' [E _]%lift_inv. exact (prog_load_opens _ _ _ _ _ E).
  - intros p w fd w' [E _]%lift_inv. exact (obj_get_opens _ _ _ _ E).
  - intros w fd w' [E _]%lift_inv. exact (open_root_opens _ _ _ E).
  - intros o n w fd w' [E _]%lift_inv. exact (dup3_opens _ _ _ _ _ E).
  - intros fd w r w' [E _]%lift_inv. exact (close_closes _ _ _ _ E).
  - intros c a w r v w'. cbn. destruct (writable w).
    + intros [E _]%lift_inv. exact (elem_keeps c a _ _ _ _ E).
    + destruct (lift _ w) as [e w1] eqn:E. apply fail_lifted in E as (_ & E & _).
      intros [= _ _ <-]. by apply fds_open_set.
  - intros fd w r w' [E _]%lift_inv. exact (freeze_keeps _ _ _ _ E).
  - intros p w r w' [E _]%lift_inv. exact (unlink_keeps _ _ _ _ E).
Defined.

Lemma map_set_add m n w l : 0 <= m -> maps w = (m, n) :: l ->
  map_set w = {[(m, n)]} ∪ list_to_set (filter (fun x => 0 <= fst x) l).
Proof. intros Hm E. unfold map_set. by rewrite E, filter_cons_True. Qed.

#[export] Instance x_laws `{Plan} : XskLaws xkern.
Proof.
  refine {| mappings := map_set; allocated := mem_set |}; unfold map_set, mem_set.
  - intros c id w fd w' E. by apply open_lifted.
  - by intros i fd fl w r w' [= _ <-].
  - intros a w fd w' [-> ->]%lift_rest. done.
  - intros a w fd r w' [-> ->]%lift_rest. done.
  - intros c a w r v w'. cbn. destruct (writable w).
    + by intros [-> ->]%lift_rest.
    + destruct (lift _ w) as [e w1] eqn:E. apply fail_lifted in E as (_ & _ & Em & Ea).
      intros [= _ _ <-]. by rewrite Em, Ea.
  - intros c id w fd w' E Hneg. apply lift_inv in E as [[= <- _] _].
    destruct (LoadExamples.next_fd_fresh (base w)). lia.
  - intros c id w fd w' [-> ->]%lift_rest. done.
  - intros fd w r w' [-> ->]%lift_rest. done.
  - by intros i fd fl w r w' [= _ <-].
  - intros w fd w'. cbn. unfold grant_socket. destruct (sockets w).
    + intros (-> & Hf & -> & ->)%fail_lifted. split; [by apply fds_open_set|done].
    + intros E. split; [by apply open_lifted in E|]. by apply lift_rest in E as [-> ->].
  - intros w fd w' E. split; [by apply open_lifted|]. by apply lift_rest in E as [-> ->].
  - by intros fd o w r w' [= _ <-].
  - by intros fd w r n ws w' [= _ _ _ <-].
  - by intros fd a w r w' [= _ <-].
  - by intros nm w r w' [= _ <-].
  - by intros fd nm w r n w' [= _ _ <-].
  - by intros fd k w r n ids w' [= _ _ _ <-].
  - intros w p w' [= <- <-]. split; [done|]. split; [done|]. right. destruct (next_fresh (mem w)) as [? Hf].
    split; [lia|]. cbn [mem]. rewrite filter_cons_True by lia.
    split; [by rewrite elem_of_list_to_set, list_elem_of_filter; intros [_ ?]|done].
  - intros p w. split; [done|]. split; [done|]. cbn. apply set_eq. intros x.
    rewrite elem_of_difference, elem_of_singleton, !elem_of_list_to_set, !list_elem_of_filter. intuition.
  - intros n fd o w m w'. cbn. unfold grant_map. destruct (mmaps w).
    + destruct (lift _ w) as [e w1] eqn:E. apply fail_lifted in E as (_ & Hf & Em & Ea). intros [= <- <-].
      split; [by apply fds_open_set|]. split; [by rewrite Ea|]. left. by rewrite Em.
    + intros [= <- <-]. destruct (next_fresh (fst <$> maps w)) as [Hpos Hf].
      split; [done|]. split; [done|]. right. split; [unfold MAP_FAILED; lia|]. split.
      * rewrite elem_of_list_to_set, list_elem_of_filter. intros [_ Hin]. apply Hf.
        by apply (list_elem_of_fmap_2 fst) in Hin.
      * cbn [maps]. rewrite filter_cons_True by (cbn; lia). done.
  - intros m n w. split; [done|]. split; [done|]. cbn. apply set_eq. intros x.
    rewrite elem_of_difference, elem_of_singleton, !elem_of_list_to_set, !list_elem_of_filter. intuition.
  - intros n w. rewrite elem_of_list_to_set, list_elem_of_filter. intros [Hle _]. by cbn in Hle.
  - by intros fd w n ws w' fd2 v n2 ws2 v' [= <- <- _] [= <- <- _].
Defined.

(** ** Runs *)

Definition words : list Z := [0; 64; 320; 4; 0; 64; 320; 4; 0; 64; 320; 4; 0; 64; 320; 4].
Definition words_v1 : list Z := [0; 64; 320; 0; 64; 320; 0; 64; 320; 0; 64; 320].
Definition plan_of (n : Z) (ws ids : list Z) : Plan := {| layout := (n, ws); prog_maps := ids |}.
#[export] Instance plan : Plan := plan_of 128 words [11].
#[local] Existing Instance LoadExamples.kern_patient.
#[export] Instance little : HostOrder := LittleEndian.

Definition fresh_kern : LoadExamples.kern := LoadExamples.Kern [] 0 false 0.
Definition host (id : Z) (mmaps sockets : nat) (writable : bool) : xkern :=
  XKern fresh_kern [] [] id mmaps sockets writable.
Definition w0 : xkern := host 0 9 9 true.

(** The caller's rings: 1 and 2 for the area, 3 and 4 for a socket. *)
Definition a_ring : xring := XRing (Ring 0 0 0 0) 0 0 0 0.
Definition h0 : heap := Heap {[ 1 := a_ring; 2 := a_ring; 3 := a_ring; 4 := a_ring ]} ∅ ∅.

Definition create_umem `{Plan} (cfg : option umem_config) (w : xkern) :=
  xsk_umem__create_v0_0_4 1 4096 65536 1 2 cfg h0 w.

(** The area made on the first kernel: what is open, mapped and allocated. *)
Definition made : option (Z * option Z * heap * xkern) := create_umem None w0.
Definition area : heap := match made with Some (_, _, h, _) => h | None => h0 end.
Definition w1 : xkern := match made with Some (_, _, _, w) => w | None => w0 end.
Definition u0 : xsk_umem := Umem 1 2 4096 (xsk_set_umem_config None) 3 0.

Example area_made :
  (fst <$> (fst <$> made)) = Some (0, Some 4096) /\ umems area !! 4096 = Some u0 /\
  LoadExamples.fds (base w1) = [3] /\ List.length (maps w1) = 2%nat /\ mem w1 = [4096].
Proof. vm_compute. repeat split. Qed.

Definition eth0 : list Z := [101; 116; 104; 48; 0; 0; 0; 0; 0; 0; 0; 0; 0; 0; 0; 0].
Definition create_socket `{Plan} (cfg : option socket_config) (h : heap) (w : xkern) :=
  xsk_socket__create 2 1 eth0 0 4096 3 4 cfg h w.

(** On no program, libbpf's own: its descriptor and its map's are open. *)
Example socket_made :
  option_map (fun '(ret, p, h, w) => (ret, p, LoadExamples.fds (base w), link w,
      x_prog_fd <$> socks h !! 8192, refcount <$> umems h !! 4096))
    (create_socket None area w1) =
  Some (0, Some 8192, [5; 4; 3], 105, Some 5, Some 1).
Proof. vm_compute. done. Qed.

(** On the program of someone else, found by its identifier. *)
Example socket_on_found :
  option_map (fun '(ret, p, h, w) => (ret, p, LoadExamples.fds (base w), link w))
    (create_socket None area (XKern (base w1) (maps w1) (mem w1) 7 9 9 true)) =
  Some (0, Some 8192, [5; 4; 3], 7).
Proof. vm_compute. done. Qed.

Lemma one_map_each : one_map (W := xkern).
Proof. intros fd k w r n ids w' [= _ <- _ _]. vm_compute. discriminate. Qed.

Lemma umem_lifecycle_witness : exists p h w, made = Some (0, Some p, h, w) /\
  forall fd off v, xsk_umem__fd h p = Some fd -> xsk_get_mmap_offsets fd w = Some (inr off, v) ->
    exists h2 w2, xsk_umem__delete p h w = Some (0, h2, w2) /\
      opened w2 = opened w0 /\ mappings w2 = mappings w0 /\ allocated w2 = allocated w0 /\
      umems h2 = delete p (umems h0).
Proof.
  eexists _, _, _. split; [vm_compute; reflexivity|].
  refine (proj2 (umem_lifecycle 1 4096 65536 1 2 None h0 w0 0 (Some _) _ _ _ _)); [discriminate|].
  vm_compute. reflexivity.
Defined.

Lemma socket_lifecycle_witness : exists p h w, create_socket None area w1 = Some (0, Some p, h, w) /\
  forall fd off, xsk_socket__fd h p = Some fd ->
    (forall v, exists v', xsk_get_mmap_offsets fd v = Some (inr off, v')) ->
    exists h2 w2, xsk_socket__delete p h w = Some (h2, w2) /\
      opened w2 = opened w1 /\ mappings w2 = mappings w1 /\ allocated w2 = allocated w1 /\
      umems h2 = umems area /\ socks h2 = delete p (socks area).
Proof.
  eexists _, _, _. split; [vm_compute; reflexivity|].
  refine (proj2 (socket_lifecycle 2 1 eth0 0 4096 3 4 None area w1 u0 0 (Some _) _ _ _ _ _ _ _ _));
    [exact one_map_each|vm_compute; reflexivity|split; vm_compute; [discriminate|reflexivity]| |discriminate|].
  - apply LoadExamples.elem_of_open_set. split; vm_compute; [discriminate|by left].
  - vm_compute. reflexivity.
Defined.

(** ** What goes wrong *)

(** When the second ring cannot be mapped the first one stays mapped: [munmap] gets
    the address of the failure. *)
Example fill_ring_leaks :
  option_map (fun '(ret, p, _, w) => (ret, p, LoadExamples.fds (base w), List.length (maps w)))
    (create_umem None (host 0 1 9 true)) = Some (-12, None, [], 1%nat).
Proof. vm_compute. done. Qed.

(** On a kernel whose layout is none of the two known, the result is [- errno] of a call
    that did not fail: 0, success, with nothing stored. *)
Example unknown_layout_succeeds :
  option_map (fun '(ret, p, _, _) => (ret, p)) (@create_umem (plan_of 64 [] []) None w0) = Some (0, None).
Proof. vm_compute. done. Qed.

(** The layout of kernels up to 5.3 is read. *)
Example old_layout_succeeds :
  option_map (fun '(ret, p, _, _) => (ret, p)) (@create_umem (plan_of 96 words_v1 []) None w0) =
  Some (0, Some 4096).
Proof. vm_compute. done. Qed.

Definition inhibit : option socket_config := Some (SocketConfig 2048 2048 1 0 0).

(** An area with a socket whose second socket cannot be opened stays in use when the
    first is deleted, and can never be deleted. *)
Example area_stays_in_use :
  ('(_, p, h, w) ← create_socket inhibit area w1;
   '(ret, _, h, w) ← create_socket inhibit h (XKern (base w) (maps w) (mem w) (link w) 9 0 true);
   p ← (p : option Z);
   '(h, w) ← xsk_socket__delete p h w;
   '(ret', h, w) ← xsk_umem__delete 4096 h w;
   Some (ret, ret', socks h !! p)) = Some (-24, - EBUSY, None).
Proof. vm_compute. done. Qed.

(** A name shorter than the 15 bytes copied is read beyond its end. *)
Example short_name_undefined :
  xsk_socket__create 2 1 [108; 111; 0] 0 4096 3 4 None area w1 = None.
Proof. vm_compute. done. Qed.

(** The first version of [xsk_umem__create] reads the configuration NULL stands for. *)
Example default_config_undefined : xsk_umem__create_v0_0_2 1 4096 65536 1 2 None h0 w0 = None.
Proof. done. Qed.

(** When the map cannot be written the socket fails, but its program stays on the
    interface. *)
Example program_stays_attached :
  option_map (fun '(ret, p, _, w) => (ret, p, LoadExamples.fds (base w), link w))
    (create_socket None area (XKern (base w1) (maps w1) (mem w1) 0 9 9 false)) = Some (-1, None, [3], 105).
Proof. vm_compute. done. Qed.

(** With two maps of the name, the descriptor of the first stays open. *)
Example first_map_leaks :
  ('(ret, p, h, w) ← @create_socket (plan_of 128 words [11; 12]) None area
                        (XKern (base w1) (maps w1) (mem w1) 7 9 9 true);
   p ← (p : option Z);
   '(h, w) ← xsk_socket__delete p h w;
   Some (ret, LoadExamples.fds (base w))) = Some (0, [5; 3]).
Proof. vm_compute. done. Qed.
End XskExamples.
