(* ===== verification/LineInfo.v ===== *)
(** * Line information of a loaded program

    Models [libbpf/src/bpf_prog_linfo.c]: the records that tie the instructions of a
    program, translated or compiled, to lines of its source.  A record is a place in
    the bytes copied from the kernel's answer; a result is the offset of a record in
    them.  Memory allocation is taken to succeed. *)

From S2P Require Import Prelude BpfCalls Packet.

Local Open Scope Z_scope.

#[local] Abbreviation bytes := (list Z).

(** [offsetof(struct bpf_line_info, file_name_off)]. *)
Definition off_file_name_off : Z := 4.

(** The fields of [struct bpf_prog_info] that are read, pointers as what they point
    to, NULL as [None]. *)
Record line_prog_info := LineProgInfo {
  nr_line_info : Z; line_info_rec_size : Z; line_info : bytes;
  nr_jited_ksyms : Z; jited_line_info : option bytes; nr_jited_line_info : Z;
  jited_line_info_rec_size : Z; nr_jited_func_lens : Z;
  jited_ksyms : option (list Z); jited_func_lens : option (list Z);
}.

(** [struct bpf_prog_linfo]. *)
Record bpf_prog_linfo := Linfo {
  raw_linfo : bytes; raw_jited_linfo : bytes; nr_jited_linfo_per_func : list Z;
  jited_linfo_func_idx : list Z; nr_linfo : Z; nr_jited_func : Z; rec_size : Z; jited_rec_size : Z;
}.

Definition set_func_idx (l : list Z) (p : bpf_prog_linfo) : bpf_prog_linfo :=
  Linfo (raw_linfo p) (raw_jited_linfo p) (nr_jited_linfo_per_func p) l (nr_linfo p) (nr_jited_func p)
    (rec_size p) (jited_rec_size p).
Definition set_per_func (l : list Z) (p : bpf_prog_linfo) : bpf_prog_linfo :=
  Linfo (raw_linfo p) (raw_jited_linfo p) l (jited_linfo_func_idx p) (nr_linfo p) (nr_jited_func p)
    (rec_size p) (jited_rec_size p).

(** An array access, a write into an array: [None] outside. *)
Definition at_index (l : list Z) (i : Z) : option Z := if i <? 0 then None else l !! Z.to_nat i.
Definition put_index (l : list Z) (i v : Z) : option (list Z) :=
  _ ← at_index l i; Some (<[Z.to_nat i := v]> l).

Section Linfo.
Context `{HostOrder}.

Definition read64 (bs : bytes) (off : nat) : option Z := load <$> read_bytes bs off 8.

(** The address of a compiled record, the instruction of a translated one. *)
Definition jited_at (p : bpf_prog_linfo) (off : Z) : option Z := read64 (raw_jited_linfo p) (Z.to_nat off).
Definition insn_off_at (p : bpf_prog_linfo) (off : Z) : option Z := read32 (raw_linfo p) (Z.to_nat off).

(** The loop of [dissect_jited_func], at record [i] with the address [last] of the one
    before; an error, or the fields and [prev_i] and [f] at its end. *)
Fixpoint dissect_loop (n : nat) (ksym_func ksym_len : list Z) (p : bpf_prog_linfo) (prev_i i f last : Z)
    : option (Z + bpf_prog_linfo * Z * Z) :=
  if negb (f <? nr_jited_func p) then Some (inr (p, prev_i, f)) else
  match n with
  | O => Some (inr (p, prev_i, f))
  | S n =>
      cur ← jited_at p (i * jited_rec_size p);
      kf ← at_index ksym_func f;
      if kf =? cur then
        idx ← put_index (jited_linfo_func_idx p) f i;
        let p := set_func_idx idx p in
        kprev ← at_index ksym_func (f - 1);
        klen ← at_index ksym_len (f - 1);
        if klen <? u64 (last - kprev + 1) then Some (inl (- EINVAL)) else
        per ← put_index (nr_jited_linfo_per_func p) (f - 1) (u32 (i - prev_i));
        dissect_loop n ksym_func ksym_len (set_per_func per p) i (i + 1) (f + 1) cur
      else if cur <=? last then Some (inl (- EINVAL))
      else dissect_loop n ksym_func ksym_len p prev_i (i + 1) f cur
  end.

Definition dissect_jited_func (p : bpf_prog_linfo) (ksym_func ksym_len : list Z)
    : option (Z + bpf_prog_linfo) :=
  first ← jited_at p 0;
  k0 ← at_index ksym_func 0;
  if negb (k0 =? first) then Some (inl (- EINVAL)) else
  idx ← put_index (jited_linfo_func_idx p) 0 0;
  let p := set_func_idx idx p in
  r ← dissect_loop (Z.to_nat (nr_linfo p - 1)) ksym_func ksym_len p 0 1 1 first;
  match r with
  | inl err => Some (inl err)
  | inr (p, prev_i, f) =>
      if negb (f =? nr_jited_func p) then Some (inl (- EINVAL)) else
      per ← put_index (nr_jited_linfo_per_func p) (nr_jited_func p - 1) (u32 (nr_linfo p - prev_i));
      Some (inr (set_per_func per p))
  end.

(** [memcpy] of so many bytes. *)
Definition copied (src : bytes) (n : Z) : option bytes := read_bytes src 0 (Z.to_nat n).

(** NULL is [Some None]; [junk] is what fresh memory holds. *)
Definition bpf_prog_linfo__new (junk : Z) (info : line_prog_info) : option (option bpf_prog_linfo) :=
  let nr_linfo := nr_line_info info in
  if nr_linfo =? 0 then Some None else
  if line_info_rec_size info <? off_file_name_off then Some None else
  raw ← copied (line_info info) (u64 (nr_linfo * line_info_rec_size info));
  let p := Linfo raw [] [] [] nr_linfo 0 (line_info_rec_size info) 0 in
  let nr_func := nr_jited_ksyms info in
  match jited_line_info info, jited_ksyms info, jited_func_lens info with
  | Some jited, Some ksyms, Some lens =>
      if (nr_func =? 0) || negb (nr_jited_line_info info =? nr_linfo) ||
         (jited_line_info_rec_size info <? 8) || negb (nr_jited_func_lens info =? nr_func)
      then Some (Some p) else
      raw_jited ← copied jited (u64 (nr_linfo * jited_line_info_rec_size info));
      let fresh := replicate (Z.to_nat nr_func) junk in
      r ← dissect_jited_func
            (Linfo raw raw_jited fresh fresh nr_linfo nr_func (rec_size p) (jited_line_info_rec_size info))
            ksyms lens;
      match r with inl _ => Some None | inr p => Some (Some p) end
  | _, _, _ => Some (Some p)
  end.

(** The two searches: from a place on, how many records are not past [key]. *)
Fixpoint count_upto (n : nat) (at_off : Z -> option Z) (size key off : Z) (i : nat) : option nat :=
  match n with
  | O => Some i
  | S n =>
      v ← at_off off;
      if key <? v then Some i else count_upto n at_off size key (off + size) (S i)
  end.

(** The result is the offset of a record, NULL is [Some None]. *)
Definition bpf_prog_linfo__lfind_addr_func (p : bpf_prog_linfo) (addr func_idx nr_skip : Z)
    : option (option Z) :=
  if nr_jited_func p <=? func_idx then Some None else
  nr ← at_index (nr_jited_linfo_per_func p) func_idx;
  if nr <=? nr_skip then Some None else
  idx ← at_index (jited_linfo_func_idx p) func_idx;
  let start := u32 (idx + nr_skip) in
  let jited := u32 (start * jited_rec_size p) in
  first ← jited_at p jited;
  if addr <? first then Some None else
  let raw := u32 (start * rec_size p) in
  i ← count_upto (Z.to_nat (nr - nr_skip)) (jited_at p) (jited_rec_size p) addr jited 0;
  Some (Some (raw + Z.of_nat i * rec_size p - rec_size p)).

Definition bpf_prog_linfo__lfind (p : bpf_prog_linfo) (insn_off nr_skip : Z) : option (option Z) :=
  if nr_linfo p <=? nr_skip then Some None else
  let raw := u32 (nr_skip * rec_size p) in
  first ← insn_off_at p raw;
  if insn_off <? first then Some None else
  i ← count_upto (Z.to_nat (nr_linfo p - nr_skip)) (insn_off_at p) (rec_size p) insn_off raw 0;
  Some (Some (raw + Z.of_nat i * rec_size p - rec_size p)).
End Linfo.

(** ** Arrays *)

Lemma at_index_Some l i v : at_index l i = Some v -> 0 <= i < Z.of_nat (length l).
Proof.
  unfold at_index. destruct (Z.ltb_spec i 0); [done|]. intros Hl%lookup_lt_Some. lia.
Qed.

Lemma put_index_Some l i v l' : put_index l i v = Some l' ->
  length l' = length l /\ at_index l' i = Some v /\ forall j, j <> i -> at_index l' j = at_index l j.
Proof.
  unfold put_index. destruct (at_index l i) as [u|] eqn:E; [|done]. cbn [mbind option_bind].
  intros [= <-]. apply at_index_Some in E. split; [apply length_insert|]. unfold at_index. split.
  - rewrite (proj2 (Z.ltb_ge _ _)) by lia. apply list_lookup_insert_eq. lia.
  - intros j Hj. destruct (Z.ltb_spec j 0); [done|]. apply list_lookup_insert_ne. lia.
Qed.

Lemma put_index_in l i v : 0 <= i < Z.of_nat (length l) -> exists l', put_index l i v = Some l'.
Proof.
  intros Hi. unfold put_index, at_index. rewrite (proj2 (Z.ltb_ge _ _)) by lia.
  destruct (lookup_lt_is_Some_2 l (Z.to_nat i)) as [u ->]; [lia|]. by eexists.
Qed.

(** ** Dissecting *)

Section Dissect.
Context `{HostOrder} (ksyms lens : list Z).
Implicit Types p : bpf_prog_linfo.

(** The address of record [i]. *)
Definition addr p (i : Z) : option Z := jited_at p (i * jited_rec_size p).

(** The records from [s] on, before [e], have increasing addresses, and start where
    function [g] does. *)
Definition rising p (g s e : Z) : Prop :=
  (exists k, at_index ksyms g = Some k /\ addr p s = Some k) /\
  forall i, s < i < e -> exists a b, addr p (i - 1) = Some a /\ addr p i = Some b /\ a < b.

(** What is recorded of a function that is followed by another. *)
Definition closed p (g s e : Z) : Prop :=
  at_index (jited_linfo_func_idx p) g = Some s /\
  at_index (nr_jited_linfo_per_func p) g = Some (e - s) /\ 0 <= s < e /\ rising p g s e /\
  exists a k l, addr p (e - 1) = Some a /\ at_index ksyms g = Some k /\ at_index lens g = Some l /\
    u64 (a - k + 1) <= l.

Definition same_data p p' : Prop :=
  raw_linfo p' = raw_linfo p /\ raw_jited_linfo p' = raw_jited_linfo p /\ nr_linfo p' = nr_linfo p /\
  nr_jited_func p' = nr_jited_func p /\ rec_size p' = rec_size p /\ jited_rec_size p' = jited_rec_size p.

Lemma addr_same p p' i : same_data p p' -> addr p' i = addr p i.
Proof. unfold addr, jited_at. by intros (_ & -> & _ & _ & _ & ->). Qed.

Lemma rising_same p p' g s e : same_data p p' -> rising p g s e -> rising p' g s e.
Proof.
  intros Hd [Hk Hi]. split; [by rewrite (addr_same _ _ _ Hd)|].
  intros i. rewrite !(addr_same _ _ _ Hd). apply Hi.
Qed.

Lemma closed_same p p' g s e :
  same_data p p' -> at_index (jited_linfo_func_idx p') g = at_index (jited_linfo_func_idx p) g ->
  at_index (nr_jited_linfo_per_func p') g = at_index (nr_jited_linfo_per_func p) g ->
  closed p g s e -> closed p' g s e.
Proof.
  intros Hd Hi Hp (? & ? & ? & ? & ?). unfold closed. rewrite Hi, Hp, (addr_same _ _ _ Hd).
  repeat (split; [done|]). split; [by eapply rising_same|done].
Qed.

(** The state of the loop: the functions before [f - 1] are closed and follow each
    other, function [f - 1] starts at [prev_i]. *)
Record scanning p (prev_i i f last : Z) : Prop := {
  sc_f : 1 <= f <= nr_jited_func p;
  sc_i : 0 <= prev_i < i /\ i <= nr_linfo p;
  sc_start : at_index (jited_linfo_func_idx p) (f - 1) = Some prev_i;
  sc_rising : rising p (f - 1) prev_i i;
  sc_last : addr p (i - 1) = Some last;
  sc_closed : forall g, 0 <= g < f - 1 -> exists s e, closed p g s e /\
    at_index (jited_linfo_func_idx p) (g + 1) = Some e /\ e <= prev_i;
  sc_len : length (jited_linfo_func_idx p) = Z.to_nat (nr_jited_func p) /\
    length (nr_jited_linfo_per_func p) = Z.to_nat (nr_jited_func p);
}.

Lemma rising_extend p g s i a b :
  rising p g s i -> addr p (i - 1) = Some a -> addr p i = Some b -> a < b -> rising p g s (i + 1).
Proof.
  intros [Hk Hi] Ha Hb Hab. split; [done|]. intros j Hj.
  destruct (decide (j = i)) as [->|]; [by exists a, b|]. apply Hi. lia.
Qed.

(** A function found at record [i]: the one before is closed. *)
Lemma scanning_found p prev_i i f last cur idx per kprev klen :
  scanning p prev_i i f last -> i < nr_linfo p -> nr_linfo p < 2 ^ 32 -> f < nr_jited_func p ->
  addr p i = Some cur -> at_index ksyms f = Some cur ->
  put_index (jited_linfo_func_idx p) f i = Some idx ->
  at_index ksyms (f - 1) = Some kprev -> at_index lens (f - 1) = Some klen ->
  u64 (last - kprev + 1) <= klen ->
  put_index (nr_jited_linfo_per_func p) (f - 1) (u32 (i - prev_i)) = Some per ->
  scanning (set_per_func per (set_func_idx idx p)) i (i + 1) (f + 1) cur.
Proof.
  intros [Hf Hi Hs Hr Hl Hc [Hn1 Hn2]] Hin Hw Hfn Hcur Hk Hidx Hkp Hkl Hle Hper.
  apply put_index_Some in Hidx as (Hli & Hii & Hio). apply put_index_Some in Hper as (Hlp & Hpi & Hpo).
  rewrite u32_id in Hpi by lia.
  set (p' := set_per_func per (set_func_idx idx p)).
  assert (same_data p p') as Hd by done.
  assert (forall s e g, g < f - 1 -> closed p g s e -> closed p' g s e) as Hold.
  { intros s e g Hg. apply closed_same; [done|apply Hio; lia|apply Hpo; lia]. }
  split.
  - cbn. lia.
  - cbn. lia.
  - by rewrite Z.add_simpl_r.
  - rewrite Z.add_simpl_r. split; [exists cur; by rewrite (addr_same _ _ _ Hd)|]. intros j Hj. lia.
  - by rewrite Z.add_simpl_r, (addr_same _ _ _ Hd).
  - intros g Hg. rewrite Z.add_simpl_r in Hg. destruct (decide (g = f - 1)) as [->|Hne].
    + exists prev_i, i. split; [|split; [|lia]].
      * split; [|split; [exact Hpi|split; [lia|split; [by eapply rising_same|]]]].
        -- cbn. rewrite Hio by lia. exact Hs.
        -- exists last, kprev, klen. by rewrite (addr_same _ _ _ Hd).
      * cbn. by rewrite Z.sub_add.
    + destruct (Hc g) as (s & e & Hcl & Hnx & He); [lia|]. exists s, e.
      split; [apply Hold; [lia|done]|]. split; [|lia]. cbn. rewrite Hio by lia. done.
  - cbn. lia.
Qed.

Lemma scanning_next p prev_i i f last cur :
  scanning p prev_i i f last -> i < nr_linfo p -> addr p i = Some cur -> last < cur ->
  scanning p prev_i (i + 1) f cur.
Proof.
  intros [Hf Hi Hs Hr Hl Hc Hn] Hin Hcur Hlt. split; [done|lia|done| |by rewrite Z.add_simpl_r|done|done].
  by eapply rising_extend.
Qed.

Lemma dissect_loop_scanning n p prev_i i f last p' prev' f' :
  scanning p prev_i i f last -> nr_linfo p < 2 ^ 32 -> (Z.of_nat n <= nr_linfo p - i) ->
  dissect_loop n ksyms lens p prev_i i f last = Some (inr (p', prev', f')) ->
  same_data p p' /\ exists i' last', scanning p' prev' i' f' last'.
Proof.
  revert p prev_i i f last. induction n as [|n IH]; intros p prev_i i f last Hsc Hw Hn; cbn [dissect_loop].
  - destruct (negb _); intros [= <- <- <-]; (split; [done|by eauto]).
  - destruct (Z.ltb_spec f (nr_jited_func p)) as [Hf|]; cbn [negb].
    2: { intros [= <- <- <-]. split; [done|by eauto]. }
    destruct (jited_at p _) as [cur|] eqn:Ecur; [|done]. cbn [mbind option_bind].
    destruct (at_index ksyms f) as [kf|] eqn:Ekf; [|done]. cbn [mbind option_bind].
    destruct (Z.eqb_spec kf cur) as [->|Hne].
    + destruct (put_index _ f i) as [idx|] eqn:Eidx; [|done]. cbn [mbind option_bind].
      destruct (at_index ksyms (f - 1)) as [kprev|] eqn:Ekp; [|done]. cbn [mbind option_bind].
      destruct (at_index lens (f - 1)) as [klen|] eqn:Ekl; [|done]. cbn [mbind option_bind].
      destruct (Z.ltb_spec klen (u64 (last - kprev + 1))) as [|Hle]; [done|].
      destruct (put_index _ (f - 1) _) as [per|] eqn:Eper; [|done]. cbn [mbind option_bind].
      intros Hrun. change (nr_jited_linfo_per_func (set_func_idx idx p)) with (nr_jited_linfo_per_func p) in Eper.
      apply (scanning_found p prev_i i f last cur idx per kprev klen) in Hsc; [|done || lia..].
      apply IH in Hrun as [Hd Hex]; [split; [exact Hd|exact Hex]|done|done|cbn; lia].
    + destruct (Z.leb_spec cur last) as [|Hlt]; [done|].
      apply IH; [|done|lia]. eapply scanning_next; [done|lia|done|done].
Qed.

(** What [dissect_jited_func] leaves: each function has its records, from its own
    address on, and they follow each other to the last record. *)
Definition dissected p : Prop :=
  0 < nr_jited_func p /\
  forall g, 0 <= g < nr_jited_func p -> exists s c,
    at_index (jited_linfo_func_idx p) g = Some s /\ at_index (nr_jited_linfo_per_func p) g = Some c /\
    0 <= s /\ 0 < c /\ s + c <= nr_linfo p /\
    (exists k, at_index ksyms g = Some k /\ addr p s = Some k) /\
    (if g + 1 <? nr_jited_func p
     then at_index (jited_linfo_func_idx p) (g + 1) = Some (s + c) /\ rising p g s (s + c)
     else s + c = nr_linfo p).

Lemma dissect_spec p p' :
  0 < nr_jited_func p -> 0 < nr_linfo p < 2 ^ 32 ->
  length (jited_linfo_func_idx p) = Z.to_nat (nr_jited_func p) ->
  length (nr_jited_linfo_per_func p) = Z.to_nat (nr_jited_func p) ->
  dissect_jited_func p ksyms lens = Some (inr p') -> same_data p p' /\ dissected p'.
Proof.
  intros Hnf Hnl Hl1 Hl2. unfold dissect_jited_func.
  destruct (jited_at p 0) as [first|] eqn:Efirst; [|done]. cbn [mbind option_bind].
  destruct (at_index ksyms 0) as [k0|] eqn:Ek0; [|done]. cbn [mbind option_bind].
  destruct (Z.eqb_spec k0 first) as [->|]; [|done]. cbn [negb].
  destruct (put_index _ 0 0) as [idx|] eqn:Eidx; [|done]. cbn [mbind option_bind].
  set (p1 := set_func_idx idx p).
  apply put_index_Some in Eidx as (Hli & Hii & _).
  assert (scanning p1 0 1 1 first) as Hsc.
  { split; try done; cbn; try lia. split; [by exists first|]. intros i Hi. lia. }
  destruct (dissect_loop _ _ _ _ _ _ _ _) as [[|[[p2 prev] f]]|] eqn:Eloop; [done| |done].
  cbn [mbind option_bind]. apply dissect_loop_scanning in Eloop as (Hd & i & last & Hsc2); [|done|cbn; lia|cbn; lia].
  destruct (Z.eqb_spec f (nr_jited_func p2)) as [->|]; [|done]. cbn [negb].
  destruct (put_index _ (nr_jited_func p2 - 1) _) as [per|] eqn:Eper; [|done]. cbn [mbind option_bind].
  intros [= <-]. apply put_index_Some in Eper as (Hlp & Hpi & Hpo).
  destruct Hsc2 as [Hf Hi Hs Hr Hl Hc [Hn1 Hn2]].
  assert (nr_linfo p2 = nr_linfo p) as Enl by apply Hd.
  assert (nr_jited_func p2 = nr_jited_func p) as Enf by apply Hd.
  rewrite u32_id in Hpi by lia. set (p3 := set_per_func per p2).
  assert (same_data p2 p3) as Hd3 by done.
  split; [exact Hd|]. split; [cbn; lia|]. intros g Hg. change (nr_jited_func p3) with (nr_jited_func p2) in *.
  destruct (Z.ltb_spec (g + 1) (nr_jited_func p2)) as [Hlt|Hge].
  - destruct (Hc g) as (s & e & (Hx & Hy & Hse & Hri & _) & Hnx & He); [lia|].
    exists s, (e - s). cbn [p3 set_per_func jited_linfo_func_idx nr_jited_linfo_per_func nr_linfo].
    rewrite Hpo by lia. replace (s + (e - s)) with e by lia.
    split; [done|]. split; [done|]. split; [lia|]. split; [lia|]. split; [lia|].
    split; [rewrite (addr_same _ _ _ Hd3); apply Hri|]. split; [done|]. by eapply rising_same.
  - assert (g = nr_jited_func p2 - 1) as -> by lia. exists prev, (nr_linfo p2 - prev).
    cbn [p3 set_per_func jited_linfo_func_idx nr_jited_linfo_per_func nr_linfo].
    split; [done|]. split; [done|]. split; [lia|]. split; [lia|]. split; [lia|].
    split; [rewrite (addr_same _ _ _ Hd3); apply Hr|]. lia.
Qed.
End Dissect.

(** ** Searching *)

Section Search.
Context `{HostOrder}.
Implicit Types p : bpf_prog_linfo.

(** The fields have the ranges of their types. *)
Definition info_ok (info : line_prog_info) : Prop :=
  0 <= nr_line_info info < 2 ^ 32 /\ 0 <= line_info_rec_size info < 2 ^ 32 /\
  0 <= nr_jited_ksyms info < 2 ^ 32 /\ 0 <= jited_line_info_rec_size info < 2 ^ 32.

(** The copies are as long as their records. *)
Definition copies_ok p : Prop :=
  0 < nr_linfo p < 2 ^ 32 /\ 4 <= rec_size p /\ Z.of_nat (length (raw_linfo p)) = nr_linfo p * rec_size p /\
  (nr_jited_func p <> 0 -> 8 <= jited_rec_size p /\
     Z.of_nat (length (raw_jited_linfo p)) = nr_linfo p * jited_rec_size p).

Lemma copied_length src n bs : copied src n = Some bs -> 0 <= n -> Z.of_nat (length bs) = n.
Proof. unfold copied. intros Hc Hn. apply read_bytes_length in Hc. lia. Qed.

Lemma new_ok junk info p :
  info_ok info -> bpf_prog_linfo__new junk info = Some (Some p) ->
  copies_ok p /\ (nr_jited_func p <> 0 ->
    exists ksyms lens, jited_ksyms info = Some ksyms /\ jited_func_lens info = Some lens /\
      dissected ksyms p).
Proof.
  intros (Hnl & Hrs & Hnf & Hjr). unfold bpf_prog_linfo__new.
  destruct (Z.eqb_spec (nr_line_info info) 0) as [|Hnz]; [done|].
  destruct (Z.ltb_spec (line_info_rec_size info) off_file_name_off) as [|Hro]; [done|].
  unfold off_file_name_off in Hro.
  rewrite (u64_id (_ * line_info_rec_size info)) by nia. destruct (copied (line_info info) _) as [raw|] eqn:Eraw; [|done].
  apply copied_length in Eraw; [|apply Z.mul_nonneg_nonneg; lia]. cbn [mbind option_bind].
  set (p0 := Linfo raw [] [] [] _ 0 _ 0).
  assert (copies_ok p0) as Hp0.
  { unfold copies_ok, p0. cbn [nr_linfo rec_size raw_linfo nr_jited_func]. repeat split; (lia || done). }
  assert (forall q, Some (Some p0) = Some (Some q) -> copies_ok q /\ (nr_jited_func q <> 0 ->
    exists ksyms lens, jited_ksyms info = Some ksyms /\ jited_func_lens info = Some lens /\ dissected ksyms q))
    as Hplain by (by intros q [= <-]).
  destruct (jited_line_info info) as [jited|]; [|apply Hplain].
  destruct (jited_ksyms info) as [ksyms|] eqn:Ek; [|apply Hplain].
  destruct (jited_func_lens info) as [lens|] eqn:El; [|apply Hplain].
  destruct (Z.eqb_spec (nr_jited_ksyms info) 0) as [|Hf]; [apply Hplain|].
  destruct (negb (_ =? _)); [apply Hplain|]. cbn [orb].
  destruct (Z.ltb_spec (jited_line_info_rec_size info) 8) as [|H8]; [apply Hplain|].
  destruct (negb _); [apply Hplain|]. cbn [orb].
  rewrite (u64_id (_ * jited_line_info_rec_size info)) by nia. destruct (copied jited _) as [rawj|] eqn:Erawj; [|done].
  apply copied_length in Erawj; [|apply Z.mul_nonneg_nonneg; lia]. cbn [mbind option_bind].
  destruct (dissect_jited_func _ ksyms lens) as [[e|p']|] eqn:Ed; [done| |done].
  cbn [mbind option_bind]. intros [= <-].
  apply dissect_spec in Ed as [(E1 & E2 & E3 & E4 & E5 & E6) Hd]; cbn in *; [|lia|lia|by rewrite length_replicate..].
  split; [|intros _; by exists ksyms, lens]. unfold copies_ok. rewrite E1, E2, E3, E4, E5, E6.
  by split; [lia|].
Qed.

Lemma read_bytes_in bs off n : (off + n <= length bs)%nat -> exists b, read_bytes bs off n = Some b.
Proof. intros Hl. unfold read_bytes. rewrite decide_True by done. by eexists. Qed.

Lemma jited_in p i : copies_ok p -> nr_jited_func p <> 0 -> 0 <= i < nr_linfo p ->
  exists a, addr p i = Some a.
Proof.
  intros (Hn & _ & _ & Hj) Hf Hi. destruct (Hj Hf) as [H8 Hl]. unfold addr, jited_at, read64.
  destruct (read_bytes_in (raw_jited_linfo p) (Z.to_nat (i * jited_rec_size p)) 8) as [b ->]; [|by eexists].
  assert (i * jited_rec_size p + 8 <= nr_linfo p * jited_rec_size p) by nia. lia.
Qed.

(** The instruction of translated record [i]. *)
Definition insn_of p (i : Z) : option Z := insn_off_at p (i * rec_size p).

Lemma insn_in p i : copies_ok p -> 0 <= i < nr_linfo p -> exists a, insn_of p i = Some a.
Proof.
  intros (Hn & H4 & Hl & _) Hi. unfold insn_of, insn_off_at, read32.
  destruct (read_bytes_in (raw_linfo p) (Z.to_nat (i * rec_size p)) 4) as [b ->]; [|by eexists].
  assert (i * rec_size p + 4 <= nr_linfo p * rec_size p) by nia. lia.
Qed.

(** The loop stops after the records that are not past the key. *)
Lemma count_upto_spec n at_off size key off i :
  (forall k, 0 <= k < Z.of_nat n -> is_Some (at_off (off + k * size))) ->
  exists m, count_upto n at_off size key off i = Some (i + m)%nat /\ (m <= n)%nat /\
    (forall k, 0 <= k < Z.of_nat m -> exists v, at_off (off + k * size) = Some v /\ v <= key) /\
    ((m < n)%nat -> exists v, at_off (off + Z.of_nat m * size) = Some v /\ key < v).
Proof.
  revert off i. induction n as [|n IH]; intros off i Hin; cbn [count_upto].
  { exists 0%nat. rewrite Nat.add_0_r. split; [done|]. split; [done|]. split; [intros; lia|lia]. }
  destruct (Hin 0) as [v Hv]; [lia|]. replace (off + 0 * size) with off in Hv by lia. rewrite Hv.
  cbn [mbind option_bind]. destruct (Z.ltb_spec key v) as [Hlt|Hge].
  { exists 0%nat. rewrite Nat.add_0_r. split; [done|]. split; [lia|]. split; [intros; lia|].
    intros _. exists v. by replace (off + Z.of_nat 0 * size) with off by lia. }
  destruct (IH (off + size) (S i)) as (m & -> & Hm & Hlow & Hnext).
  { intros k Hk. replace (off + size + k * size) with (off + (k + 1) * size) by lia. apply Hin. lia. }
  exists (S m). split; [f_equal; lia|]. split; [lia|]. split.
  - intros k Hk. destruct (decide (k = 0)) as [->|].
    + exists v. by replace (off + 0 * size) with off by lia.
    + replace (off + k * size) with (off + size + (k - 1) * size) by lia. apply Hlow. lia.
  - intros Hlt. replace (off + Z.of_nat (S m) * size) with (off + size + Z.of_nat m * size) by lia.
    apply Hnext. lia.
Qed.

(** The last of the records from [s] on, before [e], that are not past the key. *)
Definition last_upto (val : Z -> option Z) (s e key r : Z) : Prop :=
  s <= r < e /\ (forall i, s <= i <= r -> exists v, val i = Some v /\ v <= key) /\
  (r + 1 < e -> exists v, val (r + 1) = Some v /\ key < v).

(** Both searches, on records [s] to [e] of which the first is not past the key. *)
Lemma count_records val at_off size key s e first :
  (forall i, val i = at_off (i * size)) -> (forall i, s <= i < e -> is_Some (val i)) ->
  s < e -> val s = Some first -> first <= key ->
  exists i, count_upto (Z.to_nat (e - s)) at_off size key (s * size) 0 = Some i /\
    last_upto val s e key (s + Z.of_nat i - 1).
Proof.
  intros Hval Hin Hse Hs Hle.
  destruct (count_upto_spec (Z.to_nat (e - s)) at_off size key (s * size) 0) as (m & -> & Hm & Hlow & Hnext).
  { intros k Hk. replace (s * size + k * size) with ((s + k) * size) by lia. rewrite <- Hval. apply Hin. lia. }
  exists m. split; [done|].
  assert (0 < m)%nat as Hm0.
  { destruct m; [|lia]. destruct Hnext as (v & Hv & Hlt); [lia|].
    replace (s * size + Z.of_nat 0 * size) with (s * size) in Hv by lia. rewrite <- Hval, Hs in Hv.
    injection Hv as ->. lia. }
  split; [lia|]. split.
  - intros i Hi. destruct (Hlow (i - s)) as (v & Hv & Hvk); [lia|]. exists v. split; [|done].
    rewrite Hval, <- Hv. f_equal. lia.
  - intros Hlt. destruct Hnext as (v & Hv & Hvk); [lia|]. exists v. split; [|done].
    rewrite Hval, <- Hv. f_equal. lia.
Qed.

(** The records from [s] on, before [e], have increasing addresses. *)
Definition increasing p (s e : Z) : Prop :=
  forall i, s < i < e -> exists x y, addr p (i - 1) = Some x /\ addr p i = Some y /\ x < y.

Lemma increasing_lt p s e i j x y :
  increasing p s e -> s <= i -> i < j -> j < e -> addr p i = Some x -> addr p j = Some y -> x < y.
Proof.
  intros Hinc Hs Hij Hj Hx. assert (j = i + 1 + Z.of_nat (Z.to_nat (j - i - 1))) as E by lia.
  revert E. generalize (Z.to_nat (j - i - 1)) as n. intros n E. subst j. clear Hij. revert Hj y.
  induction n as [|n IH]; intros Hj y Hy.
  - destruct (Hinc (i + 1 + Z.of_nat 0)) as (u & v & Hu & Hv & Huv); [lia|].
    replace (i + 1 + Z.of_nat 0 - 1) with i in Hu by lia. congruence.
  - destruct (Hinc (i + 1 + Z.of_nat (S n))) as (u & v & Hu & Hv & Huv); [lia|].
    replace (i + 1 + Z.of_nat (S n) - 1) with (i + 1 + Z.of_nat n) in Hu by lia.
    specialize (IH ltac:(lia) u Hu). assert (v = y) by congruence. lia.
Qed.

(** C22. Of the information the kernel gives of a compiled program, each function has
    its records, the first at its own address, and those of every function but the last
    rise.  Whatever the order, the search answers the end of the run of records from the
    first not skipped on that are not past the address, NULL when that one is past it;
    when the records of the function rise this is the last record not past the address,
    NULL when all are.  The records must take less than 4 GB, which is the width the
    offsets are computed in. *)
Theorem lfind_addr_func_finds junk info p g skip a :
  info_ok info -> bpf_prog_linfo__new junk info = Some (Some p) ->
  0 <= g < nr_jited_func p -> 0 <= skip ->
  nr_linfo p * rec_size p < 2 ^ 32 -> nr_linfo p * jited_rec_size p < 2 ^ 32 ->
  exists s c, at_index (jited_linfo_func_idx p) g = Some s /\
    at_index (nr_jited_linfo_per_func p) g = Some c /\ 0 <= s /\ 0 < c /\ s + c <= nr_linfo p /\
    (exists ksyms, jited_ksyms info = Some ksyms /\ at_index ksyms g = addr p s) /\
    (if g + 1 <? nr_jited_func p
     then at_index (jited_linfo_func_idx p) (g + 1) = Some (s + c) /\ increasing p s (s + c)
     else s + c = nr_linfo p) /\
    exists ans, bpf_prog_linfo__lfind_addr_func p a g skip = Some ans /\
      match ans with
      | None =>
          (c <= skip \/ exists v, addr p (s + skip) = Some v /\ a < v) /\
          (increasing p s (s + c) -> forall i, s + skip <= i < s + c -> exists v, addr p i = Some v /\ a < v)
      | Some off => exists r, off = r * rec_size p /\ last_upto (addr p) (s + skip) (s + c) a r /\
          (increasing p s (s + c) -> forall i, r < i < s + c -> exists v, addr p i = Some v /\ a < v)
      end.
Proof.
  intros Hinfo Hnew Hg Hskip Hw1 Hw2.
  destruct (new_ok _ _ _ Hinfo Hnew) as [Hok Hdis]. destruct Hdis as (ksyms & lens & Hks & _ & _ & Hd); [lia|].
  destruct (Hd g Hg) as (s & c & Hs & Hc & Hs0 & Hc0 & Hsc & (k & Hk & Hak) & Hri).
  exists s, c. repeat (split; [done|]). split; [by exists ksyms; rewrite Hk, Hak|].
  split; [destruct (g + 1 <? nr_jited_func p); [|done]; destruct Hri as [? [_ ?]]; by split|].
  assert (forall i, s <= i < s + c -> exists v, addr p i = Some v) as Hin.
  { intros i Hi. apply jited_in; [done|lia|lia]. }
  unfold bpf_prog_linfo__lfind_addr_func.
  rewrite (proj2 (Z.leb_gt (nr_jited_func p) g)), Hs, Hc by lia. cbn [mbind option_bind].
  destruct (Z.leb_spec c skip) as [|Hlt].
  { exists None. split; [done|]. split; [by left|]. intros _ i Hi. lia. }
  pose proof Hok as (Hn & H4 & _ & Hj). destruct (Hj ltac:(lia)) as [H8 _].
  destruct (Hin (s + skip)) as [v Hv]; [lia|].
  rewrite (u32_id (s + skip)) by lia. rewrite !u32_id by nia. pose proof Hv as Hv'. unfold addr in Hv'. rewrite Hv'.
  cbn [mbind option_bind].
  destruct (Z.ltb_spec a v) as [Hav|Hge].
  { exists None. split; [done|]. split; [right; by exists v|]. intros Hinc i Hi. destruct (Hin i) as [u Hu]; [lia|].
    exists u. split; [done|]. destruct (decide (i = s + skip)) as [->|]; [congruence|].
    enough (v < u) by lia. apply (increasing_lt p s (s + c) (s + skip) i); (done || lia). }
  destruct (count_records (addr p) (jited_at p) (jited_rec_size p) a (s + skip) (s + c) v)
    as (i & Hi & Hlast); [done| |lia|exact Hv|done|].
  { intros i Hi. destruct (Hin i) as [b ->]; [lia|done]. }
  replace (s + c - (s + skip)) with (c - skip) in Hi by lia. rewrite Hi. cbn [mbind option_bind].
  eexists. split; [done|]. exists (s + skip + Z.of_nat i - 1). split; [lia|]. split; [done|].
  intros Hinc j Hj'. destruct Hlast as (Hr & _ & Hnext). destruct Hnext as (u & Hu & Hau); [lia|].
  destruct (Hin j) as [w Hw]; [lia|]. exists w. split; [done|].
  destruct (decide (j = s + skip + Z.of_nat i - 1 + 1)) as [->|]; [congruence|].
  enough (u < w) by lia. apply (increasing_lt p s (s + c) (s + skip + Z.of_nat i - 1 + 1) j); (done || lia).
Qed.

(** The same for the instructions of the translated program. *)
Theorem lfind_finds junk info p skip off :
  info_ok info -> bpf_prog_linfo__new junk info = Some (Some p) -> 0 <= skip ->
  nr_linfo p * rec_size p < 2 ^ 32 ->
  if nr_linfo p <=? skip then bpf_prog_linfo__lfind p off skip = Some None
  else exists v, insn_of p skip = Some v /\
    if off <? v then bpf_prog_linfo__lfind p off skip = Some None
    else exists r, bpf_prog_linfo__lfind p off skip = Some (Some (r * rec_size p)) /\
      last_upto (insn_of p) skip (nr_linfo p) off r.
Proof.
  intros Hinfo Hnew Hskip Hw. destruct (new_ok _ _ _ Hinfo Hnew) as [Hok _].
  unfold bpf_prog_linfo__lfind. destruct (Z.leb_spec (nr_linfo p) skip) as [|Hlt]; [done|].
  pose proof Hok as (Hn & H4 & _). destruct (insn_in p skip Hok) as [v Hv]; [lia|].
  exists v. split; [done|]. rewrite !u32_id by nia. unfold insn_of in Hv. rewrite Hv. cbn [mbind option_bind].
  destruct (Z.ltb_spec off v) as [|Hge]; [done|].
  destruct (count_records (insn_of p) (insn_off_at p) (rec_size p) off skip (nr_linfo p) v)
    as (i & Hi & Hlast); [done| |lia|exact Hv|done|].
  { intros i Hi. destruct (insn_in p i Hok) as [b ->]; [lia|done]. }
  rewrite Hi. cbn [mbind option_bind]. exists (skip + Z.of_nat i - 1). split; [|done]. do 2 f_equal. lia.
Qed.
End Search.

Module LineInfoExamples.
#[export] Instance little : HostOrder := LittleEndian.

(** Two functions, of two records and of one. *)
Definition record (off line : Z) : bytes := store 4 off ++ store 4 1 ++ store 4 2 ++ store 4 line.
Definition infos (addrs ksyms lens : list Z) : line_prog_info :=
  LineProgInfo 3 16 (record 0 10 ++ record 2 11 ++ record 5 12) (Z.of_nat (length ksyms))
    (Some (List.concat (store 8 <$> addrs))) 3 8 (Z.of_nat (length lens)) (Some ksyms) (Some lens).
Definition two : line_prog_info := infos [1000; 1010; 2000] [1000; 2000] [64; 64].
Definition linfo : option bpf_prog_linfo := mjoin (bpf_prog_linfo__new 7 two).

Example found : (p ← linfo; Some (jited_linfo_func_idx p, nr_jited_linfo_per_func p,
    bpf_prog_linfo__lfind_addr_func p 1015 0 0, bpf_prog_linfo__lfind_addr_func p 999 0 0,
    bpf_prog_linfo__lfind_addr_func p 2047 1 0, bpf_prog_linfo__lfind p 3 0)) =
  Some ([0; 2], [2; 1], Some (Some 16), Some None, Some (Some 32), Some (Some 16)).
Proof. vm_compute. done. Qed.

(** Functions out of order are refused; records out of order in the last function are
    not, since the loop ends when it has found that one. *)
Example order_tested :
  bpf_prog_linfo__new 7 (infos [1000; 990; 2000] [1000; 2000] [64; 64]) = Some None.
Proof. vm_compute. done. Qed.

Example last_unsorted_accepted : exists p,
  bpf_prog_linfo__new 7 (infos [1000; 990; 980] [1000] [64]) = Some (Some p) /\
  jited_at p 0 = Some 1000 /\ jited_at p 8 = Some 990 /\ nr_jited_linfo_per_func p = [3] /\
  bpf_prog_linfo__lfind_addr_func p 985 0 0 = Some None.
Proof. eexists. split; [vm_compute; reflexivity|]. vm_compute. done. Qed.

Lemma two_ok : info_ok two.
Proof. repeat split; vm_compute; (discriminate || reflexivity). Qed.

Lemma lfind_addr_func_finds_witness : exists p s c ans, bpf_prog_linfo__new 7 two = Some (Some p) /\
  at_index (jited_linfo_func_idx p) 0 = Some s /\ at_index (nr_jited_linfo_per_func p) 0 = Some c /\
  increasing p s (s + c) /\ bpf_prog_linfo__lfind_addr_func p 1015 0 0 = Some ans /\
  match ans with
  | None => False
  | Some off => exists r, off = r * rec_size p /\ last_upto (addr p) (s + 0) (s + c) 1015 r
  end.
Proof.
  assert (exists p, bpf_prog_linfo__new 7 two = Some (Some p)) as [p Hp] by (eexists; vm_compute; reflexivity).
  assert (nr_jited_func p = 2 /\ nr_linfo p * rec_size p = 48 /\ nr_linfo p * jited_rec_size p = 24 /\
    bpf_prog_linfo__lfind_addr_func p 1015 0 0 = Some (Some 16)) as (E1 & E2 & E3 & E4).
  { vm_compute in Hp. injection Hp as <-. vm_compute. done. }
  destruct (lfind_addr_func_finds 7 two p 0 0 1015 two_ok Hp) as
    (s & c & Hs & Hc & _ & _ & _ & _ & Hinc & ans & Ha & Hans); [lia..|].
  exists p, s, c, ans. split; [exact Hp|]. split; [exact Hs|]. split; [exact Hc|].
  split; [rewrite E1 in Hinc; apply Hinc|]. split; [exact Ha|]. destruct ans as [off|]; [|congruence].
  destruct Hans as (r & -> & Hr & _). by exists r.
Defined.
End LineInfoExamples.
