(* ===== verification/ProgInfo.v ===== *)
(** * The information of a program in one block of memory

    Models [bpf_program__get_prog_info_linear] and its companions in
    [libbpf/src/libbpf.c]: the arrays a [struct bpf_prog_info] points to are laid out
    behind it, and pointers become offsets when the block is written to a file.  The
    structure is its 208 bytes; what the kernel writes through the pointers in it is
    part of its answer.  Messages are left out, memory allocation succeeds. *)

From S2P Require Import Prelude BpfCalls Packet LineInfo.

Local Open Scope Z_scope.

#[local] Abbreviation bytes := (list Z).

Definition EFAULT : Z := 14.
Definition sizeof_bpf_prog_info : Z := 208.

(** [struct bpf_prog_info_array_desc]: a positive [size_offset] is the place of the
    record size, a negative one the size. *)
Record array_desc := ArrayDesc { array_offset : Z; count_offset : Z; size_offset : Z }.

(** In the order of [enum bpf_prog_info_array]. *)
Definition bpf_prog_info_array_desc : list array_desc := [
  ArrayDesc 24 16 (-1);    (* jited_prog_insns *)
  ArrayDesc 32 20 (-1);    (* xlated_prog_insns *)
  ArrayDesc 56 52 (-4);    (* map_ids *)
  ArrayDesc 112 104 (-8);  (* jited_ksyms *)
  ArrayDesc 120 108 (-4);  (* jited_func_lens *)
  ArrayDesc 136 144 132;   (* func_info *)
  ArrayDesc 152 148 172;   (* line_info *)
  ArrayDesc 160 168 176;   (* jited_line_info *)
  ArrayDesc 184 180 (-8)   (* prog_tags *)
].
Definition BPF_PROG_INFO_LAST_ARRAY : Z := 9.

(** [struct bpf_prog_info_linear]. *)
Record bpf_prog_info_linear := InfoLinear {
  info_len : Z; data_len : Z; arrays : Z; info : bytes; data : bytes;
}.

(** [BPF_OBJ_GET_INFO_BY_FD] on a program: the result, the structure, its length, and
    what is written where its pointers say; and the world. *)
Class ProgInfoSys (W : Type) := {
  sys_prog_info : Z -> bytes -> Z -> W -> Z * bytes * Z * list (Z * bytes) * W;
}.

Section Linear.
Context `{HostOrder}.

Definition bpf_prog_info_read_offset_u32 (info : bytes) (offset : Z) : option Z :=
  if 0 <=? offset then read32 info (Z.to_nat (4 * (offset / 4))) else Some (u32 (- offset)).
Definition bpf_prog_info_read_offset_u64 (info : bytes) (offset : Z) : option Z :=
  if 0 <=? offset then read64 info (Z.to_nat (8 * (offset / 8))) else Some (u64 (- offset)).
Definition bpf_prog_info_set_offset_u32 (info : bytes) (offset v : Z) : option bytes :=
  if 0 <=? offset then write32 info (Z.to_nat (4 * (offset / 4))) v else Some info.
Definition bpf_prog_info_set_offset_u64 (info : bytes) (offset v : Z) : option bytes :=
  if 0 <=? offset then write_bytes info (Z.to_nat (8 * (offset / 8))) (store 8 v) else Some info.

Definition wants (arrays i : Z) : bool := negb (Z.land arrays (Z.shiftl 1 i) =? 0).

(** A kernel that reports so many bytes knows the fields of the array. *)
Definition known (info_len : Z) (d : array_desc) : bool :=
  negb ((info_len <? array_offset d + 4) || (info_len <? count_offset d + 4) ||
        ((0 <? size_offset d) && (info_len <? size_offset d))).

(** [count * size] of an array, 32 bits wide. *)
Definition array_bytes (info : bytes) (d : array_desc) : option Z :=
  count ← bpf_prog_info_read_offset_u32 info (count_offset d);
  size ← bpf_prog_info_read_offset_u32 info (size_offset d);
  Some (u32 (count * size)).

(** Step 2: the arrays there are, and the size of all of them. *)
Fixpoint total_size (ds : list array_desc) (i : Z) (info : bytes) (info_len arrays data_len : Z)
    : option (Z * Z) :=
  match ds with
  | [] => Some (arrays, data_len)
  | d :: ds =>
      if negb (wants arrays i && known info_len d)
      then total_size ds (i + 1) info info_len (Z.ldiff arrays (Z.shiftl 1 i)) data_len
      else
        n ← array_bytes info d;
        total_size ds (i + 1) info info_len arrays (u32 (data_len + n))
  end.

(** Step 4: the sizes and pointers of the arrays. *)
Fixpoint place_arrays (ds : list array_desc) (i : Z) (from : bytes) (arrays ptr : Z) (info : bytes)
    : option bytes :=
  match ds with
  | [] => Some info
  | d :: ds =>
      if negb (wants arrays i) then place_arrays ds (i + 1) from arrays ptr info else
      count ← bpf_prog_info_read_offset_u32 from (count_offset d);
      size ← bpf_prog_info_read_offset_u32 from (size_offset d);
      info ← bpf_prog_info_set_offset_u32 info (count_offset d) count;
      info ← bpf_prog_info_set_offset_u32 info (size_offset d) size;
      info ← bpf_prog_info_set_offset_u64 info (array_offset d) ptr;
      place_arrays ds (i + 1) from arrays (ptr + u32 (count * size)) info
  end.

Definition roundup (x y : Z) : Z := (x + (y - 1)) / y * y.

(** What the kernel writes into the block at [base]: [None] outside of it. *)
Fixpoint write_all (ws : list (Z * bytes)) (base : Z) (data : bytes) : option bytes :=
  match ws with
  | [] => Some data
  | (a, bs) :: ws =>
      match bs with
      | [] => write_all ws base data
      | _ =>
          if a <? base then None else
          data ← write_bytes data (Z.to_nat (a - base)) bs; write_all ws base data
      end
  end.

Context {W : Type} `{ProgInfoSys W}.

(** [malloc] gives memory with [junk] in it, the data of the block at [base]. *)
Definition bpf_program__get_prog_info_linear (base : Z) (junk : nat -> bytes) (fd arrays : Z) (w : W)
    : option ((Z + bpf_prog_info_linear) * W) :=
  if negb (Z.shiftr arrays BPF_PROG_INFO_LAST_ARRAY =? 0) then Some (inl (- EINVAL), w) else
  let zeros := replicate (Z.to_nat sizeof_bpf_prog_info) 0 in
  let '(err, info, len, ws, w) := sys_prog_info fd zeros sizeof_bpf_prog_info w in
  _ ← write_all ws 0 [];
  if negb (err =? 0) then Some (inl (- EFAULT), w) else
  '(arrays, data_len) ← total_size bpf_prog_info_array_desc 0 info len arrays 0;
  let data_len := u32 (roundup data_len 8) in
  let data := junk (Z.to_nat data_len) in
  linear ← place_arrays bpf_prog_info_array_desc 0 info arrays base zeros;
  let '(err, linear, len, ws, w) := sys_prog_info fd linear len w in
  data ← write_all ws base data;
  if negb (err =? 0) then Some (inl (- EFAULT), w) else
  Some (inr (InfoLinear sizeof_bpf_prog_info data_len arrays linear data), w).

(** The two conversions: [shift] is the new value of a pointer. *)
Fixpoint shift_arrays (ds : list array_desc) (i arrays : Z) (shift : Z -> Z) (info : bytes) : option bytes :=
  match ds with
  | [] => Some info
  | d :: ds =>
      if negb (wants arrays i) then shift_arrays ds (i + 1) arrays shift info else
      v ← bpf_prog_info_read_offset_u64 info (array_offset d);
      info ← bpf_prog_info_set_offset_u64 info (array_offset d) (shift v);
      shift_arrays ds (i + 1) arrays shift info
  end.

Definition set_info (b : bytes) (l : bpf_prog_info_linear) : bpf_prog_info_linear :=
  InfoLinear (info_len l) (data_len l) (arrays l) b (data l).

(** [base] is the address of the data. *)
Definition bpf_program__bpil_addr_to_offs (base : Z) (l : bpf_prog_info_linear) : option bpf_prog_info_linear :=
  b ← shift_arrays bpf_prog_info_array_desc 0 (arrays l) (fun addr => u64 (addr - base)) (info l);
  Some (set_info b l).
Definition bpf_program__bpil_offs_to_addr (base : Z) (l : bpf_prog_info_linear) : option bpf_prog_info_linear :=
  b ← shift_arrays bpf_prog_info_array_desc 0 (arrays l) (fun offs => u64 (offs + base)) (info l);
  Some (set_info b l).
End Linear.

(** ** Fields *)

Lemma read_write_other pkt off bs pkt' o n :
  write_bytes pkt off bs = Some pkt' -> (o + n <= off \/ off + length bs <= o)%nat ->
  read_bytes pkt' o n = read_bytes pkt o n.
Proof.
  intros Hw Ho. pose proof (length_write _ _ _ _ Hw) as Hl. revert Hw. unfold write_bytes.
  case_decide as Hin; [|done]. intros [= Hp]. unfold read_bytes. rewrite Hl. case_decide; [|done]. f_equal.
  apply list_eq. intros i. destruct (decide (i < n)%nat) as [Hi|Hi];
    [|by rewrite !lookup_take_ge by lia].
  rewrite !lookup_take_lt, !lookup_drop by done. rewrite <- Hp.
  destruct Ho as [Ho|Ho].
  - rewrite lookup_app_l by (rewrite length_take; lia). by rewrite lookup_take_lt by lia.
  - rewrite lookup_app_r by (rewrite length_take; lia). rewrite length_take, Nat.min_l by lia.
    rewrite lookup_app_r by lia. rewrite lookup_drop. f_equal. lia.
Qed.

(** The bytes a description is about: the place and the width of its fields. *)
Definition fields (d : array_desc) : list (Z * Z) :=
  [(array_offset d, 8); (count_offset d, 4)] ++ (if 0 <=? size_offset d then [(size_offset d, 4)] else []).

Definition field_ok (f : Z * Z) : bool :=
  (0 <=? fst f) && (fst f mod snd f =? 0) && (fst f + snd f <=? sizeof_bpf_prog_info).
Definition apart (f g : Z * Z) : bool := (fst f + snd f <=? fst g) || (fst g + snd g <=? fst f).
Definition all_apart (fs gs : list (Z * Z)) : bool := forallb (fun f => forallb (apart f) gs) fs.

(** Every field is aligned and inside, and the fields do not overlap. *)
Fixpoint descs_ok (ds : list array_desc) : bool :=
  match ds with
  | [] => true
  | d :: ds =>
      forallb field_ok (fields d) && apart (array_offset d, 8) (count_offset d, 4) &&
      forallb (fun f => apart f (array_offset d, 8) && apart f (count_offset d, 4)) (drop 2 (fields d)) &&
      forallb (fun d' => all_apart (fields d) (fields d') && all_apart (fields d') (fields d)) ds &&
      descs_ok ds
  end.

Lemma descs_are_ok : descs_ok bpf_prog_info_array_desc = true.
Proof. vm_compute. reflexivity. Qed.

Section Layout.
Context `{HostOrder}.

(** What is read of a field; a size that is no field is the same everywhere. *)
Definition get (info : bytes) (f : Z * Z) : option bytes := read_bytes info (Z.to_nat (fst f)) (Z.to_nat (snd f)).

Definition agree (fs : list (Z * Z)) (b b' : bytes) : Prop := Forall (fun f => get b' f = get b f) fs.

Definition sized (b : bytes) : Prop := Z.of_nat (length b) = sizeof_bpf_prog_info.

Lemma aligned o n : (0 < n) -> o mod n = 0 -> n * (o / n) = o.
Proof. intros Hn Ho. pose proof (Z.div_mod o n). lia. Qed.

Lemma field_ok_spec f : field_ok f = true ->
  0 <= fst f /\ fst f mod snd f = 0 /\ fst f + snd f <= sizeof_bpf_prog_info.
Proof. unfold field_ok. rewrite !andb_true_iff, !Z.leb_le, Z.eqb_eq. tauto. Qed.

Lemma get_defined b f : sized b -> field_ok f = true -> 0 <= snd f -> exists x, get b f = Some x.
Proof.
  intros Hb (H0 & _ & H1)%field_ok_spec Hs. unfold get. apply read_bytes_in. unfold sized in Hb. lia.
Qed.

Lemma read_u32_get b o : field_ok (o, 4) = true ->
  bpf_prog_info_read_offset_u32 b o = load <$> get b (o, 4).
Proof.
  intros (H0 & H1 & _)%field_ok_spec. cbn [fst snd] in *. unfold bpf_prog_info_read_offset_u32, read32, get.
  rewrite (proj2 (Z.leb_le _ _)), aligned by lia. done.
Qed.

Lemma read_u64_get b o : field_ok (o, 8) = true ->
  bpf_prog_info_read_offset_u64 b o = load <$> get b (o, 8).
Proof.
  intros (H0 & H1 & _)%field_ok_spec. cbn [fst snd] in *. unfold bpf_prog_info_read_offset_u64, read64, get.
  rewrite (proj2 (Z.leb_le _ _)), aligned by lia. done.
Qed.

(** Writing a field. *)
Lemma put_field b f v : sized b -> field_ok f = true -> 0 <= snd f ->
  exists b', write_bytes b (Z.to_nat (fst f)) (store (Z.to_nat (snd f)) v) = Some b' /\ sized b' /\
    get b' f = Some (store (Z.to_nat (snd f)) v) /\
    forall g, 0 <= fst g -> 0 <= snd g -> apart g f = true -> get b' g = get b g.
Proof.
  intros Hb (H0 & H1 & H2)%field_ok_spec Hs. unfold sized in *.
  rewrite write_bytes_Some by (rewrite length_store; lia). eexists. split; [done|].
  set (b' := take _ _ ++ _). assert (write_bytes b (Z.to_nat (fst f)) (store (Z.to_nat (snd f)) v) = Some b') as Hw.
  { apply write_bytes_Some. rewrite length_store. lia. }
  split; [by rewrite (length_write _ _ _ _ Hw)|]. split.
  - unfold get. pose proof (read_write_same _ _ _ _ Hw) as Hr. by rewrite length_store in Hr.
  - intros g Hg1 Hg2 Hap. unfold get. eapply read_write_other; [exact Hw|]. rewrite length_store.
    unfold apart in Hap. apply orb_true_iff in Hap as [Hap%Z.leb_le|Hap%Z.leb_le]; lia.
Qed.

Definition array_field (d : array_desc) : Z * Z := (array_offset d, 8).
Definition away (g : Z * Z) (ds : list array_desc) : Prop :=
  0 <= fst g /\ 0 <= snd g /\ Forall (fun d => forall f, f ∈ fields d -> apart g f = true) ds.

Lemma array_in_fields d : array_field d ∈ fields d.
Proof. by left. Qed.

Lemma descs_ok_cons d ds : descs_ok (d :: ds) = true ->
  (forall f, f ∈ fields d -> field_ok f = true /\ 0 <= snd f /\ away f ds) /\
  apart (array_offset d, 8) (count_offset d, 4) = true /\
  (forall f, f ∈ drop 2 (fields d) -> apart f (array_offset d, 8) = true /\ apart f (count_offset d, 4) = true) /\
  descs_ok ds = true.
Proof.
  cbn [descs_ok]. rewrite !andb_true_iff, !forallb_forall. intros ((((Hf & Hac) & Hs) & Ha) & Hds).
  split; [|split; [done|split; [|done]]].
  - intros f Hin. assert (List.In f (fields d)) as Hin' by (by apply list_elem_of_In).
    pose proof (Hf f Hin') as Hok. split; [done|].
    assert (0 <= snd f) as Hs0.
    { assert (List.Forall (fun f => 0 <= snd f) (fields d)) as Hall.
      { unfold fields. destruct (0 <=? size_offset d); repeat constructor; cbn; lia. }
      rewrite List.Forall_forall in Hall. by apply Hall. }
    split; [done|]. split; [apply (field_ok_spec f Hok)|]. split; [done|].
    apply List.Forall_forall. intros d' Hd' g Hg. specialize (Ha d' Hd'). apply andb_true_iff in Ha as [Ha _]. unfold all_apart in Ha.
    rewrite forallb_forall in Ha. specialize (Ha f Hin'). rewrite forallb_forall in Ha.
    apply Ha. by apply list_elem_of_In.
  - intros f Hin. apply list_elem_of_In in Hin. specialize (Hs f Hin). by apply andb_true_iff in Hs.
Qed.

Lemma away_cons g d ds : away g (d :: ds) ->
  0 <= fst g /\ 0 <= snd g /\ (forall f, f ∈ fields d -> apart g f = true) /\ away g ds.
Proof. intros (? & ? & Hall). apply list.Forall_cons in Hall as [? ?]. done. Qed.

(** A pointer of an array. *)
Lemma read_pointer b d : sized b -> field_ok (array_field d) = true ->
  exists v, bpf_prog_info_read_offset_u64 b (array_offset d) = Some v.
Proof.
  intros Hb Hok. rewrite read_u64_get by done. destruct (get_defined b (array_field d)) as [x Hx]; [done|done|cbn; lia|].
  exists (load x). change (array_offset d, 8) with (array_field d). by rewrite Hx.
Qed.

Lemma set_pointer b d v : sized b -> field_ok (array_field d) = true ->
  exists b', bpf_prog_info_set_offset_u64 b (array_offset d) v = Some b' /\ sized b' /\
    bpf_prog_info_read_offset_u64 b' (array_offset d) = Some (u64 v) /\
    forall g, 0 <= fst g -> 0 <= snd g -> apart g (array_field d) = true -> get b' g = get b g.
Proof.
  intros Hb Hok. destruct (put_field b (array_field d) v) as (b' & Hw & Hb' & Hg & Ho); [done|done|cbn; lia|].
  exists b'. cbn [array_field fst snd] in *. pose proof (field_ok_spec _ Hok) as (H0 & H1 & _). cbn [array_field fst snd] in *.
  unfold bpf_prog_info_set_offset_u64. rewrite (proj2 (Z.leb_le _ _)), aligned by lia.
  split; [done|]. split; [done|]. split; [|done]. rewrite read_u64_get by done.
  change (array_offset d, 8) with (array_field d). rewrite Hg.
  cbn [fmap option_fmap option_map]. by rewrite load_store.
Qed.

(** Where the pointers of the arrays that are there have been shifted. *)
Lemma shift_arrays_spec ds i arrays shift b :
  descs_ok ds = true -> sized b ->
  exists b', shift_arrays ds i arrays shift b = Some b' /\ sized b' /\
    (forall g, away g ds -> get b' g = get b g) /\
    forall k d, ds !! k = Some d -> exists v, bpf_prog_info_read_offset_u64 b (array_offset d) = Some v /\
      bpf_prog_info_read_offset_u64 b' (array_offset d) =
        Some (if wants arrays (i + Z.of_nat k) then u64 (shift v) else v).
Proof.
  revert i b. induction ds as [|d ds IH]; intros i b Hok Hb; cbn [shift_arrays].
  { exists b. repeat split; [done|]. intros k d Hk. by rewrite lookup_nil in Hk. }
  apply descs_ok_cons in Hok as (Hf & _ & _ & Hds).
  destruct (Hf (array_field d) (array_in_fields d)) as (Haf & _ & Haw).
  destruct (read_pointer b d Hb Haf) as [v Hv].
  assert (forall b1 b', sized b1 -> sized b' -> get b' (array_field d) = get b1 (array_field d) ->
    bpf_prog_info_read_offset_u64 b' (array_offset d) = bpf_prog_info_read_offset_u64 b1 (array_offset d)) as Hread.
  { intros b1 b' _ _ E. rewrite !read_u64_get by done. change (array_offset d, 8) with (array_field d). by rewrite E. }
  destruct (wants arrays i) eqn:Ew; cbn [negb].
  - rewrite Hv. cbn [mbind option_bind].
    destruct (set_pointer b d (shift v) Hb Haf) as (b1 & -> & Hb1 & Hv1 & Ho). cbn [mbind option_bind].
    destruct (IH (i + 1) b1 Hds Hb1) as (b' & -> & Hb' & Haway & Hk). exists b'. split; [done|]. split; [done|]. split.
    + intros g (Hg1 & Hg2 & Hg3 & Hg4)%away_cons. rewrite Haway by done. apply Ho; [done|done|]. apply Hg3, array_in_fields.
    + intros [|k] d' Hd'; cbn in Hd'.
      * injection Hd' as <-. exists v. split; [done|]. rewrite Z.add_0_r, Ew.
        rewrite (Hread b1 b') by (done || by apply Haway). done.
      * destruct (Hk k d' Hd') as (v' & Hv' & Hr'). exists v'.
        replace (i + Z.of_nat (S k)) with (i + 1 + Z.of_nat k) by lia. split; [|done].
        rewrite <- Hv'. symmetry.
        assert (field_ok (array_field d') = true) as Hf'.
        { clear -Hds Hd'. revert k Hd'. induction ds as [|e ds IHds]; intros k Hk; [done|].
          apply descs_ok_cons in Hds as (Hf & _ & _ & Hds). destruct k; cbn in Hk; [|by eapply IHds].
          injection Hk as <-. by apply Hf, array_in_fields. }
        rewrite !read_u64_get by done. f_equal. apply Ho; [|cbn; lia|].
        -- apply (field_ok_spec _ Hf').
        -- destruct Haw as (_ & _ & Hall). rewrite list.Forall_forall in Hall.
           specialize (Hall d' (list_elem_of_lookup_2 _ _ _ Hd') (array_field d') (array_in_fields d')).
           revert Hall. unfold apart. rewrite orb_comm. done.
  - destruct (IH (i + 1) b Hds Hb) as (b' & -> & Hb' & Haway & Hk). exists b'. split; [done|]. split; [done|]. split.
    + intros g (_ & _ & _ & Hg)%away_cons. by apply Haway.
    + intros [|k] d' Hd'; cbn in Hd'.
      * injection Hd' as <-. exists v. split; [done|]. rewrite Z.add_0_r, Ew.
        by rewrite (Hread b b') by (done || by apply Haway).
      * destruct (Hk k d' Hd') as (v' & Hv' & Hr'). exists v'.
        by replace (i + Z.of_nat (S k)) with (i + 1 + Z.of_nat k) by lia.
Qed.

Definition pointer (b : bytes) (k : nat) : option Z :=
  d ← bpf_prog_info_array_desc !! k; bpf_prog_info_read_offset_u64 b (array_offset d).

(** A block whose pointers are made offsets at one address and pointers again at
    another has every pointer of an array moved by the distance, and every other field
    as it was. *)
Theorem bpil_moves base base' l :
  sized (info l) ->
  exists l1 l2, bpf_program__bpil_addr_to_offs base l = Some l1 /\
    bpf_program__bpil_offs_to_addr base' l1 = Some l2 /\
    arrays l2 = arrays l /\ data l2 = data l /\ data_len l2 = data_len l /\
    (forall g, away g bpf_prog_info_array_desc -> get (info l2) g = get (info l) g) /\
    forall k, (k < 9)%nat -> exists v, pointer (info l) k = Some v /\
      pointer (info l1) k = Some (if wants (arrays l) (Z.of_nat k) then u64 (v - base) else v) /\
      pointer (info l2) k = Some (if wants (arrays l) (Z.of_nat k) then u64 (v + (base' - base)) else v).
Proof.
  intros Hb. unfold bpf_program__bpil_addr_to_offs, bpf_program__bpil_offs_to_addr.
  destruct (shift_arrays_spec bpf_prog_info_array_desc 0 (arrays l) (fun addr => u64 (addr - base)) (info l))
    as (b1 & -> & Hb1 & Ha1 & Hk1); [exact descs_are_ok|done|]. cbn [mbind option_bind].
  destruct (shift_arrays_spec bpf_prog_info_array_desc 0 (arrays l) (fun offs => u64 (offs + base')) b1)
    as (b2 & E2 & Hb2 & Ha2 & Hk2); [exact descs_are_ok|done|].
  exists (set_info b1 l), (set_info b2 l). cbn [arrays info set_info data data_len]. rewrite E2.
  repeat (split; [done|]). split; [by intros g Hg; rewrite Ha2, Ha1|].
  intros k Hk. destruct (lookup_lt_is_Some_2 bpf_prog_info_array_desc k Hk) as [d Hd]. unfold pointer. rewrite Hd.
  cbn [mbind option_bind]. destruct (Hk1 k d Hd) as (v & Hv & Hv1). destruct (Hk2 k d Hd) as (v1 & Hv1' & Hv2).
  exists v. split; [done|]. rewrite Hv1' in Hv1. injection Hv1 as ->. rewrite Hv1', Hv2.
  rewrite Z.add_0_l. destruct (wants _ _); [|done]. split; f_equal.
  - unfold u64. by rewrite Zmod_mod.
  - unfold u64. rewrite !Zmod_mod, Zplus_mod_idemp_l. f_equal. lia.
Qed.
End Layout.

(** ** The block is large enough *)

Section Fits.
Context `{HostOrder}.

(** What the fields of an array say; a field outside the structure does not occur. *)
Definition field32 (b : bytes) (o : Z) : Z := default 0 (bpf_prog_info_read_offset_u32 b o).
Definition array_size (b : bytes) (d : array_desc) : Z :=
  field32 b (count_offset d) * field32 b (size_offset d).

(** The bytes of the arrays there are, without wrapping. *)
Fixpoint extent (ds : list array_desc) (i arrays : Z) (b : bytes) : Z :=
  match ds with
  | [] => 0
  | d :: ds => (if wants arrays i then array_size b d else 0) + extent ds (i + 1) arrays b
  end.

Definition is_info (b : bytes) : Prop := sized b /\ Forall byte_ok b.

Definition desc_ok (d : array_desc) : Prop := forall f, f ∈ fields d -> field_ok f = true /\ 0 <= snd f.

Lemma count_in_fields d : (count_offset d, 4) ∈ fields d.
Proof. right. by left. Qed.

Lemma size_in_fields d : 0 <= size_offset d -> (size_offset d, 4) ∈ drop 2 (fields d).
Proof. intros H0. unfold fields. rewrite (proj2 (Z.leb_le _ _) H0). by left. Qed.

Lemma size_in_all_fields d : 0 <= size_offset d -> (size_offset d, 4) ∈ fields d.
Proof. intros Hs. rewrite <- (take_drop 2 (fields d)). apply elem_of_app. right. by apply size_in_fields. Qed.

Lemma descs_ok_desc ds d : descs_ok ds = true -> d ∈ ds -> desc_ok d.
Proof.
  induction ds as [|e ds IH]; intros Hok Hd; [by apply elem_of_nil in Hd|].
  apply descs_ok_cons in Hok as (Hf & _ & _ & Hds). apply elem_of_cons in Hd as [->|Hd]; [|auto].
  intros f Hin. by destruct (Hf f Hin) as (? & ? & _).
Qed.

Lemma read_field b o : is_info b -> field_ok (o, 4) = true ->
  bpf_prog_info_read_offset_u32 b o = Some (field32 b o) /\ 0 <= field32 b o < 2 ^ 32.
Proof.
  intros [Hs Hb] Hok. unfold field32. rewrite read_u32_get by done.
  destruct (get_defined b (o, 4) Hs Hok) as [x Hx]; [cbn; lia|]. rewrite Hx. split; [done|].
  change (0 <= load x < 2 ^ 32). revert Hx. unfold get, read_bytes. case_decide as Hin; [|done].
  cbn [fst snd] in *. intros [= <-]. pose proof (load_bounds _ (Forall_take _ (Z.to_nat 4) _ (Forall_drop _ (Z.to_nat o) _ Hb))) as Hbd. rewrite length_take, length_drop in Hbd.
  by replace (Z.of_nat (Z.to_nat 4 `min` _)) with 4 in Hbd by lia.
Qed.

Lemma read_size b d : is_info b -> desc_ok d -> -(2 ^ 32) < size_offset d ->
  bpf_prog_info_read_offset_u32 b (size_offset d) = Some (field32 b (size_offset d)) /\
  0 <= field32 b (size_offset d) < 2 ^ 32.
Proof.
  intros Hb Hd Hr. destruct (Z.leb_spec 0 (size_offset d)) as [Hs|Hs].
  - apply read_field; [done|]. by apply Hd, size_in_all_fields.
  - unfold field32, bpf_prog_info_read_offset_u32. rewrite (proj2 (Z.leb_gt _ _)) by done.
    split; [done|]. cbn. unfold u32. apply Z.mod_pos_bound. lia.
Qed.

Lemma array_size_pos b d : is_info b -> desc_ok d -> -(2 ^ 32) < size_offset d -> 0 <= array_size b d.
Proof.
  intros Hb Hd Hr. destruct (read_field b (count_offset d) Hb) as [_ Hc]; [apply Hd, count_in_fields|].
  destruct (read_size b d Hb Hd Hr) as [_ Hs]. unfold array_size. nia.
Qed.

Definition sizes_ok (ds : list array_desc) : Prop := Forall (fun d => -(2 ^ 32) < size_offset d) ds.

Lemma extent_pos ds i arrays b : is_info b -> descs_ok ds = true -> sizes_ok ds -> 0 <= extent ds i arrays b.
Proof.
  intros Hb. revert i. induction ds as [|d ds IH]; intros i Hok Hs; cbn [extent]; [done|].
  apply list.Forall_cons in Hs as [Hs1 Hs].
  assert (desc_ok d) as Hd by (eapply descs_ok_desc; [done|by left]).
  pose proof (array_size_pos b d Hb Hd Hs1). apply descs_ok_cons in Hok as (_ & _ & _ & Hok).
  specialize (IH (i + 1) Hok Hs). destruct (wants _ _); lia.
Qed.

Lemma array_bytes_eq b d : is_info b -> desc_ok d -> -(2 ^ 32) < size_offset d ->
  array_bytes b d = Some (u32 (array_size b d)).
Proof.
  intros Hb Hd Hr. unfold array_bytes. destruct (read_field b (count_offset d) Hb) as [-> _]; [apply Hd, count_in_fields|].
  destruct (read_size b d Hb Hd Hr) as [-> _]. done.
Qed.

(** ** Bits *)

Lemma wants_testbit a i : 0 <= i -> wants a i = Z.testbit a i.
Proof.
  intros Hi. unfold wants. rewrite Z.shiftl_1_l. destruct (Z.testbit a i) eqn:Et.
  - apply negb_true_iff, Z.eqb_neq. intros He. apply (f_equal (fun z => Z.testbit z i)) in He.
    by rewrite Z.land_spec, Z.pow2_bits_true, Et, Z.bits_0 in He.
  - apply negb_false_iff, Z.eqb_eq, Z.bits_inj'. intros n Hn.
    rewrite Z.land_spec, Z.bits_0, Z.pow2_bits_eqb by done.
    destruct (Z.eqb_spec i n) as [<-|]; [by rewrite Et|apply andb_false_r].
Qed.

Lemma wants_ldiff a i j : 0 <= i -> 0 <= j ->
  wants (Z.ldiff a (Z.shiftl 1 i)) j = wants a j && negb (i =? j).
Proof. intros Hi Hj. rewrite !wants_testbit, Z.ldiff_spec, Z.shiftl_1_l, Z.pow2_bits_eqb by done. done. Qed.

(** Step 2 finds the arrays the kernel knows and their size. *)
Lemma total_size_spec ds i info len arrays acc :
  is_info info -> descs_ok ds = true -> sizes_ok ds -> 0 <= i ->
  exists arrays', total_size ds i info len arrays (u32 acc) = Some (arrays', u32 (acc + extent ds i arrays' info)) /\
    (forall j, 0 <= j < i -> wants arrays' j = wants arrays j) /\
    forall k d, ds !! k = Some d ->
      wants arrays' (i + Z.of_nat k) = wants arrays (i + Z.of_nat k) && known len d.
Proof.
  intros Hinfo. revert i arrays acc. induction ds as [|d ds IH]; intros i arrays acc Hok Hs Hi; cbn [total_size].
  { exists arrays. cbn [extent]. rewrite Z.add_0_r. split; [done|]. split; [done|].
    intros k d Hk. by rewrite lookup_nil in Hk. }
  assert (desc_ok d) as Hd by (eapply descs_ok_desc; [done|by left]).
  apply list.Forall_cons in Hs as [Hs1 Hs]. apply descs_ok_cons in Hok as (_ & _ & _ & Hok).
  destruct (wants arrays i && known len d) eqn:Ew; cbn [negb].
  - rewrite array_bytes_eq by done. cbn [mbind option_bind].
    replace (u32 (u32 acc + u32 (array_size info d))) with (u32 (acc + array_size info d))
      by (unfold u32; by rewrite Zplus_mod).
    destruct (IH (i + 1) arrays (acc + array_size info d) Hok Hs) as (a & -> & Hlo & Hk); [lia|].
    exists a. cbn [extent]. assert (wants a i = true) as Hai.
    { rewrite Hlo by lia. by apply andb_true_iff in Ew as [-> _]. }
    rewrite Hai. split; [do 3 f_equal; lia|]. split; [intros j Hj; apply Hlo; lia|].
    intros [|k] d' Hd'; cbn in Hd'.
    + injection Hd' as <-. by rewrite Z.add_0_r, Hai, Ew.
    + replace (i + Z.of_nat (S k)) with (i + 1 + Z.of_nat k) by lia. by apply Hk.
  - destruct (IH (i + 1) (Z.ldiff arrays (Z.shiftl 1 i)) acc Hok Hs) as (a & -> & Hlo & Hk); [lia|].
    exists a. cbn [extent]. assert (wants a i = false) as Hai.
    { rewrite Hlo, wants_ldiff, Z.eqb_refl by lia. apply andb_false_r. }
    rewrite Hai. split; [done|]. split.
    { intros j Hj. rewrite Hlo, wants_ldiff by lia. destruct (Z.eqb_spec i j); [lia|]. apply andb_true_r. }
    intros [|k] d' Hd'; cbn in Hd'.
    + injection Hd' as <-. by rewrite Z.add_0_r, Hai, Ew.
    + replace (i + Z.of_nat (S k)) with (i + 1 + Z.of_nat k) by lia. rewrite (Hk k d' Hd'), wants_ldiff by lia.
      destruct (Z.eqb_spec i (i + 1 + Z.of_nat k)); [lia|]. by rewrite andb_true_r.
Qed.

(** ** Placing *)

Lemma fields_of_away g d ds : away g ds -> d ∈ ds -> forall f, f ∈ fields d -> apart g f = true.
Proof. intros (_ & _ & Hall) Hd. rewrite list.Forall_forall in Hall. by apply Hall. Qed.

Lemma set_field b o v : sized b -> field_ok (o, 4) = true ->
  exists b', bpf_prog_info_set_offset_u32 b o v = Some b' /\ sized b' /\ get b' (o, 4) = Some (store 4 v) /\
    forall g, 0 <= fst g -> 0 <= snd g -> apart g (o, 4) = true -> get b' g = get b g.
Proof.
  intros Hb Hok. destruct (put_field b (o, 4) v Hb Hok) as (b' & Hw & Hb' & Hg & Ho); [cbn; lia|].
  cbn [fst snd] in *. pose proof (field_ok_spec _ Hok) as (H0 & H1 & _). cbn [fst snd] in *.
  exists b'. unfold bpf_prog_info_set_offset_u32. rewrite (proj2 (Z.leb_le _ _)), aligned by lia. done.
Qed.

Lemma set_size b d v : sized b -> desc_ok d ->
  exists b', bpf_prog_info_set_offset_u32 b (size_offset d) v = Some b' /\ sized b' /\
    (0 <= size_offset d -> get b' (size_offset d, 4) = Some (store 4 v)) /\
    forall g, 0 <= fst g -> 0 <= snd g -> (0 <= size_offset d -> apart g (size_offset d, 4) = true) ->
      get b' g = get b g.
Proof.
  intros Hb Hd. destruct (Z.leb_spec 0 (size_offset d)) as [Hs|Hs].
  - destruct (set_field b (size_offset d) v Hb) as (b' & H1 & H2 & H3 & H4); [by apply Hd, size_in_all_fields|].
    exists b'. repeat split; auto.
  - exists b. unfold bpf_prog_info_set_offset_u32. rewrite (proj2 (Z.leb_gt _ _)) by done. repeat split; [done|lia].
Qed.

Lemma apart_sym f g : apart f g = apart g f.
Proof. unfold apart. apply orb_comm. Qed.

(** One array placed: its three fields, and nothing else. *)
Lemma place_one b d count size ptr : sized b -> descs_ok [d] = true ->
  exists b1 b2 b3, bpf_prog_info_set_offset_u32 b (count_offset d) count = Some b1 /\
    bpf_prog_info_set_offset_u32 b1 (size_offset d) size = Some b2 /\
    bpf_prog_info_set_offset_u64 b2 (array_offset d) ptr = Some b3 /\ sized b3 /\
    bpf_prog_info_read_offset_u64 b3 (array_offset d) = Some (u64 ptr) /\
    field32 b3 (count_offset d) = u32 count /\
    (0 <= size_offset d -> field32 b3 (size_offset d) = u32 size) /\
    forall g, away g [d] -> get b3 g = get b g.
Proof.
  intros Hb Hok. assert (desc_ok d) as Hd by (eapply descs_ok_desc; [done|by left]).
  apply descs_ok_cons in Hok as (Hf & Hac & Hs & _).
  destruct (Hd _ (count_in_fields d)) as [Hcok _]. destruct (Hd _ (array_in_fields d)) as [Haok _].
  pose proof (field_ok_spec _ Hcok) as (Hc0 & _). cbn [fst] in Hc0.
  destruct (set_field b (count_offset d) count Hb Hcok) as (b1 & H1 & Hb1 & Hg1 & Ho1).
  destruct (set_size b1 d size Hb1 Hd) as (b2 & H2 & Hb2 & Hg2 & Ho2).
  destruct (set_pointer b2 d ptr Hb2 Haok) as (b3 & H3 & Hb3 & Hg3 & Ho3).
  exists b1, b2, b3. do 5 (split; [done|]). split; [|split].
  - unfold field32. rewrite read_u32_get by done. rewrite Ho3; [|exact Hc0|cbn; lia|rewrite apart_sym; exact Hac].
    rewrite Ho2; [|exact Hc0|cbn; lia|]; [|intros Hs0; rewrite apart_sym; by apply (Hs _ (size_in_fields d Hs0))].
    rewrite Hg1. cbn. by rewrite load_store.
  - intros Hs0. destruct (Hs _ (size_in_fields d Hs0)) as [Hsa _].
    unfold field32. rewrite read_u32_get by (by apply Hd, size_in_all_fields).
    rewrite Ho3; [|exact Hs0|cbn; lia|exact Hsa]. rewrite (Hg2 Hs0). cbn. by rewrite load_store.
  - intros g (Hg0 & Hgs & Hgd & _)%away_cons.
    rewrite Ho3; [|done|done|by apply Hgd, array_in_fields].
    rewrite Ho2; [|done|done|intros Hs0; by apply Hgd, size_in_all_fields].
    apply Ho1; [done|done|by apply Hgd, count_in_fields].
Qed.

Lemma read64_same b b' d : field_ok (array_field d) = true -> get b' (array_field d) = get b (array_field d) ->
  bpf_prog_info_read_offset_u64 b' (array_offset d) = bpf_prog_info_read_offset_u64 b (array_offset d).
Proof. intros Hok E. rewrite !read_u64_get by done. unfold array_field in E. by rewrite E. Qed.

Lemma field32_same b b' o : field_ok (o, 4) = true -> get b' (o, 4) = get b (o, 4) -> field32 b' o = field32 b o.
Proof. intros Hok E. unfold field32. rewrite !read_u32_get by done. by rewrite E. Qed.

Lemma size_same b b' d : desc_ok d ->
  (0 <= size_offset d -> get b' (size_offset d, 4) = get b (size_offset d, 4)) ->
  field32 b' (size_offset d) = field32 b (size_offset d).
Proof.
  intros Hd E. destruct (Z.leb_spec 0 (size_offset d)) as [Hs|Hs].
  - apply field32_same; [by apply Hd, size_in_all_fields|auto].
  - unfold field32, bpf_prog_info_read_offset_u32. by rewrite (proj2 (Z.leb_gt _ _)).
Qed.

(** The pointer of an array behind [k] others, and its sizes, as it is placed. *)
Definition placed (ds : list array_desc) (i arrays ptr : Z) (from b : bytes) (k : nat) (d : array_desc) : Prop :=
  bpf_prog_info_read_offset_u64 b (array_offset d) = Some (u64 (ptr + extent (take k ds) i arrays from)) /\
  array_size b d = array_size from d.

Lemma place_arrays_spec ds i from arrays ptr b :
  is_info from -> descs_ok ds = true -> sizes_ok ds -> extent ds i arrays from < 2 ^ 32 -> sized b ->
  exists b', place_arrays ds i from arrays ptr b = Some b' /\ sized b' /\
    (forall g, away g ds -> get b' g = get b g) /\
    forall k d, ds !! k = Some d ->
      if wants arrays (i + Z.of_nat k) then placed ds i arrays ptr from b' k d
      else field32 b' (count_offset d) = field32 b (count_offset d).
Proof.
  intros Hfrom. revert i ptr b. induction ds as [|d ds IH]; intros i ptr b Hok Hs Hx Hb; cbn [place_arrays].
  { exists b. repeat split; [done|]. intros k d Hk. by rewrite lookup_nil in Hk. }
  assert (desc_ok d) as Hd by (eapply descs_ok_desc; [done|by left]).
  assert (descs_ok [d] = true) as Hok1.
  { cbn [descs_ok forallb] in *. rewrite !andb_true_iff in Hok |- *. tauto. }
  apply list.Forall_cons in Hs as [Hs1 Hs]. apply descs_ok_cons in Hok as (Hf & _ & _ & Hok).
  destruct (Hf _ (count_in_fields d)) as (Hcok & _ & Hca). destruct (Hf _ (array_in_fields d)) as (Haok & _ & Haa).
  pose proof (array_size_pos from d Hfrom Hd Hs1) as Hn0. pose proof (extent_pos ds (i + 1) arrays from Hfrom Hok Hs) as He0.
  cbn [extent] in Hx. destruct (wants arrays i) eqn:Ew; cbn [negb].
  - destruct (read_field from (count_offset d) Hfrom Hcok) as [Hc Hcr]. destruct (read_size from d Hfrom Hd Hs1) as [Hz Hzr].
    rewrite Hc, Hz. cbn [mbind option_bind].
    destruct (place_one b d (field32 from (count_offset d)) (field32 from (size_offset d)) ptr Hb Hok1)
      as (b1 & b2 & b3 & -> & E2 & E3 & Hb3 & Hp & Hcb & Hzb & Ho).
    cbn [mbind option_bind]. rewrite E2. cbn [mbind option_bind]. rewrite E3. cbn [mbind option_bind].
    change (field32 from (count_offset d) * field32 from (size_offset d)) with (array_size from d).
    rewrite (u32_id (array_size from d)) by lia.
    destruct (IH (i + 1) (ptr + array_size from d) b3 Hok Hs) as (b' & -> & Hb' & Haway & Hk); [lia|done|].
    exists b'. split; [done|]. split; [done|]. split.
    + intros g (Hg1 & Hg2 & Hg3 & Hg4)%away_cons. rewrite Haway by done. apply Ho.
      split; [done|]. split; [done|]. by constructor.
    + intros [|k] d' Hd'; cbn in Hd'.
      * injection Hd' as <-. rewrite Z.add_0_r, Ew. unfold placed. cbn [take extent]. rewrite Z.add_0_r.
        split; [rewrite (read64_same b3) by auto; done|]. unfold array_size.
        rewrite (field32_same b3 b'), (size_same b3 b' d Hd), Hcb, u32_id by (auto; intros; by apply Haway, Hf, size_in_all_fields).
        f_equal. destruct (Z.leb_spec 0 (size_offset d)) as [H0|H0]; [rewrite Hzb, u32_id by done; done|].
        unfold field32, bpf_prog_info_read_offset_u32. by rewrite (proj2 (Z.leb_gt _ _)).
      * specialize (Hk k d' Hd'). replace (i + Z.of_nat (S k)) with (i + 1 + Z.of_nat k) by lia.
        destruct (wants arrays (i + 1 + Z.of_nat k)).
        -- destruct Hk as [H1 H2]. split; [|done]. rewrite H1. cbn [take extent]. rewrite Ew. do 2 f_equal. lia.
        -- rewrite Hk. pose proof (descs_ok_desc ds d' Hok (list_elem_of_lookup_2 _ _ _ Hd')) as Hd2.
           destruct (Hd2 _ (count_in_fields d')) as [Hc' _].
           apply field32_same; [done|]. apply Ho. split; [apply (field_ok_spec _ Hc')|]. split; [cbn; lia|].
           constructor; [|by constructor]. intros f Hfd. rewrite apart_sym.
           destruct (Hf f Hfd) as (_ & _ & Hfa). eapply (fields_of_away f d'); [done| |apply count_in_fields].
           by eapply list_elem_of_lookup_2.
  - destruct (IH (i + 1) ptr b Hok Hs) as (b' & -> & Hb' & Haway & Hk); [lia|done|].
    exists b'. split; [done|]. split; [done|]. split.
    + intros g (_ & _ & _ & Hg)%away_cons. by apply Haway.
    + intros [|k] d' Hd'; cbn in Hd'.
      * injection Hd' as <-. rewrite Z.add_0_r, Ew. apply field32_same; [done|]. by apply Haway.
      * specialize (Hk k d' Hd'). replace (i + Z.of_nat (S k)) with (i + 1 + Z.of_nat k) by lia.
        destruct (wants arrays (i + 1 + Z.of_nat k)); [|done].
        destruct Hk as [H1 H2]. split; [|done]. rewrite H1. cbn [take extent]. by rewrite Ew.
Qed.
End Fits.

(** ** The kernel writes only where it was told *)

(** A write of the kernel lies in an array it was given, or is empty. *)
Definition write_in `{HostOrder} (b : bytes) (w : Z * bytes) : Prop :=
  snd w = [] \/ exists k d p, bpf_prog_info_array_desc !! k = Some d /\ pointer b k = Some p /\
    p <= fst w /\ fst w + Z.of_nat (length (snd w)) <= p + array_size b d.

Class ProgInfoLaws `{HostOrder} (W : Type) `{ProgInfoSys W} := {
  prog_info_law fd b len w err b' len' ws w' :
    sys_prog_info fd b len w = (err, b', len', ws, w') -> sized b -> is_info b' /\ Forall (write_in b) ws;
}.

Definition no_info : bytes := replicate (Z.to_nat sizeof_bpf_prog_info) 0.

Lemma sized_no_info : sized no_info.
Proof. done. Qed.

Lemma no_counts (ho : HostOrder) d : d ∈ bpf_prog_info_array_desc -> field32 no_info (count_offset d) = 0.
Proof.
  intros Hd. assert (Forall (fun d => field32 no_info (count_offset d) = 0) bpf_prog_info_array_desc) as Hall.
  { destruct ho; repeat (apply list.Forall_cons; split; [vm_compute; reflexivity|]); by apply list.Forall_nil. }
  rewrite list.Forall_forall in Hall. by apply Hall.
Qed.

Section Linearized.
Context `{HostOrder} {W : Type} `{ProgInfoSys W} `{!ProgInfoLaws W}.

Lemma descs_sizes : sizes_ok bpf_prog_info_array_desc.
Proof. unfold sizes_ok, bpf_prog_info_array_desc. repeat constructor; cbn; lia. Qed.

Lemma write_nothing b ws base data : (forall d, d ∈ bpf_prog_info_array_desc -> field32 b (count_offset d) = 0) ->
  Forall (write_in b) ws -> write_all ws base data = Some data.
Proof.
  intros Hz. induction 1 as [|[a bs] ws Hw Hws IH]; [done|]. cbn [write_all].
  destruct bs as [|x bs]; [done|]. exfalso. destruct Hw as [|(k & d & p & Hd & _ & H1 & H2)]; [done|].
  unfold array_size in H2. rewrite Hz in H2 by (by eapply list_elem_of_lookup_2). cbn in *. lia.
Qed.

Lemma write_all_inside b ws base data :
  (forall k d p, bpf_prog_info_array_desc !! k = Some d -> pointer b k = Some p -> 0 < array_size b d ->
    base <= p /\ p + array_size b d <= base + Z.of_nat (length data)) ->
  Forall (write_in b) ws -> exists data', write_all ws base data = Some data' /\ length data' = length data.
Proof.
  intros Hin Hws. revert data Hin. induction Hws as [|[a bs] ws Hw Hws IH]; intros data Hin; cbn [write_all]; [by eexists|].
  destruct bs as [|x bs]; [by apply IH|].
  destruct Hw as [|(k & d & p & Hd & Hp & H1 & H2)]; [done|]. cbn [fst snd] in *.
  destruct (Hin k d p Hd Hp) as [H3 H4]; [cbn [length] in *; lia|].
  rewrite (proj2 (Z.ltb_ge _ _)) by lia.
  assert (exists data', write_bytes data (Z.to_nat (a - base)) (x :: bs) = Some data') as [data' Hwr].
  { rewrite write_bytes_Some by lia. by eexists. }
  rewrite Hwr. cbn [mbind option_bind]. pose proof (length_write _ _ _ _ Hwr) as Hl. rewrite <- Hl. apply IH. by rewrite Hl.
Qed.

Lemma extent_app ds ds' i arrays b :
  extent (ds ++ ds') i arrays b = extent ds i arrays b + extent ds' (i + Z.of_nat (length ds)) arrays b.
Proof.
  revert i. induction ds as [|d ds IH]; intros i; cbn [extent app length]; [by rewrite Z.add_0_r|].
  rewrite IH. replace (i + 1 + Z.of_nat (length ds)) with (i + Z.of_nat (S (length ds))) by lia. lia.
Qed.

Lemma descs_ok_drop n ds : descs_ok ds = true -> descs_ok (drop n ds) = true.
Proof.
  revert ds. induction n as [|n IH]; intros [|d ds] Hok; try done. apply descs_ok_cons in Hok as (_ & _ & _ & Hok).
  cbn [drop]. by apply IH.
Qed.

(** An array behind those before it ends within all of them. *)
Lemma extent_take ds k d arrays b : is_info b -> descs_ok ds = true -> sizes_ok ds ->
  ds !! k = Some d -> wants arrays (Z.of_nat k) = true ->
  extent (take k ds) 0 arrays b + array_size b d <= extent ds 0 arrays b.
Proof.
  intros Hb Hok Hs Hd Hw. rewrite <- (take_drop_middle ds k d Hd) at 2. rewrite extent_app. cbn [extent].
  rewrite length_take_le by (apply lookup_lt_Some in Hd; lia). rewrite Z.add_0_l, Hw.
  pose proof (extent_pos (drop (S k) ds) (Z.of_nat k + 1) arrays b Hb) as Hp.
  assert (0 <= extent (drop (S k) ds) (Z.of_nat k + 1) arrays b); [|lia].
  apply Hp; [by apply descs_ok_drop|by apply Forall_drop].
Qed.

Lemma extent_fewer ds i arrays arrays' b : is_info b -> descs_ok ds = true -> sizes_ok ds ->
  (forall k d, ds !! k = Some d -> wants arrays' (i + Z.of_nat k) = true -> wants arrays (i + Z.of_nat k) = true) ->
  extent ds i arrays' b <= extent ds i arrays b.
Proof.
  intros Hb. revert i. induction ds as [|d ds IH]; intros i Hok Hs Hsub; cbn [extent]; [done|].
  assert (desc_ok d) as Hd by (eapply descs_ok_desc; [done|by left]).
  apply list.Forall_cons in Hs as [Hs1 Hs]. pose proof (array_size_pos b d Hb Hd Hs1).
  apply descs_ok_cons in Hok as (_ & _ & _ & Hok).
  assert (extent ds (i + 1) arrays' b <= extent ds (i + 1) arrays b).
  { apply IH; [done|done|]. intros k d' Hk. specialize (Hsub (S k) d' Hk).
    by replace (i + 1 + Z.of_nat k) with (i + Z.of_nat (S k)) by lia. }
  specialize (Hsub 0%nat d eq_refl). rewrite Z.add_0_r in Hsub.
  destruct (wants arrays' i) eqn:Ew; [rewrite Hsub by done|destruct (wants arrays i)]; lia.
Qed.

(** What the second call is asked for: the arrays wanted that the kernel knows, one
    behind the other from [base], and no room for any other. *)
Definition laid_out (arrays len base : Z) (info b : bytes) (arrays' : Z) : Prop :=
  forall k d, bpf_prog_info_array_desc !! k = Some d ->
    wants arrays' (Z.of_nat k) = wants arrays (Z.of_nat k) && known len d /\
    if wants arrays' (Z.of_nat k) then placed bpf_prog_info_array_desc 0 arrays' base info b k d
    else field32 b (count_offset d) = 0.

Lemma roundup_8 n : 0 <= n -> n <= roundup n 8 /\ roundup n 8 < n + 8.
Proof. intros Hn. unfold roundup. pose proof (Z.div_mod (n + (8 - 1)) 8). pose proof (Z.mod_pos_bound (n + (8 - 1)) 8). lia. Qed.

(** The kernel writes nothing outside the block. *)
Lemma second_call base info b arrays len arrays' ws data :
  is_info info -> laid_out arrays len base info b arrays' -> Forall (write_in b) ws ->
  0 <= base -> base + Z.of_nat (length data) <= 2 ^ 64 ->
  extent bpf_prog_info_array_desc 0 arrays' info <= Z.of_nat (length data) ->
  exists data', write_all ws base data = Some data' /\ length data' = length data.
Proof.
  intros Hinfo Hlay Hws Hb0 Hb64 Hx. apply (write_all_inside b); [|done].
  intros k d p Hd Hp Hsz. destruct (Hlay k d Hd) as [_ Hk]. destruct (wants arrays' (Z.of_nat k)) eqn:Ew.
  - destruct Hk as [Hpl Hsame].
    pose proof (extent_take _ k d arrays' info Hinfo descs_are_ok descs_sizes Hd Ew) as Hin.
    assert (0 <= extent (take k bpf_prog_info_array_desc) 0 arrays' info) as H0'.
    { apply extent_pos; [done| |apply Forall_take, descs_sizes].
      clear. do 10 (destruct k; [vm_compute; reflexivity|]). vm_compute; reflexivity. }
    revert Hp. unfold pointer. rewrite Hd. cbn [mbind option_bind]. rewrite Hpl. intros [= <-].
    rewrite Hsame in *. rewrite u64_id by lia. lia.
  - unfold array_size in Hsz. rewrite Hk in Hsz. lia.
Qed.

(** C23. The information of a program is read into one block that is large enough: the
    second call is given the arrays wanted that the kernel knows, behind one another in
    the block and with room for what the first call announced, and whatever it writes
    lies inside; a call that fails is [-EFAULT].  The announced sizes must stay below
    4 GB, since the sum is kept in 32 bits. *)
Theorem get_prog_info_linear_fits base junk fd arrays w err info len ws w1 :
  (forall n, length (junk n) = n) -> 0 <= base -> base + 2 ^ 32 <= 2 ^ 64 ->
  Z.shiftr arrays BPF_PROG_INFO_LAST_ARRAY = 0 ->
  sys_prog_info fd no_info sizeof_bpf_prog_info w = (err, info, len, ws, w1) ->
  extent bpf_prog_info_array_desc 0 arrays info < 2 ^ 32 - 8 ->
  if err =? 0 then
    exists b arrays' n, laid_out arrays len base info b arrays' /\
      extent bpf_prog_info_array_desc 0 arrays' info <= Z.of_nat n < 2 ^ 32 /\
      let '(err2, info2, _, ws2, w2) := sys_prog_info fd b len w1 in
      exists data, write_all ws2 base (junk n) = Some data /\ length data = n /\
        bpf_program__get_prog_info_linear base junk fd arrays w =
          Some (if err2 =? 0 then inr (InfoLinear sizeof_bpf_prog_info (Z.of_nat n) arrays' info2 data)
                else inl (- EFAULT), w2)
  else bpf_program__get_prog_info_linear base junk fd arrays w = Some (inl (- EFAULT), w1).
Proof.
  intros Hjunk Hb0 Hb64 Hsh Hsys Hx. unfold bpf_program__get_prog_info_linear. rewrite Hsh. cbn [negb Z.eqb].
  fold no_info. rewrite Hsys. destruct (prog_info_law _ _ _ _ _ _ _ _ _ Hsys sized_no_info) as [Hinfo Hws].
  rewrite (write_nothing no_info ws 0 []) by (done || apply no_counts). cbn [mbind option_bind].
  destruct (Z.eqb_spec err 0) as [->|Hne]; cbn [negb]; [|done].
  destruct (total_size_spec bpf_prog_info_array_desc 0 info len arrays 0) as (a & Ht & _ & Hk);
    [done|exact descs_are_ok|exact descs_sizes|done|]. change (u32 0) with 0 in Ht. rewrite Ht. cbn [mbind option_bind].
  rewrite Z.add_0_l. set (x := extent bpf_prog_info_array_desc 0 a info).
  assert (0 <= x) as Hx0 by (apply extent_pos; [done|exact descs_are_ok|exact descs_sizes]).
  assert (x <= extent bpf_prog_info_array_desc 0 arrays info) as Hxa.
  { apply extent_fewer; [done|exact descs_are_ok|exact descs_sizes|].
    intros k d Hd Hw. rewrite (Hk k d Hd) in Hw. by apply andb_true_iff in Hw as [? _]. }
  destruct (roundup_8 x Hx0) as [Hr1 Hr2]. rewrite !(u32_id x) by lia. rewrite u32_id by lia.
  destruct (place_arrays_spec bpf_prog_info_array_desc 0 info a base no_info) as (b & -> & Hsz & _ & Hpl);
    [done|exact descs_are_ok|exact descs_sizes|change (x < 2 ^ 32); lia|exact sized_no_info|]. cbn [mbind option_bind].
  assert (laid_out arrays len base info b a) as Hlay.
  { intros k d Hd. split; [exact (Hk k d Hd)|]. specialize (Hpl k d Hd). rewrite Z.add_0_l in Hpl.
    destruct (wants a (Z.of_nat k)); [done|]. rewrite Hpl. apply no_counts. by eapply list_elem_of_lookup_2. }
  exists b, a, (Z.to_nat (roundup x 8)). split; [done|]. split; [fold x; lia|].
  destruct (sys_prog_info fd b len w1) as [[[[err2 info2] len2] ws2] w2] eqn:Hsys2.
  destruct (prog_info_law _ _ _ _ _ _ _ _ _ Hsys2 Hsz) as [_ Hws2].
  destruct (second_call base info b arrays len a ws2 (junk (Z.to_nat (roundup x 8)))) as (data' & Hd' & Hl);
    [done|done|done|done|rewrite Hjunk; lia|rewrite Hjunk; fold x; lia|].
  exists data'. rewrite Hl, Hjunk. split; [done|]. split; [done|]. rewrite Hd'. cbn [mbind option_bind].
  rewrite Z2Nat.id by lia. by destruct (err2 =? 0).
Qed.
End Linearized.

(** ** On a concrete kernel *)

Module ProgInfoExamples.
#[export] Instance little : HostOrder := LittleEndian.

(** A program with two maps, whose numbers are 7 and 9. *)
Definition ids : bytes := store 4 7 ++ store 4 9.
Definition answer (p : Z) : bytes := replicate 52 0 ++ store 4 2 ++ store 8 p ++ replicate 144 0.
Definition asked (b : bytes) : nat := Z.to_nat (field32 b 52 `min` 2).

#[export] Instance two_maps : ProgInfoSys unit := {
  sys_prog_info fd b len w :=
    let p := default 0 (pointer b 2) in
    (0, answer p, 208, [(p, take (4 * asked b) ids)], w);
}.

#[export] Instance two_maps_laws : ProgInfoLaws unit.
Proof.
  split. intros fd b len w err b' len' ws w' [= <- <- <- <- <-] Hb. split.
  - unfold answer. split; [by unfold sized; rewrite !length_app, !length_replicate, !length_store|].
    repeat (apply Forall_app; split); try apply store_ok; apply Forall_replicate; done.
  - apply list.Forall_singleton. destruct (decide (asked b = 0%nat)) as [Hz|Hz]; [left; cbn [snd]; by rewrite Hz|].
    right. exists 2%nat, (ArrayDesc 56 52 (-4)). destruct (read_pointer b (ArrayDesc 56 52 (-4)) Hb eq_refl) as [p Hp].
    exists p. assert (pointer b 2 = Some p) as Hp' by exact Hp. rewrite Hp'. change (default 0 (Some p)) with p. cbn [fst snd].
    split; [done|]. split; [done|]. split; [lia|]. rewrite length_take.
    change (array_size b _) with (field32 b 52 * 4). unfold asked in *. change (length ids) with 8%nat. lia.
Qed.

Definition junk (n : nat) : bytes := replicate n 90.

Example maps_read : bpf_program__get_prog_info_linear 4096 junk 3 (Z.shiftl 1 2) tt =
  Some (inr (InfoLinear 208 8 4 (answer 4096) ids), tt).
Proof. vm_compute. done. Qed.

Example unknown_array : bpf_program__get_prog_info_linear 4096 junk 3 512 tt = Some (inl (- EINVAL), tt).
Proof. vm_compute. done. Qed.

Lemma get_prog_info_linear_fits_witness :
  exists b arrays' n, laid_out 4 208 4096 (answer 0) b arrays' /\
    exists data, length data = n /\
      bpf_program__get_prog_info_linear 4096 junk 3 4 tt =
        Some (inr (InfoLinear 208 (Z.of_nat n) arrays' (answer 4096) data), tt).
Proof.
  destruct (get_prog_info_linear_fits 4096 junk 3 4 tt 0
    (answer 0) 208 [(0, [])] tt)
    as (b & a & n & Hl & Hn & Hd); [intros n; apply length_replicate|done|done|done|vm_compute; reflexivity|vm_compute; reflexivity|].
  exists b, a, n. split; [done|].
  destruct (sys_prog_info 3 b 208 tt) as [[[[err2 info2] len2] ws2] w2] eqn:E.
  destruct Hd as (data & _ & Hlen & Hr). exists data. split; [done|]. rewrite Hr.
  assert (pointer b 2 = Some 4096) as Hp.
  { destruct (Hl 2%nat (ArrayDesc 56 52 (-4)) eq_refl) as [Hw Hk].
    rewrite Hw in Hk. destruct Hk as [Hpl _].
    assert (wants a 0 = false) as H0 by (apply (Hl 0%nat _ eq_refl)).
    assert (wants a 1 = false) as H1 by (apply (Hl 1%nat _ eq_refl)).
    cbn [take bpf_prog_info_array_desc extent] in Hpl. change (0 + 1) with 1 in Hpl. rewrite H0, H1 in Hpl. exact Hpl. }
  cbn [sys_prog_info two_maps] in E. rewrite Hp in E. by injection E as <- <- <- <- <-.
Defined.

(** The block is written to a file and read back at another address. *)
Definition maps_block : bpf_prog_info_linear :=
  InfoLinear 208 8 4 (answer 4096) ids.

Lemma bpil_moves_witness : exists l1 l2, bpf_program__bpil_addr_to_offs 4096 maps_block = Some l1 /\
  bpf_program__bpil_offs_to_addr 8192 l1 = Some l2 /\ pointer (info l1) 2 = Some 0 /\ pointer (info l2) 2 = Some 8192.
Proof.
  destruct (bpil_moves 4096 8192 maps_block) as (l1 & l2 & H1 & H2 & _ & _ & _ & _ & Hk); [done|].
  exists l1, l2. split; [done|]. split; [done|]. destruct (Hk 2%nat) as (v & Hv & Hv1 & Hv2); [lia|].
  rewrite Hv1, Hv2. vm_compute in Hv. injection Hv as <-. done.
Defined.
End ProgInfoExamples.
