(* ===== verification/Cpus.v ===== *)
(** * The number of CPUs

    Models [libbpf_num_possible_cpus] of [libbpf/src/libbpf.c] and
    [bpf_num_possible_cpus] of the two copies of [bpf_util.h], which read the list of
    CPUs in [/sys/devices/system/cpu/possible], with the conversions of [scanf] they and
    [PerfLink] use.  Text is its bytes. *)

From S2P Require Import Prelude BpfObject BpfCalls LoadExamples.
From Stdlib Require Import Ascii String.
From stdpp Require Import list.

Local Open Scope Z_scope.

#[local] Abbreviation bytes := (list Z).

(** ** Conversions of [scanf] *)

Definition is_digit (c : Z) : bool := (48 <=? c) && (c <=? 57).
Definition is_space (c : Z) : bool := (c =? 32) || ((9 <=? c) && (c <=? 13)).

Fixpoint skip_space (s : bytes) : bytes :=
  match s with c :: s' => if is_space c then skip_space s' else s | [] => [] end.

Fixpoint digits (s : bytes) (acc : Z) : Z * bytes :=
  match s with
  | c :: s' => if is_digit c then digits s' (10 * acc + (c - 48)) else (acc, s)
  | [] => (acc, [])
  end.

(** An input that ends before the conversion, one that does not match, or a number and
    what follows it. *)
Inductive scanned := Eof | Mismatch | Scanned (v : Z) (rest : bytes).

Definition sign (s : bytes) : Z * bytes :=
  match s with
  | c :: s' => if c =? 45 then (-1, s') else if c =? 43 then (1, s') else (1, s)
  | [] => (1, [])
  end.

(** A decimal conversion to numbers from [lo] to [hi]; undefined for any other number. *)
Definition scan_number (lo hi : Z) (s : bytes) : option scanned :=
  match skip_space s with
  | [] => Some Eof
  | s =>
      let '(sg, s) := sign s in
      match s with
      | [] => Some Mismatch
      | c :: _ =>
          if negb (is_digit c) then Some Mismatch else
          let '(v, rest) := digits s 0 in
          if (lo <=? sg * v) && (sg * v <=? hi) then Some (Scanned (sg * v) rest) else None
      end
  end.

Definition scan_d : bytes -> option scanned := scan_number (- 2 ^ 31) (2 ^ 31 - 1).
Definition scan_u : bytes -> option scanned := scan_number 0 (2 ^ 32 - 1).

(** [sscanf(s, "%u-%u", &start, &end)]: its answer and what it has stored. *)
Definition scan_range (s : bytes) : option (Z * option Z * option Z) :=
  first ← scan_u s;
  match first with
  | Eof => Some (-1, None, None)
  | Mismatch => Some (0, None, None)
  | Scanned start rest =>
      match rest with
      | c :: rest =>
          if c =? 45 then
            second ← scan_u rest;
            match second with
            | Scanned e _ => Some (2, Some start, Some e)
            | _ => Some (1, Some start, None)
            end
          else Some (1, Some start, None)
      | [] => Some (1, Some start, None)
      end
  end.

(** ** The count of libbpf *)

Definition EOVERFLOW : Z := 75.
Definition BUF : Z := 128.
Definition possible : string := "/sys/devices/system/cpu/possible".

(** [open(path, O_RDONLY)], and [read] of at most so many bytes: its answer and the
    bytes stored. *)
Class FileSys (W : Type) := {
  sys_open_ro : string -> W -> Z * W;
  sys_read : Z -> Z -> W -> Z * bytes * W;
}.

(** The [for] loop, at [ir] with the substring from [il] on: an error, or the count. *)
Fixpoint cpus_loop (n : nat) (buf : bytes) (ir il : nat) (tmp_cpus : Z) : option (Z + Z) :=
  match n with
  | O => Some (inr tmp_cpus)
  | S n =>
      c ← buf !! ir;
      if (c =? 44) || (c =? 0) then
        '(r, start, e) ← scan_range (take (ir - il) (drop il buf));
        if r <=? 0 then Some (inl (- EINVAL)) else
        start ← start;
        e ← (if r =? 1 then Some start else e);
        cpus_loop n buf (ir + 1) (ir + 1) (i32 (tmp_cpus + u32 (e - start + 1)))
      else cpus_loop n buf (ir + 1) il tmp_cpus
  end.

(** The text read. *)
Definition count_cpus (text : bytes) : option Z :=
  r ← cpus_loop (List.length text + 1) (text ++ [0]) 0 0 0;
  match r with
  | inl err => Some err
  | inr n => Some (if n <=? 0 then - EINVAL else n)
  end.

Section Count.
Context {W : Type} `{BpfKern W} `{BpfSys W} `{FileSys W}.

(** [cpus] is the static variable: the answer, its new value, the world. *)
Definition libbpf_num_possible_cpus (cpus : Z) (w : W) : option (Z * Z * W) :=
  if 0 <? cpus then Some (cpus, cpus, w) else
  let '(fd, w) := sys_open_ro possible w in
  if fd <? 0 then Some (- errno w, cpus, w) else
  let '(len, text, w) := sys_read fd BUF w in
  let '(_, w) := sys_close fd w in
  if len <=? 0 then Some (- (if len =? 0 then EINVAL else errno w), cpus, w) else
  if len =? BUF then Some (- EOVERFLOW, cpus, w) else
  n ← count_cpus text;
  Some (n, if 0 <? n then n else cpus, w).
End Count.

(** ** The count of [bpf_util.h] *)

Inductive counted := Exit | Cpus (n : Z).

(** One line of at most 127 characters. *)
Fixpoint fgets (n : nat) (s : bytes) : bytes :=
  match n, s with
  | S n, c :: s => if c =? 10 then [c] else c :: fgets n s
  | _, _ => []
  end.

(** Of the contents of the file, [None] when it cannot be opened. *)
Definition bpf_num_possible_cpus (file : option bytes) : option counted :=
  match file with
  | None => Some Exit
  | Some [] => Some (Cpus 0)
  | Some text =>
      '(n, start, e) ← scan_range (fgets 127 text);
      if n =? 0 then Some Exit else
      start ← start;
      e ← (if n =? 1 then Some start else e);
      Some (Cpus (if start =? 0 then u32 (e + 1) else 0))
  end.

(** ** What the kernel prints

    [cpumap_print_to_pagebuf]: ranges with commas between them, then a newline. *)

Fixpoint decimal (fuel : nat) (n : Z) : bytes :=
  match fuel with
  | O => []
  | S fuel => (if n <? 10 then [] else decimal fuel (n / 10)) ++ [48 + n mod 10]
  end.
(** Ten digits hold a number of 32 bits. *)
Definition print (n : Z) : bytes := decimal 10 n.

Definition print_range (r : Z * Z) : bytes :=
  if fst r =? snd r then print (fst r) else print (fst r) ++ 45 :: print (snd r).

Fixpoint print_ranges (rs : list (Z * Z)) : bytes :=
  match rs with
  | [] => []
  | [r] => print_range r ++ [10]
  | r :: rs => print_range r ++ 44 :: print_ranges rs
  end.

Definition range_ok (r : Z * Z) : Prop := 0 <= fst r <= snd r /\ snd r < 2 ^ 32.
Definition cpus_of (rs : list (Z * Z)) : Z := fold_right (fun r n => snd r - fst r + 1 + n) 0 rs.

(** Digits, and a character that is none. *)
Definition digit (c : Z) : Prop := 48 <= c <= 57.
Definition stops (s : bytes) : Prop := match s with c :: _ => is_digit c = false | [] => True end.

Lemma is_digit_iff c : is_digit c = true <-> digit c.
Proof. unfold is_digit, digit. rewrite andb_true_iff, !Z.leb_le. done. Qed.

Lemma decimal_digits fuel n : 0 <= n -> Forall digit (decimal fuel n).
Proof.
  revert n. induction fuel as [|fuel IH]; intros n Hn; [constructor|]. cbn [decimal].
  apply Forall_app. split.
  - destruct (Z.ltb_spec n 10); [constructor|]. apply IH. apply Z.div_pos; lia.
  - repeat constructor; unfold digit; pose proof (Z.mod_pos_bound n 10); lia.
Qed.

Lemma decimal_cons fuel n : 0 <= n -> exists c s, decimal (S fuel) n = c :: s /\ digit c.
Proof.
  intros Hn. pose proof (decimal_digits (S fuel) n Hn) as Hd. destruct (decimal (S fuel) n) as [|c s] eqn:E.
  - exfalso. cbn [decimal] in E. by apply app_nil in E as [_ ?].
  - exists c, s. split; [done|]. by apply list.Forall_cons in Hd as [? _].
Qed.

Lemma digits_app s s' acc : Forall digit s -> digits (s ++ s') acc = digits s' (fst (digits s acc)).
Proof.
  intros Hs. revert acc. induction Hs as [|c s Hc Hs IH]; intros acc; [done|].
  cbn [digits app]. rewrite (proj2 (is_digit_iff c)) by done. apply IH.
Qed.

Lemma digits_decimal fuel n acc : 0 <= n < 10 ^ Z.of_nat fuel ->
  exists k, 0 <= k /\ digits (decimal fuel n) acc = (acc * 10 ^ k + n, []).
Proof.
  revert n acc. induction fuel as [|fuel IH]; intros n acc Hn.
  { exists 0. cbn in *. split; [done|]. f_equal. lia. }
  cbn [decimal]. pose proof (Z.mod_pos_bound n 10) as Hm.
  assert (is_digit (48 + n mod 10) = true) as Hd by (apply is_digit_iff; unfold digit; lia).
  rewrite Nat2Z.inj_succ, Z.pow_succ_r in Hn by lia.
  destruct (Z.ltb_spec n 10) as [Hlt|Hge].
  - exists 1. split; [done|]. cbn [app digits]. rewrite Hd. rewrite Z.mod_small by lia. f_equal. lia.
  - assert (0 <= n / 10) by (apply Z.div_pos; lia).
    destruct (IH (n / 10) acc) as (k & Hk & E); [split; [done|apply Z.div_lt_upper_bound; lia]|].
    rewrite digits_app by (by apply decimal_digits). rewrite E. cbn [fst digits]. rewrite Hd.
    exists (k + 1). split; [lia|]. f_equal. rewrite Z.pow_add_r by lia.
    pose proof (Z.div_mod n 10). lia.
Qed.

(** A printed number is read back. *)
Lemma scan_print n s : 0 <= n < 2 ^ 32 -> stops s -> scan_u (print n ++ s) = Some (Scanned n s).
Proof.
  intros Hn Hs. destruct (decimal_cons 9 n) as (c & s' & E & Hc); [lia|].
  pose proof (decimal_digits 10 n ltac:(lia)) as Hds. unfold digit in Hc.
  unfold scan_u, scan_number, print. rewrite E. cbn [app skip_space].
  replace (is_space c) with false.
  2:{ unfold is_space. symmetry. apply orb_false_iff. split; [apply Z.eqb_neq; lia|].
      apply andb_false_iff. right. apply Z.leb_gt. lia. }
  cbn [sign]. rewrite (proj2 (Z.eqb_neq c 45)), (proj2 (Z.eqb_neq c 43)) by lia.
  rewrite (proj2 (is_digit_iff c)) by done. cbn [negb].
  change (c :: s' ++ s) with ((c :: s') ++ s). rewrite <- E, digits_app by done.
  destruct (digits_decimal 10 n 0) as (k & Hk & Ed); [split; [lia|]; change (10 ^ Z.of_nat 10) with 10000000000; lia|].
  rewrite Ed. cbn [fst].
  assert (digits s (0 * 10 ^ k + n) = (n, s)) as ->.
  { rewrite Z.mul_0_l, Z.add_0_l. destruct s as [|d s]; [done|]. cbn [digits stops] in *. by rewrite Hs. }
  rewrite Z.mul_1_l. rewrite (proj2 (Z.leb_le _ _)), (proj2 (Z.leb_le _ _)) by lia. done.
Qed.

Lemma scan_print_range r s : range_ok r -> stops s -> hd 0 s <> 45 ->
  scan_range (print_range r ++ s) =
    Some (if fst r =? snd r then (1, Some (fst r), None) else (2, Some (fst r), Some (snd r))).
Proof.
  destruct r as [a b]. unfold range_ok, print_range. cbn [fst snd]. intros [Hr Hb] Hs Hh. unfold scan_range.
  destruct (Z.eqb_spec a b) as [<-|Hne].
  - rewrite scan_print by (lia || done). cbn [mbind option_bind]. destruct s as [|c s]; [done|].
    cbn [hd] in Hh. by rewrite (proj2 (Z.eqb_neq _ _)).
  - rewrite <- app_assoc. cbn [app]. rewrite scan_print by (lia || done). cbn [mbind option_bind Z.eqb Pos.eqb].
    rewrite scan_print by (lia || done). done.
Qed.

Definition plain (c : Z) : Prop := c <> 44 /\ c <> 0.

Lemma print_plain n : 0 <= n -> Forall plain (print n).
Proof.
  intros Hn. eapply list.Forall_impl; [by apply decimal_digits|]. unfold digit, plain. intros c Hc. lia.
Qed.

Lemma print_range_plain r : range_ok r -> Forall plain (print_range r).
Proof.
  intros [Hr Hb]. unfold print_range. destruct (fst r =? snd r); [apply print_plain; lia|].
  apply list.Forall_app. split; [apply print_plain; lia|]. apply list.Forall_cons. split; [done|]. apply print_plain. lia.
Qed.

(** The loop comes to the end of an item. *)
Lemma cpus_loop_item pre item1 item2 sep post n tmp :
  Forall plain item2 ->
  cpus_loop (List.length item2 + n) (pre ++ item1 ++ item2 ++ sep :: post) (List.length pre + List.length item1)
    (List.length pre) tmp =
  cpus_loop n (pre ++ (item1 ++ item2) ++ sep :: post) (List.length pre + List.length (item1 ++ item2))
    (List.length pre) tmp.
Proof.
  revert item1. induction item2 as [|c item2 IH]; intros item1 Hp; cbn [List.length Nat.add].
  { by rewrite app_nil_r. }
  apply list.Forall_cons in Hp as [[H1 H2] Hp]. cbn [cpus_loop].
  rewrite lookup_app_r, lookup_app_r by lia. replace (_ - _ - _)%nat with 0%nat by lia. cbn [lookup list_lookup app mbind option_bind].
  rewrite (proj2 (Z.eqb_neq c 44)), (proj2 (Z.eqb_neq c 0)) by done. cbn [orb].
  specialize (IH (item1 ++ [c]) Hp). rewrite length_app in IH. cbn [List.length] in IH.
  rewrite <- app_assoc in IH. cbn [app] in IH. rewrite Nat.add_assoc in IH. rewrite IH.
  by rewrite <- (app_assoc item1 [c] item2).
Qed.

(** One range read and counted. *)
Lemma cpus_loop_range pre r s sep post n tmp :
  range_ok r -> s = [] \/ s = [10] -> sep = 44 \/ sep = 0 ->
  cpus_loop (List.length (print_range r ++ s) + S n) (pre ++ print_range r ++ s ++ sep :: post)
    (List.length pre) (List.length pre) tmp =
  cpus_loop n ((pre ++ print_range r ++ s ++ [sep]) ++ post) (List.length (pre ++ print_range r ++ s ++ [sep]))
    (List.length (pre ++ print_range r ++ s ++ [sep])) (i32 (tmp + u32 (snd r - fst r + 1))).
Proof.
  intros Hr Hs Hsep. set (item := print_range r ++ s).
  assert (Forall plain item) as Hp.
  { apply Forall_app. split; [by apply print_range_plain|]. destruct Hs as [->| ->]; repeat constructor; done. }
  pose proof (cpus_loop_item pre [] item sep post (S n) tmp Hp) as Hl. cbn [app List.length] in Hl.
  rewrite Nat.add_0_r in Hl. unfold item in Hl at 2. rewrite <- app_assoc in Hl. cbn [app] in Hl. rewrite Hl.
  cbn [cpus_loop]. rewrite lookup_app_r, lookup_app_r by lia.
  replace (_ - _ - _)%nat with 0%nat by lia. cbn [lookup list_lookup mbind option_bind].
  replace ((sep =? 44) || (sep =? 0)) with true by (destruct Hsep as [->| ->]; done).
  replace (_ - _)%nat with (List.length item) by lia. rewrite drop_app_length, take_app_length.
  assert (scan_range item = Some (if fst r =? snd r then (1, Some (fst r), None)
    else (2, Some (fst r), Some (snd r)))) as ->
    by (apply scan_print_range; [done|by destruct Hs as [->| ->]..]).
  replace (pre ++ item ++ sep :: post) with ((pre ++ print_range r ++ s ++ [sep]) ++ post)
    by (unfold item; rewrite <- !app_assoc; done).
  replace (List.length pre + List.length item + 1)%nat with (List.length (pre ++ print_range r ++ s ++ [sep]))
    by (unfold item; rewrite !length_app; cbn; lia).
  destruct (Z.eqb_spec (fst r) (snd r)) as [E|E]; cbn [mbind option_bind Z.leb Z.compare Z.eqb Pos.eqb]; [|done].
  by rewrite E.
Qed.

Lemma cpus_of_pos rs : Forall range_ok rs -> 0 <= cpus_of rs.
Proof. induction 1 as [|r rs [Hr _] _ IH]; cbn [cpus_of fold_right]; [done|]. fold (cpus_of rs). lia. Qed.

Lemma cpus_loop_ranges rs pre tmp :
  Forall range_ok rs -> rs <> [] -> 0 <= tmp -> tmp + cpus_of rs < 2 ^ 31 ->
  cpus_loop (List.length (print_ranges rs) + 1) (pre ++ print_ranges rs ++ [0]) (List.length pre) (List.length pre) tmp =
  Some (inr (tmp + cpus_of rs)).
Proof.
  intros Hrs. revert pre tmp. induction Hrs as [|r rs Hr Hrs IH]; intros pre tmp Hne H0 Hb; [done|].
  pose proof (cpus_of_pos rs Hrs) as Hpos. cbn [cpus_of fold_right] in Hb |- *. fold (cpus_of rs) in Hb |- *.
  pose proof Hr as [Hr1 Hr2].
  assert (u32 (snd r - fst r + 1) = snd r - fst r + 1) as Hu by (apply u32_id; lia).
  assert (i32 (tmp + u32 (snd r - fst r + 1)) = tmp + (snd r - fst r + 1)) as Hi by (rewrite Hu; apply i32_id; lia).
  destruct rs as [|r' rs].
  - cbn [print_ranges]. pose proof (cpus_loop_range pre r [10] 0 [] 0 tmp Hr ltac:(by right) ltac:(by right)) as Hl.
    rewrite <- app_assoc. cbn [app] in Hl |- *. rewrite Hl. cbn [cpus_loop]. rewrite Hi. do 2 f_equal. cbn. lia.
  - assert (forall l, print_ranges (r :: r' :: rs) ++ l = print_range r ++ [] ++ 44 :: print_ranges (r' :: rs) ++ l) as Hpr.
    { intros l. change (print_ranges (r :: r' :: rs)) with (print_range r ++ 44 :: print_ranges (r' :: rs)).
      by rewrite <- app_assoc. }
    rewrite Hpr.
    replace (List.length (print_ranges (r :: r' :: rs)) + 1)%nat
      with (List.length (print_range r ++ []) + S (List.length (print_ranges (r' :: rs)) + 1))%nat.
    2:{ specialize (Hpr []). rewrite app_nil_r in Hpr. rewrite Hpr, !length_app. cbn [List.length app].
        rewrite length_app. cbn [List.length]. lia. }
    rewrite cpus_loop_range by (auto). rewrite IH by (done || rewrite Hi; lia). rewrite Hi. do 2 f_equal. lia.
Qed.

Section Counted.
Context {W : Type} `{BpfKern W} `{BpfSys W} `{FileSys W}.

(** When the kernel's list of ranges fits the buffer of 128 bytes the answer is the
    number of CPUs in it, of one range or of many, and is kept for the next call. *)
Theorem possible_cpus_counted cpus rs fd w w1 w2 :
  cpus <= 0 -> rs <> [] -> Forall range_ok rs -> 0 < cpus_of rs < 2 ^ 31 ->
  Z.of_nat (List.length (print_ranges rs)) < BUF ->
  sys_open_ro possible w = (fd, w1) -> 0 <= fd ->
  sys_read fd BUF w1 = (Z.of_nat (List.length (print_ranges rs)), print_ranges rs, w2) ->
  exists w', libbpf_num_possible_cpus cpus w = Some (cpus_of rs, cpus_of rs, w') /\
    libbpf_num_possible_cpus (cpus_of rs) w' = Some (cpus_of rs, cpus_of rs, w').
Proof.
  intros Hc Hne Hrs Hn Hlen Hopen Hfd Hread. exists (snd (sys_close fd w2)). unfold libbpf_num_possible_cpus.
  rewrite (proj2 (Z.ltb_ge 0 cpus)) by done. rewrite Hopen, (proj2 (Z.ltb_ge fd 0)), Hread by done.
  destruct (sys_close fd w2) as [c w3]. cbn [snd].
  assert (0 < Z.of_nat (List.length (print_ranges rs))) as Hl.
  { destruct rs as [|r [|r' rs]]; [done|..]; cbn [print_ranges]; rewrite length_app; cbn [List.length]; lia. }
  rewrite (proj2 (Z.leb_gt _ _)), (proj2 (Z.eqb_neq _ BUF)) by lia.
  pose proof (cpus_loop_ranges rs [] 0 Hrs Hne) as Hloop. cbn [app List.length] in Hloop. rewrite Z.add_0_l in Hloop.
  unfold count_cpus. rewrite Hloop by lia. cbn [mbind option_bind].
  rewrite (proj2 (Z.leb_gt _ _)), (proj2 (Z.ltb_lt 0 _)) by lia. done.
Qed.
End Counted.

Module CpusExamples.
#[local] Existing Instances LoadExamples.kern_calls LoadExamples.kern_sys.

(** A file system with the one file. *)
Definition with_file (text : bytes) : FileSys LoadExamples.kern := {|
  sys_open_ro _ w := (9, w);
  sys_read _ n w := (Z.of_nat (List.length (take (Z.to_nat n) text)), take (Z.to_nat n) text, w);
|}.
Definition of_string (s : string) : bytes := (fun c => Z.of_nat (nat_of_ascii c)) <$> list_ascii_of_string s.
Definition nl (s : string) : bytes := of_string s ++ [10].
Definition w0 : LoadExamples.kern := LoadExamples.Kern [] 0 false 0.
Definition answer (text : bytes) : option (Z * Z) :=
  '(n, cpus, _) ← libbpf_num_possible_cpus (H1 := with_file text) 0 w0; Some (n, cpus).

Example printed : print_ranges [(0, 3); (8, 8); (10, 11)] = nl "0-3,8,10-11".
Proof. vm_compute. done. Qed.

Example counts : (answer (nl "0-3,8,10-11"), answer (nl "0"), answer [], answer (nl "x"), answer (nl "3-1"),
    answer (replicate 200 48)) =
  (Some (7, 7), Some (1, 1), Some (-22, 0), Some (-22, 0), Some (-22, 0), Some (-75, 0)).
Proof. vm_compute. done. Qed.

Definition some_cpus : list (Z * Z) := [(0, 3); (8, 8); (10, 11)].
#[local] Instance some_file : FileSys LoadExamples.kern := with_file (print_ranges some_cpus).

Lemma possible_cpus_counted_witness : exists w',
  libbpf_num_possible_cpus 0 w0 = Some (7, 7, w') /\ libbpf_num_possible_cpus 7 w' = Some (7, 7, w').
Proof.
  apply (possible_cpus_counted 0 some_cpus 9 w0 w0 w0); [lia|discriminate| |cbn; lia|reflexivity|reflexivity|lia|reflexivity].
  repeat (apply list.Forall_cons; split; [unfold range_ok; cbn; lia|]). by apply list.Forall_nil.
Defined.

(** The function of [bpf_util.h] takes the first range only, and none that does not
    begin at 0. *)
Example first_range_only :
  bpf_num_possible_cpus (Some (nl "0-3,8,10-11")) = Some (Cpus 4) /\
  bpf_num_possible_cpus (Some (nl "1-3")) = Some (Cpus 0).
Proof. vm_compute. done. Qed.

(** On a line without a number [sscanf] answers EOF, which is not the 0 it tests for. *)
Example blank_undefined : bpf_num_possible_cpus (Some [10]) = None.
Proof. vm_compute. done. Qed.
End CpusExamples.
