(* ===== verification/PerfRing.v ===== *)
(** * Reading the ring of a perf event

    Models [bpf_perf_event_read_simple] and [perf_buffer__process_record] of
    [libbpf/src/libbpf.c].  The mapping is the bytes behind its first page; the kernel
    writes no byte between [data_tail] and [data_head], so one copy of them serves the
    whole call.  A record may wrap around the end: it is then copied into memory of its
    own.  The callback is given the bytes of the record. *)

From S2P Require Import Prelude BpfCalls Packet XskSocket.

Local Open Scope Z_scope.

#[local] Abbreviation bytes := (list Z).

Definition LIBBPF_PERF_EVENT_DONE : Z := 0.
Definition LIBBPF_PERF_EVENT_ERROR : Z := -1.
Definition LIBBPF_PERF_EVENT_CONT : Z := -2.

Section Read.
Context `{HostOrder} {W : Type} `{XskSys W}.

(** [*copy_mem] and [*copy_size], made large enough for a record; whether that failed. *)
Definition reserve (copy_mem copy_size n : Z) (w : W) : bool * Z * Z * W :=
  if copy_size <? n then
    let '(p, w) := sys_calloc (sys_free copy_mem w) in
    if p =? 0 then (false, 0, 0, w) else (true, p, n, w)
  else (true, copy_mem, copy_size, w).

(** The record of [ehdr_size] bytes at [pos], in one piece. *)
Definition record_at (mem : bytes) (mmap_size pos ehdr_size : Z) : option bytes :=
  if mmap_size <? pos + ehdr_size then
    let len_first := mmap_size - pos in
    let len_secnd := u64 (ehdr_size - len_first) in
    first ← read_bytes mem (Z.to_nat pos) (Z.to_nat len_first);
    second ← read_bytes mem 0 (Z.to_nat len_secnd);
    Some (first ++ second)
  else read_bytes mem (Z.to_nat pos) (Z.to_nat ehdr_size).

(** The callback acts on a state of its own. *)
Context {S : Type} (fn : bytes -> S -> option (Z * S)).

(** The loop: the result, [data_tail], the memory for copies and its size. *)
Fixpoint read_loop (fuel : nat) (mem : bytes) (mmap_size data_head data_tail copy_mem copy_size ret : Z) (s : S) (w : W)
    : option (Z * Z * Z * Z * S * W) :=
  if data_head =? data_tail then Some (ret, data_tail, copy_mem, copy_size, s, w) else
  match fuel with
  | O => None
  | Datatypes.S fuel =>
      let pos := Z.land data_tail (u64 (mmap_size - 1)) in
      ehdr_size ← read16 mem (Z.to_nat (pos + 6));
      let '(ok, copy_mem, copy_size, w) :=
        if mmap_size <? pos + ehdr_size then reserve copy_mem copy_size ehdr_size w
        else (true, copy_mem, copy_size, w) in
      if negb ok then Some (LIBBPF_PERF_EVENT_ERROR, data_tail, copy_mem, copy_size, s, w) else
      ehdr ← record_at mem mmap_size pos ehdr_size;
      '(ret, s) ← fn ehdr s;
      let data_tail := u64 (data_tail + ehdr_size) in
      if negb (ret =? LIBBPF_PERF_EVENT_CONT) then Some (ret, data_tail, copy_mem, copy_size, s, w)
      else read_loop fuel mem mmap_size data_head data_tail copy_mem copy_size ret s w
  end.

(** With the bytes of the ring and its two positions; [data_tail] is written back. *)
Definition bpf_perf_event_read_simple (fuel : nat) (mem : bytes) (mmap_size data_head data_tail : Z)
    (copy_mem copy_size : Z) (s : S) (w : W) : option (Z * Z * Z * Z * S * W) :=
  read_loop fuel mem mmap_size data_head data_tail copy_mem copy_size LIBBPF_PERF_EVENT_CONT s w.
End Read.

(** ** The callback of a perf buffer *)

(** The callbacks of a [struct perf_buffer], with the context in the world. *)
Record callbacks (W : Type) := Callbacks {
  event_cb : option (Z -> bytes -> W -> Z * W);
  sample_cb : option (Z -> bytes -> Z -> W -> W);
  lost_cb : option (Z -> Z -> W -> W);
}.
Arguments Callbacks {W}. Arguments event_cb {W}. Arguments sample_cb {W}. Arguments lost_cb {W}.

Definition PERF_RECORD_LOST : Z := 2.
Definition PERF_RECORD_SAMPLE : Z := 9.

(** [sample_cb] is given the memory from [data] on and the size the record claims. *)
Definition perf_buffer__process_record `{HostOrder} {W} (cb : callbacks W) (cpu : Z) (e : bytes) (w : W)
    : option (Z * W) :=
  match event_cb cb with
  | Some event => Some (event cpu e w)
  | None =>
      type ← read32 e 0;
      if type =? PERF_RECORD_SAMPLE then
        match sample_cb cb with
        | Some sample => size ← read32 e 8; Some (LIBBPF_PERF_EVENT_CONT, sample cpu (drop 12 e) size w)
        | None => Some (LIBBPF_PERF_EVENT_CONT, w)
        end
      else if type =? PERF_RECORD_LOST then
        match lost_cb cb with
        | Some lost =>
            bs ← read_bytes e 16 8;
            Some (LIBBPF_PERF_EVENT_CONT, lost cpu (load bs) w)
        | None => Some (LIBBPF_PERF_EVENT_CONT, w)
        end
      else Some (LIBBPF_PERF_EVENT_ERROR, w)
  end.

(** ** The ring as a queue of records *)

Section Queue.
Context `{HostOrder}.

(** Records as the kernel writes them: whole words, beginning with a header that says
    their length. *)
Definition record_ok (r : bytes) : Prop :=
  8 <= Z.of_nat (length r) < 2 ^ 16 /\ Z.of_nat (length r) mod 8 = 0 /\
  read16 r 6 = Some (Z.of_nat (length r)).

(** The bytes from [tail] on, around the end of the ring, are [bs]. *)
Definition holds (mem : bytes) (tail : Z) (bs : bytes) : Prop :=
  forall i, (i < length bs)%nat ->
    mem !! Z.to_nat ((tail + Z.of_nat i) mod Z.of_nat (length mem)) = bs !! i.

(** A call that gives each record to [fn] in turn, until one is not answered with
    [LIBBPF_PERF_EVENT_CONT]: the last answer and the bytes consumed. *)
Fixpoint deliver {W} (fn : bytes -> W -> option (Z * W)) (rs : list bytes) (w : W) : option (Z * Z * W) :=
  match rs with
  | [] => Some (LIBBPF_PERF_EVENT_CONT, 0, w)
  | r :: rs =>
      '(ret, w) ← fn r w;
      if negb (ret =? LIBBPF_PERF_EVENT_CONT) then Some (ret, Z.of_nat (length r), w) else
      '(ret, n, w) ← deliver fn rs w; Some (ret, Z.of_nat (length r) + n, w)
  end.

Lemma holds_app mem tail a b : holds mem tail (a ++ b) ->
  holds mem tail a /\ holds mem (tail + Z.of_nat (length a)) b.
Proof.
  intros Hh. split; intros i Hi.
  - rewrite Hh by (rewrite length_app; lia). by rewrite lookup_app_l.
  - rewrite <- Z.add_assoc, <- Nat2Z.inj_add, Hh by (rewrite length_app; lia).
    rewrite lookup_app_r by lia. f_equal. lia.
Qed.

Lemma holds_mod mem tail tail' bs : 0 < Z.of_nat (length mem) ->
  tail' mod Z.of_nat (length mem) = tail mod Z.of_nat (length mem) -> holds mem tail bs -> holds mem tail' bs.
Proof.
  intros Hm Ht Hh i Hi. rewrite <- Hh by done. do 2 f_equal.
  rewrite <- Zplus_mod_idemp_l, Ht, Zplus_mod_idemp_l. done.
Qed.

(** Bytes that do not wrap are read in one piece, others in two. *)
Lemma ring_read mem tail bs n : 0 < Z.of_nat (length mem) -> holds mem tail bs -> (n <= length bs)%nat ->
  tail mod Z.of_nat (length mem) + Z.of_nat n <= Z.of_nat (length mem) ->
  read_bytes mem (Z.to_nat (tail mod Z.of_nat (length mem))) n = Some (take n bs).
Proof.
  intros Hm Hh Hn Hfit. pose proof (Z.mod_pos_bound tail (Z.of_nat (length mem)) Hm) as Hp.
  unfold read_bytes. case_decide; [|lia]. f_equal. apply list_eq. intros i.
  destruct (decide (i < n)%nat) as [Hi|Hi]; [|by rewrite !lookup_take_ge by lia].
  rewrite !lookup_take_lt, lookup_drop by done. rewrite <- Hh by lia. f_equal.
  rewrite <- Zplus_mod_idemp_l. rewrite (Z.mod_small (_ + _)) by lia. lia.
Qed.

Lemma record_at_holds mem tail r :
  0 < Z.of_nat (length mem) < 2 ^ 64 -> holds mem tail r -> Z.of_nat (length r) <= Z.of_nat (length mem) ->
  record_at mem (Z.of_nat (length mem)) (tail mod Z.of_nat (length mem)) (Z.of_nat (length r)) = Some r.
Proof.
  intros Hm Hh Hr. pose proof (Z.mod_pos_bound tail (Z.of_nat (length mem)) ltac:(lia)) as Hp. unfold record_at.
  set (n := Z.of_nat (length mem)) in *. set (p := tail mod n) in *.
  destruct (Z.ltb_spec n (p + Z.of_nat (length r))) as [Hwrap|Hfit].
  - assert (r = take (Z.to_nat (n - p)) r ++ drop (Z.to_nat (n - p)) r) as Er by (by rewrite take_drop).
    assert (Hh' := Hh). rewrite Er in Hh'. apply holds_app in Hh' as [_ H2]. rewrite length_take in H2.
    pose proof (ring_read mem tail r (Z.to_nat (n - p)) ltac:(lia) Hh) as Hf. fold n in Hf. fold p in Hf.
    rewrite Hf by lia.
    cbn [mbind option_bind]. rewrite u64_id by lia.
    assert (holds mem 0 (drop (Z.to_nat (n - p)) r)) as H0.
    { eapply holds_mod; [fold n; lia| |exact H2]. fold n. rewrite Z.mod_0_l by lia. symmetry.
      rewrite <- Zplus_mod_idemp_l. fold p. rewrite Nat.min_l by lia. rewrite Z2Nat.id by lia.
      replace (p + (n - p)) with n by lia. apply Z_mod_same_full. }
    pose proof (ring_read mem 0 _ (length r - Z.to_nat (n - p)) ltac:(fold n; lia) H0) as Hr0.
    rewrite length_drop in Hr0. fold n in Hr0. rewrite Z.mod_0_l in Hr0 by lia. change (Z.to_nat 0) with 0%nat in Hr0.
    replace (Z.to_nat (Z.of_nat (length r) - (n - p))) with (length r - Z.to_nat (n - p))%nat by lia.
    rewrite Hr0 by lia. cbn [mbind option_bind]. rewrite (take_ge (drop _ _)) by (rewrite length_drop; lia).
    by rewrite <- Er.
  - rewrite Nat2Z.id. pose proof (ring_read mem tail r (length r) ltac:(lia) Hh) as Hf. fold n in Hf. fold p in Hf.
    rewrite Hf by lia. by rewrite take_ge.
Qed.
End Queue.

Section Delivered.
Context `{HostOrder} {W : Type} `{XskSys W} {S : Type}.
Variables (fn : bytes -> S -> option (Z * S)) (mem : bytes) (k : Z).
Hypotheses (Hk : 3 <= k < 64) (Hmem : Z.of_nat (length mem) = 2 ^ k).

Lemma mask_mod tail : Z.land tail (u64 (2 ^ k - 1)) = tail mod 2 ^ k.
Proof.
  assert (0 < 2 ^ k < 2 ^ 64) by (split; [apply Z.pow_pos_nonneg; lia|apply Z.pow_lt_mono_r; lia]).
  rewrite u64_id by lia. rewrite Z.sub_1_r, <- Z.ones_equiv. by rewrite Z.land_ones by lia.
Qed.

Lemma words_mod a b : a mod 8 = 0 -> b mod 8 = 0 -> (a + b) mod 8 = 0.
Proof. intros Ha Hb. by rewrite Z.add_mod, Ha, Hb by done. Qed.

Lemma wraps_words tail : tail mod 8 = 0 -> (tail mod 2 ^ k) mod 8 = 0 /\ (u64 tail) mod 8 = 0.
Proof.
  intros Ht. unfold u64. split; rewrite Z.mod_mod_divide; try done.
  - exists (2 ^ (k - 3)). change 8 with (2 ^ 3). rewrite <- Z.pow_add_r by lia. f_equal. lia.
  - by exists (2 ^ 61).
Qed.

Lemma u64_mod tail : u64 tail mod 2 ^ k = tail mod 2 ^ k.
Proof.
  unfold u64. apply Z.mod_mod_divide. exists (2 ^ (64 - k)). rewrite <- Z.pow_add_r by lia. f_equal. lia.
Qed.

(** The header of a record does not wrap. *)
Lemma header_size tail r : tail mod 8 = 0 -> record_ok r -> holds mem tail r ->
  read16 mem (Z.to_nat (tail mod 2 ^ k + 6)) = Some (Z.of_nat (length r)).
Proof.
  intros Ht (Hl & _ & Hsz) Hh. destruct (wraps_words tail Ht) as [Hw _].
  assert (0 < 2 ^ k) by (apply Z.pow_pos_nonneg; lia).
  pose proof (Z.mod_pos_bound tail (2 ^ k) ltac:(lia)) as Hp.
  assert (2 ^ k mod 8 = 0) as H8.
  { apply Z.mod_divide; [done|]. exists (2 ^ (k - 3)). change 8 with (2 ^ 3). rewrite <- Z.pow_add_r by lia. f_equal. lia. }
  assert (tail mod 2 ^ k + 8 <= 2 ^ k) as Hfit.
  { pose proof (Z.div_mod (tail mod 2 ^ k) 8 ltac:(done)). pose proof (Z.div_mod (2 ^ k) 8 ltac:(done)). lia. }
  pose proof (ring_read mem tail r 8 ltac:(lia) Hh ltac:(lia)) as Hr. rewrite Hmem in Hr. specialize (Hr ltac:(lia)).
  unfold read16 in Hsz |- *. rewrite <- Hsz. unfold read_bytes in Hr, Hsz |- *.
  case_decide as Hd; [|done]. injection Hr as Hr.
  rewrite !decide_True by lia. do 2 f_equal.
  replace (Z.to_nat (tail mod 2 ^ k + 6)) with (Z.to_nat (tail mod 2 ^ k) + 6)%nat by lia.
  rewrite <- drop_drop. apply (f_equal (drop 6)) in Hr. rewrite !skipn_firstn_comm in Hr. exact Hr.
Qed.

Definition total (rs : list bytes) : Z := Z.of_nat (length (concat rs)).

(** The copy buffer: [*copy_size] bytes, none or not NULL. *)
Definition copy_ok (cm cs : Z) : Prop := 0 <= cs /\ (cs = 0 \/ cm <> 0).

(** A record that begins at [tail] goes around the end of the ring. *)
Definition wraps (tail : Z) (r : bytes) : Prop := 2 ^ k < tail mod 2 ^ k + Z.of_nat (length r).

(** How the call may end.  Either all records are given to [fn] up to one it does not
    continue after, and each of those that went around the end fitted in the copy buffer.
    Or there was no memory for the copy of such a record: the allocation answered NULL,
    there is no copy buffer any more, and the record stays in the ring. *)
Definition read_ends (tail : Z) (rs : list bytes) (cs : Z) (s : S) (ret tail' cm' cs' : Z) (s' : S) (w' : W) : Prop :=
  (exists n, deliver fn rs s = Some (ret, n, s') /\ tail' = u64 (tail + n) /\ copy_ok cm' cs' /\ cs <= cs' /\
     forall rs1 r rs2, rs = rs1 ++ r :: rs2 -> total rs1 + Z.of_nat (length r) <= n ->
       wraps (tail + total rs1) r -> Z.of_nat (length r) <= cs') \/
  (exists rs1 r rs2 n, rs = rs1 ++ r :: rs2 /\ deliver fn rs1 s = Some (LIBBPF_PERF_EVENT_CONT, n, s') /\
     ret = LIBBPF_PERF_EVENT_ERROR /\ tail' = u64 (tail + n) /\ wraps tail' r /\
     cm' = 0 /\ cs' = 0 /\ exists cm1 w1, sys_calloc (sys_free cm1 w1) = (0, w')).

Lemma total_cons r rs : total (r :: rs) = Z.of_nat (length r) + total rs.
Proof. unfold total. cbn [concat]. rewrite length_app. lia. Qed.

Lemma wraps_u64 a b r : wraps (u64 a + b) r <-> wraps (a + b) r.
Proof. unfold wraps. by rewrite <- Zplus_mod_idemp_l, u64_mod, Zplus_mod_idemp_l. Qed.

Lemma read_ends_cons tail r rs cs cs1 s s1 ret tail' cm' cs' s' w' :
  fn r s = Some (LIBBPF_PERF_EVENT_CONT, s1) -> cs <= cs1 -> (wraps tail r -> Z.of_nat (length r) <= cs1) ->
  read_ends (u64 (tail + Z.of_nat (length r))) rs cs1 s1 ret tail' cm' cs' s' w' ->
  read_ends tail (r :: rs) cs s ret tail' cm' cs' s' w'.
Proof.
  assert (forall a b, u64 (u64 a + b) = u64 (a + b)) as Hu by (intros; unfold u64; by rewrite Zplus_mod_idemp_l).
  intros Hf Hcs Hr [(n & Hd & -> & Hok & Hle & Hall)|(rs1 & r1 & rs2 & n & -> & Hd & -> & -> & Hrest)].
  - left. exists (Z.of_nat (length r) + n). cbn [deliver]. rewrite Hf. cbn [mbind option_bind Z.eqb Pos.eqb negb].
    rewrite Hd. split; [done|]. split; [by rewrite Hu, Z.add_assoc|]. split; [done|]. split; [lia|].
    intros [|r0 rs1] r1 rs2 [= <- ->] Hn Hw.
    + change (total []) with 0 in Hw. rewrite Z.add_0_r in Hw. specialize (Hr Hw). lia.
    + rewrite total_cons in Hn, Hw. apply (Hall rs1 r1 rs2); [done|lia|]. rewrite wraps_u64. by rewrite <- Z.add_assoc.
  - right. exists (r :: rs1), r1, rs2, (Z.of_nat (length r) + n). split; [done|]. cbn [deliver]. rewrite Hf.
    cbn [mbind option_bind Z.eqb Pos.eqb negb]. rewrite Hd. split; [done|]. split; [done|].
    rewrite Hu in *. by rewrite Z.add_assoc.
Qed.

(** Making the copy buffer large enough: it is, or the allocation answered NULL. *)
Lemma reserve_spec cm cs n w ok cm1 cs1 w1 :
  copy_ok cm cs -> 0 < n -> reserve cm cs n w = (ok, cm1, cs1, w1) ->
  if ok then copy_ok cm1 cs1 /\ n <= cs1 /\ cs <= cs1
  else cm1 = 0 /\ cs1 = 0 /\ sys_calloc (sys_free cm w) = (0, w1).
Proof.
  intros [Hcs Hok] Hn. unfold reserve. destruct (Z.ltb_spec cs n).
  - destruct (sys_calloc (sys_free cm w)) as [p w2] eqn:E. destruct (Z.eqb_spec p 0) as [->|].
    + by intros [= <- <- <- <-].
    + intros [= <- <- <- <-]. unfold copy_ok. split; [split; [lia|by right]|lia].
  - intros [= <- <- <- <-]. unfold copy_ok. split; [done|lia].
Qed.

(** C15. A ring that holds records between its positions, anywhere in it and around its
    end and that of 64 bits, is a queue: the callback is given the records, whole and in
    order, and those it has been given are taken from the ring.  Only when the memory for
    the copy of a record around the end is refused does the call stop before it. *)
Theorem read_simple_delivers fuel rs head tail copy_mem copy_size s w :
  Forall record_ok rs -> (forall r s, r ∈ rs -> is_Some (fn r s)) ->
  tail mod 8 = 0 -> 0 <= tail < 2 ^ 64 -> head = u64 (tail + total rs) -> total rs <= 2 ^ k ->
  holds mem tail (concat rs) -> copy_ok copy_mem copy_size -> (length rs <= fuel)%nat ->
  exists ret tail' cm cs s' w',
    bpf_perf_event_read_simple fn fuel mem (2 ^ k) head tail copy_mem copy_size s w =
      Some (ret, tail', cm, cs, s', w') /\ read_ends tail rs copy_size s ret tail' cm cs s' w'.
Proof.
  intros Hrs Hfn Ht8 Ht Hh Htot Hmemt Hcopy Hfuel. unfold bpf_perf_event_read_simple.
  assert (0 < 2 ^ k < 2 ^ 64) as Hpow by (split; [apply Z.pow_pos_nonneg; lia|apply Z.pow_lt_mono_r; lia]).
  revert fuel tail copy_mem copy_size s w Hfn Ht8 Ht Hh Htot Hmemt Hcopy Hfuel.
  induction Hrs as [|r rs Hr Hrs IH]; intros fuel tail cm cs s w Hfn Ht8 Ht Hh Htot Hmemt Hcopy Hfuel.
  { change (total []) with 0 in Hh. rewrite Z.add_0_r, u64_id in Hh by lia. subst head.
    exists LIBBPF_PERF_EVENT_CONT, tail, cm, cs, s, w. split.
    - destruct fuel; cbn [read_loop]; by rewrite Z.eqb_refl.
    - left. exists 0. split; [done|]. rewrite Z.add_0_r, u64_id by lia. split; [done|]. split; [done|].
      split; [lia|]. by intros [|] ? ?. }
  destruct fuel as [|fuel]; [cbn in Hfuel; lia|]. cbn [concat] in Hmemt.
  apply holds_app in Hmemt as [Hr1 Hrest]. pose proof Hr as ((Hl1 & Hl2) & Hl8 & _).
  rewrite total_cons in Hh, Htot. assert (0 <= total rs) by (unfold total; lia).
  cbn [read_loop]. rewrite (proj2 (Z.eqb_neq head tail)).
  2:{ rewrite Hh. unfold u64. intros E. assert ((Z.of_nat (length r) + total rs) mod 2 ^ 64 = 0) as Hz.
      { replace (Z.of_nat (length r) + total rs) with (tail + (Z.of_nat (length r) + total rs) - tail) by lia.
        rewrite Zminus_mod, E, (Z.mod_small tail) by lia. by rewrite Z.sub_diag. }
      rewrite Z.mod_small in Hz by lia. lia. }
  rewrite mask_mod, (header_size tail r) by done. cbn [mbind option_bind].
  destruct (if 2 ^ k <? _ then _ else _) as [[[ok cm1] cs1] w1] eqn:Ers.
  assert (if ok then copy_ok cm1 cs1 /\ cs <= cs1 /\ (wraps tail r -> Z.of_nat (length r) <= cs1)
          else wraps tail r /\ cm1 = 0 /\ cs1 = 0 /\ sys_calloc (sys_free cm w) = (0, w1)) as Hres.
  { unfold wraps. destruct (Z.ltb_spec (2 ^ k) (tail mod 2 ^ k + Z.of_nat (length r))).
    - apply reserve_spec in Ers; [|done|lia]. destruct ok; tauto.
    - injection Ers as <- <- <- <-. split; [done|]. split; [lia|]. lia. }
  destruct ok; cbn [negb].
  2:{ destruct Hres as (Hw & -> & -> & Ha). eexists _, _, _, _, _, _. split; [reflexivity|]. right.
      exists [], r, rs, 0. rewrite Z.add_0_r, u64_id by lia. eauto 10. }
  destruct Hres as (Hcopy1 & Hle & Hwr).
  pose proof (record_at_holds mem tail r) as Hrec. rewrite Hmem in Hrec. rewrite Hrec by (done || lia).
  cbn [mbind option_bind]. destruct (Hfn r s) as [[ret s1] Hf]; [by left|]. rewrite Hf. cbn [mbind option_bind].
  destruct (Z.eqb_spec ret LIBBPF_PERF_EVENT_CONT) as [->|Hne]; cbn [negb].
  - destruct (IH fuel (u64 (tail + Z.of_nat (length r))) cm1 cs1 s1 w1) as (ret & t' & cm' & cs' & s' & w' & E & Hend).
    + intros r' s'' Hin. apply Hfn. by right.
    + apply wraps_words. by apply words_mod.
    + unfold u64. apply Z.mod_pos_bound. lia.
    + rewrite Hh. unfold u64. rewrite Zplus_mod_idemp_l. f_equal. lia.
    + lia.
    + eapply holds_mod; [| |exact Hrest]; rewrite Hmem; [lia|]. by rewrite u64_mod.
    + done.
    + cbn in Hfuel. lia.
    + eexists _, _, _, _, _, _. split; [exact E|]. by eapply read_ends_cons.
  - eexists _, _, _, _, _, _. split; [reflexivity|]. left. exists (Z.of_nat (length r)).
    cbn [deliver]. rewrite Hf. cbn [mbind option_bind]. rewrite (proj2 (Z.eqb_neq _ _) Hne).
    split; [done|]. split; [done|]. split; [done|]. split; [done|].
    intros [|r0 rs1] r1 rs2 [= <- ->] Hn Hw.
    + apply Hwr. by rewrite Z.add_0_r in Hw.
    + assert (0 <= total rs1) by (unfold total; lia). rewrite total_cons in Hn.
      rewrite list.Forall_app, list.Forall_cons in Hrs. destruct Hrs as (_ & ((? & _) & _) & _). lia.
Qed.
End Delivered.

Module PerfRingExamples.
#[export] Instance little : HostOrder := LittleEndian.

(** Memory that is never given twice, up to a limit; of the other calls none is made. *)
#[export] Instance heap_only : XskSys Z := {
  sys_calloc w := if w <? 8192 then (w, w + 4096) else (0, w); sys_free _ w := w; getpagesize := 4096;
  sys_socket_xdp w := (-1, w); sys_socket_inet w := (-1, w); sys_setsockopt_xdp _ _ w := (-1, w);
  sys_mmap_offsets _ w := (-1, 0, [], w); sys_mmap _ _ _ w := (MAP_FAILED, w); sys_munmap _ _ w := w;
  sys_bind_xdp _ _ w := (-1, w); if_nametoindex _ w := (0, w); sys_ethtool_channels _ _ w := (-1, 0, w);
  sys_prog_map_ids _ _ w := (-1, 0, [], w);
}.

Definition sample (data : bytes) : bytes :=
  store 4 PERF_RECORD_SAMPLE ++ store 2 0 ++ store 2 (12 + Z.of_nat (length data)) ++
  store 4 (Z.of_nat (length data)) ++ data.
Definition lost (n : Z) : bytes := store 4 PERF_RECORD_LOST ++ store 2 0 ++ store 2 24 ++ store 8 0 ++ store 8 n.

(** What the callbacks have been given: the CPU, and the data or the number lost. *)
Definition log := list (Z * (bytes + Z)).
Definition cb : callbacks log :=
  Callbacks None (Some (fun cpu data n s => s ++ [(cpu, inl (take (Z.to_nat n) data))]))
    (Some (fun cpu n s => s ++ [(cpu, inr n)])).

(** A ring of 64 bytes whose records begin at 40: the second wraps. *)
Definition records : list bytes := [sample [1; 2; 3; 4]; lost 5; sample [6; 7; 8; 9]].
Definition mem : bytes := let bs := concat records in drop 24 bs ++ replicate 8 0 ++ take 24 bs.

Example delivered :
  bpf_perf_event_read_simple (perf_buffer__process_record cb 3) 9 mem 64 (u64 (2 ^ 64 - 24 + 56)) (2 ^ 64 - 24) 0 0 [] 4096 =
  Some (LIBBPF_PERF_EVENT_CONT, 32, 4096, 24, [(3, inl [1; 2; 3; 4]); (3, inr 5); (3, inl [6; 7; 8; 9])], 8192).
Proof. vm_compute. done. Qed.

(** Without memory for the copy the record stays. *)
Example no_memory :
  bpf_perf_event_read_simple (perf_buffer__process_record cb 3) 9 mem 64 (u64 (2 ^ 64 - 24 + 56)) (2 ^ 64 - 24) 0 0 [] 8192 =
  Some (LIBBPF_PERF_EVENT_ERROR, 2 ^ 64 - 8, 0, 0, [(3, inl [1; 2; 3; 4])], 8192).
Proof. vm_compute. done. Qed.

Lemma read_simple_delivers_witness : exists ret tail' cm cs s' w',
  bpf_perf_event_read_simple (perf_buffer__process_record cb 3) 3 mem (2 ^ 6) 32 (2 ^ 64 - 24) 0 0 [] 4096 =
    Some (ret, tail', cm, cs, s', w') /\
  read_ends (perf_buffer__process_record cb 3) 6 (2 ^ 64 - 24) records 0 [] ret tail' cm cs s' w'.
Proof.
  apply read_simple_delivers; [lia|reflexivity| | |reflexivity|lia|reflexivity|vm_compute; discriminate| |split; [lia|by left]|cbn; lia].
  - repeat (apply list.Forall_cons; split; [repeat split; vm_compute; (reflexivity || discriminate)|]). by apply list.Forall_nil.
  - intros r s. unfold records. rewrite !elem_of_cons, elem_of_nil.
    intros [->|[->|[->|[]]]]; eexists; vm_compute; reflexivity.
  - intros i Hi. assert (i < 56)%nat as Hi' by exact Hi. clear Hi.
    do 56 (destruct i as [|i]; [vm_compute; reflexivity|]). lia.
Defined.
End PerfRingExamples.
