(* ===== verification/PerfBuffer.v ===== *)
(** * Perf buffers

    Models the perf buffers of [libbpf/src/libbpf.c]: one ring for each CPU, made and
    put into a map by [__perf_buffer__new], read by [perf_buffer__poll], given back by
    [perf_buffer__free].  Messages are left out.  Memory, mappings and [getpagesize] are
    those of [XskSys]; a block of memory is its address. *)

From S2P Require Import Prelude BpfMap BpfObject BpfCalls Packet XskSocket Cpus PerfRing.
From Stdlib Require Import Ascii String.
From stdpp Require Import list.

Local Open Scope Z_scope.

#[local] Abbreviation bytes := (list Z).

Definition BPF_MAP_TYPE_PERF_EVENT_ARRAY : Z := 4.
Definition PERF_TYPE_SOFTWARE : Z := 1.
Definition PERF_COUNT_SW_BPF_OUTPUT : Z := 10.
Definition PERF_SAMPLE_RAW : Z := 1024.

(** The fields of [struct perf_event_attr] the library sets; [config1] with what it
    points to, when it is a pointer. *)
Record perf_event_attr := PerfEventAttr {
  pe_type : Z; pe_size : Z; pe_config : Z; pe_config1 : option string; pe_config2 : Z;
  sample_period : Z; sample_type : Z; wakeup_events : Z;
}.

Inductive perf_ioctl := PERF_EVENT_IOC_ENABLE | PERF_EVENT_IOC_DISABLE | PERF_EVENT_IOC_SET_BPF (prog_fd : Z).

Class PerfSys (W : Type) := {
  (** [perf_event_open(attr, pid, cpu, group_fd, PERF_FLAG_FD_CLOEXEC)]. *)
  sys_perf_event_open : perf_event_attr -> Z -> Z -> Z -> W -> Z * W;
  sys_perf_ioctl : Z -> perf_ioctl -> W -> Z * W;
  sys_epoll_create : W -> Z * W;
  (** [EPOLL_CTL_ADD] of a descriptor for input, with [data.ptr]. *)
  sys_epoll_add : Z -> Z -> Z -> W -> Z * W;
  (** [epoll_wait] for at most so many events: the answer, and the pointers stored. *)
  sys_epoll_wait : Z -> Z -> Z -> W -> Z * list Z * W;
  (** What is mapped at an address: [data_head], [data_tail] and the bytes behind the
      first page; writing [data_tail]. *)
  ring_at : Z -> W -> Z * Z * bytes;
  write_tail : Z -> Z -> W -> W;
}.

(** [struct perf_cpu_buf], [struct perf_buffer]; the first field is their address, and
    [cpu_bufs] what the array at [bufs_ptr] holds before its first NULL. *)
Record perf_cpu_buf := CpuBuf {
  self : Z; cb_base : Z; cb_buf : Z; cb_buf_size : Z; cb_fd : Z; cb_cpu : Z; cb_map_key : Z;
}.
Record perf_buffer (S : Type) := PerfBuffer {
  pb_self : Z; pb_cbs : callbacks S; page_size : Z; mmap_size : Z; bufs_ptr : Z;
  cpu_bufs : list perf_cpu_buf; events : Z; cpu_cnt : Z; epoll_fd : Z; pb_map_fd : Z;
}.
Arguments PerfBuffer {S}. Arguments pb_self {S}. Arguments pb_cbs {S}. Arguments page_size {S}.
Arguments mmap_size {S}. Arguments bufs_ptr {S}. Arguments cpu_bufs {S}. Arguments events {S}.
Arguments cpu_cnt {S}. Arguments epoll_fd {S}. Arguments pb_map_fd {S}.

(** [struct perf_buffer_params]; no CPUs means all of them. *)
Record perf_buffer_params (S : Type) := BufferParams {
  p_attr : perf_event_attr; p_cbs : callbacks S; p_cpu_cnt : Z; p_cpus : list Z; p_map_keys : list Z;
}.
Arguments BufferParams {S}. Arguments p_attr {S}. Arguments p_cbs {S}. Arguments p_cpu_cnt {S}.
Arguments p_cpus {S}. Arguments p_map_keys {S}.

Section Buffer.
Context `{HostOrder} {W : Type} `{BpfKern W} `{BpfSys W} `{FileSys W} `{XskSys W} `{PerfSys W} {S : Type}.
Implicit Types (pb : perf_buffer S) (cb : perf_cpu_buf) (w : W).

Definition set_cpu_bufs (l : list perf_cpu_buf) pb : perf_buffer S :=
  PerfBuffer (pb_self pb) (pb_cbs pb) (page_size pb) (mmap_size pb) (bufs_ptr pb) l (events pb)
    (cpu_cnt pb) (epoll_fd pb) (pb_map_fd pb).
Definition set_cpu_cnt (n : Z) pb : perf_buffer S :=
  PerfBuffer (pb_self pb) (pb_cbs pb) (page_size pb) (mmap_size pb) (bufs_ptr pb) (cpu_bufs pb) (events pb)
    n (epoll_fd pb) (pb_map_fd pb).
Definition set_arrays (ev bufs : Z) pb : perf_buffer S :=
  PerfBuffer (pb_self pb) (pb_cbs pb) (page_size pb) (mmap_size pb) bufs (cpu_bufs pb) ev
    (cpu_cnt pb) (epoll_fd pb) (pb_map_fd pb).
Definition set_epoll_fd (fd : Z) pb : perf_buffer S :=
  PerfBuffer (pb_self pb) (pb_cbs pb) (page_size pb) (mmap_size pb) (bufs_ptr pb) (cpu_bufs pb) (events pb)
    (cpu_cnt pb) fd (pb_map_fd pb).

(** [mmap_size + page_size]. *)
Definition mapped_bytes pb : Z := u64 (mmap_size pb + page_size pb).

Definition perf_buffer__free_cpu_buf pb cb w : W :=
  let w := if cb_base cb =? 0 then w else sys_munmap (cb_base cb) (mapped_bytes pb) w in
  let w := if 0 <=? cb_fd cb then
             let '(_, w) := sys_perf_ioctl (cb_fd cb) PERF_EVENT_IOC_DISABLE w in
             snd (sys_close (cb_fd cb) w)
           else w in
  sys_free (self cb) (sys_free (cb_buf cb) w).

(** The buffers of the CPUs, each taken out of the map first. *)
Fixpoint free_cpu_bufs pb (cbs : list perf_cpu_buf) w : W :=
  match cbs with
  | [] => w
  | cb :: cbs =>
      let '(_, w) := bpf_map_delete_elem (pb_map_fd pb) (store 4 (cb_map_key cb)) w in
      free_cpu_bufs pb cbs (perf_buffer__free_cpu_buf pb cb w)
  end.

Definition perf_buffer__free pb w : W :=
  let w := if bufs_ptr pb =? 0 then w
           else sys_free (bufs_ptr pb) (free_cpu_bufs pb (cpu_bufs pb) w) in
  let w := if 0 <=? epoll_fd pb then snd (sys_close (epoll_fd pb) w) else w in
  sys_free (pb_self pb) (sys_free (events pb) w).

Definition perf_buffer__open_cpu_buf pb (attr : perf_event_attr) (cpu key : Z) w : (Z + perf_cpu_buf) * W :=
  let '(p, w) := sys_calloc w in
  if p =? 0 then (inl (- ENOMEM), w) else
  let '(fd, w) := sys_perf_event_open attr (-1) cpu (-1) w in
  let fails base err w := (inl err, perf_buffer__free_cpu_buf pb (CpuBuf p base 0 0 fd cpu key) w) in
  if fd <? 0 then fails 0 (- errno w) w else
  let '(base, w) := sys_mmap (mapped_bytes pb) fd 0 w in
  if base =? MAP_FAILED then fails 0 (- errno w) w else
  let '(r, w) := sys_perf_ioctl fd PERF_EVENT_IOC_ENABLE w in
  if r <? 0 then fails base (- errno w) w else
  (inr (CpuBuf p base 0 0 fd cpu key), w).

(** The loop over the CPUs, at [i]: the buffer, and an error if there was one. *)
Fixpoint open_loop (n : nat) (i : nat) (p : perf_buffer_params S) pb w : option (option Z * perf_buffer S * W) :=
  match n with
  | O => Some (None, pb, w)
  | Datatypes.S n =>
      cpu ← (if 0 <? p_cpu_cnt p then p_cpus p !! i else Some (Z.of_nat i));
      key ← (if 0 <? p_cpu_cnt p then p_map_keys p !! i else Some (Z.of_nat i));
      let '(r, w) := perf_buffer__open_cpu_buf pb (p_attr p) cpu key w in
      match r with
      | inl err => Some (Some err, pb, w)
      | inr cb =>
          let pb := set_cpu_bufs (cpu_bufs pb ++ [cb]) pb in
          let '(err, w) := bpf_map_update_elem (pb_map_fd pb) (store 4 key) (store 4 (cb_fd cb)) 0 w in
          if negb (err =? 0) then Some (Some (- errno w), pb, w) else
          let '(r, w) := sys_epoll_add (epoll_fd pb) (cb_fd cb) (self cb) w in
          if r <? 0 then Some (Some (- errno w), pb, w) else
          open_loop n (i + 1) p pb w
      end
  end.

(** How many CPUs: those asked for, or all there are and the map has room for; [cpus]
    is the static variable of [libbpf_num_possible_cpus]. *)
Definition count_bufs (p : perf_buffer_params S) (max_entries cpus : Z) w : option (Z * Z * W) :=
  if 0 <? p_cpu_cnt p then Some (p_cpu_cnt p, cpus, w) else
  '(n, cpus, w) ← libbpf_num_possible_cpus cpus w;
  Some (if n <? 0 then n else if max_entries <? n then i32 max_entries else n, cpus, w).

Definition __perf_buffer__new (map_fd page_cnt : Z) (p : perf_buffer_params S) (cpus : Z) w
    : option ((Z + perf_buffer S) * Z * W) :=
  if negb (Z.land page_cnt (u64 (page_cnt - 1)) =? 0) then Some (inl (- EINVAL), cpus, w) else
  match obj_info map_fd w with
  | inl e => Some (inl (- e), cpus, w)
  | inr info =>
      if negb (type (info_def info) =? BPF_MAP_TYPE_PERF_EVENT_ARRAY) then Some (inl (- EINVAL), cpus, w) else
      let '(ptr, w) := sys_calloc w in
      if ptr =? 0 then Some (inl (- ENOMEM), cpus, w) else
      let '(efd, w) := sys_epoll_create w in
      let pb := PerfBuffer ptr (p_cbs p) getpagesize (u64 (getpagesize * page_cnt)) 0 [] 0 0 efd map_fd in
      let fails err pb cpus w := Some (inl err, cpus, perf_buffer__free pb w) in
      if efd <? 0 then fails (- errno w) pb cpus w else
      '(n, cpus, w) ← count_bufs p (max_entries (info_def info)) cpus w;
      if n <? 0 then fails n (set_cpu_cnt n pb) cpus w else
      let pb := set_cpu_cnt n pb in
      let '(ev, w) := sys_calloc w in
      if ev =? 0 then fails (- ENOMEM) pb cpus w else
      let '(bufs, w) := sys_calloc w in
      let pb := set_arrays ev bufs pb in
      if bufs =? 0 then fails (- ENOMEM) pb cpus w else
      '(err, pb, w) ← open_loop (Z.to_nat n) 0 p pb w;
      match err with
      | Some err => fails err pb cpus w
      | None => Some (inr pb, cpus, w)
      end
  end.

(** [opts] may be NULL. *)
Definition perf_buffer__new (map_fd page_cnt : Z) (opts : option (callbacks S)) (cpus : Z) w
    : option ((Z + perf_buffer S) * Z * W) :=
  let attr := PerfEventAttr PERF_TYPE_SOFTWARE 0 PERF_COUNT_SW_BPF_OUTPUT None 0 1 PERF_SAMPLE_RAW 1 in
  let cbs := match opts with
             | Some o => Callbacks None (sample_cb o) (lost_cb o)
             | None => Callbacks None None None
             end in
  __perf_buffer__new map_fd page_cnt (BufferParams attr cbs 0 [] []) cpus w.

Definition perf_buffer__new_raw (map_fd page_cnt : Z) (attr : perf_event_attr)
    (event : option (Z -> bytes -> S -> Z * S)) (cnt : Z) (cpu_list keys : list Z) (cpus : Z) w
    : option ((Z + perf_buffer S) * Z * W) :=
  __perf_buffer__new map_fd page_cnt (BufferParams attr (Callbacks event None None) cnt cpu_list keys) cpus w.

(** The records of one CPU: the result, the buffer, the state of the callbacks. *)
Definition perf_buffer__process_records pb cb (s : S) w : option (Z * perf_cpu_buf * S * W) :=
  let '(head, tail, mem) := ring_at (cb_base cb) w in
  '(ret, tail, buf, buf_size, s, w) ←
    bpf_perf_event_read_simple (perf_buffer__process_record (pb_cbs pb) (cb_cpu cb)) (List.length mem) mem
      (mmap_size pb) head tail (cb_buf cb) (cb_buf_size cb) s w;
  let w := write_tail (cb_base cb) tail w in
  Some (if ret =? LIBBPF_PERF_EVENT_CONT then 0 else ret,
        CpuBuf (self cb) (cb_base cb) buf buf_size (cb_fd cb) (cb_cpu cb) (cb_map_key cb), s, w).

(** The buffer at an address, processed. *)
Fixpoint process_at pb (ptr : Z) (cbs : list perf_cpu_buf) (s : S) w : option (Z * list perf_cpu_buf * S * W) :=
  match cbs with
  | [] => None
  | cb :: cbs =>
      if self cb =? ptr then
        '(err, cb, s, w) ← perf_buffer__process_records pb cb s w; Some (err, cb :: cbs, s, w)
      else '(err, cbs, s, w) ← process_at pb ptr cbs s w; Some (err, cb :: cbs, s, w)
  end.

Fixpoint poll_loop (ptrs : list Z) pb (s : S) w : option (Z * perf_buffer S * S * W) :=
  match ptrs with
  | [] => Some (0, pb, s, w)
  | ptr :: ptrs =>
      '(err, cbs, s, w) ← process_at pb ptr (cpu_bufs pb) s w;
      let pb := set_cpu_bufs cbs pb in
      if negb (err =? 0) then Some (err, pb, s, w) else poll_loop ptrs pb s w
  end.

Definition perf_buffer__poll pb (timeout_ms : Z) (s : S) w : option (Z * perf_buffer S * S * W) :=
  let '(cnt, ptrs, w) := sys_epoll_wait (epoll_fd pb) (cpu_cnt pb) timeout_ms w in
  '(err, pb, s, w) ← poll_loop (take (Z.to_nat cnt) ptrs) pb s w;
  if negb (err =? 0) then Some (err, pb, s, w) else
  Some (if cnt <? 0 then - errno w else cnt, pb, s, w).
End Buffer.
