(* ===== verification/PerfFds.v ===== *)
(** * What perf buffers hold

    The descriptors, mappings and memory of the process around the functions of
    [PerfBuffer], in the accounts of [XskFds]. *)

From S2P Require Import Prelude BpfMap BpfCalls BpfObject XdpLink Packet BpfLoad LoadFds.
From S2P Require Import XskSocket XskFds Cpus PerfRing PerfBuffer.
From Stdlib Require Import Ascii String.
From stdpp Require Import list.

Local Open Scope Z_scope.

Class PerfLaws (W : Type) `{XskLaws W} `{FileSys W} `{PerfSys W} := {
  perf_open_opens : forall a p c g w fd w', sys_perf_event_open a p c g w = (fd, w') ->
    opens fd (opened w) (opened w') /\ rest w' = rest w;
  epoll_create_opens : forall w fd w', sys_epoll_create w = (fd, w') ->
    opens fd (opened w) (opened w') /\ rest w' = rest w;
  open_ro_opens : forall p w fd w', sys_open_ro p w = (fd, w') ->
    opens fd (opened w) (opened w') /\ rest w' = rest w;
  read_quiet : forall fd n w r bs w', sys_read fd n w = (r, bs, w') -> quiet w w';
  perf_ioctl_quiet : forall fd i w r w', sys_perf_ioctl fd i w = (r, w') -> quiet w w';
  epoll_add_quiet : forall e fd p w r w', sys_epoll_add e fd p w = (r, w') -> quiet w w';
  epoll_wait_quiet : forall e n t w r ps w', sys_epoll_wait e n t w = (r, ps, w') -> quiet w w';
  write_tail_quiet : forall a t w, quiet w (write_tail a t w);
  mmap_not_null : forall n fd o w m w', sys_mmap n fd o w = (m, w') -> m <> 0;
  null_free : forall w, (0 : Z) ∉ allocated w;
}.

Section PerfAccounts.
Context {W : Type} `{PerfLaws W} `{HostOrder} {S : Type}.
Implicit Types (w : W) (F A : list Z) (M : list (Z * Z)) (pb : perf_buffer S) (cb : perf_cpu_buf).

Lemma acct_perms w0 F F' M M' A A' w :
  F ≡ₚ F' -> M ≡ₚ M' -> A ≡ₚ A' -> acct w0 F M A w -> acct w0 F' M' A' w.
Proof. intros HF HM HA (? & ? & ?). split; [|split]; by eapply owns_perm. Qed.

(** NULL is no memory. *)
Definition opt (p : Z) : list Z := if p =? 0 then [] else [p].

Lemma acct_free_opt w0 F M A w p : acct w0 F M (opt p ++ A) w -> acct w0 F M A (sys_free p w).
Proof.
  unfold opt. destruct (Z.eqb_spec p 0) as [->|]; [|by apply acct_free].
  intros (HF & HM & HA). destruct (free_spec 0 w) as (Ho & Hm & Hp). unfold acct. rewrite Ho, Hm, Hp.
  split; [done|]. split; [done|]. pose proof (null_free w).
  by replace (allocated w ∖ {[0]}) with (allocated w) by set_solver.
Qed.

Lemma acct_calloc_opt w0 F M A w p w' : acct w0 F M A w -> sys_calloc w = (p, w') -> acct w0 F M (opt p ++ A) w'.
Proof. intros Ha Hc. pose proof (acct_calloc _ _ _ _ _ _ _ Ha Hc) as Hp. unfold opt. by destruct (p =? 0). Qed.

Lemma acct_elem w0 F M A c a w r v w' : acct w0 F M A w -> sys_elem c a w = (r, v, w') -> acct w0 F M A w'.
Proof. intros Ha E. eapply acct_quiet; [exact Ha|]. split; [by eapply elem_keeps|by eapply elem_rest]. Qed.

Lemma acct_update w0 F M A fd k v fl w r w' :
  acct w0 F M A w -> bpf_map_update_elem fd k v fl w = (r, w') -> acct w0 F M A w'.
Proof.
  intros Ha. unfold bpf_map_update_elem, elem_call. destruct (sys_elem _ _ w) as [[r1 v1] w1] eqn:E.
  intros [= _ <-]. by eapply acct_elem.
Qed.

Lemma acct_delete w0 F M A fd k w r w' :
  acct w0 F M A w -> bpf_map_delete_elem fd k w = (r, w') -> acct w0 F M A w'.
Proof.
  intros Ha. unfold bpf_map_delete_elem, elem_call. destruct (sys_elem _ _ w) as [[r1 v1] w1] eqn:E.
  intros [= _ <-]. by eapply acct_elem.
Qed.

Lemma acct_close_valid w0 F M A w fd :
  acct w0 (valid [fd] ++ F) M A w -> acct w0 F M A (if 0 <=? fd then snd (sys_close fd w) else w).
Proof.
  cbn. destruct (Z.leb_spec 0 fd); [|done]. intros Ha. destruct (sys_close fd w) as [r w'] eqn:E.
  by eapply acct_close.
Qed.

(** ** One CPU *)

Definition cb_fds cb : list Z := valid [cb_fd cb].
Definition cb_maps (n : Z) cb : list (Z * Z) := if cb_base cb =? 0 then [] else [(cb_base cb, n)].
Definition cb_mem cb : list Z := opt (cb_buf cb) ++ [self cb].

Lemma free_cpu_buf_acct w0 F M A pb cb w :
  acct w0 (cb_fds cb ++ F) (cb_maps (mapped_bytes pb) cb ++ M) (cb_mem cb ++ A) w ->
  acct w0 F M A (perf_buffer__free_cpu_buf pb cb w).
Proof.
  intros Ha. unfold perf_buffer__free_cpu_buf. apply acct_free, acct_free_opt. unfold cb_mem in Ha.
  rewrite <- app_assoc in Ha. cbn [app] in Ha.
  assert (acct w0 (cb_fds cb ++ F) M (opt (cb_buf cb) ++ self cb :: A)
    (if cb_base cb =? 0 then w else sys_munmap (cb_base cb) (mapped_bytes pb) w)) as Hm.
  { unfold cb_maps in Ha. destruct (cb_base cb =? 0); [done|by apply acct_munmap]. }
  set (w1 := if cb_base cb =? 0 then w else _) in *. clearbody w1.
  destruct (sys_perf_ioctl (cb_fd cb) PERF_EVENT_IOC_DISABLE w1) as [r w2] eqn:Ei.
  apply perf_ioctl_quiet in Ei. unfold cb_fds in Hm. destruct (Z.leb_spec 0 (cb_fd cb)) as [Hfd|Hfd].
  - eapply acct_quiet in Hm; [|exact Ei]. pose proof (acct_close_valid _ _ _ _ _ _ Hm) as Hc.
    by rewrite (proj2 (Z.leb_le _ _) Hfd) in Hc.
  - cbn in Hm. by rewrite (proj2 (Z.leb_gt _ _) Hfd) in Hm.
Qed.

Lemma open_cpu_buf_acct w0 F M A pb attr cpu key w r w' :
  acct w0 F M A w -> perf_buffer__open_cpu_buf pb attr cpu key w = (r, w') ->
  match r with
  | inl _ => acct w0 F M A w'
  | inr cb => acct w0 (cb_fds cb ++ F) (cb_maps (mapped_bytes pb) cb ++ M) (cb_mem cb ++ A) w'
  end.
Proof.
  intros Ha. unfold perf_buffer__open_cpu_buf. destruct (sys_calloc w) as [p w1] eqn:E1.
  apply (acct_calloc _ _ _ _ _ _ _ Ha) in E1. destruct (Z.eqb_spec p 0) as [Hp|Hp]; [by intros [= <- <-]|].
  destruct (sys_perf_event_open attr (-1) cpu (-1) w1) as [fd w2] eqn:E2. apply perf_open_opens in E2 as [Ho Hr].
  pose proof (acct_opens _ _ _ _ _ _ _ E1 Ho Hr) as Ha2.
  assert (forall base err v, acct w0 (valid [fd] ++ F) (cb_maps (mapped_bytes pb) (CpuBuf p base 0 0 fd cpu key) ++ M) (p :: A) v ->
    (inl err, perf_buffer__free_cpu_buf pb (CpuBuf p base 0 0 fd cpu key) v) = (r, w') ->
    match r with
    | inl _ => acct w0 F M A w'
    | inr cb => acct w0 (cb_fds cb ++ F) (cb_maps (mapped_bytes pb) cb ++ M) (cb_mem cb ++ A) w'
    end) as Hfail.
  { intros base err v Hv [= <- <-]. by apply free_cpu_buf_acct. }
  destruct (fd <? 0); [by apply Hfail|].
  destruct (sys_mmap _ fd 0 w2) as [m w3] eqn:E3. pose proof (mmap_not_null _ _ _ _ _ _ E3) as Hm.
  eapply acct_mmap in E3; [|exact Ha2]. destruct (Z.eqb_spec m MAP_FAILED) as [Hmf|Hmf]; [by apply Hfail|].
  destruct (sys_perf_ioctl fd PERF_EVENT_IOC_ENABLE w3) as [q w4] eqn:E4. apply perf_ioctl_quiet in E4.
  eapply acct_quiet in E3; [|exact E4].
  assert (cb_maps (mapped_bytes pb) (CpuBuf p m 0 0 fd cpu key) = [(m, mapped_bytes pb)]) as Em.
  { unfold cb_maps. cbn [cb_base]. by rewrite (proj2 (Z.eqb_neq _ _) Hm). }
  destruct (q <? 0); [apply Hfail; by rewrite Em|]. intros [= <- <-]. by rewrite Em.
Qed.

(** ** All CPUs *)

Definition all_fds (cbs : list perf_cpu_buf) : list Z := concat (cb_fds <$> cbs).
Definition all_maps (n : Z) (cbs : list perf_cpu_buf) : list (Z * Z) := concat (cb_maps n <$> cbs).
Definition all_mem (cbs : list perf_cpu_buf) : list Z := concat (cb_mem <$> cbs).

(** What a buffer holds beside [F], [M] and [A]. *)
Definition pb_acct w0 F M A pb w : Prop :=
  acct w0 (all_fds (cpu_bufs pb) ++ valid [epoll_fd pb] ++ F) (all_maps (mapped_bytes pb) (cpu_bufs pb) ++ M)
    (all_mem (cpu_bufs pb) ++ opt (bufs_ptr pb) ++ opt (events pb) ++ pb_self pb :: A) w /\
  (bufs_ptr pb = 0 -> cpu_bufs pb = []).

Lemma free_cpu_bufs_acct w0 F M A pb cbs w :
  acct w0 (all_fds cbs ++ F) (all_maps (mapped_bytes pb) cbs ++ M) (all_mem cbs ++ A) w ->
  acct w0 F M A (free_cpu_bufs pb cbs w).
Proof.
  revert w. induction cbs as [|cb cbs IH]; intros w Ha; cbn [free_cpu_bufs]; [done|].
  destruct (bpf_map_delete_elem _ _ w) as [r w1] eqn:E. eapply acct_delete in E; [|exact Ha].
  apply IH, free_cpu_buf_acct. unfold all_fds, all_maps, all_mem in E. cbn [fmap list_fmap concat] in E.
  by rewrite <- !app_assoc in E.
Qed.

Lemma pb_free_acct w0 F M A pb w : pb_acct w0 F M A pb w -> acct w0 F M A (perf_buffer__free pb w).
Proof.
  intros [Ha Hz]. unfold perf_buffer__free. apply acct_free, acct_free_opt.
  apply acct_close_valid. unfold opt in Ha at 1. destruct (Z.eqb_spec (bufs_ptr pb) 0) as [E|E].
  - by rewrite (Hz E) in Ha.
  - apply acct_free. by apply free_cpu_bufs_acct.
Qed.

(** ** Creation *)

(** Descriptors, mappings and memory of one more CPU. *)
Lemma pb_acct_snoc w0 F M A pb cb w :
  acct w0 (cb_fds cb ++ all_fds (cpu_bufs pb) ++ valid [epoll_fd pb] ++ F)
    (cb_maps (mapped_bytes pb) cb ++ all_maps (mapped_bytes pb) (cpu_bufs pb) ++ M)
    (cb_mem cb ++ all_mem (cpu_bufs pb) ++ opt (bufs_ptr pb) ++ opt (events pb) ++ pb_self pb :: A) w ->
  bufs_ptr pb <> 0 -> pb_acct w0 F M A (set_cpu_bufs (cpu_bufs pb ++ [cb]) pb) w.
Proof.
  intros Ha Hz. split; [|by intros].
  cbn [cpu_bufs set_cpu_bufs epoll_fd mapped_bytes mmap_size page_size bufs_ptr events pb_self].
  change (mapped_bytes (set_cpu_bufs _ pb)) with (mapped_bytes pb).
  unfold all_fds, all_maps, all_mem. rewrite !fmap_app, !concat_app. cbn [fmap list_fmap concat]. rewrite !app_nil_r.
  eapply acct_perms; [| | |exact Ha]; rewrite <- !app_assoc; apply Permutation_app_swap_app.
Qed.

Lemma open_loop_acct w0 F M A n i p pb w err pb' w' :
  pb_acct w0 F M A pb w -> bufs_ptr pb <> 0 -> open_loop n i p pb w = Some (err, pb', w') ->
  pb_acct w0 F M A pb' w' /\ bufs_ptr pb' = bufs_ptr pb.
Proof.
  revert i pb w. induction n as [|n IH]; intros i pb w Ha Hz; cbn [open_loop]; [by intros [= <- <- <-]|].
  destruct (if 0 <? p_cpu_cnt p then p_cpus p !! i else _) as [cpu|]; [|done]. cbn [mbind option_bind].
  destruct (if 0 <? p_cpu_cnt p then p_map_keys p !! i else _) as [key|]; [|done]. cbn [mbind option_bind].
  destruct (perf_buffer__open_cpu_buf pb (p_attr p) cpu key w) as [r w1] eqn:E1.
  eapply open_cpu_buf_acct in E1; [|apply Ha].
  destruct r as [e|cb]; [intros [= <- <- <-]; by split; [split|]|].
  apply pb_acct_snoc in E1; [|done]. set (pb1 := set_cpu_bufs _ pb) in *.
  destruct (bpf_map_update_elem _ _ _ 0 w1) as [r w2] eqn:E2.
  eapply acct_update in E2; [|apply E1].
  destruct (negb _); [intros [= <- <- <-]; split; [by split|done]|].
  destruct (sys_epoll_add _ _ _ w2) as [r' w3] eqn:E3. apply epoll_add_quiet in E3. eapply acct_quiet in E2; [|exact E3].
  destruct (r' <? 0); [intros [= <- <- <-]; split; [by split|done]|].
  intros E. apply IH in E; [done|by split|done].
Qed.

Lemma possible_cpus_acct w0 F M A cpus w n cpus' w' :
  acct w0 F M A w -> libbpf_num_possible_cpus cpus w = Some (n, cpus', w') -> acct w0 F M A w'.
Proof.
  intros Ha. unfold libbpf_num_possible_cpus. destruct (0 <? cpus); [by intros [= _ _ <-]|].
  destruct (sys_open_ro possible w) as [fd w1] eqn:E1. apply open_ro_opens in E1 as [Ho Hr].
  destruct (Z.ltb_spec fd 0) as [Hfd|Hfd]; [intros [= _ _ <-]; by eapply acct_refused|].
  pose proof (acct_opened _ _ _ _ _ _ _ Ha Ho Hr Hfd) as Ha1.
  destruct (sys_read fd BUF w1) as [[len text] w2] eqn:E2. apply read_quiet in E2. eapply acct_quiet in E2; [|exact Ha1].
  destruct (sys_close fd w2) as [c w3] eqn:E3. eapply acct_close in E3; [|exact E2].
  destruct (len <=? 0); [by intros [= _ _ <-]|]. destruct (len =? BUF); [by intros [= _ _ <-]|].
  destruct (count_cpus text) as [k|]; [|done]. by intros [= _ _ <-].
Qed.

Lemma count_bufs_acct w0 F M A (p : perf_buffer_params S) k cpus w n cpus' w' :
  acct w0 F M A w -> count_bufs p k cpus w = Some (n, cpus', w') -> acct w0 F M A w'.
Proof.
  intros Ha. unfold count_bufs. destruct (0 <? p_cpu_cnt p); [by intros [= _ _ <-]|].
  destruct (libbpf_num_possible_cpus cpus w) as [[[m c] w1]|] eqn:E; [|done]. intros [= _ _ <-].
  by eapply possible_cpus_acct.
Qed.

Lemma perf_new_acct w0 F M A map_fd cnt (p : perf_buffer_params S) cpus w r cpus' w' :
  acct w0 F M A w -> __perf_buffer__new map_fd cnt p cpus w = Some (r, cpus', w') ->
  match r with inl _ => acct w0 F M A w' | inr pb => pb_acct w0 F M A pb w' end.
Proof.
  intros Ha. unfold __perf_buffer__new. destruct (negb _); [by intros [= <- _ <-]|].
  destruct (obj_info map_fd w) as [e|info]; [by intros [= <- _ <-]|].
  destruct (negb _); [by intros [= <- _ <-]|].
  destruct (sys_calloc w) as [ptr w1] eqn:E1. apply (acct_calloc _ _ _ _ _ _ _ Ha) in E1.
  destruct (Z.eqb_spec ptr 0) as [Hp|Hp]; [by intros [= <- _ <-]|].
  destruct (sys_epoll_create w1) as [efd w2] eqn:E2. apply epoll_create_opens in E2 as [Ho Hr].
  pose proof (acct_opens _ _ _ _ _ _ _ E1 Ho Hr) as Ha2.
  set (pb := PerfBuffer ptr _ _ _ 0 [] 0 0 efd map_fd).
  assert (forall err n v, acct w0 (valid [efd] ++ F) M (ptr :: A) v -> inl err = r -> perf_buffer__free (set_cpu_cnt n pb) v = w' ->
    match r with inl _ => acct w0 F M A w' | inr pb => pb_acct w0 F M A pb w' end) as Hfail.
  { intros err n v Hv <- <-. apply pb_free_acct. by split. }
  destruct (efd <? 0); [intros [= ? _ ?]; by eapply (Hfail _ 0)|].
  destruct (count_bufs p _ cpus w2) as [[[n c] w3]|] eqn:E3; [|done]. cbn [mbind option_bind].
  eapply count_bufs_acct in E3; [|exact Ha2].
  destruct (n <? 0); [intros [= ? _ ?]; by eapply Hfail|].
  destruct (sys_calloc w3) as [ev w4] eqn:E4. eapply acct_calloc_opt in E4; [|exact E3].
  destruct (Z.eqb_spec ev 0) as [->|Hev]; [intros [= ? _ ?]; by eapply Hfail|].
  destruct (sys_calloc w4) as [bufs w5] eqn:E5. eapply acct_calloc_opt in E5; [|exact E4].
  set (pb1 := set_arrays ev bufs (set_cpu_cnt n pb)) in *.
  assert (pb_acct w0 F M A pb1 w5) as Hpb by (by split).
  destruct (Z.eqb_spec bufs 0) as [Hb|Hb]; [intros [= <- _ <-]; by apply pb_free_acct|].
  destruct (open_loop _ 0 p pb1 w5) as [[[err pb2] w6]|] eqn:E6; [|done]. cbn [mbind option_bind].
  eapply open_loop_acct in E6 as [Ha6 _]; [|exact Hpb|done].
  destruct err; intros [= <- _ <-]; [by apply pb_free_acct|done].
Qed.

(** ** Reading *)

Lemma reserve_acct w0 F M A buf size n w ok buf' size' w' :
  acct w0 F M (opt buf ++ A) w -> reserve buf size n w = (ok, buf', size', w') -> acct w0 F M (opt buf' ++ A) w'.
Proof.
  intros Ha. unfold reserve. destruct (size <? n); [|by intros [= _ <- _ <-]].
  destruct (sys_calloc (sys_free buf w)) as [p w1] eqn:E. eapply acct_calloc_opt in E; [|by apply acct_free_opt].
  destruct (Z.eqb_spec p 0) as [->|]; by intros [= _ <- _ <-].
Qed.

Lemma read_loop_acct w0 F M A (fn : list Z -> S -> option (Z * S)) fuel mem n head tail buf size ret s w
    ret' tail' buf' size' s' w' :
  acct w0 F M (opt buf ++ A) w ->
  read_loop fn fuel mem n head tail buf size ret s w = Some (ret', tail', buf', size', s', w') ->
  acct w0 F M (opt buf' ++ A) w'.
Proof.
  revert tail buf size ret s w. induction fuel as [|fuel IH]; intros tail buf size ret s w Ha; cbn [read_loop];
    (destruct (head =? tail); [by intros [= _ _ <- _ _ <-]|]); [done|].
  destruct (read16 mem _) as [sz|]; [|done]. cbn [mbind option_bind].
  destruct (if n <? _ then _ else _) as [[[ok b1] s1] w1] eqn:E1.
  assert (acct w0 F M (opt b1 ++ A) w1) as Ha1.
  { destruct (n <? _); [by eapply reserve_acct|]. by injection E1 as <- <- <- <-. }
  destruct (negb ok); [by intros [= _ _ <- _ _ <-]|].
  destruct (record_at _ _ _ _) as [e|]; [|done]. cbn [mbind option_bind].
  destruct (fn e s) as [[r s2]|]; [|done]. cbn [mbind option_bind].
  destruct (negb _); [by intros [= _ _ <- _ _ <-]|]. by apply IH.
Qed.

Lemma process_at_acct w0 F M A n pb ptr cbs s w err cbs' s' w' :
  acct w0 (all_fds cbs ++ F) (all_maps n cbs ++ M) (all_mem cbs ++ A) w ->
  process_at pb ptr cbs s w = Some (err, cbs', s', w') ->
  acct w0 (all_fds cbs' ++ F) (all_maps n cbs' ++ M) (all_mem cbs' ++ A) w' /\ (cbs = [] <-> cbs' = []).
Proof.
  revert A F M err cbs' s' w'. induction cbs as [|cb cbs IH]; intros A F M err cbs' s' w' Ha; cbn [process_at]; [done|].
  unfold all_fds, all_maps, all_mem in Ha. cbn [fmap list_fmap concat] in Ha. rewrite <- !app_assoc in Ha.
  destruct (self cb =? ptr).
  - unfold perf_buffer__process_records. destruct (ring_at _ w) as [[head tail] mem].
    destruct (bpf_perf_event_read_simple _ _ _ _ _ _ _ _ _ _) as [[[[[[ret t] b] sz] s1] w1]|] eqn:E; [|done].
    cbn [mbind option_bind]. intros [= <- <- <- <-]. split; [|done].
    unfold cb_mem in Ha. rewrite <- app_assoc in Ha. apply (read_loop_acct _ _ _ _ _ _ _ _ _ _ _ _ _ _ _ _ _ _ _ _ _ Ha) in E.
    eapply acct_quiet in E; [|apply (write_tail_quiet (cb_base cb) t)].
    unfold all_fds, all_maps, all_mem, cb_mem. cbn [fmap list_fmap concat cb_buf self]. by rewrite <- !app_assoc.
  - destruct (process_at pb ptr cbs s w) as [[[[e c1] s1] w1]|] eqn:E; [|done]. cbn [mbind option_bind].
    intros [= <- <- <- <-]. split; [|done].
    assert (acct w0 (all_fds cbs ++ cb_fds cb ++ F) (all_maps n cbs ++ cb_maps n cb ++ M) (all_mem cbs ++ cb_mem cb ++ A) w) as Ha'.
    { eapply acct_perms; [| | |exact Ha]; apply Permutation_app_swap_app. }
    pose proof (IH _ _ _ _ _ _ _ Ha' eq_refl) as [Ha1 _]. unfold all_fds, all_maps, all_mem. cbn [fmap list_fmap concat].
    rewrite <- !app_assoc. eapply acct_perms; [| | |exact Ha1]; apply Permutation_app_swap_app.
Qed.

Lemma poll_loop_acct w0 F M A ptrs pb s w err pb' s' w' :
  pb_acct w0 F M A pb w -> poll_loop ptrs pb s w = Some (err, pb', s', w') -> pb_acct w0 F M A pb' w'.
Proof.
  revert pb s w. induction ptrs as [|ptr ptrs IH]; intros pb s w Ha; cbn [poll_loop]; [by intros [= _ <- _ <-]|].
  destruct (process_at pb ptr (cpu_bufs pb) s w) as [[[[e cbs] s1] w1]|] eqn:E; [|done]. cbn [mbind option_bind].
  destruct Ha as [Ha Hz]. apply (process_at_acct _ _ _ _ (mapped_bytes pb) _ _ _ _ _ _ _ _ _ Ha) in E as [E He].
  assert (pb_acct w0 F M A (set_cpu_bufs cbs pb) w1) as Ha1.
  { split; [exact E|]. intros Hb. apply He, Hz, Hb. }
  destruct (negb _); [by intros [= _ <- _ <-]|]. by apply IH.
Qed.

Lemma perf_poll_acct w0 F M A pb t s w err pb' s' w' :
  pb_acct w0 F M A pb w -> perf_buffer__poll pb t s w = Some (err, pb', s', w') -> pb_acct w0 F M A pb' w'.
Proof.
  intros [Ha Hz]. unfold perf_buffer__poll. destruct (sys_epoll_wait _ _ t w) as [[cnt ptrs] w1] eqn:E1.
  apply epoll_wait_quiet in E1. eapply acct_quiet in Ha; [|exact E1].
  destruct (poll_loop _ pb s w1) as [[[[e pb1] s1] w2]|] eqn:E2; [|done]. cbn [mbind option_bind].
  eapply poll_loop_acct in E2; [|by split]. destruct (negb _); by intros [= _ <- _ <-].
Qed.

(** A buffer polled any number of times. *)
Inductive polled : perf_buffer S -> W -> perf_buffer S -> W -> Prop :=
  | polled_never pb w : polled pb w pb w
  | polled_again pb w t s err pb1 s1 w1 pb2 w2 :
      perf_buffer__poll pb t s w = Some (err, pb1, s1, w1) -> polled pb1 w1 pb2 w2 -> polled pb w pb2 w2.

Lemma polled_acct w0 F M A pb w pb' w' : pb_acct w0 F M A pb w -> polled pb w pb' w' -> pb_acct w0 F M A pb' w'.
Proof. intros Ha Hp. revert Ha. induction Hp; [done|]. intros Ha. by eapply IHHp, perf_poll_acct. Qed.

(** What the process holds is the same. *)
Definition holds_same w w' : Prop :=
  opened w' = opened w /\ mappings w' = mappings w /\ allocated w' = allocated w.

(** C14. A perf buffer that cannot be made leaves nothing behind; one that is made, and
    polled any number of times, whatever the callbacks answer and whether records could
    be copied, gives back every descriptor, mapping and block of memory when freed. *)
Theorem perf_buffer_lifecycle map_fd page_cnt (p : perf_buffer_params S) cpus w r cpus' w1 :
  __perf_buffer__new map_fd page_cnt p cpus w = Some (r, cpus', w1) ->
  match r with
  | inl _ => holds_same w w1
  | inr pb => forall pb' w2, polled pb w1 pb' w2 -> holds_same w (perf_buffer__free pb' w2)
  end.
Proof.
  intros E. eapply (perf_new_acct w [] [] []) in E; [|apply acct_start]. destruct r as [e|pb].
  - by apply acct_nothing.
  - intros pb' w2 Hp. by eapply acct_nothing, pb_free_acct, polled_acct.
Qed.
End PerfAccounts.
