(* ===== verification/PerfLink.v ===== *)
(** * Links

    Models the [struct bpf_link] of [libbpf/src/libbpf.c]: a program attached to a perf
    event, a kernel or user probe, a tracepoint or a raw tracepoint, until the link is
    destroyed.  Messages are left out. *)

From S2P Require Import Prelude BpfMap BpfObject BpfCalls XdpLink Packet BpfLoad LoadFds.
From S2P Require Import XskSocket XskFds Cpus PerfRing PerfBuffer PerfFds.
From Stdlib Require Import Ascii String.
From stdpp Require Import list.

Local Open Scope Z_scope.

#[local] Abbreviation bytes := (list Z).

Definition EIO : Z := 5.
Definition PATH_MAX : Z := 4096.
Definition PERF_TYPE_TRACEPOINT : Z := 2.

(** The function [destroy] points to. *)
Inductive destroy_fn := bpf_link__destroy_perf_event | bpf_link__destroy_fd.

(** [struct bpf_link_fd], with its address. *)
Record bpf_link := Link { l_self : Z; destroy : destroy_fn; l_fd : Z }.

(** The contents of a file that can be opened; the size of [struct perf_event_attr]. *)
Class ProbeSys (W : Type) := {
  file_contents : string -> W -> option bytes;
  sizeof_perf_event_attr : Z;
}.

(** ** Numbers in files *)

(** The characters of the format before the conversion. *)
Fixpoint literal (fmt s : bytes) : scanned :=
  match fmt, s with
  | [], _ => Scanned 0 s
  | _ :: _, [] => Eof
  | c :: fmt, d :: s => if c =? d then literal fmt s else Mismatch
  end.

Definition text (s : string) : bytes := (fun c => Z.of_nat (nat_of_ascii c)) <$> list_ascii_of_string s.

(** [fscanf(f, fmt "%d\n", &ret)]. *)
Definition scan_after (fmt : string) (s : bytes) : option scanned :=
  match literal (text fmt) s with
  | Scanned _ rest => scan_d rest
  | r => Some r
  end.

Section Links.
Context `{HostOrder} {W : Type} `{BpfKern W} `{BpfSys W} `{XskSys W} `{PerfSys W} `{ProbeSys W}.
Implicit Types (w : W).

Definition parse_uint_from_file (file fmt : string) w : option Z :=
  match file_contents file w with
  | None => Some (- errno w)
  | Some contents =>
      r ← scan_after fmt contents;
      Some match r with
           | Eof => - EIO
           | Mismatch => - errno w
           | Scanned ret _ => ret
           end
  end.

Definition determine_kprobe_perf_type : W -> option Z :=
  parse_uint_from_file "/sys/bus/event_source/devices/kprobe/type" "".
Definition determine_uprobe_perf_type : W -> option Z :=
  parse_uint_from_file "/sys/bus/event_source/devices/uprobe/type" "".
Definition determine_kprobe_retprobe_bit : W -> option Z :=
  parse_uint_from_file "/sys/bus/event_source/devices/kprobe/format/retprobe" "config:".
Definition determine_uprobe_retprobe_bit : W -> option Z :=
  parse_uint_from_file "/sys/bus/event_source/devices/uprobe/format/retprobe" "config:".

Definition determine_tracepoint_id (tp_category tp_name : string) w : option Z :=
  let file := ("/sys/kernel/debug/tracing/events/" ++ tp_category ++ "/" ++ tp_name ++ "/id")%string in
  if PATH_MAX <=? Z.of_nat (String.length file) then Some (- E2BIG) else parse_uint_from_file file "" w.

(** ** Perf events *)

Definition perf_event_open_probe (uprobe retprobe : bool) (name : string) (offset pid : Z) w : option (Z * W) :=
  type ← (if uprobe then determine_uprobe_perf_type w else determine_kprobe_perf_type w);
  if type <? 0 then Some (type, w) else
  bit ← (if retprobe then if uprobe then determine_uprobe_retprobe_bit w else determine_kprobe_retprobe_bit w
         else Some 0);
  if retprobe && (bit <? 0) then Some (bit, w) else
  config ← (if retprobe then if bit <? 31 then Some (Z.shiftl 1 bit) else None else Some 0);
  let attr := PerfEventAttr type sizeof_perf_event_attr config (Some name) offset 0 0 0 in
  let '(pfd, w) := sys_perf_event_open attr (if pid <? 0 then -1 else pid) (if pid =? -1 then 0 else -1) (-1) w in
  Some (if pfd <? 0 then - errno w else pfd, w).

Definition perf_event_open_tracepoint (tp_category tp_name : string) w : option (Z * W) :=
  tp_id ← determine_tracepoint_id tp_category tp_name w;
  if tp_id <? 0 then Some (tp_id, w) else
  let attr := PerfEventAttr PERF_TYPE_TRACEPOINT sizeof_perf_event_attr tp_id None 0 0 0 0 in
  let '(pfd, w) := sys_perf_event_open attr (-1) 0 (-1) w in
  Some (if pfd <? 0 then - errno w else pfd, w).

(** ** Attaching *)

Definition bpf_program__attach_perf_event (prog : bpf_program) (pfd : Z) w : (Z + bpf_link) * W :=
  if pfd <? 0 then (inl (- EINVAL), w) else
  let prog_fd := bpf_program__fd (Some prog) in
  if prog_fd <? 0 then (inl (- EINVAL), w) else
  let '(p, w) := sys_calloc w in
  if p =? 0 then (inl (- ENOMEM), w) else
  let '(r, w) := sys_perf_ioctl pfd (PERF_EVENT_IOC_SET_BPF prog_fd) w in
  if r <? 0 then (inl (- errno w), sys_free p w) else
  let '(r, w) := sys_perf_ioctl pfd PERF_EVENT_IOC_ENABLE w in
  if r <? 0 then (inl (- errno w), sys_free p w) else
  (inr (Link p bpf_link__destroy_perf_event pfd), w).

(** An event that was opened, attached to or closed again. *)
Definition attach_opened (prog : bpf_program) (pfd : Z) w : (Z + bpf_link) * W :=
  if pfd <? 0 then (inl pfd, w) else
  match bpf_program__attach_perf_event prog pfd w with
  | (inl err, w) => (inl err, snd (sys_close pfd w))
  | r => r
  end.

Definition bpf_program__attach_kprobe (prog : bpf_program) (retprobe : bool) (func_name : string) w
    : option ((Z + bpf_link) * W) :=
  '(pfd, w) ← perf_event_open_probe false retprobe func_name 0 (-1) w; Some (attach_opened prog pfd w).

Definition bpf_program__attach_uprobe (prog : bpf_program) (retprobe : bool) (pid : Z) (binary_path : string)
    (func_offset : Z) w : option ((Z + bpf_link) * W) :=
  '(pfd, w) ← perf_event_open_probe true retprobe binary_path func_offset pid w; Some (attach_opened prog pfd w).

Definition bpf_program__attach_tracepoint (prog : bpf_program) (tp_category tp_name : string) w
    : option ((Z + bpf_link) * W) :=
  '(pfd, w) ← perf_event_open_tracepoint tp_category tp_name w; Some (attach_opened prog pfd w).

Definition bpf_program__attach_raw_tracepoint (prog : bpf_program) (tp_name : string) w : (Z + bpf_link) * W :=
  let prog_fd := bpf_program__fd (Some prog) in
  if prog_fd <? 0 then (inl (- EINVAL), w) else
  let '(p, w) := sys_calloc w in
  if p =? 0 then (inl (- ENOMEM), w) else
  let '(pfd, w) := bpf_raw_tracepoint_open (Some tp_name) prog_fd w in
  if pfd <? 0 then (inl (- errno w), sys_free p w) else
  (inr (Link p bpf_link__destroy_fd pfd), w).

Definition run_destroy (l : bpf_link) w : Z * W :=
  match destroy l with
  | bpf_link__destroy_perf_event =>
      let '(err, w) := sys_perf_ioctl (l_fd l) PERF_EVENT_IOC_DISABLE w in
      let err := if err =? 0 then 0 else - errno w in
      (err, snd (sys_close (l_fd l) w))
  | bpf_link__destroy_fd => sys_close (l_fd l) w
  end.

Definition bpf_link__destroy (link : option bpf_link) w : Z * W :=
  match link with
  | None => (0, w)
  | Some l => let '(err, w) := run_destroy l w in (err, sys_free (l_self l) w)
  end.
End Links.

(** ** What a link holds *)

(** What a program may be attached to. *)
Inductive attach_point :=
  | Kprobe (retprobe : bool) (func_name : string)
  | Uprobe (retprobe : bool) (pid : Z) (binary_path : string) (func_offset : Z)
  | Tracepoint (tp_category tp_name : string)
  | RawTracepoint (tp_name : string).

Definition attach `{HostOrder} {W} `{BpfKern W} `{BpfSys W} `{XskSys W} `{PerfSys W} `{ProbeSys W}
    (prog : bpf_program) (a : attach_point) (w : W) : option ((Z + bpf_link) * W) :=
  match a with
  | Kprobe r f => bpf_program__attach_kprobe prog r f w
  | Uprobe r pid path off => bpf_program__attach_uprobe prog r pid path off w
  | Tracepoint c n => bpf_program__attach_tracepoint prog c n w
  | RawTracepoint n => Some (bpf_program__attach_raw_tracepoint prog n w)
  end.

Class LinkLaws (W : Type) `{PerfLaws W} := {
  raw_tracepoint_opens : forall n p w fd w', sys_raw_tracepoint_open n p w = (fd, w') ->
    opens fd (opened w) (opened w') /\ rest w' = rest w;
  perf_open_errno : forall a p c g w fd w', sys_perf_event_open a p c g w = (fd, w') -> fd < 0 -> 0 < errno w';
}.

Section LinkAccounts.
Context {W : Type} `{LinkLaws W} `{HostOrder} `{!ProbeSys W}.
Implicit Types (w : W) (F A : list Z) (M : list (Z * Z)).

Lemma attach_perf_event_acct w0 F M A prog pfd w r w' :
  acct w0 F M A w -> bpf_program__attach_perf_event prog pfd w = (r, w') ->
  match r with inl _ => acct w0 F M A w' | inr l => l_fd l = pfd /\ acct w0 F M (l_self l :: A) w' end.
Proof.
  intros Ha. unfold bpf_program__attach_perf_event. destruct (pfd <? 0); [by intros [= <- <-]|].
  destruct (_ <? 0); [by intros [= <- <-]|].
  destruct (sys_calloc w) as [p w1] eqn:E1. apply (acct_calloc _ _ _ _ _ _ _ Ha) in E1.
  destruct (Z.eqb_spec p 0) as [Hp|Hp]; [by intros [= <- <-]|].
  destruct (sys_perf_ioctl pfd (PERF_EVENT_IOC_SET_BPF _) w1) as [a w2] eqn:E2. apply perf_ioctl_quiet in E2.
  eapply acct_quiet in E1; [|exact E2]. destruct (a <? 0); [intros [= <- <-]; by apply acct_free|].
  destruct (sys_perf_ioctl pfd PERF_EVENT_IOC_ENABLE w2) as [b w3] eqn:E3. apply perf_ioctl_quiet in E3.
  eapply acct_quiet in E1; [|exact E3]. destruct (b <? 0); [intros [= <- <-]; by apply acct_free|].
  by intros [= <- <-].
Qed.

(** What an attachment answers. *)
Definition attached w0 F M A (r : Z + bpf_link) w : Prop :=
  match r with inl _ => acct w0 F M A w | inr l => acct w0 (l_fd l :: F) M (l_self l :: A) w end.

Lemma attach_opened_acct w0 F M A prog pfd w r w' :
  acct w0 (valid [pfd] ++ F) M A w -> attach_opened prog pfd w = (r, w') -> attached w0 F M A r w'.
Proof.
  intros Ha. unfold attach_opened. cbn in Ha. destruct (Z.ltb_spec pfd 0) as [Hl|Hl].
  { intros [= <- <-]. by rewrite (proj2 (Z.leb_gt _ _) Hl) in Ha. }
  rewrite (proj2 (Z.leb_le _ _) Hl) in Ha.
  destruct (bpf_program__attach_perf_event prog pfd w) as [r1 w1] eqn:E1.
  eapply attach_perf_event_acct in E1; [|exact Ha]. destruct r1 as [e|l].
  - intros [= <- <-]. destruct (sys_close pfd w1) as [c w2] eqn:E2. by eapply acct_close.
  - intros [= <- <-]. destruct E1 as [Efd E1]. unfold attached. by rewrite Efd.
Qed.

(** The descriptor of an event, or an error number. *)
Lemma open_event_acct w0 F M A attr pid cpu g w fd w' :
  acct w0 F M A w -> sys_perf_event_open attr pid cpu g w = (fd, w') ->
  acct w0 (valid [if fd <? 0 then - errno w' else fd] ++ F) M A w'.
Proof.
  intros Ha E. pose proof (perf_open_errno _ _ _ _ _ _ _ E) as Herr. apply perf_open_opens in E as [Ho Hr].
  pose proof (acct_opens _ _ _ _ _ _ _ Ha Ho Hr) as Ha'. destruct (Z.ltb_spec fd 0) as [Hl|Hl]; [|done].
  cbn in Ha' |- *. rewrite (proj2 (Z.leb_gt _ _) Hl) in Ha'. by rewrite (proj2 (Z.leb_gt 0 (- errno w'))) by lia.
Qed.

Lemma valid_negative e : e < 0 -> valid [e] = [].
Proof. intros He. cbn. by rewrite (proj2 (Z.leb_gt _ _) He). Qed.

Lemma open_probe_acct w0 F M A up rp name off pid w fd w' :
  acct w0 F M A w -> perf_event_open_probe up rp name off pid w = Some (fd, w') ->
  acct w0 (valid [fd] ++ F) M A w'.
Proof.
  intros Ha. unfold perf_event_open_probe.
  destruct (if up then determine_uprobe_perf_type w else _) as [ty|]; [|done]. cbn [mbind option_bind].
  destruct (Z.ltb_spec ty 0) as [Ht|Ht]; [intros [= <- <-]; by rewrite valid_negative|].
  destruct (if rp then _ else Some 0) as [bit|]; [|done]. cbn [mbind option_bind].
  destruct (Z.ltb_spec bit 0) as [Hb|Hb]; destruct rp; cbn [andb];
    try (intros [= <- <-]; by rewrite valid_negative).
  all: try (destruct (bit <? 31); [|done]); cbn [mbind option_bind].
  all: destruct (sys_perf_event_open _ _ _ _ w) as [pfd w1] eqn:E; intros [= <- <-]; by eapply open_event_acct.
Qed.

Lemma open_tracepoint_acct w0 F M A c n w fd w' :
  acct w0 F M A w -> perf_event_open_tracepoint c n w = Some (fd, w') -> acct w0 (valid [fd] ++ F) M A w'.
Proof.
  intros Ha. unfold perf_event_open_tracepoint. destruct (determine_tracepoint_id c n w) as [id|]; [|done].
  cbn [mbind option_bind]. destruct (Z.ltb_spec id 0) as [Hi|Hi]; [intros [= <- <-]; by rewrite valid_negative|].
  destruct (sys_perf_event_open _ _ _ _ w) as [pfd w1] eqn:E. intros [= <- <-]. by eapply open_event_acct.
Qed.

Lemma attach_acct w0 F M A prog a w r w' :
  acct w0 F M A w -> attach prog a w = Some (r, w') -> attached w0 F M A r w'.
Proof.
  intros Ha. destruct a as [rp f|rp pid path off|c n|n]; cbn [attach].
  - unfold bpf_program__attach_kprobe. destruct (perf_event_open_probe _ _ _ _ _ w) as [[pfd w1]|] eqn:E; [|done].
    intros [= Er]. eapply attach_opened_acct; [by eapply open_probe_acct|exact Er].
  - unfold bpf_program__attach_uprobe. destruct (perf_event_open_probe _ _ _ _ _ w) as [[pfd w1]|] eqn:E; [|done].
    intros [= Er]. eapply attach_opened_acct; [by eapply open_probe_acct|exact Er].
  - unfold bpf_program__attach_tracepoint. destruct (perf_event_open_tracepoint c n w) as [[pfd w1]|] eqn:E; [|done].
    intros [= Er]. eapply attach_opened_acct; [by eapply open_tracepoint_acct|exact Er].
  - unfold bpf_program__attach_raw_tracepoint. destruct (_ <? 0); [by intros [= <- <-]|].
    destruct (sys_calloc w) as [p w1] eqn:E1. apply (acct_calloc _ _ _ _ _ _ _ Ha) in E1.
    destruct (Z.eqb_spec p 0) as [Hp|Hp]; [by intros [= <- <-]|].
    unfold bpf_raw_tracepoint_open. destruct (sys_raw_tracepoint_open _ _ w1) as [pfd w2] eqn:E2.
    apply raw_tracepoint_opens in E2 as [Ho Hr]. pose proof (acct_opens _ _ _ _ _ _ _ E1 Ho Hr) as Ha2. cbn in Ha2.
    destruct (Z.ltb_spec pfd 0) as [Hl|Hl]; intros [= <- <-].
    + rewrite (proj2 (Z.leb_gt _ _) Hl) in Ha2. by apply acct_free.
    + by rewrite (proj2 (Z.leb_le _ _) Hl) in Ha2.
Qed.

Lemma link_destroy_acct w0 F M A l w err w' :
  acct w0 (l_fd l :: F) M (l_self l :: A) w -> bpf_link__destroy (Some l) w = (err, w') -> acct w0 F M A w'.
Proof.
  intros Ha. unfold bpf_link__destroy. destruct (run_destroy l w) as [e w1] eqn:E. intros [= _ <-].
  apply acct_free. revert E. unfold run_destroy. destruct (destroy l).
  - destruct (sys_perf_ioctl _ _ w) as [r w2] eqn:E2. apply perf_ioctl_quiet in E2. eapply acct_quiet in Ha; [|exact E2].
    intros [= _ <-]. destruct (sys_close (l_fd l) w2) as [c w3] eqn:E3. by eapply acct_close.
  - intros E. by eapply acct_close.
Qed.

(** A program that cannot be attached, to a probe, a tracepoint or a raw tracepoint,
    leaves no descriptor and no memory behind; destroying the link of one that is gives
    both back, whatever the kernel answers. *)
Theorem link_lifecycle prog a w r w1 :
  attach prog a w = Some (r, w1) ->
  match r with
  | inl _ => holds_same w w1
  | inr l => forall err w2, bpf_link__destroy (Some l) w1 = (err, w2) -> holds_same w w2
  end.
Proof.
  intros E. eapply (attach_acct w [] [] []) in E; [|apply acct_start]. destruct r as [e|l].
  - by apply acct_nothing.
  - intros err w2 Hd. by eapply acct_nothing, link_destroy_acct.
Qed.
End LinkAccounts.
