(* ===== verification/PerfExamples.v ===== *)
(** * Perf buffers and links, on a concrete kernel

    The kernel of [XskExamples] with perf events: it meets the laws of [PerfFds] and
    [PerfLink], and the functions run on it. *)

From S2P Require Import Prelude BpfMap BpfObject BpfCalls XdpLink Packet BpfLoad LoadFds LoadExamples.
From S2P Require Import XskSocket XskFds XskExamples Cpus PerfRing PerfBuffer PerfFds PerfLink.
From Stdlib Require Import Ascii String.
From stdpp Require Import list.

Local Open Scope Z_scope.

Module PerfExamples.
Import XskExamples.

(** What does not change: the files, the CPUs that are online, and the ring of every
    CPU, with its positions. *)
Class Machine := {
  files : string -> option (list Z); online : list Z; ring : Z * Z * list Z;
}.

Section Machine.
Context `{Machine}.

#[export] Instance m_files : FileSys xkern := {
  sys_open_ro p := lift LoadExamples.open_fd;
  sys_read fd n w := let bs := take (Z.to_nat n) (default [] (files possible)) in
                     (Z.of_nat (List.length bs), bs, w);
}.

(** Only on CPUs that are online, or on any. *)
#[export] Instance m_perf : PerfSys xkern := {
  sys_perf_event_open a pid cpu g :=
    if bool_decide (cpu = -1 \/ cpu ∈ online) then lift LoadExamples.open_fd else lift (LoadExamples.fail 19);
  sys_perf_ioctl fd i w := (0, w);
  sys_epoll_create := lift LoadExamples.open_fd;
  sys_epoll_add e fd p w := (0, w);
  sys_epoll_wait e n t w := (1, [next (tail (mem w))], w);
  ring_at a w := ring;
  write_tail a t w := w;
}.

#[export] Instance m_probe : ProbeSys xkern := {
  file_contents f w := files f; sizeof_perf_event_attr := 112;
}.

Lemma opened_lifted w fd w' : lift LoadExamples.open_fd w = (fd, w') ->
  opens fd (opened w) (opened w') /\ rest w' = rest w.
Proof.
  intros E. split; [by apply open_lifted|]. apply lift_rest in E as [Em Ea].
  cbv [rest mappings allocated x_laws map_set mem_set]. by rewrite Em, Ea.
Qed.

#[export] Instance m_laws : PerfLaws xkern.
Proof.
  split.
  - intros a p c g w fd w'. cbn. destruct (bool_decide _); [apply opened_lifted|].
    intros (-> & Hf & Em & Ea)%fail_lifted. split; [by apply fds_open_set|].
    cbv [rest mappings allocated x_laws map_set mem_set]. by rewrite Em, Ea.
  - intros w fd w'. apply opened_lifted.
  - intros p w fd w'. apply opened_lifted.
  - by intros fd n w r bs w' [= _ _ <-].
  - by intros fd i w r w' [= _ <-].
  - by intros e fd p w r w' [= _ <-].
  - by intros e n t w r ps w' [= _ _ <-].
  - done.
  - intros n fd o w m w'. cbn. unfold grant_map. destruct (mmaps w).
    + destruct (lift _ w) as [e w1']. by intros [= <- _].
    + intros [= <- _]. destruct (next_fresh (fst <$> maps w)). lia.
  - intros w. cbn. unfold mem_set. rewrite elem_of_list_to_set, list_elem_of_filter. by intros [? _].
Qed.

#[export] Instance m_link_laws : LinkLaws xkern.
Proof.
  split.
  - intros n p w fd w'. apply opened_lifted.
  - intros a p c g w fd w'. cbn. destruct (bool_decide _).
    + intros [[= <- _] _]%lift_inv Hneg. destruct (LoadExamples.next_fd_fresh (base w)). lia.
    + intros [E _]%lift_inv _. by injection E as _ <-.
Qed.
End Machine.

Definition text_of (s : string) : list Z := CpusExamples.nl s.

(** Four CPUs of which the second may be missing; probes have type 6. *)
Definition machine (possible_cpus : string) (cpus : list Z) (probe_type : string) : Machine := {|
  files f := if bool_decide (f = possible) then Some (text_of possible_cpus)
             else if bool_decide (f = "/sys/bus/event_source/devices/kprobe/type"%string) then Some (text_of probe_type)
             else None;
  online := cpus;
  ring := let bs := concat PerfRingExamples.records in
    (32, 2 ^ 64 - 24, drop 24 bs ++ replicate 4040 0 ++ take 24 bs);
|}.
#[export] Instance four : Machine := machine "0-3" [0; 1; 2; 3] "6".

Definition new_buffer `{Machine} (page_cnt : Z) :=
  perf_buffer__new 3 page_cnt (Some PerfRingExamples.cb) 0 w0.

(** Of eight pages for each CPU. *)
Definition made_buffer : option (perf_buffer PerfRingExamples.log * xkern) :=
  match new_buffer 8 with Some (inr pb, _, w) => Some (pb, w) | _ => None end.

(** Five descriptors, four mappings, seven blocks; freed, none. *)
Example buffer_made :
  option_map (fun '(pb, w) => (LoadExamples.fds (base w), snd <$> maps w, List.length (mem w))) made_buffer =
    Some ([7; 6; 5; 4; 3], [36864; 36864; 36864; 36864], 7%nat) /\
  option_map (fun '(pb, w) => let w := perf_buffer__free pb w in (LoadExamples.fds (base w), maps w, mem w)) made_buffer =
    Some ([], [], []).
Proof. vm_compute. done. Qed.

(** A count that is no power of two is refused, none at all is not. *)
Example page_counts :
  option_map (fun '(r, _, _) => match r with inl e => e | inr pb => mmap_size pb end) (new_buffer 3) = Some (-22) /\
  option_map (fun '(r, _, _) => match r with inl e => e | inr pb => mmap_size pb end) (new_buffer 0) = Some 0.
Proof. vm_compute. done. Qed.

(** Where a CPU that may exist is missing, no buffer is made: the events are opened on
    the first CPUs, as many as there may be. *)
Example missing_cpu :
  option_map (fun '(r, _, w) => (match r with inl e => e | inr _ => 0 end, LoadExamples.fds (base w), maps w, mem w))
    (@new_buffer (machine "0-3" [0; 2; 3] "6") 8) = Some (-19, [], [], []) /\
  option_map (fun '(r, _, w) => (match r with inl e => e | inr _ => 0 end, LoadExamples.fds (base w), maps w, mem w))
    (@new_buffer (machine "0,2" [0; 2] "6") 8) = Some (-19, [], [], []).
Proof. vm_compute. done. Qed.

(** The buffer asked for in full. *)
Definition params : perf_buffer_params PerfRingExamples.log :=
  BufferParams (PerfEventAttr PERF_TYPE_SOFTWARE 0 PERF_COUNT_SW_BPF_OUTPUT None 0 1 PERF_SAMPLE_RAW 1)
    PerfRingExamples.cb 2 [0; 2] [0; 1].
Definition created : option ((Z + perf_buffer PerfRingExamples.log) * Z * xkern) :=
  __perf_buffer__new 3 8 params 0 w0.
Definition is_made {A B C : Type} (r : option ((A + B) * C * xkern)) : bool :=
  match r with Some (inr _, _, _) => true | _ => false end.

Lemma perf_buffer_lifecycle_witness : exists pb cpus w, created = Some (inr pb, cpus, w) /\
  forall pb' w2, polled pb w pb' w2 -> holds_same w0 (perf_buffer__free pb' w2).
Proof.
  assert (is_made created = true) as Hm by (vm_compute; reflexivity).
  destruct created as [[[[e|pb] cpus] w]|] eqn:E; try discriminate Hm.
  exists pb, cpus, w. split; [reflexivity|].
  exact (perf_buffer_lifecycle 3 8 params 0 w0 (inr pb) cpus w E).
Defined.

(** A poll reads the ring of the CPU the kernel names; a copy of the record that wraps
    is kept until the buffer is freed. *)
Example buffer_polled :
  (r ← new_buffer 1;
   pb ← (match fst (fst r) with inr pb => Some pb | _ => None end);
   '(cnt, pb, s, w) ← perf_buffer__poll pb 100 [] (snd r);
   let v := perf_buffer__free pb w in
   Some (cnt, s, List.length (mem w), LoadExamples.fds (base v), maps v, mem v)) =
  Some (1, [(3, inl [1; 2; 3; 4]); (3, inr 5); (3, inl [6; 7; 8; 9])], 8%nat, [], [], []).
Proof. vm_compute. done. Qed.

(** ** Links *)

Definition a_prog (fd : Z) : bpf_program := BpfProgram 0 "kprobe/f" 0 2 0 [fd].
Definition ends {A} (r : option ((Z + A) * xkern)) : option (option Z * list Z * list Z) :=
  '(r, w) ← r; Some (match r with inl e => Some e | inr _ => None end, LoadExamples.fds (base w), mem w).

Example links :
  ends (attach (a_prog 9) (Kprobe false "f") w0) = Some (None, [3], [4096]) /\
  ends (attach (a_prog (-1)) (Kprobe false "f") w0) = Some (Some (-22), [], []) /\
  ends (attach (a_prog 9) (RawTracepoint "xdp") w0) = Some (None, [3], [4096]).
Proof. vm_compute. done. Qed.

(** A file that holds no number: the error answered is [- errno] of a call that did not
    fail, 0, and 0 is taken for the type of the event. *)
Example wrong_type_attached :
  parse_uint_from_file (H4 := @m_probe (machine "0-3" [0] "x")) "/sys/bus/event_source/devices/kprobe/type" "" w0 = Some 0 /\
  ends (@attach _ _ _ _ _ _ (@m_probe (machine "0-3" [0] "x")) (a_prog 9) (Kprobe false "f") w0) = Some (None, [3], [4096]).
Proof. vm_compute. done. Qed.

Lemma link_lifecycle_witness : exists l w, attach (a_prog 9) (Kprobe false "f") w0 = Some (inr l, w) /\
  forall err w2, bpf_link__destroy (Some l) w = (err, w2) -> holds_same w0 w2.
Proof.
  eexists _, _. split; [vm_compute; reflexivity|].
  refine (link_lifecycle (a_prog 9) (Kprobe false "f") w0 (inr _) _ _). vm_compute. reflexivity.
Defined.
End PerfExamples.
