(* ===== verification/Btf.v ===== *)
(** * BTF in memory

    Models [libbpf/src/btf.c] up to the loading into the kernel, with the helpers of
    [btf.h]: parsing the header, the strings and the types, the queries on types.  A
    [struct btf] keeps the bytes it was given; a type is its offset in them.  An
    access outside the bytes is [None].  Memory allocation is taken to succeed. *)

From S2P Require Import Prelude Packet.
From Stdlib Require Import Ascii String.

Local Open Scope Z_scope.

#[local] Abbreviation bytes := (list Z).
#[local] Abbreviation Err e := (Some (inl (- e))).
#[local] Abbreviation Ok a := (Some (inr a)).

Definition ENOENT : Z := 2.
Definition E2BIG : Z := 7.
Definition EINVAL : Z := 22.
Definition ENOTSUP : Z := 95.
Definition UINT32_MAX : Z := 2 ^ 32 - 1.

Definition BTF_MAGIC : Z := 60319.
Definition BTF_VERSION : Z := 1.
Definition BTF_MAX_NR_TYPES : Z := 2147483647.
Definition BTF_MAX_STR_OFFSET : Z := 2147483647.
Definition BTF_MAX_VLEN : Z := 65535.
Definition sizeof_btf_header : Z := 24.

Definition BTF_KIND_INT : Z := 1.
Definition BTF_KIND_PTR : Z := 2.
Definition BTF_KIND_ARRAY : Z := 3.
Definition BTF_KIND_STRUCT : Z := 4.
Definition BTF_KIND_UNION : Z := 5.
Definition BTF_KIND_ENUM : Z := 6.
Definition BTF_KIND_FWD : Z := 7.
Definition BTF_KIND_TYPEDEF : Z := 8.
Definition BTF_KIND_VOLATILE : Z := 9.
Definition BTF_KIND_CONST : Z := 10.
Definition BTF_KIND_RESTRICT : Z := 11.
Definition BTF_KIND_FUNC : Z := 12.
Definition BTF_KIND_FUNC_PROTO : Z := 13.
Definition BTF_KIND_VAR : Z := 14.
Definition BTF_KIND_DATASEC : Z := 15.

(** ** Data *)

Record btf_header := BtfHeader {
  magic : Z; version : Z; flags : Z; hdr_len : Z;
  type_off : Z; type_len : Z; str_off : Z; str_len : Z;
}.

(** [size_type] is the union of [size] and [type]. *)
Record btf_type := BtfType { name_off : Z; info : Z; size_type : Z }.

Record btf_array := BtfArray { a_type : Z; a_index_type : Z; a_nelems : Z }.
Record btf_member := BtfMember { m_name_off : Z; m_type : Z; m_offset : Z }.
Record btf_var_secinfo := VarSecinfo { vsi_type : Z; vsi_offset : Z; vsi_size : Z }.

(** [struct btf]: the offsets of the types from 1 on, the capacity of their array,
    the offset of the strings; [nr_types] is the number of types. *)
Record btf := Btf {
  data : bytes;
  hdr : btf_header;
  types : list nat;
  types_size : Z;
  strings : nat;
  fd : Z;
}.

Definition nr_types (b : btf) : Z := Z.of_nat (List.length (types b)).
Definition set_data (b : btf) (d : bytes) : btf :=
  Btf d (hdr b) (types b) (types_size b) (strings b) (fd b).
Definition set_fd (b : btf) (f : Z) : btf :=
  Btf (data b) (hdr b) (types b) (types_size b) (strings b) f.

(** A pointer to a type: [&btf_void] or a place in the data. *)
Inductive type_ref := Void | At (off : nat).

#[export] Instance type_ref_eq_dec : EqDecision type_ref.
Proof. solve_decision. Defined.

(** The string that starts a buffer; without a zero the read leaves the buffer. *)
Fixpoint cstring (bs : bytes) : option string :=
  match bs with
  | [] => None
  | b :: bs => if b =? 0 then Some EmptyString else String (ascii_of_nat (Z.to_nat b)) <$> cstring bs
  end.

(** ** The helpers of [btf.h] *)

Definition btf_kind (t : btf_type) : Z := Z.land (Z.shiftr (info t) 24) 15.
Definition btf_vlen (t : btf_type) : Z := Z.land (info t) 65535.
Definition btf_kflag (t : btf_type) : bool := negb (Z.shiftr (info t) 31 =? 0).

Definition is_kind (k : Z) (t : btf_type) : bool := btf_kind t =? k.
Definition btf_is_struct (t : btf_type) : bool := is_kind BTF_KIND_STRUCT t.
Definition btf_is_fwd (t : btf_type) : bool := is_kind BTF_KIND_FWD t.
Definition btf_is_typedef (t : btf_type) : bool := is_kind BTF_KIND_TYPEDEF t.
Definition btf_is_var (t : btf_type) : bool := is_kind BTF_KIND_VAR t.
Definition btf_is_datasec (t : btf_type) : bool := is_kind BTF_KIND_DATASEC t.
Definition btf_is_mod (t : btf_type) : bool :=
  is_kind BTF_KIND_VOLATILE t || is_kind BTF_KIND_CONST t || is_kind BTF_KIND_RESTRICT t.

Section Parse.
Context `{HostOrder}.

Definition read_type (d : bytes) (off : nat) : option btf_type :=
  nm ← read32 d off; i ← read32 d (off + 4); s ← read32 d (off + 8); Some (BtfType nm i s).

(** The fields of a type a pointer points to; [btf_void] is all zeros. *)
Definition deref (b : btf) (r : type_ref) : option btf_type :=
  match r with Void => Some (BtfType 0 0 0) | At off => read_type (data b) off end.

Definition btf_array_at (b : btf) (off : nat) : option btf_array :=
  t ← read32 (data b) (off + 12); i ← read32 (data b) (off + 16); n ← read32 (data b) (off + 20);
  Some (BtfArray t i n).

(** Member [i] of a structure. *)
Definition btf_member_at (b : btf) (off i : nat) : option btf_member :=
  let m := (off + 12 + 12 * i)%nat in
  nm ← read32 (data b) m; t ← read32 (data b) (m + 4); o ← read32 (data b) (m + 8);
  Some (BtfMember nm t o).

(** ** Parsing *)

(** The array of types grows by a quarter, at least by 16; an index outside it
    would be [None]. *)
Definition btf_add_type (b : btf) (off : nat) : option (Z + btf) :=
  if types_size b - nr_types b <? 2 then
    if types_size b =? BTF_MAX_NR_TYPES then Err E2BIG else
    let expand_by := Z.max (Z.shiftr (types_size b) 2) 16 in
    let new_size := Z.min BTF_MAX_NR_TYPES (types_size b + expand_by) in
    if new_size <=? nr_types b + 1 then None else
    Ok (Btf (data b) (hdr b) (types b ++ [off]) new_size (strings b) (fd b))
  else if types_size b <=? nr_types b + 1 then None
  else Ok (Btf (data b) (hdr b) (types b ++ [off]) (types_size b) (strings b) (fd b)).

Definition read_hdr (d : bytes) : option btf_header :=
  mg ← read16 d 0; v ← read8 d 2; f ← read8 d 3; hl ← read32 d 4;
  toff ← read32 d 8; tl ← read32 d 12; so ← read32 d 16; sl ← read32 d 20;
  Some (BtfHeader mg v f hl toff tl so sl).

(** 0, or the error, and the header. *)
Definition btf_parse_hdr (d : bytes) : option (Z + btf_header) :=
  let data_size := Z.of_nat (List.length d) in
  if data_size <? sizeof_btf_header then Err EINVAL else
  h ← read_hdr d;
  if negb (magic h =? BTF_MAGIC) then Err EINVAL else
  if negb (version h =? BTF_VERSION) then Err ENOTSUP else
  if negb (flags h =? 0) then Err ENOTSUP else
  let meta_left := data_size - sizeof_btf_header in
  if meta_left =? 0 then Err EINVAL else
  if meta_left <? type_off h then Err EINVAL else
  if meta_left <? str_off h then Err EINVAL else
  if str_off h <=? type_off h then Err EINVAL else
  if negb (Z.land (type_off h) 2 =? 0) then Err EINVAL else
  Ok h.

(** [nohdr_data + off]. *)
Definition nohdr (off : Z) : nat := Z.to_nat (sizeof_btf_header + off).

Definition btf_parse_str_sec (d : bytes) (h : btf_header) : option (Z + nat) :=
  let start := nohdr (str_off h) in
  if (str_len h =? 0) || (BTF_MAX_STR_OFFSET <? str_len h - 1) then Err EINVAL else
  first ← d !! start;
  if negb (first =? 0) then Err EINVAL else
  last ← d !! (start + Z.to_nat (str_len h) - 1)%nat;
  if negb (last =? 0) then Err EINVAL else
  Ok start.

(** The size of the type with what follows it, or the error. *)
Definition btf_type_size (t : btf_type) : Z :=
  let vlen := btf_vlen t in
  let k := btf_kind t in
  if (k =? BTF_KIND_FWD) || (k =? BTF_KIND_CONST) || (k =? BTF_KIND_VOLATILE) ||
     (k =? BTF_KIND_RESTRICT) || (k =? BTF_KIND_PTR) || (k =? BTF_KIND_TYPEDEF) ||
     (k =? BTF_KIND_FUNC) then 12 else
  if k =? BTF_KIND_INT then 12 + 4 else
  if k =? BTF_KIND_ENUM then 12 + vlen * 8 else
  if k =? BTF_KIND_ARRAY then 12 + 12 else
  if (k =? BTF_KIND_STRUCT) || (k =? BTF_KIND_UNION) then 12 + vlen * 12 else
  if k =? BTF_KIND_FUNC_PROTO then 12 + vlen * 8 else
  if k =? BTF_KIND_VAR then 12 + 4 else
  if k =? BTF_KIND_DATASEC then 12 + vlen * 12 else - EINVAL.

(** The loop from [next] to [fin]; every round takes 12 bytes at least. *)
Fixpoint parse_types (fuel : nat) (b : btf) (next fin : nat) : option (Z + btf) :=
  match fuel with
  | O => None
  | S fuel =>
      if (fin <=? next)%nat then Ok b else
      t ← read_type (data b) next;
      let sz := btf_type_size t in
      if sz <? 0 then Some (inl sz) else
      r ← btf_add_type b next;
      match r with
      | inl err => Some (inl err)
      | inr b => parse_types fuel b (next + Z.to_nat sz) fin
      end
  end.

Definition btf_parse_type_sec (b : btf) : option (Z + btf) :=
  let next := nohdr (type_off (hdr b)) in
  let fin := nohdr (str_off (hdr b)) in
  parse_types (S (fin - next)) b next fin.

(** [data] is the copy of the bytes given. *)
Definition btf__new (d : bytes) : option (Z + btf) :=
  r ← btf_parse_hdr d;
  match r with
  | inl err => Some (inl err)
  | inr h =>
      r ← btf_parse_str_sec d h;
      match r with
      | inl err => Some (inl err)
      | inr start => btf_parse_type_sec (Btf d h [] 0 start (-1))
      end
  end.

(** ** Queries *)

Definition btf__get_nr_types (b : btf) : Z := nr_types b.

(** NULL is [None]. *)
Definition btf__type_by_id (b : btf) (type_id : Z) : option type_ref :=
  if nr_types b <? type_id then None else
  if type_id =? 0 then Some Void else At <$> types b !! Z.to_nat (type_id - 1).

Definition btf_type_is_void (r : type_ref) (t : btf_type) : bool :=
  bool_decide (r = Void) || btf_is_fwd t.

(** The outer [None] is an undefined read, the inner one NULL. *)
Definition btf__name_by_offset (b : btf) (offset : Z) : option nat :=
  if offset <? str_len (hdr b) then Some (strings b + Z.to_nat offset)%nat else None.

Definition name_at (b : btf) (offset : Z) : option (option string) :=
  match btf__name_by_offset b offset with
  | None => Some None
  | Some p => s ← cstring (drop p (data b)); Some (Some s)
  end.

Definition MAX_RESOLVE_DEPTH : nat := 32.

(** Kinds with a size, kinds that refer to the type that has it. *)
Definition has_size (k : Z) : bool :=
  (k =? BTF_KIND_INT) || (k =? BTF_KIND_STRUCT) || (k =? BTF_KIND_UNION) ||
  (k =? BTF_KIND_ENUM) || (k =? BTF_KIND_DATASEC).
Definition is_alias (k : Z) : bool :=
  (k =? BTF_KIND_TYPEDEF) || (k =? BTF_KIND_VOLATILE) || (k =? BTF_KIND_CONST) ||
  (k =? BTF_KIND_RESTRICT) || (k =? BTF_KIND_VAR).

Definition sizeof_ptr : Z := 8.

(** The loop: the error, or [size] and [nelems] at [done]. *)
Fixpoint resolve_size_loop (depth : nat) (b : btf) (r : option type_ref) (nelems : Z)
    : option (Z + Z * Z) :=
  match depth, r with
  | O, _ | _, None => Ok (-1, nelems)
  | S depth, Some r =>
      t ← deref b r;
      if btf_type_is_void r t then Ok (-1, nelems) else
      let k := btf_kind t in
      if has_size k then Ok (size_type t, nelems) else
      if k =? BTF_KIND_PTR then Ok (sizeof_ptr, nelems) else
      if is_alias k then resolve_size_loop depth b (btf__type_by_id b (size_type t)) nelems else
      if k =? BTF_KIND_ARRAY then
        a ← match r with At off => btf_array_at b off | Void => None end;
        if negb (nelems =? 0) && (UINT32_MAX / nelems <? a_nelems a) then Err E2BIG else
        resolve_size_loop depth b (btf__type_by_id b (a_type a)) (nelems * a_nelems a)
      else Err EINVAL
  end.

Definition btf__resolve_size (b : btf) (type_id : Z) : option Z :=
  r ← resolve_size_loop MAX_RESOLVE_DEPTH b (btf__type_by_id b type_id) 1;
  match r with
  | inl err => Some err
  | inr (sz, nelems) =>
      if sz <? 0 then Some (- EINVAL) else
      if negb (nelems =? 0) && (UINT32_MAX / nelems <? sz) then Some (- E2BIG) else
      Some (nelems * sz)
  end.

(** The loop: whether the depth was used up, and where it stopped. *)
Fixpoint resolve_type_loop (depth : nat) (b : btf) (type_id : Z) : option Z :=
  match depth with
  | O => Some (- EINVAL)
  | S depth =>
      match btf__type_by_id b type_id with
      | None => Some (- EINVAL)
      | Some r =>
          t ← deref b r;
          if btf_type_is_void r t then Some (- EINVAL) else
          if btf_is_mod t || btf_is_typedef t || btf_is_var t
          then resolve_type_loop depth b (size_type t) else Some (i32 type_id)
      end
  end.

Definition btf__resolve_type (b : btf) (type_id : Z) : option Z :=
  resolve_type_loop MAX_RESOLVE_DEPTH b type_id.

(** The search among the types [offs], the first with identifier [i]. *)
Fixpoint find_name (b : btf) (offs : list nat) (i : Z) (type_name : string) : option Z :=
  match offs with
  | [] => Some (- ENOENT)
  | off :: offs =>
      t ← read_type (data b) off;
      nm ← name_at b (name_off t);
      if bool_decide (nm = Some type_name) then Some i else find_name b offs (i + 1) type_name
  end.

Definition btf__find_by_name (b : btf) (type_name : string) : option Z :=
  if (type_name =? "void")%string then Some 0 else find_name b (types b) 1 type_name.
End Parse.

(** ** Well-formed BTF *)

Section WellFormed.
Context `{HostOrder}.
Implicit Types (d : bytes) (b : btf) (offs : list nat).

(** The types at [offs] fill the bytes from [next] on, the last one reaching [fin]. *)
Fixpoint tiled d (next fin : nat) offs : Prop :=
  match offs with
  | [] => (fin <= next)%nat
  | off :: offs =>
      off = next /\ (next < fin)%nat /\
      exists t, read_type d next = Some t /\ 0 <= btf_type_size t /\
        tiled d (next + Z.to_nat (btf_type_size t)) fin offs
  end.

(** The array of types holds one entry more than there are types, for [btf_void]. *)
Definition capacity b : Prop :=
  types_size b = 0 /\ types b = [] \/ nr_types b < types_size b <= BTF_MAX_NR_TYPES.

Record wf b : Prop := {
  wf_hdr : btf_parse_hdr (data b) = Some (inr (hdr b));
  wf_types : tiled (data b) (nohdr (type_off (hdr b))) (nohdr (str_off (hdr b))) (types b);
  wf_capacity : capacity b;
  wf_nonempty : 0 < nr_types b;
  wf_strings : strings b = nohdr (str_off (hdr b));
  wf_str_len : 0 < str_len (hdr b) <= BTF_MAX_STR_OFFSET + 1;
  wf_first : data b !! strings b = Some 0;
  wf_last : data b !! (strings b + Z.to_nat (str_len (hdr b)) - 1)%nat = Some 0;
}.

(** [b'] is [b] with more types. *)
Definition extends b b' offs : Prop :=
  data b' = data b /\ hdr b' = hdr b /\ strings b' = strings b /\ fd b' = fd b /\
  types b' = types b ++ offs.

Lemma extends_refl b : extends b b [].
Proof. unfold extends. by rewrite app_nil_r. Qed.

Lemma nr_types_app b b' offs :
  types b' = types b ++ offs -> nr_types b' = nr_types b + Z.of_nat (List.length offs).
Proof. intros E. unfold nr_types. rewrite E, List.length_app. lia. Qed.

(** Adding a type to an array with room, or that can grow. *)
Lemma add_type_spec b off :
  capacity b ->
  match btf_add_type b off with
  | Some (inr b') => extends b b' [off] /\ capacity b'
  | Some (inl err) => err = - E2BIG /\ BTF_MAX_NR_TYPES - 2 < nr_types b
  | None => False
  end.
Proof.
  intros Hc. unfold btf_add_type.
  assert (0 <= nr_types b) by (unfold nr_types; lia).
  assert (nr_types b < types_size b <= BTF_MAX_NR_TYPES \/ types_size b = 0 /\ nr_types b = 0) as Hr.
  { destruct Hc as [[? E]|?]; [right|by left]. unfold nr_types. by rewrite E. }
  assert (forall n, nr_types b + 1 < n <= BTF_MAX_NR_TYPES ->
    extends b (Btf (data b) (hdr b) (types b ++ [off]) n (strings b) (fd b)) [off] /\
    capacity (Btf (data b) (hdr b) (types b ++ [off]) n (strings b) (fd b))) as Hok.
  { intros n Hn. split; [done|]. right. erewrite (nr_types_app b) by done. cbn. lia. }
  unfold BTF_MAX_NR_TYPES in *.
  destruct (Z.ltb_spec (types_size b - nr_types b) 2).
  - destruct (Z.eqb_spec (types_size b) 2147483647); [split; [done|lia]|].
    rewrite Z.shiftr_div_pow2 by lia.
    destruct (Z.leb_spec (Z.min 2147483647 (types_size b + Z.max (types_size b / 2 ^ 2) 16))
      (nr_types b + 1)); [lia|]. apply Hok. lia.
  - destruct (Z.leb_spec (types_size b) (nr_types b + 1)); [lia|]. apply Hok. lia.
Qed.

Lemma type_size_bounds t : btf_type_size t < 0 \/ 12 <= btf_type_size t <= 12 + 12 * 65535.
Proof.
  unfold btf_type_size, EINVAL.
  assert (0 <= btf_vlen t <= 65535).
  { unfold btf_vlen. pose proof (Z.land_ones (info t) 16) as E.
    change (Z.ones 16) with 65535 in E. rewrite E by lia.
    pose proof (Z.mod_pos_bound (info t) (2 ^ 16)). lia. }
  repeat case_match; lia.
Qed.

Lemma parse_types_spec fuel b next fin b' :
  capacity b -> parse_types fuel b next fin = Some (inr b') ->
  exists offs, extends b b' offs /\ capacity b' /\ tiled (data b) next fin offs.
Proof.
  revert b next. induction fuel as [|fuel IH]; intros b next Hc; [done|]. cbn [parse_types].
  destruct (Nat.leb_spec fin next) as [Hle|Hlt].
  { intros [= <-]. exists []. by auto using extends_refl. }
  destruct (read_type (data b) next) as [t|] eqn:Ht; [|done]. cbn [mbind option_bind].
  destruct (Z.ltb_spec (btf_type_size t) 0) as [?|Hs]; [done|].
  pose proof (add_type_spec b next Hc) as Hadd.
  destruct (btf_add_type b next) as [[err|b1]|]; [done| |done]. cbn.
  destruct Hadd as [(Ed & Eh & Es & Ef & Et) Hc1]. intros Hrun.
  destruct (IH b1 _ Hc1 Hrun) as (offs & (Ed' & Eh' & Es' & Ef' & Et') & Hc' & Htile).
  exists (next :: offs). split; [|split; [done|]].
  - unfold extends. rewrite Ed', Eh', Es', Ef', Et', Et, <- app_assoc. by rewrite Ed, Eh, Es, Ef.
  - rewrite Ed in Htile. split; [done|]. split; [done|]. by exists t.
Qed.

Lemma read32_bounds d off v : Forall byte_ok d -> read32 d off = Some v -> 0 <= v < 2 ^ 32.
Proof.
  intros Hok (bs & Hbs & ->)%fmap_Some. pose proof (read_bytes_length _ _ _ _ Hbs) as Hl.
  apply read_bytes_ok in Hbs; [|done]. apply load_bounds in Hbs. by rewrite Hl in Hbs.
Qed.

Lemma read_hdr_bounds d h :
  Forall byte_ok d -> read_hdr d = Some h ->
  0 <= type_off h < 2 ^ 32 /\ 0 <= str_off h < 2 ^ 32 /\ 0 <= str_len h < 2 ^ 32.
Proof.
  unfold read_hdr. intros Hok (mg & _ & Hr)%bind_Some. apply bind_Some in Hr as (v & _ & Hr).
  apply bind_Some in Hr as (f & _ & Hr). apply bind_Some in Hr as (hl & _ & Hr).
  apply bind_Some in Hr as (toff & H1%read32_bounds & Hr); [|done].
  apply bind_Some in Hr as (tl & _ & Hr).
  apply bind_Some in Hr as (so & H2%read32_bounds & Hr); [|done].
  apply bind_Some in Hr as (sl & H3%read32_bounds & [= <-]); [|done]. done.
Qed.

Lemma parse_hdr_spec d h :
  btf_parse_hdr d = Some (inr h) ->
  24 < Z.of_nat (List.length d) /\ read_hdr d = Some h /\ magic h = BTF_MAGIC /\
  type_off h < str_off h <= Z.of_nat (List.length d) - 24.
Proof.
  unfold btf_parse_hdr, sizeof_btf_header.
  destruct (Z.ltb_spec (Z.of_nat (List.length d)) 24); [done|].
  intros (h' & Hr & Hrun)%bind_Some.
  destruct (Z.eqb_spec (magic h') BTF_MAGIC); [|done]. cbn [negb] in Hrun.
  do 2 (destruct (negb _); [done|]).
  destruct (Z.eqb_spec (Z.of_nat (List.length d) - 24) 0); [done|].
  destruct (Z.ltb_spec (Z.of_nat (List.length d) - 24) (type_off h')); [done|].
  destruct (Z.ltb_spec (Z.of_nat (List.length d) - 24) (str_off h')); [done|].
  destruct (Z.leb_spec (str_off h') (type_off h')); [done|].
  destruct (negb _); [done|]. injection Hrun as ->. repeat split; [lia|done|done|lia|lia].
Qed.

(** A BTF that is made of any bytes is well-formed: its types fill the section of
    types one after the other, the array of types has room for each and for
    [btf_void], its strings begin and end with a zero. *)
Theorem btf_new_wf d b :
  Forall byte_ok d -> btf__new d = Some (inr b) -> wf b /\ data b = d /\ fd b = -1.
Proof.
  intros Hok. unfold btf__new. intros (r & Hh & Hrun)%bind_Some. destruct r as [err|h]; [done|].
  apply bind_Some in Hrun as (r & Hs & Hrun). destruct r as [err|start]; [done|].
  unfold btf_parse_type_sec in Hrun. apply parse_types_spec in Hrun as (offs & Hext & Hc & Htile);
    [|by left]. cbn [data hdr types] in *.
  destruct Hext as (Ed & Eh & Es & Ef & Et). cbn in Ed, Eh, Es, Ef, Et.
  split; [|by rewrite Ed, Ef]. unfold btf_parse_str_sec in Hs.
  destruct ((str_len h =? 0) || (BTF_MAX_STR_OFFSET <? str_len h - 1)) eqn:Hlen; [done|].
  apply bind_Some in Hs as (first & Hfirst & Hs).
  destruct (Z.eqb_spec first 0) as [->|]; [|done]. cbn [negb] in Hs.
  apply bind_Some in Hs as (last & Hlast & Hs).
  destruct (Z.eqb_spec last 0) as [->|]; [|done]. injection Hs as <-.
  apply orb_false_iff in Hlen as [H0%Z.eqb_neq Hmax%Z.ltb_ge].
  destruct (parse_hdr_spec d h Hh) as (_ & Hr & _ & Hoff).
  apply read_hdr_bounds in Hr as (Htoff & Hsoff & Hslen); [|done].
  constructor; rewrite ?Ed, ?Eh, ?Es, ?Et; try done; [|lia].
  unfold nr_types. rewrite Et. destruct offs as [|off offs]; [|cbn; lia].
  revert Htile. cbn. unfold nohdr, sizeof_btf_header. lia.
Qed.
End WellFormed.

(** ** Encoding *)

(** A type with the words that follow it. *)
Record btf_desc := Desc { d_type : btf_type; d_words : list Z }.

Definition word (w : Z) : Prop := 0 <= w < 2 ^ 32.

Definition desc_words (t : btf_desc) : list Z :=
  [name_off (d_type t); info (d_type t); size_type (d_type t)] ++ d_words t.

Definition desc_ok (t : btf_desc) : Prop :=
  Forall word (desc_words t) /\
  btf_type_size (d_type t) = 12 + 4 * Z.of_nat (List.length (d_words t)).

Section Encode.
Context `{HostOrder}.
Implicit Types (d : bytes) (b : btf) (t : btf_desc) (ts : list btf_desc).

Definition enc_words (ws : list Z) : bytes := List.concat (store 4 <$> ws).
Definition enc_desc t : bytes := enc_words (desc_words t).
Definition enc_types ts : bytes := List.concat (enc_desc <$> ts).

(** The header of 24 bytes, the types, the strings. *)
Definition enc_btf ts (strs : bytes) : bytes :=
  let types_len := Z.of_nat (List.length (enc_types ts)) in
  store 2 BTF_MAGIC ++ [BTF_VERSION; 0] ++
  enc_words [sizeof_btf_header; 0; types_len; types_len; Z.of_nat (List.length strs)] ++
  enc_types ts ++ strs.

Fixpoint offsets (next : nat) ts : list nat :=
  match ts with [] => [] | t :: ts => next :: offsets (next + List.length (enc_desc t)) ts end.

Lemma length_enc_words ws : List.length (enc_words ws) = (4 * List.length ws)%nat.
Proof.
  unfold enc_words. induction ws as [|w ws IH]; [done|]. cbn [fmap list_fmap List.concat].
  rewrite List.length_app, IH, length_store. cbn. lia.
Qed.

Lemma length_enc_desc t : List.length (enc_desc t) = (12 + 4 * List.length (d_words t))%nat.
Proof. unfold enc_desc. rewrite length_enc_words. cbn. lia. Qed.

Lemma length_enc_types ts : (12 * List.length ts <= List.length (enc_types ts))%nat.
Proof.
  unfold enc_types. induction ts as [|t ts IH]; [done|]. cbn [fmap list_fmap List.concat].
  rewrite List.length_app, length_enc_desc. cbn. lia.
Qed.

Lemma length_offsets next ts : List.length (offsets next ts) = List.length ts.
Proof. revert next. induction ts as [|t ts IH]; intros next; [done|]. cbn. by rewrite IH. Qed.

(** A word of an encoding, wherever the encoding is. *)
Lemma read_word pre ws post j w :
  ws !! j = Some w -> word w ->
  read32 (pre ++ enc_words ws ++ post) (List.length pre + 4 * j) = Some w.
Proof.
  intros Hj Hw. apply list_elem_of_split_length in Hj as (l1 & l2 & -> & ->).
  unfold enc_words. rewrite fmap_app, List.concat_app. cbn [fmap list_fmap List.concat].
  fold (enc_words l1). rewrite <- !app_assoc, app_assoc. rewrite read32_store.
  - rewrite Z.mod_small by done. done.
  - rewrite List.length_app, length_enc_words. lia.
Qed.

(** A type of the list is encoded at [off]. *)
Definition placed d (off : nat) t : Prop :=
  exists pre post, d = pre ++ enc_desc t ++ post /\ List.length pre = off.

Lemma placed_words d off t j w :
  placed d off t -> desc_ok t -> desc_words t !! j = Some w -> read32 d (off + 4 * j) = Some w.
Proof.
  intros (pre & post & -> & <-) [Hok _] Hj. apply read_word; [done|].
  by apply (Forall_lookup_1 _ _ _ _ Hok Hj).
Qed.

Lemma placed_type d off t : placed d off t -> desc_ok t -> read_type d off = Some (d_type t).
Proof.
  intros Hp Hok. unfold read_type.
  pose proof (placed_words d off t 0 _ Hp Hok eq_refl) as H0.
  pose proof (placed_words d off t 1 _ Hp Hok eq_refl) as H1.
  pose proof (placed_words d off t 2 _ Hp Hok eq_refl) as H2.
  rewrite Nat.add_0_r in H0. cbn in H1, H2. rewrite H0, H1, H2. cbn. by destruct (d_type t).
Qed.

Lemma offsets_placed ts pre post i off t :
  offsets (List.length pre) ts !! i = Some off -> ts !! i = Some t ->
  placed (pre ++ enc_types ts ++ post) off t.
Proof.
  revert pre i. induction ts as [|t0 ts IH]; intros pre i; [done|].
  unfold enc_types. cbn [fmap list_fmap List.concat]. fold (enc_types ts).
  destruct i as [|i]; cbn [offsets lookup list_lookup].
  - intros [= <-] [= <-]. exists pre, (enc_types ts ++ post). by rewrite <- app_assoc.
  - rewrite <- List.length_app. intros Hoff Ht. rewrite <- app_assoc, app_assoc. by apply (IH _ i).
Qed.

Lemma parse_types_encoded ts pre post b fuel :
  data b = pre ++ enc_types ts ++ post -> Forall desc_ok ts -> capacity b ->
  nr_types b + Z.of_nat (List.length ts) < BTF_MAX_NR_TYPES - 2 -> (List.length ts < fuel)%nat ->
  exists b', parse_types fuel b (List.length pre) (List.length pre + List.length (enc_types ts)) =
      Some (inr b') /\ extends b b' (offsets (List.length pre) ts).
Proof.
  revert pre b fuel. induction ts as [|t ts IH]; intros pre b fuel Hd Hok Hc Hnr Hfuel.
  { destruct fuel as [|fuel]; [cbn in Hfuel; lia|]. cbn [parse_types enc_types offsets]. cbn.
    rewrite (proj2 (Nat.leb_le _ _)) by lia. eauto using extends_refl. }
  destruct fuel as [|fuel]; [lia|]. apply Forall_cons_iff in Hok as [Ht Hok].
  unfold enc_types in Hd |- *. cbn [fmap list_fmap List.concat] in Hd |- *. fold (enc_types ts) in *.
  cbn [parse_types offsets]. rewrite List.length_app, length_enc_desc.
  rewrite (proj2 (Nat.leb_gt _ _)) by lia.
  assert (placed (data b) (List.length pre) t) as Hp
    by (exists pre, (enc_types ts ++ post); by rewrite Hd, <- app_assoc).
  rewrite (placed_type _ _ _ Hp Ht). cbn [mbind option_bind].
  rewrite (proj2 Ht). rewrite (proj2 (Z.ltb_ge _ _)) by lia.
  pose proof (add_type_spec b (List.length pre) Hc) as Hadd.
  destruct (btf_add_type b (List.length pre)) as [[err|b1]|]; [cbn in Hnr; lia| |done].
  destruct Hadd as [(Ed & Eh & Es & Ef & Et) Hc1].
  replace (List.length pre + Z.to_nat (12 + 4 * Z.of_nat (List.length (d_words t))))%nat
    with (List.length (pre ++ enc_desc t)) by (rewrite List.length_app, length_enc_desc; lia).
  destruct (IH (pre ++ enc_desc t) b1 fuel) as (b' & Hrun & Hext); [..|].
  - by rewrite Ed, Hd, <- !app_assoc.
  - done.
  - done.
  - rewrite (nr_types_app _ _ _ Et). cbn in Hnr |- *. lia.
  - cbn in Hfuel. lia.
  - exists b'. split.
    + cbn [mbind option_bind]. rewrite <- Hrun. f_equal.
      rewrite List.length_app, length_enc_desc. lia.
    + destruct Hext as (Ed' & Eh' & Es' & Ef' & Et'). unfold extends.
      rewrite Ed', Eh', Es', Ef', Et', Et, Ed, Eh, Es, Ef, <- app_assoc.
      by rewrite List.length_app, length_enc_desc.
Qed.

(** Strings a BTF may have. *)
Definition strs_ok (strs : bytes) : Prop :=
  strs !! 0%nat = Some 0 /\ strs !! (List.length strs - 1)%nat = Some 0 /\
  Z.of_nat (List.length strs) <= BTF_MAX_STR_OFFSET.

Lemma read_hdr_enc ts strs :
  Z.of_nat (List.length (enc_types ts)) < 2 ^ 32 -> Z.of_nat (List.length strs) < 2 ^ 32 ->
  let tl := Z.of_nat (List.length (enc_types ts)) in
  read_hdr (enc_btf ts strs) =
    Some (BtfHeader BTF_MAGIC BTF_VERSION 0 sizeof_btf_header 0 tl tl (Z.of_nat (List.length strs))).
Proof.
  intros Htl Hsl tl.
  assert (forall j w, [sizeof_btf_header; 0; tl; tl; Z.of_nat (List.length strs)] !! j = Some w ->
    read32 (enc_btf ts strs) (4 + 4 * j) = Some w) as Hw.
  { intros j w Hj.
    assert (enc_btf ts strs = (store 2 BTF_MAGIC ++ [BTF_VERSION; 0]) ++
      enc_words [sizeof_btf_header; 0; tl; tl; Z.of_nat (List.length strs)] ++
      enc_types ts ++ strs) as ->.
    { unfold enc_btf. by rewrite <- !app_assoc. }
    replace 4%nat with (List.length (store 2 BTF_MAGIC ++ [BTF_VERSION; 0])) at 1
      by (rewrite List.length_app, length_store; done).
    apply read_word; [done|]. eapply Forall_lookup_1; [|exact Hj].
    unfold sizeof_btf_header, word. repeat constructor; lia. }
  pose proof (Hw 0%nat _ eq_refl) as H0. pose proof (Hw 1%nat _ eq_refl) as H1.
  pose proof (Hw 2%nat _ eq_refl) as H2. pose proof (Hw 3%nat _ eq_refl) as H3.
  pose proof (Hw 4%nat _ eq_refl) as H4. cbn in H0, H1, H2, H3, H4.
  unfold read_hdr. rewrite H0, H1, H2, H3, H4.
  assert (read16 (enc_btf ts strs) 0 = Some BTF_MAGIC) as ->.
  { unfold enc_btf. by apply (read16_store []). }
  pose proof (length_store 2 BTF_MAGIC) as L. unfold enc_btf.
  destruct (store 2 BTF_MAGIC) as [|x [|y [|]]]; try done.
Qed.

Lemma length_enc_btf ts strs :
  List.length (enc_btf ts strs) = (24 + (List.length (enc_types ts) + List.length strs))%nat.
Proof. unfold enc_btf. rewrite !List.length_app, length_store, length_enc_words. done. Qed.

(** The bytes after the header. *)
Lemma enc_btf_split ts strs : exists hd,
  List.length hd = 24%nat /\ enc_btf ts strs = hd ++ enc_types ts ++ strs.
Proof.
  set (tl := Z.of_nat (List.length (enc_types ts))).
  exists (store 2 BTF_MAGIC ++ [BTF_VERSION; 0] ++
    enc_words [sizeof_btf_header; 0; tl; tl; Z.of_nat (List.length strs)]).
  split; [by rewrite !List.length_app, length_store, length_enc_words|].
  unfold enc_btf. by rewrite <- !app_assoc.
Qed.

Lemma parse_hdr_enc ts strs h :
  read_hdr (enc_btf ts strs) = Some h -> magic h = BTF_MAGIC -> version h = BTF_VERSION ->
  flags h = 0 -> type_off h = 0 -> str_off h = Z.of_nat (List.length (enc_types ts)) ->
  ts <> [] -> btf_parse_hdr (enc_btf ts strs) = Some (inr h).
Proof.
  intros Hr Hm Hv Hf Ht Hs Hne. unfold btf_parse_hdr, sizeof_btf_header.
  assert (12 <= Z.of_nat (List.length (enc_types ts))).
  { pose proof (length_enc_types ts). destruct ts; [done|]. cbn in *. lia. }
  rewrite length_enc_btf, (proj2 (Z.ltb_ge _ 24)), Hr by lia. cbn [mbind option_bind].
  rewrite Hm, Hv, Hf, Ht, Hs, !Z.eqb_refl. cbn [negb].
  rewrite (proj2 (Z.eqb_neq _ 0)), !(proj2 (Z.ltb_ge _ _)), (proj2 (Z.leb_gt _ _)) by lia. done.
Qed.

(** C19. Parsing an encoding succeeds and gives back every type with the words after it,
    and every string. *)
Theorem btf_new_encode ts strs :
  Forall desc_ok ts -> ts <> [] -> strs_ok strs ->
  Z.of_nat (List.length (enc_types ts)) < 2 ^ 32 ->
  exists b, btf__new (enc_btf ts strs) = Some (inr b) /\
    nr_types b = Z.of_nat (List.length ts) /\
    (forall i t, ts !! i = Some t -> exists off,
       btf__type_by_id b (Z.of_nat i + 1) = Some (At off) /\ deref b (At off) = Some (d_type t) /\
       forall j w, d_words t !! j = Some w -> read32 (data b) (off + 12 + 4 * j) = Some w) /\
    forall o, 0 <= o < Z.of_nat (List.length strs) ->
      name_at b o = Some <$> cstring (drop (Z.to_nat o) strs).
Proof.
  intros Hok Hne (Hfirst & Hlast & Hslen) Htl. unfold BTF_MAX_STR_OFFSET in Hslen.
  assert (Z.of_nat (List.length strs) < 2 ^ 32) as Hsl by lia.
  pose proof (read_hdr_enc ts strs Htl Hsl) as Hr. cbn zeta in Hr.
  set (h := BtfHeader _ _ _ _ _ _ _ _) in Hr.
  pose proof (parse_hdr_enc ts strs h Hr eq_refl eq_refl eq_refl eq_refl eq_refl Hne) as Hh.
  destruct (enc_btf_split ts strs) as (hd & Hhd & Hsplit).
  assert (forall i x, strs !! i = Some x ->
    enc_btf ts strs !! (24 + List.length (enc_types ts) + i)%nat = Some x) as Hstr.
  { intros i x Hi. rewrite Hsplit, app_assoc. rewrite lookup_app_r; rewrite List.length_app; [|lia].
    rewrite <- Hi. f_equal. lia. }
  assert (nohdr (str_off h) = 24 + List.length (enc_types ts))%nat as Hso
    by (unfold nohdr, sizeof_btf_header, h; cbn; lia).
  assert (nohdr (type_off h) = List.length hd) as Hto by (by rewrite Hhd).
  set (b0 := Btf (enc_btf ts strs) h [] 0 (nohdr (str_off h)) (-1)).
  destruct (parse_types_encoded ts hd strs b0 (S (List.length (enc_types ts))))
    as (b & Hrun & Ed & Eh & Es & Ef & Et); [exact Hsplit|exact Hok|by left| | |].
  { pose proof (length_enc_types ts). unfold BTF_MAX_NR_TYPES.
    change (nr_types b0) with 0. lia. }
  { pose proof (length_enc_types ts). lia. }
  exists b. split; [|split; [|split]].
  - unfold btf__new. rewrite Hh. cbn [mbind option_bind]. unfold btf_parse_str_sec, h.
    cbn [str_len str_off]. fold h. assert (strs <> []) by (by intros ->).
    assert (0 < List.length strs)%nat by (destruct strs; [done|cbn; lia]).
    rewrite (proj2 (Z.eqb_neq _ 0)), (proj2 (Z.ltb_ge _ _)) by (unfold BTF_MAX_STR_OFFSET; lia).
    cbn [orb]. change (Z.of_nat (List.length (enc_types ts))) with (str_off h).
    rewrite Hso. pose proof (Hstr _ _ Hfirst) as Hf. rewrite Nat.add_0_r in Hf. rewrite Hf.
    cbn [mbind option_bind Z.eqb negb]. pose proof (Hstr _ _ Hlast) as Hl.
    rewrite Nat2Z.id. replace (24 + List.length (enc_types ts) + (List.length strs - 1))%nat
      with (24 + List.length (enc_types ts) + List.length strs - 1)%nat in Hl by lia.
    rewrite Hl. cbn [mbind option_bind Z.eqb negb]. unfold btf_parse_type_sec. cbn [hdr].
    rewrite <- Hso. fold b0. rewrite Hto, Hso, <- Hrun, Hhd. f_equal. lia.
  - rewrite (nr_types_app b0 b _ Et), length_offsets. done.
  - intros i t Hi. cbn in Et. rewrite Hhd in Et.
    assert (i < List.length ts)%nat as Hlt by (by eapply lookup_lt_Some).
    destruct (lookup_lt_is_Some_2 (offsets (List.length hd) ts) i) as [off Hoff];
      [by rewrite length_offsets|].
    exists off. assert (placed (data b) off t) as Hp.
    { rewrite Ed. cbn. rewrite Hsplit. by eapply offsets_placed. }
    pose proof (Forall_lookup_1 _ _ _ _ Hok Hi) as Ht. split; [|split].
    + unfold btf__type_by_id. rewrite (nr_types_app b0 b _ Et), length_offsets.
      change (nr_types b0) with 0.
      rewrite (proj2 (Z.ltb_ge _ _)) by lia. rewrite (proj2 (Z.eqb_neq _ _)) by lia.
      rewrite Et. replace (Z.to_nat (Z.of_nat i + 1 - 1)) with i by lia.
      rewrite Hhd in Hoff. by rewrite Hoff.
    + by apply placed_type.
    + intros j w Hj. replace (off + 12 + 4 * j)%nat with (off + 4 * (3 + j))%nat by lia.
      by apply (placed_words _ _ t).
  - intros o Ho. unfold name_at, btf__name_by_offset. rewrite Eh. cbn [hdr b0].
    change (str_len h) with (Z.of_nat (List.length strs)). rewrite (proj2 (Z.ltb_lt _ _)) by lia.
    rewrite Es, Ed. cbn [strings data b0]. rewrite Hso, Hsplit, <- drop_drop, app_assoc.
    rewrite drop_app_length'; [|rewrite List.length_app; lia].
    destruct (cstring _); done.
Qed.
End Encode.

(** ** Reading within the bytes *)

Section Defined.
Context `{HostOrder}.
Implicit Types (d : bytes) (b : btf).

Lemma read32_in d off : (off + 4 <= List.length d)%nat -> is_Some (read32 d off).
Proof. intros. unfold read32. rewrite read_bytes_Some by done. by eexists. Qed.

Lemma read_type_in d off : (off + 12 <= List.length d)%nat -> is_Some (read_type d off).
Proof.
  intros. unfold read_type. destruct (read32_in d off) as [nm ->]; [lia|].
  destruct (read32_in d (off + 4)) as [i ->]; [lia|].
  destruct (read32_in d (off + 8)) as [s ->]; [lia|]. by eexists.
Qed.

Lemma parse_types_defined fuel b next fin :
  capacity b -> (fin + 11 <= List.length (data b))%nat -> (fin - next < fuel)%nat ->
  is_Some (parse_types fuel b next fin).
Proof.
  revert b next. induction fuel as [|fuel IH]; intros b next Hc Hlen Hfuel; [lia|].
  cbn [parse_types]. destruct (Nat.leb_spec fin next) as [|Hlt]; [by eexists|].
  destruct (read_type_in (data b) next) as [t ->]; [lia|]. cbn [mbind option_bind].
  destruct (Z.ltb_spec (btf_type_size t) 0); [by eexists|].
  pose proof (add_type_spec b next Hc) as Hadd.
  destruct (btf_add_type b next) as [[err|b1]|]; [by eexists| |done].
  destruct Hadd as [(Ed & _) Hc1]. apply IH; [done|by rewrite Ed|].
  destruct (type_size_bounds t); lia.
Qed.

(** Parsing any bytes stays inside them, provided that the strings do and take at
    least 11 bytes: the header does not say so and nothing tests it. *)
Theorem btf_new_defined d :
  Forall byte_ok d ->
  (forall h, btf_parse_hdr d = Some (inr h) ->
     sizeof_btf_header + str_off h + str_len h <= Z.of_nat (List.length d) /\ 11 <= str_len h) ->
  is_Some (btf__new d).
Proof.
  intros Hok Hstr. unfold btf__new.
  assert (is_Some (btf_parse_hdr d)) as [r Hr].
  { unfold btf_parse_hdr. destruct (Z.ltb_spec (Z.of_nat (List.length d)) sizeof_btf_header); [by eexists|].
    unfold sizeof_btf_header in *.
    assert (is_Some (read_hdr d)) as [h ->].
    { unfold read_hdr, read16, read8. rewrite !read_bytes_Some by lia.
      destruct (read32_in d 4) as [? ->]; [lia|]. destruct (read32_in d 8) as [? ->]; [lia|].
      destruct (read32_in d 12) as [? ->]; [lia|]. destruct (read32_in d 16) as [? ->]; [lia|].
      destruct (read32_in d 20) as [? ->]; [lia|]. by eexists. }
    cbn [mbind option_bind]. repeat case_match; by eexists. }
  rewrite Hr. cbn [mbind option_bind]. destruct r as [err|h]; [by eexists|].
  destruct (Hstr h Hr) as [Hin Hlen]. destruct (parse_hdr_spec d h Hr) as (_ & Hrd & _ & Hoff).
  apply read_hdr_bounds in Hrd as (Ht & Hs & Hl); [|done]. unfold sizeof_btf_header in Hin.
  assert (is_Some (btf_parse_str_sec d h)) as [r Hr2].
  { unfold btf_parse_str_sec, nohdr, sizeof_btf_header. destruct (_ || _); [by eexists|].
    destruct (lookup_lt_is_Some_2 d (Z.to_nat (24 + str_off h))) as [x ->]; [lia|].
    cbn [mbind option_bind]. destruct (negb _); [by eexists|].
    destruct (lookup_lt_is_Some_2 d (Z.to_nat (24 + str_off h) + Z.to_nat (str_len h) - 1))
      as [y ->]; [lia|].
    cbn [mbind option_bind]. destruct (negb _); by eexists. }
  rewrite Hr2. cbn [mbind option_bind]. destruct r as [err|start]; [by eexists|].
  apply parse_types_defined; [by left| |lia]. cbn [data hdr]. unfold nohdr, sizeof_btf_header. lia.
Qed.
End Defined.

(** ** Sizes *)

Section Sizes.
Context `{HostOrder}.
Context (b : btf) (Hbytes : Forall byte_ok (data b)).

(** The type with identifier [id]: arrays of dimensions [dims], outermost first, of
    elements of [size] bytes, through [n] links. *)
Inductive sized : Z -> list Z -> Z -> nat -> Prop :=
| sized_base id r t :
    btf__type_by_id b id = Some r -> deref b r = Some t -> has_size (btf_kind t) = true ->
    sized id [] (size_type t) 1
| sized_ptr id r t :
    btf__type_by_id b id = Some r -> deref b r = Some t -> btf_kind t = BTF_KIND_PTR ->
    sized id [] sizeof_ptr 1
| sized_alias id r t dims size n :
    btf__type_by_id b id = Some r -> deref b r = Some t -> is_alias (btf_kind t) = true ->
    sized (size_type t) dims size n -> sized id dims size (S n)
| sized_array id off t a dims size n :
    btf__type_by_id b id = Some (At off) -> deref b (At off) = Some t ->
    btf_kind t = BTF_KIND_ARRAY -> btf_array_at b off = Some a ->
    sized (a_type a) dims size n -> sized id (a_nelems a :: dims) size (S n).

(** The products the loop computes, from [nelems] on. *)
Fixpoint products (nelems : Z) (dims : list Z) : list Z :=
  match dims with [] => [] | n :: dims => nelems * n :: products (nelems * n) dims end.

Definition product (dims : list Z) : Z := foldr Z.mul 1 dims.

Lemma guard_spec nelems n :
  0 <= nelems -> negb (nelems =? 0) && (UINT32_MAX / nelems <? n) = (UINT32_MAX <? nelems * n).
Proof.
  intros Hn. unfold UINT32_MAX. destruct (Z.eqb_spec nelems 0) as [->|Hne]; [done|]. cbn [negb andb].
  destruct (Z.ltb_spec (2 ^ 32 - 1) (nelems * n)) as [Hlt|Hle].
  - apply Z.ltb_lt. apply Z.div_lt_upper_bound; lia.
  - apply Z.ltb_ge. apply Z.div_le_lower_bound; lia.
Qed.

Lemma kind_void t : btf_type_is_void Void t = true.
Proof. unfold btf_type_is_void. by rewrite bool_decide_eq_true_2. Qed.

(** What the kinds exclude. *)
Lemma not_void id r t :
  btf__type_by_id b id = Some r -> deref b r = Some t -> btf_kind t <> 0 ->
  btf_kind t <> BTF_KIND_FWD -> btf_type_is_void r t = false.
Proof.
  intros _ Ht H0 Hf. unfold btf_type_is_void, btf_is_fwd, is_kind.
  apply orb_false_iff. split; [|by apply Z.eqb_neq]. apply bool_decide_eq_false_2. intros ->.
  cbn in Ht. injection Ht as <-. by apply H0.
Qed.

Lemma deref_bounds r t : deref b r = Some t -> 0 <= size_type t < 2 ^ 32.
Proof.
  destruct r as [|off]; cbn; [by intros [= <-]|]. unfold read_type.
  intros (? & _ & Hr)%bind_Some. apply bind_Some in Hr as (? & _ & Hr).
  apply bind_Some in Hr as (s & Hs & [= <-]). by apply read32_bounds in Hs.
Qed.

Lemma btf_array_bounds off a : btf_array_at b off = Some a -> 0 <= a_nelems a < 2 ^ 32.
Proof.
  unfold btf_array_at. intros (? & _ & Hr)%bind_Some. apply bind_Some in Hr as (? & _ & Hr).
  apply bind_Some in Hr as (s & Hs & [= <-]). by apply read32_bounds in Hs.
Qed.

Lemma sized_nonneg id dims size n :
  sized id dims size n -> 0 <= size < 2 ^ 32 /\ Forall (fun x => 0 <= x) dims.
Proof.
  induction 1 as [id r t _ Ht _|id r t _ _ _|id r t dims size n _ _ _ _ IH|
    id off t a dims size n _ _ _ Ha _ IH]; [|done|done|].
  - by apply deref_bounds in Ht.
  - destruct IH. split; [done|]. constructor; [|done]. apply btf_array_bounds in Ha. lia.
Qed.

Ltac kinds := unfold has_size, is_alias, BTF_KIND_INT, BTF_KIND_STRUCT, BTF_KIND_UNION, BTF_KIND_ENUM,
  BTF_KIND_DATASEC, BTF_KIND_PTR, BTF_KIND_ARRAY, BTF_KIND_FWD, BTF_KIND_TYPEDEF, BTF_KIND_VOLATILE,
  BTF_KIND_CONST, BTF_KIND_RESTRICT, BTF_KIND_VAR in *; lia.

Lemma resolve_loop_sized id dims size n :
  sized id dims size n -> forall depth nelems, (n <= depth)%nat -> 0 <= nelems ->
  resolve_size_loop depth b (btf__type_by_id b id) nelems =
    if forallb (fun p => p <=? UINT32_MAX) (products nelems dims)
    then Ok (size, nelems * product dims) else Err E2BIG.
Proof.
  induction 1 as [id r t Hid Ht Hk|id r t Hid Ht Hk|id r t dims size n Hid Ht Hk Hs IH|
    id off t a dims size n Hid Ht Hk Ha Hs IH]; intros [|depth] nelems Hd Hn; try lia;
    rewrite Hid; cbn [resolve_size_loop products forallb product foldr]; rewrite Ht;
    cbn [mbind option_bind].
  - rewrite (not_void _ _ _ Hid Ht), Hk by kinds. by rewrite Z.mul_1_r.
  - rewrite (not_void _ _ _ Hid Ht) by kinds.
    replace (has_size (btf_kind t)) with false by (symmetry; kinds).
    rewrite Hk, Z.eqb_refl. by rewrite Z.mul_1_r.
  - rewrite (not_void _ _ _ Hid Ht) by kinds.
    replace (has_size (btf_kind t)) with false by (symmetry; kinds).
    replace (btf_kind t =? BTF_KIND_PTR) with false by (symmetry; kinds).
    rewrite Hk. apply IH; lia.
  - rewrite (not_void _ _ _ Hid Ht) by kinds.
    replace (has_size (btf_kind t)) with false by (symmetry; kinds).
    replace (btf_kind t =? BTF_KIND_PTR) with false by (symmetry; kinds).
    replace (is_alias (btf_kind t)) with false by (symmetry; kinds).
    rewrite Hk, Z.eqb_refl, Ha. cbn [mbind option_bind]. rewrite guard_spec by done.
    pose proof (btf_array_bounds _ _ Ha). rewrite Z.ltb_antisym.
    destruct (nelems * a_nelems a <=? UINT32_MAX); cbn [negb andb]; [|done].
    rewrite IH by lia. by rewrite Z.mul_assoc.
Qed.

(** C20. The size of a type of at most 32 links: the product of its dimensions and the
    size of an element, or -E2BIG when that, or the product of its outer dimensions,
    does not fit 32 bits. *)
Theorem resolve_size_spec id dims size n :
  sized id dims size n -> (n <= MAX_RESOLVE_DEPTH)%nat ->
  btf__resolve_size b id =
    Some (if forallb (fun p => p <=? UINT32_MAX) (products 1 dims ++ [product dims * size])
          then product dims * size else - E2BIG).
Proof.
  intros Hs Hn. unfold btf__resolve_size. rewrite (resolve_loop_sized _ _ _ _ Hs) by done.
  rewrite forallb_app, Z.mul_1_l. cbn [forallb]. rewrite andb_true_r.
  destruct (forallb _ (products 1 dims)); cbn [andb]; [|done]. cbn [mbind option_bind].
  destruct (sized_nonneg _ _ _ _ Hs) as [Hsz Hd].
  assert (0 <= product dims) as Hp.
  { unfold product. clear -Hd. induction Hd; cbn; lia. }
  rewrite (proj2 (Z.ltb_ge _ _)) by lia. rewrite guard_spec, Z.ltb_antisym by done.
  by destruct (_ <=? _).
Qed.

Lemma resolve_loop_sound depth id nelems size total :
  resolve_size_loop depth b (btf__type_by_id b id) nelems = Ok (size, total) -> 0 <= size ->
  exists dims n, sized id dims size n /\ (n <= depth)%nat /\ total = nelems * product dims.
Proof.
  revert id nelems. induction depth as [|depth IH]; intros id nelems; cbn [resolve_size_loop];
    [by intros [= <- _]|].
  destruct (btf__type_by_id b id) as [r|] eqn:Hid; [|by intros [= <- _]].
  intros (t & Ht & Hrun)%bind_Some Hsz.
  destruct (btf_type_is_void r t); [by injection Hrun as <- _|].
  destruct (has_size (btf_kind t)) eqn:Hk.
  { injection Hrun as <- <-. exists [], 1%nat. split; [by eapply sized_base|]. split; cbn; lia. }
  destruct (Z.eqb_spec (btf_kind t) BTF_KIND_PTR) as [Hp|_].
  { injection Hrun as <- <-. exists [], 1%nat. split; [by eapply sized_ptr|]. split; cbn; lia. }
  destruct (is_alias (btf_kind t)) eqn:Ha.
  { apply IH in Hrun as (dims & n & Hs & Hn & ->); [|done]. exists dims, (S n).
    split; [by eapply sized_alias|]. split; lia. }
  destruct (Z.eqb_spec (btf_kind t) BTF_KIND_ARRAY) as [Hk'|]; [|done].
  apply bind_Some in Hrun as (a & Ha' & Hrun). destruct r as [|off]; [done|].
  destruct (_ && _); [done|]. apply IH in Hrun as (dims & n & Hs & Hn & ->); [|done].
  exists (a_nelems a :: dims), (S n). split; [by eapply sized_array|].
  split; [lia|]. unfold product. cbn [foldr]. by rewrite Z.mul_assoc.
Qed.

(** A size that is answered is the size of the type; a chain of references that is
    too long, that is circular or that ends in no sized type is refused. *)
Theorem resolve_size_sound id v :
  btf__resolve_size b id = Some v -> 0 <= v ->
  exists dims size n, sized id dims size n /\ (n <= MAX_RESOLVE_DEPTH)%nat /\
    v = product dims * size /\ v <= UINT32_MAX.
Proof.
  unfold btf__resolve_size. intros (r & Hrun & Hv)%bind_Some Hpos.
  destruct r as [err|[size total]].
  { injection Hv as ->. exfalso. revert Hpos. clear -Hrun.
    assert (forall depth r nelems err, resolve_size_loop depth b r nelems = Some (inl err) -> err < 0)
      as Hneg; [|apply Hneg in Hrun; lia].
    induction depth as [|depth IH]; intros r nelems e; cbn [resolve_size_loop]; [done|].
    destruct r as [r|]; [|done]. intros (t & _ & Hr)%bind_Some.
    do 3 (case_match; [done|]). case_match; [by eapply IH|]. case_match; [|by injection Hr as <-].
    apply bind_Some in Hr as (a & _ & Hr). case_match; [by injection Hr as <-|by eapply IH]. }
  destruct (Z.ltb_spec size 0); [injection Hv as <-; unfold EINVAL in *; lia|].
  apply resolve_loop_sound in Hrun as (dims & n & Hs & Hn & ->); [|done].
  rewrite Z.mul_1_l in Hv. destruct (sized_nonneg _ _ _ _ Hs) as [Hsz Hd].
  assert (0 <= product dims) as Hp by (unfold product; clear -Hd; induction Hd; cbn; lia).
  rewrite guard_spec in Hv by done. destruct (Z.ltb_spec UINT32_MAX (product dims * size)).
  { injection Hv as <-. unfold E2BIG in *. lia. }
  injection Hv as <-. by exists dims, size, n.
Qed.
End Sizes.

(** ** Names and aliases *)

Section Queries.
Context `{HostOrder}.
Implicit Types (b : btf).

(** Type [id] is reached from another through [n] modifiers, typedefs and variables,
    and is none. *)
Inductive resolves b : Z -> Z -> nat -> Prop :=
| resolves_here id r t :
    btf__type_by_id b id = Some r -> deref b r = Some t -> btf_type_is_void r t = false ->
    is_alias (btf_kind t) = false -> resolves b id id 0
| resolves_alias id r t id' n :
    btf__type_by_id b id = Some r -> deref b r = Some t -> is_alias (btf_kind t) = true ->
    resolves b (size_type t) id' n -> resolves b id id' (S n).

Lemma alias_test t : btf_is_mod t || btf_is_typedef t || btf_is_var t = is_alias (btf_kind t).
Proof.
  unfold btf_is_mod, btf_is_typedef, btf_is_var, is_kind, is_alias, BTF_KIND_VOLATILE,
    BTF_KIND_CONST, BTF_KIND_RESTRICT, BTF_KIND_TYPEDEF, BTF_KIND_VAR. lia.
Qed.

Lemma alias_not_void b id r t :
  btf__type_by_id b id = Some r -> deref b r = Some t -> is_alias (btf_kind t) = true ->
  btf_type_is_void r t = false.
Proof.
  intros Hid Ht Ha. eapply not_void; [done..| |]; intros E; rewrite E in Ha; done.
Qed.

(** [btf__resolve_type] answers the type at the end of the aliases exactly when fewer
    than 32 lead there. *)
Theorem resolve_type_spec b id v :
  v <> - EINVAL ->
  btf__resolve_type b id = Some v <->
  exists id' n, resolves b id id' n /\ (n < MAX_RESOLVE_DEPTH)%nat /\ v = i32 id'.
Proof.
  intros Hv. unfold btf__resolve_type. generalize MAX_RESOLVE_DEPTH. intros depth. split.
  - revert id. induction depth as [|depth IH]; intros id; cbn [resolve_type_loop];
      [intros [= E]; by destruct Hv|].
    destruct (btf__type_by_id b id) as [r|] eqn:Hid; [|intros [= E]; by destruct Hv].
    intros (t & Ht & Hrun)%bind_Some.
    destruct (btf_type_is_void r t) eqn:Hvoid; [injection Hrun as E; by destruct Hv|].
    rewrite alias_test in Hrun. destruct (is_alias (btf_kind t)) eqn:Ha.
    + apply IH in Hrun as (id' & n & Hr & Hn & ->). exists id', (S n).
      split; [by eapply resolves_alias|]. split; [lia|done].
    + injection Hrun as <-. exists id, 0%nat. split; [by eapply resolves_here|]. split; [lia|done].
  - intros (id' & n & Hr & Hn & ->). clear Hv. revert depth Hn.
    induction Hr as [id r t Hid Ht Hvoid Ha|id r t id' n Hid Ht Ha _ IH]; intros [|depth] Hn; try lia;
      cbn [resolve_type_loop]; rewrite Hid, Ht; cbn [mbind option_bind].
    + by rewrite Hvoid, alias_test, Ha.
    + rewrite (alias_not_void b id r t Hid Ht Ha), alias_test, Ha. apply IH. lia.
Qed.

(** The type at [off] has the name. *)
Definition named b (off : nat) (nm : string) : Prop :=
  exists t, read_type (data b) off = Some t /\ name_at b (name_off t) = Some (Some nm).

Lemma find_name_spec b offs i nm v :
  0 < i -> find_name b offs i nm = Some v ->
  v = - ENOENT /\ (forall off, off ∈ offs -> ~ named b off nm) \/
  exists k off, offs !! k = Some off /\ v = i + Z.of_nat k /\ named b off nm /\
    forall j off', (j < k)%nat -> offs !! j = Some off' -> ~ named b off' nm.
Proof.
  revert i. induction offs as [|off offs IH]; intros i Hi; cbn [find_name].
  { intros [= <-]. left. split; [done|]. by intros off ?%elem_of_nil. }
  intros (t & Ht & (nm' & Hnm & Hrun)%bind_Some)%bind_Some.
  case_bool_decide as E.
  - injection Hrun as <-. right. exists 0%nat, off. split; [done|]. split; [lia|]. subst nm'.
    split; [by exists t|]. intros; lia.
  - assert (~ named b off nm) as Hoff.
    { intros (t' & Ht' & Hnm'). rewrite Ht in Ht'. injection Ht' as <-. congruence. }
    apply IH in Hrun as [[-> Hno]|(k & off' & Hk & -> & Hn & Hbefore)]; [| |lia].
    + left. split; [done|]. by intros off' [->|?]%elem_of_cons; [|apply Hno].
    + right. exists (S k), off'. split; [done|]. split; [lia|]. split; [done|].
      intros [|j] off'' Hj; cbn; [by intros [= <-]|]. apply Hbefore. lia.
Qed.

(** [btf__find_by_name] answers the first type of the name, or -ENOENT. *)
Theorem find_by_name_first b nm v :
  nm <> "void"%string -> btf__find_by_name b nm = Some v ->
  v = - ENOENT /\ (forall off, off ∈ types b -> ~ named b off nm) \/
  exists off, 0 < v /\ btf__type_by_id b v = Some (At off) /\ named b off nm /\
    forall id off', 0 < id < v -> btf__type_by_id b id = Some (At off') -> ~ named b off' nm.
Proof.
  intros Hv%String.eqb_neq. unfold btf__find_by_name. rewrite Hv.
  intros [?|(k & off & Hk & -> & Hn & Hbefore)]%find_name_spec; [by left| |lia]. right.
  assert (Z.of_nat k < nr_types b) as Hlt.
  { unfold nr_types. apply lookup_lt_Some in Hk. lia. }
  exists off. split; [lia|]. split; [|split; [done|]].
  - unfold btf__type_by_id. rewrite (proj2 (Z.ltb_ge _ _)) by lia.
    rewrite (proj2 (Z.eqb_neq _ _)) by lia. replace (Z.to_nat (1 + Z.of_nat k - 1)) with k by lia.
    by rewrite Hk.
  - intros id off' Hid. unfold btf__type_by_id. rewrite (proj2 (Z.ltb_ge _ _)) by lia.
    rewrite (proj2 (Z.eqb_neq _ _)) by lia. intros (o & Ho & [= <-])%fmap_Some.
    apply (Hbefore (Z.to_nat (id - 1))); [lia|done].
Qed.
End Queries.
