(* ===== verification/BtfExt.v ===== *)
(** * The .BTF.ext section

    Models the second part of [libbpf/src/btf.c]: parsing the section of the
    information on functions, lines and field relocations, and appending the records
    of a section of the object to those of a program. *)

From S2P Require Import Prelude Packet Btf.
From Stdlib Require Import Ascii String.

Local Open Scope Z_scope.

#[local] Abbreviation bytes := (list Z).
#[local] Abbreviation Err e := (Some (inl (- e))).
#[local] Abbreviation Ok a := (Some (inr a)).

(** ** Data *)

(** [struct btf_ext_info]: [info] is an offset in the data; zeros when not set up. *)
Record btf_ext_info := BtfExtInfo { ei_info : nat; ei_rec_size : Z; ei_len : Z }.
Definition no_ext_info : btf_ext_info := BtfExtInfo 0 0 0.

Record btf_ext := BtfExt {
  x_data : bytes;
  func_info : btf_ext_info;
  line_info : btf_ext_info;
  field_reloc_info : btf_ext_info;
}.

(** Sizes of [struct btf_ext_info_sec] and of the smallest records. *)
Definition sec_hdrlen : Z := 8.
Definition sizeof_func_info_min : Z := 8.
Definition sizeof_line_info_min : Z := 16.
Definition sizeof_field_reloc : Z := 16.
(** [offsetofend] of [hdr_len], [line_info_len] and [field_reloc_len]. *)
Definition end_hdr_len : Z := 8.
Definition end_line_info_len : Z := 24.
Definition end_field_reloc_len : Z := 32.

Section Ext.
Context `{HostOrder}.

(** ** Parsing *)

(** The loop over the sections of records. *)
Fixpoint check_records (fuel : nat) (d : bytes) (sinfo : nat) (info_left record_size : Z)
    : option (Z + unit) :=
  match fuel with
  | O => None
  | S fuel =>
      if info_left =? 0 then Ok tt else
      if info_left <? sec_hdrlen then Err EINVAL else
      num_records ← read32 d (sinfo + 4);
      if num_records =? 0 then Err EINVAL else
      let total_record_size := u64 (sec_hdrlen + num_records * record_size) in
      if info_left <? total_record_size then Err EINVAL else
      check_records fuel d (sinfo + Z.to_nat total_record_size)
        (u32 (info_left - total_record_size)) record_size
  end.

Definition btf_ext_setup_info (d : bytes) (hdr_len off len min_rec_size : Z)
    : option (Z + btf_ext_info) :=
  if len =? 0 then Ok no_ext_info else
  if negb (Z.land off 3 =? 0) then Err EINVAL else
  let info := Z.to_nat (hdr_len + off) in
  if Z.of_nat (List.length d) <? hdr_len + off + len then Err EINVAL else
  if len <? 4 then Err EINVAL else
  record_size ← read32 d info;
  if (record_size <? min_rec_size) || negb (Z.land record_size 3 =? 0) then Err EINVAL else
  if len - 4 =? 0 then Err EINVAL else
  r ← check_records (S (Z.to_nat len)) d (info + 4) (len - 4) record_size;
  match r with
  | inl err => Some (inl err)
  | inr _ => Ok (BtfExtInfo (info + 4) record_size (len - 4))
  end.

(** 0, or the error, and [hdr_len]. *)
Definition btf_ext_parse_hdr (d : bytes) : option (Z + Z) :=
  let data_size := Z.of_nat (List.length d) in
  if data_size <? end_hdr_len then Err EINVAL else
  hdr_len ← read32 d 4;
  if data_size <? hdr_len then Err EINVAL else
  magic ← read16 d 0;
  if negb (magic =? BTF_MAGIC) then Err EINVAL else
  version ← read8 d 2;
  if negb (version =? BTF_VERSION) then Err ENOTSUP else
  flags ← read8 d 3;
  if negb (flags =? 0) then Err ENOTSUP else
  if data_size =? hdr_len then Err EINVAL else
  Ok hdr_len.

(** The three sections of information, at their places in the header. *)
Definition btf_ext_setup (d : bytes) (hdr_len : Z) (field : nat) (min_rec_size : Z)
    : option (Z + btf_ext_info) :=
  off ← read32 d field; len ← read32 d (field + 4);
  btf_ext_setup_info d hdr_len off len min_rec_size.
Definition btf_ext_setup_func_info (d : bytes) (hdr_len : Z) :=
  btf_ext_setup d hdr_len 8 sizeof_func_info_min.
Definition btf_ext_setup_line_info (d : bytes) (hdr_len : Z) :=
  btf_ext_setup d hdr_len 16 sizeof_line_info_min.
Definition btf_ext_setup_field_reloc (d : bytes) (hdr_len : Z) :=
  btf_ext_setup d hdr_len 24 sizeof_field_reloc.

Definition btf_ext__new (d : bytes) : option (Z + btf_ext) :=
  r ← btf_ext_parse_hdr d;
  match r with
  | inl err => Some (inl err)
  | inr hdr_len =>
      if hdr_len <? end_line_info_len
      then Ok (BtfExt d no_ext_info no_ext_info no_ext_info) else
      r ← btf_ext_setup_func_info d hdr_len;
      match r with
      | inl err => Some (inl err)
      | inr f =>
          r ← btf_ext_setup_line_info d hdr_len;
          match r with
          | inl err => Some (inl err)
          | inr l =>
              if hdr_len <? end_field_reloc_len then Ok (BtfExt d f l no_ext_info) else
              r ← btf_ext_setup_field_reloc d hdr_len;
              match r with
              | inl err => Some (inl err)
              | inr c => Ok (BtfExt d f l c)
              end
          end
      end
  end.

(** ** Records of a program *)

(** The loop that turns the offsets of instructions from bytes to numbers and moves
    them by [insns_cnt]: [n] records from [at] on. *)
Fixpoint adjust_offsets (n : nat) (data : bytes) (at_ : nat) (record_size insns_cnt : Z)
    : option bytes :=
  match n with
  | O => Some data
  | S n =>
      insn_off ← read32 data at_;
      data ← write32 data at_ (u32 (insn_off / 8 + insns_cnt));
      adjust_offsets n data (at_ + Z.to_nat record_size) record_size insns_cnt
  end.

(** The records already there, NULL for none, and how many they are.  A buffer of
    another size would have bytes nobody wrote, or lose some, and one whose size wraps
    around is too small: [None]. *)
Definition append_records (d : bytes) (sinfo : nat) (num_info record_size insns_cnt : Z)
    (info : option bytes) (cnt : Z) : option (bytes * Z) :=
  let records_len := u32 (num_info * record_size) in
  let existing_len := u32 (cnt * record_size) in
  let old := default [] info in
  if negb (Z.of_nat (List.length old) =? existing_len) then None else
  if 2 ^ 32 <=? existing_len + records_len then None else
  records ← read_bytes d (sinfo + 8) (Z.to_nat records_len);
  data ← adjust_offsets (Z.to_nat num_info) (old ++ records) (Z.to_nat existing_len) record_size
    insns_cnt;
  Some (data, u32 (cnt + num_info)).

(** The loop of [btf_ext_reloc_info]: 0 with the new records, or -ENOENT.  A section
    whose name is outside the strings is compared with NULL: [None]. *)
Fixpoint reloc_info_loop (fuel : nat) (b : btf) (d : bytes) (sinfo : nat)
    (remain_len record_size : Z) (sec_name : string) (insns_cnt : Z) (info : option bytes) (cnt : Z)
    : option (Z * option bytes * Z) :=
  match fuel with
  | O => None
  | S fuel =>
      if remain_len <=? 0 then Some (- ENOENT, info, cnt) else
      name_off ← read32 d sinfo;
      num_info ← read32 d (sinfo + 4);
      let records_len := u32 (num_info * record_size) in
      nm ← name_at b name_off;
      info_sec_name ← nm;
      if negb (info_sec_name =? sec_name)%string then
        reloc_info_loop fuel b d (sinfo + 8 + Z.to_nat records_len)
          (u64 (remain_len - u32 (sec_hdrlen + records_len))) record_size sec_name insns_cnt info cnt
      else
        '(data, cnt) ← append_records d sinfo num_info record_size insns_cnt info cnt;
        Some (0, Some data, cnt)
  end.

Definition btf_ext_reloc_info (b : btf) (x : btf_ext) (ext_info : btf_ext_info)
    (sec_name : string) (insns_cnt : Z) (info : option bytes) (cnt : Z)
    : option (Z * option bytes * Z) :=
  reloc_info_loop (S (Z.to_nat (ei_len ext_info))) b (x_data x) (ei_info ext_info) (ei_len ext_info)
    (ei_rec_size ext_info) sec_name insns_cnt info cnt.

Definition btf_ext__reloc_func_info (b : btf) (x : btf_ext) :=
  btf_ext_reloc_info b x (func_info x).
Definition btf_ext__reloc_line_info (b : btf) (x : btf_ext) :=
  btf_ext_reloc_info b x (line_info x).
Definition btf_ext__func_info_rec_size (x : btf_ext) : Z := ei_rec_size (func_info x).
Definition btf_ext__line_info_rec_size (x : btf_ext) : Z := ei_rec_size (line_info x).
End Ext.

(** ** What the section holds *)

Section Contents.
Context `{HostOrder}.
Implicit Types (d : bytes) (secs : list (Z * bytes)).

(** From [at_] on, in [left] bytes: sections, each the offset of its name and its
    records of [rec] bytes. *)
Inductive sections d (rec : Z) : nat -> Z -> list (Z * bytes) -> Prop :=
| sections_nil at_ : sections d rec at_ 0 []
| sections_cons at_ left name_off n recs secs :
    read32 d at_ = Some name_off -> read32 d (at_ + 4) = Some n -> 0 < n ->
    read_bytes d (at_ + 8) (Z.to_nat (n * rec)) = Some recs -> 8 + n * rec <= left ->
    sections d rec (at_ + 8 + Z.to_nat (n * rec)) (left - (8 + n * rec)) secs ->
    sections d rec at_ left ((name_off, recs) :: secs).

(** Information that is empty or is sections of records of at least [min] bytes,
    multiples of 4. *)
Definition info_ok d (min : Z) (i : btf_ext_info) : Prop :=
  i = no_ext_info \/
  exists secs, secs <> [] /\ min <= ei_rec_size i < 2 ^ 32 /\ Z.land (ei_rec_size i) 3 = 0 /\
    0 < ei_len i < 2 ^ 32 /\ sections d (ei_rec_size i) (ei_info i) (ei_len i) secs.

Definition ext_ok (x : btf_ext) : Prop :=
  info_ok (x_data x) sizeof_func_info_min (func_info x) /\
  info_ok (x_data x) sizeof_line_info_min (line_info x) /\
  info_ok (x_data x) sizeof_field_reloc (field_reloc_info x).

Lemma check_records_spec fuel d sinfo left rec :
  Forall byte_ok d -> 0 < rec < 2 ^ 32 -> 0 <= left < 2 ^ 32 ->
  Z.of_nat sinfo + left <= Z.of_nat (List.length d) -> left < Z.of_nat fuel ->
  exists r, check_records fuel d sinfo left rec = Some r /\
    (r = inr tt -> exists secs, sections d rec sinfo left secs /\ (secs = [] -> left = 0)).
Proof.
  intros Hd Hrec. revert sinfo left. induction fuel as [|fuel IH]; intros sinfo left Hl Hin Hfuel;
    [lia|]. cbn [check_records].
  destruct (Z.eqb_spec left 0) as [->|Hl0].
  { eexists. split; [done|]. intros _. exists []. split; [constructor|done]. }
  unfold sec_hdrlen. destruct (Z.ltb_spec left 8); [by eexists|].
  destruct (read32_in d sinfo) as [nm Hnm]; [lia|].
  destruct (read32_in d (sinfo + 4)) as [n Hn]; [lia|]. rewrite Hn. cbn [mbind option_bind].
  pose proof (read32_bounds _ _ _ Hd Hn).
  destruct (Z.eqb_spec n 0); [by eexists|].
  assert (0 <= n * rec < 2 ^ 64 - 2 ^ 32) by nia.
  rewrite u64_id by lia. destruct (Z.ltb_spec left (8 + n * rec)); [by eexists|].
  rewrite (Prelude.u32_id (left - _)) by lia.
  destruct (IH (sinfo + Z.to_nat (8 + n * rec))%nat (left - (8 + n * rec))) as (r & Hrun & Hr);
    [lia..|].
  exists r. split; [done|]. intros ->. destruct (Hr eq_refl) as (secs & Hsecs & _).
  exists ((nm, take (Z.to_nat (n * rec)) (drop (sinfo + 8) d)) :: secs). split; [|done].
  apply sections_cons with (n := n); [done|done|lia|by apply read_bytes_Some; lia|lia|].
  by replace (sinfo + 8 + Z.to_nat (n * rec))%nat with (sinfo + Z.to_nat (8 + n * rec))%nat by lia.
Qed.

Lemma setup_info_spec d hdr_len off len min :
  Forall byte_ok d -> 0 <= hdr_len < 2 ^ 32 -> 0 <= off < 2 ^ 32 -> 0 <= len < 2 ^ 32 -> 8 <= min ->
  exists r, btf_ext_setup_info d hdr_len off len min = Some r /\
    forall i, r = inr i -> info_ok d min i.
Proof.
  intros Hd Hh Ho Hl Hmin. unfold btf_ext_setup_info.
  destruct (Z.eqb_spec len 0); [eexists; split; [done|]; intros i [= <-]; by left|].
  destruct (negb _); [by eexists|].
  destruct (Z.ltb_spec (Z.of_nat (List.length d)) (hdr_len + off + len)); [by eexists|].
  destruct (Z.ltb_spec len 4); [by eexists|].
  destruct (read32_in d (Z.to_nat (hdr_len + off))) as [rec Hrec]; [lia|]. rewrite Hrec.
  cbn [mbind option_bind]. pose proof (read32_bounds _ _ _ Hd Hrec).
  destruct (Z.ltb_spec rec min); [by eexists|]. cbn [orb].
  destruct (Z.eqb_spec (Z.land rec 3) 0); [|by eexists]. cbn [negb].
  destruct (Z.eqb_spec (len - 4) 0); [by eexists|].
  destruct (check_records_spec (S (Z.to_nat len)) d (Z.to_nat (hdr_len + off) + 4) (len - 4) rec)
    as (r & -> & Hr); [done|lia..|]. cbn [mbind option_bind].
  destruct r as [err|[]]; [by eexists|]. eexists. split; [done|]. intros i [= <-]. right.
  destruct (Hr eq_refl) as (secs & Hsecs & Hne). exists secs. cbn [ei_rec_size ei_len ei_info].
  split; [intros E; specialize (Hne E); lia|]. by repeat split; try lia.
Qed.

Lemma setup_spec d hdr_len field min :
  Forall byte_ok d -> 0 <= hdr_len < 2 ^ 32 -> (field + 8 <= List.length d)%nat -> 8 <= min ->
  exists r, btf_ext_setup d hdr_len field min = Some r /\ forall i, r = inr i -> info_ok d min i.
Proof.
  intros Hd Hh Hin Hmin. unfold btf_ext_setup.
  destruct (read32_in d field) as [off Hoff]; [lia|].
  destruct (read32_in d (field + 4)) as [len Hlen]; [lia|]. rewrite Hoff, Hlen.
  apply read32_bounds in Hoff, Hlen; [|done..]. by apply setup_info_spec.
Qed.

(** C21. Parsing any bytes as a [.BTF.ext] section stays inside them, ends, and what it
    accepts is well-formed: each kind of information is sections of whole records. *)
Theorem ext_new_safe d :
  Forall byte_ok d ->
  exists r, btf_ext__new d = Some r /\ forall x, r = inr x -> ext_ok x /\ x_data x = d.
Proof.
  intros Hd. unfold btf_ext__new.
  assert (exists r, btf_ext_parse_hdr d = Some r /\
    forall l, r = inr l -> 0 <= l < 2 ^ 32 /\ l < Z.of_nat (List.length d)) as (r & -> & Hhdr).
  { unfold btf_ext_parse_hdr, end_hdr_len.
    destruct (Z.ltb_spec (Z.of_nat (List.length d)) 8); [by eexists|].
    destruct (read32_in d 4) as [l Hl]; [lia|]. rewrite Hl. cbn [mbind option_bind].
    pose proof (read32_bounds _ _ _ Hd Hl).
    destruct (Z.ltb_spec (Z.of_nat (List.length d)) l); [by eexists|].
    unfold read16, read8. rewrite !read_bytes_Some by lia. cbn [fmap option_fmap option_map mbind option_bind].
    do 3 (destruct (negb _); [by eexists|]).
    destruct (Z.eqb_spec (Z.of_nat (List.length d)) l); [by eexists|].
    eexists. split; [done|]. intros l' [= <-]. lia. }
  cbn [mbind option_bind]. destruct r as [err|l]; [by eexists|].
  destruct (Hhdr l eq_refl) as [Hl Hlen].
  assert (forall min, info_ok d min no_ext_info) as Hno by (by left).
  unfold end_line_info_len, end_field_reloc_len.
  destruct (Z.ltb_spec l 24); [eexists; split; [done|]; intros x [= <-]; done|].
  unfold btf_ext_setup_func_info, btf_ext_setup_line_info, btf_ext_setup_field_reloc.
  destruct (setup_spec d l 8 sizeof_func_info_min) as (r & -> & Hf); [done|lia..|unfold sizeof_func_info_min; lia|].
  cbn [mbind option_bind]. destruct r as [err|f]; [by eexists|].
  destruct (setup_spec d l 16 sizeof_line_info_min) as (r & -> & Hi); [done|lia..|unfold sizeof_line_info_min; lia|].
  cbn [mbind option_bind]. destruct r as [err|i]; [by eexists|].
  destruct (Z.ltb_spec l 32).
  { eexists. split; [done|]. intros x [= <-]. unfold ext_ok. cbn. auto. }
  destruct (setup_spec d l 24 sizeof_field_reloc) as (r & -> & Hc); [done|lia..|unfold sizeof_field_reloc; lia|].
  cbn [mbind option_bind]. destruct r as [err|c]; [by eexists|].
  eexists. split; [done|]. intros x [= <-]. unfold ext_ok. cbn. auto.
Qed.
End Contents.

(** ** The records a program gets *)

Section Records.
Context `{HostOrder}.
Implicit Types (b : btf) (d : bytes) (secs : list (Z * bytes)).

(** [n] records of [rec] bytes with their first word, the offset of an instruction,
    as a number of instructions from [insns_cnt] on. *)
Fixpoint adjusted (n rec : nat) (insns_cnt : Z) (recs : bytes) : bytes :=
  match n with
  | O => []
  | S n =>
      let r := take rec recs in
      store 4 (u32 (load (take 4 r) / 8 + insns_cnt)) ++ drop 4 r ++
      adjusted n rec insns_cnt (drop rec recs)
  end.

Lemma adjusted_step n rec insns_cnt w r rest :
  List.length w = 4%nat -> (4 + List.length r)%nat = rec ->
  adjusted (S n) rec insns_cnt (w ++ r ++ rest) =
    store 4 (u32 (load w / 8 + insns_cnt)) ++ r ++ adjusted n rec insns_cnt rest.
Proof.
  intros Hw Hr. cbn [adjusted].
  assert (take rec (w ++ r ++ rest) = w ++ r) as ->.
  { rewrite app_assoc. apply take_app_length'. rewrite List.length_app. lia. }
  rewrite take_app_length', drop_app_length' by done. do 3 f_equal.
  rewrite app_assoc. apply drop_app_length'. rewrite List.length_app. lia.
Qed.

Lemma adjust_offsets_spec n rec insns_cnt pre recs :
  List.length recs = (n * Z.to_nat rec)%nat -> 4 <= rec ->
  adjust_offsets n (pre ++ recs) (List.length pre) rec insns_cnt =
    Some (pre ++ adjusted n (Z.to_nat rec) insns_cnt recs).
Proof.
  revert pre recs. induction n as [|n IH]; intros pre recs Hlen Hrec.
  { cbn in Hlen. by destruct recs. }
  assert (exists w r rest, recs = w ++ r ++ rest /\ List.length w = 4%nat /\
    (4 + List.length r)%nat = Z.to_nat rec) as (w & r & rest & -> & Hw & Hr).
  { exists (take 4 recs), (take (Z.to_nat rec - 4) (drop 4 recs)),
      (drop (Z.to_nat rec - 4) (drop 4 recs)).
    rewrite !take_drop. split; [done|]. rewrite !length_take, length_drop. lia. }
  rewrite !List.length_app in Hlen. rewrite adjusted_step by done. cbn [adjust_offsets].
  unfold read32. rewrite (read_bytes_app pre w) by done.
  cbn [fmap option_fmap option_map mbind option_bind].
  unfold write32. rewrite (write_bytes_app pre w); [|done|by rewrite length_store, Hw].
  cbn [mbind option_bind]. set (v := u32 (load w / 8 + insns_cnt)).
  replace (pre ++ store 4 v ++ r ++ rest) with ((pre ++ store 4 v ++ r) ++ rest)
    by (by rewrite <- !app_assoc).
  replace (List.length pre + Z.to_nat rec)%nat with (List.length (pre ++ store 4 v ++ r))
    by (rewrite !List.length_app, length_store; lia).
  rewrite IH; [by rewrite <- !app_assoc|lia|done].
Qed.

Definition has_sec_name b (nm : string) (s : Z * bytes) : bool :=
  bool_decide (name_at b (fst s) = Some (Some nm)).

(** Every section has a name. *)
Definition sec_named b (s : Z * bytes) : Prop := exists nm, name_at b (fst s) = Some (Some nm).

Lemma append_records_spec d at_ n rec recs insns_cnt info cnt :
  read_bytes d (at_ + 8) (Z.to_nat (n * rec)) = Some recs -> 0 < n -> 8 <= rec -> 0 <= cnt ->
  Z.of_nat (List.length (default [] info)) = cnt * rec -> (cnt + n) * rec < 2 ^ 32 ->
  append_records d at_ n rec insns_cnt info cnt =
    Some (default [] info ++ adjusted (Z.to_nat n) (Z.to_nat rec) insns_cnt recs, cnt + n).
Proof.
  intros Hrecs Hn Hrec Hcnt Hold Hfit. unfold append_records.
  assert (0 <= n * rec < 2 ^ 32) by nia. assert (0 <= cnt * rec < 2 ^ 32) by nia.
  assert (cnt + n < 2 ^ 32) by nia.
  rewrite !(Prelude.u32_id (_ * _)), Hold, Z.eqb_refl by done. cbn [negb].
  rewrite (proj2 (Z.leb_gt _ _)) by lia. rewrite Hrecs. cbn [mbind option_bind].
  replace (Z.to_nat (cnt * rec)) with (List.length (default [] info)) by lia.
  rewrite adjust_offsets_spec; [|apply read_bytes_length in Hrecs; rewrite Hrecs; lia|lia].
  cbn [mbind option_bind]. by rewrite Prelude.u32_id by lia.
Qed.

Lemma reloc_loop_spec b d rec at_ left secs :
  sections d rec at_ left secs -> 8 <= rec -> 0 <= left < 2 ^ 32 -> Forall (sec_named b) secs ->
  forall fuel nm insns_cnt info cnt,
  0 <= cnt -> Z.of_nat (List.length (default [] info)) = cnt * rec -> cnt * rec + left < 2 ^ 32 ->
  left < Z.of_nat fuel ->
  reloc_info_loop fuel b d at_ left rec nm insns_cnt info cnt =
    Some (match List.find (has_sec_name b nm) secs with
          | Some s =>
              let n := Z.of_nat (List.length (snd s)) / rec in
              (0, Some (default [] info ++ adjusted (Z.to_nat n) (Z.to_nat rec) insns_cnt (snd s)),
               cnt + n)
          | None => (- ENOENT, info, cnt)
          end).
Proof.
  intros Hsecs Hrec. induction Hsecs as [at_|at_ left name_off n recs secs Hoff Hn Hpos Hrecs Hle Hsecs IH];
    intros Hleft Hnames fuel nm insns_cnt info cnt Hcnt Hold Hfit Hfuel; destruct fuel as [|fuel]; try lia;
    cbn [reloc_info_loop]; [done|].
  assert (0 <= n * rec) by nia.
  rewrite (proj2 (Z.leb_gt _ _)), Hoff, Hn by lia. cbn [mbind option_bind].
  apply Forall_cons_iff in Hnames as [[nm' Hnm'] Hnames]. cbn [fst] in Hnm'. rewrite Hnm'.
  cbn [mbind option_bind List.find has_sec_name fst]. unfold has_sec_name at 1. cbn [fst].
  rewrite Hnm', Prelude.u32_id by lia. destruct (String.eqb_spec nm' nm) as [->|Hne]; cbn [negb].
  - rewrite bool_decide_eq_true_2 by done.
    rewrite (append_records_spec _ _ _ _ recs) by (done || nia). cbn [mbind option_bind snd].
    apply read_bytes_length in Hrecs. rewrite Hrecs, Z2Nat.id, Z.div_mul by lia. done.
  - rewrite bool_decide_eq_false_2 by congruence. unfold sec_hdrlen.
    rewrite (Prelude.u32_id (8 + _)), Prelude.u64_id by lia. apply IH; (done || lia).
Qed.

(** On information [btf_ext__new] accepted, whose sections have names, relocating
    appends to the records of a program those of the first section of the name asked
    for, their offsets turned into instruction numbers from [insns_cnt] on, or
    answers -ENOENT and changes nothing. *)
Theorem ext_reloc_info_spec b x i secs nm insns_cnt info cnt :
  sections (x_data x) (ei_rec_size i) (ei_info i) (ei_len i) secs -> 8 <= ei_rec_size i ->
  Forall (sec_named b) secs -> 0 <= ei_len i < 2 ^ 32 -> 0 <= cnt ->
  Z.of_nat (List.length (default [] info)) = cnt * ei_rec_size i ->
  cnt * ei_rec_size i + ei_len i < 2 ^ 32 ->
  btf_ext_reloc_info b x i nm insns_cnt info cnt =
    Some (match List.find (has_sec_name b nm) secs with
          | Some s =>
              let n := Z.of_nat (List.length (snd s)) / ei_rec_size i in
              (0, Some (default [] info ++
                        adjusted (Z.to_nat n) (Z.to_nat (ei_rec_size i)) insns_cnt (snd s)), cnt + n)
          | None => (- ENOENT, info, cnt)
          end).
Proof.
  intros Hsecs Hrec Hnames Hlen Hcnt Hold Hfit. unfold btf_ext_reloc_info.
  apply reloc_loop_spec; (done || lia).
Qed.
End Records.
