(* ===== verification/BpfOpen.v ===== *)
(** * Opening an object file

    Models the first half of [libbpf/src/libbpf.c]: probing the kernel, reading the
    sections of the ELF file into an object (license, version, programs, maps,
    relocations), naming and typing the programs, [__bpf_object__open].  libelf is
    the value of type [Elf] it makes of a file; the BTF reader and the maps it
    defines are the class [BtfReader].  Memory allocation is taken to succeed, so an
    object that is not opened is only its error number. *)

From S2P Require Import Prelude Packet BpfMap BpfCalls BpfObject BpfLoad SectionNames.
From Stdlib Require Import Ascii String.
From stdpp Require Import sorting.

Local Open Scope Z_scope.

#[local] Abbreviation bytes := (list Z).
#[local] Abbreviation Err e := (Some (inl (- e))).
#[local] Abbreviation Ok a := (Some (inr a)).
#[local] Notation "x <-- m ; k" := (rbind m (fun x => k))
  (at level 100, m at next level, k at level 200, right associativity).

Definition EIO : Z := 5.
Definition LIBBPF_ERRNO__LIBELF : Z := 4000.
Definition LIBBPF_ERRNO__ENDIAN : Z := 4003.
Definition ET_REL : Z := 1.
Definition EM_BPF : Z := 247.
Definition ELFDATA2LSB : Z := 1.
Definition ELFDATA2MSB : Z := 2.
Definition SHT_PROGBITS : Z := 1.
Definition SHT_SYMTAB : Z := 2.
Definition SHT_NOBITS : Z := 8.
Definition SHF_EXECINSTR : Z := 4.
Definition STT_OBJECT : Z := 1.
Definition BPF_MAP_TYPE_ARRAY : Z := 2.
Definition BPF_F_RDONLY_PROG : Z := 128.
Definition sizeof_sym : Z := 24.
Definition sizeof_map_def : Z := 20.
Definition BPF_INSN_SZ : Z := 8.

(** ** What libelf delivers *)

(** [Elf_Data] of a section, with the symbols or the relocations [gelf_getsym] and
    [gelf_getrel] read in it. *)
Record Elf_Data := ElfData {
  d_buf : bytes; d_size : Z; d_syms : list GElf_Sym; d_rels : list GElf_Rel;
}.

Record GElf_Shdr := Shdr {
  h_type : Z; h_flags : Z; h_link : Z; h_info : Z; h_size : Z; h_entsize : Z;
}.

(** A section: each part may fail to be read. *)
Record Elf_Scn := ElfScn {
  scn_shdr : option GElf_Shdr; scn_name : option string; scn_data : option Elf_Data;
}.

Record GElf_Ehdr := Ehdr { e_type : Z; e_machine : Z; ei_data : Z }.

(** [scns] are the sections from index 1 on. *)
Record Elf := ElfFile {
  ehdr : option GElf_Ehdr;
  shstr_readable : bool;
  scns : list Elf_Scn;
  elf_strptr : Z -> Z -> option string;
}.

Definition elf_getscn (e : Elf) (idx : Z) : option Elf_Scn :=
  if idx <? 1 then None else scns e !! Z.to_nat (idx - 1).

(** ** The object while it is read *)

(** The fields of [struct bpf_object] the sections fill; [op_license] is the array
    of 64 bytes. *)
Record opening := Opening {
  op_programs : list full_program;
  op_license : bytes;
  op_kver : Z;
  op_ef : efile;
  op_symbols : option Elf_Data;
  op_strtabidx : Z;
  op_data : option Elf_Data;
  op_rodata : option Elf_Data;
  op_bss : option Elf_Data;
  op_btf : option Elf_Data;
  op_btf_ext : option Elf_Data;
  op_reloc : list rel_section;
}.

(** As [bpf_object__new] leaves it; [text_shndx] is the only index that is 0. *)
Definition new_opening (kver : Z) : opening :=
  Opening [] (replicate 64 0) kver (Efile (-1) (-1) 0 (-1) (-1) (-1)) None 0 None None None
    None None [].

Definition set_op_license o l := Opening (op_programs o) l (op_kver o) (op_ef o) (op_symbols o)
  (op_strtabidx o) (op_data o) (op_rodata o) (op_bss o) (op_btf o) (op_btf_ext o) (op_reloc o).
Definition set_op_kver o v := Opening (op_programs o) (op_license o) v (op_ef o) (op_symbols o)
  (op_strtabidx o) (op_data o) (op_rodata o) (op_bss o) (op_btf o) (op_btf_ext o) (op_reloc o).
Definition set_op_ef o e := Opening (op_programs o) (op_license o) (op_kver o) e (op_symbols o)
  (op_strtabidx o) (op_data o) (op_rodata o) (op_bss o) (op_btf o) (op_btf_ext o) (op_reloc o).
Definition set_op_programs o ps := Opening ps (op_license o) (op_kver o) (op_ef o) (op_symbols o)
  (op_strtabidx o) (op_data o) (op_rodata o) (op_bss o) (op_btf o) (op_btf_ext o) (op_reloc o).
Definition set_op_symbols o d link := Opening (op_programs o) (op_license o) (op_kver o) (op_ef o)
  (Some d) link (op_data o) (op_rodata o) (op_bss o) (op_btf o) (op_btf_ext o) (op_reloc o).
Definition set_op_sections o data rodata bss := Opening (op_programs o) (op_license o) (op_kver o)
  (op_ef o) (op_symbols o) (op_strtabidx o) data rodata bss (op_btf o) (op_btf_ext o) (op_reloc o).
Definition set_op_btf o b x := Opening (op_programs o) (op_license o) (op_kver o) (op_ef o)
  (op_symbols o) (op_strtabidx o) (op_data o) (op_rodata o) (op_bss o) b x (op_reloc o).
Definition set_op_reloc o r := Opening (op_programs o) (op_license o) (op_kver o) (op_ef o)
  (op_symbols o) (op_strtabidx o) (op_data o) (op_rodata o) (op_bss o) (op_btf o) (op_btf_ext o) r.

Definition set_maps_shndx (e : efile) i := Efile i (btf_maps_shndx e) (ef_text_shndx e)
  (data_shndx e) (rodata_shndx e) (bss_shndx e).
Definition set_btf_maps_shndx (e : efile) i := Efile (maps_shndx e) i (ef_text_shndx e)
  (data_shndx e) (rodata_shndx e) (bss_shndx e).
Definition set_text_shndx (e : efile) i := Efile (maps_shndx e) (btf_maps_shndx e) i
  (data_shndx e) (rodata_shndx e) (bss_shndx e).
Definition set_data_shndx (e : efile) i := Efile (maps_shndx e) (btf_maps_shndx e)
  (ef_text_shndx e) i (rodata_shndx e) (bss_shndx e).
Definition set_rodata_shndx (e : efile) i := Efile (maps_shndx e) (btf_maps_shndx e)
  (ef_text_shndx e) (data_shndx e) i (bss_shndx e).
Definition set_bss_shndx (e : efile) i := Efile (maps_shndx e) (btf_maps_shndx e)
  (ef_text_shndx e) (data_shndx e) (rodata_shndx e) i.

(** ** Programs *)

(** [__bpf_program__pin_name]: the slashes of the section's name replaced. *)
Fixpoint __bpf_program__pin_name (s : string) : string :=
  match s with
  | EmptyString => EmptyString
  | String c s => String (if ascii_dec c "/"%char then "_"%char else c) (__bpf_program__pin_name s)
  end.

Definition i16 (z : Z) : Z := (z + 2 ^ 15) mod 2 ^ 16 - 2 ^ 15.

Section Instructions.
Context `{HostOrder}.

(** An instruction in memory: the two registers share a byte, the first field in
    its low half on a little-endian host, in its high half on the others. *)
Definition regs_byte (dst src : Z) : Z :=
  match host_order with LittleEndian => dst + 16 * src | BigEndian => src + 16 * dst end.

Definition encode_insn (i : bpf_insn) : bytes :=
  [code i; regs_byte (dst_reg i) (src_reg i)] ++ store 2 (u16 (off i)) ++ store 4 (u32 (imm i)).

Definition decode_insn (bs : bytes) : bpf_insn :=
  let regs := nth 1 bs 0 in
  let '(dst, src) := match host_order with
                     | LittleEndian => (regs mod 16, regs / 16)
                     | BigEndian => (regs / 16, regs mod 16)
                     end in
  BpfInsn (nth 0 bs 0) dst src (i16 (load (take 2 (drop 2 bs)))) (i32 (load (take 4 (drop 4 bs)))).

Fixpoint decode_insns (n : nat) (bs : bytes) : list bpf_insn :=
  match n with O => [] | S n => decode_insn bs :: decode_insns n (drop 8 bs) end.

Definition bpf_program__init (data : Elf_Data) (section_name : string) (idx : Z)
    : Z + full_program :=
  if (d_size data =? 0) || negb (d_size data mod BPF_INSN_SZ =? 0) then inl (- EINVAL) else
  inr (FullProgram (BpfProgram idx section_name 0 BPF_PROG_TYPE_UNSPEC 0 []) EmptyString
         (decode_insns (Z.to_nat (d_size data / BPF_INSN_SZ)) (d_buf data)) 0 None 0 None 0
         (ProgInfo None 0 0) (ProgInfo None 0 0) 0).

Definition bpf_object__add_program (o : opening) (data : Elf_Data) (section_name : string)
    (idx : Z) : Z + opening :=
  match bpf_program__init data section_name idx with
  | inl err => inl err
  | inr p => inr (set_op_programs o (op_programs o ++ [p]))
  end.

(** ** Sections *)

(** [memcpy(obj->license, data, min(size, sizeof(obj->license) - 1))]. *)
Definition bpf_object__init_license (o : opening) (data : Elf_Data) : opening :=
  let n := Nat.min (Z.to_nat (d_size data)) 63 in
  set_op_license o (take n (d_buf data) ++ drop n (op_license o)).

Definition bpf_object__init_kversion (o : opening) (data : Elf_Data) : Z + opening :=
  if negb (d_size data =? 4) then inl (- LIBBPF_ERRNO__FORMAT)
  else inr (set_op_kver o (load (take 4 (d_buf data)))).

Definition section_have_execinstr (e : Elf) (idx : Z) : bool :=
  match elf_getscn e idx ≫= scn_shdr with
  | Some sh => negb (Z.land (h_flags sh) SHF_EXECINSTR =? 0)
  | None => false
  end.

(** The body of the loop over the sections. *)
Definition collect_section (e : Elf) (o : opening) (idx : Z) (scn : Elf_Scn) : Z + opening :=
  match scn_shdr scn, scn_name scn, scn_data scn with
  | Some sh, Some name, Some data =>
      if (name =? "license")%string then inr (bpf_object__init_license o data) else
      if (name =? "version")%string then bpf_object__init_kversion o data else
      if (name =? "maps")%string then inr (set_op_ef o (set_maps_shndx (op_ef o) idx)) else
      if (name =? ".maps")%string then inr (set_op_ef o (set_btf_maps_shndx (op_ef o) idx)) else
      if (name =? ".BTF")%string then inr (set_op_btf o (Some data) (op_btf_ext o)) else
      if (name =? ".BTF.ext")%string then inr (set_op_btf o (op_btf o) (Some data)) else
      if h_type sh =? SHT_SYMTAB then
        match op_symbols o with
        | Some _ => inl (- LIBBPF_ERRNO__FORMAT)
        | None => inr (set_op_symbols o data (h_link sh))
        end
      else if (h_type sh =? SHT_PROGBITS) && (0 <? d_size data) then
        if negb (Z.land (h_flags sh) SHF_EXECINSTR =? 0) then
          let o := if (name =? ".text")%string then set_op_ef o (set_text_shndx (op_ef o) idx)
                   else o in
          bpf_object__add_program o data name idx
        else if (name =? ".data")%string then
          inr (set_op_ef (set_op_sections o (Some data) (op_rodata o) (op_bss o))
                 (set_data_shndx (op_ef o) idx))
        else if (name =? ".rodata")%string then
          inr (set_op_ef (set_op_sections o (op_data o) (Some data) (op_bss o))
                 (set_rodata_shndx (op_ef o) idx))
        else inr o
      else if h_type sh =? SHT_REL then
        if negb (section_have_execinstr e (h_info sh)) then inr o else
        inr (set_op_reloc o (op_reloc o ++
               [RelSection (h_type sh) (h_info sh) (h_size sh) (h_entsize sh) (d_rels data)]))
      else if (h_type sh =? SHT_NOBITS) && (name =? ".bss")%string then
        inr (set_op_ef (set_op_sections o (op_data o) (op_rodata o) (Some data))
               (set_bss_shndx (op_ef o) idx))
      else inr o
  | _, _, _ => inl (- LIBBPF_ERRNO__FORMAT)
  end.

Fixpoint collect_sections_from (e : Elf) (o : opening) (idx : Z) (ss : list Elf_Scn)
    : Z + opening :=
  match ss with
  | [] => inr o
  | scn :: ss =>
      match collect_section e o idx scn with
      | inl err => inl err
      | inr o => collect_sections_from e o (idx + 1) ss
      end
  end.

(** The first half of [bpf_object__elf_collect]: up to the index of the strings. *)
Definition collect_elf (e : Elf) (kver : Z) : Z + opening :=
  if negb (shstr_readable e) then inl (- LIBBPF_ERRNO__FORMAT) else
  match collect_sections_from e (new_opening kver) 1 (scns e) with
  | inl err => inl err
  | inr o =>
      if (op_strtabidx o =? 0) || (Z.of_nat (List.length (scns e)) <? op_strtabidx o)
      then inl (- LIBBPF_ERRNO__FORMAT) else inr o
  end.

(** ** Maps *)

(** A map [bpf_object__add_map] returns: zeros, the descriptors -1. *)
Definition blank_map : full_map :=
  FullMap (BpfMap_ (-1) EmptyString 0 (MapDef 0 0 0 0 0) None false false) 0 0 (-1) 0 0
    LIBBPF_MAP_UNSPEC.

(** The definition of a map copied over zeros. *)
Definition def_of_bytes (bs : bytes) : bpf_map_def :=
  let bs := bs ++ replicate (20 - List.length bs) 0 in
  let u i := load (take 4 (drop i bs)) in
  MapDef (u 0%nat) (u 4%nat) (u 8%nat) (u 12%nat) (u 16%nat).

(** The symbols of the section of maps, of those [gelf_getsym] reads. *)
Definition map_symbols (o : opening) (symbols : Elf_Data) : list GElf_Sym :=
  List.filter (fun sym => st_shndx sym =? maps_shndx (op_ef o))
    (take (Z.to_nat (d_size symbols / sizeof_sym)) (d_syms symbols)).

(** The map of a symbol; reading its definition outside the section is [None]. *)
Definition init_user_map (e : Elf) (o : opening) (strict : bool) (map_def_sz : Z)
    (data : Elf_Data) (sym : GElf_Sym) : option (Z + full_map) :=
  match elf_strptr e (op_strtabidx o) (st_name sym) with
  | None => Err LIBBPF_ERRNO__FORMAT
  | Some name =>
      if d_size data <? u64 (st_value sym + map_def_sz) then Err EINVAL else
      bs ← read_bytes (d_buf data) (Z.to_nat (st_value sym)) (Z.to_nat map_def_sz);
      if (sizeof_map_def <? map_def_sz) &&
         negb (forallb (Z.eqb 0) (drop (Z.to_nat sizeof_map_def) bs)) && strict
      then Err EINVAL else
      Ok (FullMap (BpfMap_ (-1) name 0 (def_of_bytes (take (Z.to_nat sizeof_map_def) bs))
                     None false false)
            (st_shndx sym) (st_value sym) (-1) 0 0 LIBBPF_MAP_UNSPEC)
  end.

Fixpoint init_user_maps_loop (e : Elf) (o : opening) (strict : bool) (map_def_sz : Z)
    (data : Elf_Data) (syms : list GElf_Sym) : option (Z + list full_map) :=
  match syms with
  | [] => Ok []
  | sym :: syms =>
      m <-- init_user_map e o strict map_def_sz data sym;
      ms <-- init_user_maps_loop e o strict map_def_sz data syms;
      Ok (m :: ms)
  end.

(** [bpf_object__init_user_maps]; the object has no map before. *)
Definition bpf_object__init_user_maps (e : Elf) (o : opening) (strict : bool)
    : option (Z + list full_map) :=
  if maps_shndx (op_ef o) <? 0 then Ok [] else
  match op_symbols o, elf_getscn e (maps_shndx (op_ef o)) ≫= scn_data with
  | Some symbols, Some data =>
      let syms := map_symbols o symbols in
      let nr_maps := Z.of_nat (List.length syms) in
      if (d_size data =? 0) || (nr_maps =? 0) || negb (d_size data mod nr_maps =? 0)
      then Err EINVAL else
      init_user_maps_loop e o strict (d_size data / nr_maps) data syms
  | _, _ => Err EINVAL
  end.

(** [snprintf(map_name, sizeof(map_name), "%.8s%.7s", ...)]. *)
Definition internal_map_name (obj_name : string) (t : libbpf_map_type) : string :=
  (substring 0 8 obj_name +:+ substring 0 7 (libbpf_type_to_btf_name t))%string.

Definition bpf_object__init_internal_map (obj_name : string) (t : libbpf_map_type) (sec : Z)
    (data : Elf_Data) : full_map :=
  FullMap (BpfMap_ (-1) (internal_map_name obj_name t) 0
             (MapDef BPF_MAP_TYPE_ARRAY 4 (u32 (d_size data)) 1
                (if bool_decide (t = LIBBPF_MAP_RODATA) then BPF_F_RDONLY_PROG else 0))
             None false false)
    sec 0 (-1) 0 0 t.

(** An index is set together with its data: [NULL->d_size] would be [None]. *)
Definition data_map (obj_name : string) (t : libbpf_map_type) (sec : Z) (data : option Elf_Data)
    : option (list full_map) :=
  if sec <? 0 then Some [] else
  d ← data; Some [bpf_object__init_internal_map obj_name t sec d].

Definition bpf_object__init_global_data_maps (obj_name : string) (global_data : bool)
    (o : opening) : option (list full_map) :=
  if negb global_data then Some [] else
  d ← data_map obj_name LIBBPF_MAP_DATA (data_shndx (op_ef o)) (op_data o);
  r ← data_map obj_name LIBBPF_MAP_RODATA (rodata_shndx (op_ef o)) (op_rodata o);
  b ← data_map obj_name LIBBPF_MAP_BSS (bss_shndx (op_ef o)) (op_bss o);
  Some (d ++ r ++ b).

(** The order of [qsort]: the section, then the offset, whose difference is taken
    in [size_t] and cut to an [int]. *)
Definition compare_bpf_map (a b : full_map) : Z :=
  if negb (sec_idx a =? sec_idx b) then sec_idx a - sec_idx b
  else i32 (sec_offset a - sec_offset b).

Definition map_le (a b : full_map) : Prop := compare_bpf_map a b <= 0.
#[export] Instance map_le_dec a b : Decision (map_le a b).
Proof. unfold map_le. apply _. Defined.
End Instructions.

(** ** Names of the programs *)

Definition is_prog_symbol (idx : Z) (sym : GElf_Sym) : bool :=
  (st_shndx sym =? idx) && (GELF_ST_BIND (st_info sym) =? STB_GLOBAL).

(** The first global symbol of the program's section. *)
Definition prog_name (e : Elf) (o : opening) (symbols : Elf_Data) (p : full_program)
    : Z + string :=
  let syms := take (Z.to_nat (d_size symbols / sizeof_sym)) (d_syms symbols) in
  match List.find (is_prog_symbol (prog_idx (pbase p))) syms with
  | Some sym =>
      match elf_strptr e (op_strtabidx o) (st_name sym) with
      | Some name => inr name
      | None => inl (- LIBBPF_ERRNO__LIBELF)
      end
  | None =>
      if prog_idx (pbase p) =? ef_text_shndx (op_ef o) then inr ".text"%string
      else inl (- EINVAL)
  end.

Definition set_name (p : full_program) (nm : string) : full_program :=
  FullProgram (pbase p) nm (insns p) (main_prog_cnt p) (relocs p) (log_level p)
    (preprocessor p) (attach_btf_id p) (func_info p) (line_info p) (prog_flags p).

(** Without a symbol table the loop dereferences NULL: [None]. *)
Fixpoint init_prog_names (e : Elf) (o : opening) (ps : list full_program)
    : option (Z + list full_program) :=
  match ps with
  | [] => Ok []
  | p :: ps =>
      symbols ← op_symbols o;
      nm <-- Some (prog_name e o symbols p);
      ps <-- init_prog_names e o ps;
      Ok (set_name p nm :: ps)
  end.

(** ** The BTF of the object *)

(** What opening calls of [btf.c], and the two passes over BTF types of [libbpf.c]:
    the maps of section [.maps], the rewriting for older kernels.  The outer option
    is [None] where the code reads outside the BTF. *)
Class BtfReader (B X W : Type) := {
  btf__new : Elf_Data -> option (Z + B);
  btf__finalize_data : Elf -> opening -> B -> option (Z * B);
  btf_ext__new : Elf_Data -> option (Z + X);
  btf_maps : Elf -> opening -> B -> bool -> option string -> option (Z + list full_map);
  sanitize_btf : bpf_capabilities -> B -> option B;
  btf__load : B -> W -> Z * B * W;
  btf__free : B -> W -> W;
}.

Section Open.
Context {B X W : Type} `{BtfReader B X W}.

Definition bpf_object__is_btf_mandatory (o : opening) : bool := 0 <=? btf_maps_shndx (op_ef o).

(** The BTF read and finalised: the error, or another error with what was read. *)
Definition load_btf_data (e : Elf) (o : opening) : option (Z + (Z * option B)) :=
  match op_btf o with
  | None => Some (inr (0, None))
  | Some data =>
      r ← btf__new data;
      match r with
      | inl err => Some (inl err)
      | inr b => '(err, b) ← btf__finalize_data e o b; Some (inr (err, Some b))
      end
  end.

(** The error and what the object gets; the kernel knows nothing of a BTF freed here. *)
Definition bpf_object__init_btf (e : Elf) (o : opening) : option (Z * option B * option X) :=
  let required := bpf_object__is_btf_mandatory o in
  let fail err := Some (if required then (if err =? 0 then - ENOENT else err) else 0, None, None) in
  loaded ← load_btf_data e o;
  match loaded with
  | inl err => fail err
  | inr (err, b) =>
      if negb (err =? 0) then fail err else
      x ← match op_btf_ext o, b with
          | Some data, Some _ =>
              r ← btf_ext__new data; Some (match r with inr x => Some x | inl _ => None end)
          | _, _ => Some None
          end;
      if required && bool_decide (b = None) then Some (- ENOENT, None, None) else Some (0, b, x)
  end.

Definition bpf_object__sanitize_and_load_btf (o : opening) (c : bpf_capabilities)
    (b : option B) (x : option X) (w : W) : option (Z * option B * option X * W) :=
  match b with
  | None => Some (0, None, x, w)
  | Some b =>
      b ← (if cap_btf_func c && cap_btf_datasec c then Some b else sanitize_btf c b);
      let x := if cap_btf_func c then x else None in
      let '(err, b, w) := btf__load b w in
      Some (if negb (err =? 0)
            then (if bpf_object__is_btf_mandatory o then err else 0, None, None, btf__free b w)
            else (0, Some b, x, w))
  end.

Context `{HostOrder}.

(** [bpf_object__init_maps], in its order, and the final [qsort]. *)
Definition bpf_object__init_maps (e : Elf) (o : opening) (obj_name : string)
    (c : bpf_capabilities) (b : option B) (relaxed_maps : bool) (pin_root : option string)
    : option (Z + list full_map) :=
  let strict := negb relaxed_maps in
  user <-- bpf_object__init_user_maps e o strict;
  from_btf <-- (if btf_maps_shndx (op_ef o) <? 0 then Ok [] else
                b ← b; btf_maps e o b strict pin_root);
  internal ← bpf_object__init_global_data_maps obj_name (cap_global_data c) o;
  Ok (merge_sort map_le (user ++ from_btf ++ internal)).

(** ** Probing the kernel *)

Context `{BpfSys W} `{BpfKern W} (agains : nat).

Definition MOV64_IMM (dst v : Z) : bpf_insn := BpfInsn 183 dst 0 0 v.
Definition EXIT_INSN : bpf_insn := BpfInsn 149 0 0 0 0.
(** [BPF_LD_MAP_VALUE] and [BPF_ST_MEM(BPF_DW, ...)]. *)
Definition LD_MAP_VALUE (dst fd o : Z) : list bpf_insn :=
  [BpfInsn LD_IMM_DW dst BPF_PSEUDO_MAP_VALUE 0 fd; BpfInsn 0 0 0 0 o].
Definition ST_MEM_DW (dst o v : Z) : bpf_insn := BpfInsn 122 dst 0 o v.

Definition probe_attr (nm : option string) (code : list bpf_insn) : bpf_load_program_attr :=
  LoadProgramAttr 1 0 nm code (Z.of_nat (List.length code)) "GPL" 0 0 0 0 [] 0 0 [] 0 0 0.

Definition no_caps : bpf_capabilities := Caps false false false false.

(** A descriptor that only says the kernel accepts something. *)
Definition close_if (fd : Z) (w : W) : bool * W :=
  if 0 <=? fd then let '(_, w) := sys_close fd w in (true, w) else (false, w).

Definition bpf_object__probe_name (w : W) : option (bool * W) :=
  let code := [MOV64_IMM 0 0; EXIT_INSN] in
  '(ret, _, w) ← bpf_load_program_xattr agains (probe_attr None code) None 0 w;
  if ret <? 0 then Some (false, w) else
  let '(_, w) := sys_close ret w in
  '(ret, _, w) ← bpf_load_program_xattr agains (probe_attr (Some "test"%string) code) None 0 w;
  Some (close_if ret w).

Definition bpf_object__probe_global_data (w : W) : option (bool * W) :=
  let '(map, w) :=
    bpf_create_map_xattr (CreateMapAttr None BPF_MAP_TYPE_ARRAY 0 4 32 1 0 0 0 0 0 0) w in
  if map <? 0 then Some (false, w) else
  let code := LD_MAP_VALUE 1 map 16 ++ [ST_MEM_DW 1 0 42; MOV64_IMM 0 0; EXIT_INSN] in
  '(ret, _, w) ← bpf_load_program_xattr agains (probe_attr None code) None 0 w;
  let '(ok, w) := close_if ret w in
  let '(_, w) := sys_close map w in
  Some (ok, w).

(** [BTF_INFO_ENC], [BTF_TYPE_INT_ENC] and the kinds of types the probes use. *)
Definition BTF_INFO_ENC (kind vlen : Z) : Z := Z.lor (Z.shiftl kind 24) (Z.land vlen 65535).
Definition BTF_TYPE_INT_ENC (nm encoding bits sz : Z) : list Z :=
  [nm; BTF_INFO_ENC 1 0; sz; Z.lor (Z.shiftl encoding 24) bits].
Definition BTF_KIND_FUNC : Z := 12.
Definition BTF_KIND_FUNC_PROTO : Z := 13.
Definition BTF_KIND_VAR : Z := 14.
Definition BTF_KIND_DATASEC : Z := 15.

(** The header of 24 bytes, the types, the strings. *)
Definition libbpf__load_raw_btf (types strs : bytes) (w : W) : Z * W :=
  let types_len := Z.of_nat (List.length types) in
  let str_len := Z.of_nat (List.length strs) in
  let hdr := store 2 60319 ++ [1; 0] ++ store 4 24 ++ store 4 0 ++ store 4 types_len ++
             store 4 types_len ++ store 4 str_len in
  let raw := hdr ++ types ++ strs in
  let '(fd, _, w) := bpf_load_btf raw (Z.of_nat (List.length raw)) None 0 false w in (fd, w).

Definition u32_bytes (l : list Z) : bytes := List.concat (List.map (store 4) l).

(** The bytes of a string with its final zero. *)
Definition c_bytes (s : string) : bytes :=
  List.map (fun c => Z.of_nat (nat_of_ascii c)) (list_ascii_of_string s) ++ [0].

Definition bpf_object__probe_btf_func (w : W) : bool * W :=
  let strs := 0 :: c_bytes "int" ++ c_bytes "x" ++ c_bytes "a" in
  let types := BTF_TYPE_INT_ENC 1 1 32 4 ++
               [0; BTF_INFO_ENC BTF_KIND_FUNC_PROTO 1; 0; 7; 1] ++
               [5; BTF_INFO_ENC BTF_KIND_FUNC 0; 2] in
  let '(fd, w) := libbpf__load_raw_btf (u32_bytes types) strs w in close_if fd w.

Definition bpf_object__probe_btf_datasec (w : W) : bool * W :=
  let strs := 0 :: c_bytes "x" ++ c_bytes ".data" in
  let types := BTF_TYPE_INT_ENC 0 1 32 4 ++
               [1; BTF_INFO_ENC BTF_KIND_VAR 0; 1; 0] ++
               [3; BTF_INFO_ENC BTF_KIND_DATASEC 1; 4; 2; 0; 4] in
  let '(fd, w) := libbpf__load_raw_btf (u32_bytes types) strs w in close_if fd w.

(** Every probe, each failure ignored. *)
Definition bpf_object__probe_caps (w : W) : option (bpf_capabilities * W) :=
  '(nm, w) ← bpf_object__probe_name w;
  '(data, w) ← bpf_object__probe_global_data w;
  let '(func, w) := bpf_object__probe_btf_func w in
  let '(datasec, w) := bpf_object__probe_btf_datasec w in
  Some (Caps nm data func datasec, w).
End Open.

(** ** Opening *)

(** libelf, the file, the kernel's release and its BTF. *)
Class ElfSys (W : Type) := {
  elf_version_ok : W -> bool;
  sys_open_file : string -> W -> Z * W;
  elf_begin : Z -> W -> option Elf;
  elf_memory : bytes -> option Elf;
  uname_release : W -> option (Z * Z * Z);
  kernel_btf : W -> option (string -> Z);
}.

(** A path, or a buffer with the name it goes by. *)
Inductive source := FromFile (path : string) | FromMem (buf : bytes) (label : string).

(** [struct bpf_object_open_opts]; [opts_valid] is [OPTS_VALID]. *)
Record open_opts := OpenOpts {
  opts_valid : bool; object_name : option string; relaxed_maps : bool;
  pin_root_path : option string; relaxed_core : bool;
}.

(** GNU [basename]: what follows the last slash. *)
Fixpoint basename_from (best s : string) : string :=
  match s with
  | EmptyString => best
  | String c s => if ascii_dec c "/"%char then basename_from s s else basename_from best s
  end.
Definition basename (s : string) : string := basename_from s s.

Fixpoint up_to_dot (s : string) : string :=
  match s with
  | EmptyString => EmptyString
  | String c s => if ascii_dec c "."%char then EmptyString else String c (up_to_dot s)
  end.

(** [obj->name] as [bpf_object__new] sets it. *)
Definition object_label (path : string) (nm : option string) : string :=
  match nm with
  | Some nm => substring 0 15 nm
  | None => up_to_dot (substring 0 15 (basename path))
  end.

(** The characters of an array up to its first zero. *)
Fixpoint c_string (bs : bytes) : string :=
  match bs with
  | [] => EmptyString
  | b :: bs => if b =? 0 then EmptyString else String (ascii_of_nat (Z.to_nat b)) (c_string bs)
  end.

Section OpenObject.
Context {B X W : Type} `{BtfReader B X W} `{BtfOps B X} `{HostOrder}.
Context `{BpfSys W} `{BpfKern W} `{ElfSys W} (agains : nat).

Definition get_kernel_version (w : W) : Z :=
  match uname_release w with
  | Some (major, minor, patch) => u32 (Z.shiftl major 16 + Z.shiftl minor 8 + patch)
  | None => 0
  end.

(** The error, or the descriptor of the file (-1 for a buffer) and what libelf read.
    [bpf_object__elf_finish] does nothing before there is an [Elf]. *)
Definition bpf_object__elf_finish (fd : Z) (w : W) : W := snd (zclose fd w).

Definition check_ehdr (h : GElf_Ehdr) : bool :=
  (e_type h =? ET_REL) && ((e_machine h =? 0) || (e_machine h =? EM_BPF)).

Definition bpf_object__elf_init (src : source) (w : W) : (Z + Z * Elf * GElf_Ehdr) * W :=
  let with_elf fd elf w :=
    match elf with
    | None => (inl (- LIBBPF_ERRNO__LIBELF), w)
    | Some e =>
        match ehdr e with
        | Some h => if check_ehdr h then (inr (fd, e, h), w)
                    else (inl (- LIBBPF_ERRNO__FORMAT), bpf_object__elf_finish fd w)
        | None => (inl (- LIBBPF_ERRNO__FORMAT), bpf_object__elf_finish fd w)
        end
    end in
  match src with
  | FromMem buf _ => with_elf (-1) (elf_memory buf) w
  | FromFile path =>
      let '(fd, w) := sys_open_file path w in
      if fd <? 0 then (inl fd, w) else with_elf fd (elf_begin fd w) w
  end.

Definition bpf_object__check_endianness (h : GElf_Ehdr) : Z :=
  let host := match host_order with LittleEndian => ELFDATA2LSB | BigEndian => ELFDATA2MSB end in
  if ei_data h =? host then 0 else - LIBBPF_ERRNO__ENDIAN.

(** The object of the sections read, its maps and its BTF.  The data of a section is
    copied when its map is made. *)
Definition assemble (o : opening) (ms : list full_map) (c : bpf_capabilities)
    (b : option B) (x : option X) : full_object B X :=
  let copy sec (d : option Elf_Data) :=
    if cap_global_data c && (0 <=? sec) then default [] (d_buf <$> d) else [] in
  FullObject B X (op_programs o) ms (c_string (op_license o)) (op_kver o)
    (copy (data_shndx (op_ef o)) (op_data o)) (copy (rodata_shndx (op_ef o)) (op_rodata o))
    false false (op_ef o) b (match b, x with Some b, Some x => Some (b, x) | _, _ => None end) c false.

Definition set_relaxed (o : full_object B X) (relaxed : bool) : full_object B X :=
  FullObject B X (fprograms o) (fmaps o) (license o) (kern_version o) (sec_data o) (sec_rodata o)
    (floaded o) (fhas_pseudo_calls o) (ef o) (btf o) (btf_ext o) (caps o) relaxed.

Definition free_btf (b : option B) (w : W) : W :=
  match b with Some b => btf__free b w | None => w end.

(** [bpf_object__elf_collect]: the error or the object with its symbols and its
    relocation sections.  On an error after the BTF was loaded it is freed. *)
Definition bpf_object__elf_collect (e : Elf) (obj_name : string) (kver : Z)
    (c : bpf_capabilities) (relaxed : bool) (pin_root : option string) (w : W)
    : option ((Z + full_object B X * list GElf_Sym * list rel_section) * W) :=
  match collect_elf e kver with
  | inl err => Some (inl err, w)
  | inr o =>
      '(err, b, x) ← bpf_object__init_btf e o;
      if negb (err =? 0) then Some (inl err, free_btf b w) else
      r ← bpf_object__init_maps e o obj_name c b relaxed pin_root;
      match r with
      | inl err => Some (inl err, free_btf b w)
      | inr ms =>
          '(err, b, x, w) ← bpf_object__sanitize_and_load_btf o c b x w;
          if negb (err =? 0) then Some (inl err, free_btf b w) else
          r ← init_prog_names e o (op_programs o);
          match r with
          | inl err => Some (inl err, free_btf b w)
          | inr ps =>
              let syms := match op_symbols o with Some d => d_syms d | None => [] end in
              Some (inr (assemble (set_op_programs o ps) ms c b x, syms, op_reloc o), w)
          end
      end
  end.

(** The loop that guesses the types; the storage of functions is skipped. *)
Fixpoint type_programs (o : full_object B X) (kbtf : option (string -> Z))
    (ps : list full_program) : Z + list full_program :=
  match ps with
  | [] => inr []
  | p :: ps =>
      let rest p := match type_programs o kbtf ps with inl e => inl e | inr ps => inr (p :: ps) end in
      if bpf_program__is_function_storage (pbase p) (erase o) then rest p else
      match libbpf_prog_type_by_name (Some (section_name (pbase p))) with
      | inl err => if err =? - ESRCH then rest p else inl err
      | inr (t, eat) =>
          let p := set_pbase p (bpf_program__set_expected_attach_type
                                  (bpf_program__set_type (pbase p) t) eat) in
          if t =? BPF_PROG_TYPE_TRACING then
            match libbpf_attach_btf_id_by_name kbtf (Some (section_name (pbase p))) with
            | inl err => inl err
            | inr id => rest (FullProgram (pbase p) (name p) (insns p) (main_prog_cnt p) (relocs p)
                                (log_level p) (preprocessor p) id (func_info p) (line_info p)
                                (prog_flags p))
            end
          else rest p
      end
  end.

(** What follows [bpf_object__elf_init]; [fd] is closed in every case, at [out] or
    before the programs are typed. *)
Definition open_elf (src_path : string) (opts : open_opts) (fd : Z) (e : Elf) (h : GElf_Ehdr)
    (kver : Z) (w : W) : option ((Z + full_object B X) * W) :=
  let err := bpf_object__check_endianness h in
  if negb (err =? 0) then Some (inl err, bpf_object__elf_finish fd w) else
  '(c, w) ← bpf_object__probe_caps agains w;
  '(r, w) ← bpf_object__elf_collect e (object_label src_path (object_name opts)) kver c
    (relaxed_maps opts) (pin_root_path opts) w;
  match r with
  | inl err => Some (inl err, bpf_object__elf_finish fd w)
  | inr (o, syms, relocs) =>
      r ← bpf_object__collect_reloc true o syms relocs;
      match r with
      | inl err => Some (inl err, bpf_object__elf_finish fd (free_btf (btf o) w))
      | inr o =>
          let w := bpf_object__elf_finish fd w in
          match type_programs o (kernel_btf w) (fprograms o) with
          | inl err => Some (inl err, free_btf (btf o) w)
          | inr ps => Some (inr (set_relaxed (set_fprograms o ps) (relaxed_core opts)), w)
          end
      end
  end.

Definition __bpf_object__open (src : source) (opts : open_opts) (w : W)
    : option ((Z + full_object B X) * W) :=
  if negb (elf_version_ok w) then Some (inl (- LIBBPF_ERRNO__LIBELF), w) else
  if negb (opts_valid opts) then Some (inl (- EINVAL), w) else
  let kver := get_kernel_version w in
  let '(r, w) := bpf_object__elf_init src w in
  match r with
  | inl err => Some (inl err, w)
  | inr (fd, e, h) =>
      open_elf (match src with FromFile path => path | FromMem _ label => label end)
        opts fd e h kver w
  end.

Definition default_opts (relaxed : bool) : open_opts := OpenOpts true None relaxed None false.

(** NULL and the errors of [__bpf_object__open] apart: [bpf_object__open_xattr]
    answers NULL without a file. *)
Definition bpf_object__open_xattr (file : option string) (flags : Z) (w : W)
    : option (option (Z + full_object B X) * W) :=
  match file with
  | None => Some (None, w)
  | Some path =>
      '(r, w) ← __bpf_object__open (FromFile path)
        (default_opts (negb (Z.land flags 1 =? 0))) w;
      Some (Some r, w)
  end.
Definition bpf_object__open (path : option string) (w : W)
    : option (option (Z + full_object B X) * W) := bpf_object__open_xattr path 0 w.

(** Without options the whole path is the name of the object. *)
Definition bpf_object__open_file (path : option string) (opts : option open_opts) (w : W)
    : option ((Z + full_object B X) * W) :=
  match path with
  | None => Some (inl (- EINVAL), w)
  | Some path =>
      __bpf_object__open (FromFile path) (default (OpenOpts true (Some path) false None false) opts) w
  end.

(** The buffer NULL or empty is []; [generated] is the name made of its address. *)
Definition bpf_object__open_mem (buf : bytes) (generated : string) (opts : open_opts) (w : W)
    : option ((Z + full_object B X) * W) :=
  match buf with
  | [] => Some (inl (- EINVAL), w)
  | _ => let nm := default generated (object_name opts) in
         __bpf_object__open (FromMem buf nm)
           (OpenOpts (opts_valid opts) (Some nm) (relaxed_maps opts) (pin_root_path opts)
              (relaxed_core opts)) w
  end.

Definition bpf_object__open_buffer (buf : bytes) (generated : string) (nm : option string) (w : W)
    : option (option (Z + full_object B X) * W) :=
  match buf with
  | [] => Some (None, w)
  | _ => '(r, w) ← bpf_object__open_mem buf generated (OpenOpts true nm true None false) w;
         Some (Some r, w)
  end.
End OpenObject.

(** ** Instructions in memory *)

Definition insn_ok (i : bpf_insn) : Prop :=
  0 <= code i < 2 ^ 8 /\ 0 <= dst_reg i < 16 /\ 0 <= src_reg i < 16 /\
  - 2 ^ 15 <= off i < 2 ^ 15 /\ - 2 ^ 31 <= imm i < 2 ^ 31.

Lemma i16_u16 z : - 2 ^ 15 <= z < 2 ^ 15 -> i16 (u16 z) = z.
Proof. intros. unfold i16, u16. rewrite Zplus_mod_idemp_l, Z.mod_small; lia. Qed.
Lemma i32_u32 z : - 2 ^ 31 <= z < 2 ^ 31 -> i32 (u32 z) = z.
Proof. intros. unfold i32, u32. rewrite Zplus_mod_idemp_l, Z.mod_small; lia. Qed.

Section InsnRoundTrip.
Context `{HostOrder}.

Lemma length_encode i : List.length (encode_insn i) = 8%nat.
Proof. unfold encode_insn. by rewrite !List.length_app, !length_store. Qed.

Lemma decode_encode i rest : insn_ok i -> decode_insn (encode_insn i ++ rest) = i.
Proof.
  intros (Hc & Hd & Hs & Ho & Hi). unfold encode_insn, decode_insn.
  pose proof (length_store 2 (u16 (off i))) as L2. pose proof (length_store 4 (u32 (imm i))) as L4.
  pose proof (load_store 2 (u16 (off i))) as V2. pose proof (load_store 4 (u32 (imm i))) as V4.
  destruct (store 2 (u16 (off i))) as [|a [|b [|]]]; try done.
  destruct (store 4 (u32 (imm i))) as [|c [|d [|e [|f [|]]]]]; try done.
  cbn [app nth take drop]. change (take 0 rest) with (@nil Z).
  assert (i16 (load [a; b]) = off i) as ->.
  { rewrite V2. rewrite Z.mod_small by (unfold u16; apply Z.mod_pos_bound; lia). by apply i16_u16. }
  assert (i32 (load [c; d; e; f]) = imm i) as ->.
  { rewrite V4. rewrite Z.mod_small by (unfold u32; apply Z.mod_pos_bound; lia). by apply i32_u32. }
  unfold regs_byte. destruct host_order.
  - rewrite (Z.add_comm (dst_reg i)), (Z.mul_comm 16), Z.div_add_l, Z.div_small, Z.add_0_r by lia.
    rewrite Z.add_comm, Z_mod_plus_full, Z.mod_small by lia. by destruct i.
  - rewrite (Z.add_comm (src_reg i)), (Z.mul_comm 16), Z.div_add_l, Z.div_small, Z.add_0_r by lia.
    rewrite Z.add_comm, Z_mod_plus_full, Z.mod_small by lia. by destruct i.
Qed.

(** A section of instructions is read back as the instructions it encodes. *)
Theorem decode_insns_encode (l : list bpf_insn) nm idx syms rels :
  Forall insn_ok l -> l <> [] ->
  let buf := List.concat (encode_insn <$> l) in
  exists p, bpf_program__init (ElfData buf (Z.of_nat (List.length buf)) syms rels) nm idx = inr p /\
    insns p = l /\ section_name (pbase p) = nm /\ prog_idx (pbase p) = idx.
Proof.
  intros Hok Hne buf. unfold bpf_program__init. cbn [d_size d_buf].
  assert (List.length buf = (8 * List.length l)%nat) as Hl.
  { subst buf. clear Hok Hne. induction l as [|i l IH]; [done|]. cbn [fmap list_fmap List.concat].
    rewrite List.length_app, length_encode, IH. cbn. lia. }
  rewrite Hl.
  assert (Z.of_nat (8 * List.length l) = Z.of_nat (List.length l) * BPF_INSN_SZ) as Hz
    by (unfold BPF_INSN_SZ; lia).
  rewrite Hz, Z.mod_mul, Z.div_mul, Nat2Z.id by (unfold BPF_INSN_SZ; lia).
  rewrite (proj2 (Z.eqb_neq _ 0)) by (unfold BPF_INSN_SZ; destruct l; [done|cbn; lia]).
  cbn [orb negb Z.eqb]. eexists. split; [done|]. split; [|done]. cbn [insns].
  clear Hne Hl Hz. subst buf.
  induction Hok as [|i l Hi _ IH]; [done|].
  cbn [List.length decode_insns fmap list_fmap List.concat].
  rewrite decode_encode by done. f_equal.
  rewrite drop_app_length' by (symmetry; apply length_encode). exact IH.
Qed.
End InsnRoundTrip.

(** ** The maps of the object *)

Section Maps.
Context `{HostOrder}.
Implicit Types (o : opening) (sym : GElf_Sym) (m : full_map).

(** The map a symbol defines: its name, its place, the bytes of its definition. *)
Definition map_of (e : Elf) o (map_def_sz : Z) (data : Elf_Data) sym m : Prop :=
  elf_strptr e (op_strtabidx o) (st_name sym) = Some (map_name (mbase m)) /\
  sec_idx m = st_shndx sym /\ sec_offset m = st_value sym /\ libbpf_type m = LIBBPF_MAP_UNSPEC /\
  fd_of m = -1 /\ pin_path (mbase m) = None /\
  exists bs, read_bytes (d_buf data) (Z.to_nat (st_value sym)) (Z.to_nat map_def_sz) = Some bs /\
    def (mbase m) = def_of_bytes (take 20 bs).

Lemma init_user_map_spec e o strict sz data sym m :
  init_user_map e o strict sz data sym = Some (inr m) -> map_of e o sz data sym m.
Proof.
  unfold init_user_map, map_of. destruct (elf_strptr _ _ _) as [nm|]; [|done].
  destruct (_ <? _); [done|]. intros (bs & Hbs & Hrun)%bind_Some.
  destruct (_ && _); [done|]. injection Hrun as <-. cbn. eauto 10.
Qed.

Lemma init_user_maps_loop_spec e o strict sz data syms ms :
  init_user_maps_loop e o strict sz data syms = Some (inr ms) ->
  Forall2 (map_of e o sz data) syms ms.
Proof.
  revert ms. induction syms as [|sym syms IH]; intros ms; cbn; [by intros [= <-]|].
  intros (m & Hm%init_user_map_spec & (ms' & Hms & [= <-])%rbind_Some)%rbind_Some.
  constructor; [done|]. by apply IH.
Qed.

(** Of two differences cut to an [int], one is not positive. *)
Lemma i32_difference x y : i32 (x - y) <= 0 \/ i32 (y - x) <= 0.
Proof.
  unfold i32. set (d := x - y). replace (y - x) with (- d) by (unfold d; lia).
  pose proof (Z.mod_pos_bound (d + 2 ^ 31) (2 ^ 32)) as Hb; specialize (Hb ltac:(lia)).
  destruct (Z_le_gt_dec ((d + 2 ^ 31) mod 2 ^ 32) (2 ^ 31)) as [Hle|Hgt]; [left; lia|right].
  assert ((- d + 2 ^ 31) mod 2 ^ 32 = 2 ^ 32 - (d + 2 ^ 31) mod 2 ^ 32) as ->; [|lia].
  replace (- d + 2 ^ 31) with (- (d + 2 ^ 31) + 1 * 2 ^ 32) by lia.
  rewrite Z_mod_plus_full. apply Z_mod_nz_opp_full. lia.
Qed.

(** The order of the maps: total, so [qsort] leaves each map no later than the next. *)
#[export] Instance map_le_total : Total map_le.
Proof.
  intros a b. unfold map_le, compare_bpf_map. rewrite (Z.eqb_sym (sec_idx b)).
  destruct (Z.eqb_spec (sec_idx a) (sec_idx b)) as [E|E]; cbn [negb]; [|lia].
  apply i32_difference.
Qed.

(** The maps of an opened object without BTF maps are one for each symbol of the
    section of maps, then those of the data sections, sorted. *)
Theorem init_maps_spec {B X W} `{BtfReader B X W} e o nm c (b : option B) relaxed pin ms :
  btf_maps_shndx (op_ef o) < 0 -> 0 <= maps_shndx (op_ef o) ->
  bpf_object__init_maps e o nm c b relaxed pin = Some (inr ms) ->
  exists symbols data user internal,
    op_symbols o = Some symbols /\ elf_getscn e (maps_shndx (op_ef o)) ≫= scn_data = Some data /\
    bpf_object__init_global_data_maps nm (cap_global_data c) o = Some internal /\
    Forall2 (map_of e o (d_size data / Z.of_nat (List.length (map_symbols o symbols))) data)
      (map_symbols o symbols) user /\
    ms ≡ₚ user ++ internal /\ Sorted map_le ms.
Proof.
  intros Hbtf Hmaps. unfold bpf_object__init_maps, bpf_object__init_user_maps.
  rewrite (proj2 (Z.ltb_lt _ _) Hbtf), (proj2 (Z.ltb_ge _ _) Hmaps).
  intros (user & Huser & (from_btf & [= <-] & Hrun)%rbind_Some)%rbind_Some.
  apply bind_Some in Hrun as (internal & Hint & [= <-]).
  destruct (op_symbols o) as [symbols|]; [|done].
  destruct (elf_getscn e _ ≫= scn_data) as [data|]; [|done].
  destruct (_ || _ || _); [done|]. apply init_user_maps_loop_spec in Huser.
  exists symbols, data, user, internal. split; [done|]. split; [done|]. split; [done|].
  split; [done|]. cbn [app]. split; [apply merge_sort_Permutation|].
  apply Sorted_merge_sort. apply map_le_total.
Qed.
End Maps.

(** ** Section indices *)

Section Indices.
Context `{HostOrder}.
Implicit Types (o : opening) (e : Elf).

Definition has_name e (i : Z) (nm : string) : Prop :=
  exists scn, elf_getscn e i = Some scn /\ scn_name scn = Some nm.

(** Each index that is set is the index of the section of its name. *)
Definition indices_ok e (f : efile) : Prop :=
  (0 <= maps_shndx f -> has_name e (maps_shndx f) "maps") /\
  (0 <= btf_maps_shndx f -> has_name e (btf_maps_shndx f) ".maps") /\
  (0 < ef_text_shndx f -> has_name e (ef_text_shndx f) ".text") /\
  (0 <= data_shndx f -> has_name e (data_shndx f) ".data") /\
  (0 <= rodata_shndx f -> has_name e (rodata_shndx f) ".rodata") /\
  (0 <= bss_shndx f -> has_name e (bss_shndx f) ".bss").

Lemma has_name_inj e i nm1 nm2 : has_name e i nm1 -> has_name e i nm2 -> nm1 = nm2.
Proof. intros (s1 & E1 & N1) (s2 & E2 & N2). congruence. Qed.

Lemma add_program_ef o data nm idx o' :
  bpf_object__add_program o data nm idx = inr o' -> op_ef o' = op_ef o.
Proof. unfold bpf_object__add_program. destruct (bpf_program__init _ _ _); [done|]. by intros [= <-]. Qed.

Lemma collect_section_indices e o idx scn o' :
  elf_getscn e idx = Some scn -> collect_section e o idx scn = inr o' ->
  indices_ok e (op_ef o) -> indices_ok e (op_ef o').
Proof.
  intros Hscn. unfold collect_section.
  destruct (scn_shdr scn) as [sh|], (scn_name scn) as [nm|] eqn:Hnm, (scn_data scn) as [data|];
    try done.
  assert (forall s, (nm =? s)%string = true -> has_name e idx s) as Hname
    by (intros s ->%String.eqb_eq; by exists scn).
  cbv zeta. intros Hrun Hok.
  repeat match type of Hrun with
  | (if (nm =? ?s)%string then _ else _) = _ => destruct (nm =? s)%string eqn:?
  | (if ?c && (nm =? ?s)%string then _ else _) = _ =>
      destruct c; cbn [andb] in Hrun
  | (if ?c then _ else _) = _ => destruct c
  | match op_symbols o with _ => _ end = _ => destruct (op_symbols o); [done|]
  | bpf_object__init_kversion _ _ = _ =>
      unfold bpf_object__init_kversion in Hrun; destruct (negb _); [done|]
  | bpf_object__add_program (if ?c then _ else _) _ _ _ = _ => destruct c eqn:?
  | bpf_object__add_program _ _ _ _ = _ => apply add_program_ef in Hrun; rewrite Hrun
  | inr _ = inr _ => injection Hrun as <-
  end; try done; destruct Hok as (?&?&?&?&?&?); unfold indices_ok; cbn; eauto 10.
Qed.

Lemma collect_from_indices e o ss pre o' :
  scns e = pre ++ ss -> indices_ok e (op_ef o) ->
  collect_sections_from e o (Z.of_nat (List.length pre) + 1) ss = inr o' ->
  indices_ok e (op_ef o').
Proof.
  revert o pre. induction ss as [|scn ss IH]; intros o pre He Hok; cbn; [by intros [= <-]|].
  destruct (collect_section e o _ scn) as [err|o1] eqn:Hrun; [done|]. intros Hrest.
  apply (IH o1 (pre ++ [scn])).
  - by rewrite <- app_assoc.
  - eapply collect_section_indices; [|exact Hrun|done]. unfold elf_getscn.
    rewrite (proj2 (Z.ltb_ge _ _)) by lia. rewrite He.
    replace (Z.to_nat (Z.of_nat (List.length pre) + 1 - 1)) with (List.length pre) by lia.
    by rewrite lookup_app_r, Nat.sub_diag by lia.
  - rewrite List.length_app. cbn. by replace (Z.of_nat (List.length pre + 1) + 1)
      with (Z.of_nat (List.length pre) + 1 + 1) by lia.
Qed.

(** Reading the sections keeps the indices right. *)
Lemma collect_elf_indices e kver o : collect_elf e kver = inr o -> indices_ok e (op_ef o).
Proof.
  unfold collect_elf. destruct (negb _); [done|].
  destruct (collect_sections_from e _ 1 (scns e)) as [err|o1] eqn:Hrun; [done|].
  destruct (_ || _); [done|]. intros [= <-].
  apply (collect_from_indices e (new_opening kver) (scns e) []); [done| |done].
  unfold indices_ok. cbn. repeat split; intros; lia.
Qed.
End Indices.

(** ** From a symbol to its map *)

Section OpenedMaps.
Context {B X W : Type} `{BtfReader B X W} `{BtfOps B X} `{HostOrder}.
Context `{BpfSys W} `{BpfKern W} `{ElfSys W} (agains : nat).
Implicit Types (op : opening) (e : Elf) (sym : GElf_Sym) (obj : full_object B X).

(** The parts of an object that collecting its relocations and typing its programs
    leave alone. *)
Definition same_maps obj obj' : Prop := fmaps obj' = fmaps obj /\ ef obj' = ef obj.

Lemma collect_sections_maps obj symbols ss obj' :
  collect_sections obj symbols ss = Some (inr obj') -> same_maps obj obj'.
Proof.
  revert obj. induction ss as [|shdr ss IH]; intros obj; cbn; [by intros [= <-]|].
  destruct (negb _); [done|]. destruct (bpf_object__find_prog_by_idx _ _); [|done].
  intros (p & _ & (r & _ & Hrun)%rbind_Some)%bind_Some. by apply IH in Hrun.
Qed.

(** What an object that opened is made of. *)
Lemma elf_collect_inv e nm kver c relaxed pin w obj syms relocs w' :
  bpf_object__elf_collect e nm kver c relaxed pin w = Some (inr (obj, syms, relocs), w') ->
  exists op b, collect_elf e kver = inr op /\
    bpf_object__init_maps e op nm c b relaxed pin = Some (inr (fmaps obj)) /\
    ef obj = op_ef op.
Proof.
  unfold bpf_object__elf_collect. destruct (collect_elf e kver) as [err|op]; [done|].
  intros ([[err b] x] & _ & Hrun)%bind_Some. destruct (negb _); [done|].
  apply bind_Some in Hrun as (r & Hmaps & Hrun). destruct r as [err1|ms]; [done|].
  apply bind_Some in Hrun as ([[[err1 b1] x1] w1] & _ & Hrun).
  destruct (negb _); [done|]. apply bind_Some in Hrun as (r & _ & Hrun).
  destruct r as [err2|ps]; [done|]. injection Hrun as <- _ _ _. by exists op, b.
Qed.

Lemma open_elf_inv path opts fd e h kver w obj w' :
  open_elf agains path opts fd e h kver w = Some (inr obj, w') ->
  exists c op b, collect_elf e kver = inr op /\
    bpf_object__init_maps e op (object_label path (object_name opts)) c b (relaxed_maps opts)
      (pin_root_path opts) = Some (inr (fmaps obj)) /\
    ef obj = op_ef op.
Proof.
  unfold open_elf. destruct (negb _); [done|].
  intros ([c w1] & _ & ([r w2] & Hcollect & Hrun)%bind_Some)%bind_Some.
  destruct r as [err|[[o1 syms] relocs]]; [done|]. apply bind_Some in Hrun as (r & Hrel & Hrun).
  destruct r as [err|o2]; [done|]. destruct (type_programs _ _ _) as [err|ps]; [done|].
  injection Hrun as <- _. apply elf_collect_inv in Hcollect as (op & b & Hop & Hms & Hef).
  unfold bpf_object__collect_reloc in Hrel. cbn [negb] in Hrel.
  apply collect_sections_maps in Hrel as [Em Ee]. exists c, op, b. split; [done|].
  cbn. by rewrite Em, Ee.
Qed.

(** A symbol of the section of maps is no symbol of a data section. *)
Lemma maps_section_type op e obj sym :
  indices_ok e (op_ef op) -> ef obj = op_ef op ->
  0 <= maps_shndx (op_ef op) -> st_shndx sym = maps_shndx (op_ef op) ->
  bpf_object__section_to_libbpf_map_type obj (st_shndx sym) = LIBBPF_MAP_UNSPEC.
Proof.
  intros (Hm & _ & _ & Hd & Hr & Hb) Hef Hpos ->.
  unfold bpf_object__section_to_libbpf_map_type. rewrite Hef. specialize (Hm Hpos).
  assert (forall i nm, (0 <= i -> has_name e i nm) -> nm <> "maps"%string ->
    (maps_shndx (op_ef op) =? i) = false) as Hne.
  { intros i nm Hi Hnm. apply Z.eqb_neq. intros <-. apply Hnm.
    by eapply has_name_inj; [apply Hi|]. }
  by rewrite (Hne _ _ Hd), (Hne _ _ Hb), (Hne _ _ Hr).
Qed.

Lemma data_map_type nm t sec d ms m : data_map nm t sec d = Some ms -> m ∈ ms -> libbpf_type m = t.
Proof.
  unfold data_map. destruct (sec <? 0); [intros [= <-] ?%elem_of_nil; done|].
  destruct d as [d|]; [|done]. by intros [= <-] ->%list_elem_of_singleton.
Qed.

Lemma internal_types nm global op ms m :
  bpf_object__init_global_data_maps nm global op = Some ms -> m ∈ ms ->
  libbpf_type m <> LIBBPF_MAP_UNSPEC.
Proof.
  unfold bpf_object__init_global_data_maps.
  destruct (negb global); [intros [= <-] ?%elem_of_nil; done|].
  intros (d & Hd & (r & Hr & (b & Hb & [= <-])%bind_Some)%bind_Some)%bind_Some.
  rewrite !elem_of_app.
  intros [Hm|[Hm|Hm]];
    [apply (data_map_type _ _ _ _ _ _ Hd) in Hm|apply (data_map_type _ _ _ _ _ _ Hr) in Hm|
     apply (data_map_type _ _ _ _ _ _ Hb) in Hm]; by rewrite Hm.
Qed.

(** Among maps made of the symbols [syms], at different offsets, and maps of data
    sections, the search for a symbol finds the map it made. *)
Lemma symbol_found e op sz data syms user internal obj sym :
  Forall2 (map_of e op sz data) syms user ->
  (forall m, m ∈ internal -> libbpf_type m <> LIBBPF_MAP_UNSPEC) ->
  fmaps obj ≡ₚ user ++ internal ->
  NoDup (st_value <$> syms) -> sym ∈ syms ->
  bpf_object__section_to_libbpf_map_type obj (st_shndx sym) = LIBBPF_MAP_UNSPEC ->
  exists i m, first_map obj sym i m /\ map_of e op sz data sym m.
Proof.
  intros Huser Hint Hms Hnd Hsym Htype.
  assert (exists m, m ∈ fmaps obj /\ map_matches LIBBPF_MAP_UNSPEC sym m = true) as (m & Hm & Hmatch).
  { apply list_elem_of_lookup in Hsym as [j Hj].
    destruct (Forall2_lookup_l _ _ _ _ _ Huser Hj) as (m & Hm & (_ & Hsec & Hoff & Hun & _)).
    exists m. split.
    - rewrite Hms. apply elem_of_app. left. by apply list_elem_of_lookup_2 with j.
    - unfold map_matches. by rewrite Hun, Hsec, Hoff, !Z.eqb_refl. }
  destruct (list_find (fun m => map_matches LIBBPF_MAP_UNSPEC sym m = true) (fmaps obj))
    as [[i m1]|] eqn:Hfind.
  2: { apply list_find_None in Hfind. rewrite List.Forall_forall in Hfind.
       by apply list_elem_of_In, Hfind in Hm. }
  assert (find_map obj (bpf_object__section_to_libbpf_map_type obj (st_shndx sym)) sym = Some i)
    as Hfound by (unfold find_map; by rewrite Htype, Hfind).
  apply list_find_Some in Hfind as (Hi & Hmatch1 & _).
  apply find_map_spec in Hfound as (m2 & Hfirst). exists i, m2. split; [done|].
  destruct Hfirst as (Hi2 & _). rewrite Hi in Hi2. injection Hi2 as <-.
  unfold map_matches in Hmatch1. rewrite (bool_decide_eq_false_2 (_ <> _)) in Hmatch1 by (by intros []).
  cbn [orb] in Hmatch1. apply andb_prop in Hmatch1 as [Hun%bool_decide_eq_true [Hs Ho]%andb_prop].
  apply list_elem_of_lookup_2 in Hi. rewrite Hms, elem_of_app in Hi.
  destruct Hi as [Hi|Hi]; [|by apply Hint in Hi]. apply list_elem_of_lookup in Hi as [j Hj].
  destruct (Forall2_lookup_r _ _ _ _ _ Huser Hj) as (sym1 & Hsym1 & Hof).
  assert (sym1 = sym) as <-; [|done].
  apply list_elem_of_lookup in Hsym as [k Hk]. apply Z.eqb_eq in Ho.
  assert (j = k) as <-; [|congruence].
  apply (list.NoDup_lookup _ j k (st_value sym) Hnd); rewrite list_lookup_fmap, ?Hsym1, ?Hk; [|done].
  cbn. destruct Hof as (_ & _ & Hoff & _). congruence.
Qed.

(** C6. The map a relocation against a symbol of the section of maps resolves to in an
    opened object exists, has the name of the symbol and the definition at its place
    in the section, when no two symbols of the section share an offset and the file has
    no [.maps] section, whose maps come from BTF. *)
Theorem opened_symbol path opts fd e h kver w obj w' op symbols sym :
  open_elf agains path opts fd e h kver w = Some (inr obj, w') ->
  collect_elf e kver = inr op -> op_symbols op = Some symbols ->
  0 <= maps_shndx (op_ef op) -> btf_maps_shndx (op_ef op) < 0 ->
  NoDup (st_value <$> map_symbols op symbols) -> sym ∈ map_symbols op symbols ->
  exists data i m, elf_getscn e (maps_shndx (op_ef op)) ≫= scn_data = Some data /\
    first_map obj sym i m /\
    map_of e op (d_size data / Z.of_nat (List.length (map_symbols op symbols))) data sym m.
Proof.
  intros Hopen Hop Hsyms Hmaps Hbtf Hnd Hsym.
  apply open_elf_inv in Hopen as (c & op' & b & Hop' & Hms & Hef).
  rewrite Hop in Hop'. injection Hop' as <-.
  apply init_maps_spec in Hms as (symbols' & data & user & internal & Hs & Hd & Hint & Hu & Hp & _);
    [|done..].
  rewrite Hsyms in Hs. injection Hs as <-. exists data.
  destruct (symbol_found e op _ data _ user internal obj sym Hu
              (fun m => internal_types _ _ _ _ m Hint) Hp Hnd Hsym) as (i & m & Hfirst & Hof).
  - apply (maps_section_type op e); [by apply (collect_elf_indices e kver)|done..|].
    unfold map_symbols in Hsym. apply list_elem_of_In, List.filter_In in Hsym as [_ Hsym].
    by apply Z.eqb_eq.
  - by exists i, m.
Qed.
End OpenedMaps.
