(* ===== verification/OpenFds.v ===== *)
(** * Descriptors while an object is opened

    What [__bpf_object__open] of [BpfOpen] does to the open descriptors: the probes,
    the file and the BTF are accounted for on every path.  One path leaks: a file
    that opens and that libelf does not take. *)

From S2P Require Import Prelude Packet BpfMap BpfCalls BpfObject BpfLoad BpfOpen LoadFds.
From Stdlib Require Import Ascii String.

Local Open Scope Z_scope.

(** Beside the laws of [LoadFds]: opening a file and loading a raw BTF open a
    descriptor, and what [btf.c] does to the descriptor of a BTF: a new one has none,
    only loading it gives one, freeing it closes it. *)
Class OpenLaws (B X W : Type) `{FdLaws W} `{ElfSys W} `{BtfReader B X W} `{BtfOps B X} := {
  open_file_opens : forall p w fd w', sys_open_file p w = (fd, w') ->
    opens fd (opened w) (opened w');
  raw_btf_opens : forall a w fd log w', sys_btf_load a w = (fd, log, w') ->
    opens fd (opened w) (opened w');
  btf_new_unloaded : forall d b, btf__new d = Some (inr b) -> btf__fd b < 0;
  finalize_fd : forall e o b err b',
    btf__finalize_data e o b = Some (err, b') -> btf__fd b' = btf__fd b;
  sanitize_fd : forall c b b', sanitize_btf c b = Some b' -> btf__fd b' = btf__fd b;
  load_btf_opens : forall b w err b' w', btf__load b w = (err, b', w') -> btf__fd b < 0 ->
    opens (btf__fd b') (opened w) (opened w');
  free_btf_closes : forall b w,
    opened (btf__free b w) = if btf__fd b <? 0 then opened w else opened w ∖ {[btf__fd b]};
}.

Section Open.
Context {B X W : Type} `{OpenLaws B X W} `{HostOrder} (agains : nat).
Implicit Types (U : gset Z) (l : list Z) (w : W) (b : option B).

(** The descriptor of a BTF that may be there. *)
Definition btf_fds b : list Z := match b with Some b => valid [btf__fd b] | None => [] end.

Lemma account_free U l b w : account U (btf_fds b ++ l) w -> account U l (free_btf b w).
Proof.
  unfold free_btf, btf_fds, valid. destruct b as [b|]; [|done]. cbn [List.filter].
  pose proof (free_btf_closes b w) as Hc. destruct (Z.ltb_spec (btf__fd b) 0) as [Hn|Hn].
  - rewrite (proj2 (Z.leb_gt _ _)) by done. by apply account_same.
  - rewrite (proj2 (Z.leb_le _ _)) by done. intros Ha. by eapply account_closed.
Qed.

Lemma account_finish U l fd w :
  account U (valid [fd] ++ l) w -> account U l (bpf_object__elf_finish fd w).
Proof.
  intros Ha. unfold bpf_object__elf_finish. destruct (zclose fd w) as [r w'] eqn:E.
  by eapply account_zclose.
Qed.

(** ** The probes *)

Lemma account_close_if U l fd w ok w' :
  account U (valid [fd] ++ l) w -> close_if fd w = (ok, w') -> account U l w'.
Proof.
  unfold close_if. cbn. destruct (0 <=? fd); [|by intros ? [= _ <-]].
  destruct (sys_close fd w) as [r w1] eqn:E. intros Ha [= _ <-]. by eapply account_close.
Qed.

Lemma probe_name_account U l w ok w' :
  account U l w -> bpf_object__probe_name agains w = Some (ok, w') -> account U l w'.
Proof.
  unfold bpf_object__probe_name. intros Ha (((fd & log) & w1) & Hl & Hrun)%bind_Some.
  apply (account_load _ U l) in Hl; [|done]. destruct (Z.ltb_spec fd 0) as [Hn|Hn].
  { injection Hrun as _ <-. by rewrite valid_neg in Hl by (by constructor). }
  destruct (sys_close fd w1) as [r w2] eqn:Ec.
  assert (account U l w2) as Ha2.
  { eapply account_close; [|done]. cbn in Hl. by rewrite (proj2 (Z.leb_le _ _) Hn) in Hl. }
  apply bind_Some in Hrun as (((fd2 & log2) & w3) & Hl2 & [= Hc]).
  apply (account_load _ U l) in Hl2; [|done]. by eapply account_close_if.
Qed.

Lemma probe_global_data_account U l w ok w' :
  account U l w -> bpf_object__probe_global_data agains w = Some (ok, w') -> account U l w'.
Proof.
  unfold bpf_object__probe_global_data. intros Ha.
  destruct (bpf_create_map_xattr _ w) as [map w1] eqn:Em.
  apply map_create_opens, (account_open U l) in Em; [|done].
  destruct (Z.ltb_spec map 0) as [Hn|Hn].
  { intros [= _ <-]. by rewrite valid_neg in Em by (by constructor). }
  intros (((fd & log) & w2) & Hl & Hrun)%bind_Some.
  apply (account_load _ U (valid [map] ++ l)) in Hl; [|done].
  destruct (close_if fd w2) as [ok1 w3] eqn:E3. eapply account_close_if in E3; [|done].
  destruct (sys_close map w3) as [r w4] eqn:E4. injection Hrun as _ <-.
  eapply account_close; [|exact E4]. cbn in E3. by rewrite (proj2 (Z.leb_le _ _) Hn) in E3.
Qed.

Lemma raw_btf_account U l types strs w ok w' :
  account U l w ->
  (let '(fd, w) := libbpf__load_raw_btf types strs w in close_if fd w) = (ok, w') ->
  account U l w'.
Proof.
  intros Ha. unfold libbpf__load_raw_btf, bpf_load_btf.
  rewrite bool_decide_eq_false_2 by (by intros [? ?]). cbn [andb negb].
  destruct (sys_btf_load _ w) as [[fd log] w1] eqn:E. rewrite andb_false_r. intros Hc.
  eapply account_close_if; [|exact Hc]. eapply account_open; [done|]. by eapply raw_btf_opens.
Qed.

(** Probing the kernel leaves no descriptor open. *)
Lemma probe_caps_account U l w c w' :
  account U l w -> bpf_object__probe_caps agains w = Some (c, w') -> account U l w'.
Proof.
  unfold bpf_object__probe_caps. intros Ha ([nm w1] & E1 & ([data w2] & E2 & Hrun)%bind_Some)%bind_Some.
  eapply probe_name_account in E1; [|done]. eapply probe_global_data_account in E2; [|done].
  destruct (bpf_object__probe_btf_func w2) as [func w3] eqn:E3.
  destruct (bpf_object__probe_btf_datasec w3) as [datasec w4] eqn:E4.
  injection Hrun as _ <-. eapply raw_btf_account; [|exact E4]. by eapply raw_btf_account; [|exact E3].
Qed.

(** ** The BTF and the object *)

Lemma load_data_unloaded e o err b : load_btf_data e o = Some (inr (err, b)) -> btf_fds b = [].
Proof.
  unfold load_btf_data. destruct (op_btf o) as [data|]; [|by intros [= _ <-]].
  intros (r & En & Hrun)%bind_Some. destruct r as [err1|b1]; [done|]. apply btf_new_unloaded in En.
  apply bind_Some in Hrun as ([err2 b2] & Ef & [= _ <-]). apply finalize_fd in Ef.
  cbn. by rewrite (proj2 (Z.leb_gt _ _)) by lia.
Qed.

Lemma init_btf_unloaded e o err b x :
  bpf_object__init_btf e o = Some (err, b, x) -> btf_fds b = [].
Proof.
  unfold bpf_object__init_btf. intros (loaded & Hl & Hrun)%bind_Some.
  destruct loaded as [err1|[err1 b1]]; [by injection Hrun as _ <- _|].
  apply load_data_unloaded in Hl. destruct (negb _); [by injection Hrun as _ <- _|].
  apply bind_Some in Hrun as (x1 & _ & Hrun). by destruct (_ && _); injection Hrun as _ <- _.
Qed.

Lemma load_btf_account U l o c b x w err b' x' w' :
  btf_fds b = [] -> account U l w ->
  bpf_object__sanitize_and_load_btf o c b x w = Some (err, b', x', w') ->
  account U (btf_fds b' ++ l) w'.
Proof.
  unfold bpf_object__sanitize_and_load_btf. destruct b as [b|]; [|by intros _ Ha [= _ <- _ <-]].
  intros Hb Ha (b0 & Hb0 & Hrun)%bind_Some.
  assert (btf__fd b0 < 0) as Hfd.
  { assert (btf__fd b0 = btf__fd b) as ->.
    { destruct (_ && _); [by injection Hb0 as ->|by eapply sanitize_fd]. }
    revert Hb. cbn. destruct (Z.leb_spec 0 (btf__fd b)); done. }
  destruct (btf__load b0 w) as [[err1 b1] w1] eqn:E. apply load_btf_opens in E; [|done].
  apply (account_open U l) in E; [|done]. destruct (negb _).
  - injection Hrun as _ <- _ <-. by apply (account_free U l (Some b1)).
  - by injection Hrun as _ <- _ <-.
Qed.

Lemma elf_collect_account U l e nm kver c relaxed pin w r w' :
  account U l w ->
  bpf_object__elf_collect e nm kver c relaxed pin w = Some (r, w') ->
  match r with
  | inl _ => account U l w'
  | inr (obj, _, _) => account U (btf_fds (btf obj) ++ l) w'
  end.
Proof.
  unfold bpf_object__elf_collect. intros Ha.
  destruct (collect_elf e kver) as [err|o]; [by intros [= <- <-]|].
  intros ([[err b] x] & Eb & Hrun)%bind_Some. apply init_btf_unloaded in Eb.
  assert (account U l (free_btf b w)) as Hfree by (apply account_free; by rewrite Eb).
  destruct (negb _); [by injection Hrun as <- <-|].
  apply bind_Some in Hrun as (r1 & _ & Hrun).
  destruct r1 as [err1|ms]; [by injection Hrun as <- <-|].
  apply bind_Some in Hrun as ([[[err1 b1] x1] w1] & El & Hrun).
  eapply load_btf_account in El; [|done..].
  pose proof (account_free U l b1 w1 El) as Hfree1.
  destruct (negb _); [by injection Hrun as <- <-|]. apply bind_Some in Hrun as (r2 & _ & Hrun).
  by destruct r2 as [err2|ps]; injection Hrun as <- <-.
Qed.

Lemma collect_sections_btf (o : full_object B X) symbols ss o' :
  collect_sections o symbols ss = Some (inr o') -> btf o' = btf o.
Proof.
  revert o. induction ss as [|shdr ss IH]; intros o; cbn; [by intros [= <-]|].
  destruct (negb _); [done|]. destruct (bpf_object__find_prog_by_idx _ _); [|done].
  intros (p & _ & (r & _ & Hrun)%rbind_Some)%bind_Some. by apply IH in Hrun.
Qed.

(** What opening leaves open: the descriptor of the BTF of the object. *)
Definition kept (r : Z + full_object B X) : list Z :=
  match r with inl _ => [] | inr o => btf_fds (btf o) end.

Lemma open_elf_account U l path opts fd e h kver w r w' :
  account U (valid [fd] ++ l) w -> open_elf agains path opts fd e h kver w = Some (r, w') ->
  account U (kept r ++ l) w'.
Proof.
  unfold open_elf. intros Ha. destruct (negb _).
  { intros [= <- <-]. by apply account_finish. }
  intros ([c w1] & Ec & ([r1 w2] & Ecollect & Hrun)%bind_Some)%bind_Some.
  eapply probe_caps_account in Ec; [|done]. eapply elf_collect_account in Ecollect; [|done].
  destruct r1 as [err|[[o syms] relocs]]; [injection Hrun as <- <-; by apply account_finish|].
  apply bind_Some in Hrun as (r2 & Hrel & Hrun).
  destruct r2 as [err|o2].
  { injection Hrun as <- <-. by apply account_finish, account_free. }
  unfold bpf_object__collect_reloc in Hrel. cbn [negb] in Hrel. apply collect_sections_btf in Hrel.
  assert (account U (btf_fds (btf o2) ++ l) (bpf_object__elf_finish fd w2)) as Hfin.
  { apply account_finish. eapply account_perm; [exact Ecollect|]. rewrite Hrel, !app_assoc.
    apply Permutation_app_tail, Permutation_app_comm. }
  destruct (type_programs _ _ _) as [err|ps]; injection Hrun as <- <-; [by apply account_free|done].
Qed.

(** The descriptor of a file that opens and that libelf does not take. *)
Definition leaked (src : source) (opts : open_opts) w : list Z :=
  match src with
  | FromFile path =>
      if elf_version_ok w && opts_valid opts then
        let '(fd, w) := sys_open_file path w in
        match elf_begin fd w with None => valid [fd] | Some _ => [] end
      else []
  | FromMem _ _ => []
  end.

(** C12. However opening an object ends, from a file or a buffer, it leaves open the
    descriptor of the BTF of the object if it succeeds and, whatever the intention,
    that of a file libelf does not take; nothing else. *)
Theorem open_account U l src opts w r w' :
  account U l w -> __bpf_object__open agains src opts w = Some (r, w') ->
  account U (kept r ++ leaked src opts w ++ l) w'.
Proof.
  unfold __bpf_object__open, leaked. intros Ha.
  destruct (elf_version_ok w); cbn [negb andb]; [|intros [= <- <-]; by destruct src].
  destruct (opts_valid opts); cbn [negb]; [|intros [= <- <-]; by destruct src].
  set (kver := get_kernel_version w).
  assert (forall path fd e w1,
    account U (valid [fd] ++ l) w1 ->
    (let '(r, w) :=
       match ehdr e with
       | Some h => if check_ehdr h then (inr (fd, e, h), w1)
                   else (inl (- LIBBPF_ERRNO__FORMAT), bpf_object__elf_finish fd w1)
       | None => (inl (- LIBBPF_ERRNO__FORMAT), bpf_object__elf_finish fd w1)
       end in
     match r with
     | inl err => Some (inl err, w)
     | inr (fd, e, h) => open_elf agains path opts fd e h kver w
     end) = Some (r, w') -> account U (kept r ++ l) w') as Helf.
  { intros path fd e w1 Ha1. pose proof (account_finish U l fd w1 Ha1).
    destruct (ehdr e) as [h|]; [|by intros [= <- <-]]. destruct (check_ehdr h); [|by intros [= <- <-]].
    by apply open_elf_account. }
  destruct src as [path|buf label]; cbn [bpf_object__elf_init].
  - destruct (sys_open_file path w) as [fd w1] eqn:E.
    apply open_file_opens, (account_open U l) in E; [|done].
    destruct (Z.ltb_spec fd 0) as [Hn|Hn].
    { rewrite valid_neg in E |- * by (by constructor). destruct (elf_begin fd w1); by intros [= <- <-]. }
    destruct (elf_begin fd w1) as [e|]; [by apply Helf|by intros [= <- <-]].
  - destruct (elf_memory buf) as [e|]; [by apply Helf|by intros [= <- <-]].
Qed.
End Open.
