(* ===== verification/ObjectPin.v ===== *)
(** * Pinning the programs of an object

    Models the pinning of programs in [libbpf/src/libbpf.c], of one with its instances,
    of those of an object, and of an object with its maps, each with its rollback.
    Messages are left out, and no path is NULL ([make_parent_dir] copies the path before
    [check_path] tests it).  [program_pin_atomic]: a program with any number of instances
    is pinned as a whole or not at all; [object_pin_atomic]: so is an object, with its
    maps, when its programs have one instance each and its maps have no path yet
    ([earlier_pin_lost] and [new_pin_stays] show what happens otherwise); unpinning
    undoes pinning. *)

From S2P Require Import Prelude BpfMap BpfObject BpfLoad BpfOpen.
From Stdlib Require Import Ascii String.
From stdpp Require Import list gmap pretty.

Local Open Scope Z_scope.

(** [rmdir]: 0 or a negative error number. *)
Class RmdirSys (W : Type) := { sys_rmdir : string -> W -> Z * W }.

(** [snprintf(buf, PATH_MAX, "%s/%d", path, i)]. *)
Definition instance_path (path : string) (i : nat) : string := join_path path (pretty (Z.of_nat i)).

(** [prog->pin_name]. *)
Definition pin_name (p : bpf_program) : string := __bpf_program__pin_name (section_name p).

Section Pin.
Context {W : Type} `{BpfSys W} `{RmdirSys W}.
Implicit Types (w : W) (o : bpf_object).

Definition instance_fd (p : bpf_program) (instance : Z) : option Z :=
  if (instance <? 0) || (Z.of_nat (List.length (instances p)) <=? instance) then None
  else instances p !! Z.to_nat instance.

Definition bpf_program__pin_instance (prog : option bpf_program) (path : string) (instance : Z) w : Z * W :=
  let '(err, w) := make_parent_dir path w in
  if negb (err =? 0) then (err, w) else
  let err := check_path (Some path) w in
  if negb (err =? 0) then (err, w) else
  match prog ≫= fun p => instance_fd p instance with
  | None => (- EINVAL, w)
  | Some fd => bpf_obj_pin fd path w
  end.

Definition bpf_program__unpin_instance (prog : option bpf_program) (path : string) (instance : Z) w : Z * W :=
  let err := check_path (Some path) w in
  if negb (err =? 0) then (err, w) else
  match prog ≫= fun p => instance_fd p instance with
  | None => (- EINVAL, w)
  | Some _ => sys_unlink path w
  end.

(** [err_unpin]: the instances below [i], nearest first. *)
Fixpoint unpin_instances (p : bpf_program) (path : string) (i : nat) w : W :=
  match i with
  | O => w
  | S i =>
      let buf := instance_path path i in
      let w := if fits_path buf then snd (bpf_program__unpin_instance (Some p) buf (Z.of_nat i) w) else w in
      unpin_instances p path i w
  end.

(** The loop over the instances, [n] of them from [i] on. *)
Fixpoint pin_instances (n : nat) (p : bpf_program) (path : string) (i : nat) w : Z * W :=
  match n with
  | O => (0, w)
  | S n =>
      let fails err w := let w := unpin_instances p path i w in (err, snd (sys_rmdir path w)) in
      let buf := instance_path path i in
      if negb (fits_path buf) then fails (- ENAMETOOLONG) w else
      let '(err, w) := bpf_program__pin_instance (Some p) buf (Z.of_nat i) w in
      if negb (err =? 0) then fails err w else pin_instances n p path (i + 1) w
  end.

Definition bpf_program__pin (prog : option bpf_program) (path : string) w : Z * W :=
  let '(err, w) := make_parent_dir path w in
  if negb (err =? 0) then (err, w) else
  let err := check_path (Some path) w in
  if negb (err =? 0) then (err, w) else
  match prog with
  | None => (- EINVAL, w)
  | Some p =>
      match instances p with
      | [] => (- EINVAL, w)
      | [_] => bpf_program__pin_instance (Some p) path 0 w
      | fds => pin_instances (List.length fds) p path 0 w
      end
  end.

Fixpoint unpin_each (n : nat) (p : bpf_program) (path : string) (i : nat) w : Z * W :=
  match n with
  | O => (0, w)
  | S n =>
      let buf := instance_path path i in
      if negb (fits_path buf) then (- ENAMETOOLONG, w) else
      let '(err, w) := bpf_program__unpin_instance (Some p) buf (Z.of_nat i) w in
      if negb (err =? 0) then (err, w) else unpin_each n p path (i + 1) w
  end.

Definition bpf_program__unpin (prog : option bpf_program) (path : string) w : Z * W :=
  let err := check_path (Some path) w in
  if negb (err =? 0) then (err, w) else
  match prog with
  | None => (- EINVAL, w)
  | Some p =>
      match instances p with
      | [] => (- EINVAL, w)
      | [_] => bpf_program__unpin_instance (Some p) path 0 w
      | fds =>
          let '(err, w) := unpin_each (List.length fds) p path 0 w in
          if negb (err =? 0) then (err, w) else sys_rmdir path w
      end
  end.

(** ** The programs of an object *)

Definition program_path (path : string) (p : bpf_program) : string := join_path path (pin_name p).

(** The programs before one, nearest first. *)
Definition programs_back o (i : nat) : list nat :=
  visits (S (List.length (programs o))) (fun p => bpf_program__prev p o) (bpf_program__prev (Some i) o).

Fixpoint unpin_programs_back o (path : string) (ks : list nat) w : option W :=
  match ks with
  | [] => Some w
  | i :: ks =>
      p ← programs o !! i;
      let buf := program_path path p in
      let w := if fits_path buf then snd (bpf_program__unpin (Some p) buf w) else w in
      unpin_programs_back o path ks w
  end.

Fixpoint pin_programs o (path : string) (ks : list nat) w : option (Z * W) :=
  match ks with
  | [] => Some (0, w)
  | i :: ks =>
      let fails err w := w ← unpin_programs_back o path (programs_back o i) w; Some (err, w) in
      p ← programs o !! i;
      let buf := program_path path p in
      if negb (fits_path buf) then fails (- ENAMETOOLONG) w else
      let '(err, w) := bpf_program__pin (Some p) buf w in
      if negb (err =? 0) then fails err w else pin_programs o path ks w
  end.

Definition bpf_object__pin_programs (o : option bpf_object) (path : string) w : option (Z * W) :=
  match o with
  | None => Some (- ENOENT, w)
  | Some o => if negb (loaded o) then Some (- ENOENT, w) else pin_programs o path (for_each_program o) w
  end.

Fixpoint unpin_programs o (path : string) (ks : list nat) w : option (Z * W) :=
  match ks with
  | [] => Some (0, w)
  | i :: ks =>
      p ← programs o !! i;
      let buf := program_path path p in
      if negb (fits_path buf) then Some (- ENAMETOOLONG, w) else
      let '(err, w) := bpf_program__unpin (Some p) buf w in
      if negb (err =? 0) then Some (err, w) else unpin_programs o path ks w
  end.

Definition bpf_object__unpin_programs (o : option bpf_object) (path : string) w : option (Z * W) :=
  match o with
  | None => Some (- ENOENT, w)
  | Some o => unpin_programs o path (for_each_program o) w
  end.

Definition bpf_object__pin (o : option bpf_object) (path : string) w : option (Z * option bpf_object * W) :=
  let '(err, o, w) := bpf_object__pin_maps o (Some path) w in
  if negb (err =? 0) then Some (err, o, w) else
  '(err, w) ← bpf_object__pin_programs o path w;
  if negb (err =? 0) then
    let '(_, o, w) := bpf_object__unpin_maps o (Some path) w in Some (err, o, w)
  else Some (0, o, w).
End Pin.

(** ** Going back *)

Lemma iter_backward o i : (i <= List.length (programs o))%nat -> programs o <> [] ->
  __bpf_program__iter (Some i) o false = match i with O => None | S j => Some j end.
Proof.
  intros Hi Hne. unfold __bpf_program__iter.
  assert (0 < Z.of_nat (List.length (programs o))) by (destruct (programs o); [done|cbn; lia]).
  rewrite (proj2 (Z.eqb_neq _ _)) by lia. destruct i as [|j].
  - by rewrite (proj2 (Z.leb_gt _ _)) by lia.
  - rewrite (proj2 (Z.leb_gt _ _)), (proj2 (Z.ltb_ge _ _)) by lia. cbn [orb]. f_equal. lia.
Qed.

Lemma filter_seq_snoc f i : List.filter f (seq 0 (S i)) = List.filter f (seq 0 i) ++ (if f i then [i] else []).
Proof. rewrite seq_S, List.filter_app. cbn. by destruct (f i). Qed.

Lemma program_prev_spec o fuel i : (i <= List.length (programs o))%nat -> (i < fuel)%nat ->
  program_loop fuel (Some i) o false = head (rev (List.filter (real_program o) (seq 0 i))).
Proof.
  revert i. induction fuel as [|fuel IH]; intros i Hi Hf; [lia|]. cbn [program_loop].
  destruct i as [|i].
  { destruct (programs o) as [|p ps] eqn:E.
    - unfold __bpf_program__iter. by rewrite E.
    - by rewrite iter_backward by (rewrite E; done || cbn; lia). }
  rewrite iter_backward; [|done|intros E; rewrite E in Hi; cbn in Hi; lia].
  destruct (lookup_lt_is_Some_2 (programs o) i) as [p Hp]; [lia|]. rewrite Hp.
  rewrite filter_seq_snoc. unfold real_program at 2. rewrite Hp.
  destruct (bpf_program__is_function_storage p o); cbn [negb].
  - rewrite app_nil_r. apply IH; lia.
  - by rewrite rev_app_distr.
Qed.

Lemma real_before o j : real_program o j = true -> (j < List.length (programs o))%nat.
Proof. unfold real_program. destruct (programs o !! j) eqn:E; [|done]. intros _. by eapply lookup_lt_Some. Qed.

(** The programs before one, as the loops visit them. *)
Lemma programs_back_spec o i : (i <= List.length (programs o))%nat ->
  programs_back o i = rev (List.filter (real_program o) (seq 0 i)).
Proof.
  intros Hi. unfold programs_back, bpf_program__prev.
  enough (forall fuel i, (i <= List.length (programs o))%nat -> (i < fuel)%nat ->
    visits fuel (fun p => program_loop (S (List.length (programs o))) p o false)
      (program_loop (S (List.length (programs o))) (Some i) o false) =
    rev (List.filter (real_program o) (seq 0 i))) as He by (apply He; lia).
  clear i Hi. induction fuel as [|fuel IH]; intros i Hi Hf; [lia|].
  rewrite program_prev_spec by lia.
  destruct (rev (List.filter (real_program o) (seq 0 i))) as [|j l] eqn:E; [done|]. cbn [head visits].
  assert (rev l ++ [j] = List.filter (real_program o) (seq 0 i)) as E' by (by rewrite <- (rev_involutive (List.filter _ _)), E).
  assert (List.In j (List.filter (real_program o) (seq 0 i))) as Hj by (rewrite <- E'; apply in_app_iff; right; by left).
  apply List.filter_In in Hj as [Hj%in_seq Hr]. f_equal. rewrite IH by lia.
  replace (seq 0 i) with (seq 0 (S j) ++ seq (S j) (i - S j)) in E'.
  2:{ rewrite <- (Nat.add_0_l (S j)) at 2. rewrite <- seq_app. f_equal. lia. }
  rewrite List.filter_app, filter_seq_snoc, Hr in E'.
  destruct (List.filter (real_program o) (seq (S j) (i - S j))) as [|k ks] eqn:Ek using rev_ind.
  - rewrite app_nil_r in E'. apply app_inj_tail in E' as [E' _]. by rewrite <- E', rev_involutive.
  - exfalso. clear IHks. rewrite app_assoc in E'. apply app_inj_tail in E' as [_ <-].
    assert (List.In j (List.filter (real_program o) (seq (S j) (i - S j)))) as Hin
      by (rewrite Ek; apply in_app_iff; right; by left).
    apply List.filter_In in Hin as [Hin%in_seq _]. lia.
Qed.

(** ** Paths made one after the other *)

(** The kind of every directory of a BPF file system is as before. *)
Definition kept `{BpfSys W} (w w' : W) : Prop :=
  forall d, sys_statfs d w = inr true -> sys_statfs d w' = inr true.

(** [rmdir] removes no pin: it only removes empty directories. *)
Class RmdirLaws (W : Type) `{PinLaws W} `{RmdirSys W} := {
  rmdir_pins : forall d w e w', sys_rmdir d w = (e, w') -> pins w' = pins w;
}.

Section Placed.
Context {W : Type} `{PinLaws W}.
Implicit Types (w : W) (fs : gmap string Z).

#[global] Instance kept_preorder : PreOrder (@kept W _).
Proof. split; [by intros w d|]. intros w1 w2 w3 H12 H23 d Hd. by apply H23, H12. Qed.

(** The paths [l], the newest first, were pinned starting from [fs]. *)
Inductive placed (fs : gmap string Z) w : list (string * Z) -> gmap string Z -> Prop :=
  | placed_nil : placed fs w [] fs
  | placed_cons path fd l fs' :
      placed fs w l fs' -> fits_path path = true ->
      sys_statfs (dirname path) w = inr true -> fs' !! path = None ->
      placed fs w ((path, fd) :: l) (<[path := fd]> fs').

Lemma placed_kept fs w w' l fs' : kept w w' -> placed fs w l fs' -> placed fs w' l fs'.
Proof. intros Hk. induction 1; constructor; auto. Qed.

Lemma placed_pins fs w l fs' :
  placed fs w l fs' -> fs' = fold_right (fun e fs => <[e.1 := e.2]> fs) fs l.
Proof. by induction 1 as [|path fd l fs' _ -> _ _ _]. Qed.

(** Any of them can be removed first, the oldest for instance. *)
Lemma placed_snoc fs w l path fd fs' : placed fs w (l ++ [(path, fd)]) fs' ->
  fits_path path = true /\ sys_statfs (dirname path) w = inr true /\ fs' !! path = Some fd /\
  placed fs w l (delete path fs').
Proof.
  revert fs'. induction l as [|[p1 fd1] l IH]; intros fs' Hf; cbn in Hf.
  - inversion Hf as [|? ? ? fs1 H1 Hfit Hs Hn]; subst. inversion H1; subst.
    rewrite lookup_insert_eq, delete_insert_id by done. repeat split; done || constructor.
  - inversion Hf as [|? ? ? fs1 H1 Hfit Hs Hn]; subst.
    destruct (IH _ H1) as (Hfp & Hsp & Hl & Hd).
    assert (path <> p1) as Hne by (intros ->; congruence).
    rewrite lookup_insert_ne, delete_insert_ne by done.
    repeat split; [done..|]. constructor; [done..|]. by rewrite lookup_delete_ne.
Qed.

Lemma make_parent_kept path w err w' :
  make_parent_dir path w = (err, w') -> pins w' = pins w /\ kept w w'.
Proof.
  unfold make_parent_dir. destruct (sys_mkdir (dirname path) w) as [e w1] eqn:E.
  intros Hr. assert (w' = w1) as -> by (by destruct ((e <? 0) && negb (e =? - EEXIST)); injection Hr).
  split; [by eapply mkdir_pins|]. intros d. by eapply statfs_mkdir.
Qed.

(** *** One instance *)

Lemma pin_instance_spec p i path w err w' :
  bpf_program__pin_instance (Some p) path i w = (err, w') ->
  kept w w' /\
  (err = 0 /\ (exists fd, instance_fd p i = Some fd /\ pins w !! path = None /\
     pins w' = <[path := fd]> (pins w)) /\ sys_statfs (dirname path) w' = inr true \/
   err <> 0 /\ pins w' = pins w).
Proof.
  unfold bpf_program__pin_instance. destruct (make_parent_dir path w) as [e w1] eqn:E1.
  apply make_parent_kept in E1 as [Hp1 Hk1].
  destruct (Z.eqb_spec e 0) as [->|He]; cbn [negb]; [|intros [= <- <-]; by eauto].
  destruct (Z.eqb_spec (check_path (Some path) w1) 0) as [Hc|Hc]; cbn [negb];
    [|intros [= <- <-]; by eauto].
  cbn [mbind option_bind]. destruct (instance_fd p i) as [fd|]; [|by intros [= <- <-]; eauto].
  intros E2. pose proof (fun d => statfs_pin _ _ _ _ _ d E2) as Hk2. fold (kept w1 w') in Hk2.
  split; [by etrans|]. destruct (Z.eq_dec err 0) as [->|Hne].
  - left. apply pin_ok in E2 as [Hn Hp2]. rewrite Hp1 in Hn, Hp2. split; [done|].
    split; [by eauto|]. by apply Hk2, check_path_ok.
  - right. split; [done|]. rewrite <- Hp1. by eapply pin_err.
Qed.

Lemma unpin_instance_own p i fd path w :
  instance_fd p i = Some fd -> sys_statfs (dirname path) w = inr true -> pins w !! path = Some fd ->
  exists w', bpf_program__unpin_instance (Some p) path i w = (0, w') /\ kept w w' /\
    pins w' = delete path (pins w).
Proof.
  intros Hi Hs Hl. unfold bpf_program__unpin_instance.
  rewrite (proj2 (check_path_ok path w)) by done. cbn. rewrite Hi.
  destruct (unlink_ok _ _ _ Hl) as (w' & E & Hd). exists w'. repeat split; [done| |done].
  intros d. by eapply statfs_unlink.
Qed.
End Placed.

(** *** One program *)

(** Where an instance goes and its descriptor; those of the first [i], newest first. *)
Definition instance_entry (p : bpf_program) (path : string) (i : nat) : string * Z :=
  (instance_path path i, nth i (instances p) (-1)).
Definition instance_entries (p : bpf_program) (path : string) (i : nat) : list (string * Z) :=
  instance_entry p path <$> rev (seq 0 i).

Lemma instance_entries_S p path i :
  instance_entries p path (S i) = instance_entry p path i :: instance_entries p path i.
Proof. unfold instance_entries. by rewrite seq_S, rev_app_distr. Qed.

Lemma instance_fd_nat p i fd : instance_fd p (Z.of_nat i) = Some fd -> nth i (instances p) (-1) = fd.
Proof.
  unfold instance_fd. destruct (_ || _); [done|]. rewrite Nat2Z.id.
  apply nth_lookup_Some.
Qed.

Lemma instance_fd_below p i : (i < List.length (instances p))%nat ->
  instance_fd p (Z.of_nat i) = Some (nth i (instances p) (-1)).
Proof.
  intros Hi. unfold instance_fd. rewrite (proj2 (Z.ltb_ge _ _)), (proj2 (Z.leb_gt _ _)) by lia.
  cbn [orb]. rewrite Nat2Z.id.
  destruct (lookup_lt_is_Some_2 (instances p) i Hi) as [fd E]. by rewrite E, (nth_lookup_Some _ _ (-1) _ E).
Qed.

Section Program.
Context {W : Type} `{RmdirLaws W}.
Implicit Types (w : W) (fs : gmap string Z).

Lemma unpin_instances_spec fs p path i w :
  (i <= List.length (instances p))%nat -> placed fs w (instance_entries p path i) (pins w) ->
  pins (unpin_instances p path i w) = fs /\ kept w (unpin_instances p path i w).
Proof.
  revert w. induction i as [|i IH]; intros w Hi Hp; [by inversion Hp|].
  rewrite instance_entries_S in Hp. inversion Hp as [|? ? ? fs1 Hp1 Hfit Hs Hn Hl Hw]; subst.
  cbn [unpin_instances]. rewrite Hfit.
  destruct (unpin_instance_own p (Z.of_nat i) (nth i (instances p) (-1)) (instance_path path i) w)
    as (w1 & -> & Hk & Hd); [by apply instance_fd_below|done|by rewrite <- Hw, lookup_insert_eq|].
  rewrite <- Hw, delete_insert_id in Hd by done. cbn [snd].
  destruct (IH w1) as [Hf Hk1]; [lia|rewrite Hd; by eapply placed_kept|].
  split; [done|by etrans].
Qed.

Lemma pin_instances_spec fs p path n i w err w' :
  (i + n)%nat = List.length (instances p) -> placed fs w (instance_entries p path i) (pins w) ->
  pin_instances n p path i w = (err, w') ->
  err <> 0 /\ pins w' = fs \/
  err = 0 /\ placed fs w' (instance_entries p path (i + n)) (pins w').
Proof.
  revert i w. induction n as [|n IH]; intros i w Hn Hp; cbn [pin_instances].
  { intros [= <- <-]. right. by rewrite Nat.add_0_r. }
  assert (forall w2, placed fs w2 (instance_entries p path i) (pins w2) ->
    pins (snd (sys_rmdir path (unpin_instances p path i w2))) = fs) as Hback.
  { intros w2 Hp2. destruct (unpin_instances_spec fs p path i w2) as [<- _]; [lia|done|].
    destruct (sys_rmdir path _) as [e w3] eqn:E. by eapply rmdir_pins. }
  destruct (fits_path (instance_path path i)) eqn:Hfit; cbn [negb].
  2:{ intros [= <- <-]. left. split; [done|]. by apply Hback. }
  destruct (bpf_program__pin_instance _ _ _ _) as [e w1] eqn:E.
  apply pin_instance_spec in E as [Hk [(-> & (fd & Hfd & Hnew & Hw1) & Hs)|[He Hw1]]].
  - cbn [negb Z.eqb]. replace (i + S n)%nat with (i + 1 + n)%nat by lia. apply IH; [lia|].
    rewrite Nat.add_1_r, instance_entries_S, Hw1. apply instance_fd_nat in Hfd as <-.
    constructor; [by eapply placed_kept|done..].
  - rewrite (proj2 (Z.eqb_neq e 0)) by done. cbn [negb]. intros [= <- <-]. left.
    split; [done|]. apply Hback. rewrite Hw1. by eapply placed_kept.
Qed.

(** What pinning a program makes, newest first. *)
Definition program_entries (p : bpf_program) (path : string) : list (string * Z) :=
  match instances p with
  | [fd] => [(path, fd)]
  | fds => instance_entries p path (List.length fds)
  end.

(** Pinning a program is all or nothing, however many instances it has. *)
Theorem program_pin_atomic p path w err w' :
  fits_path path = true -> bpf_program__pin (Some p) path w = (err, w') ->
  err <> 0 /\ pins w' = pins w \/
  err = 0 /\ instances p <> [] /\ placed (pins w) w' (program_entries p path) (pins w').
Proof.
  intros Hfit. unfold bpf_program__pin. destruct (make_parent_dir path w) as [e w1] eqn:E1.
  apply make_parent_kept in E1 as [Hp1 Hk1].
  destruct (Z.eqb_spec e 0) as [->|He]; cbn [negb]; [|intros [= <- <-]; by auto].
  destruct (Z.eqb_spec (check_path (Some path) w1) 0) as [Hc|Hc]; cbn [negb];
    [|intros [= <- <-]; by auto].
  unfold program_entries. destruct (instances p) as [|fd [|fd' fds]] eqn:Ei.
  - intros [= <- <-]. by left.
  - intros E. apply pin_instance_spec in E as [Hk [(-> & (fd1 & Hfd & Hnew & Hw1) & Hs)|[Hne Hw1]]].
    + right. unfold instance_fd in Hfd. rewrite Ei in Hfd. injection Hfd as <-.
      rewrite Hp1 in Hnew, Hw1. rewrite Hw1. repeat split; [done|].
      constructor; [constructor|done..].
    + left. by rewrite Hw1, Hp1.
  - rewrite <- Hp1, <- Ei. intros E. apply (pin_instances_spec (pins w1)) in E; [|done|constructor].
    cbn [Nat.add] in E. rewrite Ei in E |- *. destruct E as [?|[? ?]]; [by left|]. by right.
Qed.
End Program.

(** *** The programs of an object *)

(** Every program the loops visit has one instance: the kernel's, when no
    preprocessor multiplies them. *)
Definition single (o : bpf_object) : Prop :=
  forall i p, real_program o i = true -> programs o !! i = Some p -> exists fd, instances p = [fd].

Definition program_entry (o : bpf_object) (path : string) (i : nat) : string * Z :=
  match programs o !! i with
  | Some p => (program_path path p, nth 0 (instances p) (-1))
  | None => (path, -1)
  end.

Lemma single_entry o path i : single o -> real_program o i = true ->
  exists p fd, programs o !! i = Some p /\ instances p = [fd] /\
    program_entry o path i = (program_path path p, fd).
Proof.
  intros Hs Hr. pose proof (real_before _ _ Hr) as [p Hp]%lookup_lt_is_Some_2.
  destruct (Hs i p Hr Hp) as [fd Hfd]. exists p, fd. unfold program_entry. by rewrite Hp, Hfd.
Qed.

Lemma split_unique {A} (l1 l2 r1 r2 : list A) k :
  k ∉ l1 -> k ∉ l2 -> l1 ++ k :: r1 = l2 ++ k :: r2 -> l1 = l2.
Proof.
  revert l2. induction l1 as [|x l1 IH]; intros [|y l2] H1 H2; cbn; [done|set_solver..|].
  intros [= -> E]. f_equal. apply IH; set_solver.
Qed.

(** What the rollback visits is what the loop has done. *)
Lemma programs_back_done o before k rest :
  for_each_program o = before ++ k :: rest -> programs_back o k = rev before.
Proof.
  rewrite program_order. intros E.
  assert (List.In k (List.filter (real_program o) (seq 0 (List.length (programs o))))) as [Hk Hr]%List.filter_In
    by (rewrite E; apply in_app_iff; right; by left).
  apply in_seq in Hk. rewrite programs_back_spec by lia. f_equal.
  assert (NoDup (before ++ k :: rest)) as (Hb & Hnd & _)%NoDup_app
    by (rewrite <- E; apply NoDup_ListNoDup, List.NoDup_filter, NoDup_ListNoDup, NoDup_seq).
  eapply (split_unique _ _ (List.filter (real_program o) (seq (S k) (List.length (programs o) - S k))) rest k);
    [|set_solver|].
  - intros [Hin%in_seq _]%list_elem_of_In%List.filter_In. lia.
  - rewrite <- E. replace (List.length (programs o)) with (k + (1 + (List.length (programs o) - S k)))%nat at 2 by lia.
    rewrite !seq_app, !List.filter_app. cbn. rewrite Hr. do 2 f_equal. by rewrite Nat.add_1_r.
Qed.

Lemma visited_real o i : List.In i (for_each_program o) -> real_program o i = true.
Proof. rewrite program_order. by intros [_ ?]%List.filter_In. Qed.

Section Programs.
Context {W : Type} `{RmdirLaws W}.
Implicit Types (w : W) (fs : gmap string Z).

Lemma unpin_single p fd path w : instances p = [fd] ->
  sys_statfs (dirname path) w = inr true -> pins w !! path = Some fd ->
  exists w', bpf_program__unpin (Some p) path w = (0, w') /\ kept w w' /\ pins w' = delete path (pins w).
Proof.
  intros Hi Hs Hl. unfold bpf_program__unpin.
  rewrite (proj2 (check_path_ok path w)) by done. cbn [Z.eqb negb]. rewrite Hi.
  apply (unpin_instance_own p 0 fd); [|done..]. unfold instance_fd. by rewrite Hi.
Qed.

Lemma pin_single p fd path w err w' : instances p = [fd] ->
  bpf_program__pin (Some p) path w = (err, w') ->
  kept w w' /\
  (err = 0 /\ pins w !! path = None /\ pins w' = <[path := fd]> (pins w) /\
     sys_statfs (dirname path) w' = inr true \/
   err <> 0 /\ pins w' = pins w).
Proof.
  intros Hi. unfold bpf_program__pin. destruct (make_parent_dir path w) as [e w1] eqn:E1.
  apply make_parent_kept in E1 as [Hp1 Hk1].
  destruct (Z.eqb_spec e 0) as [->|He]; cbn [negb]; [|intros [= <- <-]; by auto].
  destruct (Z.eqb_spec (check_path (Some path) w1) 0) as [Hc|Hc]; cbn [negb];
    [|intros [= <- <-]; by auto].
  rewrite Hi. intros E. apply pin_instance_spec in E as [Hk E].
  split; [by etrans|]. rewrite <- Hp1. unfold instance_fd in E. rewrite Hi in E. cbn in E.
  destruct E as [(-> & (fd1 & [= <-] & Hn & Hw) & Hs)|E]; [left|by right]. done.
Qed.

Lemma unpin_programs_back_spec fs o path ks w : single o ->
  Forall (fun i => real_program o i = true) ks ->
  placed fs w (program_entry o path <$> ks) (pins w) ->
  exists w', unpin_programs_back o path ks w = Some w' /\ kept w w' /\ pins w' = fs.
Proof.
  intros Hsi Hks. revert w. induction Hks as [|i ks Hi Hks IH]; intros w Hp.
  { exists w. split; [done|]. split; [done|]. by inversion Hp. }
  destruct (single_entry o path i Hsi Hi) as (p & fd & Hpi & Hfd & He). cbn [fmap list_fmap] in Hp.
  rewrite He in Hp. inversion Hp as [|? ? ? fs1 Hp1 Hfit Hs Hn Hl Hw]; subst.
  cbn [unpin_programs_back]. rewrite Hpi. cbn [mbind option_bind]. rewrite Hfit.
  destruct (unpin_single p fd (program_path path p) w) as (w1 & -> & Hk & Hd);
    [done..|by rewrite <- Hw, lookup_insert_eq|]. cbn [snd].
  rewrite <- Hw, delete_insert_id in Hd by done.
  destruct (IH w1) as (w' & -> & Hk' & Hf); [rewrite Hd; by eapply placed_kept|].
  exists w'. repeat split; [by etrans|done].
Qed.

Lemma pin_programs_spec fs o path before ks w : single o ->
  for_each_program o = before ++ ks ->
  placed fs w (program_entry o path <$> rev before) (pins w) ->
  exists err w', pin_programs o path ks w = Some (err, w') /\ kept w w' /\
    (err <> 0 /\ pins w' = fs \/
     err = 0 /\ placed fs w' (program_entry o path <$> rev (for_each_program o)) (pins w')).
Proof.
  intros Hsi. revert before w. induction ks as [|i ks IH]; intros before w Hord Hp.
  { exists 0, w. rewrite Hord, app_nil_r. split; [done|]. split; [done|]. by right. }
  assert (Forall (fun i => real_program o i = true) (rev before)) as Hb.
  { apply list.Forall_forall. intros j Hj%list_elem_of_In%in_rev. apply visited_real. rewrite Hord.
    apply in_app_iff. by left. }
  assert (real_program o i = true) as Hi
    by (apply visited_real; rewrite Hord; apply in_app_iff; right; by left).
  assert (forall w err, placed fs w (program_entry o path <$> rev before) (pins w) -> err <> 0 ->
    exists e w', (w ← unpin_programs_back o path (programs_back o i) w; Some (err, w)) = Some (e, w') /\
      kept w w' /\ e <> 0 /\ pins w' = fs) as Hback.
  { intros w1 err Hp1 He. rewrite (programs_back_done o before i ks Hord).
    destruct (unpin_programs_back_spec fs o path (rev before) w1) as (w' & -> & ? & ?); [done..|].
    by exists err, w'. }
  destruct (single_entry o path i Hsi Hi) as (p & fd & Hpi & Hfd & He).
  cbn [pin_programs]. rewrite Hpi. cbn [mbind option_bind].
  destruct (fits_path (program_path path p)) eqn:Hfit; cbn [negb].
  2:{ destruct (Hback w (- ENAMETOOLONG) Hp) as (e & w' & E & ? & ? & ?); [done|].
      exists e, w'. by auto. }
  destruct (bpf_program__pin (Some p) (program_path path p) w) as [e w1] eqn:E.
  destruct (pin_single _ _ _ _ _ _ Hfd E) as [Hk [(-> & Hn & Hw1 & Hs)|[Hne Hw1]]].
  - cbn [negb Z.eqb]. destruct (IH (before ++ [i]) w1) as (e & w' & -> & Hk' & Hres).
    + by rewrite <- app_assoc.
    + rewrite rev_app_distr. cbn [rev app fmap list_fmap]. rewrite He, Hw1.
      constructor; [by eapply placed_kept|done..].
    + exists e, w'. split; [done|]. split; [by etrans|done].
  - rewrite (proj2 (Z.eqb_neq e 0)) by done. cbn [negb].
    destruct (Hback w1 e) as (e' & w' & E' & Hk' & ? & ?);
      [rewrite Hw1; by eapply placed_kept|done|].
    exists e', w'. split; [done|]. split; [by etrans|]. by left.
Qed.

Lemma unpin_programs_spec fs o path ks w : single o ->
  Forall (fun i => real_program o i = true) ks ->
  placed fs w (program_entry o path <$> rev ks) (pins w) ->
  exists w', unpin_programs o path ks w = Some (0, w') /\ pins w' = fs.
Proof.
  intros Hsi Hks. revert w. induction Hks as [|i ks Hi Hks IH]; intros w Hp.
  { exists w. split; [done|]. by inversion Hp. }
  destruct (single_entry o path i Hsi Hi) as (p & fd & Hpi & Hfd & He).
  cbn [rev] in Hp. rewrite fmap_app in Hp. cbn [fmap list_fmap] in Hp. rewrite He in Hp.
  apply placed_snoc in Hp as (Hfit & Hs & Hl & Hd).
  cbn [unpin_programs]. rewrite Hpi. cbn [mbind option_bind]. rewrite Hfit. cbn [negb].
  destruct (unpin_single p fd (program_path path p) w) as (w1 & -> & Hk & Hw1); [done..|].
  cbn [negb Z.eqb]. apply IH. rewrite Hw1. by eapply placed_kept.
Qed.

(** Unpinning the programs from the directory undoes pinning them there. *)
Theorem pin_unpin_programs o path w w' : single o ->
  bpf_object__pin_programs (Some o) path w = Some (0, w') ->
  exists w'', bpf_object__unpin_programs (Some o) path w' = Some (0, w'') /\ pins w'' = pins w.
Proof.
  intros Hsi. unfold bpf_object__pin_programs, bpf_object__unpin_programs.
  destruct (loaded o); cbn [negb]; [|done]. intros E.
  destruct (pin_programs_spec (pins w) o path [] (for_each_program o) w) as (e & w1 & E' & _ & Hres);
    [done..|constructor|].
  rewrite E in E'. injection E' as <- <-. destruct Hres as [[? _]|[_ Hp]]; [done|].
  apply unpin_programs_spec; [done| |done].
  apply list.Forall_forall. intros i Hi%list_elem_of_In. by apply visited_real.
Qed.

(** Where an object's maps and programs go, in the order in which they are pinned. *)
Definition object_entries (o : bpf_object) (dir : string) : list (string * Z) :=
  ((fun m => (join_path dir (map_name m), map_fd m)) <$> maps o) ++
  (program_entry o dir <$> for_each_program o).

Lemma maps_entries o dir fs :
  fold_right (fun m fs => match pin_path m with Some p => <[p := map_fd m]> fs | None => fs end)
    fs (rev (pinned_at dir <$> maps o)) =
  fold_left (fun fs e => <[e.1 := e.2]> fs)
    ((fun m => (join_path dir (map_name m), map_fd m)) <$> maps o) fs.
Proof.
  rewrite fold_left_rev_right. revert fs. induction (maps o) as [|m ms IH]; intros fs; [done|].
  cbn. apply IH.
Qed.

(** The programs are visited whatever the maps are. *)
Lemma visits_set_maps o ms : for_each_program (set_maps o ms) = for_each_program o.
Proof. by rewrite !program_order. Qed.

(** C24. Pinning a loaded object whose maps are not pinned and have no path, and whose
    programs have one instance each, is all or nothing: the run ends, and either it fails
    and the file system has the pins it had, those of the maps undone as well; or it
    succeeds, and every map and every program is pinned in the directory, each program
    under its section's name, and nothing else changed. *)
Theorem object_pin_atomic o dir w : loaded o = true -> Forall fresh_map (maps o) -> single o ->
  exists err o' w', bpf_object__pin (Some o) dir w = Some (err, o', w') /\
    (err <> 0 -> pins w' = pins w) /\
    (err = 0 -> o' = Some (set_maps o (pinned_at dir <$> maps o)) /\
       pins w' = fold_left (fun fs e => <[e.1 := e.2]> fs) (object_entries o dir) (pins w)).
Proof.
  intros Hl Hm Hsi. unfold bpf_object__pin, bpf_object__pin_maps, bpf_object__pin_programs.
  rewrite Hl. cbn [negb]. destruct (pin_loop (Some dir) [] (maps o) w) as [[e ms] w1] eqn:E.
  apply (pin_loop_spec _ (pins w)) in E as [[He Hw1]|(-> & -> & Hp & Hf)]; [| |done|constructor].
  { rewrite (proj2 (Z.eqb_neq e 0)) by done. cbn [negb]. eexists _, _, _.
    split; [done|]. split; [done|]. by intros ->. }
  cbn [negb Z.eqb rev app] in Hp |- *. cbn [loaded set_maps]. rewrite Hl. cbn [negb].
  set (o1 := set_maps o (pinned_at dir <$> maps o)).
  destruct (pin_programs_spec (pins w1) o1 dir [] (for_each_program o1) w1)
    as (e & w2 & -> & Hk & Hres); [exact Hsi|done|constructor|]. cbn [mbind option_bind].
  destruct Hres as [[He Hw2]|[-> Hp2]].
  - rewrite (proj2 (Z.eqb_neq e 0)) by done. cbn [negb bpf_object__unpin_maps maps set_maps].
    change (maps o1) with (pinned_at dir <$> maps o).
    destruct (unpin_loop_spec dir (pins w) (pinned_at dir <$> maps o) w2) as (ms' & w3 & -> & Hw3).
    + apply Forall_fmap, Forall_true. done.
    + by apply Forall_fmap.
    + rewrite Hw2. by eapply pinned_from_mono.
    + eexists _, _, w3. split; [done|]. split; [done|]. by intros ->.
  - cbn [negb Z.eqb]. eexists _, _, w2. split; [done|]. split; [done|]. intros _. split; [done|].
    apply placed_pins in Hp2. apply pinned_from_pins in Hp. rewrite Hp2, Hp. unfold object_entries.
    rewrite fold_left_app, <- maps_entries. unfold fmap at 1, list_fmap. rewrite map_rev, fold_left_rev_right.
    unfold o1. by rewrite visits_set_maps.
Qed.
End Programs.

(** ** An object with two programs *)

Module ObjectPinFs.
Import PinFs.

#[export] Instance rmdir_sys : RmdirSys t := { sys_rmdir _ w := (0, w) }.

#[export] Instance rmdir_laws : RmdirLaws t.
Proof. constructor. by intros d w e w' [= _ <-]. Defined.

Definition program (idx : Z) (title : string) (fds : list Z) : bpf_program :=
  BpfProgram idx title 0 0 0 fds.
Definition both : bpf_object :=
  BpfObject_ [program 3 "xdp/drop" [7]; program 4 "xdp/count" [8]] (maps object) true (-1) false.

(** The second program's path is taken: the first one and the maps are undone. *)
Definition occupied : t := Fs {["/sys/fs/bpf/eth0/xdp_count" := 9]} ∅ ∅.
Definition refused : option (Z * option bpf_object * t) := bpf_object__pin (Some both) dir occupied.

(** Every path of the file system above is empty. *)
Definition accepted : option (Z * option bpf_object * t) := bpf_object__pin (Some both) dir clean.

Example pinned_all : paths (snd (default (0, None, clean) accepted)) =
  list_to_map [("/sys/fs/bpf/eth0/logger", 3); ("/sys/fs/bpf/eth0/blacklist", 4);
    ("/sys/fs/bpf/eth0/data", 5); ("/sys/fs/bpf/eth0/xdp_drop", 7);
    ("/sys/fs/bpf/eth0/xdp_count", 8)]%string.
Proof. vm_compute. reflexivity. Qed.

(** A map that is pinned already loses that pin when pinning the object fails, and one
    pinned by the call keeps its pin when the path of a map before it has gone. *)
Definition with_maps (ms : list bpf_map) : bpf_object := set_maps both ms.
Definition pinned_map : bpf_map := set_pin (a_map 3 "logger") (Some "/sys/fs/bpf/eth0/logger") true.
Definition logger_pinned : t :=
  Fs {["/sys/fs/bpf/eth0/logger" := 3; "/sys/fs/bpf/eth0/xdp_count" := 9]} ∅ ∅.

Example earlier_pin_lost :
  (fun r => (fst (fst r), paths (snd r))) <$>
    bpf_object__pin (Some (with_maps [pinned_map])) dir logger_pinned =
  Some (- EEXIST, {["/sys/fs/bpf/eth0/xdp_count" := 9]}).
Proof. vm_compute. reflexivity. Qed.

Example new_pin_stays :
  (fun r => (fst (fst r), paths (snd r))) <$>
    bpf_object__pin (Some (with_maps [pinned_map; a_map 5 "data"])) dir occupied =
  Some (- EEXIST, {["/sys/fs/bpf/eth0/xdp_count" := 9; "/sys/fs/bpf/eth0/data" := 5]}).
Proof. vm_compute. reflexivity. Qed.

Lemma both_single : single both.
Proof. intros [|[|i]] p Hr Hp; try done; injection Hp as <-; by eexists. Qed.

(** One object, one directory free and one where a path is taken. *)
Lemma object_pin_atomic_witness : exists o1 w1 o2 w2,
  refused = Some (- EEXIST, o1, w1) /\ pins w1 = pins occupied /\
  accepted = Some (0, o2, w2) /\
  pins w2 = fold_left (fun fs e => <[e.1 := e.2]> fs) (object_entries both dir) (pins clean).
Proof.
  destruct (object_pin_atomic both dir occupied) as (e1 & o1 & w1 & E1 & Hf & _);
    [reflexivity|repeat constructor|exact both_single|].
  destruct (object_pin_atomic both dir clean) as (e2 & o2 & w2 & E2 & _ & Hs);
    [reflexivity|repeat constructor|exact both_single|].
  exists o1, w1, o2, w2.
  assert (fst (fst (default (0, None, clean) refused)) = - EEXIST) as F1 by (vm_compute; reflexivity).
  assert (fst (fst (default (1, None, clean) accepted)) = 0) as F2 by (vm_compute; reflexivity).
  unfold refused, accepted in *. rewrite E1 in F1. rewrite E2 in F2. cbn in F1, F2. subst e1 e2.
  split; [exact E1|]. split; [by apply Hf|]. split; [exact E2|]. by apply Hs.
Defined.

(** Two instances go in a directory of their own, unless one of them cannot. *)
Definition twice : bpf_program := program 3 "xdp" [7; 8].

Example instances_placed :
  paths (snd (bpf_program__pin (Some twice) "/sys/fs/bpf/p" clean)) =
    {[ "/sys/fs/bpf/p/0" := 7; "/sys/fs/bpf/p/1" := 8 ]}%string.
Proof. vm_compute. reflexivity. Qed.

Definition half_taken : t := Fs {["/sys/fs/bpf/p/1" := 9]} ∅ ∅.

Lemma program_pin_atomic_witness :
  let '(err, w) := bpf_program__pin (Some twice) "/sys/fs/bpf/p" half_taken in
  err = - EEXIST /\ pins w = pins half_taken.
Proof.
  destruct (bpf_program__pin (Some twice) "/sys/fs/bpf/p" half_taken) as [err w] eqn:E.
  assert (err = - EEXIST) as He
    by (change err with (fst (err, w)); rewrite <- E; vm_compute; reflexivity).
  split; [exact He|].
  destruct (program_pin_atomic twice "/sys/fs/bpf/p" half_taken err w) as [[_ Hw]|[Hz _]];
    [reflexivity|exact E|exact Hw|]. rewrite He in Hz. discriminate Hz.
Defined.

Lemma pin_unpin_programs_witness :
  exists w', bpf_object__pin_programs (Some both) dir clean = Some (0, w') /\
  exists w'', bpf_object__unpin_programs (Some both) dir w' = Some (0, w'') /\ pins w'' = pins clean.
Proof.
  destruct (bpf_object__pin_programs (Some both) dir clean) as [[e w']|] eqn:E.
  2:{ exfalso. revert E. vm_compute. discriminate. }
  assert (e = 0) as -> by (assert (fst <$> bpf_object__pin_programs (Some both) dir clean = Some 0) as F
    by (vm_compute; reflexivity); rewrite E in F; by injection F).
  exists w'. split; [reflexivity|]. apply (pin_unpin_programs both dir clean w'); [exact both_single|exact E].
Defined.
End ObjectPinFs.
