(* ===== verification/BtfPass.v ===== *)
(** * Passes that rewrite a BTF

    Some functions write into the types of a BTF, over bytes they still read.  This
    file has the writes, what a write leaves alone, and the rule by which a pass over
    the types is judged: each step changes its type beyond the name, and strings only
    by turning dots into underscores. *)

From S2P Require Import Prelude Packet Btf.
From Stdlib Require Import Ascii String.

Local Open Scope Z_scope.

#[local] Abbreviation bytes := (list Z).

Section Writes.
Context `{HostOrder}.

(** ** Writing into a BTF *)

Definition put32 (b : btf) (off : nat) (v : Z) : option btf :=
  d ← write32 (data b) off v; Some (set_data b d).
Definition set_info (b : btf) (off : nat) (v : Z) : option btf := put32 b (off + 4) v.
Definition set_size (b : btf) (off : nat) (v : Z) : option btf := put32 b (off + 8) v.

(** Entry [i] of the variables of a section: 12 bytes, as a member of a structure. *)
Definition slot (off i : nat) : nat := (off + 12 + 12 * i)%nat.

Definition read_secinfo (d : bytes) (v : nat) : option btf_var_secinfo :=
  t ← read32 d v; o ← read32 d (v + 4); s ← read32 d (v + 8); Some (VarSecinfo t o s).

Fixpoint read_secinfos (d : bytes) (v n : nat) : option (list btf_var_secinfo) :=
  match n with
  | O => Some []
  | S n => vi ← read_secinfo d v; l ← read_secinfos d (v + 12) n; Some (vi :: l)
  end.

Definition enc_secinfo (vi : btf_var_secinfo) : bytes :=
  enc_words [vsi_type vi; vsi_offset vi; vsi_size vi].
Definition enc_secinfos (l : list btf_var_secinfo) : bytes := List.concat (enc_secinfo <$> l).
End Writes.

(** ** Reading around a write *)

(** The bytes at the positions [P] are the same. *)
Definition same (P : nat -> Prop) (d d' : bytes) : Prop :=
  List.length d' = List.length d /\ forall i, P i -> d' !! i = d !! i.

Lemma same_refl P d : same P d d.
Proof. done. Qed.

Lemma same_trans P d d1 d2 : same P d d1 -> same P d1 d2 -> same P d d2.
Proof. intros [L1 H1] [L2 H2]. split; [congruence|]. intros i Hi. by rewrite H2, H1. Qed.

Lemma same_weaken (P Q : nat -> Prop) d d' : same P d d' -> (forall i, Q i -> P i) -> same Q d d'.
Proof. intros [L Hs] HQ. split; [done|]. auto. Qed.

Lemma same_read_bytes P d d' off n :
  same P d d' -> (forall i, (off <= i < off + n)%nat -> P i) ->
  read_bytes d' off n = read_bytes d off n.
Proof.
  intros [L Hs] HP. unfold read_bytes. rewrite L. case_decide as Hl; [|done]. f_equal.
  apply list_eq. intros i. destruct (decide (i < n)%nat) as [Hi|Hi].
  - rewrite !lookup_take_lt, !lookup_drop by done. apply Hs, HP. lia.
  - by rewrite !lookup_take_ge by lia.
Qed.

Lemma write_same d off bs d' :
  write_bytes d off bs = Some d' ->
  same (fun i => (i < off \/ off + List.length bs <= i)%nat) d d'.
Proof.
  intros Hw. split; [by eapply length_write|]. revert Hw. unfold write_bytes.
  case_decide as Hl; [|done]. intros [= <-] i [Hi|Hi].
  - by rewrite lookup_app_l, lookup_take_lt by (rewrite ?length_take; lia).
  - rewrite lookup_app_r, length_take by (rewrite length_take; lia).
    rewrite lookup_app_r, lookup_drop by lia. f_equal. lia.
Qed.

Section Reads.
Context `{HostOrder}.
Implicit Types (d : bytes) (b : btf).

Lemma same_read32 P d d' off :
  same P d d' -> (forall i, (off <= i < off + 4)%nat -> P i) -> read32 d' off = read32 d off.
Proof. intros Hs HP. unfold read32. by erewrite same_read_bytes. Qed.

Lemma same_read_type P d d' off :
  same P d d' -> (forall i, (off <= i < off + 12)%nat -> P i) -> read_type d' off = read_type d off.
Proof.
  intros Hs HP. unfold read_type.
  rewrite !(same_read32 P d d') by (done || intros; apply HP; lia). done.
Qed.

Lemma write32_read d off v d' : write32 d off v = Some d' -> read32 d' off = Some (v mod 2 ^ 32).
Proof.
  intros Hw. unfold read32. apply read_write_same in Hw. rewrite length_store in Hw.
  rewrite Hw. cbn [fmap option_fmap option_map]. by rewrite load_store.
Qed.

Lemma write32_same d off v d' :
  write32 d off v = Some d' -> same (fun i => (i < off \/ off + 4 <= i)%nat) d d'.
Proof. intros Hw%write_same. by rewrite length_store in Hw. Qed.

Lemma write32_in d off v : (off + 4 <= List.length d)%nat -> is_Some (write32 d off v).
Proof. intros. unfold write32. rewrite write_bytes_Some by (by rewrite length_store). by eexists. Qed.

Lemma read32_len d off v : read32 d off = Some v -> (off + 4 <= List.length d)%nat.
Proof. unfold read32, read_bytes. by case_decide. Qed.

(** [b'] is [b] with other bytes. *)
Definition rewritten b b' : Prop := b' = set_data b (data b').

Lemma rewritten_refl b : rewritten b b.
Proof. by destruct b. Qed.

Lemma rewritten_trans b b1 b2 : rewritten b b1 -> rewritten b1 b2 -> rewritten b b2.
Proof. unfold rewritten. by intros -> ->. Qed.

Lemma put32_spec b off v b' :
  put32 b off v = Some b' ->
  rewritten b b' /\ same (fun i => (i < off \/ off + 4 <= i)%nat) (data b) (data b') /\
  read32 (data b') off = Some (v mod 2 ^ 32).
Proof.
  unfold put32. intros (d & Hw & [= <-])%bind_Some. cbn [data set_data].
  split; [done|]. split; [by eapply write32_same|by eapply write32_read].
Qed.

Lemma put32_in b off v : (off + 4 <= List.length (data b))%nat -> is_Some (put32 b off v).
Proof. intros [d Hd]%(write32_in _ _ v). unfold put32. rewrite Hd. by eexists. Qed.
Lemma put32_bytes b off v b' :
  put32 b off v = Some b' -> Forall byte_ok (data b) -> Forall byte_ok (data b').
Proof.
  unfold put32, write32, write_bytes. case_decide; [|done]. intros [= <-] Hb. cbn.
  apply list.Forall_app. split; [by apply Forall_take|]. apply list.Forall_app.
  split; [apply store_ok|by apply Forall_drop].
Qed.

Lemma read_type_words d off t : read_type d off = Some t <->
  read32 d off = Some (name_off t) /\ read32 d (off + 4) = Some (info t) /\
  read32 d (off + 8) = Some (size_type t).
Proof.
  unfold read_type. split.
  - by intros (? & -> & (? & -> & (? & -> & [= <-])%bind_Some)%bind_Some)%bind_Some.
  - intros (-> & -> & ->). by destruct t.
Qed.

Lemma read_secinfo_in d v : (v + 12 <= List.length d)%nat -> is_Some (read_secinfo d v).
Proof.
  intros Hl. unfold read_secinfo. destruct (read32_in d v) as [a ->]; [lia|].
  destruct (read32_in d (v + 4)) as [o ->]; [lia|].
  destruct (read32_in d (v + 8)) as [s ->]; [lia|]. by eexists.
Qed.

End Reads.
(** ** Passes over the types *)

Section Pass.
Context `{HostOrder}.
Implicit Types (d : bytes) (b : btf) (offs : list nat).

(** The bytes a type takes. *)
Definition extent d (off : nat) : nat :=
  match read_type d off with Some t => Z.to_nat (btf_type_size t) | None => O end.

(** The types end before the strings. *)
Definition fits b : Prop := Forall (fun off => (off + extent (data b) off <= strings b)%nat) (types b).

Lemma vlen_bounds t : 0 <= btf_vlen t < 2 ^ 16.
Proof.
  unfold btf_vlen. change 65535 with (Z.ones 16). rewrite Z.land_ones by lia.
  apply Z.mod_pos_bound. lia.
Qed.

Lemma extent_var b off t : read_type (data b) off = Some t -> btf_is_var t = true ->
  extent (data b) off = 16%nat.
Proof.
  unfold extent, btf_is_var, is_kind. intros -> Hk%Z.eqb_eq. unfold btf_type_size. by rewrite Hk.
Qed.

Lemma extent_datasec b off t : read_type (data b) off = Some t -> btf_is_datasec t = true ->
  extent (data b) off = (12 + 12 * Z.to_nat (btf_vlen t))%nat.
Proof.
  unfold extent, btf_is_datasec, is_kind. intros -> Hk%Z.eqb_eq. unfold btf_type_size. rewrite Hk. cbn.
  pose proof (vlen_bounds t). lia.
Qed.

Lemma tiled_lookup d next fin offs off :
  tiled d next fin offs -> off ∈ offs ->
  (next <= off)%nat /\ (12 <= extent d off)%nat /\
  exists t, read_type d off = Some t /\ extent d off = Z.to_nat (btf_type_size t).
Proof.
  revert next. induction offs as [|o offs IH]; intros next; [by intros _ ?%elem_of_nil|].
  cbn [tiled]. intros (-> & Hlt & t & Ht & Hs & Htile) [->|Hin]%list.elem_of_cons.
  - unfold extent. rewrite Ht. split; [done|].
    split; [|by exists t]. destruct (type_size_bounds t); lia.
  - destruct (IH _ Htile Hin) as (Hn & He & Hr). split; [lia|]. done.
Qed.

(** Of two types, one ends where the other begins or before. *)
Lemma tiled_apart d next fin offs off off' :
  tiled d next fin offs -> off ∈ offs -> off' ∈ offs -> off <> off' ->
  (off + extent d off <= off' \/ off' + extent d off' <= off)%nat.
Proof.
  revert next. induction offs as [|o offs IH]; intros next; [by intros _ ?%elem_of_nil|].
  cbn [tiled]. intros (-> & Hlt & t & Ht & Hs & Htile).
  assert (extent d next = Z.to_nat (btf_type_size t)) as E by (unfold extent; by rewrite Ht).
  intros [->|Hin]%list.elem_of_cons [->|Hin']%list.elem_of_cons Hne; [done| | |by eapply IH].
  - left. rewrite E. by destruct (tiled_lookup _ _ _ _ _ Htile Hin').
  - right. rewrite E. by destruct (tiled_lookup _ _ _ _ _ Htile Hin).
Qed.

(** Other types of the same sizes in the same places. *)
Lemma tiled_resized d d' next fin offs :
  tiled d next fin offs ->
  (forall off t, off ∈ offs -> read_type d off = Some t ->
     exists t', read_type d' off = Some t' /\ btf_type_size t' = btf_type_size t) ->
  tiled d' next fin offs.
Proof.
  revert next. induction offs as [|o offs IH]; intros next; [done|].
  cbn [tiled]. intros (-> & Hlt & t & Ht & Hs & Htile) Hall. split; [done|]. split; [done|].
  destruct (Hall next t) as (t' & Ht' & E); [by left|done|]. exists t'. rewrite E.
  split; [done|]. split; [done|]. apply IH; [done|]. intros off t0 Hin. apply Hall. by right.
Qed.

Lemma tiled_NoDup d next fin offs : tiled d next fin offs -> NoDup offs.
Proof.
  revert next. induction offs as [|o offs IH]; intros next; [by constructor|].
  cbn [tiled]. intros (-> & Hlt & t & Ht & Hs & Htile). apply list.NoDup_cons. split; [|by eapply IH].
  intros Hin. destruct (tiled_lookup _ _ _ _ _ Htile Hin).
  destruct (type_size_bounds t); lia.
Qed.

(** From [p] on, dots may have become underscores. *)
Definition dotted (p : nat) d d' : Prop :=
  forall i, (p <= i)%nat -> d' !! i = d !! i \/ d !! i = Some 46 /\ d' !! i = Some 95.

Lemma dotted_refl p d : dotted p d d.
Proof. by left. Qed.

Lemma dotted_trans p d d1 d2 : dotted p d d1 -> dotted p d1 d2 -> dotted p d d2.
Proof.
  intros H1 H2 i Hi. destruct (H1 i Hi) as [E1|[E1 E1']], (H2 i Hi) as [E2|[E2 E2']];
    rewrite ?E1, ?E1' in *; auto; try congruence.
Qed.

Lemma dotted_keeps p d d' i c : dotted p d d' -> (p <= i)%nat -> d !! i = Some c -> c <> 46 -> d' !! i = Some c.
Proof. intros Hd Hi Hc Hne. destruct (Hd i Hi) as [->|[E _]]; congruence. Qed.

(** What rewriting the type at [off], of [n] bytes, does: its name stays, only the
    strings change beside it. *)
Record step b b' (off n : nat) : Prop := {
  step_rewritten : rewritten b b';
  step_same : same (fun i => i < off + 4 \/ off + n <= i < strings b)%nat (data b) (data b');
  step_strings : dotted (strings b) (data b) (data b');
  step_bytes : Forall byte_ok (data b) -> Forall byte_ok (data b');
}.

Lemma step_refl b off n : step b b off n.
Proof. by split; [apply rewritten_refl|apply same_refl|apply dotted_refl|]. Qed.

Lemma step_trans b b1 b2 off n : step b b1 off n -> step b1 b2 off n -> step b b2 off n.
Proof.
  intros [R1 S1 D1 B1] [R2 S2 D2 B2]. rewrite R1 in S2, D2. cbn in S2, D2.
  split; [by eapply rewritten_trans|by eapply same_trans|by eapply dotted_trans|auto].
Qed.

Context (b0 : btf) (Post : bytes -> nat -> Prop).

(** A pass over [b0] that has reached [b], with the types [todo] left. *)
Record passed (todo : list nat) b : Prop := {
  passed_rewritten : rewritten b0 b;
  passed_hdr : same (fun i => i < nohdr (type_off (hdr b0)))%nat (data b0) (data b);
  passed_names : forall off, off ∈ types b0 ->
    same (fun i => off <= i < off + 4)%nat (data b0) (data b);
  passed_todo : forall off, off ∈ todo ->
    same (fun i => off <= i < off + extent (data b0) off)%nat (data b0) (data b);
  passed_done : forall off, off ∈ types b0 -> off ∉ todo -> Post (data b) off;
  passed_strings : dotted (strings b0) (data b0) (data b);
  passed_bytes : Forall byte_ok (data b0) -> Forall byte_ok (data b);
}.

(** [Post] speaks of the bytes of the type, of the names of the types and of strings
    without dots only. *)
Definition local : Prop := forall d d' off,
  off ∈ types b0 -> Post d off ->
  same (fun i => off <= i < off + extent (data b0) off)%nat d d' ->
  (forall off', off' ∈ types b0 -> same (fun i => off' <= i < off' + 4)%nat d d') ->
  dotted (strings b0) d d' -> Post d' off.

Context (Hwf : wf b0) (Hfits : fits b0) (Hbytes : Forall byte_ok (data b0)).

Lemma passed_start : passed (types b0) b0.
Proof.
  split; try done; [apply rewritten_refl|apply dotted_refl].
Qed.

Lemma type_place off : off ∈ types b0 ->
  (nohdr (type_off (hdr b0)) <= off)%nat /\ (12 <= extent (data b0) off)%nat /\
  (off + extent (data b0) off <= strings b0)%nat /\
  exists t, read_type (data b0) off = Some t /\ extent (data b0) off = Z.to_nat (btf_type_size t).
Proof.
  intros Hin. destruct (tiled_lookup _ _ _ _ _ (wf_types _ Hwf) Hin) as (Hn & He & Ht).
  unfold fits in Hfits. rewrite list.Forall_forall in Hfits. auto.
Qed.

(** Others stay outside what a step on [off] changes. *)
Lemma step_spares b b' off off' :
  rewritten b0 b -> off ∈ types b0 -> off' ∈ types b0 -> off <> off' ->
  step b b' off (extent (data b0) off) ->
  same (fun i => off' <= i < off' + extent (data b0) off')%nat (data b) (data b').
Proof.
  intros Hrw Hin Hin' Hne [_ Hs _ _]. eapply same_weaken; [exact Hs|]. intros i Hi. cbn.
  rewrite Hrw. cbn [strings set_data].
  destruct (tiled_apart _ _ _ _ off off' (wf_types _ Hwf) Hin Hin' Hne) as [Ha|Ha];
    destruct (type_place off' Hin') as (_ & _ & Hend & _); lia.
Qed.

Lemma step_names b b' off off' :
  rewritten b0 b -> off ∈ types b0 -> off' ∈ types b0 ->
  step b b' off (extent (data b0) off) ->
  same (fun i => off' <= i < off' + 4)%nat (data b) (data b').
Proof.
  intros Hrw Hin Hin' Hstep. destruct (decide (off = off')) as [<-|Hne].
  - eapply same_weaken; [apply Hstep|]. cbn. lia.
  - eapply same_weaken; [by apply (step_spares b b' off off')|]. cbn.
    destruct (type_place off' Hin') as (_ & He & _). lia.
Qed.

Lemma passed_step off todo b b' :
  local -> off ∈ types b0 -> (forall o, o ∈ todo -> o ∈ types b0) -> off ∉ todo ->
  passed (off :: todo) b -> step b b' off (extent (data b0) off) -> Post (data b') off ->
  passed todo b'.
Proof.
  intros Hlocal Hin Htodo Hout [Hrw Hh Hn Ht Hd Hstr Hb] Hstep Hpost.
  assert (strings b = strings b0) as Es by (by rewrite Hrw).
  assert (forall off', off' ∈ types b0 ->
    same (fun i => off' <= i < off' + 4)%nat (data b) (data b')) as Hnames
    by (intros off' Hin'; by apply (step_names b b' off off')).
  pose proof Hstep as [Hrw' Hs Hstr' Hb']. rewrite Es in Hstr'. split.
  - by eapply rewritten_trans.
  - eapply same_trans; [done|]. eapply same_weaken; [exact Hs|]. cbn.
    destruct (type_place off Hin). lia.
  - intros off' Hin'. eapply same_trans; [by apply Hn|by apply Hnames].
  - intros off' Hin'. eapply same_trans; [apply Ht; by right|].
    eapply step_spares; eauto. by intros ->.
  - intros off' Hin' Hout'. destruct (decide (off' = off)) as [->|Hne]; [done|].
    eapply Hlocal; [done|apply Hd; [done|]| |done|done].
    + by intros [?|?]%list.elem_of_cons.
    + by apply (step_spares b b' off off').
  - by eapply dotted_trans.
  - auto.
Qed.

Lemma parse_hdr_same d d' :
  same (fun i => i < 24)%nat d d' -> btf_parse_hdr d' = btf_parse_hdr d.
Proof.
  intros Hs. assert (read_hdr d' = read_hdr d) as E.
  { unfold read_hdr, read16, read8, read32.
    rewrite !(same_read_bytes _ d d' _ _ Hs) by (intros; lia). done. }
  unfold btf_parse_hdr. by rewrite E, (proj1 Hs).
Qed.

(** A complete pass that keeps the sizes keeps the BTF well-formed. *)
Lemma passed_wf b :
  (forall off t, off ∈ types b0 -> read_type (data b0) off = Some t -> Post (data b) off ->
     exists t', read_type (data b) off = Some t' /\ btf_type_size t' = btf_type_size t) ->
  passed [] b -> wf b /\ Forall byte_ok (data b).
Proof.
  intros Hsize [Hrw Hh _ _ Hd Hstr Hb]. split; [|auto].
  destruct Hwf as [Wh Wt Wc Wn Ws Wl Wf Wlast].
  destruct (parse_hdr_spec _ _ Wh) as (_ & Hr & _ & Hoff).
  apply read_hdr_bounds in Hr as (Ht0 & _ & _); [|done].
  rewrite Hrw. split; cbn [data hdr types strings set_data]; try done.
  - rewrite <- Wh. apply parse_hdr_same. eapply same_weaken; [exact Hh|]. cbn.
    unfold nohdr, sizeof_btf_header. lia.
  - eapply tiled_resized; [done|]. intros off t Hin Ht. apply Hsize; [done..|].
    apply Hd; [done|]. by apply not_elem_of_nil.
  - by eapply dotted_keeps.
  - eapply dotted_keeps; [done|lia|done|done].
Qed.

(** Nor does it make a type longer. *)
Lemma passed_fits b :
  (forall off t, read_type (data b0) off = Some t -> Post (data b) off ->
     exists t', read_type (data b) off = Some t' /\ btf_type_size t' = btf_type_size t) ->
  passed [] b -> fits b.
Proof.
  intros Hsize [Hrw _ _ _ Hd _ _]. unfold fits. rewrite list.Forall_forall. intros off Hin.
  assert (types b = types b0) as Et by (by rewrite Hrw). rewrite Et in Hin.
  assert (strings b = strings b0) as -> by (by rewrite Hrw).
  destruct (type_place off Hin) as (_ & _ & Hf & t & Ht & He).
  destruct (Hsize off t Ht) as (t' & Ht' & Es); [apply Hd; [done|by apply not_elem_of_nil]|].
  unfold extent at 1. rewrite Ht', Es. by rewrite He in Hf.
Qed.
End Pass.
