(* ===== verification/BtfSanitize.v ===== *)
(** * BTF for older kernels

    Models [bpf_object__sanitize_btf] of [libbpf/src/libbpf.c], which replaces in place
    the kinds of types a kernel does not have: variables and sections, functions and
    their prototypes. *)

From S2P Require Import Prelude Packet BpfMap BpfCalls BpfObject BpfLoad BpfOpen Btf BtfPass.
From Stdlib Require Import Ascii String.
From stdpp Require Import list.

Local Open Scope Z_scope.

#[local] Abbreviation bytes := (list Z).

Definition btf_is_func (t : btf_type) : bool := is_kind BTF_KIND_FUNC t.
Definition btf_is_func_proto (t : btf_type) : bool := is_kind BTF_KIND_FUNC_PROTO t.

Section Operations.
Context `{HostOrder}.

(** ** [bpf_object__sanitize_btf] *)

Definition BTF_INT_ENC (encoding bits_offset nr_bits : Z) : Z :=
  Z.lor (Z.lor (Z.shiftl encoding 24) (Z.shiftl bits_offset 16)) nr_bits.

(** Up to the final zero, every dot (46) becomes an underscore (95). *)
Fixpoint underscored (bs : bytes) : option bytes :=
  match bs with
  | [] => None
  | c :: bs =>
      if c =? 0 then Some (c :: bs) else
      cs ← underscored bs; Some ((if c =? 46 then 95 else c) :: cs)
  end.

Definition replace_dots (b : btf) (p : nat) : option btf :=
  cs ← underscored (drop p (data b)); Some (set_data b (take p (data b) ++ cs)).

(** The loop over the variables of a section, [n] from the one at [v] on: each
    becomes a member of the structure in its own place. *)
Fixpoint members_of_vars (b : btf) (v n : nat) : option btf :=
  match n with
  | O => Some b
  | S n =>
      o ← read32 (data b) (v + 4);
      b ← put32 b (v + 8) (u32 (o * 8));
      ty ← read32 (data b) v;
      b ← put32 b (v + 4) ty;
      ty ← read32 (data b) v;
      r ← btf__type_by_id b ty;
      vt ← deref b r;
      b ← put32 b v (name_off vt);
      members_of_vars b (v + 12) n
  end.

(** The body of the loop, for the type at [off]. *)
Definition sanitize_type (c : bpf_capabilities) (b : btf) (off : nat) : option btf :=
  t ← read_type (data b) off;
  if negb (cap_btf_datasec c) && btf_is_var t then
    b ← set_info b off (BTF_INFO_ENC BTF_KIND_INT 0);
    b ← set_size b off 1;
    put32 b (off + 12) (BTF_INT_ENC 0 0 8)
  else if negb (cap_btf_datasec c) && btf_is_datasec t then
    p ← btf__name_by_offset b (name_off t);
    b ← replace_dots b p;
    t ← read_type (data b) off;
    let vlen := btf_vlen t in
    b ← set_info b off (BTF_INFO_ENC BTF_KIND_STRUCT vlen);
    members_of_vars b (off + 12) (Z.to_nat vlen)
  else if negb (cap_btf_func c) && btf_is_func_proto t then
    b ← set_info b off (BTF_INFO_ENC BTF_KIND_ENUM (btf_vlen t));
    set_size b off 4
  else if negb (cap_btf_func c) && btf_is_func t then
    set_info b off (BTF_INFO_ENC BTF_KIND_TYPEDEF 0)
  else Some b.

Fixpoint sanitize_types (c : bpf_capabilities) (b : btf) (offs : list nat) : option btf :=
  match offs with
  | [] => Some b
  | off :: offs => b ← sanitize_type c b off; sanitize_types c b offs
  end.

Definition bpf_object__sanitize_btf (c : bpf_capabilities) (b : btf) : option btf :=
  if cap_btf_func c && cap_btf_datasec c then Some b else sanitize_types c b (types b).
End Operations.

(** ** The kinds of types after sanitizing *)

Lemma info_kind k vlen : 0 <= k < 16 -> 0 <= vlen < 2 ^ 16 ->
  0 <= BTF_INFO_ENC k vlen < 2 ^ 32 /\
  forall nm s, btf_kind (BtfType nm (BTF_INFO_ENC k vlen) s) = k /\
    btf_vlen (BtfType nm (BTF_INFO_ENC k vlen) s) = vlen.
Proof.
  intros Hk Hv. assert (BTF_INFO_ENC k vlen = vlen + k * 2 ^ 24) as E.
  { unfold BTF_INFO_ENC. change 65535 with (Z.ones 16). rewrite Z.land_ones, Z.mod_small by lia.
    rewrite Z.shiftl_mul_pow2, Z.lor_comm by lia. symmetry. apply Z.add_nocarry_lor.
    apply Z.bits_inj'. intros n Hn. rewrite Z.land_spec, Z.bits_0.
    destruct (Z.lt_ge_cases n 24).
    - by rewrite Z.mul_pow2_bits_low, andb_false_r by lia.
    - rewrite (Z.bits_above_log2 vlen n); [done|lia|].
      destruct (Z.eq_dec vlen 0) as [->|]; [cbn; lia|]. apply Z.log2_lt_pow2; [lia|].
      eapply Z.lt_le_trans; [apply Hv|]. apply Z.pow_le_mono_r; lia. }
  split; [lia|]. intros nm s. unfold btf_kind, btf_vlen. cbn [info]. rewrite E.
  change 15 with (Z.ones 4). change 65535 with (Z.ones 16).
  rewrite !Z.land_ones, Z.shiftr_div_pow2 by lia. Z.to_euclidean_division_equations. lia.
Qed.

(** What becomes of a type. *)
Definition sanitized (c : bpf_capabilities) (t : btf_type) : btf_type :=
  let no_datasec := negb (cap_btf_datasec c) in
  let no_func := negb (cap_btf_func c) in
  let as_kind k vlen := BtfType (name_off t) (BTF_INFO_ENC k vlen) in
  if no_datasec && btf_is_var t then as_kind BTF_KIND_INT 0 1 else
  if no_datasec && btf_is_datasec t then as_kind BTF_KIND_STRUCT (btf_vlen t) (size_type t) else
  if no_func && btf_is_func_proto t then as_kind BTF_KIND_ENUM (btf_vlen t) 4 else
  if no_func && btf_is_func t then as_kind BTF_KIND_TYPEDEF 0 (size_type t) else t.

(** The kinds a kernel knows. *)
Definition supported (c : bpf_capabilities) (k : Z) : Prop :=
  (cap_btf_datasec c = false -> k <> BTF_KIND_VAR /\ k <> BTF_KIND_DATASEC) /\
  (cap_btf_func c = false -> k <> BTF_KIND_FUNC /\ k <> BTF_KIND_FUNC_PROTO).

Lemma kind_enc k vlen nm s : 0 <= k < 16 -> 0 <= vlen < 2 ^ 16 ->
  btf_kind (BtfType nm (BTF_INFO_ENC k vlen) s) = k.
Proof. intros. by apply info_kind. Qed.

Lemma vlen_enc k vlen nm s : 0 <= k < 16 -> 0 <= vlen < 2 ^ 16 ->
  btf_vlen (BtfType nm (BTF_INFO_ENC k vlen) s) = vlen.
Proof. intros. by apply info_kind. Qed.

Lemma sanitized_spec c t :
  btf_type_size (sanitized c t) = btf_type_size t /\ supported c (btf_kind (sanitized c t)) /\
  name_off (sanitized c t) = name_off t.
Proof.
  pose proof (vlen_bounds t) as Hv. unfold sanitized, btf_is_var, btf_is_datasec, btf_is_func,
    btf_is_func_proto, is_kind, supported.
  destruct (cap_btf_datasec c), (cap_btf_func c); cbn [negb andb];
  repeat match goal with
  | |- context [?a =? ?b] => destruct (Z.eqb_spec a b) as [?|?]
  end; (split; [|split; [|done]]); rewrite ?kind_enc by done;
  try (by split; intros; try done); unfold btf_type_size;
  rewrite ?kind_enc, ?vlen_enc by done;
  match goal with E : btf_kind t = _ |- _ => rewrite E; done | _ => idtac end.
Qed.

(** ** Variables that become members *)

Section Members.
Context `{HostOrder}.
Implicit Types (d : bytes) (b : btf).

Definition read_member d (v : nat) : option btf_member :=
  nm ← read32 d v; t ← read32 d (v + 4); o ← read32 d (v + 8); Some (BtfMember nm t o).

Lemma member_at_read b off i : btf_member_at b off i = read_member (data b) (slot off i).
Proof. done. Qed.

(** The name of type [id]. *)
Definition type_name b (id : Z) : option Z :=
  r ← btf__type_by_id b id;
  match r with Void => Some 0 | At off => read32 (data b) off end.

(** The member a variable of a section becomes. *)
Definition member_of b (vi : btf_var_secinfo) (m : btf_member) : Prop :=
  type_name b (vsi_type vi) = Some (m_name_off m) /\
  m_type m = vsi_type vi /\ m_offset m = u32 (8 * vsi_offset vi).

(** A read of 32 bits that a step left alone. *)
Ltac same32 Hs := rewrite !(same_read32 _ _ _ _ Hs) by (intros; cbn; lia).

Lemma read_secinfo_word d v vi : Forall byte_ok d -> read_secinfo d v = Some vi ->
  read32 d v = Some (vsi_type vi) /\ read32 d (v + 4) = Some (vsi_offset vi) /\
  (v + 12 <= List.length d)%nat /\ 0 <= vsi_type vi < 2 ^ 32 /\ 0 <= vsi_offset vi < 2 ^ 32.
Proof.
  unfold read_secinfo. intros Hb (t & Ht & (o & Ho & (s & Hs & [= <-])%bind_Some)%bind_Some)%bind_Some.
  cbn. split; [done|]. split; [done|]. split; [apply read32_len in Hs; lia|].
  by split; eapply read32_bounds.
Qed.

Context (b0 : btf) (Hb0 : Forall byte_ok (data b0)).
Context (Hread : forall off, off ∈ types b0 -> (off + 12 <= List.length (data b0))%nat).

(** Every type still has its name in [d]. *)
Definition names_in d : Prop :=
  List.length d = List.length (data b0) /\
  forall off, off ∈ types b0 -> read32 d off = read32 (data b0) off.

Lemma type_name_deref b id nm :
  rewritten b0 b -> names_in (data b) -> type_name b0 id = Some nm ->
  exists r t, btf__type_by_id b id = Some r /\ deref b r = Some t /\ name_off t = nm /\ 0 <= nm < 2 ^ 32.
Proof.
  intros Hrw [Hl Hn]. unfold type_name. intros (r & Hr & Hnm)%bind_Some.
  assert (btf__type_by_id b id = Some r) as Hr'.
  { rewrite <- Hr. rewrite Hrw. done. }
  exists r. destruct r as [|off].
  { injection Hnm as <-. exists (BtfType 0 0 0). repeat split; auto; done. }
  assert (off ∈ types b0) as Hin.
  { revert Hr. unfold btf__type_by_id. destruct (_ <? _); [done|]. destruct (_ =? _); [done|].
    intros (x & Hx & [= <-])%fmap_Some. by eapply list_elem_of_lookup_2. }
  destruct (read_type_in (data b) off) as [t Ht]; [rewrite Hl; by apply Hread|].
  exists t. split; [done|]. split; [done|]. unfold read_type in Ht. rewrite (Hn _ Hin), Hnm in Ht.
  apply bind_Some in Ht as (nm' & [= <-] & Ht). apply bind_Some in Ht as (i & _ & Ht).
  apply bind_Some in Ht as (s & _ & [= <-]). split; [done|]. by eapply read32_bounds.
Qed.

(** No name lies in the [n] bytes from [lo] on. *)
Definition no_names (lo n : nat) : Prop :=
  forall off, off ∈ types b0 -> (off + 4 <= lo \/ lo + n <= off)%nat.

Lemma names_same lo n d d' :
  no_names lo n -> same (fun i => i < lo \/ lo + n <= i)%nat d d' -> names_in d -> names_in d'.
Proof.
  intros Hno Hs [Hl Hn]. split; [by rewrite (proj1 Hs)|]. intros off Hin. rewrite <- Hn by done.
  destruct (Hno off Hin); apply (same_read32 _ _ _ _ Hs); intros i Hi; lia.
Qed.

(** One variable. *)
Lemma member_step b v n vi nm :
  rewritten b0 b -> names_in (data b) -> Forall byte_ok (data b) -> no_names v 12 ->
  read_secinfo (data b) v = Some vi -> type_name b0 (vsi_type vi) = Some nm ->
  exists b', members_of_vars b v (S n) = members_of_vars b' (v + 12) n /\
    rewritten b b' /\ same (fun i => i < v \/ v + 12 <= i)%nat (data b) (data b') /\
    Forall byte_ok (data b') /\
    read_member (data b') v = Some (BtfMember nm (vsi_type vi) (u32 (8 * vsi_offset vi))).
Proof.
  intros Hrw Hn Hb Hno Hvi Hnm.
  destruct (read_secinfo_word _ _ _ Hb Hvi) as (Ht & Ho & Hl & Hrt & Hro).
  cbn [members_of_vars]. rewrite Ho. cbn [mbind option_bind].
  destruct (put32_in b (v + 8) (u32 (vsi_offset vi * 8))) as [b1 E1]; [lia|]. rewrite E1.
  destruct (put32_spec _ _ _ _ E1) as (R1 & S1 & G1). cbn [mbind option_bind].
  same32 S1. rewrite Ht. cbn [mbind option_bind].
  destruct (put32_in b1 (v + 4) (vsi_type vi)) as [b2 E2]; [rewrite (proj1 S1); lia|]. rewrite E2.
  destruct (put32_spec _ _ _ _ E2) as (R2 & S2 & G2). cbn [mbind option_bind].
  same32 S2. same32 S1. rewrite Ht. cbn [mbind option_bind].
  assert (same (fun i => i < v \/ v + 12 <= i)%nat (data b) (data b2)) as S12.
  { eapply same_trans; eapply same_weaken; [exact S1| |exact S2|]; cbn; lia. }
  destruct (type_name_deref b2 (vsi_type vi) nm) as (r & t & Er & Ed & En & Hnb);
    [by do 2 (eapply rewritten_trans; [eassumption|])|by eapply names_same|done|].
  rewrite Er. cbn [mbind option_bind]. rewrite Ed. cbn [mbind option_bind]. rewrite En.
  destruct (put32_in b2 v nm) as [b3 E3]; [rewrite (proj1 S12); lia|]. rewrite E3.
  destruct (put32_spec _ _ _ _ E3) as (R3 & S3 & G3). exists b3. split; [done|].
  split; [by do 2 (eapply rewritten_trans; [eassumption|])|].
  split; [eapply same_trans; [exact S12|]; eapply same_weaken; [exact S3|]; cbn; lia|].
  split; [by do 3 (eapply put32_bytes; [eassumption|])|].
  unfold read_member. rewrite G3. cbn [mbind option_bind]. same32 S3. rewrite G2. cbn [mbind option_bind].
  same32 S2. rewrite G1. cbn [mbind option_bind]. unfold u32.
  rewrite Z.mod_mod, !(Z.mod_small _ (2 ^ 32)), (Z.mul_comm 8) by lia. done.
Qed.

(** All of them. *)
Lemma members_spec n b v :
  rewritten b0 b -> names_in (data b) -> Forall byte_ok (data b) -> no_names v (12 * n) ->
  (forall j, (j < n)%nat -> exists vi m, read_secinfo (data b) (v + 12 * j) = Some vi /\ member_of b0 vi m) ->
  exists b', members_of_vars b v n = Some b' /\
    rewritten b b' /\ same (fun i => i < v \/ v + 12 * n <= i)%nat (data b) (data b') /\
    Forall byte_ok (data b') /\
    forall j vi, (j < n)%nat -> read_secinfo (data b) (v + 12 * j) = Some vi ->
      exists m, member_of b0 vi m /\ read_member (data b') (v + 12 * j) = Some m.
Proof.
  revert b v. induction n as [|n IH]; intros b v Hrw Hn Hb Hno Hvis.
  { exists b. repeat split; auto using rewritten_refl; intros; lia. }
  destruct (Hvis 0%nat) as (vi & m & Hvi & Hnm & Hty & Hoff); [lia|].
  replace (v + 12 * 0)%nat with v in Hvi by lia.
  destruct (member_step b v n vi (m_name_off m)) as (b1 & E1 & R1 & S1 & B1 & G1); try done.
  { intros off Hin. destruct (Hno off Hin); lia. }
  assert (forall j, read_secinfo (data b1) (v + 12 + 12 * j) = read_secinfo (data b) (v + 12 * S j)) as Hrest.
  { intros j. replace (v + 12 * S j)%nat with (v + 12 + 12 * j)%nat by lia. unfold read_secinfo.
    rewrite !(same_read32 _ _ _ _ S1) by (intros; cbn; lia). done. }
  destruct (IH b1 (v + 12)%nat) as (b2 & E2 & R2 & S2 & B2 & G2).
  - by eapply rewritten_trans.
  - eapply (names_same v 12); [|done|done]. intros off Hin. destruct (Hno off Hin); lia.
  - done.
  - intros off Hin. destruct (Hno off Hin); lia.
  - intros j Hj. rewrite Hrest. apply Hvis. lia.
  - exists b2. rewrite E1. split; [done|]. split; [by eapply rewritten_trans|].
    split; [eapply same_trans; eapply same_weaken; [exact S1| |exact S2|]; cbn; lia|].
    split; [done|]. intros [|j] vi' Hj.
    + replace (v + 12 * 0)%nat with v by lia. rewrite Hvi. intros [= <-].
      exists m. split; [done|]. unfold read_member.
      rewrite !(same_read32 _ _ _ _ S2) by (intros; cbn; lia).
      unfold read_member in G1. rewrite G1. rewrite <- Hty, <- Hoff. by destruct m.
    + rewrite <- Hrest. intros Hvi'. destruct (G2 j vi') as (m' & Hm' & G'); [lia|done|].
      exists m'. split; [done|]. by replace (v + 12 * S j)%nat with (v + 12 + 12 * j)%nat by lia.
Qed.
End Members.

(** ** The name of a section *)

(** The string at [p] ends and holds no dot. *)
Definition dotless (d : bytes) (p : nat) : Prop :=
  exists n, d !! (p + n)%nat = Some 0 /\
    forall i, (i < n)%nat -> exists c, d !! (p + i)%nat = Some c /\ c <> 0 /\ c <> 46.

Lemma dotless_dotted q d d' p : dotted q d d' -> (q <= p)%nat -> dotless d p -> dotless d' p.
Proof.
  intros Hd Hq (n & Hz & Hn). exists n. split; [by eapply dotted_keeps; eauto; lia|].
  intros i Hi. destruct (Hn i Hi) as (c & Hc & ? & ?). exists c. split; [|done].
  eapply dotted_keeps; eauto. lia.
Qed.

Definition dot_step (c c' : Z) : Prop := c' = c \/ c = 46 /\ c' = 95.

Lemma underscored_spec bs z :
  bs !! z = Some 0 ->
  exists cs, underscored bs = Some cs /\ Forall2 dot_step bs cs /\ dotless cs 0.
Proof.
  revert z. induction bs as [|c bs IH]; intros z; [done|]. cbn [underscored].
  destruct (Z.eqb_spec c 0) as [->|Hc].
  - intros _. exists (0 :: bs). split; [done|].
    split; [apply Forall_Forall2_diag, Forall_true; by left|]. exists 0%nat. split; [done|]. lia.
  - destruct z as [|z]; [by intros [= ->]|]. intros Hz.
    destruct (IH z Hz) as (cs & -> & Hcs & n & Hn0 & Hn). cbn [mbind option_bind].
    eexists. split; [done|]. split.
    + constructor; [|done]. unfold dot_step. destruct (Z.eqb_spec c 46); auto.
    + exists (S n). split; [done|]. intros [|i] Hi.
      * cbn. eexists. split; [done|]. destruct (Z.eqb_spec c 46); lia.
      * apply Hn. lia.
Qed.

Lemma replace_dots_spec b p z :
  (p <= z)%nat -> data b !! z = Some 0 ->
  exists b', replace_dots b p = Some b' /\ rewritten b b' /\
    same (fun i => i < p)%nat (data b) (data b') /\ dotted p (data b) (data b') /\
    dotless (data b') p /\ (Forall byte_ok (data b) -> Forall byte_ok (data b')).
Proof.
  intros Hp Hz. pose proof (lookup_lt_Some _ _ _ Hz) as Hl.
  destruct (underscored_spec (drop p (data b)) (z - p)) as (cs & E & Hcs & n & Hn0 & Hn).
  { rewrite lookup_drop. by replace (p + (z - p))%nat with z by lia. }
  unfold replace_dots. rewrite E. eexists. split; [done|]. cbn [data set_data].
  pose proof (Forall2_length _ _ _ Hcs) as Hlen. rewrite length_drop in Hlen.
  assert (List.length (take p (data b)) = p) as Htk by (rewrite length_take; lia).
  assert (forall i, (take p (data b) ++ cs) !! (p + i)%nat = cs !! i) as Hlook.
  { intros i. rewrite lookup_app_r by lia. f_equal. lia. }
  split; [done|]. split.
  { split; [rewrite length_app; lia|]. intros i Hi.
    by rewrite lookup_app_l, lookup_take_lt by lia. }
  split; [|split].
  - intros i Hi. replace i with (p + (i - p))%nat by lia. rewrite Hlook, <- lookup_drop.
    destruct (drop p (data b) !! (i - p)%nat) as [c|] eqn:Ec.
    + destruct (Forall2_lookup_l _ _ _ _ _ Hcs Ec) as (c' & -> & [->|[-> ->]]); auto.
    + left. apply lookup_ge_None_2. apply lookup_ge_None_1 in Ec. rewrite length_drop in Ec. lia.
  - exists n. rewrite Hlook. split; [done|]. intros i Hi. rewrite Hlook. by apply Hn.
  - intros Hb. apply list.Forall_app. split; [by apply Forall_take|].
    apply (Forall_drop _ p) in Hb. clear -Hb Hcs. induction Hcs as [|c c' bs cs Hc _ IH]; [done|].
    inversion Hb; subst. constructor; [|by apply IH]. destruct Hc as [->|[-> ->]]; [done|]. by unfold byte_ok.
Qed.

(** ** Sanitizing *)

Section Sanitize.
Context `{HostOrder} (c : bpf_capabilities) (b0 : btf).
Implicit Types (d : bytes) (b : btf).

(** The section has a name, its variables have types. *)
Definition section_ok (off : nat) (t : btf_type) : Prop :=
  name_off t < str_len (hdr b0) /\
  forall j vi, (j < Z.to_nat (btf_vlen t))%nat -> read_secinfo (data b0) (slot off j) = Some vi ->
    exists m, member_of b0 vi m.

(** What [d] has in the place of the type at [off]. *)
Definition sanitized_at d (off : nat) : Prop :=
  exists t, read_type (data b0) off = Some t /\ read_type d off = Some (sanitized c t) /\
  if negb (cap_btf_datasec c) && btf_is_var t then read32 d (off + 12) = Some 8
  else if negb (cap_btf_datasec c) && btf_is_datasec t then
    dotless d (strings b0 + Z.to_nat (name_off t)) /\
    forall j vi, (j < Z.to_nat (btf_vlen t))%nat -> read_secinfo (data b0) (slot off j) = Some vi ->
      exists m, member_of b0 vi m /\ read_member d (slot off j) = Some m
  else same (fun i => off + 12 <= i < off + extent (data b0) off)%nat (data b0) d.

Context (Hwf : wf b0) (Hfits : fits b0) (Hbytes : Forall byte_ok (data b0)).

Lemma sanitized_local : local b0 sanitized_at.
Proof.
  intros d d' off Hin (t & Ht & Ht' & Hrest) Hs Hn Hd.
  destruct (type_place b0 Hwf Hfits off Hin) as (_ & He & _).
  exists t. split; [done|]. split.
  { rewrite <- Ht'. eapply same_read_type; [exact Hs|]. cbn. lia. }
  destruct (_ && btf_is_var t) eqn:Hvar.
  { apply andb_true_iff in Hvar as [_ Hvar]. rewrite <- Hrest. eapply same_read32; [exact Hs|].
    cbn. rewrite (extent_var b0 off t) by done. lia. }
  destruct (_ && btf_is_datasec t) eqn:Hsec.
  - apply andb_true_iff in Hsec as [_ Hsec]. destruct Hrest as [Hdot Hm].
    split; [eapply dotless_dotted; [exact Hd|lia|done]|]. intros j vi Hj Hvi.
    destruct (Hm j vi Hj Hvi) as (m & Hmem & Hr). exists m. split; [done|]. rewrite <- Hr.
    unfold read_member, slot. rewrite (extent_datasec b0 off t) in Hs by done.
    rewrite !(same_read32 _ _ _ _ Hs) by (intros; cbn; lia). done.
  - eapply same_trans; [exact Hrest|]. eapply same_weaken; [exact Hs|]. cbn. lia.
Qed.

(** A word written beyond the name of a type. *)
Lemma put32_step b off n o v :
  (off + 4 <= o)%nat -> (o + 4 <= off + n)%nat -> (off + n <= strings b)%nat ->
  (off + n <= List.length (data b))%nat ->
  exists b', put32 b o v = Some b' /\ step b b' off n /\ read32 (data b') o = Some (v mod 2 ^ 32) /\
    same (fun i => i < o \/ o + 4 <= i)%nat (data b) (data b').
Proof.
  intros Hlo Hhi Hstr Hlen. destruct (put32_in b o v) as [b' E]; [lia|].
  destruct (put32_spec _ _ _ _ E) as (Hrw & Hs & Hg). exists b'. split; [done|].
  split; [|done]. split; [done| | |by eapply put32_bytes].
  - eapply same_weaken; [exact Hs|]. cbn. lia.
  - intros i Hi. left. apply Hs. lia.
Qed.

Lemma fits_data : (strings b0 <= List.length (data b0))%nat.
Proof. pose proof (lookup_lt_Some _ _ _ (wf_first _ Hwf)). lia. Qed.

Lemma type_in_data off : off ∈ types b0 -> (off + 12 <= List.length (data b0))%nat.
Proof.
  intros Hin. destruct (type_place b0 Hwf Hfits off Hin) as (_ & ? & ? & _).
  pose proof fits_data. lia.
Qed.

(** The words of the type rewritten, in a place of [n] bytes. *)
Lemma set_type b off n t i s :
  read_type (data b) off = Some t -> (12 <= n)%nat -> (off + n <= strings b)%nat ->
  (off + n <= List.length (data b))%nat -> 0 <= i < 2 ^ 32 -> 0 <= s < 2 ^ 32 ->
  exists b1 b2, set_info b off i = Some b1 /\ set_size b1 off s = Some b2 /\
    step b b1 off n /\ step b b2 off n /\
    read_type (data b1) off = Some (BtfType (name_off t) i (size_type t)) /\
    read_type (data b2) off = Some (BtfType (name_off t) i s) /\
    same (fun i => off + 12 <= i)%nat (data b) (data b1) /\
    same (fun i => off + 12 <= i)%nat (data b) (data b2).
Proof.
  intros (Hnm & _ & Hsz)%read_type_words He Hstr Hlen Hi Hs.
  destruct (put32_step b off n (off + 4) i) as (b1 & E1 & S1 & G1 & W1); [lia..|].
  destruct (put32_step b1 off n (off + 8) s) as (b2 & E2 & S2 & G2 & W2); try lia.
  { rewrite (step_rewritten _ _ _ _ S1). cbn. lia. }
  { rewrite (proj1 W1). lia. }
  exists b1, b2. split; [done|]. split; [done|]. split; [done|]. split; [by eapply step_trans|].
  rewrite Z.mod_small in G1, G2 by done. rewrite !read_type_words. cbn [name_off info size_type].
  rewrite G2, !(same_read32 _ _ _ _ W2), G1, !(same_read32 _ _ _ _ W1) by (intros; cbn; lia).
  split; [done|]. split; [done|].
  split; [eapply same_weaken; [exact W1|]; cbn; lia|].
  eapply same_trans; eapply same_weaken; [exact W1| |exact W2|]; cbn; lia.
Qed.

Section Step.
Context (todo : list nat) (off : nat) (b : btf) (t : btf_type).
Context (Hin : off ∈ types b0) (Ht : read_type (data b0) off = Some t).
Context (Hpassed : passed b0 sanitized_at (off :: todo) b).

Lemma step_start : rewritten b0 b /\ read_type (data b) off = Some t /\
  (12 <= extent (data b0) off)%nat /\ (off + extent (data b0) off <= strings b)%nat /\
  (off + extent (data b0) off <= List.length (data b))%nat /\
  same (fun i => off <= i < off + extent (data b0) off)%nat (data b0) (data b).
Proof.
  destruct Hpassed as [Hrw Hh _ Htodo _ _ _]. destruct (Htodo off) as [Hl Hs]; [by left|].
  destruct (type_place b0 Hwf Hfits off Hin) as (_ & He & Hf & _). pose proof fits_data.
  split; [done|]. split.
  { rewrite <- Ht. eapply (same_read_type (fun i => off <= i < off + extent (data b0) off)%nat);
      [done|]. lia. }
  split; [done|]. split; [by rewrite Hrw|]. split; [lia|done].
Qed.

Lemma sanitize_var :
  negb (cap_btf_datasec c) && btf_is_var t = true ->
  exists b', sanitize_type c b off = Some b' /\ step b b' off (extent (data b0) off) /\
    sanitized_at (data b') off.
Proof.
  intros Hvar. destruct step_start as (Hrw & Htb & He & Hstr & Hlen & Hsame).
  unfold sanitize_type, sanitized_at. rewrite Htb. cbn [mbind option_bind]. rewrite Hvar.
  destruct (set_type b off _ t (BTF_INFO_ENC BTF_KIND_INT 0) 1 Htb He)
    as (b1 & b2 & E1 & E2 & _ & S2 & _ & G & _ & W); [done|done|by apply info_kind|done|].
  rewrite E1. cbn [mbind option_bind]. rewrite E2. cbn [mbind option_bind].
  pose proof Hvar as [_ Hk]%andb_true_iff. pose proof (extent_var b0 off t Ht Hk) as Ex.
  destruct (put32_step b2 off (extent (data b0) off) (off + 12) (BTF_INT_ENC 0 0 8))
    as (b3 & E3 & S3 & G3 & W3); try lia.
  { rewrite (step_rewritten _ _ _ _ S2). cbn. lia. }
  { rewrite (proj1 W). lia. }
  exists b3. split; [done|]. split; [by eapply step_trans|]. exists t. split; [done|].
  rewrite Hvar. split; [|by rewrite G3]. unfold sanitized. rewrite Hvar, <- G.
  eapply same_read_type; [exact W3|]. cbn. lia.
Qed.

(** In the place of a section no name of a type lies. *)
Lemma section_no_names : btf_is_datasec t = true ->
  no_names b0 (off + 12) (12 * Z.to_nat (btf_vlen t)).
Proof.
  intros Hk off' Hin'. pose proof (extent_datasec b0 off t Ht Hk) as Ex.
  destruct (decide (off = off')) as [<-|Hne]; [left; lia|].
  destruct (type_place b0 Hwf Hfits off' Hin') as (_ & ? & _).
  destruct (tiled_apart _ _ _ _ off off' (wf_types _ Hwf) Hin Hin' Hne); lia.
Qed.

Lemma step_names_in b' : step b b' off (extent (data b0) off) -> names_in b0 (data b').
Proof.
  intros Hstep. destruct Hpassed as [Hrw Hh Hn _ _ _ _]. split.
  - rewrite (proj1 (step_same _ _ _ _ Hstep)). apply Hh.
  - intros off' Hin'. apply (same_read32 (fun i => off' <= i < off' + 4)%nat); [|lia].
    eapply same_trans; [by apply Hn|]. by apply (step_names b0 Hwf Hfits b b' off off').
Qed.

Lemma sanitize_datasec :
  negb (cap_btf_datasec c) && btf_is_var t = false ->
  negb (cap_btf_datasec c) && btf_is_datasec t = true -> section_ok off t ->
  exists b', sanitize_type c b off = Some b' /\ step b b' off (extent (data b0) off) /\
    sanitized_at (data b') off.
Proof.
  intros Hvar Hsec [Hname Hmem]. destruct step_start as (Hrw & Htb & He & Hstr & Hlen & Hsame).
  unfold sanitize_type, sanitized_at. rewrite Htb. cbn [mbind option_bind]. rewrite Hvar, Hsec.
  pose proof Hsec as [_ Hk]%andb_true_iff. pose proof (extent_datasec b0 off t Ht Hk) as Ex.
  assert (hdr b = hdr b0) as Eh by (by rewrite Hrw). assert (strings b = strings b0) as Es by (by rewrite Hrw).
  unfold btf__name_by_offset. rewrite Eh, (proj2 (Z.ltb_lt _ _) Hname), Es. cbn [mbind option_bind].
  destruct (replace_dots_spec b (strings b0 + Z.to_nat (name_off t))
    (strings b0 + Z.to_nat (str_len (hdr b0)) - 1)) as (b1 & E1 & R1 & S1 & D1 & C1 & B1).
  { pose proof (wf_str_len _ Hwf). lia. }
  { eapply dotted_keeps; [apply Hpassed|pose proof (wf_str_len _ Hwf); lia|apply Hwf|done]. }
  rewrite E1. cbn [mbind option_bind].
  assert (step b b1 off (extent (data b0) off)) as St1.
  { split; [done| | |done].
    - eapply same_weaken; [exact S1|]. cbn. lia.
    - intros i Hi. destruct (decide (strings b0 + Z.to_nat (name_off t) <= i)%nat); [by apply D1|].
      left. apply S1. lia. }
  assert (read_type (data b1) off = Some t) as Ht1.
  { rewrite <- Htb. eapply same_read_type; [exact S1|]. cbn. lia. }
  rewrite Ht1. cbn [mbind option_bind].
  destruct (set_type b1 off (extent (data b0) off) t (BTF_INFO_ENC BTF_KIND_STRUCT (btf_vlen t)) 0)
    as (b2 & _ & E2 & _ & St2 & _ & G2 & _ & W2 & _); try done.
  { rewrite R1. cbn. lia. }
  { rewrite (proj1 S1). lia. }
  { apply info_kind; [done|apply vlen_bounds]. }
  rewrite E2. cbn [mbind option_bind]. assert (step b b2 off (extent (data b0) off)) as St by (by eapply step_trans).
  assert (same (fun i => off + 12 <= i < off + extent (data b0) off)%nat (data b0) (data b2)) as S2.
  { eapply same_trans; [|eapply same_trans]; eapply same_weaken; [exact Hsame| |exact S1| |exact W2|]; cbn; lia. }
  assert (forall j, (j < Z.to_nat (btf_vlen t))%nat ->
    read_secinfo (data b2) (off + 12 + 12 * j) = read_secinfo (data b0) (slot off j)) as Hvis.
  { intros j Hj. unfold read_secinfo, slot.
    rewrite !(same_read32 _ _ _ _ S2) by (intros; cbn; lia). done. }
  destruct (members_spec b0 Hbytes type_in_data (Z.to_nat (btf_vlen t)) b2 (off + 12))
    as (b3 & E3 & R3 & S3 & B3 & G3).
  - eapply rewritten_trans; [exact Hrw|apply St].
  - by apply step_names_in.
  - by apply St, Hpassed.
  - by apply section_no_names.
  - intros j Hj. rewrite Hvis by done. destruct (read_secinfo_in (data b0) (slot off j)) as [vi Hvi].
    { unfold slot. rewrite <- (proj1 Hsame). lia. }
    destruct (Hmem j vi Hj Hvi) as [m Hm]. eauto.
  - assert (step b2 b3 off (extent (data b0) off)) as St3.
    { split; [done| | |done].
      - eapply same_weaken; [exact S3|]. cbn. lia.
      - intros i Hi. left. apply S3. rewrite (step_rewritten _ _ _ _ St) in Hi. cbn in Hi. lia. }
    exists b3. split; [done|]. split; [by eapply step_trans|]. exists t. split; [done|]. split.
    { unfold sanitized. rewrite Hvar, Hsec, <- G2. eapply same_read_type; [exact S3|]. cbn. lia. }
    rewrite Hvar, Hsec. split.
    + eapply dotless_dotted; [apply (step_strings b1 b3 off (extent (data b0) off));
        by eapply step_trans| |exact C1]. rewrite R1. cbn. lia.
    + intros j vi Hj Hvi. rewrite <- Hvis in Hvi by done. by apply G3.
Qed.

Lemma sanitize_step :
  (cap_btf_datasec c = false -> btf_is_datasec t = true -> section_ok off t) ->
  exists b', sanitize_type c b off = Some b' /\ step b b' off (extent (data b0) off) /\
    sanitized_at (data b') off.
Proof.
  intros Hok. destruct (negb (cap_btf_datasec c) && btf_is_var t) eqn:Hvar; [by apply sanitize_var|].
  destruct (negb (cap_btf_datasec c) && btf_is_datasec t) eqn:Hsec.
  { apply sanitize_datasec; [done..|]. apply andb_true_iff in Hsec as [?%negb_true_iff ?]. auto. }
  destruct step_start as (Hrw & Htb & He & Hstr & Hlen & Hsame). pose proof (vlen_bounds t) as Hv.
  unfold sanitize_type, sanitized_at, sanitized. rewrite Htb. cbn [mbind option_bind].
  rewrite Hvar, Hsec.
  destruct (negb (cap_btf_func c) && btf_is_func_proto t) eqn:Hproto.
  { destruct (set_type b off _ t (BTF_INFO_ENC BTF_KIND_ENUM (btf_vlen t)) 4 Htb He)
      as (b1 & b2 & E1 & E2 & _ & S2 & _ & G & _ & W); [done|done|by apply info_kind|done|].
    rewrite E1. cbn [mbind option_bind]. exists b2. split; [done|]. split; [done|].
    exists t. rewrite Hvar, Hsec, Hproto. split; [done|]. split; [done|].
    eapply same_trans; eapply same_weaken; [exact Hsame| |exact W|]; cbn; lia. }
  destruct (negb (cap_btf_func c) && btf_is_func t) eqn:Hfunc.
  { destruct (set_type b off _ t (BTF_INFO_ENC BTF_KIND_TYPEDEF 0) 0 Htb He)
      as (b1 & b2 & E1 & _ & S1 & _ & G & _ & W & _); [done|done|by apply info_kind|done|].
    exists b1. split; [done|]. split; [done|]. exists t. rewrite Hvar, Hsec, Hproto, Hfunc.
    split; [done|]. split; [done|].
    eapply same_trans; eapply same_weaken; [exact Hsame| |exact W|]; cbn; lia. }
  exists b. split; [done|]. split; [apply step_refl|]. exists t. rewrite Hvar, Hsec, Hproto, Hfunc.
  split; [done|]. split; [done|]. eapply same_weaken; [exact Hsame|]. cbn. lia.
Qed.
End Step.

(** Every section has a name and every variable of a section a type. *)
Definition sections_ok : Prop := forall off t,
  off ∈ types b0 -> read_type (data b0) off = Some t -> btf_is_datasec t = true -> section_ok off t.

Lemma sanitize_types_passed todo b :
  (cap_btf_datasec c = false -> sections_ok) -> NoDup todo -> (forall o, o ∈ todo -> o ∈ types b0) ->
  passed b0 sanitized_at todo b ->
  exists b', sanitize_types c b todo = Some b' /\ passed b0 sanitized_at [] b'.
Proof.
  intros Hok. revert b. induction todo as [|off todo IH]; intros b Hnd Htodo Hp; [by exists b|].
  apply list.NoDup_cons in Hnd as [Hout Hnd]. assert (off ∈ types b0) as Hin by (apply Htodo; by left).
  destruct (type_place b0 Hwf Hfits off Hin) as (_ & _ & _ & t & Ht & _).
  destruct (sanitize_step todo off b t Hin Ht Hp) as (b1 & E1 & S1 & P1).
  { intros Hc Hk. by apply Hok. }
  assert (forall o, o ∈ todo -> o ∈ types b0) as Htodo' by (intros o Ho; apply Htodo; by right).
  destruct (IH b1 Hnd Htodo') as (b2 & E2 & P2).
  { by apply (passed_step b0 sanitized_at Hwf Hfits off todo b b1 sanitized_local). }
  exists b2. cbn [sanitize_types]. rewrite E1. done.
Qed.

Lemma sanitize_btf_passed :
  (cap_btf_datasec c = false -> sections_ok) ->
  exists b, bpf_object__sanitize_btf c b0 = Some b /\ passed b0 sanitized_at [] b.
Proof.
  intros Hok. unfold bpf_object__sanitize_btf. destruct (cap_btf_func c && cap_btf_datasec c) eqn:Hcaps.
  - apply andb_true_iff in Hcaps as [Hf Hd]. exists b0. split; [done|].
    split; try done; [apply rewritten_refl| |apply dotted_refl].
    intros off Hin _. destruct (type_place b0 Hwf Hfits off Hin) as (_ & _ & _ & t & Ht & _).
    exists t. unfold sanitized. rewrite Hf, Hd. cbn. done.
  - apply sanitize_types_passed; [done|by eapply tiled_NoDup, Hwf|done|by apply passed_start].
Qed.

Lemma sanitized_size off t d :
  read_type (data b0) off = Some t -> sanitized_at d off ->
  exists t', read_type d off = Some t' /\ btf_type_size t' = btf_type_size t.
Proof.
  intros Ht (t' & Ht' & Hr & _). rewrite Ht in Ht'. injection Ht' as <-.
  eexists. split; [exact Hr|]. apply sanitized_spec.
Qed.

Lemma sanitized_supported d off :
  sanitized_at d off -> exists t, read_type d off = Some t /\ supported c (btf_kind t).
Proof. intros (t & _ & Ht & _). eexists. split; [exact Ht|]. apply sanitized_spec. Qed.

(** C17. Sanitizing a well-formed BTF whose sections are in order gives a well-formed BTF
    with the same types in the same places, none of a kind the kernel lacks: a variable
    has become an integer of 8 bits, a section a structure with a member for each of
    its variables, though the members are written over the variables. *)
Theorem sanitize_btf_spec :
  (cap_btf_datasec c = false -> sections_ok) ->
  exists b, bpf_object__sanitize_btf c b0 = Some b /\ rewritten b0 b /\ wf b /\
    forall off, off ∈ types b0 -> sanitized_at (data b) off /\
      exists t, read_type (data b) off = Some t /\ supported c (btf_kind t).
Proof.
  intros (b & E & Hp)%sanitize_btf_passed. exists b. split; [done|]. split; [apply Hp|].
  split; [by apply (passed_wf b0 sanitized_at Hwf Hbytes b); [intros off t _; apply sanitized_size|]|].
  intros off Hin.
  assert (sanitized_at (data b) off) by (apply Hp; [done|by apply not_elem_of_nil]).
  split; [done|]. by apply sanitized_supported.
Qed.
End Sanitize.
