(* ===== verification/BtfFinalize.v ===== *)
(** * Sizes and offsets from the ELF file

    Models [btf__finalize_data] of [libbpf/src/btf.c], which fills in what a compiler
    cannot know, the sizes of sections and the offsets of variables in them, with the
    two queries of [libbpf/src/libbpf.c] it asks the object. *)

From S2P Require Import Prelude Packet BpfMap BpfCalls BpfObject BpfLoad BpfOpen Btf BtfPass.
From Stdlib Require Import Ascii String.
From stdpp Require Import sorting.

Local Open Scope Z_scope.

#[local] Abbreviation bytes := (list Z).

Definition BTF_VAR_STATIC : Z := 0.
Definition BTF_VAR_GLOBAL_ALLOCATED : Z := 1.
Definition GELF_ST_TYPE (info : Z) : Z := Z.land info 15.

(** ** What the ELF file says *)

(** The error, or the size of the data of the first section of that name. *)
Fixpoint bpf_object_search_section_size (ss : list Elf_Scn) (nm : string) : Z + Z :=
  match ss with
  | [] => inl (- ENOENT)
  | scn :: ss =>
      match scn_shdr scn, scn_name scn with
      | Some _, Some sec_name =>
          if negb (nm =? sec_name)%string then bpf_object_search_section_size ss nm else
          match scn_data scn with Some data => inr (d_size data) | None => inl (- EIO) end
      | _, _ => inl (- EIO)
      end
  end.

(** 0 or the error, and the size, an unsigned 32-bit number. *)
Definition bpf_object__section_size (e : Elf) (o : opening) (nm : string) : Z * Z :=
  let of_data (d : option Elf_Data) :=
    (- ENOENT, match d with Some d => u32 (d_size d) | None => 0 end) in
  let '(ret, size) :=
    if (nm =? ".data")%string then of_data (op_data o) else
    if (nm =? ".bss")%string then of_data (op_bss o) else
    if (nm =? ".rodata")%string then of_data (op_rodata o) else
    match bpf_object_search_section_size (scns e) nm with
    | inl err => (err, 0)
    | inr d_size => (0, u32 d_size)
    end in
  (if negb (size =? 0) then 0 else ret, size).

Fixpoint search_variable (e : Elf) (o : opening) (syms : list GElf_Sym) (nm : string) : Z + Z :=
  match syms with
  | [] => inl (- ENOENT)
  | sym :: syms =>
      if negb (GELF_ST_BIND (st_info sym) =? STB_GLOBAL) ||
         negb (GELF_ST_TYPE (st_info sym) =? STT_OBJECT)
      then search_variable e o syms nm else
      match elf_strptr e (op_strtabidx o) (st_name sym) with
      | None => inl (- EIO)
      | Some sname =>
          if (nm =? sname)%string then inr (u32 (st_value sym)) else search_variable e o syms nm
      end
  end.

(** Without symbols [symbols->d_size] is undefined. *)
Definition bpf_object__variable_offset (e : Elf) (o : opening) (nm : string) : option (Z + Z) :=
  symbols ← op_symbols o;
  Some (search_variable e o (take (Z.to_nat (d_size symbols / sizeof_sym)) (d_syms symbols)) nm).

Section Operations.
Context `{HostOrder}.

(** ** [btf__finalize_data] *)

(** The difference of two unsigned numbers, cut to an [int]. *)
Definition compare_vsi_off (a b : btf_var_secinfo) : Z := i32 (u32 (vsi_offset a - vsi_offset b)).
Definition vsi_le (a b : btf_var_secinfo) : Prop := compare_vsi_off a b <= 0.
#[export] Instance vsi_le_dec a b : Decision (vsi_le a b).
Proof. unfold vsi_le. apply _. Defined.

(** The loop over the variables, [n] from the one at [v] on: 0 or the error, and the
    BTF.  The linkage is the word after the type of the variable. *)
Fixpoint fixup_vars (e : Elf) (o : opening) (b : btf) (v n : nat) : option (Z * btf) :=
  match n with
  | O => Some (0, b)
  | S n =>
      vi ← read_secinfo (data b) v;
      r ← btf__type_by_id b (vsi_type vi);
      t_var ← deref b r;
      if negb (btf_is_var t_var) then Some (- EINVAL, b) else
      linkage ← match r with At p => read32 (data b) (p + 12) | Void => None end;
      if linkage =? BTF_VAR_STATIC then fixup_vars e o b (v + 12) n else
      nm ← name_at b (name_off t_var);
      match nm with
      | None => Some (- ENOENT, b)
      | Some nm =>
          ret ← bpf_object__variable_offset e o nm;
          match ret with
          | inl _ => Some (- ENOENT, b)
          | inr off => b ← put32 b (v + 4) off; fixup_vars e o b (v + 12) n
          end
      end
  end.

Definition sort_vars (b : btf) (v n : nat) : option btf :=
  l ← read_secinfos (data b) v n;
  d ← write_bytes (data b) v (enc_secinfos (merge_sort vsi_le l));
  Some (set_data b d).

Definition btf_fixup_datasec (e : Elf) (o : opening) (b : btf) (off : nat) : option (Z * btf) :=
  t ← read_type (data b) off;
  let vars := Z.to_nat (btf_vlen t) in
  nm ← name_at b (name_off t);
  match nm with
  | None => Some (- ENOENT, b)
  | Some nm =>
      let '(ret, size) := bpf_object__section_size e o nm in
      if negb (ret =? 0) || (size =? 0) || negb (size_type t =? 0) && negb (size_type t =? size)
      then Some (- ENOENT, b) else
      b ← set_size b off size;
      '(ret, b) ← fixup_vars e o b (off + 12) vars;
      if negb (ret =? 0) then Some (ret, b) else
      b ← sort_vars b (off + 12) vars; Some (0, b)
  end.

Fixpoint finalize_types (e : Elf) (o : opening) (b : btf) (offs : list nat) : option (Z * btf) :=
  match offs with
  | [] => Some (0, b)
  | off :: offs =>
      t ← read_type (data b) off;
      if btf_is_datasec t then
        '(err, b) ← btf_fixup_datasec e o b off;
        if negb (err =? 0) then Some (err, b) else finalize_types e o b offs
      else finalize_types e o b offs
  end.

Definition btf__finalize_data (e : Elf) (o : opening) (b : btf) : option (Z * btf) :=
  finalize_types e o b (types b).
End Operations.

(** ** Finalizing *)

Section Finalize.
Context `{HostOrder} (e : Elf) (o : opening) (b0 : btf).
Context (Hwf : wf b0) (Hfits : fits b0) (Hbytes : Forall byte_ok (data b0)).
Implicit Types (d : bytes) (b : btf).

(** The linkage of the variable at [p]. *)
Definition linkage_at d (p : nat) : option Z := read32 d (p + 12).

(** A variable of a section with its place: that of its symbol, unless it is static. *)
Definition located (vi vi' : btf_var_secinfo) : Prop :=
  vsi_type vi' = vsi_type vi /\ vsi_size vi' = vsi_size vi /\
  exists p tv l, btf__type_by_id b0 (vsi_type vi) = Some (At p) /\
    read_type (data b0) p = Some tv /\ btf_is_var tv = true /\ linkage_at (data b0) p = Some l /\
    if l =? BTF_VAR_STATIC then vsi_offset vi' = vsi_offset vi
    else exists nm, name_at b0 (name_off tv) = Some (Some nm) /\
      bpf_object__variable_offset e o nm = Some (inr (vsi_offset vi')).

(** What finalizing leaves alone: the strings, the names and the kinds of types, the
    variables. *)
Definition frame d : Prop :=
  same (fun i => strings b0 <= i)%nat (data b0) d /\
  forall p t, p ∈ types b0 -> read_type (data b0) p = Some t ->
    read32 d p = Some (name_off t) /\ read32 d (p + 4) = Some (info t) /\
    (btf_is_var t = true -> linkage_at d p = linkage_at (data b0) p).

(** None of that lies in the [n] bytes from [lo] on. *)
Definition clear (lo n : nat) : Prop :=
  (lo + n <= strings b0)%nat /\
  forall p t, p ∈ types b0 -> read_type (data b0) p = Some t ->
    (p + 8 <= lo \/ lo + n <= p)%nat /\ (btf_is_var t = true -> p + 16 <= lo \/ lo + n <= p)%nat.

Lemma frame_start : frame (data b0).
Proof. split; [done|]. intros p t _ (? & ? & _)%read_type_words. done. Qed.

Lemma frame_same lo n d d' :
  clear lo n -> same (fun i => i < lo \/ lo + n <= i)%nat d d' -> frame d -> frame d'.
Proof.
  intros [Hs Hc] Hsame [Hstr Ht]. split.
  { eapply same_trans; [exact Hstr|]. eapply same_weaken; [exact Hsame|]. cbn. lia. }
  intros p t Hin Hrt. destruct (Ht p t Hin Hrt) as (<- & <- & Hv), (Hc p t Hin Hrt) as [Hp Hpv].
  split; [eapply same_read32; [exact Hsame|]; cbn; lia|].
  split; [eapply same_read32; [exact Hsame|]; cbn; lia|].
  intros Hk. rewrite <- Hv by done. specialize (Hpv Hk). unfold linkage_at.
  eapply same_read32; [exact Hsame|]. cbn. lia.
Qed.

Lemma frame_name b nm : rewritten b0 b -> frame (data b) -> name_at b nm = name_at b0 nm.
Proof.
  intros Hrw [Hstr _]. unfold name_at, btf__name_by_offset.
  assert (hdr b = hdr b0) as -> by (by rewrite Hrw).
  assert (strings b = strings b0) as -> by (by rewrite Hrw). destruct (_ <? _); [|done].
  assert (drop (strings b0 + Z.to_nat nm) (data b) = drop (strings b0 + Z.to_nat nm) (data b0)) as ->; [|done].
  apply list_eq. intros i. rewrite !lookup_drop. apply Hstr. lia.
Qed.

(** A type found in the BTF as rewritten is the one of the original. *)
Lemma frame_var b id r t :
  rewritten b0 b -> frame (data b) -> btf__type_by_id b id = Some r -> deref b r = Some t ->
  btf_is_var t = true ->
  exists p t0, r = At p /\ btf__type_by_id b0 id = Some (At p) /\ read_type (data b0) p = Some t0 /\
    btf_is_var t0 = true /\ name_off t0 = name_off t /\
    linkage_at (data b) p = linkage_at (data b0) p.
Proof.
  intros Hrw [_ Hf] Hr Hd Hk. destruct r as [|p].
  { injection Hd as <-. done. }
  assert (btf__type_by_id b0 id = Some (At p)) as Hr0 by (rewrite <- Hr, Hrw; done).
  assert (p ∈ types b0) as Hin.
  { revert Hr0. unfold btf__type_by_id. destruct (_ <? _); [done|]. destruct (_ =? _); [done|].
    intros (x & Hx & [= <-])%fmap_Some. by eapply list_elem_of_lookup_2. }
  destruct (type_place b0 Hwf Hfits p Hin) as (_ & _ & _ & t0 & Ht0 & _).
  destruct (Hf p t0 Hin Ht0) as (En & Ei & El). cbn [deref] in Hd.
  apply read_type_words in Hd as (En' & Ei' & _). rewrite En in En'. rewrite Ei in Ei'.
  injection En' as En'. injection Ei' as Ei'.
  assert (btf_is_var t0 = true) as Hk0.
  { revert Hk. unfold btf_is_var, is_kind, btf_kind. by rewrite Ei'. }
  exists p, t0. auto 10.
Qed.

Lemma search_variable_bounds syms nm off : search_variable e o syms nm = inr off -> 0 <= off < 2 ^ 32.
Proof.
  induction syms as [|sym syms IH]; [done|]. cbn [search_variable]. destruct (_ || _); [done|].
  destruct (elf_strptr _ _ _) as [sname|]; [|done]. destruct (_ =? _)%string; [|done].
  intros [= <-]. apply Z.mod_pos_bound. lia.
Qed.

Lemma variable_offset_bounds nm off :
  bpf_object__variable_offset e o nm = Some (inr off) -> 0 <= off < 2 ^ 32.
Proof. intros (symbols & _ & [= Hs])%bind_Some. by eapply search_variable_bounds. Qed.

Lemma read_secinfos_same P d d' v n :
  same P d d' -> (forall i, (v <= i < v + 12 * n)%nat -> P i) ->
  read_secinfos d' v n = read_secinfos d v n.
Proof.
  revert v. induction n as [|n IH]; intros v Hs HP; [done|]. cbn [read_secinfos].
  rewrite IH by (done || (intros; apply HP; lia)). unfold read_secinfo.
  rewrite !(same_read32 _ _ _ _ Hs) by (intros; apply HP; lia). done.
Qed.

Lemma fixup_vars_spec n b v b' :
  rewritten b0 b -> frame (data b) -> Forall byte_ok (data b) ->
  (forall j, (j < n)%nat -> clear (v + 12 * j) 12) ->
  fixup_vars e o b v n = Some (0, b') ->
  rewritten b b' /\ frame (data b') /\ Forall byte_ok (data b') /\
  same (fun i => i < v \/ v + 12 * n <= i)%nat (data b) (data b') /\
  exists vis vis', read_secinfos (data b) v n = Some vis /\
    read_secinfos (data b') v n = Some vis' /\ Forall2 located vis vis'.
Proof.
  revert b v. induction n as [|n IH]; intros b v Hrw Hf Hb Hc.
  { intros [= <-]. split; [apply rewritten_refl|]. split; [done|]. split; [done|].
    split; [apply same_refl|]. by exists [], []. }
  cbn [fixup_vars]. intros (vi & Hvi & (r & Hr & (t & Ht & Hrun)%bind_Some)%bind_Some)%bind_Some.
  destruct (btf_is_var t) eqn:Hk; [|done]. cbn [negb] in Hrun.
  destruct (frame_var b _ r t Hrw Hf Hr Ht Hk) as (p & t0 & -> & Hr0 & Ht0 & Hk0 & En & El).
  apply bind_Some in Hrun as (l & Hl & Hrun). fold (linkage_at (data b) p) in Hl. rewrite El in Hl.
  assert (exists b1 vi', fixup_vars e o b1 (v + 12) n = Some (0, b') /\ rewritten b b1 /\
    Forall byte_ok (data b1) /\ same (fun i => i < v \/ v + 12 <= i)%nat (data b) (data b1) /\
    read_secinfo (data b1) v = Some vi' /\ located vi vi')
    as (b1 & vi' & Hrun1 & Hrw1 & Hb1 & S1 & Hvi' & Hloc).
  { destruct (l =? BTF_VAR_STATIC) eqn:Hst.
    - exists b, vi. split; [done|]. split; [apply rewritten_refl|]. split; [done|].
      split; [apply same_refl|]. split; [done|]. split; [done|]. split; [done|].
      exists p, t0, l. by rewrite Hst.
    - apply bind_Some in Hrun as (nm & Hnm & Hrun). destruct nm as [nm|]; [|done].
      apply bind_Some in Hrun as (ret & Hret & Hrun). destruct ret as [err|off]; [done|].
      apply bind_Some in Hrun as (b1 & E1 & Hrun).
      destruct (put32_spec _ _ _ _ E1) as (R1 & S1 & G1).
      exists b1, (VarSecinfo (vsi_type vi) off (vsi_size vi)).
      split; [done|]. split; [done|]. split; [by eapply put32_bytes|].
      split; [eapply same_weaken; [exact S1|]; cbn; lia|].
      rewrite Z.mod_small in G1 by (by eapply variable_offset_bounds).
      split.
      + revert Hvi. unfold read_secinfo. rewrite G1, !(same_read32 _ _ _ _ S1) by (intros; cbn; lia).
        intros (ty & -> & (o0 & _ & (sz & -> & [= <-])%bind_Some)%bind_Some)%bind_Some. done.
      + split; [done|]. split; [done|]. exists p, t0, l. rewrite Hst. cbn [vsi_offset].
        do 4 (split; [done|]). exists nm. split; [|done]. rewrite En, <- Hnm. symmetry.
        by apply frame_name. }
  assert (frame (data b1)) as Hf1.
  { eapply (frame_same v 12); [|exact S1|done]. specialize (Hc 0%nat).
    replace (v + 12 * 0)%nat with v in Hc by lia. apply Hc. lia. }
  destruct (IH b1 (v + 12)%nat) as (R2 & F2 & B2 & S2 & vis & vis' & V & V' & Hall); try done.
  { by eapply rewritten_trans. }
  { intros j Hj. replace (v + 12 + 12 * j)%nat with (v + 12 * S j)%nat by lia. apply Hc. lia. }
  split; [by eapply rewritten_trans|]. split; [done|]. split; [done|].
  split; [eapply same_trans; eapply same_weaken; [exact S1| |exact S2|]; cbn; lia|].
  exists (vi :: vis), (vi' :: vis'). cbn [read_secinfos]. rewrite Hvi. cbn [mbind option_bind].
  rewrite (read_secinfos_same _ _ _ (v + 12) n S1) in V by (cbn; lia). rewrite V.
  assert (read_secinfo (data b') v = Some vi') as ->.
  { rewrite <- Hvi'. unfold read_secinfo. by rewrite !(same_read32 _ _ _ _ S2) by (intros; cbn; lia). }
  cbn [mbind option_bind]. rewrite V'. split; [done|]. split; [done|]. by constructor.
Qed.

(** *** Sorting the variables *)

#[local] Instance vsi_le_total : Total vsi_le.
Proof.
  intros x y. unfold vsi_le, compare_vsi_off.
  assert (forall z, i32 (u32 z) = i32 z) as E.
  { intros z. unfold i32, u32. f_equal. by rewrite Z.add_mod_idemp_l by lia. }
  rewrite !E. apply i32_difference.
Qed.

Definition vsi_words (vi : btf_var_secinfo) : Prop :=
  0 <= vsi_type vi < 2 ^ 32 /\ 0 <= vsi_offset vi < 2 ^ 32 /\ 0 <= vsi_size vi < 2 ^ 32.

Lemma length_enc_secinfos l : List.length (enc_secinfos l) = (12 * List.length l)%nat.
Proof.
  induction l as [|vi l IH]; [done|]. unfold enc_secinfos in *. cbn [fmap list_fmap List.concat].
  rewrite length_app, IH. unfold enc_secinfo. rewrite length_enc_words. cbn [List.length]. lia.
Qed.

Lemma read_secinfos_enc l pre post :
  Forall vsi_words l ->
  read_secinfos (pre ++ enc_secinfos l ++ post) (List.length pre) (List.length l) = Some l.
Proof.
  revert pre. induction l as [|[t o' s] l IH]; intros pre Hw; [done|].
  inversion Hw as [|? ? (Ht & Ho & Hs) Hw']; subst. cbn in Ht, Ho, Hs. cbn [List.length read_secinfos].
  assert (pre ++ enc_secinfos (VarSecinfo t o' s :: l) ++ post =
    pre ++ enc_words [t; o'; s] ++ enc_secinfos l ++ post) as ->.
  { unfold enc_secinfos. cbn [fmap list_fmap List.concat]. by rewrite <- app_assoc. }
  unfold read_secinfo. set (rest := enc_secinfos l ++ post).
  pose proof (read_word pre [t; o'; s] rest 0 t eq_refl Ht) as R0.
  replace (List.length pre + 4 * 0)%nat with (List.length pre) in R0 by lia.
  rewrite R0, (read_word pre [t; o'; s] rest 1 o' eq_refl Ho),
    (read_word pre [t; o'; s] rest 2 s eq_refl Hs).
  cbn [mbind option_bind].
  replace (List.length pre + 12)%nat with (List.length (pre ++ enc_words [t; o'; s]))
    by (rewrite length_app, length_enc_words; done).
  rewrite app_assoc. unfold rest. by rewrite IH.
Qed.

Lemma read_secinfos_words d v n l :
  Forall byte_ok d -> read_secinfos d v n = Some l -> Forall vsi_words l /\ List.length l = n.
Proof.
  intros Hb. revert v l. induction n as [|n IH]; intros v l; cbn [read_secinfos].
  { by intros [= <-]. }
  intros (vi & Hvi & (l' & Hl & [= <-])%bind_Some)%bind_Some. apply IH in Hl as [Hw <-].
  split; [|done]. constructor; [|done]. revert Hvi. unfold read_secinfo.
  intros (t & Ht & (o' & Ho & (s & Hs & [= <-])%bind_Some)%bind_Some)%bind_Some.
  by split; [|split]; eapply read32_bounds.
Qed.

Lemma sort_vars_spec b v n vis b' :
  Forall byte_ok (data b) -> read_secinfos (data b) v n = Some vis -> sort_vars b v n = Some b' ->
  rewritten b b' /\ Forall byte_ok (data b') /\
  same (fun i => i < v \/ v + 12 * n <= i)%nat (data b) (data b') /\
  exists vis', read_secinfos (data b') v n = Some vis' /\ vis' ≡ₚ vis /\ Sorted vsi_le vis'.
Proof.
  intros Hb Hvis. unfold sort_vars. rewrite Hvis. cbn [mbind option_bind].
  intros (d & Hw & [= <-])%bind_Some.
  cbn [data set_data]. destruct (read_secinfos_words _ _ _ _ Hb Hvis) as [Hwords Hlen].
  assert (List.length (merge_sort vsi_le vis) = n) as Hn.
  { rewrite <- Hlen. apply Permutation_length, merge_sort_Permutation. }
  assert (List.length (enc_secinfos (merge_sort vsi_le vis)) = (12 * n)%nat) as Hl
    by (by rewrite length_enc_secinfos, Hn).
  split; [done|]. pose proof Hw as Hs%write_same. rewrite Hl in Hs.
  revert Hw. unfold write_bytes. case_decide; [|done]. intros [= <-]. split; [|split].
  - apply list.Forall_app. split; [by apply Forall_take|]. apply list.Forall_app.
    split; [|by apply Forall_drop]. unfold enc_secinfos. generalize (merge_sort vsi_le vis).
    intros l. induction l as [|vi l IH]; [done|]. cbn. apply list.Forall_app. split; [|done].
    unfold enc_secinfo, enc_words. cbn [fmap list_fmap List.concat]. rewrite !list.Forall_app.
    auto using store_ok.
  - exact Hs.
  - exists (merge_sort vsi_le vis). split; [|split].
    + pose proof (read_secinfos_enc (merge_sort vsi_le vis) (take v (data b))
        (drop (v + List.length (enc_secinfos (merge_sort vsi_le vis))) (data b))) as Hr.
      rewrite length_take, Nat.min_l, Hn in Hr by lia. apply Hr. by rewrite merge_sort_Permutation.
    + apply merge_sort_Permutation.
    + by apply Sorted_merge_sort, _.
Qed.

(** *** The pass *)

(** What [d] has in the place of the type at [off]. *)
Definition finalized_at d (off : nat) : Prop :=
  exists t t', read_type (data b0) off = Some t /\ read_type d off = Some t' /\
  name_off t' = name_off t /\ info t' = info t /\
  if btf_is_datasec t then
    exists nm vis vis' sorted, name_at b0 (name_off t) = Some (Some nm) /\
      bpf_object__section_size e o nm = (0, size_type t') /\ size_type t' <> 0 /\
      read_secinfos (data b0) (off + 12) (Z.to_nat (btf_vlen t)) = Some vis /\
      read_secinfos d (off + 12) (Z.to_nat (btf_vlen t)) = Some sorted /\
      Forall2 located vis vis' /\ sorted ≡ₚ vis' /\ Sorted vsi_le sorted
  else same (fun i => off <= i < off + extent (data b0) off)%nat (data b0) d.

Lemma finalized_local : local b0 finalized_at.
Proof.
  intros d d' off Hin (t & t' & Ht & Ht' & Hn & Hi & Hrest) Hs _ _.
  destruct (type_place b0 Hwf Hfits off Hin) as (_ & He & _).
  exists t, t'. split; [done|]. split.
  { rewrite <- Ht'. eapply same_read_type; [exact Hs|]. cbn. lia. }
  split; [done|]. split; [done|]. destruct (btf_is_datasec t) eqn:Hk.
  - destruct Hrest as (nm & vis & vis' & sorted & ? & ? & ? & ? & Hr & ? & ? & ?).
    exists nm, vis, vis', sorted. do 4 (split; [done|]). split; [|done]. rewrite <- Hr.
    eapply read_secinfos_same; [exact Hs|]. rewrite (extent_datasec b0 off t) by done. cbn. lia.
  - eapply same_trans; [exact Hrest|done].
Qed.

Lemma section_size_bounds nm ret size :
  bpf_object__section_size e o nm = (ret, size) -> 0 <= size < 2 ^ 32.
Proof.
  unfold bpf_object__section_size. intros E.
  assert (forall z, 0 <= u32 z < 2 ^ 32) as Hu by (intros; apply Z.mod_pos_bound; lia).
  assert (forall d : option Elf_Data,
    0 <= match d with Some d => u32 (d_size d) | None => 0 end < 2 ^ 32) as Hd
    by (intros [d|]; [done|lia]).
  revert E. repeat (destruct (_ =? _)%string); try (by intros [= _ <-]).
  destruct (bpf_object_search_section_size (scns e) nm); intros [= _ <-]; [lia|done].
Qed.

(** A place inside a section, beyond its first two words, is clear. *)
Lemma clear_section off t lo n :
  off ∈ types b0 -> read_type (data b0) off = Some t -> btf_is_datasec t = true ->
  (off + 8 <= lo)%nat -> (lo + n <= off + extent (data b0) off)%nat -> clear lo n.
Proof.
  intros Hin Ht Hk Hlo Hhi. destruct (type_place b0 Hwf Hfits off Hin) as (_ & _ & Hf & _).
  split; [lia|]. intros p t' Hp Ht'.
  destruct (type_place b0 Hwf Hfits p Hp) as (_ & He & _).
  destruct (decide (p = off)) as [->|Hne].
  - split; [lia|]. rewrite Ht in Ht'. injection Ht' as <-. revert Hk.
    unfold btf_is_datasec, btf_is_var, is_kind. intros ->%Z.eqb_eq. done.
  - destruct (tiled_apart _ _ _ _ p off (wf_types _ Hwf) Hp Hin Hne) as [Ha|Ha]; [|lia].
    split; [lia|]. intros Hv. rewrite (extent_var b0 p t') in Ha by done. lia.
Qed.

Lemma fixup_datasec_spec b off t b' :
  off ∈ types b0 -> read_type (data b0) off = Some t -> btf_is_datasec t = true ->
  rewritten b0 b -> frame (data b) -> Forall byte_ok (data b) ->
  same (fun i => off <= i < off + extent (data b0) off)%nat (data b0) (data b) ->
  btf_fixup_datasec e o b off = Some (0, b') ->
  step b b' off (extent (data b0) off) /\ frame (data b') /\ finalized_at (data b') off /\
  same (fun i => i < off + 8 \/ off + extent (data b0) off <= i)%nat (data b) (data b').
Proof.
  intros Hin Ht Hk Hrw Hf Hb Hsame. pose proof (extent_datasec b0 off t Ht Hk) as Ex.
  assert (read_type (data b) off = Some t) as Htb.
  { rewrite <- Ht. eapply same_read_type; [exact Hsame|]. cbn. lia. }
  unfold btf_fixup_datasec. rewrite Htb. cbn [mbind option_bind].
  intros (nm & Hnm & Hrun)%bind_Some. destruct nm as [nm|]; [|done].
  rewrite (frame_name b) in Hnm by done.
  destruct (bpf_object__section_size e o nm) as [ret size] eqn:Hsize.
  destruct (Z.eqb_spec ret 0) as [->|]; [|done]. destruct (Z.eqb_spec size 0) as [->|Hne]; [done|].
  cbn [negb orb] in Hrun. destruct (_ && _); [done|].
  apply bind_Some in Hrun as (b1 & E1 & Hrun). apply put32_spec in E1 as E1'. destruct E1' as (R1 & S1 & G1).
  rewrite Z.mod_small in G1 by (by eapply section_size_bounds).
  assert (frame (data b1)) as Hf1.
  { eapply (frame_same (off + 8) 4); [|exact S1|done]. eapply clear_section; eauto; lia. }
  assert (Forall byte_ok (data b1)) as Hb1 by (by eapply put32_bytes).
  apply bind_Some in Hrun as ([ret b2] & E2 & Hrun). destruct (Z.eqb_spec ret 0) as [->|]; [|cbn in Hrun; congruence].
  cbn [negb] in Hrun. apply bind_Some in Hrun as (b3 & E3 & [= <-]).
  apply fixup_vars_spec in E2 as (R2 & Hf2 & Hb2 & S2 & vis & vis' & V & V' & Hall); try done;
    [|by eapply rewritten_trans|].
  2: { intros j Hj. eapply clear_section; eauto; lia. }
  destruct (sort_vars_spec b2 _ _ _ b3 Hb2 V' E3) as (R3 & Hb3 & S3 & sorted & V3 & Hperm & Hsort).
  set (n := Z.to_nat (btf_vlen t)) in *.
  assert (same (fun i => i < off + 8 \/ off + 12 + 12 * n <= i)%nat (data b) (data b3)) as S.
  { eapply same_trans; [|eapply same_trans]; eapply same_weaken;
      [exact S1| |exact S2| |exact S3|]; cbn; lia. }
  assert (frame (data b3)) as Hf3.
  { eapply (frame_same (off + 12) (12 * n)); [|exact S3|done]. eapply clear_section; eauto; lia. }
  split; [|split; [done|split; [|by rewrite Ex, Nat.add_assoc]]].
  - split; [by do 2 (eapply rewritten_trans; [eassumption|])| | |done].
    + eapply same_weaken; [exact S|]. cbn. lia.
    + intros i Hi. left. apply S. assert (strings b = strings b0) as E by (by rewrite Hrw).
      destruct (type_place b0 Hwf Hfits off Hin) as (_ & _ & ? & _). lia.
  - exists t, (BtfType (name_off t) (info t) size). split; [done|].
    apply read_type_words in Htb as (Tn & Ti & _).
    split.
    { apply read_type_words. cbn [name_off info size_type].
      rewrite !(same_read32 _ _ _ _ S), Tn, Ti by (intros; cbn; lia).
      split; [done|]. split; [done|]. rewrite <- G1.
      rewrite !(same_read32 _ _ _ _ S3), !(same_read32 _ _ _ _ S2) by (intros; cbn; lia). done. }
    split; [done|]. split; [done|]. rewrite Hk. exists nm, vis, vis', sorted. fold n.
    split; [done|]. split; [done|]. split; [done|]. split; [|done].
    rewrite <- V, (read_secinfos_same _ _ _ _ _ S1) by (cbn; lia).
    symmetry. eapply read_secinfos_same; [exact Hsame|]. cbn. lia.
Qed.

(** The bytes after the first two words of no section. *)
Definition outside_sections (i : nat) : Prop := forall off t, off ∈ types b0 ->
  read_type (data b0) off = Some t -> btf_is_datasec t = true ->
  (i < off + 8 \/ off + extent (data b0) off <= i)%nat.

Lemma finalize_types_passed todo b b' :
  NoDup todo -> (forall p, p ∈ todo -> p ∈ types b0) ->
  passed b0 finalized_at todo b -> frame (data b) -> same outside_sections (data b0) (data b) ->
  finalize_types e o b todo = Some (0, b') ->
  passed b0 finalized_at [] b' /\ same outside_sections (data b0) (data b').
Proof.
  revert b. induction todo as [|off todo IH]; intros b Hnd Htodo Hp Hf Hs; [by intros [= <-]|].
  apply list.NoDup_cons in Hnd as [Hout Hnd]. assert (off ∈ types b0) as Hin by (apply Htodo; by left).
  assert (forall p, p ∈ todo -> p ∈ types b0) as Htodo' by (intros p Hin'; apply Htodo; by right).
  destruct (type_place b0 Hwf Hfits off Hin) as (_ & He & _ & t & Ht & _).
  assert (same (fun i => off <= i < off + extent (data b0) off)%nat (data b0) (data b)) as Hsame
    by (apply Hp; by left).
  assert (read_type (data b) off = Some t) as Htb.
  { rewrite <- Ht. eapply same_read_type; [exact Hsame|]. cbn. lia. }
  cbn [finalize_types]. rewrite Htb. cbn [mbind option_bind].
  assert (forall b1, step b b1 off (extent (data b0) off) -> finalized_at (data b1) off ->
    passed b0 finalized_at todo b1) as Hstep.
  { intros b1 S1 P1. by apply (passed_step b0 finalized_at Hwf Hfits off todo b b1 finalized_local). }
  destruct (btf_is_datasec t) eqn:Hk.
  - intros ([err b1] & E1 & Hrun)%bind_Some. destruct (Z.eqb_spec err 0) as [->|]; [|cbn in Hrun; congruence].
    destruct (fixup_datasec_spec b off t b1) as (S1 & F1 & P1 & O1); try done; [apply Hp|by apply Hp|].
    apply (IH b1); auto. eapply same_trans; [exact Hs|]. eapply same_weaken; [exact O1|].
    intros i Hi. by apply (Hi off t).
  - apply IH; auto. apply Hstep; [apply step_refl|]. exists t, t. by rewrite Hk.
Qed.

Lemma finalize_data_run b : btf__finalize_data e o b0 = Some (0, b) ->
  passed b0 finalized_at [] b /\ same outside_sections (data b0) (data b).
Proof.
  apply finalize_types_passed; [by eapply tiled_NoDup, Hwf|done|by apply passed_start|
    apply frame_start|apply same_refl].
Qed.

Lemma finalize_data_passed b :
  btf__finalize_data e o b0 = Some (0, b) -> passed b0 finalized_at [] b.
Proof. intros Hrun. by apply finalize_data_run. Qed.

Lemma finalized_size off t d :
  read_type (data b0) off = Some t -> finalized_at d off ->
  exists t', read_type d off = Some t' /\ btf_type_size t' = btf_type_size t.
Proof.
  intros Ht (t1 & t' & Ht1 & Ht' & _ & Hi & _). rewrite Ht in Ht1. injection Ht1 as <-.
  exists t'. split; [done|]. unfold btf_type_size, btf_kind, btf_vlen. by rewrite Hi.
Qed.

(** C18. When [btf__finalize_data] succeeds on a well-formed BTF whose types end before
    its strings, the BTF is still well-formed, with the same types.  Each section has
    the size of the section of its name in the file, and the variables it had, sorted
    by offset: each at the offset of the symbol of its name, but a static one where it
    was.  No byte changes outside the sizes and the variables of the sections. *)
Theorem finalize_data_spec b :
  btf__finalize_data e o b0 = Some (0, b) ->
  rewritten b0 b /\ wf b /\ (forall off, off ∈ types b0 -> finalized_at (data b) off) /\
  same outside_sections (data b0) (data b).
Proof.
  intros [Hp Hs]%finalize_data_run. split; [apply Hp|].
  split; [by apply (passed_wf b0 finalized_at Hwf Hbytes b); [intros off t _; apply finalized_size|]|].
  split; [|done]. intros off Hin. apply Hp; [done|by apply not_elem_of_nil].
Qed.
End Finalize.
