(* ===== verification/BtfMaps.v ===== *)
(** * Maps defined by BTF

    Models how [libbpf/src/libbpf.c] reads the maps of section [.maps]: each variable of
    the section is a structure whose members are the attributes of a map, a number
    written as the length of an array a member points to.  With
    [btf__get_map_kv_tids] of [libbpf/src/btf.c], the older way to say the types of keys
    and values. *)

From S2P Require Import Prelude Packet BpfMap BpfCalls BpfObject BpfLoad BpfOpen Btf BtfPass.
From S2P Require Import BtfFinalize.
From Stdlib Require Import Ascii String.
From stdpp Require Import list.

Local Open Scope Z_scope.

#[local] Abbreviation bytes := (list Z).
#[local] Abbreviation Err e := (Some (inl (- e))).
#[local] Abbreviation Ok a := (Some (inr a)).
#[local] Notation "x <-- m ; k" := (rbind m (fun x => k))
  (at level 100, m at next level, k at level 200, right associativity).

Definition EOPNOTSUPP : Z := 95.
Definition BPF_MAP_TYPE_UNSPEC : Z := 0.
Definition LIBBPF_PIN_NONE : Z := 0.
Definition LIBBPF_PIN_BY_NAME : Z := 1.
Definition MAPS_ELF_SEC : string := ".maps".

Definition btf_is_ptr (t : btf_type) : bool := is_kind BTF_KIND_PTR t.
Definition btf_is_array (t : btf_type) : bool := is_kind BTF_KIND_ARRAY t.

(** ** The map while its attributes are read *)

Definition set_mdef (m : full_map) (d : bpf_map_def) : full_map :=
  FullMap (BpfMap_ (map_fd (mbase m)) (map_name (mbase m)) (map_ifindex (mbase m)) d
             (pin_path (mbase m)) (pinned (mbase m)) (reused (mbase m)))
    (sec_idx m) (sec_offset m) (inner_map_fd m) (btf_key_type_id m) (btf_value_type_id m)
    (libbpf_type m).
Definition set_type (m : full_map) (v : Z) : full_map :=
  let d := def (mbase m) in
  set_mdef m (MapDef v (key_size d) (value_size d) (max_entries d) (map_flags d)).
Definition set_max_entries (m : full_map) (v : Z) : full_map :=
  let d := def (mbase m) in
  set_mdef m (MapDef (type d) (key_size d) (value_size d) v (map_flags d)).
Definition set_map_flags (m : full_map) (v : Z) : full_map :=
  let d := def (mbase m) in
  set_mdef m (MapDef (type d) (key_size d) (value_size d) (max_entries d) v).
Definition set_key_size (m : full_map) (v : Z) : full_map :=
  let d := def (mbase m) in
  set_mdef m (MapDef (type d) v (value_size d) (max_entries d) (map_flags d)).
Definition set_value_size (m : full_map) (v : Z) : full_map :=
  let d := def (mbase m) in
  set_mdef m (MapDef (type d) (key_size d) v (max_entries d) (map_flags d)).
Definition set_key_type (m : full_map) (id : Z) : full_map :=
  FullMap (mbase m) (sec_idx m) (sec_offset m) (inner_map_fd m) id (btf_value_type_id m)
    (libbpf_type m).
Definition set_value_type (m : full_map) (id : Z) : full_map :=
  FullMap (mbase m) (sec_idx m) (sec_offset m) (inner_map_fd m) (btf_key_type_id m) id
    (libbpf_type m).

(** [bpf_map__set_pin_path] with a path, on a map that has none before it. *)
Definition set_map_pin_path (m : full_map) (path : string) : full_map :=
  FullMap (BpfMap_ (map_fd (mbase m)) (map_name (mbase m)) (map_ifindex (mbase m)) (def (mbase m))
             (Some path) (pinned (mbase m)) (reused (mbase m)))
    (sec_idx m) (sec_offset m) (inner_map_fd m) (btf_key_type_id m) (btf_value_type_id m)
    (libbpf_type m).

Section Maps.
Context `{HostOrder}.

(** The loop follows the types; [None] where a type is missing, and where the loop
    never ends: more steps than there are types. *)
Fixpoint skip_loop (fuel : nat) (b : btf) (r : option type_ref) : option type_ref :=
  match fuel with
  | O => None
  | S fuel =>
      r ← r;
      t ← deref b r;
      if btf_is_mod t || btf_is_typedef t
      then skip_loop fuel b (btf__type_by_id b (size_type t)) else Some r
  end.

Definition skip_mods_and_typedefs (b : btf) (id : Z) : option type_ref :=
  skip_loop (S (S (List.length (types b)))) b (btf__type_by_id b id).

(** The inner [None] is false: the member is not a pointer to an array. *)
Definition get_map_field_int (b : btf) (m : btf_member) : option (option Z) :=
  r ← skip_mods_and_typedefs b (m_type m);
  t ← deref b r;
  if negb (btf_is_ptr t) then Some None else
  match btf__type_by_id b (size_type t) with
  | None => Some None
  | Some r =>
      arr_t ← deref b r;
      if negb (btf_is_array arr_t) then Some None else
      arr ← match r with At p => btf_array_at b p | Void => None end;
      Some (Some (a_nelems arr))
  end.

Definition build_map_pin_path (m : full_map) (path : option string) : Z + full_map :=
  let buf := join_path (default "/sys/fs/bpf"%string path) (map_name (mbase m)) in
  if fits_path buf then inr (set_map_pin_path m buf) else inl (- ENAMETOOLONG).

(** A member that holds a number. *)
Definition int_field (b : btf) (f : btf_member) (k : Z -> option (Z + full_map))
    : option (Z + full_map) :=
  r ← get_map_field_int b f;
  match r with Some v => k v | None => Err EINVAL end.

(** A size that a map may already have. *)
Definition conflict (old new : Z) : bool := negb (old =? 0) && negb (old =? new).

(** A member that points to the type of keys or of values. *)
Definition type_field (b : btf) (f : btf_member) (k : Z -> Z -> option (Z + full_map))
    : option (Z + full_map) :=
  match btf__type_by_id b (m_type f) with
  | None => Err EINVAL
  | Some r =>
      t ← deref b r;
      if negb (btf_is_ptr t) then Err EINVAL else
      sz ← btf__resolve_size b (size_type t);
      if sz <? 0 then Some (inl sz) else k (size_type t) sz
  end.

(** The body of the loop over the members of the definition. *)
Definition map_field (b : btf) (strict : bool) (pin_root_path : option string) (m : full_map)
    (f : btf_member) : option (Z + full_map) :=
  nm ← name_at b (m_name_off f);
  match nm with
  | None => Err EINVAL
  | Some nm =>
      if (nm =? "type")%string then int_field b f (fun v => Ok (set_type m v)) else
      if (nm =? "max_entries")%string then int_field b f (fun v => Ok (set_max_entries m v)) else
      if (nm =? "map_flags")%string then int_field b f (fun v => Ok (set_map_flags m v)) else
      if (nm =? "key_size")%string then
        int_field b f (fun sz =>
          if conflict (key_size (def (mbase m))) sz then Err EINVAL else Ok (set_key_size m sz)) else
      if (nm =? "key")%string then
        type_field b f (fun id sz =>
          if conflict (key_size (def (mbase m))) sz then Err EINVAL
          else Ok (set_key_type (set_key_size m (u32 sz)) id)) else
      if (nm =? "value_size")%string then
        int_field b f (fun sz =>
          if conflict (value_size (def (mbase m))) sz then Err EINVAL
          else Ok (set_value_size m sz)) else
      if (nm =? "value")%string then
        type_field b f (fun id sz =>
          if conflict (value_size (def (mbase m))) sz then Err EINVAL
          else Ok (set_value_type (set_value_size m (u32 sz)) id)) else
      if (nm =? "pinning")%string then
        int_field b f (fun val =>
          if negb (val =? LIBBPF_PIN_NONE) && negb (val =? LIBBPF_PIN_BY_NAME) then Err EINVAL else
          if val =? LIBBPF_PIN_BY_NAME then Some (build_map_pin_path m pin_root_path) else Ok m) else
      if strict then Err ENOTSUP else Ok m
  end.

(** The loop over [n] members from number [i] on of the structure at [p]. *)
Fixpoint map_fields (b : btf) (strict : bool) (pin_root_path : option string) (m : full_map)
    (p i n : nat) : option (Z + full_map) :=
  match n with
  | O => Ok m
  | S n =>
      f ← btf_member_at b p i;
      m <-- map_field b strict pin_root_path m f;
      map_fields b strict pin_root_path m p (S i) n
  end.

(** The map of variable [var_idx] of the section at [sec]. *)
Definition bpf_object__init_user_btf_map (b : btf) (sec var_idx : nat) (idx : Z) (data : Elf_Data)
    (strict : bool) (pin_root_path : option string) : option (Z + full_map) :=
  vi ← read_secinfo (Btf.data b) (slot sec var_idx);
  r ← btf__type_by_id b (vsi_type vi);
  var ← deref b r;
  nm ← name_at b (name_off var);
  match nm with
  | None | Some EmptyString => Err EINVAL
  | Some map_name =>
      if d_size data <? vsi_offset vi + vsi_size vi then Err EINVAL else
      if negb (btf_is_var var) then Err EINVAL else
      linkage ← match r with At p => read32 (Btf.data b) (p + 12) | Void => None end;
      if negb (linkage =? BTF_VAR_GLOBAL_ALLOCATED) && negb (linkage =? BTF_VAR_STATIC)
      then Err EOPNOTSUPP else
      d ← skip_mods_and_typedefs b (size_type var);
      t ← deref b d;
      if negb (btf_is_struct t) then Err EINVAL else
      if vsi_size vi <? size_type t then Err EINVAL else
      let m := FullMap (BpfMap_ (-1) map_name 0 (MapDef BPF_MAP_TYPE_UNSPEC 0 0 0 0) None false false)
                 idx (vsi_offset vi) (-1) 0 0 LIBBPF_MAP_UNSPEC in
      p ← match d with At p => Some p | Void => None end;
      m <-- map_fields b strict pin_root_path m p 0 (Z.to_nat (btf_vlen t));
      if type (def (mbase m)) =? BPF_MAP_TYPE_UNSPEC then Err EINVAL else Ok m
  end.

(** The search for the section of types [.maps]; comparing a missing name is
    undefined. *)
Fixpoint find_maps_sec (b : btf) (offs : list nat) : option (option nat) :=
  match offs with
  | [] => Some None
  | off :: offs =>
      t ← read_type (Btf.data b) off;
      if negb (btf_is_datasec t) then find_maps_sec b offs else
      nm ← name_at b (name_off t);
      nm ← nm;
      if (nm =? MAPS_ELF_SEC)%string then Some (Some off) else find_maps_sec b offs
  end.

(** The loop over [n] variables from number [i] on. *)
Fixpoint init_btf_maps_loop (b : btf) (sec i n : nat) (idx : Z) (data : Elf_Data) (strict : bool)
    (pin_root_path : option string) : option (Z + list full_map) :=
  match n with
  | O => Ok []
  | S n =>
      m <-- bpf_object__init_user_btf_map b sec i idx data strict pin_root_path;
      ms <-- init_btf_maps_loop b sec (S i) n idx data strict pin_root_path;
      Ok (m :: ms)
  end.

(** What follows the test that the object has a section [.maps]. *)
Definition bpf_object__init_user_btf_maps (e : Elf) (o : opening) (b : btf) (strict : bool)
    (pin_root_path : option string) : option (Z + list full_map) :=
  let idx := btf_maps_shndx (op_ef o) in
  match elf_getscn e idx ≫= scn_data with
  | None => Err EINVAL
  | Some data =>
      sec ← find_maps_sec b (types b);
      match sec with
      | None => Err ENOENT
      | Some sec =>
          t ← read_type (Btf.data b) sec;
          init_btf_maps_loop b sec 0 (Z.to_nat (btf_vlen t)) idx data strict pin_root_path
      end
  end.

(** ** [btf__get_map_kv_tids] *)

(** 0 or the error, the identifiers of the two types. *)
Definition max_name : Z := 256.
Definition container_name (map_name : string) : string := ("____btf_map_" +:+ map_name)%string.

(** [snprintf] into [max_name] bytes keeps all but one of them. *)
Definition cut_name (s : string) : string := substring 0 (Z.to_nat (max_name - 1)) s.

#[local] Abbreviation no_ids err := (Some (err, 0, 0)).

Definition btf__get_map_kv_tids (b : btf) (map_name : string)
    (expected_key_size expected_value_size : Z) : option (Z * Z * Z) :=
  if Z.of_nat (String.length (container_name map_name)) =? max_name then no_ids (- EINVAL) else
  container_id ← btf__find_by_name b (cut_name (container_name map_name));
  if container_id <? 0 then no_ids container_id else
  match btf__type_by_id b container_id with
  | None => no_ids (- EINVAL)
  | Some r =>
      t ← deref b r;
      if negb (btf_is_struct t) || (btf_vlen t <? 2) then no_ids (- EINVAL) else
      p ← match r with At p => Some p | Void => None end;
      key ← btf_member_at b p 0;
      value ← btf_member_at b p 1;
      ksz ← btf__resolve_size b (m_type key);
      if ksz <? 0 then no_ids ksz else
      if negb (expected_key_size =? ksz) then no_ids (- EINVAL) else
      vsz ← btf__resolve_size b (m_type value);
      if vsz <? 0 then no_ids vsz else
      if negb (expected_value_size =? vsz) then no_ids (- EINVAL) else
      Some (0, m_type key, m_type value)
  end.
End Maps.

(** ** Following modifiers and typedefs *)

Section Skip.
Context `{HostOrder} (b : btf).
Implicit Types (r : type_ref).

Lemma skip_loop_mono k k' x r :
  (k <= k')%nat -> skip_loop k b x = Some r -> skip_loop k' b x = Some r.
Proof.
  revert k' x. induction k as [|k IH]; intros [|k'] x Hk; try done; try lia. cbn [skip_loop].
  destruct x as [r0|]; [|done]. cbn [mbind option_bind]. destruct (deref b r0) as [t|]; [|done].
  cbn [mbind option_bind]. destruct (_ || _); [|done]. apply IH. lia.
Qed.

(** From [r] the loop ends after exactly [k] steps more. *)
Definition ends_after (k : nat) r : Prop :=
  skip_loop k b (Some r) = None /\ is_Some (skip_loop (S k) b (Some r)).

Lemma ends_after_inj k k' r : ends_after k r -> ends_after k' r -> k = k'.
Proof.
  intros [Hn [x Hx]] [Hn' [x' Hx']]. destruct (Nat.lt_trichotomy k k') as [Hlt|[->|Hlt]]; [|done|].
  - apply (skip_loop_mono (S k) k') in Hx; [congruence|lia].
  - apply (skip_loop_mono (S k') k) in Hx'; [congruence|lia].
Qed.

(** The places a reference may point to. *)
Definition places : list type_ref := Void :: (At <$> types b).

Lemma type_by_id_place id r : btf__type_by_id b id = Some r -> r ∈ places.
Proof.
  unfold btf__type_by_id, places. destruct (_ <? _); [done|].
  destruct (_ =? _); [intros [= <-]; by left|]. intros (off & Hoff & ->)%fmap_Some. right.
  apply list_elem_of_fmap. exists off. split; [done|]. by eapply list_elem_of_lookup_2.
Qed.

(** The references on the way: as many as there are steps, all different. *)
Lemma ends_after_path k r :
  r ∈ places -> ends_after k r ->
  exists l, List.length l = S k /\ NoDup l /\ (forall x, x ∈ l -> x ∈ places /\ exists j, (j <= k)%nat /\ ends_after j x).
Proof.
  revert r. induction k as [|k IH]; intros r Hr Hk.
  - exists [r]. split; [done|]. split; [apply NoDup_singleton|].
    intros x ->%list_elem_of_singleton. split; [done|]. by exists 0%nat.
  - pose proof Hk as [Hn [x Hx]]. cbn [skip_loop] in Hn. change (skip_loop (S (S k)) b (Some r)) with
      (t ← deref b r; if btf_is_mod t || btf_is_typedef t
       then skip_loop (S k) b (btf__type_by_id b (size_type t)) else Some r) in Hx.
    cbn [mbind option_bind] in Hn. destruct (deref b r) as [t|]; [|done]. cbn [mbind option_bind] in Hn, Hx.
    destruct (_ || _); [|done]. destruct (btf__type_by_id b (size_type t)) as [r'|] eqn:Hid; [|done].
    destruct (IH r') as (l & Hl & Hnd & Hin); [by eapply type_by_id_place|by split; [|exists x]|].
    exists (r :: l). split; [cbn; lia|]. split.
    + apply list.NoDup_cons. split; [|done]. intros (_ & j & Hj & He)%Hin.
      pose proof (ends_after_inj _ _ _ Hk He). lia.
    + intros y [->|Hy]%list.elem_of_cons; [split; [done|]; by exists (S k)|].
      destruct (Hin y Hy) as (Hp & j & Hj & He). split; [done|]. exists j. split; [lia|done].
Qed.

(** If the loop ends at all, it ends within the bound of the model: a longer walk
    would come back to a type it has seen. *)
Theorem skip_mods_complete fuel id r :
  skip_loop fuel b (btf__type_by_id b id) = Some r -> skip_mods_and_typedefs b id = Some r.
Proof.
  unfold skip_mods_and_typedefs. destruct (btf__type_by_id b id) as [r0|] eqn:Hid; [|by destruct fuel].
  apply type_by_id_place in Hid. intros Hf.
  assert (exists k, ends_after k r0 /\ skip_loop (S k) b (Some r0) = Some r) as (k & Hk & Hrun).
  { induction fuel as [|fuel IH]; [done|].
    destruct (skip_loop fuel b (Some r0)) as [x|] eqn:Hx.
    - apply IH. rewrite <- Hf. symmetry. eapply skip_loop_mono; [|exact Hx]. lia.
    - exists fuel. split; [|done]. split; [done|by exists r]. }
  destruct (ends_after_path k r0 Hid Hk) as (l & Hl & Hnd & Hin).
  eapply skip_loop_mono; [|exact Hrun].
  assert (List.length l <= List.length places)%nat as Hlen.
  { apply submseteq_length, NoDup_submseteq; [done|]. intros x Hx. by apply Hin. }
  unfold places in Hlen. cbn [List.length] in Hlen. rewrite length_fmap in Hlen. lia.
Qed.
End Skip.

(** ** What the maps are *)

Section Sound.
Context `{HostOrder} (b : btf) (Hbytes : Forall byte_ok (Btf.data b)).
Implicit Types (m : full_map).

(** A map that names a type has its size, unless the type is empty. *)
Definition typed_size (id size : Z) : Prop :=
  id = 0 \/ exists v, btf__resolve_size b id = Some v /\ (v = size \/ v = 0).

(** What the attributes may make of the map [m0]. *)
Record attributed (pin_root_path : option string) m0 m : Prop := {
  attr_place : map_name (mbase m) = map_name (mbase m0) /\ map_fd (mbase m) = map_fd (mbase m0) /\
    sec_idx m = sec_idx m0 /\ sec_offset m = sec_offset m0 /\ libbpf_type m = libbpf_type m0 /\
    pinned (mbase m) = pinned (mbase m0) /\ reused (mbase m) = reused (mbase m0);
  attr_key : typed_size (btf_key_type_id m) (key_size (def (mbase m)));
  attr_value : typed_size (btf_value_type_id m) (value_size (def (mbase m)));
  attr_pin : forall path, pin_path (mbase m) = Some path ->
    path = join_path (default "/sys/fs/bpf"%string pin_root_path) (map_name (mbase m)) /\
    Z.of_nat (String.length path) < PATH_MAX;
}.

Lemma typed_size_resized id old new :
  typed_size id old -> conflict old new = false -> typed_size id new.
Proof.
  intros [->|(v & Hv & Hsz)] Hc; [by left|]. right. exists v. split; [done|].
  revert Hc. unfold conflict.
  destruct (Z.eqb_spec old 0), (Z.eqb_spec old new); cbn [negb andb]; intros; lia.
Qed.

Lemma typed_size_new id sz : btf__resolve_size b id = Some sz -> 0 <= sz -> typed_size id (u32 sz).
Proof.
  intros Hr Hpos. right. exists sz. split; [done|]. left. symmetry. apply u32_id.
  destruct (resolve_size_sound b Hbytes id sz Hr Hpos) as (_ & _ & _ & _ & _ & _ & Hle).
  unfold UINT32_MAX in Hle. lia.
Qed.

Lemma int_field_Some f k m : int_field b f k = Ok m -> exists v, k v = Ok m.
Proof. unfold int_field. intros (r & _ & Hk)%bind_Some. destruct r as [v|]; [by exists v|done]. Qed.

Lemma type_field_Some f k m : type_field b f k = Ok m ->
  exists id sz, btf__resolve_size b id = Some sz /\ 0 <= sz /\ k id sz = Ok m.
Proof.
  unfold type_field. destruct (btf__type_by_id b (m_type f)) as [r|]; [|done].
  intros (t & _ & Hk)%bind_Some. destruct (negb _); [done|].
  apply bind_Some in Hk as (sz & Hsz & Hk). destruct (Z.ltb_spec sz 0); [done|]. eauto.
Qed.

(** Each attribute keeps that. *)
Lemma map_field_attributed strict pin m0 m f m' :
  attributed pin m0 m -> map_field b strict pin m f = Ok m' -> attributed pin m0 m'.
Proof.
  intros Ha. unfold map_field. intros (nm & _ & Hrun)%bind_Some. destruct nm as [nm|]; [|done].
  revert Hrun. pose proof Ha as [Hplace Hkey Hvalue Hpin].
  repeat match goal with |- context [if (nm =? ?s)%string then _ else _] =>
    destruct (nm =? s)%string end;
  (* a number *)
  try (intros (v & Hrun)%int_field_Some; try destruct (conflict _ v) eqn:Hc; try done;
       try (injection Hrun as <-; split; try done; cbn; by eapply typed_size_resized));
  (* a type *)
  try (intros (id & sz & Hsz & Hpos & Hrun)%type_field_Some; destruct (conflict _ sz) eqn:Hc; [done|];
       injection Hrun as <-; split; try done; cbn; by apply typed_size_new).
  - destruct (_ && _); [done|]. destruct (v =? LIBBPF_PIN_BY_NAME); [|by injection Hrun as <-].
    injection Hrun as Hrun. unfold build_map_pin_path in Hrun.
    destruct (fits_path _) eqn:Hfit; [|done]. injection Hrun as <-. split; try done.
    cbn. intros path [= <-]. split; [done|]. by apply Z.ltb_lt.
  - destruct strict; [done|]. by intros [= <-].
Qed.

Lemma map_fields_attributed strict pin m0 n m p i m' :
  attributed pin m0 m -> map_fields b strict pin m p i n = Ok m' -> attributed pin m0 m'.
Proof.
  revert m i. induction n as [|n IH]; intros m i Ha; cbn [map_fields]; [by intros [= <-]|].
  intros (f & _ & (m1 & Hm1 & Hrun)%rbind_Some)%bind_Some. eapply IH; [|exact Hrun].
  by eapply map_field_attributed.
Qed.

(** A map that BTF defines. *)
Record declared (idx : Z) (data : Elf_Data) (pin_root_path : option string) m : Prop := {
  declared_fresh : map_fd (mbase m) = -1 /\ libbpf_type m = LIBBPF_MAP_UNSPEC /\
    pinned (mbase m) = false /\ reused (mbase m) = false;
  declared_name : map_name (mbase m) <> EmptyString;
  declared_type : type (def (mbase m)) <> BPF_MAP_TYPE_UNSPEC;
  declared_place : sec_idx m = idx /\ 0 <= sec_offset m <= d_size data;
  declared_key : typed_size (btf_key_type_id m) (key_size (def (mbase m)));
  declared_value : typed_size (btf_value_type_id m) (value_size (def (mbase m)));
  declared_pin : forall path, pin_path (mbase m) = Some path ->
    path = join_path (default "/sys/fs/bpf"%string pin_root_path) (map_name (mbase m)) /\
    Z.of_nat (String.length path) < PATH_MAX;
}.

Lemma init_map_declared sec i idx data strict pin m :
  bpf_object__init_user_btf_map b sec i idx data strict pin = Ok m -> declared idx data pin m.
Proof.
  unfold bpf_object__init_user_btf_map.
  intros (vi & Hvi & (r & _ & (var & _ & (nm & _ & Hrun)%bind_Some)%bind_Some)%bind_Some)%bind_Some.
  destruct nm as [nm|]; [|done]. destruct nm as [|ch nm]; [done|].
  destruct (Z.ltb_spec (d_size data) (vsi_offset vi + vsi_size vi)) as [|Hfit]; [done|].
  destruct (negb _); [done|]. apply bind_Some in Hrun as (l & _ & Hrun). destruct (_ && _); [done|].
  apply bind_Some in Hrun as (d & _ & (t & _ & Hrun)%bind_Some). destruct (negb _); [done|].
  destruct (_ <? _); [done|]. apply bind_Some in Hrun as (p & _ & (m1 & Hm1 & Hrun)%rbind_Some).
  destruct (Z.eqb_spec (type (def (mbase m1))) BPF_MAP_TYPE_UNSPEC) as [|Ht]; [done|].
  injection Hrun as <-.
  match type of Hm1 with map_fields _ _ _ ?m0 _ _ _ = _ => assert (attributed pin m0 m0) as H0 end.
  { split; cbn; [done|by left|by left|done]. }
  apply (map_fields_attributed _ _ _ _ _ _ _ _ H0) in Hm1 as [Hplace Hkey Hvalue Hpin].
  cbn in Hplace. destruct Hplace as (En & Ef & Ei & Eo & El & Ep & Er).
  split; try done; [by rewrite En|]. split; [done|]. rewrite Eo.
  unfold read_secinfo in Hvi. apply bind_Some in Hvi as (ty & _ & Hvi).
  apply bind_Some in Hvi as (o & Ho & Hvi). apply bind_Some in Hvi as (sz & Hsz & [= <-]).
  apply read32_bounds in Ho, Hsz; [|done..]. cbn in *. lia.
Qed.

(** Every map read from the section [.maps] has a name and a type and lies in its
    section; where it names the type of its keys or values it has their size; its pin
    path, when it has one, is its name under the root. *)
Theorem btf_maps_declared e o strict pin ms :
  bpf_object__init_user_btf_maps e o b strict pin = Ok ms ->
  exists data, elf_getscn e (btf_maps_shndx (op_ef o)) ≫= scn_data = Some data /\
    Forall (declared (btf_maps_shndx (op_ef o)) data pin) ms.
Proof.
  unfold bpf_object__init_user_btf_maps.
  destruct (elf_getscn e _ ≫= scn_data) as [data|]; [|done].
  intros (sec & _ & Hrun)%bind_Some. destruct sec as [sec|]; [|done].
  apply bind_Some in Hrun as (t & _ & Hrun). exists data. split; [done|]. revert Hrun.
  generalize 0%nat as i, (Z.to_nat (btf_vlen t)) as n. intros i n. revert i ms.
  induction n as [|n IH]; intros i ms; cbn [init_btf_maps_loop]; [by intros [= <-]|].
  intros (m & Hm & (ms' & Hms & [= <-])%rbind_Some)%rbind_Some. constructor; [|by eapply IH].
  by eapply init_map_declared.
Qed.

(** *** Keys and values named by a structure *)

#[local] Opaque btf__resolve_size.

(** When the identifiers are answered, the types have the sizes that were asked for. *)
Theorem kv_tids_sound nm ksz vsz key value :
  btf__get_map_kv_tids b nm ksz vsz = Some (0, key, value) ->
  btf__resolve_size b key = Some ksz /\ btf__resolve_size b value = Some vsz /\
  0 <= ksz <= UINT32_MAX /\ 0 <= vsz <= UINT32_MAX.
Proof.
  unfold btf__get_map_kv_tids. destruct (_ =? max_name); [done|].
  intros (id & _ & Hrun)%bind_Some. destruct (Z.ltb_spec id 0); [injection Hrun; lia|].
  destruct (btf__type_by_id b id) as [r|]; [|done]. apply bind_Some in Hrun as (t & _ & Hrun).
  destruct (_ || _); [done|]. apply bind_Some in Hrun as (p & _ & Hrun).
  apply bind_Some in Hrun as (k & _ & Hrun). apply bind_Some in Hrun as (v & _ & Hrun).
  apply bind_Some in Hrun as (ks & Hks & Hrun). destruct (Z.ltb_spec ks 0); [injection Hrun; lia|].
  destruct (Z.eqb_spec ksz ks) as [->|]; cbn [negb] in Hrun; [|done]. apply bind_Some in Hrun as (vs & Hvs & Hrun).
  destruct (Z.ltb_spec vs 0); [injection Hrun; lia|].
  destruct (Z.eqb_spec vsz vs) as [->|]; cbn [negb] in Hrun; [|done]. injection Hrun as <- <-.
  destruct (resolve_size_sound b Hbytes _ _ Hks) as (_ & _ & _ & _ & _ & _ & ?); [done|].
  destruct (resolve_size_sound b Hbytes _ _ Hvs) as (_ & _ & _ & _ & _ & _ & ?); [done|]. done.
Qed.

Lemma length_prefix n s : (n <= String.length s)%nat -> String.length (substring 0 n s) = n.
Proof.
  revert s. induction n as [|n IH]; intros s Hn; [by destruct s|].
  destruct s as [|ch s]; cbn in *; [lia|]. by rewrite IH by lia.
Qed.

Lemma prefix_twice n s : substring 0 n (substring 0 n s) = substring 0 n s.
Proof.
  revert s. induction n as [|n IH]; intros s; [by destruct s|].
  destruct s as [|ch s]; [done|]. cbn. by rewrite IH.
Qed.

Lemma cut_container nm : cut_name (container_name nm) = container_name (substring 0 243 nm).
Proof. done. Qed.

(** A name that is too long for the buffer by more than one character is cut instead of
    refused: the answer is that for another name. *)
Theorem kv_tids_cut nm ksz vsz :
  max_name < Z.of_nat (String.length (container_name nm)) ->
  btf__get_map_kv_tids b nm ksz vsz = btf__get_map_kv_tids b (substring 0 243 nm) ksz vsz.
Proof.
  unfold max_name. intros Hlong. unfold btf__get_map_kv_tids, max_name.
  assert (forall s, String.length (container_name s) = (12 + String.length s)%nat) as Hlen by done.
  rewrite !cut_container, prefix_twice, !Hlen in *. rewrite length_prefix by lia.
  rewrite (proj2 (Z.eqb_neq _ _)) by lia. by rewrite (proj2 (Z.eqb_neq _ _)) by lia.
Qed.
End Sound.
