(* ===== verification/CoreSpec.v ===== *)
(** * CO-RE: from an access in one BTF to the same access in another

    Models the first half of the CO-RE relocations of [libbpf/src/libbpf.c]: an access
    string becomes a path through the types of the program ([bpf_core_spec_parse]); the
    types of another BTF with the same essential name are candidates
    ([bpf_core_find_cands]); a path is matched, field by field, in a candidate
    ([bpf_core_spec_match]).  [reaches] says what a path denotes; both functions are
    shown to compute it.  Messages are left out, and memory allocation succeeds, but
    how much it gives is a parameter. *)

From S2P Require Import Prelude Packet BpfMap BpfCalls BpfObject BpfLoad BpfOpen Btf BtfPass BtfFinalize BtfMaps Cpus.
From Stdlib Require Import Ascii String.
From stdpp Require Import list.

Local Open Scope Z_scope.

#[local] Abbreviation bytes := (list Z).
#[local] Abbreviation Err e := (Some (inl (- e))).
#[local] Abbreviation Ok a := (Some (inr a)).
#[local] Notation "x <-- m ; k" := (rbind m (fun x => k))
  (at level 100, m at next level, k at level 200, right associativity).

Definition BPF_CORE_SPEC_MAX_LEN : Z := 64.

(** [struct bpf_core_accessor]: no name for an array accessor. *)
Record accessor := Accessor { acc_type_id : Z; acc_idx : Z; acc_name : option string }.

(** [struct bpf_core_spec], without the BTF; the lengths are those of the lists. *)
Record core_spec := CoreSpec { accs : list accessor; raw : list Z; bit_offset : Z }.

Definition empty_spec : core_spec := CoreSpec [] [] 0.
Definition len (s : core_spec) : Z := Z.of_nat (List.length (accs s)).
Definition raw_len (s : core_spec) : Z := Z.of_nat (List.length (raw s)).

(** [spec->spec[spec->len++] = a], within the array. *)
Definition push_acc (s : core_spec) (a : accessor) : option core_spec :=
  if len s <? BPF_CORE_SPEC_MAX_LEN then Some (CoreSpec (accs s ++ [a]) (raw s) (bit_offset s)) else None.
Definition pop_acc (s : core_spec) : core_spec :=
  CoreSpec (take (List.length (accs s) - 1) (accs s)) (raw s) (bit_offset s).
Definition push_raw (s : core_spec) (i : Z) : core_spec := CoreSpec (accs s) (raw s ++ [i]) (bit_offset s).
Definition pop_raw (s : core_spec) : core_spec :=
  CoreSpec (accs s) (take (List.length (raw s) - 1) (raw s)) (bit_offset s).
Definition add_offset (s : core_spec) (d : Z) : core_spec :=
  CoreSpec (accs s) (raw s) (u32 (bit_offset s + d)).

Definition str_is_empty (s : option string) : bool :=
  match s with None | Some EmptyString => true | _ => false end.

(** ** More of [btf.h] *)

Definition btf_is_composite (t : btf_type) : bool :=
  is_kind BTF_KIND_STRUCT t || is_kind BTF_KIND_UNION t.
Definition btf_is_enum (t : btf_type) : bool := is_kind BTF_KIND_ENUM t.

Definition BTF_MEMBER_BITFIELD_SIZE (v : Z) : Z := Z.shiftr v 24.
Definition BTF_MEMBER_BIT_OFFSET (v : Z) : Z := Z.land v 16777215.
Definition btf_member_bit_offset (t : btf_type) (m : btf_member) : Z :=
  if btf_kflag t then BTF_MEMBER_BIT_OFFSET (m_offset m) else m_offset m.
Definition btf_member_bitfield_size (t : btf_type) (m : btf_member) : Z :=
  if btf_kflag t then BTF_MEMBER_BITFIELD_SIZE (m_offset m) else 0.

Section Core.
Context `{HostOrder}.

Definition place (r : type_ref) : option nat := match r with At p => Some p | Void => None end.

(** The word after an integer type. *)
Definition int_word (b : btf) (r : type_ref) : option Z := p ← place r; read32 (data b) (p + 12).
Definition btf_int_encoding (b : btf) (r : type_ref) : option Z :=
  v ← int_word b r; Some (Z.shiftr (Z.land v 251658240) 24).
Definition btf_int_offset (b : btf) (r : type_ref) : option Z :=
  v ← int_word b r; Some (Z.shiftr (Z.land v 16711680) 16).

(** [skip_mods_and_typedefs] with the identifier it stores. *)
Fixpoint skip_id_loop (fuel : nat) (b : btf) (id : Z) : option (Z * type_ref) :=
  match fuel with
  | O => None
  | S fuel =>
      r ← btf__type_by_id b id;
      t ← deref b r;
      if btf_is_mod t || btf_is_typedef t then skip_id_loop fuel b (size_type t) else Some (id, r)
  end.

Definition skip_id (b : btf) (id : Z) : option (Z * type_ref) :=
  skip_id_loop (S (S (List.length (types b)))) b id.

(** ** Parsing an access string *)

Definition to_bytes (s : string) : bytes := (fun c => Z.of_nat (nat_of_ascii c)) <$> list_ascii_of_string s.

(** The numbers of the string, after those in [acc]; the bound is its length. *)
Fixpoint parse_raw (fuel : nat) (s : bytes) (acc : list Z) : option (Z + list Z) :=
  match fuel with
  | O => None
  | S fuel =>
      match s with
      | [] => Ok acc
      | c :: s' =>
          r ← scan_d (if c =? 58 then s' else s);
          match r with
          | Scanned access_idx rest =>
              if Z.of_nat (List.length acc) =? BPF_CORE_SPEC_MAX_LEN then Err E2BIG else
              parse_raw fuel rest (acc ++ [access_idx])
          | _ => Err EINVAL
          end
      end
  end.

(** [access_idx * sz * 8], in 64 bits. *)
Definition elem_offset (idx sz : Z) : option Z := x ← chk64 (idx * sz); chk64 (x * 8).

Definition parse_member (b : btf) (id access_idx : Z) (p : nat) (t : btf_type) (s : core_spec)
    : option (Z + Z * core_spec) :=
  if btf_vlen t <=? access_idx then Err EINVAL else
  if access_idx <? 0 then None else
  m ← btf_member_at b p (Z.to_nat access_idx);
  let s := add_offset s (btf_member_bit_offset t m) in
  if m_name_off m =? 0 then Ok (m_type m, s) else
  nm ← name_at b (m_name_off m);
  if str_is_empty nm then Err EINVAL else
  s ← push_acc s (Accessor id access_idx nm);
  Ok (m_type m, s).

Definition parse_elem (b : btf) (access_idx : Z) (p : nat) (s : core_spec)
    : option (Z + Z * core_spec) :=
  a ← btf_array_at b p;
  '(id, _) ← skip_id b (a_type a);
  if a_nelems a <=? u32 access_idx then Err EINVAL else
  s ← push_acc s (Accessor id (u32 access_idx) None);
  sz ← btf__resolve_size b id;
  if sz <? 0 then Some (inl (i32 sz)) else
  d ← elem_offset access_idx sz;
  Ok (id, add_offset s d).

(** The loop over the numbers after the first. *)
Fixpoint parse_accesses (b : btf) (id : Z) (l : list Z) (s : core_spec) : option (Z + core_spec) :=
  match l with
  | [] => Ok s
  | access_idx :: l =>
      '(id, r) ← skip_id b id;
      t ← deref b r;
      x <-- (if btf_is_composite t then p ← place r; parse_member b id access_idx p t s
             else if btf_is_array t then p ← place r; parse_elem b access_idx p s
             else Err EINVAL);
      let '(id, s) := x in parse_accesses b id l s
  end.

Definition bpf_core_spec_parse (b : btf) (type_id : Z) (spec_str : option string)
    : option (Z + core_spec) :=
  match spec_str with
  | None | Some EmptyString => Err EINVAL
  | Some str =>
      let cs := to_bytes str in
      if bool_decide (head cs = Some 58) then Err EINVAL else
      l <-- parse_raw (S (List.length cs)) cs [];
      match l with
      | [] => Err EINVAL
      | access_idx :: l' =>
          '(id, _) ← skip_id b type_id;
          sz ← btf__resolve_size b id;
          if sz <? 0 then Some (inl (i32 sz)) else
          d ← elem_offset access_idx sz;
          parse_accesses b id l' (CoreSpec [Accessor id (u32 access_idx) None] l (u32 d))
      end
  end.

(** ** Candidates *)

(** [s[0] != '_'], three underscores, [s[4] != '_']. *)
Definition bpf_core_is_flavor_sep (s : list ascii) : bool :=
  match s with
  | x :: a :: b :: c :: y :: _ =>
      negb (bool_decide (x = "_"%char)) && bool_decide (a = "_"%char) && bool_decide (b = "_"%char) &&
      bool_decide (c = "_"%char) && negb (bool_decide (y = "_"%char))
  | _ => false
  end.

(** The loop, down from [i - 1]. *)
Fixpoint essential_loop (i : nat) (s : list ascii) : nat :=
  match i with
  | O => List.length s
  | S i => if bpf_core_is_flavor_sep (drop i s) then S i else essential_loop i s
  end.

Definition bpf_core_essential_name_len (name : string) : nat :=
  let s := list_ascii_of_string name in essential_loop (List.length s - 4) s.

(** [strncmp] of the first [n] characters of two strings that have as many. *)
Definition same_prefix (n : nat) (s1 s2 : string) : bool :=
  bool_decide (take n (list_ascii_of_string s1) = take n (list_ascii_of_string s2)).

(** The two names have the same essential part. *)
Definition same_essential (s1 s2 : string) : bool :=
  (bpf_core_essential_name_len s1 =? bpf_core_essential_name_len s2)%nat &&
  same_prefix (bpf_core_essential_name_len s1) s1 s2.

(** [usable n]: the bytes that [realloc] makes room for when it is asked for [n]. *)
Context (usable : Z -> Z).

(** The loop over the types [offs], of which the first has identifier [i].  The array
    is reallocated to as many bytes as it has entries of 4 bytes. *)
Fixpoint find_cands_loop (targ : btf) (offs : list nat) (i : Z) (local_name : string) (ids : list Z)
    : option (list Z) :=
  match offs with
  | [] => Some ids
  | off :: offs =>
      t ← read_type (data targ) off;
      nm ← name_at targ (name_off t);
      match nm with
      | None | Some EmptyString => find_cands_loop targ offs (i + 1) local_name ids
      | Some targ_name =>
          if same_essential local_name targ_name then
            let n := Z.of_nat (List.length ids) in
            if usable (n + 1) <? 4 * (n + 1) then None else
            find_cands_loop targ offs (i + 1) local_name (ids ++ [i])
          else find_cands_loop targ offs (i + 1) local_name ids
      end
  end.

Definition bpf_core_find_cands (local : btf) (local_type_id : Z) (targ : btf) : option (Z + list Z) :=
  match btf__type_by_id local local_type_id with
  | None => Err EINVAL
  | Some r =>
      t ← deref local r;
      nm ← name_at local (name_off t);
      match nm with
      | None | Some EmptyString => Err EINVAL
      | Some local_name =>
          ids ← find_cands_loop targ (types targ) 1 local_name []; Ok ids
      end
  end.

(** ** Matching *)

(** The recursion through arrays; the bound is the types of both sides. *)
Fixpoint fields_compat (fuel : nat) (local : btf) (local_id : Z) (targ : btf) (targ_id : Z) : option Z :=
  match fuel with
  | O => None
  | S fuel =>
      '(_, lr) ← skip_id local local_id; lt ← deref local lr;
      '(_, tr) ← skip_id targ targ_id; tt ← deref targ tr;
      if btf_is_composite lt && btf_is_composite tt then Some 1 else
      if negb (btf_kind lt =? btf_kind tt) then Some 0 else
      if btf_is_ptr lt then Some 1 else
      if btf_is_fwd lt || btf_is_enum lt then
        local_name ← name_at local (name_off lt); local_name ← local_name;
        targ_name ← name_at targ (name_off tt); targ_name ← targ_name;
        let local_len := bpf_core_essential_name_len local_name in
        let targ_len := bpf_core_essential_name_len targ_name in
        Some (Z.b2z ((local_len =? 0)%nat || (targ_len =? 0)%nat || same_essential local_name targ_name))
      else if is_kind BTF_KIND_INT lt then
        o1 ← btf_int_offset local lr;
        if negb (o1 =? 0) then Some 0 else o2 ← btf_int_offset targ tr; Some (Z.b2z (o2 =? 0))
      else if btf_is_array lt then
        lp ← place lr; la ← btf_array_at local lp; tp ← place tr; ta ← btf_array_at targ tp;
        fields_compat fuel local (a_type la) targ (a_type ta)
      else Some 0
  end.

Definition bpf_core_fields_are_compat (local : btf) (local_id : Z) (targ : btf) (targ_id : Z) : option Z :=
  fields_compat (S (S (List.length (types local) + List.length (types targ)))) local local_id targ targ_id.

(** The outcome of a search: found, the spec, the type of the field. *)
Record search := Search { found : Z; out_spec : core_spec; next_id : Z }.

(** The loop over the members [i] to [i + n - 1] of the structure [id] at [p];
    [deeper] searches an anonymous member. *)
Fixpoint match_members (deeper : Z -> core_spec -> Z -> option search) (local : btf) (local_member : btf_member)
    (local_name : option string) (targ : btf) (id : Z) (p : nat) (t : btf_type) (n i : nat)
    (s : core_spec) (next : Z) : option search :=
  match n with
  | O => Some (Search 0 s next)
  | S n =>
      m ← btf_member_at targ p i;
      let d := btf_member_bit_offset t m in
      if raw_len s =? BPF_CORE_SPEC_MAX_LEN then Some (Search (- E2BIG) s next) else
      let s := push_raw (add_offset s d) (Z.of_nat i) in
      targ_name ← name_at targ (m_name_off m);
      let go_on s next :=
        match_members deeper local local_member local_name targ id p t n (i + 1)
          (pop_raw (add_offset s (- d))) next in
      if str_is_empty targ_name then
        r ← deeper (m_type m) s next;
        if negb (found r =? 0) then Some r else go_on (out_spec r) (next_id r)
      else
        nm ← local_name;
        if bool_decide (targ_name = Some nm) then
          s ← push_acc s (Accessor id (Z.of_nat i) targ_name);
          c ← bpf_core_fields_are_compat local (m_type local_member) targ (m_type m);
          Some (Search c (if c =? 0 then pop_acc s else s) (m_type m))
        else go_on s next
  end.

(** The bound is the depth of the nesting, which the length of the path limits. *)
Fixpoint match_member (fuel : nat) (local : btf) (local_acc : accessor) (targ : btf) (targ_id : Z)
    (s : core_spec) (next : Z) : option search :=
  match fuel with
  | O => None
  | S fuel =>
      '(id, r) ← skip_id targ targ_id;
      t ← deref targ r;
      if negb (btf_is_composite t) then Some (Search 0 s next) else
      p ← place r;
      lr ← btf__type_by_id local (acc_type_id local_acc);
      lp ← place lr;
      local_member ← btf_member_at local lp (Z.to_nat (acc_idx local_acc));
      local_name ← name_at local (m_name_off local_member);
      match_members (match_member fuel local local_acc targ) local local_member local_name
        targ id p t (Z.to_nat (btf_vlen t)) 0 s next
  end.

Definition MAX_DEPTH : nat := S (Z.to_nat BPF_CORE_SPEC_MAX_LEN).

Definition bpf_core_match_member (local : btf) (local_acc : accessor) (targ : btf) (targ_id : Z)
    (s : core_spec) : option search :=
  match_member MAX_DEPTH local local_acc targ targ_id s targ_id.

(** An accessor for element [idx] of an array of [targ_id]. *)
Definition place_elem (targ : btf) (idx targ_id : Z) (s : core_spec) : option (Z + Z * core_spec) :=
  if raw_len s =? BPF_CORE_SPEC_MAX_LEN then Err E2BIG else
  s ← push_acc s (Accessor targ_id idx None);
  let s := push_raw s (i32 idx) in
  sz ← btf__resolve_size targ targ_id;
  let sz := i32 sz in
  if sz <? 0 then Some (inl sz) else
  Ok (targ_id, add_offset s (u32 (idx * sz * 8))).

(** An array accessor in the target: 0 or an error, or the element type. *)
Definition match_elem (targ : btf) (first : bool) (idx : Z) (targ_id : Z) (r : type_ref) (t : btf_type)
    (s : core_spec) : option (Z + Z * core_spec) :=
  if first then place_elem targ idx targ_id s else
  if negb (btf_is_array t) then Some (inl 0) else
  p ← place r; a ← btf_array_at targ p;
  if a_nelems a <=? idx then Some (inl 0) else
  '(targ_id, _) ← skip_id targ (a_type a);
  place_elem targ idx targ_id s.

(** The loop over the accessors of the local spec. *)
Fixpoint match_accs (local targ : btf) (first : bool) (l : list accessor) (targ_id : Z) (s : core_spec)
    : option (Z * core_spec) :=
  match l with
  | [] => Some (1, s)
  | a :: l =>
      '(targ_id, r) ← skip_id targ targ_id;
      t ← deref targ r;
      match acc_name a with
      | Some _ =>
          x ← bpf_core_match_member local a targ targ_id s;
          if found x <=? 0 then Some (found x, out_spec x)
          else match_accs local targ false l (next_id x) (out_spec x)
      | None =>
          x ← match_elem targ first (acc_idx a) targ_id r t s;
          match x with
          | inl c => Some (c, s)
          | inr (targ_id, s) => match_accs local targ false l targ_id s
          end
      end
  end.

Definition bpf_core_spec_match (local : btf) (local_spec : core_spec) (targ : btf) (targ_id : Z)
    : option (Z * core_spec) :=
  match_accs local targ true (accs local_spec) targ_id empty_spec.
End Core.

(** ** What a path denotes *)

Section Reaches.
Context `{HostOrder}.
Implicit Types (b : btf) (s : core_spec).

(** The structure or union behind [id], past typedefs. *)
Definition composite_at b (id cid : Z) (p : nat) (t : btf_type) : Prop :=
  skip_id b id = Some (cid, At p) /\ read_type (data b) p = Some t /\ btf_is_composite t = true.

(** Member [i] of a structure, with its name; an anonymous one has none. *)
Definition member b (p : nat) (t : btf_type) (i : nat) (m : btf_member) (nm : option string) : Prop :=
  Z.of_nat i < btf_vlen t /\ btf_member_at b p i = Some m /\ name_at b (m_name_off m) = Some nm.

(** [reaches b id l as off cur]: from type [id], the numbers [l] lead, by the accessors
    [as], to a place [off] bits away, of type [cur]: first an element of an array of [id],
    then members, through anonymous ones, and elements. *)
Inductive reaches b (id : Z) : list Z -> list accessor -> Z -> Z -> Prop :=
  | reaches_root eid r e sz :
      skip_id b id = Some (eid, r) -> btf__resolve_size b eid = Some sz -> 0 <= sz ->
      0 <= e < 2 ^ 32 ->
      reaches b id [i32 e] [Accessor eid e None] (e * sz * 8) eid
  | reaches_anonymous l as_ off cur cid p t i m nm :
      reaches b id l as_ off cur -> composite_at b cur cid p t -> member b p t i m nm ->
      str_is_empty nm = true ->
      reaches b id (l ++ [Z.of_nat i]) as_ (off + btf_member_bit_offset t m) (m_type m)
  | reaches_field l as_ off cur cid p t i m nm :
      reaches b id l as_ off cur -> composite_at b cur cid p t -> member b p t i m nm ->
      str_is_empty nm = false ->
      reaches b id (l ++ [Z.of_nat i]) (as_ ++ [Accessor cid (Z.of_nat i) nm])
        (off + btf_member_bit_offset t m) (m_type m)
  | reaches_elem l as_ off cur cid p t a eid r e sz :
      reaches b id l as_ off cur -> skip_id b cur = Some (cid, At p) ->
      read_type (data b) p = Some t -> btf_is_array t = true -> btf_array_at b p = Some a ->
      skip_id b (a_type a) = Some (eid, r) -> btf__resolve_size b eid = Some sz -> 0 <= sz ->
      0 <= e < a_nelems a -> e < 2 ^ 32 ->
      reaches b id (l ++ [i32 e]) (as_ ++ [Accessor eid e None]) (off + e * sz * 8) eid.

(** The spec of a path: its bit offset is kept in 32 bits. *)
Definition denotes b (id : Z) s (cur : Z) : Prop :=
  exists off, reaches b id (raw s) (accs s) off cur /\ bit_offset s = u32 off.

(** The name at offset 0 is empty. *)
Lemma name_at_zero b : wf b -> name_at b 0 = Some (Some EmptyString).
Proof.
  intros Hwf. unfold name_at, btf__name_by_offset. destruct (wf_str_len _ Hwf) as [Hl _].
  rewrite (proj2 (Z.ltb_lt _ _)) by done. cbn [Z.to_nat]. rewrite Nat.add_0_r.
  pose proof (wf_first _ Hwf) as Hf. destruct (drop (strings b) (data b)) as [|c cs] eqn:E.
  { apply (f_equal (lookup 0%nat)) in E. rewrite lookup_drop, Nat.add_0_r, Hf in E. done. }
  apply (f_equal (lookup 0%nat)) in E. rewrite lookup_drop, Nat.add_0_r, Hf in E.
  injection E as <-. done.
Qed.

Lemma u32_add_l x y : u32 (u32 x + y) = u32 (x + y).
Proof. unfold u32. by rewrite Zplus_mod_idemp_l. Qed.

Lemma u32_add_r x y : u32 (x + u32 y) = u32 (x + y).
Proof. unfold u32. by rewrite Zplus_mod_idemp_r. Qed.

(** An offset computed with a signed index is the one of the unsigned index. *)
Lemma u32_elem off idx sz : u32 (off + idx * sz * 8) = u32 (off + u32 idx * sz * 8).
Proof.
  unfold u32. rewrite (Zplus_mod off (idx * sz * 8)), (Zplus_mod off (idx mod 2 ^ 32 * sz * 8)).
  do 2 f_equal. rewrite <- !Z.mul_assoc. by rewrite Zmult_mod_idemp_l.
Qed.

Lemma u32_range z : 0 <= u32 z < 2 ^ 32.
Proof. apply Z.mod_pos_bound. lia. Qed.

(** ** Parsing computes a path *)

Lemma scan_d_range bs v rest : scan_d bs = Some (Scanned v rest) -> - 2 ^ 31 <= v < 2 ^ 31.
Proof.
  unfold scan_d, scan_number. destruct (skip_space bs) as [|c cs]; [done|].
  destruct (sign (c :: cs)) as [sg [|c' cs']]; [done|]. destruct (negb _); [done|].
  destruct (digits (c' :: cs') 0) as [w r]. case_match eqn:E; [|done].
  apply andb_true_iff in E as [E1%Z.leb_le E2%Z.leb_le]. intros [= <- _]. lia.
Qed.

Lemma parse_raw_range fuel bs acc l :
  Forall (fun v => - 2 ^ 31 <= v < 2 ^ 31) acc -> (List.length acc <= 64)%nat ->
  parse_raw fuel bs acc = Some (inr l) ->
  Forall (fun v => - 2 ^ 31 <= v < 2 ^ 31) l /\ (List.length l <= 64)%nat.
Proof.
  revert bs acc. induction fuel as [|fuel IH]; intros bs acc Hacc Hlen; [done|]. cbn [parse_raw].
  destruct bs as [|c bs]; [by intros [= <-]|].
  intros (r & Hr & Hrun)%bind_Some. destruct r as [| |v rest]; [done..|].
  destruct (Z.eqb_spec (Z.of_nat (List.length acc)) BPF_CORE_SPEC_MAX_LEN) as [|Hne]; [done|].
  apply IH in Hrun; [done| |].
  - apply Forall_app; split; [done|]. constructor; [|constructor]. by eapply scan_d_range.
  - rewrite List.length_app. cbn. unfold BPF_CORE_SPEC_MAX_LEN in Hne. lia.
Qed.

Lemma elem_offset_eq idx sz d : elem_offset idx sz = Some d -> d = idx * sz * 8.
Proof. unfold elem_offset. intros Hd. cinv. lia. Qed.

Lemma push_acc_spec s a s' :
  push_acc s a = Some s' -> s' = CoreSpec (accs s ++ [a]) (raw s) (bit_offset s).
Proof. unfold push_acc. destruct (_ <? _); [by intros [= <-]|done]. Qed.

(** Where a path has come: the numbers [l] done. *)
Definition reached b (id : Z) (l : list Z) s (cur : Z) : Prop :=
  exists off, reaches b id l (accs s) off cur /\ bit_offset s = u32 off.

Lemma parse_member_reaches b id0 l s cur cid access_idx p t cur' s' :
  wf b -> reached b id0 l s cur -> composite_at b cur cid p t ->
  parse_member b cid access_idx p t s = Some (inr (cur', s')) ->
  reached b id0 (l ++ [access_idx]) s' cur' /\ raw s' = raw s.
Proof.
  intros Hwf (off & Hr & Hoff) Hc. unfold parse_member.
  destruct (Z.leb_spec (btf_vlen t) access_idx) as [|Hlt]; [done|].
  destruct (Z.ltb_spec access_idx 0) as [|Hpos]; [done|].
  intros (m & Hm & Hrun)%bind_Some.
  assert (access_idx = Z.of_nat (Z.to_nat access_idx)) as Ei by lia.
  destruct (Z.eqb_spec (m_name_off m) 0) as [E0|E0].
  - injection Hrun as <- <-. split; [|done]. exists (off + btf_member_bit_offset t m).
    cbn [accs add_offset bit_offset]. rewrite Hoff, u32_add_l. split; [|done].
    rewrite Ei. eapply reaches_anonymous; [done..|split; [lia|]|].
    + split; [done|]. rewrite E0. by apply name_at_zero.
    + done.
  - apply bind_Some in Hrun as (nm & Hnm & Hrun). destruct (str_is_empty nm) eqn:He; [done|].
    apply bind_Some in Hrun as (s1 & Hs1%push_acc_spec & [= <- <-]). subst s1. split; [|done].
    exists (off + btf_member_bit_offset t m). cbn [accs bit_offset add_offset].
    rewrite Hoff, u32_add_l. split; [|done]. rewrite Ei at 1 2.
    eapply reaches_field; [done..|by split; [lia|]|done].
Qed.

Lemma parse_elem_reaches b id0 l s cur cid access_idx p t cur' s' :
  reached b id0 l s cur -> skip_id b cur = Some (cid, At p) -> read_type (data b) p = Some t ->
  btf_is_array t = true -> - 2 ^ 31 <= access_idx < 2 ^ 31 ->
  parse_elem b access_idx p s = Some (inr (cur', s')) ->
  reached b id0 (l ++ [access_idx]) s' cur' /\ raw s' = raw s.
Proof.
  intros (off & Hr & Hoff) Hskip Ht Ha Hidx. unfold parse_elem.
  intros (a & Harr & ([eid er] & He & Hrun)%bind_Some)%bind_Some.
  destruct (Z.leb_spec (a_nelems a) (u32 access_idx)) as [|Hlt]; [done|].
  apply bind_Some in Hrun as (s1 & Hs1%push_acc_spec & (sz & Hsz & Hrun)%bind_Some). subst s1.
  destruct (Z.ltb_spec sz 0) as [|Hpos]; [done|].
  apply bind_Some in Hrun as (d & ->%elem_offset_eq & [= <- <-]). split; [|done].
  exists (off + u32 access_idx * sz * 8). cbn [accs bit_offset add_offset].
  rewrite Hoff, u32_add_l. split; [|apply u32_elem].
  rewrite <- (i32_u32 access_idx) at 1 by done. pose proof (u32_range access_idx).
  eapply reaches_elem; [done..|lia|lia].
Qed.

Lemma parse_accesses_reaches b id0 l done_ s cur s' :
  wf b -> Forall (fun v => - 2 ^ 31 <= v < 2 ^ 31) l -> reached b id0 done_ s cur ->
  parse_accesses b cur l s = Some (inr s') ->
  exists cur', reached b id0 (done_ ++ l) s' cur' /\ raw s' = raw s.
Proof.
  intros Hwf Hl. revert done_ s cur. induction Hl as [|v l Hv Hl IH]; intros done_ s cur Hr.
  { intros [= <-]. exists cur. by rewrite app_nil_r. }
  cbn [parse_accesses]. intros ([cid r] & Hskip & (t & Ht & Hrun)%bind_Some)%bind_Some.
  unfold rbind in Hrun. destruct (if btf_is_composite t then _ else _) as [[e|[cur1 s1]]|] eqn:E; [done| |done].
  assert (reached b id0 (done_ ++ [v]) s1 cur1 /\ raw s1 = raw s) as [Hr1 Hraw].
  { destruct (btf_is_composite t) eqn:Hc; [|destruct (btf_is_array t) eqn:Ha; [|done]];
      apply bind_Some in E as (p & Hp & E); (destruct r as [|p']; [done|]); injection Hp as ->.
    - by eapply parse_member_reaches.
    - by eapply parse_elem_reaches. }
  destruct (IH _ _ _ Hr1 Hrun) as (cur' & Hr' & Hraw'). exists cur'.
  rewrite <- app_assoc in Hr'. split; [done|]. congruence.
Qed.

(** What [bpf_core_spec_parse] answers is the path its numbers denote. *)
Theorem spec_parse_denotes b id str s :
  wf b -> bpf_core_spec_parse b id str = Some (inr s) ->
  (exists cur, denotes b id s cur) /\ (List.length (raw s) <= 64)%nat.
Proof.
  intros Hwf. unfold bpf_core_spec_parse. destruct str as [[|c str]|]; [done| |done].
  set (cs := to_bytes _). case_bool_decide; [done|]. unfold rbind at 1.
  destruct (parse_raw _ _ _) as [[e|l]|] eqn:Hl; [done| |done].
  apply parse_raw_range in Hl as [Hl Hlen]; [|constructor|cbn; lia].
  destruct l as [|v l]; [done|]. inversion Hl as [|?? Hv Hl']; subst.
  intros ([eid er] & He & (sz & Hsz & Hrun)%bind_Some)%bind_Some.
  destruct (Z.ltb_spec sz 0) as [|Hpos]; [done|]. apply bind_Some in Hrun as (d & ->%elem_offset_eq & Hrun).
  eapply (parse_accesses_reaches b id l [v]) in Hrun as (cur & (off & Hr & Hoff) & Hraw); [|done..|].
  - cbn [raw app] in *. rewrite Hraw. split; [|done]. exists cur, off. by rewrite Hraw.
  - exists (u32 v * sz * 8). cbn [accs bit_offset]. split.
    + rewrite <- (i32_u32 v) at 1 by done. eapply reaches_root; [done..|]. apply u32_range.
    + apply (u32_elem 0 v sz).
Qed.
End Reaches.

(** ** Matching finds the same path *)

Section Matching.
Context `{HostOrder} (targ : btf).
Implicit Types (s : core_spec) (nm : string).

(** The field [nm] of the structure behind a type: the numbers that lead to it through
    anonymous members, its accessor, its offset, its type. *)
Inductive field_path nm : Z -> list Z -> accessor -> Z -> Z -> Prop :=
  | field_here id cid p t i m :
      composite_at targ id cid p t -> member targ p t i m (Some nm) ->
      str_is_empty (Some nm) = false ->
      field_path nm id [Z.of_nat i] (Accessor cid (Z.of_nat i) (Some nm))
        (btf_member_bit_offset t m) (m_type m)
  | field_inside id cid p t i m n l a off cur :
      composite_at targ id cid p t -> member targ p t i m n -> str_is_empty n = true ->
      field_path nm (m_type m) l a off cur ->
      field_path nm id (Z.of_nat i :: l) a (btf_member_bit_offset t m + off) cur.

(** Member [i] of the structure at [p] is the field [nm], or has it inside. *)
Inductive visible nm : nat -> nat -> Prop :=
  | visible_here id cid p t i m :
      composite_at targ id cid p t -> member targ p t i m (Some nm) ->
      str_is_empty (Some nm) = false -> visible nm p i
  | visible_inside id cid p t i m n cid' q t' j :
      composite_at targ id cid p t -> member targ p t i m n -> str_is_empty n = true ->
      composite_at targ (m_type m) cid' q t' -> visible nm q j -> visible nm p i.

(** The language has it that no name occurs twice among the fields of a structure. *)
Definition unambiguous : Prop := forall nm p i j, visible nm p i -> visible nm p j -> i = j.

Lemma reaches_path id0 nm l as_ off id l' a off' cur :
  reaches targ id0 l as_ off id -> field_path nm id l' a off' cur ->
  reaches targ id0 (l ++ l') (as_ ++ [a]) (off + off') cur.
Proof.
  intros Hr Hp. revert l off Hr.
  induction Hp as [id cid p t i m Hc Hm He|id cid p t i m n l' a off' cur Hc Hm He Hp IH]; intros l off Hr.
  - by eapply reaches_field.
  - rewrite cons_middle, app_assoc, Z.add_assoc. apply IH. by eapply reaches_anonymous.
Qed.

Lemma path_visible nm id l a off cur cid p t :
  field_path nm id l a off cur -> composite_at targ id cid p t -> exists i, visible nm p i.
Proof.
  intros Hp. revert cid p t. induction Hp as [id cid p t i m Hc Hm He|id cid p t i m n l' a off' cur Hc Hm He Hp IH];
    intros cid' p' t' (Hs & Ht & Hk).
  - pose proof Hc as (Hs' & Ht' & _). rewrite Hs in Hs'. injection Hs' as <- <-. rewrite Ht in Ht'.
    injection Ht' as <-. exists i. by eapply visible_here.
  - pose proof Hc as (Hs' & Ht' & _). rewrite Hs in Hs'. injection Hs' as <- <-. rewrite Ht in Ht'.
    injection Ht' as <-. exists i. inversion Hp; subst.
    + destruct (IH _ _ _ ltac:(eassumption)) as [j Hj]. by eapply visible_inside.
    + destruct (IH _ _ _ ltac:(eassumption)) as [j Hj]. by eapply visible_inside.
Qed.

Context (local : btf) (member_id : Z).

(** What a search for [nm] behind [id] may answer: an error; the field, its type
    compatible with that of the local member, and the spec extended by its path; or
    nothing, in which case the spec is as it was or there is a field of that name. *)
Definition searched nm (id : Z) s (r : search) : Prop :=
  found r < 0 \/
  found r = 1 /\ bpf_core_fields_are_compat local member_id targ (next_id r) = Some 1 /\
    (exists l a off, field_path nm id l a off (next_id r) /\
       out_spec r = CoreSpec (accs s ++ [a]) (raw s ++ l) (u32 (bit_offset s + off))) \/
  found r = 0 /\ (out_spec r = s \/ exists cid p t i, composite_at targ id cid p t /\ visible nm p i).

Lemma fields_compat_bool fuel lid tid c : fields_compat fuel local lid targ tid = Some c -> c = 0 \/ c = 1.
Proof.
  assert (forall x : bool, Z.b2z x = 0 \/ Z.b2z x = 1) as Hb by (intros []; auto).
  revert lid tid c. induction fuel as [|fuel IH]; intros lid tid c; [done|]. cbn [fields_compat].
  intros ([? ?] & _ & (lt & _ & ([? ?] & _ & (tt & _ & Hrun)%bind_Some)%bind_Some)%bind_Some)%bind_Some.
  destruct (_ && _); [injection Hrun; auto|]. destruct (negb _); [injection Hrun; auto|].
  destruct (btf_is_ptr lt); [injection Hrun; auto|]. destruct (_ || btf_is_enum lt).
  { apply bind_Some in Hrun as (? & _ & (? & _ & (? & _ & (? & _ & [= <-])%bind_Some)%bind_Some)%bind_Some). apply Hb. }
  destruct (is_kind BTF_KIND_INT lt).
  { apply bind_Some in Hrun as (? & _ & Hrun). destruct (negb _); [injection Hrun; auto|].
    apply bind_Some in Hrun as (? & _ & [= <-]). apply Hb. }
  destruct (btf_is_array lt); [|injection Hrun; auto].
  apply bind_Some in Hrun as (? & _ & (? & _ & (? & _ & (? & _ & Hrun)%bind_Some)%bind_Some)%bind_Some).
  by eapply IH.
Qed.

(** Taking back what was done for a member. *)
Lemma pop_push s d i : bit_offset s = u32 (bit_offset s) ->
  pop_raw (add_offset (push_raw (add_offset s d) i) (- d)) = s.
Proof.
  intros Hb. unfold pop_raw, add_offset, push_raw. cbn [accs raw bit_offset].
  rewrite List.length_app, take_app_le, take_ge by (cbn; lia). rewrite u32_add_l.
  replace (bit_offset s + d + - d) with (bit_offset s) by lia. rewrite <- Hb. by destruct s.
Qed.

Lemma pop_acc_push s a : pop_acc (CoreSpec (accs s ++ [a]) (raw s) (bit_offset s)) = s.
Proof.
  unfold pop_acc. cbn [accs raw bit_offset]. rewrite List.length_app, take_app_le, take_ge by (cbn; lia).
  by destruct s.
Qed.

Lemma match_members_spec (deeper : Z -> core_spec -> Z -> option search) lm nm id cid p t n i s0 s next r :
  unambiguous -> m_type lm = member_id -> composite_at targ id cid p t ->
  (forall id s next r, bit_offset s = u32 (bit_offset s) -> deeper id s next = Some r -> searched nm id s r) ->
  (Z.of_nat i + Z.of_nat n = btf_vlen t) -> bit_offset s0 = u32 (bit_offset s0) ->
  (s = s0 \/ exists i', (i' < i)%nat /\ visible nm p i') ->
  match_members deeper local lm (Some nm) targ cid p t n i s next = Some r -> searched nm id s0 r.
Proof.
  intros Hun Hlm Hc Hdeep Hn Hb0. pose proof Hc as (Hskip & Ht & Hk).
  revert i s next Hn. induction n as [|n IH]; intros i s next Hn Hs; cbn [match_members].
  { intros [= <-]. right; right. split; [done|]. cbn [out_spec].
    destruct Hs as [->|(i' & _ & Hv)]; [by left|]. right. by eauto 10. }
  intros (m & Hm & Hrun)%bind_Some. destruct (raw_len s =? _); [injection Hrun as <-; by left|].
  apply bind_Some in Hrun as (targ_name & Hname & Hrun).
  assert (member targ p t i m targ_name) as Hmem by (split; [lia|done]).
  set (s1 := push_raw (add_offset s (btf_member_bit_offset t m)) (Z.of_nat i)) in *.
  assert (bit_offset s1 = u32 (bit_offset s1)) as Hb1.
  { unfold s1. cbn [bit_offset push_raw add_offset]. symmetry. apply u32_id, u32_range. }
  assert (forall s2 next2, s2 = s1 \/ visible nm p i ->
    match_members deeper local lm (Some nm) targ cid p t n (i + 1)
      (pop_raw (add_offset s2 (- btf_member_bit_offset t m))) next2 = Some r -> searched nm id s0 r) as Hgo.
  { intros s2 next2 Hs2. apply IH; [lia|]. destruct Hs2 as [->|Hv]; [|right; exists i; split; [lia|done]].
    destruct Hs as [->|(i' & Hi' & Hv)]; [left; by apply pop_push|]. right. exists i'. split; [lia|done]. }
  (* A success here is the only one there can be. *)
  assert (forall r2 l a off, visible nm p i ->
    field_path nm id l a (btf_member_bit_offset t m + off) (next_id r2) -> found r2 = 1 ->
    bpf_core_fields_are_compat local member_id targ (next_id r2) = Some 1 ->
    out_spec r2 = CoreSpec (accs s1 ++ [a]) (raw s ++ l) (u32 (bit_offset s1 + off)) ->
    searched nm id s0 r2) as Hfound.
  { intros r2 l a off Hv Hpath Hf Hcomp Ho. destruct Hs as [->|(i' & Hi' & Hv')].
    2:{ pose proof (Hun _ _ _ _ Hv Hv'). lia. }
    right; left. split; [done|]. split; [done|]. exists l, a, (btf_member_bit_offset t m + off). split; [done|].
    rewrite Ho. unfold s1. cbn [accs bit_offset push_raw add_offset]. by rewrite u32_add_l, Z.add_assoc. }
  destruct (str_is_empty targ_name) eqn:He.
  - apply bind_Some in Hrun as (r1 & Hr1 & Hrun). pose proof (Hdeep _ _ _ _ Hb1 Hr1) as [Hneg|[Hone|Hzero]].
    + rewrite (proj2 (Z.eqb_neq _ _)) in Hrun by lia. injection Hrun as <-. by left.
    + destruct Hone as (Hf & Hcomp & l & a & off & Hpath & Ho). rewrite Hf in Hrun. injection Hrun as <-.
      eapply (Hfound _ (Z.of_nat i :: l) a off); [| |done|done|].
      * inversion Hpath; subst; (edestruct path_visible as [j Hj]; [exact Hpath|eassumption|]);
          by eapply visible_inside.
      * by eapply field_inside.
      * rewrite Ho. unfold s1. cbn [raw push_raw add_offset]. by rewrite <- app_assoc.
    + destruct Hzero as (Hf & Ho). rewrite Hf in Hrun. cbn [negb Z.eqb] in Hrun. eapply Hgo; [|exact Hrun].
      destruct Ho as [->|(cid' & q & t' & j & Hc' & Hv)]; [by left|]. right. by eapply visible_inside.
  - cbn [mbind option_bind] in Hrun. case_bool_decide as Hnm; [|eapply Hgo; [|exact Hrun]; by left].
    subst targ_name. assert (visible nm p i) as Hv by by eapply visible_here.
    apply bind_Some in Hrun as (s2 & ->%push_acc_spec & (c & Hcomp & [= <-])%bind_Some).
    pose proof Hcomp as [->| ->]%fields_compat_bool.
    + right; right. split; [done|]. right. by eauto 10.
    + cbn [Z.eqb]. eapply (Hfound _ [Z.of_nat i] _ 0); [done| |done|by rewrite <- Hlm| ].
      * rewrite Z.add_0_r. by eapply field_here.
      * cbn [out_spec]. rewrite Z.add_0_r. by f_equal.
Qed.

Lemma skip_id_type b id cid r : skip_id b id = Some (cid, r) -> btf__type_by_id b cid = Some r.
Proof.
  unfold skip_id. generalize (S (S (List.length (types b)))) as fuel. intros fuel. revert id.
  induction fuel as [|fuel IH]; intros id; [done|]. cbn [skip_id_loop].
  intros (r0 & Hr0 & (t & _ & Hrun)%bind_Some)%bind_Some. destruct (_ || _); [by eapply IH|].
  by injection Hrun as <- <-.
Qed.

(** The member a named accessor stands for. *)
Definition acc_member b (a : accessor) : option btf_member :=
  r ← btf__type_by_id b (acc_type_id a); p ← place r; btf_member_at b p (Z.to_nat (acc_idx a)).

(** A named accessor has the name of its member. *)
Definition acc_ok b (a : accessor) : Prop :=
  0 <= acc_idx a < 2 ^ 32 /\
  forall nm, acc_name a = Some nm ->
    exists m, acc_member b a = Some m /\ name_at b (m_name_off m) = Some (Some nm).

Lemma acc_member_at b id cid p t i m (nm nm' : option string) :
  composite_at b id cid p t -> member b p t i m nm ->
  acc_member b (Accessor cid (Z.of_nat i) nm') = Some m.
Proof.
  intros (Hs & _) (_ & Hm & _). unfold acc_member. cbn [acc_type_id acc_idx].
  by rewrite (skip_id_type _ _ _ _ Hs), Nat2Z.id.
Qed.

Lemma reaches_accs_ok b id l as_ off cur : reaches b id l as_ off cur -> Forall (acc_ok b) as_.
Proof.
  assert (forall t, btf_vlen t <= 65535) as Hv.
  { intros t. unfold btf_vlen. change 65535 with (Z.ones 16). rewrite Z.land_ones by lia.
    pose proof (Z.mod_pos_bound (info t) (2 ^ 16)). change (Z.ones 16) with 65535. lia. }
  induction 1 as [eid r e sz Hs Hsz Hpos He|l as_ off cur cid p t i m nm Hr IH Hc Hm He|
    l as_ off cur cid p t i m nm Hr IH Hc Hm He|l as_ off cur cid p t a eid r e sz Hr IH Hs Ht Ha Harr Hs' Hsz Hpos He Hb];
    [|done|apply Forall_app; split; [done|]..].
  - constructor; [|constructor]. by split.
  - constructor; [|constructor]. split; [cbn; destruct Hm as [Hm _]; specialize (Hv t); lia|].
    intros nm' E. cbn in E. subst nm. exists m. split; [by eapply acc_member_at|]. by destruct Hm as (_ & _ & ?).
  - constructor; [|constructor]. split; [cbn; lia|done].
Qed.

(** Following typedefs twice is following them once. *)
Lemma skip_id_idem b id cid r : skip_id b id = Some (cid, r) -> skip_id b cid = Some (cid, r).
Proof.
  unfold skip_id. generalize (S (S (List.length (types b)))) at 1 as fuel. intros fuel. revert id.
  induction fuel as [|fuel IH]; intros id; [done|]. cbn [skip_id_loop].
  intros (r0 & Hr0 & (t & Ht & Hrun)%bind_Some)%bind_Some. destruct (_ || _) eqn:E; [by eapply IH|].
  injection Hrun as <- <-. rewrite Hr0. cbn [mbind option_bind]. rewrite Ht. cbn [mbind option_bind]. by rewrite E.
Qed.

Lemma field_path_skip nm id cid r l a off cur :
  skip_id targ id = Some (cid, r) -> field_path nm cid l a off cur -> field_path nm id l a off cur.
Proof.
  intros Hs. assert (forall c p t, composite_at targ cid c p t -> composite_at targ id c p t) as Hc.
  { intros c p t (Hs' & Hrest). split; [|done]. rewrite (skip_id_idem _ _ _ _ Hs) in Hs'. by injection Hs' as <- ->. }
  inversion 1; subst; [eapply field_here|eapply field_inside]; eauto.
Qed.

(** The accessor of a field has its name and its member. *)
Lemma field_path_acc nm id l a off cur :
  field_path nm id l a off cur ->
  acc_name a = Some nm /\ exists m, acc_member targ a = Some m /\ m_type m = cur.
Proof.
  induction 1 as [id cid p t i m Hc Hm He|]; [|done]. split; [done|]. exists m. split; [|done].
  by eapply acc_member_at.
Qed.

(** The first accessor is an element. *)
Lemma reaches_head b id l as_ off cur : reaches b id l as_ off cur ->
  exists eid e rest, as_ = Accessor eid e None :: rest.
Proof.
  induction 1 as [eid r e sz|l as_ off cur cid p t i m nm Hr IH|l as_ off cur cid p t i m nm Hr IH|
    l as_ off cur cid p t a eid r e sz Hr IH]; [by eauto|done|..];
    destruct IH as (eid0 & e0 & rest & ->); by eexists eid0, e0, _.
Qed.

(** *** One accessor *)

Lemma match_member_spec fuel a nm m id s next r :
  unambiguous -> acc_name a = Some nm -> acc_member local a = Some m ->
  name_at local (m_name_off m) = Some (Some nm) -> m_type m = member_id ->
  bit_offset s = u32 (bit_offset s) ->
  match_member fuel local a targ id s next = Some r -> searched nm id s r.
Proof.
  intros Hun Ha Hm Hname Hid. revert id s next r.
  induction fuel as [|fuel IH]; intros id s next r Hb; [done|]. cbn [match_member].
  intros ([cid tr] & Hskip & (t & Ht & Hrun)%bind_Some)%bind_Some.
  destruct (btf_is_composite t) eqn:Hk; cbn [negb] in Hrun; [|injection Hrun as <-; right; right; by eauto].
  apply bind_Some in Hrun as (p & Hp & Hrun). destruct tr as [|p']; [done|]. injection Hp as ->.
  unfold acc_member in Hm. apply bind_Some in Hm as (lr & Hlr & (lp & Hlp & Hm)%bind_Some).
  rewrite Hlr in Hrun. cbn [mbind option_bind] in Hrun. rewrite Hlp in Hrun. cbn [mbind option_bind] in Hrun.
  rewrite Hm in Hrun. cbn [mbind option_bind] in Hrun. rewrite Hname in Hrun. cbn [mbind option_bind] in Hrun.
  eapply match_members_spec; [done|done|by split|exact IH| |done|by left|exact Hrun].
  unfold btf_vlen. rewrite Z2Nat.id by (apply Z.land_nonneg; right; lia). lia.
Qed.
End Matching.

Section Specs.
Context `{HostOrder} (local targ : btf).
Context (Hbytes : Forall byte_ok (data targ)) (Hun : unambiguous targ).
Implicit Types (s : core_spec).

(** The accessors of the two sides agree: the same name, of compatible types, or the
    same index. *)
Definition agrees (a a' : accessor) : Prop :=
  acc_name a' = acc_name a /\
  match acc_name a with
  | None => acc_idx a' = acc_idx a
  | Some _ => exists m m', acc_member local a = Some m /\ acc_member targ a' = Some m' /\
      bpf_core_fields_are_compat local (m_type m) targ (m_type m') = Some 1
  end.

Lemma resolve_loop_errors depth r n e :
  resolve_size_loop depth targ r n = Some (inl e) -> e = - E2BIG \/ e = - EINVAL.
Proof.
  revert r n. induction depth as [|depth IH]; intros r n; cbn [resolve_size_loop]; [done|].
  destruct r as [r|]; [|done]. intros (t & _ & Hr)%bind_Some.
  do 3 (case_match; [done|]). case_match; [by eapply IH|]. case_match; [|injection Hr as <-; by right].
  apply bind_Some in Hr as (a & _ & Hr). case_match; [injection Hr as <-; by left|by eapply IH].
Qed.

Lemma resolve_size_errors id v :
  btf__resolve_size targ id = Some v -> v < 0 -> v = - E2BIG \/ v = - EINVAL.
Proof.
  unfold btf__resolve_size. intros ([e|[sz n]] & Hrun & Hv)%bind_Some Hneg.
  - injection Hv as ->. by apply resolve_loop_errors in Hrun.
  - destruct (Z.ltb_spec sz 0); [injection Hv as <-; by right|].
    destruct (resolve_loop_sound targ _ _ _ _ _ Hrun) as (dims & k & Hs & _ & ->); [done|].
    destruct (sized_nonneg targ Hbytes _ _ _ _ Hs) as [Hsz Hd].
    assert (0 <= product dims) as Hp by (unfold product; clear -Hd; induction Hd; cbn; lia).
    destruct (_ && _); injection Hv as <-; [by left|].
    assert (0 <= 1 * product dims * sz) by (apply Z.mul_nonneg_nonneg; lia). lia.
Qed.

Lemma resolve_size_range id v : btf__resolve_size targ id = Some v -> - 2 ^ 31 <= v < 2 ^ 32.
Proof.
  intros Hv. destruct (Z.ltb_spec v 0) as [Hneg|Hpos].
  - destruct (resolve_size_errors _ _ Hv Hneg) as [->| ->]; by vm_compute.
  - destruct (resolve_size_sound targ Hbytes _ _ Hv Hpos) as (? & ? & ? & _ & _ & _ & Hu).
    unfold UINT32_MAX in Hu. lia.
Qed.

(** The offset of an element, computed in 32 bits. *)
Lemma elem_32 e v : - 2 ^ 31 <= v < 2 ^ 32 -> 0 <= i32 v -> 0 <= v /\ u32 (e * i32 v * 8) = u32 (e * v * 8).
Proof.
  intros Hv Hi. destruct (Z.ltb_spec v (2 ^ 31)).
  - rewrite i32_id in Hi |- * by lia. done.
  - exfalso. revert Hi. unfold i32. replace (v + 2 ^ 31) with (v - 2 ^ 31 + 1 * 2 ^ 32) by lia.
    rewrite Z_mod_plus_full, Z.mod_small by lia. lia.
Qed.

Lemma place_elem_spec e id s id' s' :
  place_elem targ e id s = Some (inr (id', s')) ->
  id' = id /\ exists sz, btf__resolve_size targ id = Some sz /\ 0 <= sz /\
    s' = CoreSpec (accs s ++ [Accessor id e None]) (raw s ++ [i32 e]) (u32 (bit_offset s + e * sz * 8)).
Proof.
  unfold place_elem. destruct (_ =? _); [done|].
  intros (s1 & ->%push_acc_spec & (sz & Hsz & Hrun)%bind_Some)%bind_Some.
  destruct (Z.ltb_spec (i32 sz) 0) as [|Hpos]; [done|]. injection Hrun as <- <-. split; [done|].
  destruct (elem_32 e sz) as [Hz Ho]; [by eapply resolve_size_range|done|].
  exists sz. split; [done|]. split; [done|]. unfold add_offset, push_raw. cbn [accs raw bit_offset].
  f_equal. by rewrite u32_add_r, <- (u32_add_r _ (e * sz * 8)), <- Ho, u32_add_r.
Qed.

Lemma place_elem_stops e id s c : place_elem targ e id s = Some (inl c) -> c <= 0.
Proof.
  unfold place_elem. destruct (_ =? _); [by intros [= <-]|].
  intros (s1 & _ & (sz & _ & Hrun)%bind_Some)%bind_Some.
  destruct (Z.ltb_spec (i32 sz) 0); [injection Hrun as <-; lia|done].
Qed.

Lemma match_elem_first e id r t s : match_elem targ true e id r t s = place_elem targ e id s.
Proof. reflexivity. Qed.

(** The first accessor of a path: an element of an array of the root type. *)
Lemma match_root id cid r t e s' cur :
  skip_id targ id = Some (cid, r) -> 0 <= e < 2 ^ 32 ->
  match_elem targ true e cid r t empty_spec = Some (inr (cur, s')) ->
  denotes targ id s' cur /\ accs s' = [Accessor cur e None].
Proof.
  intros Hs He Hrun. rewrite match_elem_first in Hrun. apply place_elem_spec in Hrun as (-> & sz & Hsz & Hz & ->).
  cbn [accs raw bit_offset empty_spec app]. rewrite Z.add_0_l. split; [|reflexivity].
  exists (e * sz * 8). cbn [accs raw bit_offset]. split; [by eapply reaches_root|reflexivity].
Qed.

Lemma match_elem_reaches id0 s cur cid r t e cur' s' :
  denotes targ id0 s cur -> skip_id targ cur = Some (cid, r) -> deref targ r = Some t ->
  0 <= e < 2 ^ 32 -> match_elem targ false e cid r t s = Some (inr (cur', s')) ->
  denotes targ id0 s' cur' /\ accs s' = accs s ++ [Accessor cur' e None].
Proof.
  intros (off & Hr & Hoff) Hs Ht He. unfold match_elem.
  destruct (btf_is_array t) eqn:Ha; cbn [negb]; [|done].
  intros (p & Hp & (a & Harr & Hrun)%bind_Some)%bind_Some. destruct r as [|p']; [done|]. injection Hp as ->.
  destruct (Z.leb_spec (a_nelems a) e) as [|Hlt]; [done|].
  apply bind_Some in Hrun as ([eid er] & Heid & (-> & sz & Hsz & Hz & ->)%place_elem_spec).
  split; [|done]. exists (off + e * sz * 8). cbn [raw accs bit_offset]. rewrite Hoff, u32_add_l.
  split; [|done]. eapply reaches_elem; [done..|lia|lia].
Qed.

Lemma match_elem_stops first e id r t s c : match_elem targ first e id r t s = Some (inl c) -> c <= 0.
Proof.
  unfold match_elem. destruct first; [apply place_elem_stops|].
  destruct (negb _); [by intros [= <-]|]. intros (p & _ & (a & _ & Hrun)%bind_Some)%bind_Some.
  destruct (_ <=? _); [by injection Hrun as <-|].
  apply bind_Some in Hrun as ([? ?] & _ & Hrun). by eapply place_elem_stops.
Qed.

Lemma match_accs_reaches id0 l s cur s' :
  denotes targ id0 s cur -> Forall (acc_ok local) l ->
  match_accs local targ false l cur s = Some (1, s') ->
  exists cur' l', denotes targ id0 s' cur' /\ accs s' = accs s ++ l' /\ Forall2 agrees l l'.
Proof.
  intros Hd Hl. revert s cur Hd. induction Hl as [|a l Ha Hl IH]; intros s cur Hd; cbn [match_accs].
  { intros [= <-]. exists cur, []. by rewrite app_nil_r. }
  intros ([cid r] & Hskip & (t & Ht & Hrun)%bind_Some)%bind_Some.
  assert (exists cur1 s1 a', match_accs local targ false l cur1 s1 = Some (1, s') /\
    denotes targ id0 s1 cur1 /\ accs s1 = accs s ++ [a'] /\ agrees a a') as (cur1 & s1 & a' & Hrun1 & Hd1 & Ha1 & Hag).
  { destruct Ha as [Hidx Hname]. unfold agrees. destruct (acc_name a) as [nm|] eqn:En.
    - apply bind_Some in Hrun as (x & Hx & Hrun). destruct (Hname nm) as (m & Hm & Hnm); [done|].
      destruct Hd as (off & Hr & Hoff).
      assert (bit_offset s = u32 (bit_offset s)) as Hb by (rewrite Hoff; symmetry; apply u32_id, u32_range).
      unfold bpf_core_match_member in Hx. revert Hx. generalize MAX_DEPTH. intros fuel Hx.
      apply (match_member_spec targ local (m_type m) fuel a nm m cid s cid x Hun En Hm Hnm eq_refl Hb) in Hx.
      destruct (Z.leb_spec (found x) 0) as [Hle|Hgt]; [injection Hrun as E _; lia|].
      destruct Hx as [?|[(_ & Hcomp & l' & a' & off' & Hpath & Ho)|[? _]]]; [lia| |lia].
      exists (next_id x), (out_spec x), a'. split; [done|]. rewrite Ho. cbn [accs]. split; [|split; [done|]].
      + exists (off + off'). cbn [raw accs bit_offset]. rewrite Hoff, u32_add_l. split; [|done].
        eapply reaches_path; [exact Hr|]. by eapply field_path_skip.
      + destruct (field_path_acc _ _ _ _ _ _ _ Hpath) as (Hn' & m' & Hm' & Hid). split; [done|].
        exists m, m'. by rewrite Hid.
    - apply bind_Some in Hrun as (x & Hx & Hrun). destruct x as [c|[cur1 s1]].
      { injection Hrun as E _. apply match_elem_stops in Hx. lia. }
      eapply match_elem_reaches in Hx as [Hd1 Ha1]; [|done..].
      by exists cur1, s1, (Accessor cur1 (acc_idx a) None). }
  destruct (IH _ _ Hd1 Hrun1) as (cur' & l' & Hd' & Ha' & Hf). exists cur', (a' :: l').
  rewrite Ha', Ha1, <- app_assoc. split; [done|]. split; [done|]. by constructor.
Qed.

(** When a path of the program's types is matched in a type of the target, the spec
    that results is a path from that type: its numbers lead, through fields of the same
    names and compatible types and elements of the same indices, to the bit offset it
    gives. *)
Theorem spec_match_denotes lid lspec tid tspec lcur :
  denotes local lid lspec lcur ->
  bpf_core_spec_match local lspec targ tid = Some (1, tspec) ->
  (exists cur, denotes targ tid tspec cur) /\ Forall2 agrees (accs lspec) (accs tspec).
Proof.
  intros (off & Hr & _). unfold bpf_core_spec_match.
  pose proof (reaches_accs_ok local _ _ _ _ _ Hr) as Hok.
  assert (exists eid e rest, accs lspec = Accessor eid e None :: rest) as (eid & e & rest & Ea).
  { apply (reaches_head local _ _ _ _ _ Hr). }
  rewrite Ea in Hok |- *. inversion Hok as [|?? [Hidx _] Hrest]; subst. cbn [match_accs acc_name acc_idx] in *.
  intros ([cid r] & Hskip & (t & Ht & Hrun)%bind_Some)%bind_Some.
  apply bind_Some in Hrun as (x & Hx & Hrun). destruct x as [c|[cur1 s1]].
  { injection Hrun as E _. apply match_elem_stops in Hx. lia. }
  eapply match_root in Hx as [Hd Ha]; [|done..].
  destruct (match_accs_reaches _ _ _ _ _ Hd Hrest Hrun) as (cur & l' & Hd' & Ha' & Hf).
  split; [by exists cur|]. rewrite Ha', Ha. constructor; [done|exact Hf].
Qed.

(** The first accessor of the match names the type behind the candidate. *)
Lemma spec_match_root lid lspec tid tspec lcur a :
  denotes local lid lspec lcur -> bpf_core_spec_match local lspec targ tid = Some (1, tspec) ->
  head (accs tspec) = Some a -> exists r, skip_id targ tid = Some (acc_type_id a, r).
Proof.
  intros Hd Hm Ha. destruct (spec_match_denotes _ _ _ _ _ Hd Hm) as [(cur & off & Hr & _) _].
  clear -Hr Ha. revert a Ha. induction Hr as [eid r e sz Hs|l as_ off cur cid p t i m nm Hr IH|
    l as_ off cur cid p t i m nm Hr IH|l as_ off cur cid p t x eid r e sz Hr IH]; intros a Ha.
  - injection Ha as <-. by exists r.
  - by apply IH.
  - apply IH. destruct (reaches_head targ _ _ _ _ _ Hr) as (? & ? & ? & ->). exact Ha.
  - apply IH. destruct (reaches_head targ _ _ _ _ _ Hr) as (? & ? & ? & ->). exact Ha.
Qed.
End Specs.
