(* ===== verification/CoreFields.v ===== *)
(** * CO-RE: a field that is not matched is not there

    [CoreSpec] shows that what [bpf_core_spec_match] finds is the same field.  This file
    has the converse: when it answers 0 the type has no such field, where [has_field]
    says what it is to have one without speaking of the search. *)

From S2P Require Import Prelude Packet BpfMap BpfObject Btf BtfMaps CoreSpec.
From Stdlib Require Import Ascii String.
From stdpp Require Import list.

Local Open Scope Z_scope.

Section Paths.
Context `{HostOrder} (targ : btf).
Implicit Types (s : core_spec) (nm : string).

(** A path of fields and elements from a type: its accessors, and where it ends. *)
Inductive leads : Z -> list accessor -> Z -> Prop :=
  | leads_end cur : leads cur [] cur
  | leads_field nm cur l a off cur1 as_ fin :
      field_path targ nm cur l a off cur1 -> leads cur1 as_ fin -> leads cur (a :: as_) fin
  | leads_elem cur cid p t arr eid r e as_ fin :
      skip_id targ cur = Some (cid, At p) -> read_type (data targ) p = Some t ->
      btf_is_array t = true -> btf_array_at targ p = Some arr ->
      skip_id targ (a_type arr) = Some (eid, r) -> e < a_nelems arr ->
      leads eid as_ fin -> leads cur (Accessor eid e None :: as_) fin.

(** The first step of a path to a field: a member that shows the field. *)
Lemma field_path_first nm id l a off cur cid p t :
  field_path targ nm id l a off cur -> composite_at targ id cid p t ->
  exists i l', l = Z.of_nat i :: l' /\ visible targ nm p i.
Proof.
  intros Hp (Hs & Ht & Hk).
  assert (forall id' cid' p' t', composite_at targ id' cid' p' t' -> id' = id -> p' = p) as Hsame.
  { intros id' cid' p' t' (Hs' & _) ->. rewrite Hs in Hs'. by injection Hs'. }
  destruct Hp as [id cid' p' t' i m Hc Hm He|id cid' p' t' i m n l a off cur Hc Hm He Hp].
  - rewrite <- (Hsame _ _ _ _ Hc eq_refl). exists i, []. split; [done|]. by eapply visible_here.
  - rewrite <- (Hsame _ _ _ _ Hc eq_refl). exists i, l. split; [done|].
    assert (exists cid2 q t2, composite_at targ (m_type m) cid2 q t2) as (cid2 & q & t2 & Hc2)
      by (inversion Hp; subst; eauto).
    destruct (path_visible targ _ _ _ _ _ _ _ _ _ Hp Hc2) as [j Hj]. by eapply visible_inside.
Qed.

Lemma composite_unique id cid p t cid' p' t' :
  composite_at targ id cid p t -> composite_at targ id cid' p' t' -> cid = cid' /\ p = p' /\ t = t'.
Proof.
  intros (Hs & Ht & _) (Hs' & Ht' & _). rewrite Hs in Hs'. injection Hs' as -> ->.
  rewrite Ht in Ht'. by injection Ht'.
Qed.

Lemma member_unique p t i m m' (nm nm' : option string) :
  member targ p t i m nm -> member targ p t i m' nm' -> m = m' /\ nm = nm'.
Proof.
  intros (_ & Hm & Hn) (_ & Hm' & Hn'). rewrite Hm in Hm'. injection Hm' as <-.
  rewrite Hn in Hn'. by injection Hn'.
Qed.

Context (Hun : unambiguous targ).

(** The two ways a path goes on from a structure. *)
Lemma field_path_inv nm id cid p t l a off cur :
  composite_at targ id cid p t -> field_path targ nm id l a off cur ->
  exists i m n, member targ p t i m n /\ visible targ nm p i /\
    (str_is_empty n = false /\ n = Some nm /\ l = [Z.of_nat i] /\ a = Accessor cid (Z.of_nat i) (Some nm) /\
       off = btf_member_bit_offset t m /\ cur = m_type m \/
     str_is_empty n = true /\ exists l' off', l = Z.of_nat i :: l' /\
       off = btf_member_bit_offset t m + off' /\ field_path targ nm (m_type m) l' a off' cur).
Proof.
  intros Hc Hp. destruct (field_path_first _ _ _ _ _ _ _ _ _ Hp Hc) as (i & l0 & -> & Hv). 
  inversion Hp as [? cid2 p2 t2 i2 m2 Hc2 Hm2 He2|? cid2 p2 t2 i2 m2 n2 ? ? ? ? Hc2 Hm2 He2 Hp2]; subst;
    destruct (composite_unique _ _ _ _ _ _ _ Hc Hc2) as (<- & <- & <-);
    match goal with E : Z.of_nat _ = Z.of_nat i |- _ => apply Nat2Z.inj in E; subst i2 end.
  - exists i, m2, (Some nm). split; [done|]. split; [done|]. left. done.
  - exists i, m2, n2. split; [done|]. split; [done|]. right. eauto 10.
Qed.

(** A structure has at most one field of a name. *)
Lemma field_path_unique nm id l a off cur l' a' off' cur' :
  field_path targ nm id l a off cur -> field_path targ nm id l' a' off' cur' ->
  l = l' /\ a = a' /\ off = off' /\ cur = cur'.
Proof.
  intros Hp. revert l' a' off' cur'.
  induction Hp as [id cid p t i m Hc Hm He|id cid p t i m n l a off cur Hc Hm He Hp IH]; intros l' a' off' cur' Hp';
    destruct (field_path_inv _ _ _ _ _ _ _ _ _ Hc Hp') as (i' & m' & n' & Hm' & Hv' & Hcase).
  - assert (i' = i) as -> by (apply (Hun nm p); [done|by eapply visible_here]).
    destruct (member_unique _ _ _ _ _ _ _ Hm Hm') as [<- <-].
    destruct Hcase as [(_ & _ & -> & -> & -> & ->)|(He' & _)]; [done|congruence].
  - assert (i' = i) as ->.
    { apply (Hun nm p); [done|].
      destruct (field_path_first _ _ _ _ _ _ _ _ _ (field_inside targ _ _ _ _ _ _ _ _ _ _ _ _ Hc Hm He Hp) Hc)
        as (i0 & ? & [= E%Nat2Z.inj _] & Hv). by rewrite E. }
    destruct (member_unique _ _ _ _ _ _ _ Hm Hm') as [<- <-].
    destruct Hcase as [(He' & _)|(_ & l2 & off2 & -> & -> & Hp2)]; [congruence|].
    by destruct (IH _ _ _ _ Hp2) as (-> & -> & -> & ->).
Qed.

(** ** The search for a member *)

Context (local : btf).

(** No field [nm] behind [id] has a type compatible with [mid]. *)
Definition lacks nm (mid id : Z) : Prop := forall l a off cur,
  field_path targ nm id l a off cur -> bpf_core_fields_are_compat local mid targ cur <> Some 1.

Lemma match_members_lacks (deeper : Z -> core_spec -> Z -> option search) lm nm id cid p t n i s next r :
  composite_at targ id cid p t ->
  (forall id s next r, deeper id s next = Some r -> found r = 0 -> lacks nm (m_type lm) id) ->
  Z.of_nat i + Z.of_nat n = btf_vlen t ->
  match_members deeper local lm (Some nm) targ cid p t n i s next = Some r -> found r = 0 ->
  forall j l a off cur, (i <= j)%nat -> field_path targ nm id (Z.of_nat j :: l) a off cur ->
    bpf_core_fields_are_compat local (m_type lm) targ cur <> Some 1.
Proof.
  intros Hc Hdeep. revert i s next. induction n as [|n IH]; intros i s next Hn; cbn [match_members].
  { intros _ _ j l a off cur Hj Hp.
    destruct (field_path_inv _ _ _ _ _ _ _ _ _ Hc Hp) as (j' & m & nm' & [Hlt _] & _ & Hcase).
    assert (j' = j) as -> by (destruct Hcase as [(_ & _ & E & _)|(_ & ? & ? & E & _)]; injection E; lia). lia. }
  intros (m & Hm & Hrun)%bind_Some Hf. destruct (raw_len s =? _); [injection Hrun as <-; done|].
  apply bind_Some in Hrun as (targ_name & Hname & Hrun).
  assert (member targ p t i m targ_name) as Hmem by (split; [lia|done]).
  (* What the path does here. *)
  assert (forall l a off cur, field_path targ nm id (Z.of_nat i :: l) a off cur ->
    if str_is_empty targ_name then exists off', field_path targ nm (m_type m) l a off' cur
    else targ_name = Some nm /\ cur = m_type m) as Hhere.
  { intros l a off cur Hp.
    destruct (field_path_inv _ _ _ _ _ _ _ _ _ Hc Hp) as (j' & m' & nm' & Hm' & _ & Hcase).
    assert (j' = i) as -> by (destruct Hcase as [(_ & _ & E & _)|(_ & ? & ? & E & _)]; injection E; lia).
    destruct (member_unique _ _ _ _ _ _ _ Hmem Hm') as [<- <-].
    destruct Hcase as [(-> & -> & _ & _ & _ & ->)|(-> & l' & off' & [= ->] & _ & Hp')]; [done|by eexists]. }
  intros j l a off cur Hj Hp. destruct (str_is_empty targ_name) eqn:He.
  - apply bind_Some in Hrun as (r1 & Hr1 & Hrun). destruct (Z.eqb_spec (found r1) 0) as [Hz|Hnz]; cbn [negb] in Hrun.
    + destruct (decide (j = i)) as [->|]; [|eapply IH; [..|exact Hp]; [|exact Hrun|done|]; lia].
      destruct (Hhere _ _ _ _ Hp) as [off' Hp']. by eapply Hdeep.
    + injection Hrun as <-. done.
  - cbn [mbind option_bind] in Hrun. case_bool_decide as Hnm.
    + subst targ_name. apply bind_Some in Hrun as (s2 & _ & (c & Hcomp & [= <-])%bind_Some). cbn in Hf. subst c.
      assert (j = i) as ->.
      { destruct (field_path_first _ _ _ _ _ _ _ _ _ Hp Hc) as (i' & ? & [= E%Nat2Z.inj _] & Hv).
        subst i'. apply (Hun nm p); [done|]. by eapply visible_here. }
      destruct (Hhere _ _ _ _ Hp) as [_ ->]. by rewrite Hcomp.
    + destruct (decide (j = i)) as [->|]; [|eapply IH; [..|exact Hp]; [|exact Hrun|done|]; lia].
      by destruct (Hhere _ _ _ _ Hp).
Qed.

Lemma match_member_lacks fuel a nm m id s next r :
  acc_name a = Some nm -> acc_member local a = Some m -> name_at local (m_name_off m) = Some (Some nm) ->
  match_member fuel local a targ id s next = Some r -> found r = 0 -> lacks nm (m_type m) id.
Proof.
  intros Ha Hm Hname. revert id s next r. induction fuel as [|fuel IH]; intros id s next r; [done|]. cbn [match_member].
  intros ([cid tr] & Hskip & (t & Ht & Hrun)%bind_Some)%bind_Some Hf l a' off cur Hp.
  assert (exists cid2 p2 t2 i l', composite_at targ id cid2 p2 t2 /\ l = Z.of_nat i :: l')
    as (cid2 & p & t2 & i & l' & Hc & ->) by (inversion Hp; subst; eauto 10).
  destruct Hc as (Hs2 & Ht2 & Hk2). rewrite Hskip in Hs2. injection Hs2 as -> ->. cbn [deref] in Ht.
  rewrite Ht in Ht2. injection Ht2 as <-. rewrite Hk2 in Hrun. cbn [negb place mbind option_bind] in Hrun.
  unfold acc_member in Hm. apply bind_Some in Hm as (lr & Hlr & (lp & Hlp & Hm)%bind_Some).
  rewrite Hlr in Hrun. cbn [mbind option_bind] in Hrun. rewrite Hlp in Hrun. cbn [mbind option_bind] in Hrun.
  rewrite Hm in Hrun. cbn [mbind option_bind] in Hrun. rewrite Hname in Hrun. cbn [mbind option_bind] in Hrun.
  eapply match_members_lacks; [by split|exact IH| |exact Hrun|exact Hf| |exact Hp]; [|lia].
  unfold btf_vlen. rewrite Z2Nat.id by (apply Z.land_nonneg; right; lia). lia.
Qed.
End Paths.

(** ** The search along a path *)

Section Fields.
Context `{HostOrder} (local targ : btf).
Context (Hbytes : Forall byte_ok (data targ)) (Hun : unambiguous targ).
Implicit Types (s : core_spec).

(** Type [id] of the target has the field that the path [ls] of the program's types
    denotes: past the first accessor, which is an element of an array of the type and
    always there, its fields by name with compatible types, its elements within the
    arrays of the target. *)
Definition has_field (ls : core_spec) (id : Z) : Prop :=
  exists eid r as_ fin, skip_id targ id = Some (eid, r) /\ leads targ eid as_ fin /\
    Forall2 (agrees local targ) (tail (accs ls)) as_.

Lemma composite_unskip cur cid r x p t :
  skip_id targ cur = Some (cid, r) -> composite_at targ cur x p t -> composite_at targ cid x p t.
Proof.
  intros Hs (Hs' & Hrest). split; [|done]. rewrite Hs in Hs'. injection Hs' as -> ->. by eapply skip_id_idem.
Qed.

Lemma field_path_unskip nm cur cid r l a off fin :
  skip_id targ cur = Some (cid, r) -> field_path targ nm cur l a off fin -> field_path targ nm cid l a off fin.
Proof.
  intros Hs Hp. destruct Hp; [eapply field_here|eapply field_inside]; eauto using composite_unskip.
Qed.

Lemma place_elem_negative e id s c : place_elem targ e id s = Some (inl c) -> c < 0.
Proof.
  unfold place_elem. destruct (_ =? _); [by intros [= <-]|].
  intros (s1 & _ & (sz & _ & Hrun)%bind_Some)%bind_Some.
  destruct (Z.ltb_spec (i32 sz) 0); [injection Hrun as <-; lia|done].
Qed.

(** An element accessor leads on in one way only. *)
Lemma leads_elem_inv cur cid p t arr eid e as_ fin :
  skip_id targ cur = Some (cid, At p) -> read_type (data targ) p = Some t ->
  btf_array_at targ p = Some arr -> leads targ cur (Accessor eid e None :: as_) fin ->
  btf_is_array t = true /\ e < a_nelems arr /\ (exists r, skip_id targ (a_type arr) = Some (eid, r)) /\
    leads targ eid as_ fin.
Proof.
  intros Hs Ht Ha Hl.
  inversion Hl as [|nm ? l a off cur1 ? ? Hp _|? cid2 p2 t2 arr2 ? r2 ? ? ? Hs2 Ht2 Hk2 Ha2 He2 Hlt Hrest]; subst.
  { by apply field_path_acc in Hp as [? _]. }
  rewrite Hs in Hs2. injection Hs2 as <- <-. rewrite Ht in Ht2. injection Ht2 as <-.
  rewrite Ha in Ha2. injection Ha2 as <-. split; [done|]. split; [done|]. split; [by exists r2|done].
Qed.

(** What an element accessor finds, or does not. *)
Lemma match_elem_leads e cur cid r t s x :
  skip_id targ cur = Some (cid, r) -> deref targ r = Some t ->
  match_elem targ false e cid r t s = Some x ->
  match x with
  | inl c => c <> 1 /\ (c = 0 -> forall eid as_ fin, ~ leads targ cur (Accessor eid e None :: as_) fin)
  | inr (id, s') => bit_offset s' = u32 (bit_offset s') /\
      (forall as_ fin, leads targ id as_ fin -> leads targ cur (Accessor id e None :: as_) fin) /\
      forall eid as_ fin, leads targ cur (Accessor eid e None :: as_) fin -> eid = id /\ leads targ id as_ fin
  end.
Proof.
  intros Hs Ht Hrun. pose proof Hrun as Hrun'. unfold match_elem in Hrun.
  destruct (btf_is_array t) eqn:Hk; cbn [negb] in Hrun.
  2:{ injection Hrun as <-. split; [done|]. intros _ eid as_ fin Hl.
      inversion Hl as [|nm ? l a off cur1 ? ? Hp _|? cid2 p2 t2 arr2 ? r2 ? ? ? Hs2 Ht2 Hk2]; subst.
      { by apply field_path_acc in Hp as [? _]. }
      rewrite Hs in Hs2. injection Hs2 as <- ->. cbn in Ht. congruence. }
  apply bind_Some in Hrun as (p & Hp & (arr & Harr & Hrun)%bind_Some). destruct r as [|p']; [done|]. injection Hp as ->.
  cbn [deref] in Ht. destruct (Z.leb_spec (a_nelems arr) e) as [|Hlt].
  { injection Hrun as <-. split; [done|]. intros _ eid as_ fin Hl.
    destruct (leads_elem_inv _ _ _ _ _ _ _ _ _ Hs Ht Harr Hl) as (_ & ? & _). lia. }
  apply bind_Some in Hrun as ([eid er] & Heid & Hrun). destruct x as [c|[id s']].
  { apply place_elem_negative in Hrun. split; lia. }
  apply place_elem_spec in Hrun as (-> & sz & _ & _ & ->); [|done]. split; [|split].
  - cbn [bit_offset]. symmetry. apply u32_id, u32_range.
  - intros as_ fin Hl. by eapply leads_elem.
  - intros eid' as_ fin Hl. destruct (leads_elem_inv _ _ _ _ _ _ _ _ _ Hs Ht Harr Hl) as (_ & _ & (r & Hr) & Hl').
    rewrite Heid in Hr. injection Hr as <- _. done.
Qed.

(** Matching the accessors [l] from [cur] answers 1 only when a path agrees with them,
    and 0 only when none does. *)
Lemma match_accs_leads l s cur c s' :
  Forall (acc_ok local) l -> bit_offset s = u32 (bit_offset s) ->
  match_accs local targ false l cur s = Some (c, s') ->
  (c = 1 -> exists as_ fin, leads targ cur as_ fin /\ Forall2 (agrees local targ) l as_) /\
  (c = 0 -> forall as_ fin, leads targ cur as_ fin -> ~ Forall2 (agrees local targ) l as_).
Proof.
  intros Hl. revert s cur. induction Hl as [|a l [_ Hname] _ IH]; intros s cur Hb; cbn [match_accs].
  { intros [= <- _]. split; [|done]. intros _. exists [], cur. split; [apply leads_end|constructor]. }
  intros ([cid r] & Hskip & (t & Ht & Hrun)%bind_Some)%bind_Some.
  destruct (acc_name a) as [nm|] eqn:En; apply bind_Some in Hrun as (x & Hx & Hrun).
  - destruct (Hname nm) as (m & Hm & Hnm); [done|]. unfold bpf_core_match_member in Hx.
    revert Hx. generalize MAX_DEPTH. intros fuel Hx.
    pose proof (match_member_lacks targ Hun local fuel a nm m cid s cid x En Hm Hnm Hx) as Hlacks.
    apply (match_member_spec targ local (m_type m) fuel a nm m cid s cid x Hun En Hm Hnm eq_refl Hb) in Hx.
    (* A path that agrees begins with the field. *)
    assert (forall as_ fin, leads targ cur as_ fin -> Forall2 (agrees local targ) (a :: l) as_ ->
      exists l1 a' off cur1 as', field_path targ nm cid l1 a' off cur1 /\ leads targ cur1 as' fin /\
        Forall2 (agrees local targ) l as' /\ bpf_core_fields_are_compat local (m_type m) targ cur1 = Some 1) as Hfirst.
    { intros as_ fin Hleads Hag. inversion Hag as [|? a' ? as' [Hn Hag1] Hag']; subst.
      rewrite En in Hn, Hag1. destruct Hag1 as (m1 & m2 & Hm1 & Hm2 & Hcomp). rewrite Hm in Hm1. injection Hm1 as <-.
      inversion Hleads as [|nm2 ? l1 ? off cur1 ? ? Hp Hrest|]; subst; [|done].
      destruct (field_path_acc _ _ _ _ _ _ _ Hp) as (Hn2 & m3 & Hm3 & <-). rewrite Hn in Hn2. injection Hn2 as <-.
      rewrite Hm2 in Hm3. injection Hm3 as <-. exists l1, a', off, (m_type m2), as'.
      split; [by eapply field_path_unskip|]. done. }
    destruct (Z.leb_spec (found x) 0) as [Hle|Hgt].
    { injection Hrun as <- <-. split; [lia|]. intros Hz as_ fin Hleads Hag.
      destruct (Hfirst _ _ Hleads Hag) as (l1 & a' & off & cur1 & as' & Hp & _ & _ & Hcomp).
      by apply (Hlacks Hz _ _ _ _ Hp). }
    destruct Hx as [?|[(_ & Hcomp & l' & a' & off' & Hpath & Ho)|[? _]]]; [lia| |lia].
    apply IH in Hrun as [H1 H0]; [|rewrite Ho; cbn [bit_offset]; symmetry; apply u32_id, u32_range]. split.
    + intros Hc. destruct (H1 Hc) as (as_ & fin & Hleads & Hag). exists (a' :: as_), fin.
      split; [eapply leads_field; [by eapply field_path_skip|done]|]. constructor; [|done].
      destruct (field_path_acc _ _ _ _ _ _ _ Hpath) as (Hn' & m' & Hm' & Hid). unfold agrees. rewrite En.
      split; [done|]. exists m, m'. by rewrite Hid.
    + intros Hc as_ fin Hleads Hag.
      destruct (Hfirst _ _ Hleads Hag) as (l1 & a1 & off & cur1 & as' & Hp & Hrest & Hag' & _).
      destruct (field_path_unique targ Hun _ _ _ _ _ _ _ _ _ _ Hpath Hp) as (_ & _ & _ & <-).
      by apply (H0 Hc _ _ Hrest).
  - pose proof (match_elem_leads _ _ _ _ _ _ _ Hskip Ht Hx) as Hel. destruct x as [c1|[cur1 s1]].
    { injection Hrun as <- <-. destruct Hel as [H1 H0]. split; [done|].
      intros Hc as_ fin Hleads Hag. inversion Hag as [|? a' ? as' [Hn Hag1] Hag']; subst.
      rewrite En in Hn, Hag1. destruct a' as [eid e nm']. cbn in Hn, Hag1. subst. by apply (H0 eq_refl _ _ _ Hleads). }
    destruct Hel as (Hb1 & Hon & Hback). apply IH in Hrun as [H1 H0]; [|done]. split.
    + intros Hc. destruct (H1 Hc) as (as_ & fin & Hleads & Hag). exists (Accessor cur1 (acc_idx a) None :: as_), fin.
      split; [by apply Hon|]. constructor; [|done]. unfold agrees. by rewrite En.
    + intros Hc as_ fin Hleads Hag. inversion Hag as [|? a' ? as' [Hn Hag1] Hag']; subst.
      rewrite En in Hn, Hag1. destruct a' as [eid e nm']. cbn in Hn, Hag1. subst e nm'.
      destruct (Hback _ _ _ Hleads) as [_ Hrest]. by apply (H0 eq_refl _ _ Hrest).
Qed.

(** [bpf_core_spec_match] answers 1 for the types that have the field, 0 for those that
    have not. *)
Theorem spec_match_decides lid lspec lcur tid c tspec :
  denotes local lid lspec lcur -> bpf_core_spec_match local lspec targ tid = Some (c, tspec) ->
  (c = 1 -> has_field lspec tid) /\ (c = 0 -> ~ has_field lspec tid).
Proof.
  intros (off & Hr & _). unfold bpf_core_spec_match, has_field.
  pose proof (reaches_accs_ok local _ _ _ _ _ Hr) as Hok.
  destruct (reaches_head local _ _ _ _ _ Hr) as (eid & e & rest & Ea).
  rewrite Ea in Hok |- *. inversion Hok as [|?? [Hidx _] Hrest]; subst. cbn [match_accs acc_name acc_idx tail].
  intros ([cid r] & Hskip & (t & Ht & Hrun)%bind_Some)%bind_Some. rewrite Hskip.
  apply bind_Some in Hrun as (x & Hx & Hrun). rewrite match_elem_first in Hx. destruct x as [c1|[cur1 s1]].
  { injection Hrun as <- _. apply place_elem_negative in Hx. split; lia. }
  apply place_elem_spec in Hx as (-> & sz & _ & _ & ->); [|done].
  apply match_accs_leads in Hrun as [H1 H0]; [|done|cbn [bit_offset]; symmetry; apply u32_id, u32_range]. split.
  - intros Hc. destruct (H1 Hc) as (as_ & fin & ? & ?). by exists cid, r, as_, fin.
  - intros Hc (eid' & r' & as_ & fin & [= <- <-] & Hl & Hag). by apply (H0 Hc _ _ Hl).
Qed.
End Fields.
