(* ===== verification/CoreReloc.v ===== *)
(** * CO-RE: relocating the instructions of a program

    Models the second half of the CO-RE relocations of [libbpf/src/libbpf.c]: the value a
    relocation asks for ([bpf_core_calc_field_relo]), patching the instruction
    ([bpf_core_reloc_insn]), one relocation with its cache of candidates
    ([bpf_core_reloc_field]) and those of an object; [CoreObject] finds the BTF of the
    kernel.  Messages are left out, and memory allocation succeeds, but for the buckets
    of the cache ([calloc_ok]). *)

From S2P Require Import Prelude Packet BpfMap BpfCalls BpfObject BpfLoad BpfOpen Btf BtfExt BtfPass BtfFinalize BtfMaps Hashmap CoreSpec.
From Stdlib Require Import Ascii String.
From stdpp Require Import list.

Local Open Scope Z_scope.

#[local] Abbreviation bytes := (list Z).
#[local] Abbreviation Err e := (Some (inl (- e))).
#[local] Abbreviation Ok a := (Some (inr a)).
#[local] Notation "x <-- m ; k" := (rbind m (fun x => k))
  (at level 100, m at next level, k at level 200, right associativity).

Definition ESRCH : Z := 3.
Definition EBADF : Z := 9.

(** [enum bpf_field_info_kind]. *)
Definition BPF_FIELD_BYTE_OFFSET : Z := 0.
Definition BPF_FIELD_BYTE_SIZE : Z := 1.
Definition BPF_FIELD_EXISTS : Z := 2.
Definition BPF_FIELD_SIGNED : Z := 3.
Definition BPF_FIELD_LSHIFT_U64 : Z := 4.
Definition BPF_FIELD_RSHIFT_U64 : Z := 5.

(** [struct bpf_field_reloc]. *)
Record bpf_field_reloc := FieldReloc {
  insn_off : Z; fr_type_id : Z; access_str_off : Z; fr_kind : Z;
}.

Section Reloc.
Context `{HostOrder}.

(** ** The value of a relocation *)

(** The loop that looks for the smallest load a bitfield fits in; the size doubles, up
    to 8 bytes. *)
Fixpoint widen (fuel : nat) (bit_off bit_sz byte_sz byte_off : Z) : option (Z + Z * Z) :=
  match fuel with
  | O => None
  | S fuel =>
      if u32 (bit_off + bit_sz - byte_off * 8) <=? u32 (byte_sz * 8) then Ok (byte_sz, byte_off) else
      if 8 <=? byte_sz then Err E2BIG else
      let byte_sz := byte_sz * 2 in
      if byte_sz =? 0 then None else
      widen fuel bit_off bit_sz byte_sz (bit_off / 8 / byte_sz * byte_sz)
  end.

(** [*val] of an array accessor. *)
Definition calc_elem (b : btf) (kind : Z) (s : core_spec) (a : accessor) : option (Z + Z) :=
  if kind =? BPF_FIELD_BYTE_OFFSET then Ok (bit_offset s / 8)
  else if kind =? BPF_FIELD_BYTE_SIZE then
    sz ← btf__resolve_size b (acc_type_id a);
    if sz <? 0 then Err EINVAL else Ok (u32 sz)
  else Err EINVAL.

(** [byte_sz], [byte_off] and [bit_sz] of a field. *)
Definition field_extent (b : btf) (s : core_spec) (t : btf_type) (m : btf_member) (mt : btf_type)
    : option (Z + Z * Z * Z) :=
  let bit_off := bit_offset s in
  let bit_sz := btf_member_bitfield_size t m in
  if 0 <? bit_sz then
    if size_type mt =? 0 then None else
    r <-- widen 4 bit_off bit_sz (size_type mt) (bit_off / 8 / size_type mt * size_type mt);
    let '(byte_sz, byte_off) := r in Ok (byte_sz, byte_off, bit_sz)
  else
    sz ← btf__resolve_size b (m_type m);
    if sz <? 0 then Err EINVAL else
    Ok (u32 sz, bit_off / 8, u32 (u32 sz * 8)).

(** [*val] of a field, and whether it is unambiguous ([None]: [*validate] is [!bitfield]). *)
Definition calc_member (b : btf) (kind bit_off byte_sz byte_off bit_sz : Z) (mr : type_ref) (mt : btf_type)
    : option (Z + Z * option bool) :=
  if kind =? BPF_FIELD_BYTE_OFFSET then Ok (byte_off, None)
  else if kind =? BPF_FIELD_BYTE_SIZE then Ok (byte_sz, None)
  else if kind =? BPF_FIELD_SIGNED then
    if btf_is_enum mt then Ok (1, Some true) else
    e ← btf_int_encoding b mr; Ok (Z.b2z (negb (Z.land e 1 =? 0)), Some true)
  else if kind =? BPF_FIELD_LSHIFT_U64 then
    Ok (match host_order with
        | LittleEndian => u32 (64 - u32 (bit_off + bit_sz - byte_off * 8))
        | BigEndian => u32 ((8 - byte_sz) * 8 + (bit_off - byte_off * 8))
        end, None)
  else if kind =? BPF_FIELD_RSHIFT_U64 then Ok (u32 (64 - bit_sz), Some true)
  else Err EINVAL.

(** The value, and [*validate]. *)
Definition bpf_core_calc_field_relo (b : btf) (kind : Z) (s : core_spec) : option (Z + Z * bool) :=
  a ← last (accs s);
  match acc_name a with
  | None => v <-- calc_elem b kind s a; Ok (v, true)
  | Some _ =>
      r ← btf__type_by_id b (acc_type_id a); p ← place r; t ← deref b r;
      m ← btf_member_at b p (Z.to_nat (acc_idx a));
      '(_, mr) ← skip_id b (m_type m); mt ← deref b mr;
      x <-- field_extent b s t m mt;
      let '(byte_sz, byte_off, bit_sz) := x in
      v <-- calc_member b kind (bit_offset s) byte_sz byte_off bit_sz mr mt;
      let '(v, validate) := v in
      Ok (v, default (negb (0 <? btf_member_bitfield_size t m)) validate)
  end.

(** ** Patching an instruction *)

Definition BPF_CLASS (code : Z) : Z := Z.land code 7.
Definition BPF_SRC (code : Z) : Z := Z.land code 8.
Definition BPF_ALU : Z := 4.
Definition BPF_ALU64 : Z := 7.
Definition BPF_K : Z := 0.

(** The expected value ([None]: not to be checked) and the new one. *)
Definition reloc_values (relo : bpf_field_reloc) (local : btf) (local_spec : core_spec)
    (targ : btf) (targ_spec : option core_spec) : option (Z + option Z * Z) :=
  if fr_kind relo =? BPF_FIELD_EXISTS
  then Ok (Some 1, match targ_spec with Some _ => 1 | None => 0 end) else
  match targ_spec with
  | None => Ok (None, u32 (-1))
  | Some targ_spec =>
      o <-- bpf_core_calc_field_relo local (fr_kind relo) local_spec;
      n <-- bpf_core_calc_field_relo targ (fr_kind relo) targ_spec;
      Ok (if snd o then Some (fst o) else None, fst n)
  end.

Definition bpf_core_reloc_insn (insns : list bpf_insn) (relo : bpf_field_reloc) (local : btf)
    (local_spec : core_spec) (targ : btf) (targ_spec : option core_spec) : option (Z + list bpf_insn) :=
  if negb (insn_off relo mod 8 =? 0) then Err EINVAL else
  let insn_idx := Z.to_nat (insn_off relo / 8) in
  v <-- reloc_values relo local local_spec targ targ_spec;
  let '(orig_val, new_val) := v in
  insn ← insns !! insn_idx;
  let class := BPF_CLASS (code insn) in
  if (class =? BPF_ALU) || (class =? BPF_ALU64) then
    if negb (BPF_SRC (code insn) =? BPF_K) then Err EINVAL else
    if match orig_val with Some v => negb (u32 (imm insn) =? v) | None => false end then Err EINVAL else
    Ok (<[insn_idx := set_imm insn (i32 new_val)]> insns)
  else Err EINVAL.

(** ** One relocation *)

Context (usable : Z -> Z) (calloc_ok : Z -> bool) (shift_out : Z -> Z).

(** [bpf_core_hash_fn], [bpf_core_equal_fn]. *)
Definition core_hash (k : Z) : Z := k.
Definition core_equal (k1 k2 : Z) : bool := k1 =? k2.

(** The cache maps a type to a vector of candidates, which lies in [vecs]. *)
Record cand_cache := Cache { cmap : hashmap Z nat; vecs : list (list Z) }.

(** The vector for a type: found, or made and put into the cache. *)
Definition cached_cands (local : btf) (local_id : Z) (targ : btf) (c : cand_cache)
    : option (Z + nat * cand_cache) :=
  found ← hashmap__find core_hash core_equal shift_out (cmap c) local_id;
  match found with
  | Some v => Ok (v, c)
  | None =>
      ids <-- bpf_core_find_cands usable local local_id targ;
      let v := List.length (vecs c) in
      '(err, _, m) ← hashmap__set core_hash core_equal shift_out calloc_ok true (cmap c) local_id v;
      if negb (err =? 0) then Some (inl err) else Ok (v, Cache m (vecs c ++ [ids]))
  end.

(** The loop over the candidates [ids]: those kept so far (their types without
    typedefs), the first spec that matched. *)
Fixpoint match_cands (local : btf) (local_spec : core_spec) (targ : btf) (ids : list Z)
    (kept : list Z) (targ_spec : option core_spec) : option (Z + list Z * option core_spec) :=
  match ids with
  | [] => Ok (kept, targ_spec)
  | cand_id :: ids =>
      r ← btf__type_by_id targ cand_id; _ ← deref targ r;
      '(err, cand_spec) ← bpf_core_spec_match local local_spec targ cand_id;
      if err <? 0 then Some (inl err) else
      if err =? 0 then match_cands local local_spec targ ids kept targ_spec else
      a ← head (accs cand_spec);
      match targ_spec with
      | None => match_cands local local_spec targ ids (kept ++ [acc_type_id a]) (Some cand_spec)
      | Some ts =>
          if negb (bit_offset cand_spec =? bit_offset ts) then Err EINVAL
          else match_cands local local_spec targ ids (kept ++ [acc_type_id a]) targ_spec
      end
  end.

Definition bpf_core_reloc_field (insns : list bpf_insn) (relaxed : bool) (relo : bpf_field_reloc)
    (local targ : btf) (c : cand_cache) : option (Z + list bpf_insn * cand_cache) :=
  let local_id := fr_type_id relo in
  match btf__type_by_id local local_id with
  | None => Err EINVAL
  | Some r =>
      t ← deref local r;
      local_name ← name_at local (name_off t);
      if str_is_empty local_name then Err EINVAL else
      spec_str ← name_at local (access_str_off relo);
      if str_is_empty spec_str then Err EINVAL else
      s ← bpf_core_spec_parse local local_id spec_str;
      match s with
      | inl _ => Err EINVAL
      | inr local_spec =>
          v <-- cached_cands local local_id targ c;
          let '(v, c) := v in
          ids ← vecs c !! v;
          k <-- match_cands local local_spec targ ids [] None;
          let '(kept, targ_spec) := k in
          let c := match kept with [] => c | _ => Cache (cmap c) (<[v := kept]> (vecs c)) end in
          if bool_decide (kept = []) && negb relaxed && negb (fr_kind relo =? BPF_FIELD_EXISTS)
          then Err ESRCH else
          r ← bpf_core_reloc_insn insns relo local local_spec targ targ_spec;
          match r with inl _ => Err EINVAL | inr insns => Ok (insns, c) end
      end
  end.

(** ** The relocations of an object *)

Definition read_reloc (d : bytes) (p : nat) : option bpf_field_reloc :=
  o ← read32 d p; t ← read32 d (p + 4); a ← read32 d (p + 8); k ← read32 d (p + 12);
  Some (FieldReloc o t a k).

(** [for_each_btf_ext_rec]: [n] records from [p] on. *)
Fixpoint reloc_records (n : nat) (d : bytes) (p : nat) (rec_size : Z) (insns : list bpf_insn)
    (relaxed : bool) (local targ : btf) (c : cand_cache) : option (Z + list bpf_insn * cand_cache) :=
  match n with
  | O => Ok (insns, c)
  | S n =>
      relo ← read_reloc d p;
      x <-- bpf_core_reloc_field insns relaxed relo local targ c;
      let '(insns, c) := x in
      reloc_records n d (p + Z.to_nat rec_size) rec_size insns relaxed local targ c
  end.

(** [for_each_btf_ext_sec], from [sec] to [fin]; every section takes 8 bytes.  The
    programs are their titles and instructions; [find] is
    [bpf_object__find_program_by_title]. *)
Fixpoint reloc_sections (fuel : nat) (d : bytes) (sec fin : nat) (rec_size : Z)
    (find : string -> option nat) (ps : list (list bpf_insn)) (relaxed : bool) (local targ : btf)
    (c : cand_cache) : option (Z + list (list bpf_insn) * cand_cache) :=
  match fuel with
  | O => None
  | S fuel =>
      if (fin <=? sec)%nat then Ok (ps, c) else
      sec_name_off ← read32 d sec; num_info ← read32 d (sec + 4);
      sec_name ← name_at local sec_name_off;
      match sec_name with
      | None | Some EmptyString => Err EINVAL
      | Some nm =>
          match find nm with
          | None => Err EINVAL
          | Some i =>
              insns ← ps !! i;
              x <-- reloc_records (Z.to_nat num_info) d (sec + 8) rec_size insns relaxed local targ c;
              let '(insns, c) := x in
              reloc_sections fuel d (sec + 8 + Z.to_nat (u32 (rec_size * num_info))) fin rec_size find
                (<[i := insns]> ps) relaxed local targ c
          end
      end
  end.

(** Freeing the candidates and the cache. *)
Definition free_cache (c : cand_cache) : option unit :=
  es ← for_each_entry (cmap c); hashmap__free (Some (cmap c)).

(** From the error or the two BTFs on. *)
Definition reloc_all (x : btf_ext) (find : string -> option nat) (ps : list (list bpf_insn))
    (relaxed : bool) (local targ : btf) : option (Z + list (list bpf_insn)) :=
  let seg := field_reloc_info x in
  r ← reloc_sections (S (Z.to_nat (ei_len seg))) (x_data x) (ei_info seg)
        (ei_info seg + Z.to_nat (ei_len seg)) (ei_rec_size seg) find ps relaxed local targ
        (Cache hashmap__init []);
  match r with
  | inl err => Some (inl err)
  | inr (ps, c) => _ ← free_cache c; Ok ps
  end.
End Reloc.

(** ** The loads and shifts extract the field *)

(** The value of the [n] bits at [bit_off] of memory, counted from the low bit of the
    first byte (little endian) or from its high bit (big endian). *)
Definition field_value `{HostOrder} (mem : bytes) (bit_off n : Z) : Z :=
  match host_order with
  | LittleEndian => Z.land (Z.shiftr (le_val mem) bit_off) (Z.ones n)
  | BigEndian =>
      Z.land (Z.shiftr (le_val (rev mem)) (8 * Z.of_nat (List.length mem) - bit_off - n)) (Z.ones n)
  end.

Lemma le_val_split a b : le_val (a ++ b) = le_val a + 2 ^ (8 * Z.of_nat (List.length a)) * le_val b.
Proof.
  induction a as [|x a IH]; cbn [app List.length]; [by rewrite Z.mul_1_l|].
  change (le_val (x :: a ++ b)) with (x + 2 ^ 8 * le_val (a ++ b)).
  change (le_val (x :: a)) with (x + 2 ^ 8 * le_val a). rewrite IH.
  replace (8 * Z.of_nat (S (List.length a))) with (8 + 8 * Z.of_nat (List.length a)) by lia.
  rewrite Z.pow_add_r by lia. lia.
Qed.

(** The bits of a part of memory. *)
Lemma le_val_bits mem o z j :
  Forall byte_ok mem -> (o + z <= List.length mem)%nat -> 0 <= j < 8 * Z.of_nat z ->
  Z.testbit (le_val (take z (drop o mem))) j = Z.testbit (le_val mem) (8 * Z.of_nat o + j).
Proof.
  intros Hok Hlen Hj.
  rewrite <- (take_drop o mem) at 2. rewrite <- (take_drop z (drop o mem)) at 2.
  assert (Forall byte_ok (take o mem)) as Ho by by apply Forall_take.
  assert (Forall byte_ok (take z (drop o mem))) as Hz by (apply Forall_take; by apply Forall_drop).
  rewrite !le_val_split. rewrite !length_take, length_drop, !Nat.min_l by lia.
  pose proof (le_val_bounds _ Ho) as Bo. pose proof (le_val_bounds _ Hz) as Bz.
  rewrite length_take, Nat.min_l in Bo by lia. rewrite length_take, length_drop, Nat.min_l in Bz by lia.
  set (p := le_val (take o mem)) in *. set (q := le_val (take z (drop o mem))) in *.
  set (t := le_val (drop z (drop o mem))).
  rewrite (Z.add_comm (8 * Z.of_nat o) j), <- (Z.div_pow2_bits _ (8 * Z.of_nat o)) by lia.
  rewrite Z.mul_comm, Z.div_add by lia. rewrite Z.div_small, Z.add_0_l by lia.
  rewrite <- (Z.mod_pow2_bits_low (q + _) (8 * Z.of_nat z)) by lia.
  rewrite (Z.mul_comm (2 ^ _) t), Z.mod_add, Z.mod_small by lia. done.
Qed.

(** Shifting left and right keeps bits [e - n] to [e - 1]. *)
Lemma extract_bits v e n : 0 <= v -> 0 <= n <= e -> e <= 64 ->
  Z.shiftr (u64 (Z.shiftl v (64 - e))) (64 - n) = Z.land (Z.shiftr v (e - n)) (Z.ones n).
Proof.
  intros Hv Hn He. apply Z.bits_inj'. intros i Hi. unfold u64.
  rewrite Z.shiftr_spec, Z.land_spec, Z.shiftr_spec, Z.testbit_ones_nonneg by lia.
  destruct (Z.ltb_spec i n).
  - rewrite Z.mod_pow2_bits_low, Z.shiftl_spec, andb_true_r by lia. f_equal. lia.
  - rewrite Z.mod_pow2_bits_high, andb_false_r by lia. done.
Qed.

Lemma land_ones_ext v w n : (forall i, 0 <= i < n -> Z.testbit v i = Z.testbit w i) -> 0 <= n ->
  Z.land v (Z.ones n) = Z.land w (Z.ones n).
Proof.
  intros Hb Hn. apply Z.bits_inj'. intros i Hi. rewrite !Z.land_spec, Z.testbit_ones_nonneg by lia.
  destruct (Z.ltb_spec i n); [by rewrite Hb|by rewrite !andb_false_r].
Qed.

Section Extract.
Context `{HostOrder}.

(** Loading [z] bytes at [o] and shifting gives the field, when it lies in them. *)
Lemma load_extracts mem o z bs bit_off n d :
  Forall byte_ok mem -> read_bytes mem o z = Some bs -> (z <= 8)%nat ->
  bit_off = 8 * Z.of_nat o + d -> 0 <= d -> 0 <= n -> d + n <= 8 * Z.of_nat z ->
  Z.shiftr (u64 (Z.shiftl (load bs)
    (match host_order with
     | LittleEndian => 64 - (d + n)
     | BigEndian => (8 - Z.of_nat z) * 8 + d
     end))) (64 - n) = field_value mem bit_off n.
Proof.
  intros Hok Hread Hz -> Hd Hn Hfit. unfold read_bytes in Hread.
  destruct (decide _) as [Hlen|]; [|done]. injection Hread as <-. unfold load, field_value.
  assert (Forall byte_ok (take z (drop o mem))) as Hb by (apply Forall_take; by apply Forall_drop).
  destruct host_order.
  - rewrite extract_bits by (try apply le_val_bounds; lia || done). apply land_ones_ext; [|done].
    intros i Hi. rewrite !Z.shiftr_spec, le_val_bits by (done || lia). f_equal. lia.
  - replace ((8 - Z.of_nat z) * 8 + d) with (64 - (8 * Z.of_nat z - d)) by lia.
    rewrite extract_bits; [|apply le_val_bounds; by apply Forall_rev|lia..]. apply land_ones_ext; [|done].
    intros i Hi. rewrite !Z.shiftr_spec by lia.
    assert (rev (take z (drop o mem)) = take z (drop (List.length mem - o - z) (rev mem))) as ->.
    { rewrite <- (take_drop o mem) at 3. rewrite <- (take_drop z (drop o mem)) at 2.
      rewrite !rev_app_distr, <- app_assoc, drop_app_ge; rewrite ?length_rev, !length_drop; [|lia].
      replace (_ - _)%nat with 0%nat by lia. rewrite drop_0.
      by rewrite take_app_length' by (rewrite length_rev, length_take, length_drop; lia). }
    rewrite le_val_bits; [|by apply Forall_rev|rewrite length_rev; lia|lia]. f_equal. lia.
Qed.

(** The last accessor of the spec is a field: member [m], of a structure [t], whose type
    is [mt], at [mr], past typedefs. *)
Definition field_of (b : btf) (s : core_spec) (t : btf_type) (m : btf_member) (mr : type_ref) (mt : btf_type)
    : Prop :=
  exists a nm r p mid, last (accs s) = Some a /\ acc_name a = Some nm /\
    btf__type_by_id b (acc_type_id a) = Some r /\ place r = Some p /\ deref b r = Some t /\
    btf_member_at b p (Z.to_nat (acc_idx a)) = Some m /\
    skip_id b (m_type m) = Some (mid, mr) /\ deref b mr = Some mt.

Lemma calc_field b s t m mr mt kind v vd :
  field_of b s t m mr mt -> bpf_core_calc_field_relo b kind s = Some (inr (v, vd)) ->
  exists byte_sz byte_off bit_sz w, field_extent b s t m mt = Some (inr (byte_sz, byte_off, bit_sz)) /\
    calc_member b kind (bit_offset s) byte_sz byte_off bit_sz mr mt = Some (inr (v, w)).
Proof.
  intros (a & nm & r & p & mid & Ha & Hn & Hr & Hp & Ht & Hm & Hs & Hmt).
  unfold bpf_core_calc_field_relo. rewrite Ha. cbn [mbind option_bind].
  rewrite Hn, Hr. cbn [mbind option_bind]. rewrite Hp. cbn [mbind option_bind]. rewrite Ht. cbn [mbind option_bind].
  rewrite Hm. cbn [mbind option_bind]. rewrite Hs. cbn [mbind option_bind]. rewrite Hmt. cbn [mbind option_bind].
  unfold rbind. destruct (field_extent b s t m mt) as [[e|[[byte_sz byte_off] bit_sz]]|]; [done| |done].
  destruct (calc_member _ _ _ _ _ _ _ _) as [[e|[v' w]]|] eqn:Hv; [done| |done].
  generalize (negb (0 <? btf_member_bitfield_size t m)). intros dflt E. injection E as <- _. exists byte_sz, byte_off, bit_sz, w. split; [reflexivity|exact Hv].
Qed.

(** The load that [widen] finds covers the field and is aligned to its size. *)
Lemma widen_spec fuel bit_off bit_sz z z' o' :
  0 <= bit_off -> 0 < z -> widen fuel bit_off bit_sz z (bit_off / 8 / z * z) = Some (inr (z', o')) ->
  0 < z' /\ o' = bit_off / 8 / z' * z' /\ u32 (bit_off + bit_sz - o' * 8) <= u32 (z' * 8).
Proof.
  intros Hb. revert z. induction fuel as [|fuel IH]; intros z Hz; [done|]. cbn [widen].
  destruct (Z.leb_spec (u32 (bit_off + bit_sz - bit_off / 8 / z * z * 8)) (u32 (z * 8))) as [Hle|Hlt].
  { intros [= <- <-]. done. }
  destruct (8 <=? z); [done|]. rewrite (proj2 (Z.eqb_neq _ _)) by lia. apply IH. lia.
Qed.

(** How many bits the field has, and how it lies in the load: the load begins [d] bits
    before it and holds all of it. *)
Lemma extent_spec b s t m mr mt z o n :
  Forall byte_ok (data b) -> field_of b s t m mr mt ->
  field_extent b s t m mt = Some (inr (z, o, n)) ->
  0 <= bit_offset s -> bit_offset s + n < 2 ^ 32 -> z <= 8 ->
  (btf_member_bitfield_size t m <= 0 -> bit_offset s mod 8 = 0) ->
  0 <= n /\ 0 <= z /\ 0 <= o /\ exists d, bit_offset s = 8 * o + d /\ 0 <= d /\ d + n <= 8 * z.
Proof.
  intros Hok (a & nm & r & p & mid & _ & _ & _ & _ & _ & _ & _ & Hmt) Hx Hb Hn Hz Hal.
  apply (deref_bounds _ Hok) in Hmt. unfold field_extent in Hx.
  destruct (Z.ltb_spec 0 (btf_member_bitfield_size t m)) as [Hbf|Hbf].
  - destruct (Z.eqb_spec (size_type mt) 0) as [|Hsz]; [done|].
    apply rbind_Some in Hx as ([z1 o1] & Hw & [= <- <- <-]).
    apply widen_spec in Hw as (Hz1 & -> & Hfit); [|lia..].
    pose proof (Z.mul_div_le (bit_offset s / 8) z1 Hz1). pose proof (Z.mul_div_le (bit_offset s) 8).
    assert (0 <= bit_offset s / 8 / z1 * z1).
    { apply Z.mul_nonneg_nonneg; [|lia]. apply Z.div_pos; [|lia]. apply Z.div_pos; lia. }
    rewrite !u32_id in Hfit by lia. split; [lia|]. split; [lia|]. split; [done|].
    exists (bit_offset s - 8 * (bit_offset s / 8 / z1 * z1)). lia.
  - apply bind_Some in Hx as (sz & Hsz & Hx). destruct (Z.ltb_spec sz 0) as [|Hpos]; [done|].
    injection Hx as <- <- <-. pose proof (resolve_size_range b Hok _ _ Hsz). rewrite (u32_id sz) in * by lia.
    rewrite u32_id in * by lia.
    specialize (Hal Hbf). split; [lia|]. split; [lia|]. split; [apply Z.div_pos; lia|].
    exists 0. pose proof (Z.div_mod (bit_offset s) 8). lia.
Qed.

Lemma bitfield_size_bound v : 0 <= v < 2 ^ 32 -> BTF_MEMBER_BITFIELD_SIZE v <= 255.
Proof.
  intros Hv. unfold BTF_MEMBER_BITFIELD_SIZE. rewrite Z.shiftr_div_pow2 by lia.
  pose proof (Z.div_lt_upper_bound v (2 ^ 24) 256). lia.
Qed.

Lemma member_at_bounds b p i m :
  Forall byte_ok (data b) -> btf_member_at b p i = Some m -> 0 <= m_offset m < 2 ^ 32.
Proof.
  intros Hok. unfold btf_member_at. intros (? & _ & (? & _ & (v & Hv & E)%bind_Some)%bind_Some)%bind_Some.
  apply (f_equal (option_map m_offset)) in E. cbn in E. injection E as <-. by eapply read32_bounds.
Qed.

(** The width: that of the bitfield, or of the whole type. *)
Lemma extent_width b s t m mr mt z o n :
  Forall byte_ok (data b) -> field_of b s t m mr mt ->
  field_extent b s t m mt = Some (inr (z, o, n)) ->
  0 <= bit_offset s < 2 ^ 32 - 256 -> z <= 8 ->
  n <= 255 /\ n = (if 0 <? btf_member_bitfield_size t m then btf_member_bitfield_size t m else 8 * z).
Proof.
  intros Hok (a & nm & r & p & mid & _ & _ & _ & _ & _ & Hm & _ & Hmt) Hx Hb Hz.
  unfold field_extent in Hx.
  destruct (Z.ltb_spec 0 (btf_member_bitfield_size t m)) as [Hbf|Hbf].
  - apply (deref_bounds _ Hok) in Hmt. destruct (Z.eqb_spec (size_type mt) 0) as [|Hsz]; [done|].
    apply rbind_Some in Hx as ([z1 o1] & Hw & [= <- <- <-]). split; [|done].
    revert Hbf. unfold btf_member_bitfield_size. destruct (btf_kflag t); [|done]. intros _.
    by apply bitfield_size_bound, (member_at_bounds b p (Z.to_nat (acc_idx a))).
  - apply bind_Some in Hx as (sz & Hsz & Hx). destruct (Z.ltb_spec sz 0) as [|Hpos]; [done|].
    injection Hx as <- <- <-. pose proof (resolve_size_range b Hok _ _ Hsz).
    rewrite (u32_id sz) in * by lia. rewrite u32_id by lia. lia.
Qed.

(** C11. The four values a program asks for to read a field (where to load, how much, and two
    shifts) do read it: whatever the memory, loading so many bytes there into 64 bits and
    shifting left and right leaves the bits of the field, of which there are [n]. *)
Theorem field_relo_extracts b s t m mr mt o z l r v1 v2 v3 v4 mem bs :
  Forall byte_ok (data b) -> field_of b s t m mr mt ->
  bpf_core_calc_field_relo b BPF_FIELD_BYTE_OFFSET s = Some (inr (o, v1)) ->
  bpf_core_calc_field_relo b BPF_FIELD_BYTE_SIZE s = Some (inr (z, v2)) ->
  bpf_core_calc_field_relo b BPF_FIELD_LSHIFT_U64 s = Some (inr (l, v3)) ->
  bpf_core_calc_field_relo b BPF_FIELD_RSHIFT_U64 s = Some (inr (r, v4)) ->
  0 <= bit_offset s < 2 ^ 32 - 256 -> z <= 8 ->
  (btf_member_bitfield_size t m <= 0 -> bit_offset s mod 8 = 0) ->
  Forall byte_ok mem -> read_bytes mem (Z.to_nat o) (Z.to_nat z) = Some bs ->
  exists n, n = (if 0 <? btf_member_bitfield_size t m then btf_member_bitfield_size t m else 8 * z) /\
    Z.shiftr (u64 (Z.shiftl (load bs) l)) r = field_value mem (bit_offset s) n.
Proof.
  intros Hok Hf (z' & o' & n & w1 & Hx & Hv1)%(calc_field _ _ _ _ _ _ _ _ _ Hf).
  intros (z2 & o2 & n2 & w2 & Hx2 & Hv2)%(calc_field _ _ _ _ _ _ _ _ _ Hf).
  intros (z3 & o3 & n3 & w3 & Hx3 & Hv3)%(calc_field _ _ _ _ _ _ _ _ _ Hf).
  intros (z4 & o4 & n4 & w4 & Hx4 & Hv4)%(calc_field _ _ _ _ _ _ _ _ _ Hf).
  rewrite Hx in Hx2, Hx3, Hx4. injection Hx2 as <- <- <-. injection Hx3 as <- <- <-. injection Hx4 as <- <- <-.
  injection Hv1 as -> _. injection Hv2 as -> _. injection Hv3 as <- _. injection Hv4 as <- _.
  intros Hb Hz Hal Hmem Hread. exists n.
  assert (n <= 255 /\ n = (if 0 <? btf_member_bitfield_size t m then btf_member_bitfield_size t m else 8 * z))
    as [Hn En] by exact (extent_width _ _ _ _ _ _ _ _ _ Hok Hf Hx Hb Hz).
  destruct (extent_spec b s t m mr mt z o n) as (Hn0 & Hz0 & Ho0 & d & Hd & Hd0 & Hfit); [done|done|done|lia|lia|done|done|].
  split; [exact En|].
  rewrite <- (load_extracts mem (Z.to_nat o) (Z.to_nat z) bs (bit_offset s) n d); [|done|done|lia..].
  rewrite (u32_id (64 - n)) by lia. f_equal. f_equal. f_equal.
  destruct host_order; rewrite ?Z2Nat.id by lia; rewrite ?(u32_id (bit_offset s + n - o * 8)) by lia;
    rewrite u32_id by lia; lia.
Qed.
End Extract.
