(* ===== verification/CoreSound.v ===== *)
(** * CO-RE: what a relocation does

    The theorems on the second half of the CO-RE relocations: which types are candidates
    ([find_cands_spec], [essential_flavor]), what the cache of candidates holds, and that
    the relocations of an object are those of its records in order, each writing into an
    instruction the value of the same field in a candidate, or the mark that none has it
    ([reloc_all_sound]). *)

From S2P Require Import Prelude Packet BpfMap BpfCalls BpfObject BpfLoad BpfOpen Btf BtfExt BtfMaps Hashmap CoreSpec CoreFields CoreReloc.
From Stdlib Require Import Ascii String.
From stdpp Require Import list.

Local Open Scope Z_scope.

#[local] Abbreviation bytes := (list Z).

(** ** Essential names *)

Lemma essential_loop_spec i s :
  (i <= List.length s)%nat ->
  (forall j, (j < i)%nat -> bpf_core_is_flavor_sep (drop j s) = false) /\ essential_loop i s = List.length s \/
  exists j, (j < i)%nat /\ bpf_core_is_flavor_sep (drop j s) = true /\ essential_loop i s = S j /\
    forall k, (j < k < i)%nat -> bpf_core_is_flavor_sep (drop k s) = false.
Proof.
  induction i as [|i IH]; intros Hi; cbn [essential_loop]; [left; split; [lia|done]|].
  destruct (bpf_core_is_flavor_sep (drop i s)) eqn:E.
  - right. exists i. repeat split; done || lia.
  - destruct IH as [[Hno Hl]|(j & Hj & Hs & Hl & Hno)]; [lia|left|right].
    + split; [|done]. intros j Hj. destruct (decide (j = i)) as [->|]; [done|]. apply Hno. lia.
    + exists j. split; [lia|]. split; [done|]. split; [done|].
      intros k Hk. destruct (decide (k = i)) as [->|]; [done|]. apply Hno. lia.
Qed.

Lemma flavor_sep_length s : bpf_core_is_flavor_sep s = true -> (5 <= List.length s)%nat.
Proof. destruct s as [|x [|a [|b [|c [|y s]]]]]; cbn; try done. lia. Qed.

Lemma underscore_first l : bpf_core_is_flavor_sep ("_"%char :: l) = false.
Proof. by destruct l as [|? [|? [|? [|? ?]]]]. Qed.

(** A name without a flavour is its own essential part. *)
Theorem essential_plain (name : string) :
  let s := list_ascii_of_string name in
  (forall j, bpf_core_is_flavor_sep (drop j s) = false) ->
  bpf_core_essential_name_len name = List.length s.
Proof.
  cbn zeta. intros Hno. unfold bpf_core_essential_name_len.
  destruct (essential_loop_spec (List.length (list_ascii_of_string name) - 4) (list_ascii_of_string name))
    as [[_ ->]|(j & _ & Hs & _)]; [lia|done|]. by rewrite Hno in Hs.
Qed.

(** The essential part of [base___flavor] is [base]: the base ends and the flavour begins
    with another character than an underscore, and the flavour has no flavour itself. *)
Theorem essential_flavor (name : string) base x y flavor :
  list_ascii_of_string name = (base ++ [x]) ++ list_ascii_of_string "___" ++ y :: flavor ->
  x <> "_"%char -> y <> "_"%char ->
  (forall j, bpf_core_is_flavor_sep (drop j (y :: flavor)) = false) ->
  bpf_core_essential_name_len name = List.length (base ++ [x]).
Proof.
  intros E Hx Hy Hno. unfold bpf_core_essential_name_len. rewrite E. set (s := _ ++ _ ++ _).
  assert (List.length s = List.length base + 5 + List.length flavor)%nat as Hlen
    by (unfold s; rewrite !List.length_app; cbn; lia).
  assert (bpf_core_is_flavor_sep (drop (List.length base) s) = true) as Hsep.
  { unfold s. rewrite <- app_assoc, drop_app_length. cbn.
    by rewrite (bool_decide_eq_false_2 _ Hx), (bool_decide_eq_false_2 _ Hy). }
  destruct (essential_loop_spec (List.length s - 4) s) as [[Hnone _]|(j & Hj & Hs & Hl & Hafter)]; [lia| |].
  { rewrite Hnone in Hsep; [done|lia]. }
  rewrite Hl, List.length_app. cbn [List.length]. enough (j = List.length base) by lia.
  destruct (Nat.lt_trichotomy j (List.length base)) as [Hlt|[Heq|Hgt]]; [|done|].
  - rewrite Hafter in Hsep; [done|lia].
  - exfalso. revert Hs. unfold s. rewrite drop_app_ge by (rewrite List.length_app; cbn; lia).
    rewrite List.length_app. cbn [List.length].
    replace (j - (List.length base + 1))%nat with (j - S (List.length base))%nat by lia.
    destruct (j - S (List.length base))%nat as [|[|[|k]]] eqn:Ej; cbn [drop list_ascii_of_string app].
    + by rewrite underscore_first.
    + by rewrite underscore_first.
    + by rewrite underscore_first.
    + rewrite Hno. done.
Qed.

(** ** Candidates *)

Section Candidates.
Context `{HostOrder}.
Implicit Types (local targ : btf).

(** Type [id] of the target has a name with the same essential part as [nm]. *)
Definition named_like targ (nm : string) (id : Z) : Prop :=
  exists off t nm', 1 <= id /\ types targ !! Z.to_nat (id - 1) = Some off /\
    read_type (data targ) off = Some t /\ name_at targ (name_off t) = Some (Some nm') /\
    nm' <> EmptyString /\ same_essential nm nm' = true.

Lemma find_cands_loop_spec usable targ offs i nm acc ids :
  (forall j off, offs !! j = Some off -> types targ !! (Z.to_nat (i - 1) + j)%nat = Some off) -> 1 <= i ->
  find_cands_loop usable targ offs i nm acc = Some ids ->
  exists more, ids = acc ++ more /\
    forall id, id ∈ more <-> i <= id < i + Z.of_nat (List.length offs) /\ named_like targ nm id.
Proof.
  revert i acc. induction offs as [|off offs IH]; intros i acc Hoffs Hi; cbn [find_cands_loop].
  { intros [= <-]. exists []. rewrite app_nil_r. split; [done|]. intros id. cbn. split; [by intros ?%elem_of_nil|lia]. }
  intros (t & Ht & (n & Hn & Hrun)%bind_Some)%bind_Some.
  assert (types targ !! Z.to_nat (i - 1) = Some off) as Hoff
    by (specialize (Hoffs 0%nat off eq_refl); by rewrite Nat.add_0_r in Hoffs).
  assert (forall j off', offs !! j = Some off' -> types targ !! (Z.to_nat (i + 1 - 1) + j)%nat = Some off') as Hrest.
  { intros j off' Hj. specialize (Hoffs (S j) off' Hj).
    by replace (Z.to_nat (i + 1 - 1) + j)%nat with (Z.to_nat (i - 1) + S j)%nat by lia. }
  assert (named_like targ nm i <-> exists nm', n = Some nm' /\ nm' <> EmptyString /\ same_essential nm nm' = true) as Hlike.
  { split.
    - intros (off' & t' & nm' & _ & Hoff' & Ht' & Hnm' & Hne & Hs). rewrite Hoff in Hoff'. injection Hoff' as <-.
      rewrite Ht in Ht'. injection Ht' as <-. rewrite Hn in Hnm'. injection Hnm' as ->. by exists nm'.
    - intros (nm' & -> & Hne & Hs). by exists off, t, nm'. }
  assert (forall acc', find_cands_loop usable targ offs (i + 1) nm acc' = Some ids ->
    exists more, ids = acc' ++ more /\ forall id, id ∈ more <->
      i + 1 <= id < i + Z.of_nat (List.length (off :: offs)) /\ named_like targ nm id) as Hgo.
  { intros acc' (more & -> & Hm)%IH; [|done|lia]. exists more. split; [done|]. intros id. rewrite Hm. cbn [List.length].
    replace (i + 1 + Z.of_nat (List.length offs)) with (i + Z.of_nat (S (List.length offs))) by lia. done. }
  assert (~ named_like targ nm i -> find_cands_loop usable targ offs (i + 1) nm acc = Some ids ->
    exists more, ids = acc ++ more /\ forall id, id ∈ more <->
      i <= id < i + Z.of_nat (List.length (off :: offs)) /\ named_like targ nm id) as Hskip.
  { intros Hno (more & -> & Hm)%Hgo. exists more. split; [done|]. intros id. rewrite Hm.
    split; intros [Hr Hl]; (split; [|done]); [lia|]. destruct (decide (id = i)) as [->|]; [done|lia]. }
  destruct n as [[|c nm']|].
  - apply Hskip; [|done]. rewrite Hlike. intros (nm' & [= <-] & Hne & _). done.
  - destruct (same_essential nm (String c nm')) eqn:Hs.
    + destruct (_ <? _); [done|]. apply Hgo in Hrun as (more & -> & Hm). exists (i :: more).
      rewrite <- app_assoc. split; [done|]. intros id. rewrite list.elem_of_cons, Hm. cbn [List.length].
      assert (named_like targ nm i) as Hli by (apply Hlike; by eexists).
      split; [intros [->|[? ?]]; (split; [lia|done])|]. intros [Hr Hl].
      destruct (decide (id = i)) as [->|]; [by left|]. right. split; [lia|done].
    + apply Hskip; [|done]. rewrite Hlike. intros (nm'' & [= <-] & _ & Hs'). congruence.
  - apply Hskip; [|done]. rewrite Hlike. by intros (nm' & ? & _).
Qed.

(** The candidates for a type are the types of the target with the same essential name,
    each in its place. *)
Theorem find_cands_spec usable local targ local_id ids :
  bpf_core_find_cands usable local local_id targ = Some (inr ids) ->
  exists r t nm, btf__type_by_id local local_id = Some r /\ deref local r = Some t /\
    name_at local (name_off t) = Some (Some nm) /\ nm <> EmptyString /\
    forall id, id ∈ ids <-> named_like targ nm id.
Proof.
  unfold bpf_core_find_cands. destruct (btf__type_by_id local local_id) as [r|]; [|done].
  intros (t & Ht & (n & Hn & Hrun)%bind_Some)%bind_Some. destruct n as [[|c nm]|]; [done| |done].
  apply bind_Some in Hrun as (ids' & Hl & [= ->]).
  apply find_cands_loop_spec in Hl as (more & -> & Hm); [|intros j off Hj; exact Hj|lia].
  exists r, t, (String c nm). repeat split; [done..| |].
  - rewrite Hm. by intros [_ ?].
  - intros Hl. apply Hm. split; [|done]. destruct Hl as (off & _ & _ & H1 & Ho & _). apply lookup_lt_Some in Ho. lia.
Qed.

(** The candidates a type starts with. *)
Definition named_candidates local targ (local_id : Z) (ids : list Z) : Prop :=
  exists r t nm, btf__type_by_id local local_id = Some r /\ deref local r = Some t /\
    name_at local (name_off t) = Some (Some nm) /\ nm <> EmptyString /\
    forall id, id ∈ ids <-> named_like targ nm id.
End Candidates.

(** ** The cache of candidates *)

Section Cache.
Context `{HostOrder} (usable : Z -> Z) (calloc_ok : Z -> bool) (shift_out : Z -> Z).
Context (calloc_bound : forall n, calloc_ok n = true -> n * 8 < 2 ^ 63).
Context (local targ : btf).

(** The map of the cache sends each type to a vector of its own. *)
Record cache_ok (c : cand_cache) (a : amap (K := Z) (V := nat)) : Prop := {
  cache_map : implements core_hash core_equal shift_out (cmap c) a;
  cache_vecs : forall k e, a k = Some e -> is_Some (vecs c !! value e);
  cache_apart : forall k k' e e', a k = Some e -> a k' = Some e' -> value e = value e' -> k = k';
}.

(** The candidates the cache has for a type, if it was looked up before. *)
Definition known (c : cand_cache) (a : amap (K := Z) (V := nat)) (k : Z) : option (list Z) :=
  e ← a k; vecs c !! value e.

(** Those a relocation against the type starts from. *)
Definition candidates_of (A : Z -> option (list Z)) (k : Z) (ids : list Z) : Prop :=
  match A k with Some l => ids = l | None => named_candidates local targ k ids end.

Lemma core_exec malloc_ok o map a :
  match o with Hashmap.Insert HASHMAP_APPEND _ _ => False | _ => True end ->
  implements core_hash core_equal shift_out map a ->
  simulates (V := nat) core_hash core_equal shift_out calloc_ok malloc_ok o map a.
Proof.
  apply exec_implements; unfold core_equal, core_hash; [apply Z.eqb_refl|..|done].
  - intros k k'. by rewrite !Z.eqb_eq.
  - intros k1 k2 k3. rewrite !Z.eqb_eq. by intros -> ->.
  - intros k k'. by rewrite Z.eqb_eq.
Qed.

Lemma empty_cache_ok : cache_ok (Cache hashmap__init []) (fun _ => None).
Proof.
  split; [|done..]. split; [by repeat split|]. done.
Qed.

Lemma upd_eq k o (a : amap (K := Z) (V := nat)) k' :
  upd core_equal k o a k' = if decide (k = k') then o else a k'.
Proof. unfold upd, core_equal. destruct (Z.eqb_spec k k'); by case_decide. Qed.

(** The vector for a type holds the candidates known for it, or found now. *)
Lemma cached_cands_spec c a k v c' :
  cache_ok c a -> cached_cands usable calloc_ok shift_out local k targ c = Some (inr (v, c')) ->
  exists a' e ids, cache_ok c' a' /\ a' k = Some e /\ value e = v /\ vecs c' !! v = Some ids /\
    candidates_of (known c a) k ids /\
    forall k', known c' a' k' = if decide (k' = k) then Some ids else known c a k'.
Proof.
  intros Hok. pose proof Hok as [Hmap Hvecs Hapart]. unfold cached_cands.
  destruct (core_exec true (Hashmap.Find k) (cmap c) a I Hmap) as (r & m & a0 & E & Hstep & _).
  cbn [exec] in E. apply bind_Some in E as (found & E & [= <- <-]). inversion Hstep as [| | | | | |k0 Ek0 Ef Ea|]; subst.
  rewrite E. cbn [mbind option_bind]. unfold candidates_of, known at 1.
  destruct (a0 k) as [e|] eqn:Hk; cbn [fmap option_fmap option_map mbind option_bind].
  { intros [= <- <-]. destruct (Hvecs k e Hk) as [ids Hids]. exists a0, e, ids. rewrite Hids.
    do 5 (split; [done|]). intros k'. case_decide as Hkk; [subst k'; unfold known; by rewrite Hk|done]. }
  intros (ids & Hids & Hrun)%rbind_Some. apply bind_Some in Hrun as ([[err old] m] & Hset & Hrun).
  destruct (core_exec true (Hashmap.Insert HASHMAP_SET k (List.length (vecs c))) (cmap c) a0 I Hmap)
    as (r & m1 & a1 & E1 & Hstep1 & Himp1).
  cbn [exec] in E1. apply bind_Some in E1 as ([[err1 old1] m2] & E1 & [= <- <-]).
  unfold hashmap__set in Hset. rewrite E1 in Hset. injection Hset as <- <- <-.
  destruct (Z.eqb_spec err1 0) as [->|]; cbn [negb] in Hrun; [|done]. injection Hrun as <- <-.
  assert (a1 = upd core_equal k (Some (Entry k (List.length (vecs c)))) a0) as ->
    by (inversion Hstep1; subst; congruence || done).
  assert (forall k' e', a0 k' = Some e' -> (value e' < List.length (vecs c))%nat) as Hlt.
  { intros k' e' Hk'. destruct (Hvecs k' e' Hk') as [ids' Hl]. by eapply lookup_lt_Some. }
  assert ((vecs c ++ [ids]) !! List.length (vecs c) = Some ids) as Hlast by by rewrite lookup_app_r, Nat.sub_diag.
  exists (upd core_equal k (Some (Entry k (List.length (vecs c)))) a0), (Entry k (List.length (vecs c))), ids.
  split; [|split; [by rewrite upd_eq, decide_True|split; [done|split; [done|split]]]].
  - split; cbn [cmap vecs]; [done|..].
    + intros k' e'. rewrite upd_eq. case_decide as Hkk.
      * intros [= <-]. cbn [value]. by exists ids.
      * intros Hk'. rewrite lookup_app_l; [by apply (Hvecs k')|by apply (Hlt k')].
    + intros k1 k2 e1 e2. rewrite !upd_eq. do 2 case_decide; [congruence|..|by apply Hapart].
      * intros [= <-] Hk2 Hv. apply Hlt in Hk2. cbn in Hv. lia.
      * intros Hk1 [= <-] Hv. apply Hlt in Hk1. cbn in Hv. lia.
  - by apply find_cands_spec in Hids.
  - intros k'. unfold known. rewrite upd_eq. cbn [vecs]. do 2 case_decide; try congruence; cbn [mbind option_bind value].
    + done.
    + destruct (a0 k') as [e'|] eqn:Hk'; [|done]. cbn. by rewrite lookup_app_l by (by apply (Hlt k')).
Qed.

(** Replacing the vector of a type. *)
Lemma cache_replace c a k e ids :
  cache_ok c a -> a k = Some e -> cache_ok (Cache (cmap c) (<[value e := ids]> (vecs c))) a /\
  forall k', known (Cache (cmap c) (<[value e := ids]> (vecs c))) a k' =
    if decide (k' = k) then Some ids else known c a k'.
Proof.
  intros [Hmap Hvecs Hapart] Hk. destruct (Hvecs k e Hk) as [old Hold].
  assert (forall k' e', a k' = Some e' -> (<[value e := ids]> (vecs c)) !! value e' =
    if decide (k' = k) then Some ids else vecs c !! value e') as Hl.
  { intros k' e' Hk'. case_decide as Hkk.
    - subst k'. rewrite Hk in Hk'. injection Hk' as <-. apply list_lookup_insert_eq. by eapply lookup_lt_Some.
    - apply list_lookup_insert_ne. intros E. apply Hkk. symmetry. by eapply Hapart. }
  split; [split; cbn [cmap vecs]; [done| |done]|].
  - intros k' e' Hk'. rewrite (Hl _ _ Hk'). case_decide; [by eexists|by apply (Hvecs k')].
  - intros k'. unfold known. cbn [vecs]. destruct (a k') as [e'|] eqn:Hk'; cbn [mbind option_bind].
    + by rewrite (Hl _ _ Hk').
    + case_decide; [congruence|done].
Qed.

(** ** One relocation *)

Context (Hwf : Btf.wf local) (Hbytes : Forall byte_ok (data targ)) (Hun : unambiguous targ).

Lemma spec_match_bool ls id c s : bpf_core_spec_match local ls targ id = Some (c, s) -> c <= 0 \/ c = 1.
Proof.
  unfold bpf_core_spec_match. generalize (accs ls), empty_spec, true. intros l. revert id.
  induction l as [|x l IH]; intros id s0 first; cbn [match_accs]; [intros [= <- _]; by right|].
  intros ([cid r] & _ & (t & _ & Hrun)%bind_Some)%bind_Some. destruct (acc_name x).
  - apply bind_Some in Hrun as (y & _ & Hrun). destruct (Z.leb_spec (found y) 0); [|by eapply IH].
    injection Hrun as <- _. by left.
  - apply bind_Some in Hrun as (y & Hy & Hrun). destruct y as [c'|[cid' s']]; [|by eapply IH].
    injection Hrun as <- _. left. by eapply match_elem_stops.
Qed.

(** What the loop over the candidates [ids] adds, [more]: the types behind those that
    matched; the spec [ts'] is that of one of them, whose bit offset all of them have. *)
Definition matches ls (id : Z) s : Prop := bpf_core_spec_match local ls targ id = Some (1, s).

Record cands_matched ls (ids more : list Z) (ts ts' : option core_spec) : Prop := {
  cm_decided : forall id, id ∈ ids -> (exists s, bpf_core_spec_match local ls targ id = Some (0, s)) \/
    exists s a, matches ls id s /\ head (accs s) = Some a /\ acc_type_id a ∈ more;
  cm_behind : forall id', id' ∈ more ->
    exists id s a, id ∈ ids /\ matches ls id s /\ head (accs s) = Some a /\ id' = acc_type_id a;
  cm_kept : forall x, ts = Some x -> ts' = Some x;
  cm_found : ts = None ->
    more = [] /\ ts' = None \/ more <> [] /\ exists id s, ts' = Some s /\ id ∈ ids /\ matches ls id s;
  cm_same : forall id s x, id ∈ ids -> matches ls id s -> ts' = Some x -> bit_offset s = bit_offset x;
}.

Lemma cands_skip ls id s0 ids more ts ts' :
  bpf_core_spec_match local ls targ id = Some (0, s0) ->
  cands_matched ls ids more ts ts' -> cands_matched ls (id :: ids) more ts ts'.
Proof.
  intros Hno [H0 H1 H2 H3 H5]. split; [..|done| |].
  - intros i [->|Hin]%list.elem_of_cons; [left; by exists s0|by apply H0].
  - intros id' (i & s & a & Hin & Hrest)%H1. exists i, s, a. split; [by right|done].
  - intros [?|(? & i & s & ? & Hin & ?)]%H3; [by left|right]. split; [done|]. exists i, s.
    split; [done|]. split; [by right|done].
  - intros i s x [->|Hin]%list.elem_of_cons Hs; [|by apply (H5 i)]. unfold matches in Hs. congruence.
Qed.

Lemma cands_match ls id ids more ts ts2 ts' s a :
  matches ls id s -> head (accs s) = Some a -> (ts = None -> ts2 = Some s) ->
  (forall x, ts = Some x -> ts2 = Some x) -> (forall x, ts2 = Some x -> bit_offset s = bit_offset x) ->
  is_Some ts2 -> cands_matched ls ids more ts2 ts' ->
  cands_matched ls (id :: ids) (acc_type_id a :: more) ts ts'.
Proof.
  intros Hm Ha Hnone Hsome Hoff [x2 Hx2] [H0 H1 H2 H3 H5]. pose proof (H2 _ Hx2) as Ht'. split.
  - intros i [->|Hin]%list.elem_of_cons; [right; exists s, a; split; [done|]; split; [done|by left]|].
    destruct (H0 i Hin) as [Hz|(si & ai & ? & ? & ?)]; [by left|right]. exists si, ai.
    split; [done|]. split; [done|by right].
  - intros id' [->|Hin]%list.elem_of_cons; [exists id, s, a; split; [by left|done]|].
    destruct (H1 _ Hin) as (i & si & ai & Hi & Hrest). exists i, si, ai. split; [by right|done].
  - intros x Hx. by apply H2, Hsome.
  - intros Ht. right. split; [done|]. exists id, s. split; [by apply H2, Hnone|]. split; [by left|done].
  - intros i si x [->|Hin]%list.elem_of_cons Hs Hx; [|by apply (H5 i)].
    unfold matches in *. rewrite Hm in Hs. injection Hs as <-. apply Hoff. congruence.
Qed.

Lemma match_cands_spec ls ids kept ts kept' ts' :
  match_cands local ls targ ids kept ts = Some (inr (kept', ts')) ->
  exists more, kept' = kept ++ more /\ cands_matched ls ids more ts ts'.
Proof.
  revert kept ts. induction ids as [|id ids IH]; intros kept ts; cbn [match_cands].
  { intros [= <- <-]. exists []. rewrite app_nil_r. split; [done|]. split; try done.
    - by intros ? ?%elem_of_nil.
    - by intros ? ?%elem_of_nil.
    - by left.
    - by intros ? ? ? ?%elem_of_nil. }
  intros (r & _ & (t & _ & ([err s] & Hm & Hrun)%bind_Some)%bind_Some)%bind_Some.
  destruct (Z.ltb_spec err 0) as [|Hpos]; [done|]. destruct (Z.eqb_spec err 0) as [->|Hne].
  { destruct (IH _ _ Hrun) as (more & -> & Hc). exists more. split; [done|]. by eapply cands_skip. }
  assert (err = 1) as -> by (apply spec_match_bool in Hm; lia).
  apply bind_Some in Hrun as (a & Ha & Hrun). destruct ts as [x0|].
  - destruct (Z.eqb_spec (bit_offset s) (bit_offset x0)) as [E|]; cbn [negb] in Hrun; [|done].
    destruct (IH _ _ Hrun) as (more & -> & Hc). exists (acc_type_id a :: more). rewrite <- app_assoc.
    split; [done|]. apply (cands_match _ _ _ _ _ (Some x0) _ s); try done. by intros x [= <-].
  - destruct (IH _ _ Hrun) as (more & -> & Hc). exists (acc_type_id a :: more). rewrite <- app_assoc.
    split; [done|]. apply (cands_match _ _ _ _ _ (Some s) _ s); try done. by intros x [= <-].
Qed.

(** What is left of the candidates of a type after a relocation of the field [ls]: the
    types behind those that have it; all of them when none has. *)
Definition narrowed ls (ids kept : list Z) : Prop :=
  (forall id, id ∈ ids -> ~ has_field local targ ls id) /\ kept = ids \/
  (exists id, id ∈ ids /\ has_field local targ ls id) /\
  forall id', id' ∈ kept <-> exists id r, id ∈ ids /\ has_field local targ ls id /\ skip_id targ id = Some (id', r).

(** The value written: that of the field in a candidate, where it lies at the same bit
    offset as in all the others that match; or, when no candidate has the field, the
    answer to a question whether it exists, or (in relaxed mode) an invalid value. *)
Definition value_written (relaxed : bool) (relo : bpf_field_reloc) ls (ids : list Z) (v : Z) : Prop :=
  (exists id ts cur, id ∈ ids /\ matches ls id ts /\ denotes targ id ts cur /\
     Forall2 (agrees local targ) (accs ls) (accs ts) /\
     (forall id' s, id' ∈ ids -> matches ls id' s -> bit_offset s = bit_offset ts) /\
     (if fr_kind relo =? BPF_FIELD_EXISTS then v = 1
      else exists vd, bpf_core_calc_field_relo targ (fr_kind relo) ts = Some (inr (v, vd)))) \/
  (forall id, id ∈ ids -> ~ has_field local targ ls id) /\
  (if fr_kind relo =? BPF_FIELD_EXISTS then v = 0 else relaxed = true /\ v = u32 (-1)).

Lemma reloc_insn_spec insns relo ls ts insns' :
  bpf_core_reloc_insn insns relo local ls targ ts = Some (inr insns') ->
  exists insn v, insns !! Z.to_nat (insn_off relo / 8) = Some insn /\
    insns' = <[Z.to_nat (insn_off relo / 8) := set_imm insn (i32 v)]> insns /\
    (if fr_kind relo =? BPF_FIELD_EXISTS then v = match ts with Some _ => 1 | None => 0 end
     else match ts with
          | None => v = u32 (-1)
          | Some s => exists vd, bpf_core_calc_field_relo targ (fr_kind relo) s = Some (inr (v, vd))
          end).
Proof.
  unfold bpf_core_reloc_insn. destruct (negb _); [done|].
  intros ([ov nv] & Hv & Hrun)%rbind_Some. apply bind_Some in Hrun as (insn & Hi & Hrun).
  destruct (_ || _); [|done]. destruct (negb _); [done|].
  destruct (match ov with Some _ => _ | None => _ end); [done|]. injection Hrun as <-.
  exists insn, nv. split; [done|]. split; [done|]. revert Hv. unfold reloc_values.
  destruct (fr_kind relo =? BPF_FIELD_EXISTS); [by intros [= _ <-]|].
  destruct ts as [s|]; [|by intros [= _ <-]].
  intros (o & _ & ([n vd] & Hn & E)%rbind_Some)%rbind_Some. exists vd. cbn [fst] in E.
  injection E as _ <-. exact Hn.
Qed.

(** One relocation, from the candidates [A] known and the instructions: its access string
    is a path of the program's types; instruction [insn_off / 8] gets the value as its
    immediate operand, and nothing else changes; the candidates of its type are narrowed. *)
Definition field_relocated (relaxed : bool) (relo : bpf_field_reloc)
    (A : Z -> option (list Z)) (insns : list bpf_insn) (A' : Z -> option (list Z)) (insns' : list bpf_insn) : Prop :=
  exists str ls lcur ids kept insn v, name_at local (access_str_off relo) = Some str /\
    bpf_core_spec_parse local (fr_type_id relo) str = Some (inr ls) /\
    denotes local (fr_type_id relo) ls lcur /\
    candidates_of A (fr_type_id relo) ids /\ narrowed ls ids kept /\
    (forall k, A' k = if decide (k = fr_type_id relo) then Some kept else A k) /\
    insns !! Z.to_nat (insn_off relo / 8) = Some insn /\
    insns' = <[Z.to_nat (insn_off relo / 8) := set_imm insn (i32 v)]> insns /\
    value_written relaxed relo ls ids v.

(** The candidates kept are those that have the field. *)
Lemma cands_narrowed ls lcur k ids more ts :
  denotes local k ls lcur -> cands_matched ls ids more None ts ->
  narrowed ls ids (match more with [] => ids | _ => more end) /\
  (ts = None -> forall id, id ∈ ids -> ~ has_field local targ ls id).
Proof.
  intros Hden [Hdec Hbeh _ Hfound _].
  assert (more = [] -> forall id, id ∈ ids -> ~ has_field local targ ls id) as Hno.
  { intros -> id Hin. destruct (Hdec id Hin) as [[s Hs]|(s & a & _ & _ & Hi)]; [|by apply elem_of_nil in Hi].
    by destruct (spec_match_decides local targ Hbytes Hun _ _ _ _ _ _ Hden Hs) as [_ ?]; auto. }
  split; [|intros ->; apply Hno; by destruct (Hfound eq_refl) as [[-> _]|(_ & ? & ? & ? & _)]].
  destruct more as [|m0 more]; [left; auto|right].
  assert (forall id', id' ∈ m0 :: more <-> exists id r, id ∈ ids /\ has_field local targ ls id /\
    skip_id targ id = Some (id', r)) as Hiff.
  { intros id'. split.
    - intros (id & s & a & Hin & Hm & Ha & ->)%Hbeh.
      destruct (spec_match_root local targ Hbytes Hun _ _ _ _ _ _ Hden Hm Ha) as [r Hr]. exists id, r.
      split; [done|]. split; [|done]. by apply (spec_match_decides local targ Hbytes Hun _ _ _ _ _ _ Hden Hm).
    - intros (id & r & Hin & Hhas & Hr). destruct (Hdec id Hin) as [[s Hs]|(s & a & Hm & Ha & Hi)].
      + by apply (spec_match_decides local targ Hbytes Hun _ _ _ _ _ _ Hden Hs) in Hhas.
      + destruct (spec_match_root local targ Hbytes Hun _ _ _ _ _ _ Hden Hm Ha) as [r' Hr']. rewrite Hr in Hr'.
        by injection Hr' as -> _. }
  split; [|done]. destruct (proj1 (Hiff m0)) as (id & r & ? & ? & _); [by left|by exists id].
Qed.

(** A relocation that succeeds is one of the field its access string denotes; the cache
    stays in order. *)
Lemma reloc_field_sound insns relaxed relo c a insns' c' :
  cache_ok c a ->
  bpf_core_reloc_field usable calloc_ok shift_out insns relaxed relo local targ c = Some (inr (insns', c')) ->
  exists a', cache_ok c' a' /\ field_relocated relaxed relo (known c a) insns (known c' a') insns'.
Proof.
  intros Hc. unfold bpf_core_reloc_field. destruct (btf__type_by_id local (fr_type_id relo)) as [r0|]; [|done].
  intros (t & _ & (nm & _ & Hrun)%bind_Some)%bind_Some. destruct (str_is_empty nm); [done|].
  apply bind_Some in Hrun as (str & Hstr & Hrun). destruct (str_is_empty str); [done|].
  apply bind_Some in Hrun as ([e|ls] & Hls & Hrun); [done|].
  apply rbind_Some in Hrun as ([v c1] & Hcand & Hrun).
  apply (cached_cands_spec _ _ _ _ _ Hc) in Hcand as (a' & e & ids & Hc1 & Hk & <- & Hids & Hof & Hknown).
  rewrite Hids in Hrun. cbn [mbind option_bind] in Hrun. apply rbind_Some in Hrun as ([kept ts] & Hm & Hrun).
  apply match_cands_spec in Hm as (more & -> & Hmatch). cbn [app] in Hrun.
  destruct (bool_decide (more = []) && negb relaxed && negb _) eqn:Hnone; [done|].
  apply bind_Some in Hrun as ([err|insns1] & Hins & Hrun); [done|]. injection Hrun as <- <-.
  destruct (spec_parse_denotes local _ _ _ Hwf Hls) as [[cur Hden] _].
  destruct (cands_narrowed _ _ _ _ _ _ Hden Hmatch) as [Hnarrow Habs].
  apply reloc_insn_spec in Hins as (insn & v & Hi & -> & Hv).
  assert (value_written relaxed relo ls ids v) as Hwritten.
  { destruct (cm_found _ _ _ _ _ Hmatch eq_refl) as [[-> ->]|(_ & id & s & -> & Hin & Hs)].
    - right. split; [by apply Habs|]. destruct (fr_kind relo =? BPF_FIELD_EXISTS); [done|]. split; [|done].
      rewrite bool_decide_eq_true_2, andb_true_r in Hnone by done. by destruct relaxed.
    - left. destruct (spec_match_denotes local targ Hbytes Hun _ _ _ _ _ Hden Hs) as [[tcur Htd] Hag].
      exists id, s, tcur. do 4 (split; [done|]). split; [|done].
      intros id' s' Hin' Hs'. by apply (cm_same _ _ _ _ _ Hmatch id'). }
  exists a'. destruct more as [|id' more].
  - split; [done|]. exists str, ls, cur, ids, ids, insn, v. do 8 (split; [done|]). done.
  - destruct (cache_replace c1 a' _ e (id' :: more) Hc1 Hk) as [Hc2 Hknown2]. split; [done|].
    exists str, ls, cur, ids, (id' :: more), insn, v. do 5 (split; [done|]).
    split; [|done]. intros k'. rewrite Hknown2, Hknown. by case_decide.
Qed.

(** ** All relocations *)

(** The relocations of the records [recs] of a section. *)
Fixpoint relocs_from (n : nat) (recs : bytes) (p rec_size : nat) : option (list bpf_field_reloc) :=
  match n with
  | O => Some []
  | S n => r ← read_reloc recs p; l ← relocs_from n recs (p + rec_size) rec_size; Some (r :: l)
  end.

Definition relocs_of (rec_size : Z) (recs : bytes) : option (list bpf_field_reloc) :=
  relocs_from (Z.to_nat (Z.of_nat (List.length recs) / rec_size)) recs 0 (Z.to_nat rec_size).

(** The relocations of a list, one after the other. *)
Inductive fields_relocated (relaxed : bool) : list bpf_field_reloc -> (Z -> option (list Z)) -> list bpf_insn ->
    (Z -> option (list Z)) -> list bpf_insn -> Prop :=
  | fields_none A insns : fields_relocated relaxed [] A insns A insns
  | fields_next relo relos A insns A1 insns1 A' insns' :
      field_relocated relaxed relo A insns A1 insns1 ->
      fields_relocated relaxed relos A1 insns1 A' insns' ->
      fields_relocated relaxed (relo :: relos) A insns A' insns'.

(** Those of the sections, each in the program of its name. *)
Inductive sections_relocated (rec_size : Z) (find : string -> option nat) (relaxed : bool) :
    list (Z * bytes) -> (Z -> option (list Z)) -> list (list bpf_insn) ->
    (Z -> option (list Z)) -> list (list bpf_insn) -> Prop :=
  | sections_none A ps : sections_relocated rec_size find relaxed [] A ps A ps
  | sections_next name_off recs secs nm i relos A ps insns A1 insns1 A' ps' :
      name_at local name_off = Some (Some nm) -> find nm = Some i -> ps !! i = Some insns ->
      relocs_of rec_size recs = Some relos -> fields_relocated relaxed relos A insns A1 insns1 ->
      sections_relocated rec_size find relaxed secs A1 (<[i := insns1]> ps) A' ps' ->
      sections_relocated rec_size find relaxed ((name_off, recs) :: secs) A ps A' ps'.

(** A record read in place is the one of the section. *)
Lemma read_reloc_within d at_ recs n p relo :
  read_bytes d at_ n = Some recs -> (p + 16 <= n)%nat -> read_reloc d (at_ + p) = Some relo ->
  read_reloc recs p = Some relo.
Proof.
  intros Hr Hp. assert (forall q, (q + 4 <= n)%nat -> read32 recs q = read32 d (at_ + q)) as E.
  { intros q Hq. unfold read32, read_bytes in *. destruct (decide (at_ + n <= _)%nat); [|done]. injection Hr as <-.
    rewrite length_take, length_drop. rewrite !decide_True by lia.
    rewrite <- drop_drop, skipn_firstn_comm, take_take. do 3 f_equal. lia. }
  unfold read_reloc. rewrite !E by lia. rewrite !Nat.add_assoc. done.
Qed.

Lemma reloc_records_sound n d at_ recs len p rec_size insns relaxed c a insns' c' :
  cache_ok c a -> read_bytes d at_ len = Some recs -> (p + n * Z.to_nat rec_size <= len)%nat -> 16 <= rec_size ->
  reloc_records usable calloc_ok shift_out n d (at_ + p) rec_size insns relaxed local targ c = Some (inr (insns', c')) ->
  exists a' relos, cache_ok c' a' /\ relocs_from n recs p (Z.to_nat rec_size) = Some relos /\
    fields_relocated relaxed relos (known c a) insns (known c' a') insns'.
Proof.
  intros Hc Hrecs Hlen Hsz. revert p insns c a Hc Hlen. induction n as [|n IH]; intros p insns c a Hc Hlen; cbn [reloc_records].
  { intros [= <- <-]. exists a, []. split; [done|]. split; [done|constructor]. }
  intros (relo & Hrelo & ([insns1 c1] & Hf & Hrun)%rbind_Some)%bind_Some.
  destruct (reloc_field_sound _ _ _ _ _ _ _ Hc Hf) as (a1 & Hc1 & Hrel).
  rewrite <- Nat.add_assoc in Hrun. 
  destruct (IH (p + Z.to_nat rec_size)%nat insns1 c1 a1 Hc1 ltac:(lia) Hrun) as (a2 & relos & Hc2 & Hl & Hrest).
  exists a2, (relo :: relos). split; [done|]. split; [|by eapply fields_next].
  cbn [relocs_from]. rewrite (read_reloc_within d at_ recs len p relo Hrecs) by (done || lia).
  cbn [mbind option_bind]. by rewrite Hl.
Qed.

Lemma reloc_sections_sound d rec_size at_ left secs find relaxed :
  sections d rec_size at_ left secs -> 16 <= rec_size -> 0 <= left < 2 ^ 32 ->
  forall fuel fin ps c a ps' c', fin = (at_ + Z.to_nat left)%nat -> cache_ok c a ->
  reloc_sections usable calloc_ok shift_out fuel d at_ fin rec_size find ps relaxed local targ c =
    Some (inr (ps', c')) ->
  exists a', sections_relocated rec_size find relaxed secs (known c a) ps (known c' a') ps'.
Proof.
  intros Hsecs Hsz. induction Hsecs as [at_|at_ left name_off n recs secs Hoff Hn Hpos Hrecs Hle Hsecs IH];
    intros Hleft fuel fin ps c a ps' c' -> Hc; (destruct fuel as [|fuel]; [done|]); cbn [reloc_sections].
  { rewrite Nat.add_0_r, Nat.leb_refl. intros [= <- <-]. exists a. constructor. }
  assert (0 <= n * rec_size) by nia.
  rewrite (proj2 (Nat.leb_gt _ _)), Hoff, Hn by lia. cbn [mbind option_bind].
  intros (nm & Hnm & Hrun)%bind_Some. destruct nm as [[|x nm]|]; [done| |done].
  destruct (find (String x nm)) as [i|] eqn:Hfind; [|done].
  apply bind_Some in Hrun as (insns & Hi & ([insns' c1] & Hr & Hrun)%rbind_Some).
  rewrite <- (Nat.add_0_r (at_ + 8)) in Hr.
  assert (0 + Z.to_nat n * Z.to_nat rec_size <= Z.to_nat (n * rec_size))%nat as Hfit
    by (rewrite Z2Nat.inj_mul by lia; lia).
  destruct (reloc_records_sound _ _ _ _ _ _ _ _ _ _ _ _ _ Hc Hrecs Hfit Hsz Hr) as (a1 & relos & Hc1 & Hrelos & Hrel).
  replace (u32 (rec_size * n)) with (n * rec_size) in Hrun by (rewrite u32_id; lia).
  assert (0 <= left - (8 + n * rec_size) < 2 ^ 32) as Hleft' by lia.
  eapply (IH Hleft') in Hrun as [a2 Hrest]; [|lia|exact Hc1].
  exists a2. eapply sections_next; [done..| |exact Hrel|exact Hrest].
  unfold relocs_of. apply read_bytes_length in Hrecs as Hl. rewrite Hl, Z2Nat.id, Z.div_mul by lia. exact Hrelos.
Qed.

(** C10. When the relocations of an object succeed, with the records of a [.BTF.ext] that was
    accepted, they are those of its sections in order, each of the program of the name
    of its section: record after record, the instruction it names gets the value asked
    for of the field its access string denotes, in a candidate of the target that has
    it, or the mark that no candidate has it.  Candidates are the types of the same
    essential name, from the second relocation against a type on those that had the
    fields before. *)
Theorem reloc_all_sound x find ps relaxed ps' :
  ext_ok x ->
  reloc_all usable calloc_ok shift_out x find ps relaxed local targ = Some (inr ps') ->
  exists secs A, (field_reloc_info x = no_ext_info /\ secs = [] \/
      sections (x_data x) (ei_rec_size (field_reloc_info x)) (ei_info (field_reloc_info x))
        (ei_len (field_reloc_info x)) secs) /\
    sections_relocated (ei_rec_size (field_reloc_info x)) find relaxed secs (fun _ => None) ps A ps'.
Proof.
  intros (_ & _ & Hinfo). unfold reloc_all. intros ([err|[ps1 c]] & Hr & Hrun)%bind_Some; [done|].
  apply bind_Some in Hrun as (? & _ & [= <-]). destruct Hinfo as [E|(secs & _ & Hsz & _ & Hlen & Hsecs)].
  - rewrite E in *. cbn in Hr. injection Hr as <- _. exists [], (fun _ => None). split; [by left|constructor].
  - eapply reloc_sections_sound in Hr as [a' Hrel]; [|exact Hsecs|unfold sizeof_field_reloc in Hsz; lia|lia|done|apply empty_cache_ok].
    by exists secs, (known c a'); split; [right|].
Qed.
End Cache.
