(* ===== verification/BtfObject.v ===== *)
(** * BTF, the object and the kernel

    The rest of what [libbpf/src/btf.c] does for an object: loading a BTF, getting one
    from the kernel or from a file, freeing it.  The model of BTF then takes the place
    of the interfaces [BtfReader] and [BtfOps] that [BpfOpen], [BpfLoad], [OpenFds] and
    [LoadFds] are proved against. *)

From S2P Require Import Prelude Packet BpfMap BpfCalls BpfObject BpfLoad BpfOpen LoadFds OpenFds.
From S2P Require Import Btf BtfExt BtfPass BtfSanitize BtfFinalize BtfMaps.
From Stdlib Require Import Ascii String.
From stdpp Require Import list.

Local Open Scope Z_scope.

#[local] Abbreviation bytes := (list Z).

Definition BTF_ELF_SEC : string := ".BTF".
Definition BTF_EXT_ELF_SEC : string := ".BTF.ext".

(** [BPF_OBJ_GET_INFO_BY_FD] on the descriptor of a BTF, with a buffer of some size:
    the result, the bytes the kernel puts in the buffer, the size of the BTF. *)
Class BtfSys (W : Type) := {
  sys_btf_info : Z -> Z -> W -> Z * bytes * Z * W;
}.

Section Kernel.
Context `{HostOrder} {W : Type} `{BpfSys W} `{BpfKern W}.
Implicit Types (b : btf) (w : W).

(** ** [btf__load], [btf__free], [btf__get_raw_data] *)

Definition btf__load b w : Z * btf * W :=
  if 0 <=? fd b then (- EEXIST, b, w) else
  let '(f, _, w) := bpf_load_btf (data b) (Z.of_nat (List.length (data b))) (Some EmptyString)
                      BPF_LOG_BUF_SIZE false w in
  (if f <? 0 then - errno w else 0, set_fd b f, w).

Definition btf__free b w : W := if fd b =? -1 then w else snd (sys_close (fd b) w).

Definition btf__get_raw_data b : bytes * Z := (data b, Z.of_nat (List.length (data b))).

(** ** [btf__get_from_id] *)

Context `{BtfSys W}.

(** The buffer of [size] zeros after the call. *)
Definition filled (size : Z) (bs : bytes) : bytes :=
  take (Z.to_nat size) (bs ++ replicate (Z.to_nat size) 0).

(** The error, the BTF or NULL. *)
Definition btf__get_from_id (id : Z) (w : W) : option (Z * option btf * W) :=
  let '(btf_fd, w) := bpf_btf_get_fd_by_id id w in
  if btf_fd <? 0 then Some (0, None, w) else
  let '(err, bs, btf_size, w) := sys_btf_info btf_fd 4096 w in
  let '(err, buf, btf_size, last_size, w) :=
    if (err =? 0) && (4096 <? btf_size) then
      let last_size := btf_size in
      let '(err, bs, btf_size, w) := sys_btf_info btf_fd last_size w in
      (err, filled last_size bs, btf_size, last_size, w)
    else (err, filled 4096 bs, btf_size, 4096, w) in
  '(err, b) ←
    if negb (err =? 0) || (last_size <? btf_size) then Some (errno w, None) else
    r ← Btf.btf__new (take (Z.to_nat btf_size) buf);
    Some (match r with inl err => (err, None) | inr b => (0, Some b) end);
  let '(_, w) := sys_close btf_fd w in
  Some (err, b, w).

(** ** [btf__parse_elf] *)

Context `{ElfSys W}.

Definition btf_check_endianness (h : GElf_Ehdr) : bool :=
  match host_order with
  | LittleEndian => ei_data h =? ELFDATA2LSB
  | BigEndian => ei_data h =? ELFDATA2MSB
  end.

(** The data of the last [.BTF] and, when asked for, of the last [.BTF.ext]; [None]
    when a section cannot be read. *)
Fixpoint find_btf_sections (ss : list Elf_Scn) (want_ext : bool) (btf_data ext_data : option Elf_Data)
    : option (option Elf_Data * option Elf_Data) :=
  match ss with
  | [] => Some (btf_data, ext_data)
  | scn :: ss =>
      _ ← scn_shdr scn;
      nm ← scn_name scn;
      if (nm =? BTF_ELF_SEC)%string then
        d ← scn_data scn; find_btf_sections ss want_ext (Some d) ext_data
      else if want_ext && (nm =? BTF_EXT_ELF_SEC)%string then
        d ← scn_data scn; find_btf_sections ss want_ext btf_data (Some d)
      else find_btf_sections ss want_ext btf_data ext_data
  end.

(** The bytes of a section, whose size is cut to 32 bits. *)
Definition elf_bytes (d : Elf_Data) : option bytes :=
  read_bytes (d_buf d) 0 (Z.to_nat (u32 (d_size d))).
Definition new_of_data (d : Elf_Data) : option (Z + btf) := bs ← elf_bytes d; Btf.btf__new bs.
Definition ext_of_data (d : Elf_Data) : option (Z + btf_ext) := bs ← elf_bytes d; BtfExt.btf_ext__new bs.

(** The error, or the BTF and what is stored in [*btf_ext]. *)
Definition parse_elf_sections (e : Elf) (want_ext : bool) (w : W)
    : option ((Z + btf * option btf_ext) * W) :=
  let format := Some (inl (- LIBBPF_ERRNO__FORMAT), w) in
  match ehdr e with
  | None => format
  | Some h =>
      if negb (btf_check_endianness h) || negb (shstr_readable e) then format else
      match find_btf_sections (scns e) want_ext None None with
      | None => format
      | Some (None, _) => Some (inl (- ENOENT), w)
      | Some (Some btf_data, ext_data) =>
          r ← new_of_data btf_data;
          match r, ext_data with
          | inl err, _ => Some (inl err, w)
          | inr b, None => Some (inr (b, None), w)
          | inr b, Some d =>
              x ← ext_of_data d;
              match x with
              | inl err => Some (inl err, btf__free b w)
              | inr x => Some (inr (b, Some x), w)
              end
          end
      end
  end.

Definition btf__parse_elf (path : string) (want_ext : bool) (w : W)
    : option ((Z + btf * option btf_ext) * W) :=
  if negb (elf_version_ok w) then Some (inl (- LIBBPF_ERRNO__LIBELF), w) else
  let '(f, w) := sys_open_file path w in
  if f <? 0 then Some (inl f, w) else
  '(r, w) ← match elf_begin f w with
            | None => Some (inl (- LIBBPF_ERRNO__FORMAT), w)
            | Some e => parse_elf_sections e want_ext w
            end;
  let '(_, w) := sys_close f w in
  Some (r, w).
End Kernel.

(** ** The model in the place of the interfaces *)

(** The result of a relocation of [BtfExt] as the loader keeps it. *)
Definition with_info (i : prog_info) (r : option (Z * option bytes * Z)) : option (Z * prog_info) :=
  '(err, p, cnt) ← r; Some (err, ProgInfo p (info_rec_size i) cnt).

#[export] Instance model_ops `{HostOrder} : BtfOps btf btf_ext := {
  btf__fd := fd;
  BpfLoad.btf__get_map_kv_tids := btf__get_map_kv_tids;
  BpfLoad.btf__find_by_name := btf__find_by_name;
  BpfLoad.btf_ext__reloc_func_info b x sec n i :=
    with_info i (btf_ext__reloc_func_info b x sec n (info_ptr i) (info_cnt i));
  BpfLoad.btf_ext__func_info_rec_size := btf_ext__func_info_rec_size;
  BpfLoad.btf_ext__reloc_line_info b x sec n i :=
    with_info i (btf_ext__reloc_line_info b x sec n (info_ptr i) (info_cnt i));
  BpfLoad.btf_ext__line_info_rec_size := btf_ext__line_info_rec_size;
  BpfLoad.field_reloc_len x := ei_len (field_reloc_info x);
}.

#[export] Instance model_reader `{HostOrder} {W} `{BpfSys W} `{BpfKern W} : BtfReader btf btf_ext W := {
  BpfOpen.btf__new := new_of_data;
  BpfOpen.btf__finalize_data := btf__finalize_data;
  BpfOpen.btf_ext__new := ext_of_data;
  btf_maps := bpf_object__init_user_btf_maps;
  sanitize_btf := bpf_object__sanitize_btf;
  BpfOpen.btf__load := btf__load;
  BpfOpen.btf__free := btf__free;
}.

(** *** Descriptors *)

(** Beside the laws of [LoadFds]: opening a file and loading a BTF open a descriptor,
    descriptors are not negative. *)
Class KernLaws (W : Type) `{FdLaws W} `{ElfSys W} := {
  file_opens : forall p w f w', sys_open_file p w = (f, w') -> opens f (opened w) (opened w');
  btf_load_opens : forall a w f log w', sys_btf_load a w = (f, log, w') ->
    opens f (opened w) (opened w');
  opened_nonneg : forall w f, f ∈ opened w -> 0 <= f;
}.

Section Laws.
Context `{HostOrder} {W : Type} `{KernLaws W}.
Implicit Types (b : btf) (w : W).

Lemma put32_fd b off v b' : put32 b off v = Some b' -> fd b' = fd b.
Proof. intros (Hrw & _)%put32_spec. by rewrite Hrw. Qed.

Lemma fixup_vars_fd e o b v n ret b' : fixup_vars e o b v n = Some (ret, b') -> fd b' = fd b.
Proof.
  revert b v. induction n as [|n IH]; intros b v; cbn [fixup_vars]; [by intros [= _ <-]|].
  intros (vi & _ & (r & _ & (t & _ & Hrun)%bind_Some)%bind_Some)%bind_Some.
  destruct (negb _); [by injection Hrun as _ <-|]. apply bind_Some in Hrun as (l & _ & Hrun).
  destruct (l =? _); [by eapply IH|]. apply bind_Some in Hrun as (nm & _ & Hrun).
  destruct nm as [nm|]; [|by injection Hrun as _ <-]. apply bind_Some in Hrun as (r1 & _ & Hrun).
  destruct r1 as [err|off]; [by injection Hrun as _ <-|].
  apply bind_Some in Hrun as (b1 & E1 & Hrun). apply IH in Hrun. rewrite Hrun. by eapply put32_fd.
Qed.

Lemma sort_vars_fd b v n b' : sort_vars b v n = Some b' -> fd b' = fd b.
Proof. unfold sort_vars. intros (l & _ & (d & _ & [= <-])%bind_Some)%bind_Some. done. Qed.

Lemma fixup_datasec_fd e o b off ret b' : btf_fixup_datasec e o b off = Some (ret, b') -> fd b' = fd b.
Proof.
  unfold btf_fixup_datasec. intros (t & _ & (nm & _ & Hrun)%bind_Some)%bind_Some.
  destruct nm as [nm|]; [|by injection Hrun as _ <-].
  destruct (bpf_object__section_size e o nm). destruct (_ || _); [by injection Hrun as _ <-|].
  apply bind_Some in Hrun as (b1 & E1 & Hrun). apply put32_fd in E1. rewrite <- E1.
  apply bind_Some in Hrun as ([r b2] & E2 & Hrun). apply fixup_vars_fd in E2. rewrite <- E2.
  destruct (negb _); [by injection Hrun as _ <-|].
  apply bind_Some in Hrun as (b3 & E3 & [= _ <-]). by eapply sort_vars_fd.
Qed.

Lemma finalize_data_fd e o b ret b' : btf__finalize_data e o b = Some (ret, b') -> fd b' = fd b.
Proof.
  unfold btf__finalize_data. generalize (types b). intros offs. revert b.
  induction offs as [|off offs IH]; intros b; cbn [finalize_types]; [by intros [= _ <-]|].
  intros (t & _ & Hrun)%bind_Some. destruct (btf_is_datasec t); [|by eapply IH].
  apply bind_Some in Hrun as ([err b1] & E1%fixup_datasec_fd & Hrun). rewrite <- E1.
  destruct (negb _); [by injection Hrun as _ <-|by eapply IH].
Qed.

Lemma members_fd b v n b' : members_of_vars b v n = Some b' -> fd b' = fd b.
Proof.
  revert b v. induction n as [|n IH]; intros b v; cbn [members_of_vars]; [by intros [= <-]|].
  intros (o & _ & (b1 & E1%put32_fd & (ty & _ & (b2 & E2%put32_fd & Hrun)%bind_Some)%bind_Some)%bind_Some)%bind_Some.
  apply bind_Some in Hrun as (ty' & _ & (r & _ & (t & _ & (b3 & E3%put32_fd & Hrun)%bind_Some)%bind_Some)%bind_Some).
  apply IH in Hrun. congruence.
Qed.

Lemma sanitize_type_fd c b off b' : sanitize_type c b off = Some b' -> fd b' = fd b.
Proof.
  unfold sanitize_type. intros (t & _ & Hrun)%bind_Some.
  destruct (_ && btf_is_var t).
  { apply bind_Some in Hrun as (b1 & E1%put32_fd & (b2 & E2%put32_fd & Hrun%put32_fd)%bind_Some). congruence. }
  destruct (_ && btf_is_datasec t).
  { apply bind_Some in Hrun as (p & _ & (b1 & E1 & (t1 & _ & (b2 & E2%put32_fd & Hrun%members_fd)%bind_Some)%bind_Some)%bind_Some).
    unfold replace_dots in E1. apply bind_Some in E1 as (cs & _ & [= <-]). by rewrite Hrun, E2. }
  destruct (_ && btf_is_func_proto t).
  { apply bind_Some in Hrun as (b1 & E1%put32_fd & Hrun%put32_fd). congruence. }
  destruct (_ && btf_is_func t); [by apply put32_fd in Hrun|by injection Hrun as <-].
Qed.

Lemma sanitize_btf_fd c b b' : bpf_object__sanitize_btf c b = Some b' -> fd b' = fd b.
Proof.
  unfold bpf_object__sanitize_btf. destruct (_ && _); [by intros [= <-]|].
  generalize (types b). intros offs. revert b.
  induction offs as [|off offs IH]; intros b; cbn [sanitize_types]; [by intros [= <-]|].
  intros (b1 & E1%sanitize_type_fd & Hrun)%bind_Some. rewrite <- E1. by eapply IH.
Qed.

Lemma parse_types_fd fuel b next fin b' : parse_types fuel b next fin = Some (inr b') -> fd b' = fd b.
Proof.
  revert b next. induction fuel as [|fuel IH]; intros b next; [done|]. cbn [parse_types].
  destruct (_ <=? _)%nat; [by intros [= <-]|]. intros (t & _ & Hrun)%bind_Some.
  destruct (_ <? 0); [done|]. apply bind_Some in Hrun as (r & Hr & Hrun).
  destruct r as [err|b1]; [done|]. apply IH in Hrun. rewrite Hrun. revert Hr. unfold btf_add_type.
  by repeat case_match; intros [= <-].
Qed.

Lemma new_unloaded d b : Btf.btf__new d = Some (inr b) -> fd b = -1.
Proof.
  unfold Btf.btf__new. intros (r & _ & Hrun)%bind_Some. destruct r as [err|h]; [done|].
  apply bind_Some in Hrun as (r & _ & Hrun). destruct r as [err|start]; [done|].
  by apply parse_types_fd in Hrun.
Qed.

Lemma load_btf_opens' b w err b' w' :
  btf__load b w = (err, b', w') -> fd b < 0 -> opens (fd b') (opened w) (opened w').
Proof.
  unfold btf__load. intros Hrun Hfd. rewrite (proj2 (Z.leb_gt _ _) Hfd) in Hrun. revert Hrun.
  unfold bpf_load_btf. cbn [andb]. destruct (sys_btf_load _ w) as [[f1 log1] w1] eqn:E1.
  apply btf_load_opens in E1. destruct (Z.eqb_spec f1 (-1)) as [->|Hne]; cbn [andb negb].
  - rewrite bool_decide_eq_true_2 by done. cbn [andb]. change (negb (BPF_LOG_BUF_SIZE =? 0)) with true.
    destruct (sys_btf_load _ w1) as [[f2 log2] w2] eqn:E2. apply btf_load_opens in E2.
    unfold opens in E1. cbn in E1. rewrite E1 in E2. by intros [= _ <- <-].
  - by intros [= _ <- <-].
Qed.

Lemma free_closes b w :
  opened (btf__free b w) = if fd b <? 0 then opened w else opened w ∖ {[fd b]}.
Proof.
  unfold btf__free. destruct (Z.eqb_spec (fd b) (-1)) as [->|Hne]; [done|].
  destruct (sys_close (fd b) w) as [r w1] eqn:E. apply close_closes in E. cbn [snd]. rewrite E.
  destruct (Z.ltb_spec (fd b) 0); [|done].
  assert (fd b ∉ opened w) by (intros ?%opened_nonneg; lia). set_solver.
Qed.

#[export] Instance model_laws : OpenLaws btf btf_ext W.
Proof.
  split.
  - exact file_opens.
  - exact btf_load_opens.
  - intros d b. cbn. unfold new_of_data. intros (bs & _ & Hb%new_unloaded)%bind_Some. lia.
  - intros e o b err b'. apply finalize_data_fd.
  - intros c b b'. apply sanitize_btf_fd.
  - exact load_btf_opens'.
  - exact free_closes.
Qed.

(** ** Reading a BTF leaves no descriptor *)

(** A descriptor opened and closed. *)
Lemma open_close f w w1 w2 r w3 :
  opens f (opened w) (opened w1) -> 0 <= f -> opened w2 = opened w1 ->
  sys_close f w2 = (r, w3) -> opened w3 = opened w.
Proof.
  unfold opens. intros Ho Hf E Hc%close_closes. rewrite (proj2 (Z.ltb_ge _ _) Hf) in Ho.
  destruct Ho as [Hnew Ho]. rewrite Hc, E, Ho. set_solver.
Qed.

Lemma parse_sections_keeps e want_ext w r w' :
  parse_elf_sections e want_ext w = Some (r, w') ->
  w' = w /\ forall b x, r = inr (b, x) -> fd b = -1.
Proof.
  unfold parse_elf_sections. destruct (ehdr e) as [h|]; [|by intros [= <- <-]].
  destruct (_ || _); [by intros [= <- <-]|].
  destruct (find_btf_sections _ _ _ _) as [[bd xd]|]; [|by intros [= <- <-]].
  destruct bd as [bd|]; [|by intros [= <- <-]].
  intros (r1 & Hr & Hrun)%bind_Some. destruct r1 as [err|b]; [by injection Hrun as <- <-|].
  unfold new_of_data in Hr. apply bind_Some in Hr as (bs & _ & Hb%new_unloaded).
  destruct xd as [xd|]; [|injection Hrun as <- <-; split; [done|by intros ?? [= <- _]]].
  apply bind_Some in Hrun as (x & _ & Hrun).
  destruct x as [err|x]; injection Hrun as <- <-.
  - split; [|done]. unfold btf__free. by rewrite Hb.
  - split; [done|]. by intros ?? [= <- _].
Qed.

(** [btf__parse_elf] closes the file it opens, whatever happens. *)
Theorem parse_elf_closes path want_ext w r w' :
  btf__parse_elf path want_ext w = Some (r, w') ->
  opened w' = opened w /\ forall b x, r = inr (b, x) -> fd b = -1.
Proof.
  unfold btf__parse_elf. destruct (negb _); [by intros [= <- <-]|].
  destruct (sys_open_file path w) as [f w1] eqn:Ef. apply file_opens in Ef.
  destruct (Z.ltb_spec f 0) as [Hn|Hf].
  { intros [= <- <-]. unfold opens in Ef. by rewrite (proj2 (Z.ltb_lt _ _) Hn) in Ef. }
  intros ([r1 w2] & Hr & Hrun)%bind_Some. destruct (sys_close f w2) as [c w3] eqn:Ec.
  injection Hrun as <- <-. destruct (elf_begin f w1) as [e|].
  - apply parse_sections_keeps in Hr as [-> Hb]. split; [by eapply open_close|done].
  - injection Hr as <- <-. split; [by eapply open_close|done].
Qed.
End Laws.

Class BtfSysLaws (W : Type) `{KernLaws W} `{BtfSys W} := {
  btf_fd_opens : forall id w f w', bpf_btf_get_fd_by_id id w = (f, w') -> opens f (opened w) (opened w');
  btf_info_keeps : forall f size w err bs n w', sys_btf_info f size w = (err, bs, n, w') ->
    opened w' = opened w;
}.

Section Reading.
Context `{HostOrder} {W : Type} `{BtfSysLaws W}.
Implicit Types (b : btf) (w : W).

(** [btf__get_from_id] closes the descriptor it opens, whatever happens; it delivers a
    BTF only without an error, and that BTF is made of the bytes of the kernel. *)
Theorem get_from_id_closes id w err r w' :
  btf__get_from_id id w = Some (err, r, w') ->
  opened w' = opened w /\
  forall b, r = Some b -> err = 0 /\ fd b = -1 /\ exists d, Btf.btf__new d = Some (inr b).
Proof.
  unfold btf__get_from_id. destruct (bpf_btf_get_fd_by_id id w) as [f w1] eqn:Ef.
  apply btf_fd_opens in Ef. destruct (Z.ltb_spec f 0) as [Hn|Hf].
  { intros [= _ <- <-]. unfold opens in Ef. by rewrite (proj2 (Z.ltb_lt _ _) Hn) in Ef. }
  destruct (sys_btf_info f 4096 w1) as [[[e1 bs1] n1] w2] eqn:E1. apply btf_info_keeps in E1.
  set (again := if _ && _ then _ else _). destruct again as [[[[e2 buf] n2] last] w3] eqn:E2.
  assert (opened w3 = opened w1) as Ew.
  { subst again. destruct (_ && _).
    - destruct (sys_btf_info f n1 w2) as [[[? ?] ?] ?] eqn:E3. apply btf_info_keeps in E3.
      injection E2 as _ _ _ _ <-. congruence.
    - by injection E2 as _ _ _ _ <-. }
  intros ([e3 r3] & Hr & Hrun)%bind_Some. destruct (sys_close f w3) as [c w4] eqn:Ec.
  injection Hrun as <- <- <-. split; [by eapply open_close|]. intros b ->.
  destruct (_ || _); [done|]. apply bind_Some in Hr as (r & Hnew & Hr). destruct r as [e|b1]; [done|].
  injection Hr as <- <-. split; [done|]. split; [by eapply new_unloaded|]. eauto.
Qed.

(** The error is a positive number here, where the other functions return a negative
    one: the kernel's refusal to describe the BTF is [errno] itself. *)
Theorem get_from_id_sign id w f w1 e bs n w2 :
  bpf_btf_get_fd_by_id id w = (f, w1) -> 0 <= f ->
  sys_btf_info f 4096 w1 = (e, bs, n, w2) -> e <> 0 ->
  btf__get_from_id id w = Some (errno w2, None, snd (sys_close f w2)).
Proof.
  intros Ef Hf E1 He. unfold btf__get_from_id. rewrite Ef, (proj2 (Z.ltb_ge _ _) Hf), E1.
  rewrite (proj2 (Z.eqb_neq _ _) He). cbn [andb]. rewrite (proj2 (Z.eqb_neq _ _) He). cbn [negb orb mbind option_bind].
  destruct (sys_close f w2) as [r w3] eqn:Ec. done.
Qed.
End Reading.

(** ** A BTF from the file to the kernel *)

Section Together.
Context `{HostOrder}.
Implicit Types (b : btf).

Lemma read_secinfos_lookup d v n l j vi :
  read_secinfos d v n = Some l -> (j < n)%nat -> read_secinfo d (v + 12 * j) = Some vi -> vi ∈ l.
Proof.
  revert v l j. induction n as [|n IH]; intros v l j; [lia|]. cbn [read_secinfos].
  intros (vi0 & Hvi0 & (l' & Hl & [= <-])%bind_Some)%bind_Some Hj Hvi. destruct j as [|j].
  - replace (v + 12 * 0)%nat with v in Hvi by lia. rewrite Hvi0 in Hvi. injection Hvi as <-. by left.
  - right. eapply (IH (v + 12)%nat _ j); [done|lia|].
    by replace (v + 12 + 12 * j)%nat with (v + 12 * S j)%nat by lia.
Qed.

(** What finalizing leaves is in order for sanitizing: a section has the name that was
    looked up in the file, its variables are there. *)
Lemma finalized_sections_ok e o b0 b :
  wf b0 -> fits b0 -> rewritten b0 b -> List.length (data b) = List.length (data b0) ->
  (forall off, off ∈ types b0 -> finalized_at e o b0 (data b) off) -> sections_ok b.
Proof.
  intros Hwf Hfits Hrw Hlen Hfin off t Hin Ht Hk.
  assert (hdr b = hdr b0) as Eh by (by rewrite Hrw). assert (types b = types b0) as Et by (by rewrite Hrw).
  rewrite Et in Hin. destruct (Hfin off Hin) as (t0 & t' & Ht0 & Ht' & En & Ei & Hrest).
  rewrite Ht in Ht'. injection Ht' as <-.
  assert (btf_is_datasec t0 = true) as Hk0.
  { rewrite <- Hk. unfold btf_is_datasec, is_kind, btf_kind. do 3 f_equal. by symmetry. }
  assert (btf_vlen t = btf_vlen t0) as Ev by (unfold btf_vlen; f_equal; exact Ei).
  rewrite Hk0 in Hrest.
  destruct Hrest as (nm & vis & vis' & sorted & Hnm & _ & _ & _ & Hr & Hall & Hperm & _).
  split.
  - rewrite En, Eh. revert Hnm. unfold name_at, btf__name_by_offset. destruct (Z.ltb_spec (name_off t0) (str_len (hdr b0))); done.
  - intros j vi Hj Hvi. rewrite Ev in Hj.
    eapply read_secinfos_lookup in Hr; [|exact Hj|exact Hvi]. rewrite Hperm in Hr.
    apply list_elem_of_lookup in Hr as [k Hk'].
    destruct (Forall2_lookup_r _ _ _ _ _ Hall Hk') as (vi0 & _ & Hloc).
    destruct Hloc as (Ety & _ & p & tv & l & Hid & Htv & _).
    assert (p ∈ types b0) as Hp.
    { revert Hid. unfold btf__type_by_id. destruct (_ <? _); [done|]. destruct (_ =? _); [done|].
      intros (x & Hx & [= <-])%fmap_Some. by eapply list_elem_of_lookup_2. }
    assert (p + 12 <= List.length (data b))%nat as Hl.
    { rewrite Hlen. by eapply type_in_data. }
    destruct (read32_in (data b) p) as [nmo Hnmo]; [lia|].
    exists (BtfMember nmo (vsi_type vi) (u32 (8 * vsi_offset vi))). split; [|done].
    unfold type_name. rewrite Ety.
    assert (btf__type_by_id b (vsi_type vi0) = Some (At p)) as -> by (rewrite <- Hid, Hrw; done).
    cbn [mbind option_bind]. by rewrite Hnmo.
Qed.

(** C16. From the bytes of the file to the kernel: a BTF that is parsed and finalized can be
    sanitized for any kernel, and what is loaded is well-formed and has only the kinds
    of types that kernel knows, provided that the last type ends where the strings
    begin, which nothing tests. *)
Theorem btf_for_kernel e o c d b0 b1 :
  Forall byte_ok d -> Btf.btf__new d = Some (inr b0) -> fits b0 ->
  btf__finalize_data e o b0 = Some (0, b1) ->
  exists b2, bpf_object__sanitize_btf c b1 = Some b2 /\ wf b2 /\ types b2 = types b0 /\
    forall off, off ∈ types b2 ->
      exists t, read_type (data b2) off = Some t /\ supported c (btf_kind t).
Proof.
  intros Hd Hnew Hfits Hfin. destruct (btf_new_wf d b0 Hd Hnew) as (Hwf0 & Ed & _).
  assert (Forall byte_ok (data b0)) as Hb0 by (by rewrite Ed).
  apply (finalize_data_passed e o b0 Hwf0 Hfits Hb0) in Hfin as Hp.
  assert (rewritten b0 b1) as Hrw by apply Hp.
  assert (types b1 = types b0) as Et by (by rewrite Hrw).
  destruct (passed_wf b0 (finalized_at e o b0) Hwf0 Hb0 b1) as [Hwf1 Hb1];
    [intros off t _; apply finalized_size|done|].
  assert (fits b1) as Hfits1.
  { eapply (passed_fits b0 (finalized_at e o b0)); [done|done|intros off t; apply finalized_size|done]. }
  assert (sections_ok b1) as Hok.
  { eapply finalized_sections_ok; [exact Hwf0|done|done|apply Hp|].
    intros off Hin. apply Hp; [done|by apply not_elem_of_nil]. }
  destruct (sanitize_btf_passed c b1 Hwf1 Hfits1 Hb1) as (b2 & E2 & Hp2); [done|].
  assert (types b2 = types b1) as Et2 by (by rewrite (passed_rewritten _ _ _ _ Hp2)).
  exists b2. split; [done|].
  split; [by apply (passed_wf b1 (sanitized_at c b1) Hwf1 Hb1 b2); [intros off t _; apply sanitized_size|]|].
  split; [congruence|]. intros off Hin. rewrite Et2 in Hin. apply (sanitized_supported c b1).
  apply Hp2; [done|by apply not_elem_of_nil].
Qed.
End Together.
