(* ===== verification/CoreObject.v ===== *)
(** * CO-RE: the object and the kernel

    Models the rest of the CO-RE relocations of [libbpf/src/libbpf.c]: the search for the
    BTF of the kernel and [bpf_core_reloc_fields], which takes the place of the interface
    [CoreOps] that [BpfLoad] and [LoadFds] are proved against. *)

From S2P Require Import Prelude Packet BpfMap BpfCalls BpfObject BpfLoad BpfOpen LoadFds OpenFds Btf BtfExt BtfObject Hashmap CoreSpec CoreReloc.
From Stdlib Require Import Ascii String.
From stdpp Require Import list.

Local Open Scope Z_scope.

#[local] Abbreviation bytes := (list Z).

(** ** The BTF of the kernel *)

(** [stat] (an error number or the size), [uname], [access] and [fopen] for reading (a
    stream or the negative error number), [fread] of at most so many bytes. *)
Class FileStat (W : Type) := {
  sys_stat : string -> W -> Z + Z;
  sys_release : W -> string;
  sys_readable : string -> W -> bool;
  sys_fopen : string -> W -> Z * W;
  sys_fread : Z -> Z -> W -> bytes * W;
}.

Section Find.
Context `{HostOrder} {W : Type} `{BpfSys W} `{BpfKern W} `{ElfSys W} `{FileStat W}.
Implicit Types (w : W).

Definition btf_load_raw (path : string) w : option ((Z + btf) * W) :=
  match sys_stat path w with
  | inl e => Some (inl (- e), w)
  | inr size =>
      let '(f, w) := sys_fopen path w in
      if f <? 0 then Some (inl f, w) else
      let '(bs, w) := sys_fread f size w in
      let '(_, w) := sys_close f w in
      if Z.of_nat (List.length bs) <? size then Some (inl (- EBADF), w) else
      r ← btf__new bs; Some (r, w)
  end.

(** The places, for a release of the kernel; the first one holds the bare BTF. *)
Definition locations (release : string) : list (string * bool) :=
  (("/sys/kernel/btf/vmlinux", true) ::
   ((fun p => (p, false)) <$>
    ["/boot/vmlinux-" +:+ release;
     "/lib/modules/" +:+ release +:+ "/vmlinux-" +:+ release;
     "/lib/modules/" +:+ release +:+ "/build/vmlinux";
     "/usr/lib/modules/" +:+ release +:+ "/kernel/vmlinux";
     "/usr/lib/debug/boot/vmlinux-" +:+ release;
     "/usr/lib/debug/boot/vmlinux-" +:+ release +:+ ".debug";
     "/usr/lib/debug/lib/modules/" +:+ release +:+ "/vmlinux"]))%string.

Fixpoint try_locations (l : list (string * bool)) w : option ((Z + btf) * W) :=
  match l with
  | [] => Some (inl (- ESRCH), w)
  | (path, raw_btf) :: l =>
      let path := substring 0 (Z.to_nat PATH_MAX - 1) path in
      if negb (sys_readable path w) then try_locations l w else
      '(r, w) ← (if raw_btf : bool then btf_load_raw path w else
                   '(r, w) ← btf__parse_elf path false w;
                   Some (match r with inl err => inl err | inr (b, _) => inr b end, w));
      match r with inl _ => try_locations l w | inr b => Some (inr b, w) end
  end.

Definition bpf_core_find_kernel_btf w : option ((Z + btf) * W) := try_locations (locations (sys_release w)) w.

(** ** The relocations of an object *)

Context (usable : Z -> Z) (calloc_ok : Z -> bool) (shift_out : Z -> Z).

(** On an error the cache is freed as well, which is always defined. *)
Definition core_reloc_fields (o : full_object btf btf_ext) (b : btf) (x : btf_ext)
    (targ_btf_path : option string) w : option ((Z + list (list bpf_insn)) * W) :=
  '(r, w) ← match targ_btf_path with
            | Some path =>
                '(r, w) ← btf__parse_elf path false w;
                Some (match r with inl err => inl err | inr (b, _) => inr b end, w)
            | None => bpf_core_find_kernel_btf w
            end;
  match r with
  | inl err => Some (inl err, w)
  | inr targ =>
      r ← reloc_all usable calloc_ok shift_out x (bpf_object__find_program_by_title (erase o))
            (insns <$> fprograms o) (relaxed_core_relocs o) b targ;
      Some (r, btf__free targ w)
  end.

#[export] Instance model_core : CoreOps btf btf_ext W := { bpf_core_reloc_fields := core_reloc_fields }.
End Find.

(** ** The laws of the interface *)

(** [fopen] opens a descriptor or fails, [fread] and the other calls open none; an error
    of [stat] has a number. *)
Class FileLaws (W : Type) `{FdLaws W} `{FileStat W} := {
  fopen_opens : forall p w f w', sys_fopen p w = (f, w') -> opens f (opened w) (opened w');
  fread_keeps : forall f n w bs w', sys_fread f n w = (bs, w') -> opened w' = opened w;
  stat_errno : forall p w e, sys_stat p w = inl e -> 0 < e;
}.

(** *** Errors *)

Section Errors.
Context `{HostOrder}.

Lemma btf_new_honest d : honest (Btf.btf__new d).
Proof.
  assert (forall fuel b next fin, honest (parse_types fuel b next fin)) as Htypes.
  { induction fuel as [|fuel IH]; intros b next fin; [done|]. cbn [parse_types].
    destruct (fin <=? next)%nat; [done|]. apply honest_bind. intros t.
    destruct (Z.ltb_spec (btf_type_size t) 0); [intros [= ?]; lia|]. apply honest_pass; [|intros; apply IH].
    unfold btf_add_type. cbn zeta. honest. }
  unfold Btf.btf__new. apply honest_pass; [unfold btf_parse_hdr; honest|]. intros h.
  apply honest_pass; [unfold btf_parse_str_sec; cbn zeta; honest|]. intros start. apply Htypes.
Qed.

Lemma match_cands_honest local ls targ ids kept ts : honest (match_cands local ls targ ids kept ts).
Proof.
  revert kept ts. induction ids as [|id ids IH]; intros kept ts; [done|]. cbn [match_cands].
  apply honest_bind. intros r. apply honest_bind. intros t. apply honest_bind. intros [err s].
  destruct (Z.ltb_spec err 0); [intros [= E]; lia|]. honest; apply IH.
Qed.

Lemma setup_honest d hdr_len field min : honest (btf_ext_setup d hdr_len field min).
Proof.
  unfold btf_ext_setup, btf_ext_setup_info. cbn zeta. honest.
  match goal with |- honest (check_records ?f ?d ?s ?l ?r) => generalize f, s, l, r end.
  intros fuel. induction fuel as [|fuel IH]; intros sinfo left size; [done|]. cbn [check_records]. honest.
Qed.

Lemma ext_new_honest d : honest (BtfExt.btf_ext__new d).
Proof.
  unfold BtfExt.btf_ext__new. apply honest_pass; [unfold btf_ext_parse_hdr; cbn zeta; honest|]. intros h.
  destruct (_ <? _); [done|]. apply honest_pass; [apply setup_honest|]. intros f.
  apply honest_pass; [apply setup_honest|]. intros l. destruct (_ <? _); [done|].
  apply honest_pass; [apply setup_honest|done].
Qed.

Context (usable : Z -> Z) (calloc_ok : Z -> bool) (shift_out : Z -> Z).

Lemma reloc_field_honest insns relaxed relo local targ c :
  honest (bpf_core_reloc_field usable calloc_ok shift_out insns relaxed relo local targ c).
Proof.
  assert (forall v, honest (cached_cands usable calloc_ok shift_out local v targ c)) as Hcached.
  { intros v. unfold cached_cands. apply honest_bind. intros [found|]; [done|].
    apply honest_rbind; [unfold bpf_core_find_cands; honest|]. intros ids. apply honest_bind. intros [[err old] m].
    destruct (Z.eqb_spec err 0); [done|]. cbn [negb]. congruence. }
  unfold bpf_core_reloc_field. destruct (btf__type_by_id _ _) as [r0|]; [|done]. cbn zeta.
  apply honest_bind. intros t. apply honest_bind. intros nm. destruct (str_is_empty nm); [done|].
  apply honest_bind. intros str. destruct (str_is_empty str); [done|]. apply honest_bind. intros [|ls]; [done|].
  apply honest_rbind; [apply Hcached|]. intros [v c1]. apply honest_bind. intros ids.
  apply honest_rbind; [apply match_cands_honest|]. intros [kept ts]. destruct (_ && _); [done|].
  apply honest_bind. by intros [|].
Qed.

Lemma reloc_records_honest n d p rec_size insns relaxed local targ c :
  honest (reloc_records usable calloc_ok shift_out n d p rec_size insns relaxed local targ c).
Proof.
  revert p insns c. induction n as [|n IH]; intros p insns c; [done|]. cbn [reloc_records].
  apply honest_bind. intros relo. apply honest_rbind; [apply reloc_field_honest|]. intros [insns' c']. apply IH.
Qed.

Lemma reloc_all_honest x find ps relaxed local targ :
  honest (reloc_all usable calloc_ok shift_out x find ps relaxed local targ).
Proof.
  unfold reloc_all. apply honest_pass; [|intros [ps1 c]; by apply honest_bind].
  generalize (Cache hashmap__init []), (S (Z.to_nat (ei_len (field_reloc_info x)))), (ei_info (field_reloc_info x)) at 1.
  intros c fuel sec. revert ps c sec.
  induction fuel as [|fuel IH]; intros ps c sec; [done|]. cbn [reloc_sections]. honest.
  apply reloc_records_honest.
Qed.
End Errors.

(** *** The model meets them *)

Section Laws.
Context `{HostOrder} {W : Type} `{KernLaws W} `{FileStat W, !FileLaws W}.
Context (usable : Z -> Z) (calloc_ok : Z -> bool) (shift_out : Z -> Z).
Implicit Types (w : W) (o : full_object btf btf_ext).

(** Nothing is left open; there is an error number or a BTF that is not in the kernel. *)
Definition closed_btf w (r : Z + btf) w' : Prop :=
  opened w' = opened w /\ r <> inl 0 /\ forall b, r = inr b -> fd b = -1.

(** The BTF of a file that holds nothing else. *)
Lemma load_raw_closes path w r w' :
  btf_load_raw path w = Some (r, w') -> closed_btf w r w'.
Proof.
  unfold btf_load_raw. destruct (sys_stat path w) as [e|size] eqn:Es.
  { intros [= <- <-]. apply stat_errno in Es. split; [done|]. split; [|done]. intros [= E]. lia. }
  destruct (sys_fopen path w) as [f w1] eqn:Ef. apply fopen_opens in Ef. destruct (Z.ltb_spec f 0) as [Hn|Hf].
  { intros [= <- <-]. unfold opens in Ef. rewrite (proj2 (Z.ltb_lt _ _) Hn) in Ef.
    split; [done|]. split; [|done]. intros [= E]. lia. }
  destruct (sys_fread f size w1) as [bs w2] eqn:Er. apply fread_keeps in Er.
  destruct (sys_close f w2) as [c w3] eqn:Ec. assert (opened w3 = opened w) as Ho by by eapply open_close.
  destruct (_ <? _); [by intros [= <- <-]|]. intros (x & Hx & [= <- <-])%bind_Some. split; [done|].
  split; [intros ->; by eapply btf_new_honest|]. intros b ->. by apply new_unloaded in Hx.
Qed.

Lemma parse_elf_honest path want_ext w w' :
  btf__parse_elf path want_ext w <> Some (inl 0, w').
Proof.
  unfold btf__parse_elf. destruct (negb _); [done|]. destruct (sys_open_file path w) as [f w1] eqn:Ef.
  destruct (Z.ltb_spec f 0); [intros [= E]; lia|]. intros ([r w2] & Hr & Hrun)%bind_Some.
  destruct (sys_close f w2) as [c w3]. injection Hrun as -> _. revert Hr.
  destruct (elf_begin f w1) as [e|]; [|done]. unfold parse_elf_sections. destruct (ehdr e); [|done].
  destruct (_ || _); [done|]. destruct (find_btf_sections _ _ _ _) as [[[d|] x]|]; [|done..].
  intros (r & Hr & Hrun)%bind_Some. destruct r as [err|b].
  { injection Hrun as -> _. revert Hr. apply honest_bind. intros bs. apply btf_new_honest. }
  destruct x as [d'|]; [|done]. apply bind_Some in Hrun as (r & Hx & Hrun). destruct r as [err|x]; [|done].
  injection Hrun as -> _. revert Hx. apply honest_bind. intros bs. apply ext_new_honest.
Qed.

Lemma parse_closes path w r w' :
  ('(r, w) ← btf__parse_elf path false w;
   Some (match r with inl err => inl err | inr (b, _) => inr b end, w)) = Some (r, w') ->
  closed_btf w r w'.
Proof.
  intros ([r1 w1] & Hp & [= <- <-])%bind_Some. pose proof (parse_elf_honest path false w w1) as Hh.
  destruct (parse_elf_closes _ _ _ _ _ Hp) as [Ho Hb]. split; [done|].
  destruct r1 as [err|[b x]]; split; try done; [congruence|]. intros b' [= <-]. by eapply Hb.
Qed.

Lemma locations_close l w r w' : try_locations l w = Some (r, w') -> closed_btf w r w'.
Proof.
  revert w. induction l as [|[path raw_btf] l IH]; intros w; cbn [try_locations]; [by intros [= <- <-]|].
  destruct (negb _); [by apply IH|]. intros ([r1 w1] & Hr & Hrun)%bind_Some.
  assert (closed_btf w r1 w1) as (Ho & Hh & Hb).
  { destruct raw_btf; [by eapply load_raw_closes|by eapply parse_closes]. }
  destruct r1 as [err|b]; [|by injection Hrun as <- <-].
  apply IH in Hrun as (Ho' & Hrest). split; [by rewrite Ho'|done].
Qed.

(** The relocations of an object, with what they read of the kernel. *)
Lemma core_reloc_closes o b x path w r w' :
  core_reloc_fields usable calloc_ok shift_out o b x path w = Some (r, w') ->
  opened w' = opened w /\ r <> inl 0.
Proof.
  unfold core_reloc_fields. intros ([r1 w1] & Hr & Hrun)%bind_Some.
  assert (closed_btf w r1 w1) as (Ho & Hh & Hb).
  { destruct path as [path|]; [by eapply parse_closes|by eapply locations_close]. }
  destruct r1 as [err|targ]; [injection Hrun as <- <-; split; [done|congruence]|].
  apply bind_Some in Hrun as (r2 & Ha & [= <- <-]). split; [|intros ->; by eapply reloc_all_honest].
  by rewrite free_closes, (Hb targ eq_refl).
Qed.

#[export] Instance model_core_laws : CoreLaws btf btf_ext W (H := model_core usable calloc_ok shift_out).
Proof. split. intros o b x path w r w' Hr. by apply core_reloc_closes in Hr as [Hr _]. Qed.

#[export] Instance model_core_errors : CoreErrors btf btf_ext W (H := model_core usable calloc_ok shift_out).
Proof. split. intros o b x path w w' Hr. by apply core_reloc_closes in Hr as [_ Hr]. Qed.
End Laws.
