(* ===== verification/OpenExamples.v ===== *)
(** * Opening, on a concrete file

    The object of [LoadExamples] as an ELF file, opened on its kernel, and the
    theorems of [BpfOpen] and [OpenFds] on it. *)

From S2P Require Import Prelude Packet BpfMap BpfCalls BpfObject BpfLoad SectionNames BpfOpen.
From S2P Require Import LoadFds OpenFds LoadExamples.
From Stdlib Require Import Ascii String.
Import LoadExamples.

Local Open Scope Z_scope.

Module OpenExamples.

#[export] Instance little : HostOrder := LittleEndian.

(** ** A file *)

Definition section (type flags link info : Z) (nm : string) (d : Elf_Data) : Elf_Scn :=
  ElfScn (Some (Shdr type flags link info (d_size d) 16)) (Some nm) (Some d).
Definition plain (bs : list Z) : Elf_Data := ElfData bs (Z.of_nat (List.length bs)) [] [].
Definition code_bytes (l : list bpf_insn) : list Z := List.concat (encode_insn <$> l).
Definition map_bytes : list Z := u32_bytes [1; 4; 8; 1024; 0].

Definition file_symbols : list GElf_Sym :=
  [Sym 1 16 5 0; Sym 6 16 5 20; Sym 23 18 1 0; Sym 12 18 3 0].
Definition file_relocs : list GElf_Rel := [Rel 0 (2 ^ 32 + 1); Rel 16 (2 * 2 ^ 32 + 10)].

Definition strings (sec offset : Z) : option string :=
  if negb (sec =? 7) then None else
  if offset =? 1 then Some "data"%string else
  if offset =? 6 then Some "flows"%string else
  if offset =? 12 then Some "xdp_filter"%string else
  if offset =? 23 then Some "f"%string else None.

Definition file : Elf :=
  ElfFile (Some (Ehdr ET_REL EM_BPF ELFDATA2LSB)) true
    [section SHT_PROGBITS 6 0 0 ".text" (plain (code_bytes text_code));
     section SHT_PROGBITS 3 0 0 "license" (plain (c_bytes "GPL"));
     section SHT_PROGBITS 6 0 0 "xdp" (plain (code_bytes main_code));
     section SHT_REL 0 6 3 ".relxdp" (ElfData [] 32 [] file_relocs);
     section SHT_PROGBITS 3 0 0 "maps" (plain (map_bytes ++ map_bytes));
     section SHT_SYMTAB 0 7 0 ".symtab" (ElfData [] 96 file_symbols []);
     section 3 0 0 0 ".strtab" (plain [])] strings.

(** ** libelf and a BTF reader *)

#[export] Instance kern_elf : ElfSys kern := {
  elf_version_ok _ := true;
  sys_open_file p w := if bool_decide (p = "missing.o"%string) then (- ENOENT, w) else open_fd w;
  elf_begin fd w := if refuse w then None else Some file;
  elf_memory bs := match bs with 127 :: _ => Some file | _ => None end;
  uname_release w := Some (5, 4, 0);
  kernel_btf w := None;
}.

(** No BTF: the section is refused, so nothing else is asked for. *)
#[export] Instance no_reader : BtfReader unit unit kern := {
  btf__new _ := Some (inl (-22));
  btf__finalize_data _ _ b := Some (0, b);
  btf_ext__new _ := Some (inl (-22));
  btf_maps _ _ _ _ _ := Some (inr []);
  sanitize_btf _ b := Some b;
  btf__load b w := (-22, b, w);
  btf__free _ w := w;
}.

#[export] Instance kern_open : OpenLaws unit unit kern.
Proof.
  constructor.
  - intros p w fd w'. cbn. case_bool_decide; [by intros [= <- <-]|apply open_opens_eq].
  - intros a w fd log w'. cbn. intros [= <- _ <-]. apply open_opens.
  - done.
  - by intros e o b err b' [= _ <-].
  - by intros c b b' [= <-].
  - by intros b w err b' w' [= _ <- <-].
  - done.
Defined.

Definition opts : open_opts := OpenOpts true None false None false.
Definition opened_file (src : source) (w : kern) : (Z + full_object unit unit) * kern :=
  default (inl 0, w) (__bpf_object__open 2 src opts w).
Definition obj : full_object unit unit :=
  match (opened_file (FromFile "dir/xdp_filter.o") calm).1 with
  | inr o => o
  | inl _ => object_of "flows"
  end.

(** The programs and the maps of the object, and the descriptors left open. *)
Example opened_object :
  (insns <$> fprograms obj) = [text_code; main_code] /\
  ((fun p => (name p, prog_type (pbase p))) <$> fprograms obj) =
    [("f", 0); ("xdp_filter", BPF_PROG_TYPE_XDP)]%string /\
  (map_name ∘ mbase <$> fmaps obj) = ["data"; "flows"]%string /\ license obj = "GPL"%string /\
  fds (opened_file (FromFile "dir/xdp_filter.o") calm).2 = [0; 1; 2].
Proof. vm_compute. repeat split. Qed.

(** Loading the object just opened. *)
Example opened_then_loaded :
  match bpf_object__load_xattr (fun _ => EmptyString) (fun _ _ => (0, 0)) (fun _ => 4) 2
          (Some obj) 0 None calm with
  | Some (r, Some o, w) => (r, held o, fds w)
  | _ => (-1, [], [])
  end = (0, [3; 4; 5], [5; 4; 3; 0; 1; 2]).
Proof. vm_compute. reflexivity. Qed.

(** ** The theorems on them *)

Definition read : opening :=
  match collect_elf file (get_kernel_version calm) with inr o => o | inl _ => new_opening 0 end.
Definition handle (w : kern) : kern := Kern [3; 0; 1; 2] (err w) (refuse w) (busy w).

Lemma opened_symbol_witness :
  (map_name ∘ mbase <$> fmaps obj) = ["data"; "flows"]%string /\
  exists data i m, elf_getscn file (maps_shndx (op_ef read)) ≫= scn_data = Some data /\
    first_map obj (Sym 6 16 5 20) i m /\
    map_of file read (d_size data / Z.of_nat 2) data (Sym 6 16 5 20) m.
Proof.
  split; [vm_compute; reflexivity|].
  refine (opened_symbol 2 "dir/xdp_filter.o" opts 3 file (Ehdr ET_REL EM_BPF ELFDATA2LSB)
    (get_kernel_version calm) (handle calm) obj _ read (ElfData [] 96 file_symbols [])
    (Sym 6 16 5 20) _ _ _ _ _ _ _).
  - vm_compute. reflexivity.
  - vm_compute. reflexivity.
  - vm_compute. reflexivity.
  - vm_compute. discriminate.
  - vm_compute. reflexivity.
  - apply (bool_decide_unpack (NoDup [0; 20])). vm_compute. exact I.
  - right. left.
Defined.

(** The file is opened, read and closed; or libelf does not take it. *)
Lemma open_account_witness :
  (opened_file (FromFile "dir/xdp_filter.o") strict).1 = inl (- LIBBPF_ERRNO__LIBELF) /\
  leaked (FromFile "dir/xdp_filter.o") opts strict = [3] /\
  account (opened strict) ([] ++ [3] ++ []) (handle strict).
Proof.
  split; [vm_compute; reflexivity|]. split; [vm_compute; reflexivity|].
  refine (open_account 2 (opened strict) [] (FromFile "dir/xdp_filter.o") opts strict
    (inl (- LIBBPF_ERRNO__LIBELF)) (handle strict) (no_account strict) _).
  vm_compute. reflexivity.
Defined.

Lemma decode_insns_encode_witness :
  exists p, bpf_program__init (ElfData (code_bytes main_code)
      (Z.of_nat (List.length (code_bytes main_code))) [] []) "xdp" 3 = inr p /\
    insns p = main_code /\ section_name (pbase p) = "xdp"%string /\ prog_idx (pbase p) = 3.
Proof.
  apply (decode_insns_encode main_code "xdp" 3 [] []); [|done].
  unfold main_code.
  repeat (apply List.Forall_cons; [repeat split; vm_compute; (discriminate || reflexivity)|]).
  apply List.Forall_nil.
Defined.
End OpenExamples.
