(* ===== verification/BtfExamples.v ===== *)
(** * BTF, on a concrete object file

    A BTF that declares a map with its keys and values, a variable and a function, in
    an ELF file read by the kernel of [LoadExamples]; the theorems of the BTF files on
    it, and the object opened and loaded with the model of BTF. *)

From S2P Require Import Prelude Packet BpfMap BpfCalls BpfObject BpfLoad SectionNames BpfOpen.
From S2P Require Import LoadFds OpenFds LoadExamples OpenExamples.
From S2P Require Import Btf BtfExt BtfPass BtfSanitize BtfFinalize BtfMaps BtfObject.
From Stdlib Require Import Ascii String.
From stdpp Require Import list.
Import LoadExamples OpenExamples.

Local Open Scope Z_scope.

Module BtfExamples.

(** ** A BTF *)

Definition strs : list Z :=
  [0] ++ c_bytes "int" ++ c_bytes "u64" ++ c_bytes "type" ++ c_bytes "max_entries" ++ c_bytes "key" ++
  c_bytes "value" ++ c_bytes "flows" ++ c_bytes ".maps" ++ c_bytes "f" ++ c_bytes "u32".

(** Where the strings are among them. *)
Definition s_int : Z := 1.
Definition s_u64 : Z := 5.
Definition s_type : Z := 9.
Definition s_max_entries : Z := 14.
Definition s_key : Z := 26.
Definition s_value : Z := 30.
Definition s_flows : Z := 36.
Definition s_maps : Z := 42.
Definition s_f : Z := 48.
Definition s_u32 : Z := 50.

Definition ty (nm kind vlen sz : Z) (words : list Z) : btf_desc :=
  Desc (BtfType nm (BTF_INFO_ENC kind vlen) sz) words.

(** [u32] is a typedef of [int]; the map is an array of 1024 values of 8 bytes. *)
Definition ex_types : list btf_desc := [
  ty s_int BTF_KIND_INT 0 4 [32];
  ty s_u64 BTF_KIND_INT 0 8 [64];
  ty 0 BTF_KIND_ARRAY 0 0 [1; 1; 2];
  ty 0 BTF_KIND_PTR 0 3 [];
  ty 0 BTF_KIND_ARRAY 0 0 [1; 1; 1024];
  ty 0 BTF_KIND_PTR 0 5 [];
  ty s_u32 BTF_KIND_TYPEDEF 0 1 [];
  ty 0 BTF_KIND_PTR 0 7 [];
  ty 0 BTF_KIND_PTR 0 2 [];
  ty 0 BTF_KIND_STRUCT 4 32
    [s_type; 4; 0; s_max_entries; 6; 64; s_key; 8; 128; s_value; 9; 192];
  ty s_flows BTF_KIND_VAR 0 10 [1];
  ty s_maps BTF_KIND_DATASEC 1 0 [11; 0; 32];
  ty 0 BTF_KIND_FUNC_PROTO 1 1 [0; 1];
  ty s_f BTF_KIND_FUNC 0 13 []].

Definition ex_bytes : list Z := Eval vm_compute in enc_btf ex_types strs.
Definition ex_btf : btf :=
  Eval vm_compute in match Btf.btf__new ex_bytes with Some (inr b) => b | _ => Btf [] (BtfHeader 0 0 0 0 0 0 0 0) [] 0 0 0 end.

Example ex_parsed : Btf.btf__new ex_bytes = Some (inr ex_btf).
Proof. vm_compute. reflexivity. Qed.

(** Bytes, by computation. *)
Lemma bytes_by_test (l : list Z) :
  forallb (fun b => (0 <=? b) && (b <? 256)) l = true -> Forall byte_ok l.
Proof.
  induction l as [|b l IH]; [done|]. cbn. intros [[?%Z.leb_le ?%Z.ltb_lt]%andb_true_iff ?]%andb_true_iff.
  constructor; [by unfold byte_ok|auto].
Qed.

(** The queries on it. *)
Example ex_queries :
  btf__resolve_size ex_btf 5 = Some 4096 /\ btf__resolve_size ex_btf 10 = Some 32 /\
  btf__resolve_size ex_btf 7 = Some 4 /\ btf__resolve_size ex_btf 13 = Some (- 22) /\
  btf__resolve_type ex_btf 7 = Some 1 /\ btf__find_by_name ex_btf "u64" = Some 2 /\
  btf__find_by_name ex_btf "u6" = Some (- ENOENT).
Proof. vm_compute. repeat split. Qed.

(** ** The file *)

Definition zeros (n : nat) : list Z := replicate n 0.
Definition btf_symbols : list GElf_Sym := [Sym 1 17 5 0; Sym 23 18 1 0; Sym 12 18 3 0].
Definition btf_strings (sec offset : Z) : option string :=
  if offset =? 1 then Some "flows"%string else
  if offset =? 12 then Some "xdp_filter"%string else
  if offset =? 23 then Some "f"%string else None.
Definition btf_relocs : list GElf_Rel := [Rel 0 (2 ^ 32 * 0 + 1); Rel 16 (1 * 2 ^ 32 + 10)].

Definition btf_file : Elf :=
  ElfFile (Some (Ehdr ET_REL EM_BPF ELFDATA2LSB)) true
    [section SHT_PROGBITS 6 0 0 ".text" (plain (code_bytes text_code));
     section SHT_PROGBITS 3 0 0 "license" (plain (c_bytes "GPL"));
     section SHT_PROGBITS 6 0 0 "xdp" (plain (code_bytes main_code));
     section SHT_REL 0 6 3 ".relxdp" (ElfData [] 32 [] btf_relocs);
     section SHT_PROGBITS 3 0 0 ".maps" (plain (zeros 32));
     section SHT_SYMTAB 0 7 0 ".symtab" (ElfData [] 72 btf_symbols []);
     section 3 0 0 0 ".strtab" (plain []);
     section SHT_PROGBITS 0 0 0 ".BTF" (plain ex_bytes)] btf_strings.

Definition ex_opening : opening :=
  match collect_elf btf_file 0 with inr o => o | inl _ => new_opening 0 end.
Definition ex_final : btf :=
  Eval vm_compute in
  match btf__finalize_data btf_file ex_opening ex_btf with Some (_, b) => b | None => ex_btf end.

Example ex_finalized : btf__finalize_data btf_file ex_opening ex_btf = Some (0, ex_final).
Proof. vm_compute. reflexivity. Qed.

Example ex_maps :
  bpf_object__init_user_btf_maps btf_file ex_opening ex_final true None =
    Some (inr [FullMap (BpfMap_ (-1) "flows" 0 (MapDef 2 4 8 1024 0) None false false)
                 5 0 (-1) 7 2 LIBBPF_MAP_UNSPEC]).
Proof. vm_compute. reflexivity. Qed.

Definition old_kernel : bpf_capabilities := Caps true true false false.
Definition kinds (b : btf) : list (option Z) :=
  (fun off => btf_kind <$> read_type (data b) off) <$> types b.

Example ex_sanitized :
  match bpf_object__sanitize_btf old_kernel ex_final with
  | Some b => (kinds b, name_at b s_maps)
  | None => ([], None)
  end = (Some <$> [1; 1; 3; 2; 3; 2; 8; 2; 2; 4; 1; 4; 6; 8], Some (Some "_maps"%string)).
Proof. vm_compute. reflexivity. Qed.

(** ** The theorems on them *)

Lemma ex_bytes_ok : Forall byte_ok (data ex_btf).
Proof. apply bytes_by_test. vm_compute. reflexivity. Qed.

Lemma ex_wf : wf ex_btf.
Proof. apply (btf_new_wf ex_bytes); [exact ex_bytes_ok|exact ex_parsed]. Qed.

Lemma ex_fits : fits ex_btf.
Proof. unfold fits. apply (bool_decide_unpack _). vm_compute. exact I. Qed.

Lemma final_bytes_ok : Forall byte_ok (data ex_final).
Proof. apply bytes_by_test. vm_compute. reflexivity. Qed.

Lemma final_wf : wf ex_final.
Proof. apply (btf_new_wf (data ex_final)); [exact final_bytes_ok|vm_compute; reflexivity]. Qed.

Lemma final_fits : fits ex_final.
Proof. unfold fits. apply (bool_decide_unpack _). vm_compute. exact I. Qed.

Lemma final_sections_ok : sections_ok ex_final.
Proof.
  pose proof (finalize_data_passed btf_file ex_opening ex_btf ex_wf ex_fits ex_bytes_ok ex_final
    ex_finalized) as Hp.
  eapply finalized_sections_ok; [exact ex_wf|exact ex_fits|apply Hp|apply Hp|].
  intros off Hin. apply Hp; [exact Hin|by apply not_elem_of_nil].
Qed.

Lemma sanitize_btf_spec_witness : exists b,
  bpf_object__sanitize_btf old_kernel ex_final = Some b /\ rewritten ex_final b /\ wf b /\
  forall off, off ∈ types ex_final -> sanitized_at old_kernel ex_final (data b) off /\
    exists t, read_type (data b) off = Some t /\ supported old_kernel (btf_kind t).
Proof.
  apply (sanitize_btf_spec old_kernel ex_final final_wf final_fits final_bytes_ok).
  intros _. exact final_sections_ok.
Defined.

Lemma finalize_data_spec_witness :
  rewritten ex_btf ex_final /\ wf ex_final /\
  (forall off, off ∈ types ex_btf -> finalized_at btf_file ex_opening ex_btf (data ex_final) off) /\
  same (outside_sections ex_btf) (data ex_btf) (data ex_final).
Proof.
  apply (finalize_data_spec btf_file ex_opening ex_btf ex_wf ex_fits ex_bytes_ok ex_final).
  vm_compute. reflexivity.
Defined.

Lemma btf_for_kernel_witness :
  exists b2, bpf_object__sanitize_btf old_kernel ex_final = Some b2 /\ wf b2 /\ types b2 = types ex_btf /\
    forall off, off ∈ types b2 ->
      exists t, read_type (data b2) off = Some t /\ supported old_kernel (btf_kind t).
Proof.
  apply (btf_for_kernel btf_file ex_opening old_kernel ex_bytes ex_btf ex_final);
    [exact ex_bytes_ok|exact ex_parsed|exact ex_fits|exact ex_finalized].
Defined.

Lemma ex_types_ok : Forall desc_ok ex_types.
Proof.
  repeat (apply List.Forall_cons; [split; [|vm_compute; reflexivity];
    repeat (apply List.Forall_cons; [split; vm_compute; (discriminate || reflexivity)|]);
    apply List.Forall_nil|]). apply List.Forall_nil.
Qed.

Lemma btf_new_encode_witness :
  exists b, Btf.btf__new (enc_btf ex_types strs) = Some (inr b) /\
    nr_types b = Z.of_nat (List.length ex_types) /\
    (forall i t, ex_types !! i = Some t -> exists off,
       btf__type_by_id b (Z.of_nat i + 1) = Some (At off) /\ deref b (At off) = Some (d_type t) /\
       True).
Proof.
  destruct (btf_new_encode ex_types strs) as (b & Hb & Hn & Ht & _);
    [exact ex_types_ok|discriminate| |vm_compute; reflexivity|].
  - split; [vm_compute; reflexivity|]. split; [vm_compute; reflexivity|vm_compute; discriminate].
  - exists b. split; [exact Hb|]. split; [exact Hn|]. intros i t Hi.
    destruct (Ht i t Hi) as (off & E1 & E2 & _). eauto.
Defined.

(** [int[1024]], two links away from its elements. *)
Lemma ex_sized : sized ex_btf 5 [1024] 4 2.
Proof.
  change [1024] with (a_nelems (BtfArray 1 1 1024) :: []).
  eapply sized_array; [vm_compute; reflexivity|vm_compute; reflexivity|reflexivity|
    vm_compute; reflexivity|].
  change 4 with (size_type (BtfType s_int (BTF_INFO_ENC BTF_KIND_INT 0) 4)).
  eapply sized_base; [vm_compute; reflexivity|vm_compute; reflexivity|reflexivity].
Qed.

Lemma resolve_size_spec_witness : btf__resolve_size ex_btf 5 = Some 4096.
Proof. rewrite (resolve_size_spec ex_btf ex_bytes_ok 5 [1024] 4 2 ex_sized); [reflexivity|unfold MAX_RESOLVE_DEPTH; lia]. Defined.

(** A section of [.BTF.ext]: two records for [f], one for [u32]. *)
Definition ext_bytes : list Z := Eval vm_compute in
  store 2 60319 ++ [1; 0] ++ enc_words [24; 0; 44; 44; 0] ++
  enc_words [8; s_f; 2; 0; 14; 8; 14; s_u32; 1; 0; 14].
Definition ex_ext : btf_ext := Eval vm_compute in
  match BtfExt.btf_ext__new ext_bytes with Some (inr x) => x | _ => BtfExt [] no_ext_info no_ext_info no_ext_info end.

Lemma ext_new_safe_witness :
  exists r, BtfExt.btf_ext__new ext_bytes = Some r /\ forall x, r = inr x -> ext_ok x /\ x_data x = ext_bytes.
Proof. apply (ext_new_safe ext_bytes). apply bytes_by_test. vm_compute. reflexivity. Defined.

Definition ex_records : list (Z * list Z) :=
  [(s_f, enc_words [0; 14; 8; 14]); (s_u32, enc_words [0; 14])].

Lemma ex_ext_sections :
  sections (x_data ex_ext) 8 (ei_info (func_info ex_ext)) (ei_len (func_info ex_ext)) ex_records.
Proof.
  do 2 (eapply sections_cons; [vm_compute; reflexivity|vm_compute; reflexivity|done|
    vm_compute; reflexivity|vm_compute; discriminate|]). apply sections_nil.
Qed.

(** The records of [f], moved by 5 instructions, after one that was there. *)
Lemma ext_reloc_info_spec_witness :
  btf_ext_reloc_info ex_btf ex_ext (func_info ex_ext) "f" 5 (Some (enc_words [7; 7])) 1 =
    Some (0, Some (enc_words [7; 7; 5; 14; 6; 14]), 3).
Proof.
  rewrite (ext_reloc_info_spec ex_btf ex_ext (func_info ex_ext) ex_records "f" 5
    (Some (enc_words [7; 7])) 1).
  - vm_compute. reflexivity.
  - exact ex_ext_sections.
  - vm_compute. discriminate.
  - repeat apply List.Forall_cons; [eexists; vm_compute; reflexivity..|apply List.Forall_nil].
  - split; vm_compute; (discriminate || reflexivity).
  - vm_compute. discriminate.
  - vm_compute. reflexivity.
  - vm_compute. reflexivity.
Defined.

Lemma btf_maps_declared_witness :
  exists data, elf_getscn btf_file (btf_maps_shndx (op_ef ex_opening)) ≫= scn_data = Some data /\
    Forall (declared ex_final (btf_maps_shndx (op_ef ex_opening)) data None)
      [FullMap (BpfMap_ (-1) "flows" 0 (MapDef 2 4 8 1024 0) None false false) 5 0 (-1) 7 2 LIBBPF_MAP_UNSPEC].
Proof.
  apply (btf_maps_declared ex_final final_bytes_ok btf_file ex_opening true None). exact ex_maps.
Defined.

(** ** The object, with the model of BTF *)

(** The kernel answers that a BTF is the one of the example; a small buffer is not
    filled. *)
#[export] Instance kern_btf : BtfSys kern := {
  sys_btf_info f size w := (0, take (Z.to_nat size) ex_bytes, Z.of_nat (List.length ex_bytes), w);
}.

#[export] Instance btf_elf : ElfSys kern := {
  elf_version_ok _ := true;
  sys_open_file p w := if bool_decide (p = "missing.o"%string) then (- ENOENT, w) else open_fd w;
  elf_begin fd w := if refuse w then None else Some btf_file;
  elf_memory bs := None;
  uname_release w := Some (5, 4, 0);
  kernel_btf w := None;
}.

#[export] Instance kern_btf_laws : KernLaws kern.
Proof.
  constructor.
  - intros p w f w'. cbn. case_bool_decide; [by intros [= <- <-]|apply open_opens_eq].
  - intros a w f log w'. cbn. intros [= <- _ <-]. apply open_opens.
  - intros w f. cbn. rewrite elem_of_open_set. by intros [? _].
Defined.

#[export] Instance kern_btf_sys_laws : BtfSysLaws kern.
Proof.
  constructor.
  - intros id w f w'. apply open_opens_eq.
  - by intros f size w e bs n w' [= _ _ _ <-].
Defined.

Definition opened_btf (w : kern) : (Z + full_object btf btf_ext) * kern :=
  default (inl 0, w) (__bpf_object__open (B := btf) (X := btf_ext) 2 (FromFile "dir/flows.o") opts w).

(** Opened: one map, from the BTF, with the types of its keys and values; the BTF as
    the kernel took it, behind descriptor 4. *)
Example opened_object_btf :
  match opened_btf calm with
  | (inr o, w) => ((fun m => (map_name (mbase m), def (mbase m), btf_key_type_id m, btf_value_type_id m)) <$> fmaps o,
                   fd <$> BpfLoad.btf o, fds w)
  | (inl e, w) => ([], Some e, fds w)
  end = ([("flows"%string, MapDef 2 4 8 1024 0, 7, 2)], Some 4, [4; 0; 1; 2]).
Proof. vm_compute. reflexivity. Qed.

(** Loading it: the map and the program. *)
Example loaded_object_btf :
  match opened_btf calm with
  | (inr o, w) =>
      match bpf_object__load_xattr (fun _ => EmptyString) (fun _ _ => (0, 0)) (fun _ => 4) 2 (Some o) 0 None w with
      | Some (r, Some o, w) => (r, held o, fds w)
      | _ => (-1, [], [])
      end
  | (inl e, w) => (e, [], [])
  end = (0, [5; 6], [6; 5; 4; 0; 1; 2]).
Proof. vm_compute. reflexivity. Qed.

(** Reading a BTF of the kernel leaves the descriptors as they were. *)
Lemma get_from_id_closes_witness :
  exists r w', btf__get_from_id 1 calm = Some (0, r, w') /\ opened w' = opened calm.
Proof.
  destruct (btf__get_from_id 1 calm) as [[[e r] w']|] eqn:E; [|vm_compute in E; discriminate].
  exists r, w'. destruct (get_from_id_closes 1 calm e r w' E) as [Ho _].
  split; [|exact Ho]. vm_compute in E. injection E as <- <- <-. reflexivity.
Defined.

Lemma parse_elf_closes_witness :
  exists b w', btf__parse_elf "dir/flows.o" true calm = Some (inr (b, None), w') /\
    opened w' = opened calm /\ fd b = -1.
Proof.
  destruct (btf__parse_elf "dir/flows.o" true calm) as [[r w']|] eqn:E; [|vm_compute in E; discriminate].
  destruct r as [e|[b x]]; [vm_compute in E; discriminate|].
  destruct (parse_elf_closes "dir/flows.o" true calm _ w' E) as [Ho Hb].
  exists b, w'. split; [|split; [exact Ho|by apply (Hb b x)]].
  assert (x = None) as ->; [|reflexivity]. vm_compute in E. by injection E as _ <- _.
Defined.
End BtfExamples.
