(* ===== verification/CoreExamples.v ===== *)
(** * CO-RE, on a concrete program and kernel

    A program compiled against [struct flow] of an old kernel, the BTF of a kernel where
    the field it reads has become a bitfield inside an anonymous structure, and the
    theorems of the CO-RE files on them. *)

From S2P Require Import Prelude Packet BpfMap BpfCalls BpfObject BpfLoad BpfOpen LoadFds LoadExamples OpenExamples Btf BtfExt BtfPass BtfMaps BtfObject BtfExamples Hashmap CoreSpec CoreReloc CoreSound CoreObject.
From Stdlib Require Import Ascii String.
From stdpp Require Import list.
Import LoadExamples OpenExamples BtfExamples.

Local Open Scope Z_scope.

Module CoreExamples.

(** ** The program's types and the kernel's *)

Definition strs : list Z :=
  [0] ++ c_bytes "int" ++ c_bytes "flow" ++ c_bytes "id" ++ c_bytes "cnt" ++ c_bytes "a" ++
  c_bytes "flow___v2" ++ c_bytes "pad" ++ c_bytes "0:1" ++ c_bytes "0:2:3" ++ c_bytes "prog".
Definition s_int : Z := 1.
Definition s_flow : Z := 5.
Definition s_id : Z := 10.
Definition s_cnt : Z := 13.
Definition s_a : Z := 17.
Definition s_flow2 : Z := 19.
Definition s_pad : Z := 29.
Definition s_path : Z := 33.
Definition s_path_a : Z := 37.
Definition s_prog : Z := 43.

Definition kflag : Z := 2 ^ 31.
Definition bits (size off : Z) : Z := size * 2 ^ 24 + off.

(** [struct flow { int id; int cnt; int a[4]; }]. *)
Definition local_types : list btf_desc := [
  ty s_int BTF_KIND_INT 0 4 [32];
  ty 0 BTF_KIND_ARRAY 0 0 [1; 1; 4];
  ty s_flow BTF_KIND_STRUCT 3 24 [s_id; 1; 0; s_cnt; 1; 32; s_a; 2; 64]].

(** [struct flow___v2 { int pad; struct { int id : 7; int cnt : 13; }; long : 64; int a[8]; }]. *)
Definition targ_types : list btf_desc := [
  ty s_int BTF_KIND_INT 0 4 [32];
  ty 0 BTF_KIND_ARRAY 0 0 [1; 1; 8];
  Desc (BtfType 0 (BTF_INFO_ENC BTF_KIND_STRUCT 2 + kflag) 4) [s_id; 1; bits 7 0; s_cnt; 1; bits 13 7];
  ty s_flow2 BTF_KIND_STRUCT 3 48 [s_pad; 1; 0; 0; 3; 32; s_a; 2; 128]].

Definition no_btf : btf := Btf [] (BtfHeader 0 0 0 0 0 0 0 0) [] 0 0 0.
Definition local_bytes : list Z := Eval vm_compute in enc_btf local_types strs.
Definition targ_bytes : list Z := Eval vm_compute in enc_btf targ_types strs.
Definition local : btf :=
  Eval vm_compute in match Btf.btf__new local_bytes with Some (inr b) => b | _ => no_btf end.
Definition targ : btf :=
  Eval vm_compute in match Btf.btf__new targ_bytes with Some (inr b) => b | _ => no_btf end.

Lemma local_wf : Btf.wf local.
Proof. apply (btf_new_wf local_bytes); [|vm_compute; reflexivity]. apply bytes_by_test. vm_compute. reflexivity. Qed.

Lemma targ_bytes_ok : Forall byte_ok (data targ).
Proof. apply bytes_by_test. vm_compute. reflexivity. Qed.

(** The spec of [cnt] in both. *)
Definition local_spec : core_spec :=
  CoreSpec [Accessor 3 0 None; Accessor 3 1 (Some "cnt"%string)] [0; 1] 32.
Definition targ_spec : core_spec :=
  CoreSpec [Accessor 4 0 None; Accessor 3 1 (Some "cnt"%string)] [0; 1; 1] 39.

Example cnt_specs :
  bpf_core_spec_parse local 3 (Some "0:1"%string) = Some (inr local_spec) /\
  bpf_core_spec_match local local_spec targ 4 = Some (1, targ_spec) /\
  bpf_core_find_cands id local 3 targ = None /\
  bpf_core_find_cands (fun n => Z.max n 24) local 3 targ = Some (inr [4]).
Proof. vm_compute. repeat split. Qed.

(** ** The fields of a structure, as a table *)

#[local] Abbreviation row := (nat * nat * string)%type.

(** Member [i] at [p] is in the table, and so are the fields inside it. *)
Definition closed_member (b : btf) (rows : list row) (p i : nat) : bool :=
  match btf_member_at b p i with
  | None => true
  | Some m =>
      match name_at b (m_name_off m) with
      | None => true
      | Some n =>
          if str_is_empty n then
            match skip_id b (m_type m) with
            | Some (_, At q) =>
                forallb (fun r : row => negb (bool_decide (r.1.1 = q)) || bool_decide ((p, i, r.2) ∈ rows)) rows
            | _ => true
            end
          else match n with Some nm => bool_decide ((p, i, nm) ∈ rows) | None => true end
      end
  end.

Definition closed_table (b : btf) (rows : list row) : bool :=
  forallb (fun p =>
    match read_type (data b) p with
    | Some t => forallb (closed_member b rows p) (seq 0 (Z.to_nat (btf_vlen t)))
    | None => true
    end) (types b).

(** The same name in the same structure is the same member. *)
Definition one_each (rows : list row) : bool :=
  forallb (fun r : row => forallb (fun r' : row =>
    negb (bool_decide (r.1.1 = r'.1.1)) || negb (bool_decide (r.2 = r'.2)) || bool_decide (r.1.2 = r'.1.2)) rows) rows.

Lemma closed_table_member b rows id cid p t i m n :
  closed_table b rows = true -> composite_at b id cid p t -> member b p t i m n ->
  closed_member b rows p i = true.
Proof.
  intros Hc (Hs & Ht & _) (Hi & _). apply skip_id_type in Hs. unfold btf__type_by_id in Hs.
  destruct (_ <? _); [done|]. destruct (cid =? 0); [done|]. apply fmap_Some in Hs as (p' & Hp & [= <-]).
  apply list_elem_of_lookup_2 in Hp. unfold closed_table in Hc. rewrite forallb_forall in Hc.
  specialize (Hc p (proj1 (list_elem_of_In _ _) Hp)). rewrite Ht in Hc. rewrite forallb_forall in Hc.
  apply Hc, in_seq. lia.
Qed.

Lemma visible_row b rows nm p i :
  closed_table b rows = true -> visible b nm p i -> (p, i, nm) ∈ rows.
Proof.
  intros Hc. induction 1 as [id cid p t i m Hcomp Hm He|id cid p t i m n cid' q t' j Hcomp Hm He Hcomp' Hv IH].
  - pose proof (closed_table_member _ _ _ _ _ _ _ _ _ Hc Hcomp Hm) as Hrow. destruct Hm as (_ & Hm & Hn).
    unfold closed_member in Hrow. rewrite Hm, Hn, He in Hrow. by apply bool_decide_eq_true in Hrow.
  - pose proof (closed_table_member _ _ _ _ _ _ _ _ _ Hc Hcomp Hm) as Hrow. destruct Hm as (_ & Hm & Hn).
    destruct Hcomp' as (Hs' & _). unfold closed_member in Hrow. rewrite Hm, Hn, He, Hs' in Hrow.
    rewrite forallb_forall in Hrow. specialize (Hrow _ (proj1 (list_elem_of_In _ _) IH)). cbn in Hrow.
    rewrite bool_decide_eq_true_2 in Hrow by done. by apply bool_decide_eq_true in Hrow.
Qed.

Lemma unambiguous_by_table b rows :
  closed_table b rows = true -> one_each rows = true -> unambiguous b.
Proof.
  intros Hc Ho nm p i j Hi%(visible_row _ _ _ _ _ Hc) Hj%(visible_row _ _ _ _ _ Hc).
  unfold one_each in Ho. rewrite forallb_forall in Ho. specialize (Ho _ (proj1 (list_elem_of_In _ _) Hi)).
  rewrite forallb_forall in Ho. specialize (Ho _ (proj1 (list_elem_of_In _ _) Hj)). cbn in Ho.
  rewrite !(bool_decide_eq_true_2 (_ = _)) in Ho by done. by apply bool_decide_eq_true in Ho.
Qed.

Lemma targ_unambiguous : unambiguous targ.
Proof.
  apply (unambiguous_by_table targ
    [(64%nat, 0%nat, "id"%string); (64%nat, 1%nat, "cnt"%string); (100%nat, 0%nat, "pad"%string); (100%nat, 1%nat, "id"%string);
     (100%nat, 1%nat, "cnt"%string); (100%nat, 2%nat, "a"%string)]); vm_compute; reflexivity.
Qed.

(** ** The relocations *)

(** [mov] of an immediate operand. *)
Definition mov (reg v : Z) : bpf_insn := BpfInsn 183 reg 0 0 v.

(** Where to load [cnt], how much, the shifts, whether there is one; where [a[3]] is. *)
Definition prog : list bpf_insn := [mov 1 4; mov 2 4; mov 3 32; mov 4 32; mov 5 1; mov 6 20].
Definition relocated_prog : list bpf_insn := [mov 1 4; mov 2 4; mov 3 44; mov 4 51; mov 5 1; mov 6 28].

Definition ext_bytes : list Z := Eval vm_compute in
  store 2 60319 ++ [1; 0] ++ enc_words [32; 0; 0; 0; 0; 0; 108] ++
  enc_words [16; s_prog; 6;
    0; 3; s_path; BPF_FIELD_BYTE_OFFSET; 8; 3; s_path; BPF_FIELD_BYTE_SIZE;
    16; 3; s_path; BPF_FIELD_LSHIFT_U64; 24; 3; s_path; BPF_FIELD_RSHIFT_U64;
    32; 3; s_path; BPF_FIELD_EXISTS; 40; 3; s_path_a; BPF_FIELD_BYTE_OFFSET].
Definition ext : btf_ext := Eval vm_compute in
  match BtfExt.btf_ext__new ext_bytes with Some (inr x) => x | _ => BtfExt [] no_ext_info no_ext_info no_ext_info end.

Definition find_prog (nm : string) : option nat := if bool_decide (nm = "prog"%string) then Some 0%nat else None.

(** glibc makes room for 24 bytes at least. *)
Definition glibc (n : Z) : Z := Z.max n 24.
Definition small (n : Z) : bool := n <? 1000.

Definition run (relaxed : bool) (b t : btf) := reloc_all glibc small (fun _ => 0) ext find_prog [prog] relaxed b t.

Example prog_relocated : run false local targ = Some (inr [relocated_prog]).
Proof. vm_compute. reflexivity. Qed.

(** A kernel without the structure: an error, or, relaxed, a value that marks the
    instruction. *)
Definition other : btf :=
  Eval vm_compute in
  match Btf.btf__new (enc_btf [ty s_int BTF_KIND_INT 0 4 [32]] strs) with Some (inr b) => b | _ => no_btf end.

Example no_candidates :
  run false local other = Some (inl (- ESRCH)) /\
  run true local other = Some (inr [[mov 1 (-1); mov 2 (-1); mov 3 (-1); mov 4 (-1); mov 5 0; mov 6 (-1)]]).
Proof. vm_compute. split; reflexivity. Qed.

(** ** The theorems on them *)

Lemma small_bound n : small n = true -> n * 8 < 2 ^ 63.
Proof. unfold small. intros ?%Z.ltb_lt. lia. Qed.

Lemma ext_accepted : ext_ok ext.
Proof.
  destruct (ext_new_safe ext_bytes) as (r & Hr & Hok).
  { apply bytes_by_test. vm_compute. reflexivity. }
  assert (btf_ext__new ext_bytes = Some (inr ext)) as E by (vm_compute; reflexivity).
  rewrite E in Hr. injection Hr as <-. by apply Hok.
Qed.

Lemma reloc_all_sound_witness : exists secs A,
  (field_reloc_info ext = no_ext_info /\ secs = [] \/
     sections (x_data ext) (ei_rec_size (field_reloc_info ext)) (ei_info (field_reloc_info ext))
       (ei_len (field_reloc_info ext)) secs) /\
  sections_relocated local targ (ei_rec_size (field_reloc_info ext)) find_prog false secs (fun _ => None)
    [prog] A [relocated_prog].
Proof.
  apply (reloc_all_sound glibc small (fun _ => 0) small_bound local targ local_wf targ_bytes_ok
    targ_unambiguous ext find_prog [prog] false [relocated_prog] ext_accepted).
  exact prog_relocated.
Defined.

Definition cnt_struct : btf_type := BtfType 0 (BTF_INFO_ENC BTF_KIND_STRUCT 2 + kflag) 4.
Definition cnt_member : btf_member := BtfMember s_cnt 1 (bits 13 7).

Lemma cnt_field : field_of targ targ_spec cnt_struct cnt_member (At 24) (BtfType s_int (BTF_INFO_ENC BTF_KIND_INT 0) 4).
Proof.
  exists (Accessor 3 1 (Some "cnt"%string)), "cnt"%string, (At 64), 64%nat, 1.
  repeat split; vm_compute; reflexivity.
Qed.

Definition a_flow : list Z := [1; 2; 3; 4; 133; 203; 7; 9].

(** [cnt] is bits 7 to 19 of the word at 4. *)
Lemma field_relo_extracts_witness :
  field_value a_flow 39 13 = 3991 /\
  exists n, n = 13 /\ Z.shiftr (u64 (Z.shiftl (Packet.load [133; 203; 7; 9]) 44)) 51 = field_value a_flow 39 n.
Proof.
  split; [vm_compute; reflexivity|].
  refine (field_relo_extracts targ targ_spec cnt_struct cnt_member (At 24) _ 4 4 44 51 _ _ _ _ a_flow [133; 203; 7; 9]
    targ_bytes_ok cnt_field _ _ _ _ _ _ _ _ _).
  1-4: vm_compute; reflexivity.
  - cbn. lia.
  - lia.
  - intros Hn. exfalso. apply Hn. vm_compute. reflexivity.
  - apply bytes_by_test. vm_compute. reflexivity.
  - vm_compute. reflexivity.
Defined.

(** ** Loading an object *)

(** The kernel offers its BTF in [/sys]; it gives streams as it gives files. *)
#[export] Instance kern_files : FileStat kern := {
  sys_stat p w := if bool_decide (p = "/sys/kernel/btf/vmlinux"%string)
                  then inr (Z.of_nat (List.length targ_bytes)) else inl 2;
  sys_release w := "5.4.0"%string;
  sys_readable p w := bool_decide (p = "/sys/kernel/btf/vmlinux"%string);
  sys_fopen p w := open_fd w;
  sys_fread f n w := (take (Z.to_nat n) targ_bytes, w);
}.

#[export] Instance kern_file_laws : FileLaws kern.
Proof.
  constructor.
  - intros p w f w'. apply open_opens_eq.
  - by intros f n w bs w' [= _ <-].
  - intros p w e. cbn. case_bool_decide; [done|]. by intros [= <-].
Defined.

Example kernel_btf_found : bpf_core_find_kernel_btf calm = Some (inr targ, calm).
Proof. vm_compute. reflexivity. Qed.

Definition core_object : full_object btf btf_ext :=
  FullObject btf btf_ext [a_program 1 "prog" "prog" (prog ++ [BpfInsn 149 0 0 0 0])] [] "GPL" 0 [] [] false
    false (Efile 5 (-1) (-1) (-1) (-1) (-1)) (Some local) (Some (local, ext)) (Caps true true false false) false.

Definition loaded (w : kern) : option (Z * option (full_object btf btf_ext) * kern) :=
  bpf_object__load_xattr (H0 := model_core glibc small (fun _ => 0))
    (fun _ => EmptyString) (fun _ _ => (0, 0)) (fun _ => 4) 2 (Some core_object) 0 None w.

(** Relocated: the instructions are those of this kernel; loaded: one descriptor, for
    the program, whose instructions are gone. *)
Example core_object_loaded :
  match bpf_object__relocate (H0 := model_core glibc small (fun _ => 0)) core_object None calm with
  | Some (inr o, w) => (insns <$> fprograms o, fds w)
  | _ => ([], [])
  end = ([relocated_prog ++ [BpfInsn 149 0 0 0 0]], [0; 1; 2]) /\
  match loaded calm with
  | Some (r, Some o, w) => (r, insns <$> fprograms o, held o, fds w)
  | _ => (-1, [], [], [])
  end = (0, [[]], [3], [3; 0; 1; 2]).
Proof. vm_compute. split; reflexivity. Qed.
End CoreExamples.
